(* ===== verification/_CoqProject ===== *)
-Q . S2P
Prelude.v
CString.v
Mmu.v
Proc.v
ProcSpec.v
ProcInv.v
Asm.v
Mp.v
Rtc.v
Smp.v
Boot.v
Kalloc.v
Vm.v
VmSpec.v
Locks.v
Bio.v
BioSpec.v
BioView.v
Layout.v
Ide.v
Log.v
LogSpec.v
LogCrash.v
LogTx.v
Fs.v
FsBits.v
FsInode.v
FsSpec.v
FsAlloc.v
FsPath.v
FsFile.v
FsContent.v
FsDir.v
FsName.v
Ring.v
Pipe.v
World.v
File.v
Syscall.v
Sysfile.v
Trap.v
Refs.v
RefsFine.v
RefsSys.v
Kernel.v
Grep.v
Printf.v
Utils.v
Console.v
Shell.v
Umalloc.v
Mkfs.v
MkfsSpec.v
MkfsImage.v
MkfsKernel.v
MkfsPath.v
