(* ===== verification/Prelude.v ===== *)
(** * Verification of the xv6 kernel of this repository

    The sources are a fork of xv6 for the x86: a Unix-like kernel with a
    niceness scheduler, a call that reports on processes, and a file system in
    block groups; the program mkfs that builds a disk image; and user
    programs.  This library translates them into Rocq and proves what makes
    them correct.

    ** The parts of the program and the files of this library

    - [Prelude]: 32-bit, 16-bit and 8-bit arithmetic, the monad of kernel code
      ([kM S A], a function on the state whose outcome is [Ok] or [Panic]),
      and [pres], which says that code moves the state only along a preorder.
    - [CString]: string.c, and the string functions of ulib.c.
    - [Mmu]: memlayout.h and mmu.h.
    - [Proc], [ProcSpec], [ProcInv]: proc.c and proc.h.  [kst] is [ptable]
      with the state of the CPUs; what proc.c calls of the other parts is the
      class [ProcSvc].  [ProcSpec] describes every operation for any
      instance of the class: an operation fails exactly when one of the calls
      it makes there, in their order, fails.  [ProcInv] interleaves the
      critical sections of any number of CPUs, and counts the processes made.
    - [Asm]: swtch.S, trapasm.S, vectors.S, usys.S and initcode.S as lists of
      instructions on the registers of a CPU and a memory, with what the CPU
      does at an interrupt and at iret, and the gates that [tvinit] sets.
    - [Boot], [Mp], [Smp], [Rtc]: the boot loader bootmain.c; mp.c and
      ioapic.c; lapic.c, picirq.c and startothers of main.c, with the other
      processors running beside it; and the clock of lapic.c.
    - [Kalloc], [Vm], [VmSpec]: kalloc.c and vm.c over a byte memory.
    - [Locks]: spinlock.c and sleeplock.c.
    - [Bio], [BioSpec], [BioView]: bio.c over the driver memide.c; [Ide]: the
      driver ide.c, over a device that is a class with laws.
    - [Layout]: the disk format of fs.h.
    - [Log], [LogSpec], [LogCrash], [LogTx]: log.c, crashes and recovery.
    - [Fs], [FsBits], [FsInode], [FsSpec], [FsAlloc], [FsPath], [FsFile],
      [FsContent], [FsDir], [FsName]: fs.c; the definitions are in [Fs], the
      other files hold the theorems on bitmaps, inodes, contents, directories
      and path names.
    - [Ring]: ring buffers with wrapping counters, which pipes and the console
      share; [Pipe]: pipe.c, any number of readers and writers interleaved.
    - [World], [File]: the state the parts share, file.c, pipealloc, and the
      instance of [ProcSvc] that the kernel really runs on.
    - [Syscall], [Sysfile], [Trap]: syscall.c, sysfile.c, exec.c, sysproc.c,
      and the part of trap.c that handles system calls, clock ticks and faults.
    - [Refs], [RefsFine], [RefsSys], [Kernel]: the reference counts of open
      files.  [RefsFine] cuts dup, close, open, pipe, fork and exit wherever
      another process can run, and interleaves them; [Kernel] is the kernel as
      a transition system of whole system calls, and [RefsSys] shows that each
      of these is a run of the finer steps.
    - [Console]: console.c, kbd.c and the output of uart.c.
    - [Grep], [Printf], [Utils], [Shell], [Umalloc]: grep.c; printf.c and the
      formatting half of console.c; cat.c, wc.c, ls.c and echo.c over an
      interface to the kernel with laws; sh.c; umalloc.c.
    - [Mkfs], [MkfsSpec], [MkfsImage]: mkfs.c; [MkfsKernel] and [MkfsPath] run
      the kernel on the image that mkfs makes.

    A C function is a definition with its name.  Pointers to elements of a
    table are indices; pointers into memory are addresses.  [panic] and failed
    assertions are [Panic] with a message.  A kernel call that would sleep is
    cut there: in [Proc] and [Pipe] it is a state of the caller that a later
    step resumes, and elsewhere it is [Panic "sleep"], so that a theorem that
    the code returns also says that it did not have to wait.

    ** What the theorems show

    - The log: whatever prefix of its disk writes a commit gets to make before
      a crash, recovery leaves every block old or every block new, and may
      itself be interrupted; the last [end_op] of a transaction puts the
      contents on the disk; [begin_op] admits one block more than the log of
      mkfs holds.
    - The file system: the bitmaps of the groups describe one set, [balloc]
      adds the least free block and [bfree] removes one; [writei] and [readi]
      act on a file as on a list of bytes, and a write touches no other file
      and no other inode; a directory is a map from names to inodes, in which
      [dirlookup] finds and to which [dirlink] adds; [namex] walks a path to
      the inode it names and takes one reference.  mkfs writes an image of
      which the kernel's geometry and allocator invariants hold, and the
      kernel opens by path, and reads, the files mkfs was given.
    - The buffer cache: what a read returns is the last contents written, and
      a dirty buffer is never evicted.
    - The disk driver: any interleaving of callers and interrupts has the
      effect of the driver memide.c on the requests in order, but for the
      requests that the device fails, and every caller is woken.
    - Processes: an invariant of every reachable interleaving (parents live and are
      older than their children, each running process is on one CPU, and, until
      the counter of pids wraps, pids are distinct); fork, exit, wait, kill, the
      niceness scheduler and the process-information call, on every branch.
    - Memory: the page allocator hands out each page to one client, cleared
      of links; [mappages], [allocuvm] and [deallocuvm] act on address
      translation and on ownership of pages as intended.
    - Open files: at every point where the scheduler may switch, the count of a
      file is the number of descriptors that name it, plus the references that
      calls under way hold; no call finds the file it works on free.  System
      call arguments lie in the memory of the process.
    - Pipes: bytes come out in the order they went in, none lost or repeated,
      and no reader or writer sleeps while it could go on.
    - Locks: mutual exclusion, and interrupts restored by balanced use.
    - Traps and context switches: [swtch] resumes a saved thread where it was,
      with its registers; a trap and the return from it change nothing that
      the interrupted program can see but what the handler puts in the trap
      frame; the stubs of usys.S call the kernel with the number and the
      arguments of a C call; a new process starts in its trap frame.
    - The start: the boot loader puts every segment of the kernel in its
      place; [mpinit] finds the processors of the BIOS table, and
      [startothers] starts each of them on a stack of its own; the interrupts
      that are enabled are the ones routed; the clock is read as it was at one
      moment.
    - The console: any sequence of keys and reads behaves as a line editor on
      lists.
    - The shell: the parser ends on every line, inverts printing, and, where
      fork and exec succeed, the programs of a command see the descriptors the
      command asks for.
    - The user allocator: the free and the allocated blocks tile the heap, and
      a client's blocks are its own.
    - Strings, [printf] and [cprintf], the regular expressions of grep, and
      cat, wc, ls and echo, against reference definitions.
    - Where the code does not do what it means to, a theorem exhibits the
      behaviour: [kill_zero_poisons], [nice_sign_ignored],
      [uva2ka_unchecked], [log_over_reserved],
      [pipewrite_killed_lost_wakeup], [grep_short_read_loses_line],
      [malloc_wraps], [malloc_huge_faults], [append_overwrites],
      [cd_chops_name], [ideintr_hides_error], [dirlink_self_deadlock],
      [full_root_panics], [mpinit_unknown_hangs], [nextpid_wraps].

    ** Bounds and fuel

    A loop that counts is structural in its counter.  A loop over an address
    range or a file takes its fuel from the range, and its lemma shows that
    the fuel is not used up (for instance [iappend], where every turn but the
    first and the last fills a block).  Loops that follow links ([bget], the
    ancestor walk of [can_access_procinfo], the free list) get one step for
    each element and an invariant that the links have no cycle shorter than
    that.  Loops that run to a NUL, and the programs that read a file to its
    end, take fuel in their statements, which say how much is enough.
    [mpinit] gets a turn for each 8 bytes of the longest table.  Running out
    is [Panic "out of fuel"], which no theorem allows but the one that shows
    a loop that does not end.

    ** Not modelled

    - The change of modes, segments and paging when a CPU starts (bootasm.S,
      entry.S, seginit, and entryother.S but for the words it reads in [Smp]),
      and the registers of the serial line that uartinit sets.
    - [Asm] has no paging, and no protection but the privilege level of gates;
      that the kernel's stack and the user's memory are apart is a hypothesis
      of its theorems.  In [ProcInv] the context switches are the boundaries
      of the steps.  In [Smp] the stacks are not part of the memory.
    - The memory of the boot loader itself: [Boot] takes the kernel's segments
      to be clear of its code and stack.
    - In [Ide], the time the disk takes to accept the data of a write: the law
      of the device is that it accepts them right after the command.
    - The console as a file: consoleread and consolewrite are device
      parameters of [Fs], and are verified in [Console].
    - usertests and the other tests, init, ps, rm, mkdir, ln and kill, which
      only call the library and the kernel.
    - Interleavings inside the file system and the log: their theorems are
      about calls that run alone, and [Kernel] runs a system call from its trap
      to its end, or to the point where it sleeps, as one step.  For the counts
      of open files [RefsFine] lets anything happen in between that leaves
      counts and descriptors alone.
    - That [sched] is called with [ptable.lock] held, no other spinlock, and
      interrupts off: [Proc] passes this to its checks.
    - Crashes in the middle of a single block write; the disk writes blocks
      atomically. *)

From stdpp Require Export base numbers list strings gmap.
From Stdlib Require Export ZArith Lia.

#[export] Set Default Goal Selector "!".
#[global] Open Scope Z_scope.

(** ** C integers

    [uint] is 32-bit and wraps; [int] is its two's-complement reading. *)

Definition u32 (z : Z) : Z := z mod 2 ^ 32.
Definition u16 (z : Z) : Z := z mod 2 ^ 16.
Definition u8 (z : Z) : Z := z mod 2 ^ 8.

(** The [int] with the bit pattern of [z]. *)
Definition s32 (z : Z) : Z :=
  let u := u32 z in if u <? 2 ^ 31 then u else u - 2 ^ 32.

Definition is_u32 (z : Z) : Prop := 0 <= z < 2 ^ 32.
Definition is_s32 (z : Z) : Prop := - 2 ^ 31 <= z < 2 ^ 31.
Definition is_u8 (z : Z) : Prop := 0 <= z < 256.

(** A C truth value. *)
Definition c_true (z : Z) : bool := negb (z =? 0).

(** ** Control effects

    Kernel code either returns or calls [panic], which never returns. *)

Inductive outcome (A : Type) : Type :=
| Ok (a : A)
| Panic (msg : string).
Arguments Ok {A} a.
Arguments Panic {A} msg.

#[export] Instance outcome_ret : MRet outcome := @Ok.
#[export] Instance outcome_bind : MBind outcome :=
  fun A B f m => match m with Ok a => f a | Panic msg => Panic msg end.

(** Code that reads and writes a state [S] and may panic. *)
Definition kM (S A : Type) : Type := S -> outcome (A * S).

#[export] Instance kM_ret S : MRet (kM S) := fun A a s => Ok (a, s).
#[export] Instance kM_bind S : MBind (kM S) :=
  fun A B f m s => match m s with Ok (a, s') => f a s' | Panic msg => Panic msg end.

Definition kpanic {S A} (msg : string) : kM S A := fun _ => Panic msg.
Definition kget {S} : kM S S := fun s => Ok (s, s).
Definition kput {S} (s : S) : kM S unit := fun _ => Ok (tt, s).
Definition kmodify {S} (f : S -> S) : kM S unit := fun s => Ok (tt, f s).

(** ** Byte-addressed memory

    A memory maps addresses to bytes.  Two memories are compared pointwise. *)

Definition mem : Type := Z -> Z.

Definition bytes_ok (m : mem) : Prop := forall x, is_u8 (m x).

Definition upd (m : mem) (a v : Z) : mem := fun x => if x =? a then v else m x.

(** [rep stosb] (x86.h): [cnt] copies of the low byte of [data] from [addr]. *)
Definition stosb (m : mem) (addr data cnt : Z) : mem :=
  fun x => if (addr <=? x) && (x <? addr + cnt) then u8 data else m x.

(** [rep stosl] (x86.h): [cnt] copies of the little-endian word [data]. *)
Definition stosl (m : mem) (addr data cnt : Z) : mem :=
  fun x => if (addr <=? x) && (x <? addr + 4 * cnt)
           then u8 (Z.shiftr data (8 * ((x - addr) mod 4))) else m x.

(** A [uint] load and store, little endian. *)
Definition load32 (m : mem) (a : Z) : Z :=
  m a + 2 ^ 8 * m (a + 1) + 2 ^ 16 * m (a + 2) + 2 ^ 24 * m (a + 3).

Definition store32 (m : mem) (a v : Z) : mem :=
  fun x => if (a <=? x) && (x <? a + 4) then u8 (Z.shiftr v (8 * (x - a))) else m x.

(** ** Automation *)

Create HintDb xv6.
Create Rewrite HintDb xv6.

(** Case analysis on the comparisons of the goal and the hypotheses. *)
Ltac case_bool :=
  match goal with
  | |- context [?a =? ?b] => destruct (Z.eqb_spec a b)
  | |- context [?a <? ?b] => destruct (Z.ltb_spec a b)
  | |- context [?a <=? ?b] => destruct (Z.leb_spec a b)
  | H : context [?a =? ?b] |- _ => destruct (Z.eqb_spec a b)
  | H : context [?a <? ?b] |- _ => destruct (Z.ltb_spec a b)
  | H : context [?a <=? ?b] |- _ => destruct (Z.leb_spec a b)
  end; simpl in *.

Ltac case_bools := repeat case_bool.

(** Split a run of monadic code that returned. *)
Ltac inv_ok :=
  repeat match goal with
  | H : Ok _ = Ok _ |- _ => injection H as H; try subst
  | H : Panic _ = Ok _ |- _ => discriminate H
  | H : Ok _ = Panic _ |- _ => discriminate H
  | H : (_, _) = (_, _) |- _ => injection H as H; try subst
  end.

(** ** Lemmas on C integers *)

Lemma u32_range z : is_u32 (u32 z).
Proof. unfold is_u32, u32. apply Z.mod_pos_bound. lia. Qed.

Lemma u8_range z : is_u8 (u8 z).
Proof. unfold is_u8, u8. apply Z.mod_pos_bound. lia. Qed.

Lemma u32_small z : is_u32 z -> u32 z = z.
Proof. unfold is_u32, u32. apply Z.mod_small. Qed.

Lemma u8_small z : is_u8 z -> u8 z = z.
Proof. unfold is_u8, u8. apply Z.mod_small. Qed.

Lemma u32_idem z : u32 (u32 z) = u32 z.
Proof. apply u32_small, u32_range. Qed.

Lemma s32_range z : is_s32 (s32 z).
Proof.
  unfold is_s32, s32. pose proof (u32_range z) as H. unfold is_u32 in H.
  case_bools; lia.
Qed.

Lemma s32_small z : is_s32 z -> s32 z = z.
Proof.
  unfold is_s32, s32, u32. intros H.
  destruct (Z.leb_spec 0 z).
  - rewrite Z.mod_small by lia. case_bools; lia.
  - replace (z mod 2 ^ 32) with (z + 2 ^ 32).
    + case_bools; lia.
    + symmetry. rewrite <- (Z_mod_plus_full z 1 (2 ^ 32)).
      rewrite Z.mod_small; lia.
Qed.

Lemma u32_s32 z : u32 (s32 z) = u32 z.
Proof.
  unfold s32, u32. case_bools.
  - rewrite Z.mod_mod by lia. reflexivity.
  - rewrite <- (Z_mod_plus_full (z mod 2 ^ 32 - 2 ^ 32) 1 (2 ^ 32)).
    replace (z mod 2 ^ 32 - 2 ^ 32 + 1 * 2 ^ 32) with (z mod 2 ^ 32) by lia.
    apply Z.mod_mod. lia.
Qed.

#[export] Hint Resolve u32_range u8_range s32_range u32_small u8_small : xv6.
#[export] Hint Rewrite u32_idem u32_s32 : xv6.

(** ** Lemmas on memory *)

Lemma byte_split (v k : Z) :
  0 <= k -> u8 (Z.shiftr v (8 * k)) = (v / 2 ^ (8 * k)) mod 2 ^ 8.
Proof. intros Hk. unfold u8. by rewrite Z.shiftr_div_pow2 by lia. Qed.

(** A word is the sum of its four bytes. *)
Lemma bytes_of_word (v : Z) :
  is_u32 v ->
  u8 (Z.shiftr v (8 * 0)) + 2 ^ 8 * u8 (Z.shiftr v (8 * 1))
  + 2 ^ 16 * u8 (Z.shiftr v (8 * 2)) + 2 ^ 24 * u8 (Z.shiftr v (8 * 3)) = v.
Proof.
  unfold is_u32. intros Hv. rewrite !byte_split by lia.
  change (2 ^ (8 * 0)) with 1. change (2 ^ (8 * 1)) with 256.
  change (2 ^ (8 * 2)) with 65536. change (2 ^ (8 * 3)) with 16777216.
  change (2 ^ 8) with 256. change (2 ^ 16) with 65536.
  change (2 ^ 24) with 16777216. change (2 ^ 32) with 4294967296 in Hv.
  Z.to_euclidean_division_equations. lia.
Qed.

Lemma load32_store32_eq (m : mem) (a v : Z) :
  is_u32 v -> load32 (store32 m a v) a = v.
Proof.
  intros Hv. rewrite <- (bytes_of_word v Hv) at 2. unfold load32, store32.
  repeat match goal with
  | |- context [(a <=? ?x) && (?x <? a + 4)] =>
      replace ((a <=? x) && (x <? a + 4)) with true
        by (symmetry; apply andb_true_iff; rewrite Z.leb_le, Z.ltb_lt; lia)
  end.
  by rewrite !Z.add_simpl_l, Z.sub_diag.
Qed.

(** Two memories that agree on a word load the same word. *)
Lemma load32_ext (m m' : mem) (a : Z) :
  (forall x, a <= x < a + 4 -> m x = m' x) -> load32 m a = load32 m' a.
Proof. intros H. unfold load32. rewrite !H by lia. reflexivity. Qed.

Lemma store32_frame (m : mem) (a v x : Z) :
  ~ (a <= x < a + 4) -> store32 m a v x = m x.
Proof. intros H. unfold store32. case_bools; lia || reflexivity. Qed.

Lemma load32_store32_ne (m : mem) (a b v : Z) :
  b + 4 <= a \/ a + 4 <= b -> load32 (store32 m a v) b = load32 m b.
Proof. intros H. apply load32_ext. intros x Hx. apply store32_frame. lia. Qed.

Lemma store32_bytes m a v : bytes_ok m -> bytes_ok (store32 m a v).
Proof. intros H x. unfold store32. destruct (_ && _); [apply u8_range|apply H]. Qed.

Lemma stosb_in (m : mem) (a c n x : Z) :
  a <= x < a + n -> stosb m a c n x = u8 c.
Proof. intros H. unfold stosb. case_bools; lia || reflexivity. Qed.

Lemma stosb_frame (m : mem) (a c n x : Z) :
  ~ (a <= x < a + n) -> stosb m a c n x = m x.
Proof. intros H. unfold stosb. case_bools; lia || reflexivity. Qed.

Lemma load32_range (m : mem) (a : Z) :
  (forall x, is_u8 (m x)) -> is_u32 (load32 m a).
Proof.
  intros H. unfold load32, is_u32.
  pose proof (H a). pose proof (H (a + 1)). pose proof (H (a + 2)).
  pose proof (H (a + 3)). unfold is_u8 in *. lia.
Qed.

#[export] Hint Rewrite load32_store32_eq using assumption : xv6.

(** ** Running monadic code *)

Lemma kM_bind_Ok {S A B} (m : kM S A) (f : A -> kM S B) s b s'' :
  (x ← m; f x) s = Ok (b, s'') <-> exists a s', m s = Ok (a, s') /\ f a s' = Ok (b, s'').
Proof.
  unfold mbind, kM_bind. split.
  - destruct (m s) as [[a s']|msg]; [eauto|discriminate].
  - intros (a & s' & -> & H). exact H.
Qed.

Lemma kM_bind_run {S A B} (m : kM S A) (f : A -> kM S B) s a s' :
  m s = Ok (a, s') -> (x ← m; f x) s = f a s'.
Proof. intros H. unfold mbind, kM_bind. by rewrite H. Qed.

Lemma kM_ret_run {S A} (a : A) (s : S) : (mret a : kM S A) s = Ok (a, s).
Proof. reflexivity. Qed.

(** Take apart a hypothesis that a sequence of monadic code returned. *)
Ltac kinv H :=
  lazymatch type of H with
  | (_ ≫= _) _ = Ok _ =>
      apply kM_bind_Ok in H;
      let a := fresh "a" in let s := fresh "s" in let H1 := fresh "Hr" in
      destruct H as (a & s & H1 & H)
  | _ => idtac
  end.

(** Code that only moves along a preorder on states. *)
Definition pres {S A} (R : S -> S -> Prop) (m : kM S A) : Prop :=
  forall s a s', m s = Ok (a, s') -> R s s'.

Section Pres.
Context {S : Type} (R : S -> S -> Prop) `{!PreOrder R}.

Lemma pres_ret {A} (a : A) : pres R (mret a).
Proof. intros s b s' [= -> ->]. reflexivity. Qed.

Lemma pres_panic {A} msg : pres R (@kpanic S A msg).
Proof. intros s b s' H. discriminate H. Qed.

Lemma pres_get : pres R kget.
Proof. intros s b s' [= <- ->]. reflexivity. Qed.

Lemma pres_bind {A B} (m : kM S A) (f : A -> kM S B) :
  pres R m -> (forall a, pres R (f a)) -> pres R (x ← m; f x).
Proof.
  intros Hm Hf s b s'' H. apply kM_bind_Ok in H as (a & s' & H1 & H2).
  etransitivity; [by eapply Hm|by eapply Hf].
Qed.

Lemma pres_modify (f : S -> S) : (forall s, R s (f s)) -> pres R (kmodify f).
Proof. intros H s a s' [= _ <-]. apply H. Qed.
End Pres.

Create HintDb pres.
#[export] Hint Resolve pres_ret pres_panic pres_get : pres.

(** Walk through code, leaving the steps the database does not know. *)
Ltac pres_step :=
  match goal with
  | |- pres _ (_ ≫= _) => refine (pres_bind _ _ _ _ _); [|intros ?]
  | |- pres _ (match ?x with _ => _ end) => destruct x
  | |- pres _ _ => solve [eauto with pres]
  end.
Ltac pres := repeat pres_step.

(** Lists: the first element that satisfies a decidable property. *)
Lemma list_find_fst_Some {A} (P : A -> Prop) `{!forall x, Decision (P x)} (l : list A) i :
  fst <$> list_find P l = Some i <->
  exists x, l !! i = Some x /\ P x /\ forall j y, l !! j = Some y -> (j < i)%nat -> ~ P y.
Proof.
  rewrite fmap_Some. split.
  - intros ([j x] & Hf & ->). apply list_find_Some in Hf as (H1 & H2 & H3). eauto.
  - intros (x & H1 & H2 & H3). exists (i, x). split; [|done]. apply list_find_Some. eauto.
Qed.

Lemma list_find_fst_None {A} (P : A -> Prop) `{!forall x, Decision (P x)} (l : list A) :
  fst <$> list_find P l = None <-> forall i x, l !! i = Some x -> ~ P x.
Proof.
  rewrite fmap_None, list_find_None, Forall_lookup. done.
Qed.
