(* ===== verification/CString.v ===== *)
(** * The kernel's byte and string routines (string.c) and the user library's
    (ulib.c)

    The routines run on a [mem]; a pointer is an address.  A pointer never
    steps past the end of the address space (C leaves that undefined), so
    pointer arithmetic is exact.  Loops that count down an [n] are structural
    in [n]; [strlen] and [strcmp], which run to a NUL, take fuel, and their
    theorems say how much is enough. *)

From S2P Require Import Prelude.

(** ** string.c *)

Definition memset (m : mem) (dst c n : Z) : mem :=
  if (Z.rem (s32 dst) 4 =? 0) && (n mod 4 =? 0) then
    let c := Z.land c 255 in
    stosl m dst
      (Z.lor (Z.lor (Z.lor (Z.shiftl c 24) (Z.shiftl c 16)) (Z.shiftl c 8)) c)
      (n / 4)
  else stosb m dst c n.

Fixpoint memcmp (m : mem) (s1 s2 : Z) (n : nat) : Z :=
  match n with
  | O => 0
  | S n => if negb (m s1 =? m s2) then m s1 - m s2
           else memcmp m (s1 + 1) (s2 + 1) n
  end.

(** [while(n-- > 0) *--d = *--s;] *)
Fixpoint copy_down (m : mem) (d s : Z) (n : nat) : mem :=
  match n with
  | O => m
  | S n => copy_down (upd m (d - 1) (m (s - 1))) (d - 1) (s - 1) n
  end.

(** [while(n-- > 0) *d++ = *s++;] *)
Fixpoint copy_up (m : mem) (d s : Z) (n : nat) : mem :=
  match n with
  | O => m
  | S n => copy_up (upd m d (m s)) (d + 1) (s + 1) n
  end.

Definition memmove (m : mem) (dst src : Z) (n : nat) : mem :=
  if (src <? dst) && (dst <? src + Z.of_nat n)
  then copy_down m (dst + Z.of_nat n) (src + Z.of_nat n) n
  else copy_up m dst src n.

Fixpoint strncmp (m : mem) (p q : Z) (n : nat) : Z :=
  match n with
  | O => 0
  | S n' => if c_true (m p) && (m p =? m q) then strncmp m (p + 1) (q + 1) n'
            else u8 (m p) - u8 (m q)
  end.

(** [while(n-- > 0) *s++ = 0;] *)
Fixpoint zero_fill (m : mem) (s : Z) (n : nat) : mem :=
  match n with
  | O => m
  | S n => zero_fill (upd m s 0) (s + 1) n
  end.

Fixpoint strncpy_loop (m : mem) (s t : Z) (n : nat) : mem :=
  match n with
  | O => m
  | S n => let m' := upd m s (m t) in
           if c_true (m t) then strncpy_loop m' (s + 1) (t + 1) n
           else zero_fill m' (s + 1) n
  end.

Definition strncpy (m : mem) (s t n : Z) : mem := strncpy_loop m s t (Z.to_nat n).

(** [while(--n > 0 && ( *s++ = *t++ ) != 0); *s = 0;] with [n] tests left. *)
Fixpoint safestrcpy_loop (m : mem) (s t : Z) (n : nat) : mem :=
  match n with
  | O => upd m s 0
  | S n => let m' := upd m s (m t) in
           if c_true (m t) then safestrcpy_loop m' (s + 1) (t + 1) n
           else upd m' (s + 1) 0
  end.

Definition safestrcpy (m : mem) (s t n : Z) : mem :=
  if n <=? 0 then m else safestrcpy_loop m s t (Z.to_nat (n - 1)).

(** [for(n = 0; s[n]; n++);] *)
Fixpoint strlen_from (fuel : nat) (m : mem) (s n : Z) : option Z :=
  match fuel with
  | O => None
  | S fuel => if c_true (m (s + n)) then strlen_from fuel m s (n + 1) else Some n
  end.

Definition strlen (fuel : nat) (m : mem) (s : Z) : option Z := strlen_from fuel m s 0.

(** ** ulib.c *)

Module Ulib.

Fixpoint strcpy (fuel : nat) (m : mem) (s t : Z) : option mem :=
  match fuel with
  | O => None
  | S fuel => let m' := upd m s (m t) in
              if c_true (m t) then strcpy fuel m' (s + 1) (t + 1) else Some m'
  end.

Fixpoint strcmp (fuel : nat) (m : mem) (p q : Z) : option Z :=
  match fuel with
  | O => None
  | S fuel => if c_true (m p) && (m p =? m q) then strcmp fuel m (p + 1) (q + 1)
              else Some (u8 (m p) - u8 (m q))
  end.

(** The address found, 0 when the string has no [c]. *)
Fixpoint strchr (fuel : nat) (m : mem) (s c : Z) : option Z :=
  match fuel with
  | O => None
  | S fuel => if c_true (m s) then (if m s =? c then Some s else strchr fuel m (s + 1) c)
              else Some 0
  end.

(** [n = n*10 + *s++ - '0'] on [int]. *)
Fixpoint atoi_from (fuel : nat) (m : mem) (s n : Z) : option Z :=
  match fuel with
  | O => None
  | S fuel => if (48 <=? m s) && (m s <=? 57)
              then atoi_from fuel m (s + 1) (s32 (n * 10 + m s - 48))
              else Some n
  end.

Definition atoi (fuel : nat) (m : mem) (s : Z) : option Z := atoi_from fuel m s 0.

(** The user library copies upwards whatever the overlap. *)
Definition memmove (m : mem) (vdst vsrc n : Z) : mem := copy_up m vdst vsrc (Z.to_nat n).

Definition memset (m : mem) (dst c n : Z) : mem := stosb m dst c n.

End Ulib.

(** ** The strings a memory holds *)

(** [l] is the NUL-terminated string at [a]. *)
Definition cstr (m : mem) (a : Z) (l : list Z) : Prop :=
  (forall i c, l !! i = Some c -> m (a + Z.of_nat i) = c /\ c <> 0)
  /\ m (a + Z.of_nat (length l)) = 0.

(** The bytes of an object of [n] bytes at [a]. *)
Definition bytes_at (m : mem) (a : Z) (n : nat) : list Z :=
  map (fun i => m (a + Z.of_nat i)) (seq 0 n).

(** ** Copying *)

Lemma copy_up_spec n m d s x :
  d <= s \/ s + Z.of_nat n <= d ->
  copy_up m d s n x = if (d <=? x) && (x <? d + Z.of_nat n) then m (s + (x - d)) else m x.
Proof.
  revert m d s. induction n as [|n IH]; intros m d s Hov; simpl.
  - case_bools; lia || reflexivity.
  - rewrite IH by lia. unfold upd. case_bools; try lia; try reflexivity; f_equal; lia.
Qed.

Lemma copy_down_spec n m d s x :
  s <= d ->
  copy_down m (d + Z.of_nat n) (s + Z.of_nat n) n x
  = if (d <=? x) && (x <? d + Z.of_nat n) then m (s + (x - d)) else m x.
Proof.
  revert m. induction n as [|n IH]; intros m Hov; cbn [copy_down].
  - case_bools; lia || reflexivity.
  - replace (d + Z.of_nat (S n) - 1) with (d + Z.of_nat n) by lia.
    replace (s + Z.of_nat (S n) - 1) with (s + Z.of_nat n) by lia.
    rewrite IH by lia. unfold upd. case_bools; try lia; try reflexivity; f_equal; lia.
Qed.

(** [memmove] with overlap. *)
Lemma memmove_at (m : mem) (dst src : Z) (n : nat) (x : Z) :
  memmove m dst src n x
  = if (dst <=? x) && (x <? dst + Z.of_nat n) then m (src + (x - dst)) else m x.
Proof.
  unfold memmove. destruct (Z.ltb_spec src dst), (Z.ltb_spec dst (src + Z.of_nat n)); simpl.
  - apply copy_down_spec. lia.
  - apply copy_up_spec. lia.
  - apply copy_up_spec. lia.
  - apply copy_up_spec. lia.
Qed.

(** memmove copies [n] bytes as they were before the call, wherever source
    and destination overlap, and changes nothing outside the destination. *)
Theorem memmove_spec (m : mem) (dst src : Z) (n : nat) (x : Z) :
  memmove m dst src n x
  = if (dst <=? x) && (x <? dst + Z.of_nat n) then m (src + (x - dst)) else m x.
Proof. apply memmove_at. Qed.

(** ** memset *)

(** The word that [memset] stores is four times the fill byte. *)
Definition fill_word (b : Z) : Z :=
  Z.lor (Z.lor (Z.lor (Z.shiftl b 24) (Z.shiftl b 16)) (Z.shiftl b 8)) b.

Lemma fill_word_bytes (b k : Z) :
  0 <= b < 256 -> 0 <= k < 4 -> u8 (Z.shiftr (fill_word b) (8 * k)) = b.
Proof.
  intros Hb Hk.
  assert (Hall : forallb (fun b => forallb (fun k =>
            u8 (Z.shiftr (fill_word b) (8 * k)) =? b) (seqZ 0 4)) (seqZ 0 256) = true)
    by (vm_compute; reflexivity).
  rewrite forallb_forall in Hall. specialize (Hall b).
  rewrite <- list_elem_of_In, elem_of_seqZ, forallb_forall in Hall.
  specialize (Hall ltac:(lia) k). rewrite <- list_elem_of_In, elem_of_seqZ in Hall.
  apply Z.eqb_eq, Hall. lia.
Qed.

(** [memset] fills exactly the [n] bytes at [dst] with the low byte of [c],
    whether it stores words (aligned) or bytes. *)
Lemma memset_at (m : mem) (dst c n x : Z) :
  memset m dst c n x = if (dst <=? x) && (x <? dst + n) then u8 c else m x.
Proof.
  unfold memset. destruct (Z.rem (s32 dst) 4 =? 0); simpl; [|reflexivity].
  destruct (Z.eqb_spec (n mod 4) 0) as [Hn|]; [|reflexivity].
  unfold stosl. replace (4 * (n / 4)) with n by (pose proof (Z.div_mod n 4); lia).
  destruct (_ && _); [|reflexivity].
  change 255 with (Z.ones 8). rewrite Z.land_ones by lia. fold (u8 c).
  apply fill_word_bytes; [apply u8_range | apply Z.mod_pos_bound; lia].
Qed.

(** ** Strings *)

Lemma strlen_from_spec l m s k fuel :
  cstr m (s + k) l -> (length l < fuel)%nat ->
  strlen_from fuel m s k = Some (k + Z.of_nat (length l)).
Proof.
  revert k fuel. induction l as [|c l IH]; intros k [|fuel] [Hl Hz] Hf; simpl in *; try lia.
  - rewrite Z.add_0_r in Hz. unfold c_true. rewrite Hz. simpl. f_equal. lia.
  - destruct (Hl 0%nat c eq_refl) as [Hc Hnz]. rewrite Z.add_0_r in Hc.
    unfold c_true. rewrite Hc. case_bool; [contradiction|].
    rewrite IH; [f_equal; lia | | lia]. split.
    + intros i d Hd. specialize (Hl (S i) d Hd). by replace (s + (k + 1) + Z.of_nat i)
        with (s + k + Z.of_nat (S i)) by lia.
    + replace (s + (k + 1) + Z.of_nat (length l))
        with (s + k + Z.pos (Pos.of_succ_nat (length l))) by lia. exact Hz.
Qed.

(** [strlen] returns the length of the string, with more fuel than it has
    characters. *)
Lemma strlen_spec (m : mem) (s : Z) (l : list Z) (fuel : nat) :
  cstr m s l -> (length l < fuel)%nat -> strlen fuel m s = Some (Z.of_nat (length l)).
Proof.
  intros H Hf. unfold strlen. rewrite (strlen_from_spec l); [done| |done].
  by rewrite Z.add_0_r.
Qed.

Lemma cstr_tail m a c l : cstr m a (c :: l) -> cstr m (a + 1) l.
Proof.
  intros [Hl Hz]. split.
  - intros i d Hd. specialize (Hl (S i) d Hd).
    by replace (a + 1 + Z.of_nat i) with (a + Z.of_nat (S i)) by lia.
  - replace (a + 1 + Z.of_nat (length l)) with (a + Z.of_nat (length (c :: l)))
      by (simpl; lia). exact Hz.
Qed.

Lemma cstr_head m a c l : cstr m a (c :: l) -> m a = c /\ c <> 0.
Proof. intros [Hl _]. specialize (Hl 0%nat c eq_refl). by rewrite Z.add_0_r in Hl. Qed.

Lemma cstr_nil m a : cstr m a [] -> m a = 0.
Proof. intros [_ Hz]. simpl in Hz. by rewrite Z.add_0_r in Hz. Qed.

(** Two memories that agree on a string and its NUL hold the same string. *)
Lemma cstr_ext m m' a l :
  (forall x, a <= x <= a + Z.of_nat (length l) -> m' x = m x) -> cstr m a l -> cstr m' a l.
Proof.
  intros He [Hl Hz]. split.
  - intros i c Hi. pose proof (lookup_lt_Some _ _ _ Hi). rewrite He by lia. by apply Hl.
  - rewrite He by lia. exact Hz.
Qed.

(** The name in a field of [n] bytes at [a]: the bytes up to the first NUL, or
    all [n] of them. *)
Fixpoint cname (m : mem) (a : Z) (n : nat) : list Z :=
  match n with
  | O => []
  | S n => if c_true (m a) then m a :: cname m (a + 1) n else []
  end.

Lemma cname_length m a n : (length (cname m a n) <= n)%nat.
Proof.
  revert a. induction n as [|n IH]; intros a; simpl; [lia|].
  destruct (c_true _); simpl; [specialize (IH (a + 1)); lia | lia].
Qed.

Lemma cname_ext m m' a n :
  (forall x, a <= x < a + Z.of_nat n -> x <= a + Z.of_nat (length (cname m a n)) -> m' x = m x) ->
  cname m' a n = cname m a n.
Proof.
  revert a. induction n as [|n IH]; intros a He; simpl in *; [done|].
  rewrite He by (destruct (c_true _); simpl; lia). destruct (c_true (m a)); [|done].
  f_equal. apply IH. intros x H1 H2. apply He; simpl; lia.
Qed.

Lemma cstr_cname m a l n : cstr m a l -> cname m a n = take n l.
Proof.
  revert a n. induction l as [|c l IH]; intros a n H; destruct n as [|n]; try done; simpl.
  - unfold c_true. by rewrite (cstr_nil _ _ H).
  - destruct (cstr_head _ _ _ _ H) as [-> Hc]. unfold c_true. case_bool; [done|].
    f_equal. apply IH. eapply cstr_tail; eauto.
Qed.

Lemma zero_fill_spec n m s x :
  zero_fill m s n x = if (s <=? x) && (x <? s + Z.of_nat n) then 0 else m x.
Proof.
  revert m s. induction n as [|n IH]; intros m s; simpl.
  - case_bools; lia || reflexivity.
  - rewrite IH. unfold upd. case_bools; lia || reflexivity.
Qed.

Lemma upd_eq m a v : upd m a v a = v.
Proof. unfold upd. by rewrite Z.eqb_refl. Qed.

Lemma upd_ne m a v x : x <> a -> upd m a v x = m x.
Proof. intros H. unfold upd. case_bool; [contradiction|reflexivity]. Qed.

Lemma strncpy_loop_spec n m s t x :
  s + Z.of_nat n <= t \/ t + Z.of_nat (Nat.min (S (length (cname m t n))) n) <= s ->
  strncpy_loop m s t n x
  = if (s <=? x) && (x <? s + Z.of_nat n)
    then nth (Z.to_nat (x - s)) (cname m t n) 0 else m x.
Proof.
  revert m s t. induction n as [|n IH]; intros m s t Hov.
  { simpl. case_bools; lia || reflexivity. }
  cbn [strncpy_loop cname] in *. destruct (c_true (m t)) eqn:Et; cbn [length] in Hov.
  - assert (Hc : cname (upd m s (m t)) (t + 1) n = cname m (t + 1) n).
    { apply cname_ext. intros y H1 H2. apply upd_ne. lia. }
    rewrite IH by (rewrite Hc; lia). rewrite Hc.
    destruct (Z.eq_dec x s) as [->|Hx].
    + rewrite upd_eq, Z.sub_diag. case_bools; lia || reflexivity.
    + rewrite upd_ne by done.
      case_bools; try lia; try reflexivity.
      replace (Z.to_nat (x - s)) with (S (Z.to_nat (x - (s + 1)))) by lia. reflexivity.
  - rewrite zero_fill_spec. unfold c_true in Et. apply negb_false_iff, Z.eqb_eq in Et.
    unfold upd. rewrite Et.
    replace (nth _ [] 0) with 0 by (destruct (Z.to_nat (x - s)); reflexivity).
    case_bools; try lia; reflexivity.
Qed.

Lemma strncpy_at (m : mem) (s t n x : Z) :
  0 <= n -> s + n <= t \/ t + n <= s ->
  strncpy m s t n x
  = if (s <=? x) && (x <? s + n)
    then nth (Z.to_nat (x - s)) (cname m t (Z.to_nat n)) 0 else m x.
Proof.
  intros Hn Hov. unfold strncpy. rewrite strncpy_loop_spec; rewrite Z2Nat.id by done; [done|].
  destruct Hov; [by left|right]. lia.
Qed.

(** A field read back after it was filled with the name [l] padded with zeros. *)
Lemma cname_of_nth n m a l :
  (forall i, (i < n)%nat -> m (a + Z.of_nat i) = nth i l 0) ->
  Forall (fun c => c <> 0) l -> cname m a n = take n l.
Proof.
  revert a l. induction n as [|n IH]; intros a l Hm Hl; [done|].
  pose proof (Hm 0%nat ltac:(lia)) as H0. rewrite Z.add_0_r in H0.
  cbn [cname]. rewrite H0. destruct l as [|c l]; simpl; [done|].
  inversion Hl as [|? ? Hc Hl']; subst. unfold c_true. case_bool; [contradiction|].
  f_equal. apply IH; [|done]. intros i Hi. specialize (Hm (S i) ltac:(lia)).
  replace (a + 1 + Z.of_nat i) with (a + Z.of_nat (S i)) by lia. done.
Qed.

Lemma cname_nonzero m a n : Forall (fun c => c <> 0) (cname m a n).
Proof.
  revert a. induction n as [|n IH]; intros a; simpl; [constructor|].
  destruct (c_true (m a)) eqn:E; constructor; [|apply IH].
  unfold c_true in E. by apply negb_true_iff, Z.eqb_neq in E.
Qed.

(** What [strncpy] wrote is read back as the name it was given. *)
Lemma strncpy_cname m s t n :
  0 <= n -> s + n <= t \/ t + n <= s ->
  cname (strncpy m s t n) s (Z.to_nat n) = cname m t (Z.to_nat n).
Proof.
  intros Hn Hov.
  rewrite (cname_of_nth _ _ _ (cname m t (Z.to_nat n))); [| |apply cname_nonzero].
  - apply take_ge, cname_length.
  - intros i Hi. rewrite strncpy_at by done.
    rewrite Z.add_simpl_l, Nat2Z.id. case_bools; lia || reflexivity.
Qed.

Lemma cname_src m s t n :
  0 <= n -> s + n <= t \/ t + n <= s ->
  cname (strncpy m s t n) t (Z.to_nat n) = cname m t (Z.to_nat n).
Proof.
  intros Hn Hov. apply cname_ext. intros x H1 _. rewrite strncpy_at by done.
  case_bools; lia || reflexivity.
Qed.

Lemma cname_bytes m a n : (forall x, is_u8 (m x)) -> Forall is_u8 (cname m a n).
Proof.
  intros Hm. revert a. induction n as [|n IH]; intros a; simpl; [constructor|].
  destruct (c_true _); constructor; [apply Hm|apply IH].
Qed.

Lemma strncpy_bytes m s t n :
  0 <= n -> s + n <= t \/ t + n <= s ->
  (forall x, is_u8 (m x)) -> forall x, is_u8 (strncpy m s t n x).
Proof.
  intros Hn Hov Hm x. rewrite strncpy_at by done. destruct (_ && _); [|apply Hm].
  pose proof (cname_bytes m t (Z.to_nat n) Hm) as Hb. rewrite Forall_forall in Hb.
  destruct (nth_in_or_default (Z.to_nat (x - s)) (cname m t (Z.to_nat n)) 0) as [Hin| ->];
    [apply Hb, list_elem_of_In, Hin|unfold is_u8; lia].
Qed.

(** [strncmp] is 0 exactly when the two fields hold the same name. *)
Lemma strncmp_eq (m : mem) (p q : Z) (n : nat) :
  (forall x, is_u8 (m x)) ->
  strncmp m p q n = 0 <-> cname m p n = cname m q n.
Proof.
  intros Hm. revert p q. induction n as [|n IH]; intros p q; cbn [strncmp cname]; [done|].
  unfold c_true. rewrite !u8_small by apply Hm.
  destruct (Z.eqb_spec (m p) 0) as [Hp|Hp], (Z.eqb_spec (m q) 0) as [Hq|Hq]; simpl.
  - split; [done|lia].
  - split; [lia|done].
  - destruct (Z.eqb_spec (m p) (m q)); [lia|]. split; [lia|done].
  - destruct (Z.eqb_spec (m p) (m q)) as [He|He].
    + rewrite IH, He. split; [by intros ->|]. by intros [=].
    + split; [lia|]. by intros [=].
Qed.

(** A name stored with strncpy is the name strncmp then finds: the two
    fields of [n] bytes compare equal (the directory code's write/lookup pair),
    and the bytes outside the destination are untouched. *)
Theorem strncpy_strncmp (m : mem) (s t n : Z) :
  0 <= n -> (forall x, is_u8 (m x)) ->
  s + n <= t \/ t + n <= s ->
  strncmp (strncpy m s t n) t s (Z.to_nat n) = 0
  /\ (forall x, ~ (s <= x < s + n) -> strncpy m s t n x = m x).
Proof.
  intros Hn Hm Hov. split.
  - rewrite strncmp_eq by by apply strncpy_bytes. by rewrite strncpy_cname, cname_src.
  - intros x Hx. rewrite strncpy_at by done. case_bools; lia || reflexivity.
Qed.

(** Witness of [strncpy_strncmp]: the name "ab" at 100 copied to 200. *)
Lemma strncpy_strncmp_witness :
  let m := upd (upd (fun _ => 0) 100 97) 101 98 in
  0 <= 14 /\ strncmp (strncpy m 200 100 14) 100 200 (Z.to_nat 14) = 0.
Proof.
  intros m. split; [lia|]. apply (strncpy_strncmp m 200 100 14); [lia| |lia].
  intros x. subst m. unfold upd, is_u8. case_bools; lia.
Defined.

(** ** safestrcpy *)

Lemma safestrcpy_loop_spec n m s t l :
  cstr m t l -> s + Z.of_nat n + 1 <= t \/ t + Z.of_nat (length l) < s ->
  cstr (safestrcpy_loop m s t n) s (take n l)
  /\ (forall x, ~ (s <= x < s + Z.of_nat n + 1) -> safestrcpy_loop m s t n x = m x).
Proof.
  revert m s t l. induction n as [|n IH]; intros m s t l Hl Hov; cbn [safestrcpy_loop].
  { split; [|intros x Hx; apply upd_ne; lia]. rewrite take_0. split; [done|]. simpl.
    rewrite Z.add_0_r. apply upd_eq. }
  destruct l as [|c l].
  - rewrite (cstr_nil _ _ Hl). simpl. split.
    + split; [done|]. simpl. rewrite Z.add_0_r, upd_ne by lia. apply upd_eq.
    + intros x Hx. rewrite !upd_ne by lia. reflexivity.
  - destruct (cstr_head _ _ _ _ Hl) as [Hc Hnz]. rewrite Hc.
    unfold c_true. case_bool; [contradiction|]. simpl in Hov.
    destruct (IH (upd m s c) (s + 1) (t + 1) l) as [[Hi Hz] Hf]; [|lia|].
    { apply (cstr_ext m); [|by eapply cstr_tail]. intros x Hx. apply upd_ne. lia. }
    split; [split|].
    + intros [|i] d Hd; simpl in Hd.
      * rewrite Z.add_0_r, Hf by lia. rewrite upd_eq. by injection Hd as <-.
      * replace (s + Z.of_nat (S i)) with (s + 1 + Z.of_nat i) by lia. by apply Hi.
    + cbn [take length]. replace (s + Z.of_nat (S (length (take n l))))
        with (s + 1 + Z.of_nat (length (take n l))) by lia. exact Hz.
    + intros x Hx. rewrite Hf by lia. apply upd_ne. lia.
Qed.

(** safestrcpy into a buffer of [n > 0] bytes leaves there the longest
    prefix of the source that fits, always NUL-terminated, and writes inside
    the buffer only. *)
Theorem safestrcpy_spec (m : mem) (s t n : Z) (l : list Z) :
  0 < n -> cstr m t l -> s + n <= t \/ t + Z.of_nat (length l) < s ->
  cstr (safestrcpy m s t n) s (take (Z.to_nat (n - 1)) l)
  /\ (forall x, ~ (s <= x < s + n) -> safestrcpy m s t n x = m x).
Proof.
  intros Hn Hl Hov. unfold safestrcpy. case_bool; [lia|].
  destruct (safestrcpy_loop_spec (Z.to_nat (n - 1)) m s t l) as [H1 H2]; [done|lia|].
  split; [done|]. intros x Hx. apply H2. lia.
Qed.

(** Witness of [safestrcpy_spec]: "ab" into a two-byte buffer is cut to "a". *)
Lemma safestrcpy_spec_witness :
  let m := upd (upd (fun _ => 0) 100 97) 101 98 in
  cstr (safestrcpy m 200 100 2) 200 [97].
Proof.
  intros m. apply (safestrcpy_spec m 200 100 2 [97; 98]); [lia| |simpl; lia].
  split; [|reflexivity]. intros [|[|i]] c Hc; simpl in Hc; try discriminate.
  - injection Hc as <-. split; [reflexivity|lia].
  - injection Hc as <-. split; [reflexivity|lia].
Defined.

(** ** Fields of structures

    A [char x[n]] field kept as the list of its bytes.  The string routines
    run on a scratch memory that holds the two objects apart. *)

Definition mem_of (dst src : list Z) : mem :=
  fun x => if x <? 65536 then nth (Z.to_nat x) dst 0 else nth (Z.to_nat (x - 65536)) src 0.

(** [safestrcpy(field, src, n)], giving the field's new bytes. *)
Definition safestrcpy_field (dst src : list Z) (n : Z) : list Z :=
  bytes_at (safestrcpy (mem_of dst src) 0 65536 n) 0 (length dst).

(** The string a field or literal holds: its bytes up to the first NUL. *)
Definition field_str (l : list Z) : list Z := cname (mem_of l []) 0 (length l).

(** The bytes of a string literal, its NUL included. *)
Definition lit (s : string) : list Z :=
  map (fun a => Z.of_N (Ascii.N_of_ascii a)) (String.list_ascii_of_string s) ++ [0].

Lemma bytes_at_length m a n : length (bytes_at m a n) = n.
Proof. unfold bytes_at. by rewrite length_map, length_seq. Qed.

Lemma safestrcpy_field_length dst src n : length (safestrcpy_field dst src n) = length dst.
Proof. apply bytes_at_length. Qed.

Lemma nth_bytes_at m a n i : (i < n)%nat -> nth i (bytes_at m a n) 0 = m (a + Z.of_nat i).
Proof.
  intros Hi. unfold bytes_at.
  rewrite (nth_indep _ 0 ((fun i => m (a + Z.of_nat i)) 0%nat)) by by rewrite length_map, length_seq.
  rewrite (map_nth (fun i => m (a + Z.of_nat i)) (seq 0 n) 0%nat), seq_nth by done. done.
Qed.

(** Copying a string into a field of [n] bytes keeps its first [n-1] bytes. *)
Lemma safestrcpy_field_str dst src l :
  (0 < length dst)%nat -> Z.of_nat (length dst) <= 65536 -> cstr (fun x => nth (Z.to_nat x) src 0) 0 l ->
  field_str (safestrcpy_field dst src (Z.of_nat (length dst)))
  = take (length dst - 1) l.
Proof.
  intros Hd Hlt Hs. unfold field_str. rewrite safestrcpy_field_length.
  set (n := length dst) in *.
  assert (Hc : cstr (mem_of dst src) 65536 l).
  { destruct Hs as [Hi Hz]. unfold mem_of. split.
    - intros i c Hc. case_bool; [lia|]. destruct (Hi i c Hc) as [He Hne].
      split; [|done]. rewrite <- He. f_equal. lia.
    - case_bool; [lia|]. rewrite <- Hz. f_equal; lia. }
  assert (H : cstr (safestrcpy (mem_of dst src) 0 65536 (Z.of_nat n)) 0 (take (n - 1) l)).
  { unfold safestrcpy. case_bool; [lia|].
    replace (n - 1)%nat with (Z.to_nat (Z.of_nat n - 1)) by lia.
    refine (proj1 (safestrcpy_loop_spec _ _ _ _ _ Hc _)). left. lia. }
  transitivity (cname (safestrcpy (mem_of dst src) 0 65536 (Z.of_nat n)) 0 n).
  - apply cname_ext. intros x Hx _. unfold mem_of at 1. case_bool; [|lia].
    unfold safestrcpy_field. fold n. rewrite nth_bytes_at by lia. f_equal. lia.
  - rewrite (cstr_cname _ _ _ _ H). rewrite take_take. f_equal. lia.
Qed.

Example safestrcpy_field_ex :
  field_str (safestrcpy_field (replicate 16 7) (lit "initcode") 16)
  = [105; 110; 105; 116; 99; 111; 100; 101].
Proof. vm_compute. reflexivity. Qed.
