(* ===== verification/Mmu.v ===== *)
(** * Addresses and page-table entries (memlayout.h, mmu.h)

    The constants and macros of the memory layout, as arithmetic on 32-bit
    values, with the laws the page-table code relies on. *)

From S2P Require Import Prelude.

Definition PGSIZE : Z := 4096.
Definition NPDENTRIES : nat := 1024.
Definition EXTMEM : Z := 1048576.               (* 0x100000 *)
Definition PHYSTOP : Z := 234881024.            (* 0xE000000 *)
Definition DEVSPACE : Z := 4261412864.          (* 0xFE000000 *)
Definition KERNBASE : Z := 2147483648.          (* 0x80000000 *)
Definition KERNLINK : Z := KERNBASE + EXTMEM.

Definition V2P (a : Z) : Z := u32 (a - KERNBASE).
Definition P2V (a : Z) : Z := u32 (a + KERNBASE).

(** [~(PGSIZE-1)] as a 32-bit mask. *)
Definition PGMASK : Z := 4294963200.

Definition PGROUNDUP (sz : Z) : Z := Z.land (u32 (sz + PGSIZE - 1)) PGMASK.
Definition PGROUNDDOWN (a : Z) : Z := Z.land (u32 a) PGMASK.

Definition PDX (va : Z) : Z := Z.land (Z.shiftr (u32 va) 22) 1023.
Definition PTX (va : Z) : Z := Z.land (Z.shiftr (u32 va) 12) 1023.
Definition PGADDR (d t o : Z) : Z :=
  u32 (Z.lor (Z.lor (Z.shiftl d 22) (Z.shiftl t 12)) o).

Definition PTE_P : Z := 1.
Definition PTE_W : Z := 2.
Definition PTE_U : Z := 4.
Definition PTE_ADDR (pte : Z) : Z := Z.land pte PGMASK.
Definition PTE_FLAGS (pte : Z) : Z := Z.land pte 4095.

(** [*pte & PTE_P] as a truth value. *)
Definition present (e : Z) : bool := c_true (Z.land e PTE_P).

(** ** Masks as arithmetic *)

Lemma land_PGMASK x : is_u32 x -> Z.land x PGMASK = x / 4096 * 4096.
Proof.
  intros Hx. change PGMASK with (Z.ldiff (Z.ones 32) (Z.ones 12)).
  transitivity (Z.ldiff x (Z.ones 12)).
  - apply Z.bits_inj'. intros n Hn. rewrite Z.land_spec, !Z.ldiff_spec.
    destruct (Z.ltb_spec n 32).
    + rewrite (Z.ones_spec_low 32) by lia. done.
    + rewrite (Z.ones_spec_high 32) by lia. unfold is_u32 in Hx.
      rewrite (Z.bits_above_log2 x n) by (try (destruct (Z.eq_dec x 0) as [->|];
        [simpl; lia|apply Z.log2_lt_pow2; [lia|]; eapply Z.lt_le_trans; [apply Hx|];
         apply Z.pow_le_mono_r; lia]); lia).
      done.
  - rewrite Z.ldiff_ones_r, Z.shiftl_mul_pow2, Z.shiftr_div_pow2 by lia. done.
Qed.

Lemma PGROUNDDOWN_val a : is_u32 a -> PGROUNDDOWN a = a / 4096 * 4096.
Proof. intros Ha. unfold PGROUNDDOWN. rewrite u32_small by done. by apply land_PGMASK. Qed.

Lemma PGROUNDUP_val a : 0 <= a <= 2 ^ 32 - 4096 -> PGROUNDUP a = (a + 4095) / 4096 * 4096.
Proof.
  intros Ha. unfold PGROUNDUP, PGSIZE. rewrite land_PGMASK by apply u32_range.
  rewrite u32_small by (unfold is_u32; lia). f_equal; f_equal; lia.
Qed.

Lemma PTE_ADDR_val e : is_u32 e -> PTE_ADDR e = e / 4096 * 4096.
Proof. apply land_PGMASK. Qed.

Lemma PTE_FLAGS_val e : PTE_FLAGS e = e mod 4096.
Proof. unfold PTE_FLAGS. change 4095 with (Z.ones 12). by rewrite Z.land_ones by lia. Qed.

Lemma PDX_val va : is_u32 va -> PDX va = va / 4194304.
Proof.
  intros Hva. unfold PDX. rewrite u32_small by done.
  change 1023 with (Z.ones 10). rewrite Z.land_ones, Z.shiftr_div_pow2 by lia.
  change (2 ^ 22) with 4194304. change (2 ^ 10) with 1024. apply Z.mod_small.
  unfold is_u32 in Hva. Z.to_euclidean_division_equations. lia.
Qed.

Lemma PTX_val va : is_u32 va -> PTX va = va / 4096 mod 1024.
Proof.
  intros Hva. unfold PTX. rewrite u32_small by done.
  change 1023 with (Z.ones 10). by rewrite Z.land_ones, Z.shiftr_div_pow2 by lia.
Qed.

Lemma PDX_range va : 0 <= PDX va < 1024.
Proof.
  unfold PDX. change 1023 with (Z.ones 10). rewrite Z.land_ones by lia. apply Z.mod_pos_bound. lia.
Qed.

Lemma PTX_range va : 0 <= PTX va < 1024.
Proof.
  unfold PTX. change 1023 with (Z.ones 10). rewrite Z.land_ones by lia. apply Z.mod_pos_bound. lia.
Qed.

(** The two indices determine the page. *)
Lemma page_split a b :
  is_u32 a -> is_u32 b -> PDX a = PDX b -> PTX a = PTX b -> a / 4096 = b / 4096.
Proof.
  intros Ha Hb. rewrite !PDX_val, !PTX_val by done. unfold is_u32 in *. intros H1 H2.
  replace (a / 4194304) with (a / 4096 / 1024) in H1 by by rewrite Z.div_div by lia.
  replace (b / 4194304) with (b / 4096 / 1024) in H1 by by rewrite Z.div_div by lia.
  rewrite (Z.div_mod (a / 4096) 1024), (Z.div_mod (b / 4096) 1024) by lia. lia.
Qed.

Lemma lor_disjoint k f n : 0 <= n -> 0 <= f < 2 ^ n -> Z.lor (k * 2 ^ n) f = k * 2 ^ n + f.
Proof.
  intros Hn Hf.
  assert (H0 : Z.land (k * 2 ^ n) f = 0).
  { apply Z.bits_inj'. intros i Hi. rewrite Z.land_spec, Z.bits_0, <- Z.shiftl_mul_pow2 by lia.
    destruct (Z.ltb_spec i n).
    - rewrite Z.shiftl_spec_low by lia. done.
    - rewrite andb_comm. destruct (Z.eq_dec f 0) as [->|]; [by rewrite Z.bits_0|].
      rewrite (Z.bits_above_log2 f i); [done|lia|]. apply Z.log2_lt_pow2; [lia|].
      eapply Z.lt_le_trans; [apply Hf|]. apply Z.pow_le_mono_r; lia. }
  rewrite <- Z.add_lor_land, H0. by rewrite Z.add_0_r.
Qed.

(** An entry made from a page address and flags. *)
Lemma mk_pte_val pa perm :
  pa mod 4096 = 0 -> 0 <= perm < 4096 ->
  Z.lor (Z.lor pa perm) PTE_P = pa + Z.lor perm 1 /\ 0 <= Z.lor perm 1 < 4096.
Proof.
  intros Ha Hp. assert (Hr : 0 <= Z.lor perm 1 < 4096).
  { split; [apply Z.lor_nonneg; lia|]. destruct (Z.eq_dec (Z.lor perm 1) 0) as [->|]; [lia|].
    apply (Z.log2_lt_pow2 _ 12).
    - pose proof (proj2 (Z.lor_nonneg perm 1)). lia.
    - rewrite Z.log2_lor by lia. apply Z.max_lub_lt; [|simpl; lia].
      destruct (Z.eq_dec perm 0) as [->|]; [simpl; lia|]. apply Z.log2_lt_pow2; lia. }
  split; [|done]. rewrite <- Z.lor_assoc. unfold PTE_P.
  replace pa with (pa / 4096 * 2 ^ 12) by (change (2 ^ 12) with 4096; Z.to_euclidean_division_equations; lia).
  apply lor_disjoint; [lia|done].
Qed.

Lemma present_mk pa perm :
  pa mod 4096 = 0 -> present (Z.lor (Z.lor pa perm) PTE_P) = true.
Proof.
  intros Ha. unfold present, c_true, PTE_P. rewrite Z.land_lor_distr_l.
  destruct (Z.eqb_spec (Z.lor (Z.land (Z.lor pa perm) 1) (Z.land 1 1)) 0) as [E|]; [|done].
  apply Z.lor_eq_0_iff in E as [_ E]. done.
Qed.

Lemma present_0 : present 0 = false.
Proof. reflexivity. Qed.

Lemma PTE_ADDR_mk pa perm :
  is_u32 pa -> pa mod 4096 = 0 -> 0 <= perm < 4096 ->
  PTE_ADDR (Z.lor (Z.lor pa perm) PTE_P) = pa.
Proof.
  intros Hu Ha Hp. destruct (mk_pte_val pa perm Ha Hp) as [-> Hr].
  unfold is_u32 in Hu. rewrite PTE_ADDR_val; [Z.to_euclidean_division_equations; lia|].
  unfold is_u32. change (2 ^ 32) with 4294967296 in *. Z.to_euclidean_division_equations. lia.
Qed.

Lemma mk_pte_u32 pa perm :
  is_u32 pa -> pa mod 4096 = 0 -> 0 <= perm < 4096 -> is_u32 (Z.lor (Z.lor pa perm) PTE_P).
Proof.
  intros Hu Ha Hp. destruct (mk_pte_val pa perm Ha Hp) as [-> Hr].
  unfold is_u32 in *. change (2 ^ 32) with 4294967296 in *. Z.to_euclidean_division_equations. lia.
Qed.
