(* ===== verification/Proc.v ===== *)
(** * Processes (proc.c, proc.h, procinfo.h)

    The process table, process creation and reaping, sleep and wakeup, the
    niceness scheduler, and the process-information call.

    A [struct proc *] is an index into the table.  Each definition is the code
    of one function; [acquire(&ptable.lock)] .. [release] brackets are atomic
    ([Locks] shows why), and a call that sleeps is cut where it enters
    [sched()].  Memory, page tables, files and inodes are reached through the
    operations of the class [ProcSvc]. *)

From S2P Require Import Prelude CString Mmu.

Definition NPROC : nat := 64.
Definition NOFILE : nat := 16.
Definition KSTACKSIZE : Z := 4096.
Definition SEG_UCODE : Z := 3.
Definition SEG_UDATA : Z := 4.
Definition DPL_USER : Z := 3.
Definition FL_IF : Z := 512.

Inductive procstate := UNUSED | EMBRYO | SLEEPING | RUNNABLE | RUNNING | ZOMBIE.

#[export] Instance procstate_eq_dec : EqDecision procstate.
Proof. solve_decision. Defined.

(** Kernel addresses as far as sleep channels tell them apart: null, the
    address of a process slot, any other object. *)
Inductive kaddr := KNull | KProc (i : nat) | KObj (a : Z).

#[export] Instance kaddr_eq_dec : EqDecision kaddr.
Proof. solve_decision. Defined.

(** A [struct proc *] as an address. *)
Definition paddr (p : option nat) : kaddr :=
  match p with Some i => KProc i | None => KNull end.

Record trapframe := mk_trapframe {
  tf_edi : Z;
  tf_esi : Z;
  tf_ebp : Z;
  tf_oesp : Z;
  tf_ebx : Z;
  tf_edx : Z;
  tf_ecx : Z;
  tf_eax : Z;
  tf_gs : Z;
  tf_fs : Z;
  tf_es : Z;
  tf_ds : Z;
  tf_trapno : Z;
  tf_err : Z;
  tf_eip : Z;
  tf_cs : Z;
  tf_eflags : Z;
  tf_esp : Z;
  tf_ss : Z
}.

Definition tf_zero : trapframe :=
  mk_trapframe 0 0 0 0 0 0 0 0 0 0 0 0 0 0 0 0 0 0 0.

Definition with_tf_eax (t : trapframe) (v : Z) : trapframe :=
  mk_trapframe t.(tf_edi) t.(tf_esi) t.(tf_ebp) t.(tf_oesp) t.(tf_ebx) t.(tf_edx)
    t.(tf_ecx) v t.(tf_gs) t.(tf_fs) t.(tf_es) t.(tf_ds) t.(tf_trapno) t.(tf_err)
    t.(tf_eip) t.(tf_cs) t.(tf_eflags) t.(tf_esp) t.(tf_ss).

(** [sizeof(struct trapframe)] and [sizeof(struct context)]. *)
Definition sizeof_trapframe : Z := 76.
Definition sizeof_context : Z := 20.

Record kcontext := mk_kcontext {
  ctx_edi : Z; ctx_esi : Z; ctx_ebx : Z; ctx_ebp : Z; ctx_eip : Z
}.

(** [tf] and [context] are pointers into the kernel stack; [tfv], [contextv]
    and [kret] are what the stack holds there (the return address pushed below
    the trap frame). *)
Record proc := mk_proc {
  sz : Z;
  pgdir : Z;
  kstack : Z;
  state : procstate;
  pid : Z;
  parent : option nat;
  tf : Z;
  tfv : trapframe;
  context : Z;
  contextv : kcontext;
  kret : Z;
  chan : kaddr;
  killed : Z;
  cputicks : Z;
  ofile : list Z;
  cwd : Z;
  name : list Z;
  nice : Z;
  is_privileged : Z
}.

Definition with_sz (p : proc) (v : Z) : proc :=
  mk_proc v p.(pgdir) p.(kstack) p.(state) p.(pid) p.(parent) p.(tf) p.(tfv) p.(context)
    p.(contextv) p.(kret) p.(chan) p.(killed) p.(cputicks) p.(ofile) p.(cwd) p.(name)
    p.(nice) p.(is_privileged).

Definition with_pgdir (p : proc) (v : Z) : proc :=
  mk_proc p.(sz) v p.(kstack) p.(state) p.(pid) p.(parent) p.(tf) p.(tfv) p.(context)
    p.(contextv) p.(kret) p.(chan) p.(killed) p.(cputicks) p.(ofile) p.(cwd) p.(name)
    p.(nice) p.(is_privileged).

Definition with_kstack (p : proc) (v : Z) : proc :=
  mk_proc p.(sz) p.(pgdir) v p.(state) p.(pid) p.(parent) p.(tf) p.(tfv) p.(context)
    p.(contextv) p.(kret) p.(chan) p.(killed) p.(cputicks) p.(ofile) p.(cwd) p.(name)
    p.(nice) p.(is_privileged).

Definition with_state (p : proc) (v : procstate) : proc :=
  mk_proc p.(sz) p.(pgdir) p.(kstack) v p.(pid) p.(parent) p.(tf) p.(tfv) p.(context)
    p.(contextv) p.(kret) p.(chan) p.(killed) p.(cputicks) p.(ofile) p.(cwd) p.(name)
    p.(nice) p.(is_privileged).

Definition with_pid (p : proc) (v : Z) : proc :=
  mk_proc p.(sz) p.(pgdir) p.(kstack) p.(state) v p.(parent) p.(tf) p.(tfv) p.(context)
    p.(contextv) p.(kret) p.(chan) p.(killed) p.(cputicks) p.(ofile) p.(cwd) p.(name)
    p.(nice) p.(is_privileged).

Definition with_parent (p : proc) (v : option nat) : proc :=
  mk_proc p.(sz) p.(pgdir) p.(kstack) p.(state) p.(pid) v p.(tf) p.(tfv) p.(context)
    p.(contextv) p.(kret) p.(chan) p.(killed) p.(cputicks) p.(ofile) p.(cwd) p.(name)
    p.(nice) p.(is_privileged).

Definition with_tf (p : proc) (v : Z) : proc :=
  mk_proc p.(sz) p.(pgdir) p.(kstack) p.(state) p.(pid) p.(parent) v p.(tfv) p.(context)
    p.(contextv) p.(kret) p.(chan) p.(killed) p.(cputicks) p.(ofile) p.(cwd) p.(name)
    p.(nice) p.(is_privileged).

Definition with_tfv (p : proc) (v : trapframe) : proc :=
  mk_proc p.(sz) p.(pgdir) p.(kstack) p.(state) p.(pid) p.(parent) p.(tf) v p.(context)
    p.(contextv) p.(kret) p.(chan) p.(killed) p.(cputicks) p.(ofile) p.(cwd) p.(name)
    p.(nice) p.(is_privileged).

Definition with_context (p : proc) (v : Z) : proc :=
  mk_proc p.(sz) p.(pgdir) p.(kstack) p.(state) p.(pid) p.(parent) p.(tf) p.(tfv) v
    p.(contextv) p.(kret) p.(chan) p.(killed) p.(cputicks) p.(ofile) p.(cwd) p.(name)
    p.(nice) p.(is_privileged).

Definition with_contextv (p : proc) (v : kcontext) : proc :=
  mk_proc p.(sz) p.(pgdir) p.(kstack) p.(state) p.(pid) p.(parent) p.(tf) p.(tfv)
    p.(context) v p.(kret) p.(chan) p.(killed) p.(cputicks) p.(ofile) p.(cwd) p.(name)
    p.(nice) p.(is_privileged).

Definition with_kret (p : proc) (v : Z) : proc :=
  mk_proc p.(sz) p.(pgdir) p.(kstack) p.(state) p.(pid) p.(parent) p.(tf) p.(tfv)
    p.(context) p.(contextv) v p.(chan) p.(killed) p.(cputicks) p.(ofile) p.(cwd)
    p.(name) p.(nice) p.(is_privileged).

Definition with_chan (p : proc) (v : kaddr) : proc :=
  mk_proc p.(sz) p.(pgdir) p.(kstack) p.(state) p.(pid) p.(parent) p.(tf) p.(tfv)
    p.(context) p.(contextv) p.(kret) v p.(killed) p.(cputicks) p.(ofile) p.(cwd)
    p.(name) p.(nice) p.(is_privileged).

Definition with_killed (p : proc) (v : Z) : proc :=
  mk_proc p.(sz) p.(pgdir) p.(kstack) p.(state) p.(pid) p.(parent) p.(tf) p.(tfv)
    p.(context) p.(contextv) p.(kret) p.(chan) v p.(cputicks) p.(ofile) p.(cwd) p.(name)
    p.(nice) p.(is_privileged).

Definition with_cputicks (p : proc) (v : Z) : proc :=
  mk_proc p.(sz) p.(pgdir) p.(kstack) p.(state) p.(pid) p.(parent) p.(tf) p.(tfv)
    p.(context) p.(contextv) p.(kret) p.(chan) p.(killed) v p.(ofile) p.(cwd) p.(name)
    p.(nice) p.(is_privileged).

Definition with_ofile (p : proc) (v : list Z) : proc :=
  mk_proc p.(sz) p.(pgdir) p.(kstack) p.(state) p.(pid) p.(parent) p.(tf) p.(tfv)
    p.(context) p.(contextv) p.(kret) p.(chan) p.(killed) p.(cputicks) v p.(cwd)
    p.(name) p.(nice) p.(is_privileged).

Definition with_cwd (p : proc) (v : Z) : proc :=
  mk_proc p.(sz) p.(pgdir) p.(kstack) p.(state) p.(pid) p.(parent) p.(tf) p.(tfv)
    p.(context) p.(contextv) p.(kret) p.(chan) p.(killed) p.(cputicks) p.(ofile) v
    p.(name) p.(nice) p.(is_privileged).

Definition with_name (p : proc) (v : list Z) : proc :=
  mk_proc p.(sz) p.(pgdir) p.(kstack) p.(state) p.(pid) p.(parent) p.(tf) p.(tfv)
    p.(context) p.(contextv) p.(kret) p.(chan) p.(killed) p.(cputicks) p.(ofile) p.(cwd)
    v p.(nice) p.(is_privileged).

Definition with_nice (p : proc) (v : Z) : proc :=
  mk_proc p.(sz) p.(pgdir) p.(kstack) p.(state) p.(pid) p.(parent) p.(tf) p.(tfv)
    p.(context) p.(contextv) p.(kret) p.(chan) p.(killed) p.(cputicks) p.(ofile) p.(cwd)
    p.(name) v p.(is_privileged).

Definition with_is_privileged (p : proc) (v : Z) : proc :=
  mk_proc p.(sz) p.(pgdir) p.(kstack) p.(state) p.(pid) p.(parent) p.(tf) p.(tfv)
    p.(context) p.(contextv) p.(kret) p.(chan) p.(killed) p.(cputicks) p.(ofile) p.(cwd)
    p.(name) p.(nice) v.

(** A slot of the table before its first use: static storage, all zero. *)
Definition proc0 : proc :=
  mk_proc 0 0 0 UNUSED 0 None 0 tf_zero 0 (mk_kcontext 0 0 0 0 0) 0 KNull 0 0
    (replicate NOFILE 0) 0 (replicate 16 0) 0 0.

(** ** What proc.c calls in the rest of the kernel *)

Class ProcSvc (W : Type) := {
  svc_kalloc : kM W Z;
  svc_kfree : Z -> kM W unit;
  svc_setupkvm : kM W Z;
  svc_inituvm : Z -> kM W unit;          (* of the initcode binary *)
  svc_copyuvm : Z -> Z -> kM W Z;
  svc_freevm : Z -> kM W unit;
  svc_allocuvm : Z -> Z -> Z -> kM W Z;
  svc_deallocuvm : Z -> Z -> Z -> kM W Z;
  svc_filedup : Z -> kM W unit;
  svc_fileclose : Z -> kM W unit;
  svc_idup : Z -> kM W unit;
  svc_iput : Z -> kM W unit;             (* between begin_op() and end_op() *)
  svc_namei_root : kM W Z
}.

(** ** State *)

Record kst (W : Type) := mk_kst {
  ptable : list proc;
  initproc : option nat;
  nextpid : Z;
  world : W
}.
Arguments mk_kst {W}.
Arguments ptable {W}.
Arguments initproc {W}.
Arguments nextpid {W}.
Arguments world {W}.

Definition pinit {W} (w : W) : kst W := mk_kst (replicate NPROC proc0) None 1 w.

Definition set_ptable {W} (s : kst W) (t : list proc) : kst W :=
  mk_kst t s.(initproc) s.(nextpid) s.(world).

(** Assign to the fields of slot [i]. *)
Definition upd_proc {W} (i : nat) (f : proc -> proc) (s : kst W) : kst W :=
  set_ptable s (alter f i s.(ptable)).

Definition set_world {W} (s : kst W) (w : W) : kst W :=
  mk_kst s.(ptable) s.(initproc) s.(nextpid) w.

(** Run a service on the rest of the kernel. *)
Definition svc {W A} (m : kM W A) : kM (kst W) A :=
  fun s => match m s.(world) with
           | Ok (a, w) => Ok (a, set_world s w)
           | Panic msg => Panic msg
           end.

(** The slot [i]; an index outside the table is never formed by the code. *)
Definition getp {W} (i : nat) : kM (kst W) proc :=
  fun s => match s.(ptable) !! i with Some p => Ok (p, s) | None => Panic "trap" end.

Definition setp {W} (i : nat) (f : proc -> proc) : kM (kst W) unit := kmodify (upd_proc i f).

(** ** Names of the states *)

Definition procstatestr (st : procstate) : string :=
  match st with
  | UNUSED => "UNUSED" | EMBRYO => "EMBRYO" | SLEEPING => "SLEEPING"
  | RUNNABLE => "RUNNABLE" | RUNNING => "RUNNING" | ZOMBIE => "ZOMBIE"
  end.

Section Ops.
Context {W : Type} `{SV : ProcSvc W}.
(** Addresses of the two assembly entry points a new kernel stack returns to. *)
Variable forkret trapret : Z.

Definition first_unused (t : list proc) : option nat :=
  fst <$> list_find (fun p => p.(state) = UNUSED) t.

(** The part of [allocproc] under [ptable.lock]. *)
Definition allocproc_slot : kM (kst W) (option nat) :=
  fun s => match first_unused s.(ptable) with
  | None => Ok (None, s)
  | Some i =>
      let s := upd_proc i (fun p => with_pid (with_state p EMBRYO) s.(nextpid)) s in
      let s := mk_kst s.(ptable) s.(initproc) (s32 (s.(nextpid) + 1)) s.(world) in
      let s := upd_proc i (fun p =>
                 with_is_privileged (with_nice (with_cputicks p 0) 0) 0) s in
      Ok (Some i, s)
  end.

(** The rest of [allocproc]: the kernel stack and the context on it. *)
Definition allocproc_stack (i : nat) : kM (kst W) (option nat) :=
  k ← svc svc_kalloc;
  _ ← setp i (fun p => with_kstack p k);
  if k =? 0 then
    _ ← setp i (fun p => with_state p UNUSED);
    mret None
  else
    let sp := k + KSTACKSIZE in
    let sp := sp - sizeof_trapframe in
    _ ← setp i (fun p => with_tf p sp);
    let sp := sp - 4 in
    _ ← setp i (fun p => with_kret p trapret);
    let sp := sp - sizeof_context in
    _ ← setp i (fun p => with_contextv (with_context p sp) (mk_kcontext 0 0 0 0 forkret));
    mret (Some i).

Definition allocproc : kM (kst W) (option nat) :=
  o ← allocproc_slot;
  match o with
  | None => mret None
  | Some i => allocproc_stack i
  end.

Definition userinit : kM (kst W) unit :=
  o ← allocproc;
  _ ← kmodify (fun s => mk_kst s.(ptable) o s.(nextpid) s.(world));
  match o with
  | None => kpanic "trap"        (* p->pgdir through a null p *)
  | Some i =>
      pd ← svc svc_setupkvm;
      _ ← setp i (fun p => with_pgdir p pd);
      if pd =? 0 then kpanic "userinit: out of memory?"
      else
        _ ← svc (svc_inituvm pd);
        _ ← setp i (fun p => with_sz p PGSIZE);
        let cs := Z.lor (Z.shiftl SEG_UCODE 3) DPL_USER in
        let ds := Z.lor (Z.shiftl SEG_UDATA 3) DPL_USER in
        _ ← setp i (fun p => with_tfv p
              (mk_trapframe 0 0 0 0 0 0 0 0 0 0 ds ds 0 0 0 cs FL_IF PGSIZE ds));
        _ ← setp i (fun p => with_is_privileged p 0);
        _ ← setp i (fun p => with_name p (safestrcpy_field p.(name) (lit "initcode") 16));
        c ← svc svc_namei_root;
        _ ← setp i (fun p => with_cwd p c);
        setp i (fun p => with_state p RUNNABLE)
  end.

(** [growproc(n)] for the current process [cur]; the page-table switch it ends
    with changes no process field. *)
Definition growproc (cur : nat) (n : Z) : kM (kst W) Z :=
  p ← getp cur;
  let sz0 := p.(sz) in
  let finish (sz1 : Z) : kM (kst W) Z :=
    _ ← setp cur (fun p => with_sz p sz1); mret 0 in
  if 0 <? n then
    if KERNBASE <? u32 (sz0 + n) then mret (-1)
    else
      sz1 ← svc (svc_allocuvm p.(pgdir) sz0 (u32 (sz0 + n)));
      if sz1 =? 0 then mret (-1) else finish sz1
  else if n <? 0 then
    sz1 ← svc (svc_deallocuvm p.(pgdir) sz0 (u32 (sz0 + n)));
    if sz1 =? 0 then mret (-1) else finish sz1
  else finish sz0.

(** [for(i = 0; i < NOFILE; i++) if(curproc->ofile[i]) np->ofile[i] = filedup(..)] *)
Fixpoint fork_dup (np : nat) (fds : list Z) (i : nat) : kM (kst W) unit :=
  match fds with
  | [] => mret tt
  | f :: fds =>
      _ ← (if c_true f then
             _ ← svc (svc_filedup f);
             setp np (fun p => with_ofile p (<[i := f]> p.(ofile)))
           else mret tt);
      fork_dup np fds (S i)
  end.

(** [fork] between [allocproc] and the final critical section: [Some np] when
    the child is ready, [None] when the parent's image could not be copied. *)
Definition fork_fill (cur np : nat) : kM (kst W) (option nat) :=
  c ← getp cur;
  pd ← svc (svc_copyuvm c.(pgdir) c.(sz));
  _ ← setp np (fun p => with_pgdir p pd);
  if pd =? 0 then
    n ← getp np;
    _ ← svc (svc_kfree n.(kstack));
    _ ← setp np (fun p => with_state (with_kstack p 0) UNUSED);
    mret None
  else
    _ ← setp np (fun p => with_parent (with_sz p c.(sz)) (Some cur));
    _ ← setp np (fun p => with_tfv p c.(tfv));
    _ ← setp np (fun p => with_is_privileged (with_nice p c.(nice)) c.(is_privileged));
    _ ← setp np (fun p => with_tfv p (with_tf_eax p.(tfv) 0));
    _ ← fork_dup np c.(ofile) 0;
    _ ← svc (svc_idup c.(cwd));
    _ ← setp np (fun p => with_cwd p c.(cwd));
    _ ← setp np (fun p => with_name p (safestrcpy_field p.(name) c.(name) 16));
    mret (Some np).

(** [pid = np->pid] and the final critical section. *)
Definition fork_publish (np : nat) : kM (kst W) Z :=
  n ← getp np;
  _ ← setp np (fun p => with_state p RUNNABLE);
  mret n.(pid).

Definition fork (cur : nat) : kM (kst W) Z :=
  o ← allocproc;
  match o with
  | None => mret (-1)
  | Some np =>
      o ← fork_fill cur np;
      match o with
      | None => mret (-1)
      | Some np => fork_publish np
      end
  end.

(** ** Sleep and wakeup *)

Definition wakeup1 (ch : kaddr) (t : list proc) : list proc :=
  map (fun p => if decide (p.(state) = SLEEPING /\ p.(chan) = ch)
                then with_state p RUNNABLE else p) t.

Definition wakeup (ch : kaddr) : kM (kst W) unit :=
  kmodify (fun s => set_ptable s (wakeup1 ch s.(ptable))).

(** [sched()]: the checks it makes before it switches to the scheduler.
    [holding] is [holding(&ptable.lock)], [ncli] the depth of [pushcli] on this
    CPU and [fl_if] the interrupt flag.  [yield], [sleep] and [exit] below are
    for callers that hold [ptable.lock], taken there, and no other spinlock:
    they pass these three as constants, and only the check of [state] can
    fail. *)
Definition sched (holding : bool) (ncli : Z) (fl_if : bool) (cur : nat) : kM (kst W) unit :=
  p ← getp cur;
  if negb holding then kpanic "sched ptable.lock"
  else if negb (ncli =? 1) then kpanic "sched locks"
  else if bool_decide (p.(state) = RUNNING) then kpanic "sched running"
  else if fl_if then kpanic "sched interruptible"
  else mret tt.

(** [yield()] up to the switch; after it only the lock is released. *)
Definition yield (cur : nat) : kM (kst W) unit :=
  _ ← setp cur (fun p => with_state p RUNNABLE);
  sched true 1 false cur.

(** [sleep(chan, lk)] up to the switch.  [lk] is given up atomically with going
    to sleep because [ptable.lock] is held by then. *)
Definition sleep (cur : option nat) (ch lk : kaddr) : kM (kst W) unit :=
  match cur with
  | None => kpanic "sleep"
  | Some cur =>
      if bool_decide (lk = KNull) then kpanic "sleep without lk"
      else
        _ ← setp cur (fun p => with_chan p ch);
        _ ← setp cur (fun p => with_state p SLEEPING);
        sched true 1 false cur
  end.

(** [sleep] once it runs again. *)
Definition sleep_resume (cur : nat) : kM (kst W) unit :=
  setp cur (fun p => with_chan p KNull).

(** ** Exit and wait *)

Fixpoint exit_close (cur : nat) (fds : list Z) (fd : nat) : kM (kst W) unit :=
  match fds with
  | [] => mret tt
  | f :: fds =>
      _ ← (if c_true f then
             _ ← svc (svc_fileclose f);
             setp cur (fun p => with_ofile p (<[fd := 0]> p.(ofile)))
           else mret tt);
      exit_close cur fds (S fd)
  end.

(** One turn of the loop that passes abandoned children to init. *)
Definition reparent1 (cur : nat) (init : option nat) (t : list proc) (i : nat) : list proc :=
  match t !! i with
  | Some p =>
      if decide (p.(parent) = Some cur) then
        let t := <[i := with_parent p init]> t in
        if decide (p.(state) = ZOMBIE) then wakeup1 (paddr init) t else t
      else t
  | None => t
  end.

Definition reparent (cur : nat) (init : option nat) (t : list proc) : list proc :=
  fold_left (reparent1 cur init) (seq 0 (length t)) t.

(** The end of [exit()], under [ptable.lock], up to the switch it never returns
    from. *)
Definition exit_last (cur : nat) : kM (kst W) unit :=
  p ← getp cur;
  _ ← wakeup (paddr p.(parent));
  _ ← kmodify (fun s => set_ptable s (reparent cur s.(initproc) s.(ptable)));
  _ ← setp cur (fun p => with_state p ZOMBIE);
  sched true 1 false cur.

Definition exit (cur : nat) : kM (kst W) unit :=
  s ← kget;
  if bool_decide (s.(initproc) = Some cur) then kpanic "init exiting"
  else
    p ← getp cur;
    _ ← exit_close cur p.(ofile) 0;
    _ ← svc (svc_iput p.(cwd));
    _ ← setp cur (fun p => with_cwd p 0);
    exit_last cur.

(** One scan of [wait]: the first exited child, or whether there is any child. *)
Inductive wait_scan_res := WFound (i : nat) | WNone (havekids : bool).

Fixpoint wait_scan (cur : nat) (t : list proc) (i : nat) (havekids : bool) : wait_scan_res :=
  match t with
  | [] => WNone havekids
  | p :: t =>
      if decide (p.(parent) <> Some cur) then wait_scan cur t (S i) havekids
      else if decide (p.(state) = ZOMBIE) then WFound i
      else wait_scan cur t (S i) true
  end.

Inductive wait_res := WaitPid (pid : Z) | WaitErr | WaitSleep.

(** One turn of [wait]'s loop; [WaitSleep] is its [sleep(curproc, &ptable.lock)],
    after which the loop starts again. *)
Definition wait (cur : nat) : kM (kst W) wait_res :=
  s ← kget;
  match wait_scan cur s.(ptable) 0 false with
  | WFound i =>
      p ← getp i;
      _ ← svc (svc_kfree p.(kstack));
      _ ← setp i (fun p => with_kstack p 0);
      _ ← svc (svc_freevm p.(pgdir));
      _ ← setp i (fun p => with_parent (with_pid p 0) None);
      _ ← setp i (fun p => with_name p (<[0%nat := 0]> p.(name)));
      _ ← setp i (fun p => with_state (with_killed p 0) UNUSED);
      mret (WaitPid p.(pid))
  | WNone havekids =>
      c ← getp cur;
      if negb havekids || c_true c.(killed) then mret WaitErr
      else
        _ ← sleep (Some cur) (KProc cur) (KObj 0);
        mret WaitSleep
  end.

(** ** The scheduler *)

(** The search of [scheduler()]: the first RUNNABLE process of least [nice]. *)
Fixpoint sched_scan (t : list proc) (i : nat) (best : option (nat * Z)) : option nat :=
  match t with
  | [] => fst <$> best
  | p :: t =>
      if decide (p.(state) <> RUNNABLE) then sched_scan t (S i) best
      else match best with
           | None => sched_scan t (S i) (Some (i, p.(nice)))
           | Some (_, bn) =>
               if p.(nice) <? bn then sched_scan t (S i) (Some (i, p.(nice)))
               else sched_scan t (S i) best
           end
  end.

Definition scheduler_pick (t : list proc) : option nat := sched_scan t 0 None.

(** The per-CPU state the scheduler sets: [c->proc], and what [switchuvm]
    loads, the kernel stack of the task state and the page directory. *)
Record cpu := mk_cpu { c_proc : option nat; ts_esp0 : Z; cr3 : Z }.

Definition switchuvm (c : cpu) (p : proc) : outcome cpu :=
  if p.(kstack) =? 0 then Panic "switchuvm: no kstack"
  else if p.(pgdir) =? 0 then Panic "switchuvm: no pgdir"
  else Ok (mk_cpu c.(c_proc) (u32 (p.(kstack) + KSTACKSIZE)) (V2P p.(pgdir))).

(** One turn of [scheduler()] up to [swtch]: the CPU's new state. *)
Definition scheduler (c : cpu) : kM (kst W) cpu :=
  s ← kget;
  match scheduler_pick s.(ptable) with
  | None => mret c
  | Some i =>
      p ← getp i;
      match switchuvm (mk_cpu (Some i) c.(ts_esp0) c.(cr3)) p with
      | Panic msg => kpanic msg
      | Ok c =>
          _ ← setp i (fun p => with_state p RUNNING);
          mret c
      end
  end.

(** [scheduler()] after the process switched back. *)
Definition scheduler_return (kpgdir : Z) (c : cpu) : cpu := mk_cpu None c.(ts_esp0) (V2P kpgdir).

(** ** Signals and niceness *)

Definition find_pid (n : Z) (t : list proc) : option nat :=
  fst <$> list_find (fun p => p.(pid) = n) t.

Definition kill (n : Z) : kM (kst W) Z :=
  s ← kget;
  match find_pid n s.(ptable) with
  | None => mret (-1)
  | Some i =>
      _ ← setp i (fun p => with_killed p 1);
      _ ← setp i (fun p => if decide (p.(state) = SLEEPING) then with_state p RUNNABLE else p);
      mret 0
  end.

Definition set_nice (n priority : Z) : kM (kst W) Z :=
  if (priority <? -20) || (19 <? priority) then mret (-1)
  else
    s ← kget;
    match find_pid n s.(ptable) with
    | None => mret (-1)
    | Some i =>
        _ ← setp i (fun p => with_nice p (if priority <? 0 then - priority else priority));
        _ ← setp i (fun p => with_is_privileged p (if priority <? 0 then 1 else 0));
        mret 0
    end.

(** ** Process information *)

(** [can_access_procinfo(caller, target)]: walk up from [target]. *)
Fixpoint can_access_procinfo (fuel : nat) (t : list proc) (caller : nat)
    (target : option nat) : option bool :=
  match fuel with
  | O => None
  | S fuel =>
      match target with
      | None => Some false
      | Some i =>
          if decide (i = caller) then Some true
          else match t !! i with
               | Some p => can_access_procinfo fuel t caller p.(parent)
               | None => None
               end
      end
  end.

Record procinfo := mk_procinfo {
  pi_pid : Z; pi_ppid : Z; pi_state : list Z; pi_sz : Z; pi_cputicks : Z;
  pi_name : list Z; pi_nice : Z; pi_is_privileged : Z
}.

(** [getprocinfo(pid, info)] for the current process [cur]: the return value
    and the structure left at [info] ([None] is the null pointer). *)
Definition getprocinfo (fuel : nat) (cur : nat) (n : Z) (info : option procinfo)
    (s : kst W) : option (Z * option procinfo) :=
  match info with
  | None => Some (-1, None)
  | Some old =>
      match fst <$> list_find (fun p => p.(pid) = n /\ p.(state) <> UNUSED) s.(ptable) with
      | None => Some (-1, info)
      | Some i =>
          match s.(ptable) !! i, can_access_procinfo fuel s.(ptable) cur (Some i) with
          | Some p, Some true =>
              let ppid := match p.(parent) with
                          | Some j => match s.(ptable) !! j with Some q => q.(pid) | None => 0 end
                          | None => 0
                          end in
              Some (0, Some (mk_procinfo p.(pid) ppid
                (safestrcpy_field old.(pi_state) (lit (procstatestr p.(state))) 16)
                p.(sz) p.(cputicks)
                (safestrcpy_field old.(pi_name) p.(name) 16) p.(nice) p.(is_privileged)))
          | Some _, Some false => Some (-1, info)
          | _, _ => None
          end
      end
  end.

End Ops.
