(* ===== verification/ProcSpec.v ===== *)
(** * Correctness of the process operations

    The niceness scheduler, fork, exit, wait, kill and nice of [Proc], each
    against a description of its effect on the process table.  What the rest
    of the kernel does meanwhile is described by the calls they make of it:
    [fork_world], [exit_world] and [wait_world] are sequences of services, and
    an operation panics if and only if a service of its sequence does.  [krun]
    runs through monadic code. *)

From S2P Require Import Prelude CString Mmu Proc.

(** ** The scheduler's choice *)

(** Slot [i] is the first RUNNABLE process of least niceness. *)
Definition is_pick (t : list proc) (i : nat) : Prop :=
  exists p, t !! i = Some p /\ p.(state) = RUNNABLE /\
    forall j q, t !! j = Some q -> q.(state) = RUNNABLE ->
      p.(nice) <= q.(nice) /\ ((j < i)%nat -> p.(nice) < q.(nice)).

Definition no_runnable (t : list proc) : Prop :=
  forall i p, t !! i = Some p -> p.(state) <> RUNNABLE.

(** What the search knows after the prefix [t]. *)
Definition best_of (t : list proc) (best : option (nat * Z)) : Prop :=
  match best with
  | None => no_runnable t
  | Some (b, n) => is_pick t b /\ exists p, t !! b = Some p /\ p.(nice) = n
  end.

Lemma snoc_lookup {A} (t : list A) p j q :
  (t ++ [p]) !! j = Some q -> t !! j = Some q \/ (j = length t /\ q = p).
Proof.
  intros H. apply lookup_snoc_Some in H as [[_ H]|[H1 H2]]; [by left|right; split; congruence].
Qed.

Lemma best_of_skip t p best :
  best_of t best -> p.(state) <> RUNNABLE -> best_of (t ++ [p]) best.
Proof.
  intros Hb Hp. destruct best as [[b n]|]; simpl in *.
  - destruct Hb as [(q & Hq & Hr & Hmin) (q' & Hq' & Hn)].
    split; [exists q|exists q']; (split; [by apply lookup_app_l_Some|]); [|done].
    split; [done|]. intros j r Hj. apply snoc_lookup in Hj as [Hj|[_ ->]]; [|done].
    by apply Hmin.
  - intros j q Hj. apply snoc_lookup in Hj as [Hj|[_ ->]]; [by eapply Hb|done].
Qed.

Lemma best_of_keep t p b n :
  best_of t (Some (b, n)) -> n <= p.(nice) -> best_of (t ++ [p]) (Some (b, n)).
Proof.
  intros [(q & Hq & Hr & Hmin) (q' & Hq' & Hn)] Hp. rewrite Hq in Hq'. injection Hq' as <-.
  pose proof (lookup_lt_Some _ _ _ Hq) as Hlt.
  split; exists q; (split; [by apply lookup_app_l_Some|]); [|done].
  split; [done|]. intros j r Hj Hrr. apply snoc_lookup in Hj as [Hj|[-> ->]].
  - by apply Hmin.
  - split; lia.
Qed.

Lemma best_of_new t p best :
  best_of t best -> p.(state) = RUNNABLE ->
  match best with Some (_, n) => p.(nice) < n | None => True end ->
  best_of (t ++ [p]) (Some (length t, p.(nice))).
Proof.
  intros Hb Hp Hlt.
  assert (Hl : (t ++ [p]) !! length t = Some p) by by apply list_lookup_middle.
  split; [|by exists p]. exists p. split; [done|]. split; [done|].
  intros j q Hj Hq. pose proof Hj as Hj'. apply snoc_lookup in Hj as [Hj|[-> ->]]; [|split; lia].
  destruct best as [[b n]|]; simpl in Hb.
  - destruct Hb as [(r & Hr & _ & Hmin) (r' & Hr' & Hn)]. rewrite Hr in Hr'.
    injection Hr' as <-. specialize (Hmin j q Hj Hq). lia.
  - by destruct (Hb j q Hj).
Qed.

Lemma sched_scan_spec t t0 best :
  best_of t0 best ->
  match sched_scan t (length t0) best with
  | Some i => is_pick (t0 ++ t) i
  | None => no_runnable (t0 ++ t)
  end.
Proof.
  revert t0 best. induction t as [|p t IH]; intros t0 best Hb; cbn [sched_scan].
  - rewrite app_nil_r. destruct best as [[b n]|]; [by apply Hb|done].
  - replace (t0 ++ p :: t) with ((t0 ++ [p]) ++ t) by by rewrite <- app_assoc.
    replace (S (length t0)) with (length (t0 ++ [p])) by (rewrite length_app; simpl; lia).
    destruct (decide _) as [Hs|Hs]; [by apply IH, best_of_skip|].
    destruct (decide (p.(state) = RUNNABLE)) as [Hr|]; [|done].
    destruct best as [[b n]|]; [case_bool|]; apply IH.
    + exact (best_of_new _ _ (Some (b, n)) Hb Hr ltac:(done)).
    + by apply best_of_keep.
    + exact (best_of_new _ _ None Hb Hr I).
Qed.

Lemma is_pick_unique t i j : is_pick t i -> is_pick t j -> i = j.
Proof.
  intros (p & Hp & Hpr & Hpm) (q & Hq & Hqr & Hqm).
  destruct (Hpm j q Hq Hqr), (Hqm i p Hp Hpr).
  destruct (decide (i < j)%nat), (decide (j < i)%nat); lia.
Qed.

Lemma pick_runnable t i : scheduler_pick t = Some i ->
  exists p, t !! i = Some p /\ p.(state) = RUNNABLE.
Proof.
  intros H. pose proof (sched_scan_spec t [] None ltac:(intros ? ? [=])) as Hs.
  simpl in Hs. fold (scheduler_pick t) in Hs. rewrite H in Hs. destruct Hs as (p & ? & ? & _). eauto.
Qed.

(** C38. The scheduler runs the RUNNABLE process of least niceness, the lowest
    slot among equals, and idles only when no process is RUNNABLE. *)
Theorem scheduler_pick_spec (t : list proc) :
  (forall i, scheduler_pick t = Some i <-> is_pick t i) /\
  (scheduler_pick t = None <-> no_runnable t).
Proof.
  pose proof (sched_scan_spec t [] None ltac:(intros ? ? [=])) as H. simpl in H.
  fold (scheduler_pick t) in H. destruct (scheduler_pick t) as [i|] eqn:E; split.
  - intros j. split; [by intros [= <-]|]. intros Hj. f_equal. by eapply is_pick_unique.
  - split; [done|]. intros Hn. destruct H as (p & Hp & Hr & _). by destruct (Hn i p Hp).
  - intros j. split; [done|]. intros (p & Hp & Hr & _). by destruct (H j p Hp).
  - done.
Qed.

(** ** Running the process operations *)

Section Run.
Context {W : Type} `{SV : ProcSvc W}.
Variable forkret trapret : Z.
Implicit Types s : kst W.

Lemma svc_Ok {A} (m : kM W A) s a s' :
  svc m s = Ok (a, s') -> exists w, m s.(world) = Ok (a, w) /\ s' = set_world s w.
Proof.
  unfold svc. destruct (m _) as [[a' w]|]; [|done]. intros [= <- <-]. eauto.
Qed.

Lemma getp_Ok i s p s' : getp i s = Ok (p, s') -> s' = s /\ s.(ptable) !! i = Some p.
Proof. unfold getp. destruct (_ !! i) eqn:E; [|done]. intros [= <- <-]. eauto. Qed.

Lemma setp_Ok i f s u s' : setp i f s = Ok (u, s') -> s' = upd_proc i f s.
Proof. by intros [= <- <-]. Qed.

Lemma sched_Ok h n fl cur s u s' : sched h n fl cur s = Ok (u, s') -> s' = s.
Proof.
  unfold sched. intros H. kinv H. apply getp_Ok in Hr as [-> _].
  repeat case_match; try done. by injection H as <- <-.
Qed.

End Run.

(** Run through a hypothesis that process code returned, one call at a time. *)
Ltac krun1 H :=
  try kinv H;
  match goal with
  | Hr : setp _ _ _ = Ok (_, _) |- _ => apply setp_Ok in Hr; subst
  | Hr : getp _ _ = Ok (_, _) |- _ =>
      let E := fresh "Hget" in apply getp_Ok in Hr as [-> E]
  | Hr : svc _ _ = Ok (_, _) |- _ =>
      let w := fresh "w" in let E := fresh "Hsvc" in
      apply svc_Ok in Hr as (w & E & ->)
  | Hr : kget _ = Ok (_, _) |- _ => injection Hr as <- <-
  | Hr : sched _ _ _ _ _ = Ok (_, _) |- _ => apply sched_Ok in Hr as ->
  | Hr : mret _ _ = Ok (_, _) |- _ => injection Hr as <- <-
  | Hr : kmodify _ _ = Ok (_, _) |- _ => injection Hr as <- <-
  end; simpl in *.
Ltac krun H := repeat (krun1 H).

(** ** Code that calls services *)

Section Services.
Context {W : Type}.
Implicit Types s : kst W.

Lemma svc_bind {A B} (m : kM W A) (f : A -> kM (kst W) B) s :
  (svc m ≫= f) s = match m s.(world) with Ok (a, w) => f a (set_world s w) | Panic e => Panic e end.
Proof. unfold mbind, kM_bind, svc. by destruct (m s.(world)) as [[a w]|e]. Qed.

Lemma kbind_eq {S A B} (m : kM S A) (f : A -> kM S B) (t : S) :
  (m ≫= f) t = match m t with Ok (a, t) => f a t | Panic e => Panic e end.
Proof. done. Qed.

Lemma getp_bind {A} i (f : proc -> kM (kst W) A) s p : s.(ptable) !! i = Some p -> (getp i ≫= f) s = f p s.
Proof. intros Hp. unfold mbind, kM_bind, getp. by rewrite Hp. Qed.

Lemma setp_bind {A} i g (f : unit -> kM (kst W) A) s : (setp i g ≫= f) s = f tt (upd_proc i g s).
Proof. done. Qed.

(** Two changes of one slot. *)
Lemma slot_upd_upd i f g (s : kst W) : upd_proc i f (upd_proc i g s) = upd_proc i (f ∘ g) s.
Proof. unfold upd_proc, set_ptable. cbn [ptable initproc nextpid world]. by rewrite list_alter_alter_eq. Qed.

Lemma upd_world i f (s : kst W) w : set_world (upd_proc i f s) w = upd_proc i f (set_world s w).
Proof. done. Qed.

Lemma slot_upd_ext i f g (s : kst W) p : s.(ptable) !! i = Some p -> f p = g p -> upd_proc i f s = upd_proc i g s.
Proof.
  intros Hp E. unfold upd_proc. f_equal. apply list_alter_ext; [|done]. intros q Hq. rewrite Hp in Hq. by injection Hq as <-.
Qed.

Lemma upd_id i (s : kst W) f : (forall p, f p = p) -> upd_proc i f s = s.
Proof. intros E. unfold upd_proc, set_ptable. rewrite list_alter_id by (intros; apply E). by destruct s. Qed.

Lemma upd_at i f (s : kst W) p : s.(ptable) !! i = Some p -> (upd_proc i f s).(ptable) !! i = Some (f p).
Proof. intros Hp. cbn. by rewrite list_lookup_alter_eq, Hp. Qed.

Lemma upd_other i j f (s : kst W) : i <> j -> (upd_proc j f s).(ptable) !! i = s.(ptable) !! i.
Proof. intros Hne. cbn. by rewrite list_lookup_alter_ne. Qed.

End Services.

Section Fork.
Context {W : Type} `{SV : ProcSvc W}.
Variable forkret trapret : Z.
Implicit Types s : kst W.

(** What [allocproc] makes of a slot [p] given the pid [n] and the stack [k]. *)
Definition embryo (n k : Z) (p : proc) : proc :=
  with_contextv (with_context (with_kret (with_tf (with_kstack
    (with_is_privileged (with_nice (with_cputicks (with_pid (with_state p EMBRYO) n) 0) 0) 0) k)
    (k + KSTACKSIZE - sizeof_trapframe)) trapret)
    (k + KSTACKSIZE - sizeof_trapframe - 4 - sizeof_context)) (mk_kcontext 0 0 0 0 forkret).

Lemma first_unused_lookup t np :
  first_unused t = Some np -> exists p, t !! np = Some p /\ p.(state) = UNUSED.
Proof. intros H. apply list_find_fst_Some in H as (p & ? & ? & _). eauto. Qed.

Lemma allocproc_Ok s o s' :
  allocproc forkret trapret s = Ok (o, s') ->
  s'.(initproc) = s.(initproc) /\
  match o with
  | Some np => first_unused s.(ptable) = Some np /\
      s'.(nextpid) = s32 (s.(nextpid) + 1) /\
      exists k, k <> 0 /\ s'.(ptable) = alter (embryo s.(nextpid) k) np s.(ptable)
  | None => first_unused s.(ptable) = None /\ s' = s \/
      exists np, first_unused s.(ptable) = Some np /\
        s'.(nextpid) = s32 (s.(nextpid) + 1) /\
        s'.(ptable) = alter (fun p => with_state (with_kstack
          (with_is_privileged (with_nice (with_cputicks (with_pid p s.(nextpid)) 0) 0) 0) 0) UNUSED)
          np s.(ptable)
  end.
Proof.
  unfold allocproc, allocproc_slot. intros H. kinv H.
  destruct (first_unused _) as [np|] eqn:E.
  - injection Hr as <- <-. unfold allocproc_stack in H. krun1 H. krun1 H.
    destruct (Z.eqb_spec a 0) as [->|Hk].
    + krun H. split; [done|]. right. exists np. split; [done|].
      split; [done|]. rewrite !list_alter_alter_eq. done.
    + krun H. split; [done|]. split; [done|]. split; [done|].
      exists a. split; [done|]. rewrite !list_alter_alter_eq. done.
  - injection Hr as <- <-. injection H as <- <-. split; [done|]. by left.
Qed.

(** The child's descriptors after the copy loop. *)
Fixpoint dup_fds (fds : list Z) (i : nat) (l : list Z) : list Z :=
  match fds with
  | [] => l
  | f :: fds => dup_fds fds (S i) (if c_true f then <[i := f]> l else l)
  end.

Lemma fork_dup_Ok np fds i s u s' :
  fork_dup np fds i s = Ok (u, s') ->
  s'.(initproc) = s.(initproc) /\ s'.(nextpid) = s.(nextpid) /\
  s'.(ptable) = alter (fun p => with_ofile p (dup_fds fds i p.(ofile))) np s.(ptable).
Proof.
  revert i s. induction fds as [|f fds IH]; intros i s; cbn [fork_dup dup_fds].
  - intros [= <- <-]. split; [done|]. split; [done|]. symmetry. apply list_alter_id. by intros [].
  - intros H. kinv H. apply IH in H as (H1 & H2 & H3). rewrite H1, H2, H3.
    destruct (c_true f).
    + krun Hr. by rewrite list_alter_alter_eq.
    + injection Hr as <- <-. done.
Qed.

Lemma dup_fds_length fds i l : length (dup_fds fds i l) = length l.
Proof.
  revert i l. induction fds as [|f fds IH]; intros i l; simpl; [done|].
  rewrite IH. destruct (c_true f); [apply length_insert|done].
Qed.

Lemma dup_fds_lookup fds i l j :
  dup_fds fds i l !! j =
  match fds !! (j - i)%nat with
  | Some f => if decide (i <= j /\ j < length l)%nat then
                if c_true f then Some f else l !! j
              else l !! j
  | None => l !! j
  end.
Proof.
  revert i l. induction fds as [|f fds IH]; intros i l; cbn [dup_fds]; [done|].
  rewrite IH. assert (Hl : length (if c_true f then <[i:=f]> l else l) = length l)
    by (destruct (c_true f); [apply length_insert|done]). rewrite Hl.
  destruct (decide (i = j)) as [->|Hne].
  - replace (j - j)%nat with 0%nat by lia. replace (j - S j)%nat with 0%nat by lia. simpl.
    assert (He : match fds !! 0%nat with
                 | Some f0 => if decide (S j <= j /\ j < length l)%nat then
                     if c_true f0 then Some f0 else (if c_true f then <[j:=f]> l else l) !! j
                     else (if c_true f then <[j:=f]> l else l) !! j
                 | None => (if c_true f then <[j:=f]> l else l) !! j
                 end = (if c_true f then <[j:=f]> l else l) !! j).
    { destruct (fds !! 0%nat); [|done]. case_decide; [lia|done]. }
    rewrite He. clear He. case_decide as Hd.
    + destruct (c_true f); [|done]. apply list_lookup_insert_eq. lia.
    + destruct (c_true f); [|done]. rewrite list_insert_ge by lia. done.
  - assert (Hi : (if c_true f then <[i:=f]> l else l) !! j = l !! j)
      by (destruct (c_true f); [by apply list_lookup_insert_ne|done]). rewrite Hi.
    destruct (decide (i < j)%nat).
    + replace (j - i)%nat with (S (j - S i)) by lia. simpl.
      destruct (fds !! (j - S i)%nat); [|done]. repeat case_decide; try lia; done.
    + replace (j - i)%nat with 0%nat by lia. simpl.
      destruct (fds !! (j - S i)%nat); repeat case_decide; try lia; done.
Qed.

(** What [fork] makes of the embryo [p] of the parent [c] in slot [cur]. *)
Definition filled (cur : nat) (c : proc) (pd : Z) (p : proc) : proc :=
  let p := with_parent (with_sz (with_pgdir p pd) c.(sz)) (Some cur) in
  let p := with_is_privileged (with_nice (with_tfv p c.(tfv)) c.(nice)) c.(is_privileged) in
  let p := with_tfv p (with_tf_eax p.(tfv) 0) in
  let p := with_cwd (with_ofile p (dup_fds c.(ofile) 0 p.(ofile))) c.(cwd) in
  with_name p (safestrcpy_field p.(name) c.(name) 16).

Lemma fork_fill_Ok cur np s o s' c :
  s.(ptable) !! cur = Some c ->
  fork_fill cur np s = Ok (o, s') ->
  s'.(initproc) = s.(initproc) /\ s'.(nextpid) = s.(nextpid) /\
  match o with
  | Some np' => np' = np /\ exists pd, pd <> 0 /\ s'.(ptable) = alter (filled cur c pd) np s.(ptable)
  | None => s'.(ptable) =
      alter (fun p => with_state (with_kstack (with_pgdir p 0) 0) UNUSED) np s.(ptable)
  end.
Proof.
  intros Hc H. unfold fork_fill in H. krun1 H. rewrite Hc in Hget. injection Hget as <-.
  krun1 H. krun1 H. destruct (Z.eqb_spec a 0) as [->|Hpd].
  - krun H. split; [done|]. split; [done|]. by rewrite list_alter_alter_eq.
  - do 4 krun1 H. kinv H. apply fork_dup_Ok in Hr as (H1 & H2 & H3).
    krun H. rewrite H1, H2, H3. split; [done|]. split; [done|]. split; [done|].
    exists a. split; [done|]. rewrite !list_alter_alter_eq. done.
Qed.

Lemma alter_lookup_ne {A} (f : A -> A) (l : list A) i j x :
  l !! i = Some x -> l !! j = None \/ j <> i -> alter f j l !! i = Some x.
Proof.
  intros Hi [Hj|Hj]; [|by rewrite list_lookup_alter_ne].
  rewrite list_lookup_alter_ne; [done|]. congruence.
Qed.

(** The services that [fork] calls for the parent [c]: a stack, a copy of the
    memory, and a reference to each open file and to the directory.  The result
    is the stack and the page directory, 0 for what could not be had. *)
Fixpoint dup_world (fds : list Z) : kM W unit :=
  match fds with
  | [] => mret tt
  | f :: fds => if c_true f then (_ ← svc_filedup f; dup_world fds) else dup_world fds
  end.

Definition fork_world (c : proc) : kM W (Z * Z) :=
  k ← svc_kalloc;
  if k =? 0 then mret (0, 0)
  else
    pd ← svc_copyuvm c.(pgdir) c.(sz);
    if pd =? 0 then (_ ← svc_kfree k; mret (k, 0))
    else (_ ← dup_world c.(ofile); _ ← svc_idup c.(cwd); mret (k, pd)).

Lemma fork_dup_run np fds i s :
  fork_dup np fds i s =
    match dup_world fds s.(world) with
    | Ok (_, w) => Ok (tt, upd_proc np (fun p => with_ofile p (dup_fds fds i p.(ofile))) (set_world s w))
    | Panic e => Panic e
    end.
Proof.
  revert i s. induction fds as [|f fds IH]; intros i s; cbn [fork_dup dup_world dup_fds].
  - cbv [mret kM_ret]. rewrite upd_id by (by intros []). by destruct s.
  - destruct (c_true f); [|rewrite (kM_bind_run _ _ _ tt s) by done; apply IH].
    rewrite (kbind_eq (svc _ ≫= _)), (kbind_eq (svc_filedup f)), svc_bind.
    destruct (svc_filedup f s.(world)) as [[[] w]|e]; [|done]. unfold setp, kmodify. rewrite IH. cbn [world upd_proc set_ptable set_world].
    destruct (dup_world fds w) as [[[] w']|e]; [|done]. by rewrite upd_world, slot_upd_upd.
Qed.

Lemma fork_fill_run cur np s c n k :
  s.(ptable) !! cur = Some c -> s.(ptable) !! np = Some n -> np <> cur -> n.(kstack) = k ->
  fork_fill cur np s =
    match svc_copyuvm c.(pgdir) c.(sz) s.(world) with
    | Panic e => Panic e
    | Ok (pd, w) =>
        if pd =? 0 then
          match svc_kfree k w with
          | Panic e => Panic e
          | Ok (_, w) => Ok (None, upd_proc np (fun p => with_state (with_kstack (with_pgdir p 0) 0) UNUSED) (set_world s w))
          end
        else
          match (_ ← dup_world c.(ofile); svc_idup c.(cwd)) w with
          | Panic e => Panic e
          | Ok (_, w) => Ok (Some np, upd_proc np (filled cur c pd) (set_world s w))
          end
    end.
Proof.
  intros Hc Hn Hne Hk. unfold fork_fill. rewrite (getp_bind _ _ _ _ Hc), svc_bind.
  destruct (svc_copyuvm c.(pgdir) c.(sz) s.(world)) as [[pd w]|e]; [|done]. rewrite setp_bind.
  destruct (Z.eqb_spec pd 0) as [->|Hpd].
  - assert (Hn' : (upd_proc np (fun p => with_pgdir p 0) (set_world s w)).(ptable) !! np = Some (with_pgdir n 0))
      by exact (upd_at np (fun p => with_pgdir p 0) (set_world s w) n Hn).
    rewrite (getp_bind _ _ _ _ Hn'), svc_bind. change (with_pgdir n 0).(kstack) with n.(kstack). rewrite Hk. cbn [world upd_proc set_ptable set_world].
    destruct (svc_kfree k w) as [[[] w']|e]; [|done]. rewrite setp_bind, upd_world, slot_upd_upd. done.
  - rewrite !setp_bind, !slot_upd_upd, (kbind_eq (fork_dup _ _ _)), (kbind_eq (dup_world _)), fork_dup_run. cbn [world upd_proc set_ptable set_world].
    destruct (dup_world c.(ofile) w) as [[[] w1]|e]; [|done]. rewrite svc_bind. cbn [world upd_proc set_ptable set_world].
    destruct (svc_idup c.(cwd) w1) as [[[] w2]|e]; [|done]. rewrite !setp_bind, !upd_world, !slot_upd_upd. done.
Qed.

(** What becomes of the free slot when [fork_world] gave [k] and [pd]. *)
Definition fork_slot (cur : nat) (c : proc) (n k pd : Z) (p : proc) : proc :=
  if k =? 0 then
    with_state (with_kstack (with_is_privileged (with_nice (with_cputicks (with_pid p n) 0) 0) 0) 0) UNUSED
  else if pd =? 0 then with_state (with_kstack (with_pgdir (embryo n k p) 0) 0) UNUSED
  else with_state (filled cur c pd (embryo n k p)) RUNNABLE.

Definition fork_result (n k pd : Z) : Z := if (k =? 0) || (pd =? 0) then -1 else n.

Lemma fork_exact s cur c np :
  s.(ptable) !! cur = Some c -> c.(state) <> UNUSED -> first_unused s.(ptable) = Some np ->
  fork forkret trapret cur s =
    match fork_world c s.(world) with
    | Panic e => Panic e
    | Ok ((k, pd), w) =>
        Ok (fork_result s.(nextpid) k pd,
            mk_kst (alter (fork_slot cur c s.(nextpid) k pd) np s.(ptable)) s.(initproc) (s32 (s.(nextpid) + 1)) w)
    end.
Proof.
  intros Hc Hs Hu. destruct (first_unused_lookup _ _ Hu) as (old & Hold & Hst). assert (Hne : np <> cur) by congruence.
  unfold fork, allocproc. rewrite (kbind_eq (allocproc_slot ≫= _)), (kbind_eq allocproc_slot). unfold allocproc_slot. rewrite Hu.
  set (s1 := upd_proc np _ _). assert (E1 : s1.(world) = s.(world)) by done. unfold allocproc_stack. rewrite svc_bind, E1.
  unfold fork_world. rewrite kbind_eq. destruct (svc_kalloc s.(world)) as [[k w]|e]; [|done]. rewrite setp_bind.
  destruct (Z.eqb_spec k 0) as [->|Hk].
  { rewrite setp_bind, slot_upd_upd. unfold mret, kM_ret. cbn [Proc.world]. do 2 f_equal. unfold s1, upd_proc, set_world, set_ptable.
    cbn [ptable initproc nextpid world]. rewrite !list_alter_alter_eq. done. }
  rewrite !setp_bind, !slot_upd_upd. cbv beta iota delta [mret kM_ret]. set (s2 := upd_proc np _ _).
  assert (E2 : s2 = mk_kst (alter (embryo s.(nextpid) k) np s.(ptable)) s.(initproc) (s32 (s.(nextpid) + 1)) w).
  { unfold s2, s1, upd_proc, set_world, set_ptable. cbn [ptable initproc nextpid world]. rewrite !list_alter_alter_eq. done. }
  rewrite (kbind_eq (fork_fill _ _)), (fork_fill_run cur np s2 c (embryo s.(nextpid) k old) k).
  2: { rewrite E2. cbn. by rewrite list_lookup_alter_ne. } 2: { rewrite E2. cbn. by rewrite list_lookup_alter_eq, Hold. } 2: done. 2: done.
  rewrite E2. cbn [Proc.world]. rewrite kbind_eq. destruct (svc_copyuvm c.(pgdir) c.(sz) w) as [[pd w1]|e]; [|done].
  destruct (Z.eqb_spec pd 0) as [->|Hpd].
  - rewrite kbind_eq. destruct (svc_kfree k w1) as [[[] w2]|e]; [|done]. unfold upd_proc, set_world, set_ptable.
    cbn [ptable initproc nextpid world]. rewrite !list_alter_alter_eq. cbv [mret kM_ret]. unfold fork_result, fork_slot. rewrite (proj2 (Z.eqb_neq k 0) Hk). done.
  - rewrite !(kbind_eq (dup_world _)). destruct (dup_world c.(ofile) w1) as [[[] w2]|e]; [|done]. rewrite !kbind_eq.
    destruct (svc_idup c.(cwd) w2) as [[[] w3]|e]; [|done]. cbv [mret kM_ret].
    unfold fork_result, fork_slot. rewrite (proj2 (Z.eqb_neq k 0) Hk), (proj2 (Z.eqb_neq pd 0) Hpd). cbn [orb].
    unfold fork_publish. erewrite getp_bind by (apply upd_at; cbn; rewrite list_lookup_alter_eq, Hold; reflexivity).
    rewrite setp_bind. unfold upd_proc, set_world, set_ptable. cbn [ptable initproc nextpid world]. rewrite !list_alter_alter_eq. done.
Qed.

(** The child and the rest of the table after a fork that returned [r]. *)
Definition forked (s s' : kst W) (cur : nat) (c : proc) (r : Z) : Prop :=
  exists np old n,
    first_unused s.(ptable) = Some np /\ s.(ptable) !! np = Some old /\
    s'.(ptable) !! np = Some n /\
    (forall i, i <> np -> s'.(ptable) !! i = s.(ptable) !! i) /\
    r = s.(nextpid) /\ s'.(nextpid) = s32 (s.(nextpid) + 1) /\
    n.(state) = RUNNABLE /\ n.(pid) = r /\ n.(parent) = Some cur /\
    n.(sz) = c.(sz) /\ n.(pgdir) <> 0 /\ n.(kstack) <> 0 /\
    n.(nice) = c.(nice) /\ n.(is_privileged) = c.(is_privileged) /\
    n.(cputicks) = 0 /\ n.(tfv) = with_tf_eax c.(tfv) 0 /\
    n.(ofile) = dup_fds c.(ofile) 0 old.(ofile) /\ n.(cwd) = c.(cwd) /\
    n.(kret) = trapret /\ n.(contextv).(ctx_eip) = forkret /\ n.(killed) = old.(killed).

Lemma fork_effect s cur c r s' :
  s.(ptable) !! cur = Some c -> c.(state) <> UNUSED ->
  fork forkret trapret cur s = Ok (r, s') ->
  s'.(initproc) = s.(initproc) /\
  (forall i p, s.(ptable) !! i = Some p -> p.(state) <> UNUSED -> s'.(ptable) !! i = Some p) /\
  ( r = -1 /\ (forall i p', s'.(ptable) !! i = Some p' -> p'.(state) <> UNUSED ->
                 s.(ptable) !! i = Some p')
  \/ forked s s' cur c r).
Proof.
  intros Hc Hcs H. unfold forked. unfold fork in H. kinv H. apply allocproc_Ok in Hr as [Hi0 Ha].
  destruct a as [np|].
  - destruct Ha as (Hnp & Hpid & k & Hk & Ht).
    destruct (first_unused_lookup _ _ Hnp) as (old & Hold & Hst).
    assert (Hne : np <> cur) by congruence.
    kinv H. eapply fork_fill_Ok in Hr as (H1 & H2 & H3);
      [|rewrite Ht, list_lookup_alter_ne by done; exact Hc].
    destruct a as [np'|].
    + destruct H3 as (-> & pd & Hpd & Ht2). unfold fork_publish in H. krun H.
      rewrite Ht, list_alter_alter_eq in Ht2. split; [congruence|].
      rewrite Ht2, list_lookup_alter_eq, Hold in Hget. injection Hget as <-.
      rewrite Ht2, list_alter_alter_eq. split.
      { intros i p Hp Hps. apply alter_lookup_ne; [done|]. right. congruence. }
      right. eexists np, old, _. split; [done|]. split; [done|].
      split; [by rewrite list_lookup_alter_eq, Hold|].
      split; [intros i Hi; by rewrite list_lookup_alter_ne|].
      split_and!; [|exact (eq_trans H2 Hpid)|..]; lazy; exact Hpd || exact Hk || reflexivity.
    + krun H. rewrite Ht, list_alter_alter_eq in H3. split; [congruence|].
      rewrite H3. split.
      { intros i p Hp Hps. apply alter_lookup_ne; [done|]. right. congruence. }
      left. split; [done|]. intros i p' Hp' Hs'.
      destruct (decide (i = np)) as [->|]; [|by rewrite list_lookup_alter_ne in Hp'].
      rewrite list_lookup_alter_eq, Hold in Hp'. by injection Hp' as <-.
  - krun H. split; [done|]. destruct Ha as [[_ ->]|(np & Hnp & Hpid & Ht)].
    + split; [done|]. left. done.
    + destruct (first_unused_lookup _ _ Hnp) as (old & Hold & Hst). rewrite Ht. split.
      { intros i p Hp Hps. apply alter_lookup_ne; [done|]. right. congruence. }
      left. split; [done|]. intros i p' Hp' Hs'.
      destruct (decide (i = np)) as [->|]; [|by rewrite list_lookup_alter_ne in Hp'].
      rewrite list_lookup_alter_eq, Hold in Hp'. by injection Hp' as <-.
Qed.

(** C35. What [fork] does, for any behaviour of the services it calls.  With no
    UNUSED slot it returns -1 and changes nothing.  Else it calls for a stack
    and a copy of the memory and, when it has both, takes a reference to each
    open file of the caller and to its directory, in this order; it panics if
    and only if one of these calls does, and the rest of the kernel is changed
    by these calls alone.  If it has the stack and the copy it returns the next
    pid, and the first UNUSED slot holds a RUNNABLE child with that pid, that
    stack and that copy, the caller as parent, and the caller's size, niceness,
    privilege, registers (0 in eax), descriptors and directory; else it returns
    -1 and that slot is UNUSED still.  No other slot changes. *)
Theorem fork_spec s cur c :
  s.(ptable) !! cur = Some c -> c.(state) <> UNUSED ->
  match first_unused s.(ptable) with
  | None => fork forkret trapret cur s = Ok (-1, s)
  | Some np =>
      match fork_world c s.(world) with
      | Panic e => fork forkret trapret cur s = Panic e
      | Ok ((k, pd), w) =>
          exists s' n, fork forkret trapret cur s = Ok (if (k =? 0) || (pd =? 0) then -1 else s.(nextpid), s') /\
            s'.(world) = w /\ s'.(initproc) = s.(initproc) /\ s'.(nextpid) = s32 (s.(nextpid) + 1) /\
            s'.(ptable) !! np = Some n /\ (forall i, i <> np -> s'.(ptable) !! i = s.(ptable) !! i) /\
            if (k =? 0) || (pd =? 0) then n.(state) = UNUSED
            else forked s s' cur c s.(nextpid) /\ n.(kstack) = k /\ n.(pgdir) = pd
      end
  end.
Proof.
  intros Hc Hs. destruct (first_unused s.(ptable)) as [np|] eqn:Hu.
  2: { unfold fork, allocproc, allocproc_slot. rewrite !kbind_eq, Hu. done. }
  rewrite (fork_exact s cur c np Hc Hs Hu). destruct (fork_world c s.(world)) as [[[k pd] w]|e]; [|done].
  destruct (first_unused_lookup _ _ Hu) as (old & Hold & Hst). eexists _, _. split; [reflexivity|]. cbn [world initproc nextpid ptable].
  do 3 (split; [done|]). split; [by rewrite list_lookup_alter_eq, Hold|]. split; [intros i Hi; by rewrite list_lookup_alter_ne|].
  unfold fork_slot. destruct (Z.eqb_spec k 0) as [->|Hk]; [done|]. destruct (Z.eqb_spec pd 0) as [->|Hpd]; [done|]. cbn [orb].
  split; [|by split]. unfold forked. cbn [ptable nextpid]. eexists np, old, _. split; [done|]. split; [done|].
  split; [by rewrite list_lookup_alter_eq, Hold|]. split; [intros i Hi; by rewrite list_lookup_alter_ne|].
  split_and!; try reflexivity; lazy; exact Hpd || exact Hk.
Qed.

End Fork.

(** ** Exit *)

Definition wake (ch : kaddr) (p : proc) : proc :=
  if decide (p.(state) = SLEEPING /\ p.(chan) = ch) then with_state p RUNNABLE else p.

Lemma wakeup1_lookup ch t i : wakeup1 ch t !! i = wake ch <$> t !! i.
Proof. unfold wakeup1. apply list_lookup_fmap. Qed.

Lemma wakeup1_length ch t : length (wakeup1 ch t) = length t.
Proof. apply length_map. Qed.

Lemma wake_parent ch p : (wake ch p).(parent) = p.(parent).
Proof. unfold wake. by case_decide. Qed.

Lemma wake_pid ch p : (wake ch p).(pid) = p.(pid).
Proof. unfold wake. by case_decide. Qed.

Lemma wake_chan ch p : (wake ch p).(chan) = p.(chan).
Proof. unfold wake. by case_decide. Qed.

Lemma wake_state ch p st :
  st <> SLEEPING -> st <> RUNNABLE -> (wake ch p).(state) = st <-> p.(state) = st.
Proof. intros H1 H2. unfold wake. case_decide as H; [|done]. simpl. destruct H. split; congruence. Qed.

Lemma wake_idem ch p : wake ch (wake ch p) = wake ch p.
Proof.
  unfold wake at 2 3. case_decide as H; [|unfold wake; by case_decide].
  unfold wake. case_decide as H'; [|done]. by destruct H' as [[=] _].
Qed.

Lemma wake_with_parent ch p o : wake ch (with_parent p o) = with_parent (wake ch p) o.
Proof. unfold wake. simpl. by case_decide. Qed.

(** Whether some child of [cur] has already exited. *)
Definition zombie_child (cur : nat) (t : list proc) : bool :=
  existsb (fun p => bool_decide (p.(parent) = Some cur /\ p.(state) = ZOMBIE)) t.

Definition adopt (cur : nat) (init : option nat) (p : proc) : proc :=
  if decide (p.(parent) = Some cur) then with_parent p init else p.

Definition wake_if (b : bool) (ch : kaddr) (p : proc) : proc := if b then wake ch p else p.

(** The table after the first [k] turns of the loop. *)
Lemma reparent_prefix cur init t k :
  init <> Some cur -> (k <= length t)%nat ->
  forall j, fold_left (reparent1 cur init) (seq 0 k) t !! j =
    (fun p => wake_if (zombie_child cur (take k t)) (paddr init)
       (if decide (j < k)%nat then adopt cur init p else p)) <$> t !! j.
Proof.
  intros Hi. induction k as [|k IH]; intros Hk j.
  { simpl. by destruct (t !! j). }
  specialize (IH ltac:(lia)). rewrite seq_S, fold_left_app. simpl.
  set (tk := fold_left _ _ _) in *.
  destruct (lookup_lt_is_Some_2 t k) as [p Hp]; [lia|].
  assert (Hz : zombie_child cur (take (S k) t) =
    zombie_child cur (take k t) || bool_decide (p.(parent) = Some cur /\ p.(state) = ZOMBIE)).
  { rewrite (take_S_r _ _ _ Hp). unfold zombie_child. rewrite existsb_app. simpl.
    by rewrite orb_false_r. }
  rewrite Hz. clear Hz. set (zc := zombie_child cur (take k t)) in *.
  assert (Hk' : tk !! k = Some (wake_if zc (paddr init) p)).
  { rewrite IH, Hp. simpl. case_decide; [lia|done]. }
  unfold reparent1. rewrite Hk'.
  assert (Hpar : (wake_if zc (paddr init) p).(parent) = p.(parent))
    by (destruct zc; [apply wake_parent|done]).
  assert (Hst : (wake_if zc (paddr init) p).(state) = ZOMBIE <-> p.(state) = ZOMBIE)
    by (destruct zc; [by apply wake_state|done]).
  rewrite Hpar. case_decide as Hpc; cycle 1.
  { rewrite bool_decide_eq_false_2 by tauto. rewrite orb_false_r, IH.
    destruct (t !! j) as [q|] eqn:Hq; [|done]. simpl. f_equal. f_equal.
    repeat case_decide; try lia; try done. assert (j = k) as -> by lia.
    rewrite Hp in Hq. injection Hq as <-. unfold adopt. by case_decide. }
  assert (Hins : forall r, <[k := r]> tk !! j = if decide (j = k) then Some r else tk !! j).
  { intros r. case_decide as He; [subst j|by apply list_lookup_insert_ne].
    apply list_lookup_insert_eq. by eapply lookup_lt_Some. }
  assert (Had : adopt cur init p = with_parent p init) by (unfold adopt; by rewrite decide_True).
  destruct (decide ((wake_if zc (paddr init) p).(state) = ZOMBIE)) as [Hzs|Hzs].
  - rewrite bool_decide_eq_true_2 by tauto. rewrite orb_true_r. simpl.
    rewrite wakeup1_lookup, Hins. clear Hins. destruct (decide (j = k)) as [->|He].
    + rewrite Hp. simpl. case_decide; [|lia]. rewrite Had.
      f_equal. rewrite !wake_with_parent. f_equal. destruct zc; [apply wake_idem|done].
    + rewrite IH. destruct (t !! j) as [q|]; [|done]. simpl. f_equal.
      repeat case_decide; try lia; destruct zc; simpl; done || apply wake_idem.
  - rewrite bool_decide_eq_false_2 by tauto. rewrite orb_false_r.
    rewrite Hins. clear Hins. destruct (decide (j = k)) as [->|He].
    + rewrite Hp. simpl. case_decide; [|lia]. rewrite Had.
      f_equal. destruct zc; simpl; [by rewrite wake_with_parent|done].
    + rewrite IH. destruct (t !! j) as [q|]; [|done]. simpl. do 2 f_equal.
      repeat case_decide; try lia; done.
Qed.

Lemma reparent1_length cur init t i : length (reparent1 cur init t i) = length t.
Proof.
  unfold reparent1. destruct (t !! i); [|done].
  repeat case_decide; rewrite ?wakeup1_length, ?length_insert; done.
Qed.

Lemma reparent_lookup cur init t j :
  init <> Some cur ->
  reparent cur init t !! j =
    (fun p => wake_if (zombie_child cur t) (paddr init) (adopt cur init p)) <$> t !! j.
Proof.
  intros Hi. unfold reparent. rewrite reparent_prefix by done.
  rewrite take_ge by done. destruct (t !! j) eqn:E; [|done]. simpl.
  apply lookup_lt_Some in E. case_decide; [done|lia].
Qed.

Section Exit.
Context {W : Type} `{SV : ProcSvc W}.
Implicit Types s : kst W.

(** The descriptors after the closing loop over [fds] from [fd]. *)
Fixpoint close_fds (fds : list Z) (fd : nat) (l : list Z) : list Z :=
  match fds with
  | [] => l
  | f :: fds => close_fds fds (S fd) (if c_true f then <[fd := 0]> l else l)
  end.

Lemma close_fds_prefix fds fd l j : (j < fd)%nat -> close_fds fds fd l !! j = l !! j.
Proof.
  revert fd l. induction fds as [|f fds IH]; intros fd l Hj; simpl; [done|].
  rewrite IH by lia. destruct (c_true f); [|done]. by rewrite list_lookup_insert_ne by lia.
Qed.

Lemma close_fds_all fds l0 :
  close_fds fds (length l0) (l0 ++ fds) = l0 ++ replicate (length fds) 0.
Proof.
  revert l0. induction fds as [|f fds IH]; intros l0; simpl; [done|].
  assert (H : (if c_true f then <[length l0 := 0]> (l0 ++ f :: fds) else l0 ++ f :: fds)
              = (l0 ++ [0]) ++ fds).
  { rewrite <- app_assoc. unfold c_true. case_bool.
    - by subst.
    - rewrite insert_app_r_alt by lia. by rewrite Nat.sub_diag. }
  rewrite H. specialize (IH (l0 ++ [0])). rewrite length_app, Nat.add_1_r in IH.
  rewrite IH. by rewrite <- app_assoc.
Qed.

Lemma close_fds_self fds : close_fds fds 0 fds = replicate (length fds) 0.
Proof. exact (close_fds_all fds []). Qed.

Lemma exit_close_Ok cur fds fd s u s' :
  exit_close cur fds fd s = Ok (u, s') ->
  s'.(initproc) = s.(initproc) /\ s'.(nextpid) = s.(nextpid) /\
  s'.(ptable) = alter (fun p => with_ofile p (close_fds fds fd p.(ofile))) cur s.(ptable).
Proof.
  revert fd s. induction fds as [|f fds IH]; intros fd s; cbn [exit_close close_fds].
  - intros [= <- <-]. split; [done|]. split; [done|]. symmetry. apply list_alter_id. by intros [].
  - intros H. kinv H. apply IH in H as (H1 & H2 & H3). rewrite H1, H2, H3.
    destruct (c_true f).
    + krun Hr. by rewrite list_alter_alter_eq.
    + injection Hr as <- <-. done.
Qed.

(** The services that [exit] calls for [c]: it closes the open files in order
    and drops the directory. *)
Fixpoint close_world (fds : list Z) : kM W unit :=
  match fds with
  | [] => mret tt
  | f :: fds => if c_true f then (_ ← svc_fileclose f; close_world fds) else close_world fds
  end.

Definition exit_world (c : proc) : kM W unit := _ ← close_world c.(ofile); svc_iput c.(cwd).

Lemma exit_close_run cur fds fd s :
  exit_close cur fds fd s =
    match close_world fds s.(world) with
    | Ok (_, w) => Ok (tt, upd_proc cur (fun p => with_ofile p (close_fds fds fd p.(ofile))) (set_world s w))
    | Panic e => Panic e
    end.
Proof.
  revert fd s. induction fds as [|f fds IH]; intros fd s; cbn [exit_close close_world close_fds].
  - cbv [mret kM_ret]. rewrite upd_id by (by intros []). by destruct s.
  - destruct (c_true f); [|rewrite (kM_bind_run _ _ _ tt s) by done; apply IH].
    rewrite (kbind_eq (svc _ ≫= _)), (kbind_eq (svc_fileclose f)), svc_bind.
    destruct (svc_fileclose f s.(world)) as [[[] w]|e]; [|done]. unfold setp, kmodify. rewrite IH. cbn [world upd_proc set_ptable set_world].
    destruct (close_world fds w) as [[[] w']|e]; [|done]. by rewrite upd_world, slot_upd_upd.
Qed.

(** The exiting process itself, before its children are handed over. *)
Definition closed (c : proc) : proc := with_cwd (with_ofile c (replicate (length c.(ofile)) 0)) 0.

(** What the end of [exit] makes of the table. *)
Definition left_table (cur : nat) (par init : option nat) (t : list proc) : list proc :=
  alter (fun p => with_state p ZOMBIE) cur (reparent cur init (wakeup1 (paddr par) t)).

Definition exit_table (cur : nat) (c : proc) (init : option nat) (t : list proc) : list proc :=
  left_table cur c.(parent) init (alter closed cur t).

Lemma sched_run cur s p :
  s.(ptable) !! cur = Some p -> p.(state) <> RUNNING -> sched true 1 false cur s = Ok (tt, s).
Proof.
  intros Hp Hs. unfold sched, getp. rewrite (kM_bind_run _ _ s p s); [|by rewrite Hp].
  simpl. by rewrite bool_decide_eq_false_2.
Qed.

Lemma reparent_length cur init t : length (reparent cur init t) = length t.
Proof.
  unfold reparent. generalize (seq 0 (length t)). intros l. revert t.
  induction l as [|i l IH]; intros t; simpl; [done|]. by rewrite IH, reparent1_length.
Qed.

Lemma alter_const {A} (f : A -> A) (l : list A) i x :
  l !! i = Some x -> alter f i l = <[i := f x]> l.
Proof.
  intros H. apply list_eq. intros j. rewrite list_lookup_alter. case_decide as Hj.
  - subst. rewrite list_lookup_insert_eq by (by eapply lookup_lt_Some). by rewrite H.
  - by rewrite list_lookup_insert_ne.
Qed.

Lemma exit_last_run s cur c :
  s.(ptable) !! cur = Some c -> s.(initproc) <> Some cur ->
  exit_last cur s = Ok (tt, set_ptable s (left_table cur c.(parent) s.(initproc) s.(ptable))).
Proof.
  intros Hc Hi. unfold exit_last. rewrite (getp_bind _ _ _ _ Hc). unfold wakeup, setp, kmodify.
  do 3 (erewrite kM_bind_run by reflexivity). unfold upd_proc, set_ptable. cbn [ptable initproc nextpid world].
  erewrite sched_run; [done| |].
  - simpl. rewrite list_lookup_alter_eq, reparent_lookup, wakeup1_lookup, Hc by done. simpl. reflexivity.
  - done.
Qed.

(** Whatever the services do, an [exit] that reaches the switch left this. *)
Lemma exit_Ok s cur c u s' :
  s.(ptable) !! cur = Some c -> exit cur s = Ok (u, s') ->
  s.(initproc) <> Some cur /\ s'.(ptable) = exit_table cur c s.(initproc) s.(ptable) /\
  s'.(initproc) = s.(initproc) /\ s'.(nextpid) = s.(nextpid).
Proof.
  intros Hc H. unfold exit in H. krun1 H. case_bool_decide as Hi; [done|]. split; [done|].
  krun1 H. rewrite Hc in Hget. injection Hget as <-. kinv H.
  apply exit_close_Ok in Hr as (Hi1 & Hn1 & Ht1). krun1 H. krun1 H.
  assert (Ht : alter (fun p => with_cwd p 0) cur s0.(ptable) = alter closed cur s.(ptable)).
  { rewrite Ht1, list_alter_alter_eq, !(alter_const _ _ _ c) by done. do 2 f_equal.
    unfold compose. cbn [with_ofile ofile]. by rewrite close_fds_self. }
  rewrite (exit_last_run _ _ (closed c)) in H; [|cbn; by rewrite Ht, list_lookup_alter_eq, Hc|cbn; congruence].
  injection H as <- <-. cbn. by rewrite Ht, Hi1, Hn1.
Qed.

Lemma exit_run s cur c :
  s.(ptable) !! cur = Some c -> s.(initproc) <> Some cur ->
  exit cur s =
    match exit_world c s.(world) with
    | Panic e => Panic e
    | Ok (_, w) => Ok (tt, mk_kst (exit_table cur c s.(initproc) s.(ptable)) s.(initproc) s.(nextpid) w)
    end.
Proof.
  intros Hc Hi. unfold exit. rewrite (kM_bind_run _ _ _ s s) by done. rewrite bool_decide_eq_false_2 by done.
  rewrite (getp_bind _ _ _ _ Hc), (kbind_eq (exit_close _ _ _)), exit_close_run. unfold exit_world. rewrite (kbind_eq (close_world _)).
  destruct (close_world c.(ofile) s.(world)) as [[[] w1]|e]; [|done]. rewrite svc_bind. cbn [world upd_proc set_ptable set_world].
  destruct (svc_iput c.(cwd) w1) as [[[] w]|e]; [|done]. rewrite setp_bind, upd_world, slot_upd_upd.
  assert (Ht : upd_proc cur ((fun p => with_cwd p 0) ∘ (fun p => with_ofile p (close_fds c.(ofile) 0 p.(ofile)))) (set_world (set_world s w1) w) =
    mk_kst (alter closed cur s.(ptable)) s.(initproc) s.(nextpid) w).
  { unfold upd_proc, set_ptable, set_world. cbn [ptable initproc nextpid world]. f_equal. rewrite !(alter_const _ _ _ c) by done. f_equal.
    unfold compose. cbn [with_ofile ofile]. by rewrite close_fds_self. }
  rewrite Ht, (exit_last_run _ cur (closed c)); [done|cbn; by rewrite list_lookup_alter_eq, Hc|done].
Qed.

Lemma zombie_child_spec cur t :
  zombie_child cur t = true <->
  exists j q, t !! j = Some q /\ q.(parent) = Some cur /\ q.(state) = ZOMBIE.
Proof.
  unfold zombie_child. rewrite existsb_exists. split.
  - intros (q & Hin & Hb). apply bool_decide_eq_true in Hb as [H1 H2].
    apply list_elem_of_In, list_elem_of_lookup in Hin as [j Hj]. eauto.
  - intros (j & q & Hj & H1 & H2). exists q. split; [|by apply bool_decide_eq_true].
    apply list_elem_of_In, list_elem_of_lookup. eauto.
Qed.

(** The table that is left, slot by slot. *)
Lemma left_table_lookup cur par init t i :
  init <> Some cur ->
  left_table cur par init t !! i =
  (fun p => let p := wake_if (zombie_child cur (wakeup1 (paddr par) t)) (paddr init) (adopt cur init (wake (paddr par) p)) in
            if decide (i = cur) then with_state p ZOMBIE else p) <$> t !! i.
Proof.
  intros Hi. unfold left_table. rewrite list_lookup_alter. case_decide as He.
  - subst i. rewrite reparent_lookup, wakeup1_lookup by done. destruct (t !! cur); simpl; [|done]. by rewrite decide_True.
  - rewrite reparent_lookup, wakeup1_lookup by done. destruct (t !! i); simpl; [|done]. by rewrite decide_False.
Qed.

Lemma exit_table_lookup cur c init t i :
  t !! cur = Some c -> init <> Some cur ->
  exit_table cur c init t !! i =
  (fun p => if decide (i = cur)
            then with_state (wake_if (zombie_child cur (wakeup1 (paddr c.(parent)) (alter closed cur t)))
                   (paddr init) (adopt cur init (wake (paddr c.(parent)) (closed p)))) ZOMBIE
            else wake_if (zombie_child cur (wakeup1 (paddr c.(parent)) (alter closed cur t)))
                   (paddr init) (adopt cur init (wake (paddr c.(parent)) p))) <$> t !! i.
Proof.
  intros Hc Hi. unfold exit_table, left_table. rewrite list_lookup_alter. case_decide as He.
  - subst i. rewrite reparent_lookup, wakeup1_lookup, list_lookup_alter_eq, Hc by done.
    simpl. by rewrite decide_True.
  - rewrite reparent_lookup, wakeup1_lookup, list_lookup_alter_ne by done.
    destruct (t !! i); simpl; [|done]. by rewrite decide_False.
Qed.

Lemma zombie_child_wake cur c t :
  t !! cur = Some c -> c.(state) <> ZOMBIE ->
  zombie_child cur (wakeup1 (paddr c.(parent)) (alter closed cur t)) = true <->
  exists j q, t !! j = Some q /\ q.(parent) = Some cur /\ q.(state) = ZOMBIE.
Proof.
  intros Hc Hz. rewrite zombie_child_spec. setoid_rewrite wakeup1_lookup. split.
  - intros (j & q & Hj & Hp & Hs). rewrite list_lookup_alter in Hj. case_decide as He.
    + subst j. rewrite Hc in Hj. injection Hj as <-. rewrite wake_parent in Hp.
      apply wake_state in Hs; [|done..]. done.
    + destruct (t !! j) as [r|] eqn:Hr; [|done]. injection Hj as <-.
      rewrite wake_parent in Hp. apply wake_state in Hs; [|done..]. eauto.
  - intros (j & q & Hj & Hp & Hs). assert (j <> cur) by congruence.
    exists j, (wake (paddr c.(parent)) q). rewrite list_lookup_alter_ne, Hj by done.
    rewrite wake_parent. split; [done|]. split; [done|]. by apply wake_state.
Qed.

Lemma adopt_parent cur init p :
  (adopt cur init p).(parent) = if decide (p.(parent) = Some cur) then init else p.(parent).
Proof. unfold adopt. by case_decide. Qed.

Lemma adopt_state cur init p : (adopt cur init p).(state) = p.(state).
Proof. unfold adopt. by case_decide. Qed.

Lemma adopt_chan cur init p : (adopt cur init p).(chan) = p.(chan).
Proof. unfold adopt. by case_decide. Qed.

Lemma adopt_pid cur init p : (adopt cur init p).(pid) = p.(pid).
Proof. unfold adopt. by case_decide. Qed.

Lemma wake_if_parent b ch p : (wake_if b ch p).(parent) = p.(parent).
Proof. destruct b; [apply wake_parent|done]. Qed.

Lemma wake_if_pid b ch p : (wake_if b ch p).(pid) = p.(pid).
Proof. destruct b; [apply wake_pid|done]. Qed.

Lemma wake_if_state b ch p :
  (wake_if b ch p).(state) =
  if decide (b = true /\ p.(state) = SLEEPING /\ p.(chan) = ch) then RUNNABLE else p.(state).
Proof. destruct b; simpl; [unfold wake|]; repeat case_decide; simpl; tauto || intuition congruence. Qed.

(** C36. What [exit] does, for any behaviour of the services it calls.  For init
    it panics.  Else it closes the caller's open files, in order, and drops its
    directory; it panics if and only if one of these calls does, and the rest
    of the kernel is changed by these calls alone.  Otherwise it comes to the
    switch with the caller a ZOMBIE that keeps its pid and holds no open file
    and no directory; every child of the caller now has init as parent and
    nobody has the caller as parent (a caller that was its own parent also has
    init); the only other processes whose state changes are sleepers made
    RUNNABLE, namely those waiting on the caller's parent and, exactly when an
    abandoned child is already a zombie, those waiting on init. *)
Theorem exit_spec s cur c i0 :
  s.(ptable) !! cur = Some c -> s.(initproc) = Some i0 -> c.(state) = RUNNING ->
  if decide (i0 = cur) then exit cur s = Panic "init exiting"
  else match exit_world c s.(world) with
  | Panic e => exit cur s = Panic e
  | Ok (_, w) =>
      exists s', exit cur s = Ok (tt, s') /\ s'.(world) = w /\ s'.(initproc) = s.(initproc) /\ s'.(nextpid) = s.(nextpid) /\
      (exists c', s'.(ptable) !! cur = Some c' /\ c'.(state) = ZOMBIE /\ c'.(pid) = c.(pid) /\
         c'.(parent) = (if decide (c.(parent) = Some cur) then Some i0 else c.(parent)) /\
         c'.(ofile) = replicate (length c.(ofile)) 0 /\ c'.(cwd) = 0) /\
      (forall i p, i <> cur -> s.(ptable) !! i = Some p -> exists p', s'.(ptable) !! i = Some p' /\
         p'.(pid) = p.(pid) /\
         p'.(parent) = (if decide (p.(parent) = Some cur) then Some i0 else p.(parent)) /\
         (p'.(state) = p.(state) \/ p'.(state) = RUNNABLE) /\
         (p'.(state) <> p.(state) <-> p.(state) = SLEEPING /\
           (p.(chan) = paddr c.(parent) \/ p.(chan) = KProc i0 /\
             exists j q, s.(ptable) !! j = Some q /\ q.(parent) = Some cur /\ q.(state) = ZOMBIE))) /\
      (forall i p', s'.(ptable) !! i = Some p' -> p'.(parent) <> Some cur)
  end.
Proof.
  intros Hc Hi Hst. destruct (decide (i0 = cur)) as [->|Hne].
  { unfold exit. rewrite (kM_bind_run _ _ _ s s) by done. by rewrite Hi, bool_decide_eq_true_2. }
  assert (Hin : s.(initproc) <> Some cur) by congruence. rewrite (exit_run s cur c Hc Hin).
  destruct (exit_world c s.(world)) as [[[] w]|e]; [|done].
  assert (Hcz : c.(state) <> ZOMBIE) by congruence.
  pose proof (zombie_child_wake cur c s.(ptable) Hc Hcz) as Hzc.
  eexists. split; [done|]. cbn [ptable world initproc nextpid]. do 3 (split; [done|]). split; [|split].
  - rewrite exit_table_lookup, Hc by done. simpl. rewrite decide_True by done.
    eexists. split; [done|]. simpl. rewrite wake_if_pid, adopt_pid, wake_pid.
    rewrite wake_if_parent, adopt_parent, wake_parent, Hi.
    split_and!; try done; unfold wake_if, adopt, wake;
      repeat case_match; repeat case_decide; done.
  - intros i p Hic Hp. rewrite exit_table_lookup, Hp by done. simpl. rewrite decide_False by done.
    eexists. split; [done|]. rewrite wake_if_pid, adopt_pid, wake_pid.
    rewrite wake_if_parent, adopt_parent, wake_parent, wake_if_state, Hi.
    rewrite adopt_state, adopt_chan, wake_chan.
    set (b := zombie_child _ _) in *. clearbody b. set (zp := ex _) in *. clearbody zp.
    unfold wake. split_and!; [done|done| |]; repeat case_decide; simpl in *;
      intuition congruence.
  - intros i p' Hp'. rewrite exit_table_lookup in Hp' by done.
    destruct (s.(ptable) !! i) as [p|]; [|done]. injection Hp' as <-.
    case_decide; simpl; rewrite wake_if_parent, adopt_parent, wake_parent, Hi;
      repeat case_decide; simpl in *; congruence.
Qed.

End Exit.

(** ** Wait *)

Definition is_child (cur : nat) (p : proc) : Prop := p.(parent) = Some cur.
Definition is_zombie_child (cur : nat) (p : proc) : Prop :=
  p.(parent) = Some cur /\ p.(state) = ZOMBIE.

Lemma wait_scan_spec cur t k hk :
  match wait_scan cur t k hk with
  | WFound i => exists p, (k <= i)%nat /\ t !! (i - k)%nat = Some p /\ is_zombie_child cur p
  | WNone b => (forall j p, t !! j = Some p -> ~ is_zombie_child cur p) /\
      (b = true <-> hk = true \/ exists j p, t !! j = Some p /\ is_child cur p)
  end.
Proof.
  revert k hk. induction t as [|p t IH]; intros k hk; cbn [wait_scan].
  { split; [done|]. split; [by left|]. intros [H|(j & p & H & _)]; [done|].
    by rewrite lookup_nil in H. }
  destruct (decide (p.(parent) <> Some cur)) as [Hp|Hp].
  - specialize (IH (S k) hk). destruct (wait_scan cur t (S k) hk) as [i|b].
    + destruct IH as (q & Hi & Hq & Hz). exists q. split; [lia|]. split; [|done].
      by replace (i - k)%nat with (S (i - S k)) by lia.
    + destruct IH as [Hnz Hb]. split.
      * intros [|j] q Hq; [injection Hq as <-; by intros [? _]|by eapply Hnz].
      * rewrite Hb. split; intros [?|(j & q & Hq & Hc)]; [by left| |by left|].
        -- right. exists (S j), q. done.
        -- right. destruct j as [|j]; [by injection Hq as <-|]. exists j, q. done.
  - assert (Hpc : p.(parent) = Some cur) by (destruct (decide (p.(parent) = Some cur)); tauto).
    case_decide as Hz.
    + exists p. split; [lia|]. by rewrite Nat.sub_diag.
    + specialize (IH (S k) true). destruct (wait_scan cur t (S k) true) as [i|b].
      * destruct IH as (q & Hi & Hq & Hzq). exists q. split; [lia|]. split; [|done].
        by replace (i - k)%nat with (S (i - S k)) by lia.
      * destruct IH as [Hnz Hb]. split.
        -- intros [|j] q Hq; [injection Hq as <-; by intros [_ ?]|by eapply Hnz].
        -- split; [|intros _; apply Hb; by left]. intros _. right. by exists 0%nat, p.
Qed.

(** The search stops at the first. *)
Lemma wait_scan_first cur t k hk :
  match wait_scan cur t k hk with
  | WFound i => forall j q, (k + j < i)%nat -> t !! j = Some q -> ~ is_zombie_child cur q
  | WNone _ => True
  end.
Proof.
  revert k hk. induction t as [|p t IH]; intros k hk; cbn [wait_scan]; [done|].
  destruct (decide (p.(parent) <> Some cur)) as [Hp|Hp]; [|destruct (decide (p.(state) = ZOMBIE)) as [Hz|Hz]; [intros j q Hj; lia|]].
  - specialize (IH (S k) hk). destruct (wait_scan cur t (S k) hk) as [i|b]; [|done].
    intros [|j] q Hj Hq; [injection Hq as <-; by intros [? _]|]. apply (IH j q); [lia|done].
  - specialize (IH (S k) true). destruct (wait_scan cur t (S k) true) as [i|b]; [|done].
    intros [|j] q Hj Hq; [injection Hq as <-; by intros [_ ?]|]. apply (IH j q); [lia|done].
Qed.

Section Wait.
Context {W : Type} `{SV : ProcSvc W}.
Implicit Types s : kst W.

Definition reaped (p : proc) : proc :=
  with_state (with_killed (with_name (with_parent (with_pid (with_kstack p 0) 0) None)
    (<[0%nat := 0]> p.(name))) 0) UNUSED.

(** The services that [wait] calls to reap [p]. *)
Definition wait_world (p : proc) : kM W unit := _ ← svc_kfree p.(kstack); svc_freevm p.(pgdir).

Lemma wait_found_run s cur i p :
  wait_scan cur s.(ptable) 0 false = WFound i -> s.(ptable) !! i = Some p ->
  wait cur s =
    match wait_world p s.(world) with
    | Panic e => Panic e
    | Ok (_, w) => Ok (WaitPid p.(pid), mk_kst (alter reaped i s.(ptable)) s.(initproc) s.(nextpid) w)
    end.
Proof.
  intros Hw Hp. unfold wait. rewrite (kM_bind_run _ _ _ s s) by done. rewrite Hw, (getp_bind _ _ _ _ Hp), svc_bind.
  unfold wait_world. rewrite (kbind_eq (svc_kfree _)). destruct (svc_kfree p.(kstack) s.(world)) as [[[] w1]|e]; [|done].
  rewrite setp_bind, svc_bind. cbn [world upd_proc set_ptable set_world].
  destruct (svc_freevm p.(pgdir) w1) as [[[] w2]|e]; [|done]. rewrite !setp_bind, upd_world, !slot_upd_upd. done.
Qed.

Lemma wait_Ok s cur c r s' :
  s.(ptable) !! cur = Some c -> wait cur s = Ok (r, s') ->
  s'.(initproc) = s.(initproc) /\ s'.(nextpid) = s.(nextpid) /\
  match r with
  | WaitPid _ => exists i p, s.(ptable) !! i = Some p /\ is_zombie_child cur p /\
      s'.(ptable) = <[i := reaped p]> s.(ptable)
  | WaitErr => s' = s
  | WaitSleep =>
      s'.(ptable) = <[cur := with_state (with_chan c (KProc cur)) SLEEPING]> s.(ptable)
  end.
Proof.
  intros Hc H. unfold wait in H. krun1 H.
  pose proof (wait_scan_spec cur s.(ptable) 0 false) as Hs.
  destruct (wait_scan cur s.(ptable) 0 false) as [i|b].
  - destruct Hs as (p & _ & Hp & Hz). rewrite Nat.sub_0_r in Hp. krun H.
    rewrite Hp in Hget. injection Hget as <-. split; [done|]. split; [done|]. exists i, p.
    split; [done|]. split; [done|]. rewrite !list_alter_alter_eq.
    by rewrite (alter_const _ _ _ p).
  - krun1 H. rewrite Hc in Hget. injection Hget as <-.
    destruct (negb b || c_true c.(killed)); [by krun H|].
    unfold sleep in H. kinv H. krun Hr. split; [done|]. split; [done|].
    by rewrite list_alter_alter_eq, (alter_const _ _ _ c).
Qed.

(** C37. One turn of [wait], for any behaviour of the services it calls.  If a
    child has exited, the first such slot is reaped: its stack and its memory
    are freed; [wait] panics if and only if one of these two calls does, and
    else returns the pid of the child, its slot is UNUSED with pid 0 and no
    parent, and no other slot changes.  If no child has exited and the caller
    has no child or was killed, it returns -1 and changes nothing.  Else it puts
    the caller to sleep on its own slot. *)
Theorem wait_spec s cur c :
  s.(ptable) !! cur = Some c ->
  (exists i p, s.(ptable) !! i = Some p /\ is_zombie_child cur p /\
     (forall j q, (j < i)%nat -> s.(ptable) !! j = Some q -> ~ is_zombie_child cur q) /\
     match wait_world p s.(world) with
     | Panic e => wait cur s = Panic e
     | Ok (_, w) =>
         exists s', wait cur s = Ok (WaitPid p.(pid), s') /\ s'.(world) = w /\
           s'.(initproc) = s.(initproc) /\ s'.(nextpid) = s.(nextpid) /\ s'.(ptable) !! i = Some (reaped p) /\
           (forall j, j <> i -> s'.(ptable) !! j = s.(ptable) !! j)
     end) \/
  (forall j p, s.(ptable) !! j = Some p -> ~ is_zombie_child cur p) /\
    ((forall j p, s.(ptable) !! j = Some p -> ~ is_child cur p) \/ c.(killed) <> 0) /\
    wait cur s = Ok (WaitErr, s) \/
  (forall j p, s.(ptable) !! j = Some p -> ~ is_zombie_child cur p) /\
    (exists j p, s.(ptable) !! j = Some p /\ is_child cur p) /\ c.(killed) = 0 /\
    wait cur s = Ok (WaitSleep, set_ptable s (<[cur := with_state (with_chan c (KProc cur)) SLEEPING]> s.(ptable))).
Proof.
  intros Hc. pose proof (wait_scan_spec cur s.(ptable) 0 false) as Hs. pose proof (wait_scan_first cur s.(ptable) 0 false) as Hfst.
  destruct (wait_scan cur s.(ptable) 0 false) as [i|b] eqn:Hw.
  - left. destruct Hs as (p & _ & Hp & Hz). rewrite Nat.sub_0_r in Hp. exists i, p. split; [done|]. split; [done|].
    split; [intros j q Hj; apply Hfst; lia|]. rewrite (wait_found_run s cur i p Hw Hp).
    destruct (wait_world p s.(world)) as [[[] w]|e]; [|done]. eexists. split; [reflexivity|]. cbn [world initproc nextpid ptable].
    split_and!; [done|done|done|by rewrite list_lookup_alter_eq, Hp|]. intros j Hj. by apply list_lookup_alter_ne.
  - right. destruct Hs as [Hnz Hb]. unfold wait. rewrite (kM_bind_run _ _ _ s s) by done. rewrite Hw, (getp_bind _ _ _ _ Hc).
    unfold c_true. destruct b; cbn [negb orb].
    + destruct (Z.eqb_spec c.(killed) 0) as [Hk|Hk]; cbn [negb]; [right|left; split_and!; [done|by right|done]].
      destruct (proj1 Hb eq_refl) as [|Hex]; [done|]. split_and!; [done|done|done|]. unfold sleep.
      rewrite bool_decide_eq_false_2 by done. rewrite kbind_eq, !setp_bind, slot_upd_upd, (sched_run cur _ (with_state (with_chan c (KProc cur)) SLEEPING)).
      * cbv [mret kM_ret]. do 2 f_equal. unfold upd_proc. by rewrite (alter_const _ _ _ c).
      * cbn. by rewrite list_lookup_alter_eq, Hc.
      * done.
    + left. split_and!; [done| |done]. left. intros j p Hj Hch. assert (false = true); [|done]. apply Hb. right. eauto.
Qed.

End Wait.

(** ** Kill and nice *)

Section Kill.
Context {W : Type}.
Implicit Types s : kst W.

Definition killed_proc (p : proc) : proc :=
  let p := with_killed p 1 in
  if decide (p.(state) = SLEEPING) then with_state p RUNNABLE else p.

Lemma find_pid_Some n t i :
  find_pid n t = Some i ->
  exists p, t !! i = Some p /\ p.(pid) = n /\ forall j q, t !! j = Some q -> (j < i)%nat -> q.(pid) <> n.
Proof. intros H. by apply list_find_fst_Some in H. Qed.

Lemma find_pid_None n t : find_pid n t = None -> forall i p, t !! i = Some p -> p.(pid) <> n.
Proof. exact (proj1 (list_find_fst_None _ _)). Qed.

Lemma kill_run n s :
  kill n s = match find_pid n s.(ptable) with
             | None => Ok (-1, s)
             | Some i => Ok (0, set_ptable s (alter killed_proc i s.(ptable)))
             end.
Proof.
  unfold kill. rewrite (kM_bind_run _ _ _ s s) by done.
  destruct (find_pid n s.(ptable)) as [i|]; [|done].
  do 2 (erewrite kM_bind_run by reflexivity). rewrite kM_ret_run.
  unfold upd_proc. simpl. by rewrite list_alter_alter_eq.
Qed.

Lemma set_nice_run n priority s :
  set_nice n priority s =
  if (priority <? -20) || (19 <? priority) then Ok (-1, s)
  else match find_pid n s.(ptable) with
       | None => Ok (-1, s)
       | Some i => Ok (0, set_ptable s (alter (fun p => with_is_privileged
             (with_nice p (Z.abs priority)) (if priority <? 0 then 1 else 0)) i s.(ptable)))
       end.
Proof.
  unfold set_nice. destruct (_ || _) eqn:E; [done|]. rewrite (kM_bind_run _ _ _ s s) by done.
  destruct (find_pid n s.(ptable)) as [i|]; [|done].
  do 2 (erewrite kM_bind_run by reflexivity). rewrite kM_ret_run.
  unfold upd_proc. simpl. rewrite list_alter_alter_eq. do 3 f_equal.
  apply list_alter_ext; [|done]. intros p _. unfold compose.
  replace (if priority <? 0 then - priority else priority) with (Z.abs priority); [done|].
  case_bools; lia.
Qed.

End Kill.

(** The scheduler looks at nothing but the states and the niceness. *)
Lemma sched_scan_ext t1 t2 i best :
  Forall2 (fun p q => p.(state) = q.(state) /\ p.(nice) = q.(nice)) t1 t2 ->
  sched_scan t1 i best = sched_scan t2 i best.
Proof.
  intros H. revert i best. induction H as [|p q t1 t2 [Hs Hn] _ IH]; intros i best; [done|].
  cbn [sched_scan]. rewrite Hn, Hs. destruct (decide _); [apply IH|].
  destruct best as [[b bn]|]; [destruct (_ <? _)|]; apply IH.
Qed.

Section KillNice.
Context {W : Type} `{SV : ProcSvc W}.
Variable forkret trapret : Z.
Implicit Types s : kst W.

(** nice accepts exactly the priorities -20..19 of an existing pid; it then
    sets the niceness of the first slot with that pid to the magnitude of the
    priority and the privilege flag to its sign, and touches nothing else;
    otherwise it returns -1 and changes nothing. *)
Theorem set_nice_spec s n priority :
  (-20 <= priority <= 19 /\ (exists i p, s.(ptable) !! i = Some p /\ p.(pid) = n) ->
   exists i p s', set_nice n priority s = Ok (0, s') /\
     s.(ptable) !! i = Some p /\ p.(pid) = n /\
     (forall j q, s.(ptable) !! j = Some q -> (j < i)%nat -> q.(pid) <> n) /\
     s'.(ptable) = <[i := with_is_privileged (with_nice p (Z.abs priority))
                            (if priority <? 0 then 1 else 0)]> s.(ptable)) /\
  (~ (-20 <= priority <= 19 /\ (exists i p, s.(ptable) !! i = Some p /\ p.(pid) = n)) ->
   set_nice n priority s = Ok (-1, s)).
Proof.
  rewrite set_nice_run.
  destruct (Z.ltb_spec priority (-20)), (Z.ltb_spec 19 priority);
    simpl; try (split; [intros [? _]; lia|done]).
  destruct (find_pid n s.(ptable)) as [i|] eqn:E; split; [|intros H'; destruct H'| |done].
  - intros _. apply find_pid_Some in E as (p & Hp & Hn & Hf).
    exists i, p. eexists. split_and!; [done|done|done|done|]. simpl.
    by rewrite (alter_const _ _ _ p).
  - apply find_pid_Some in E as (p & Hp & Hn & _). split; [lia|eauto].
  - intros [_ (i & p & Hp & Hn)]. by destruct (find_pid_None _ _ E i p Hp).
Qed.

(** Asking for a negative niceness is, for the scheduler, the same as asking
    for the positive one: after nice(pid, -k) and after nice(pid, k) the same
    process is chosen, so a negative request never raises a priority. *)
Theorem nice_sign_ignored s n k s1 s2 :
  set_nice n k s = Ok (0, s1) -> set_nice n (- k) s = Ok (0, s2) ->
  scheduler_pick s1.(ptable) = scheduler_pick s2.(ptable).
Proof.
  rewrite !set_nice_run. repeat (destruct (_ || _); [done|]).
  destruct (find_pid n s.(ptable)) as [i|] eqn:E; [|done]. intros [= <-] [= <-].
  apply find_pid_Some in E as (p & Hp & _). simpl. rewrite Z.abs_opp.
  rewrite !(alter_const _ _ _ p) by done. apply sched_scan_ext.
  apply Forall2_insert; [|done]. clear Hp. by induction s.(ptable); constructor.
Qed.

(** kill returns 0 exactly when some slot carries the pid; it marks the
    first such slot killed and, if that process sleeps, makes it RUNNABLE;
    otherwise it returns -1 and changes nothing. *)
Theorem kill_spec s n :
  ((exists i p, s.(ptable) !! i = Some p /\ p.(pid) = n) ->
   exists i p s', kill n s = Ok (0, s') /\ s.(ptable) !! i = Some p /\ p.(pid) = n /\
     s'.(ptable) = <[i := killed_proc p]> s.(ptable) /\
     (killed_proc p).(killed) = 1 /\
     (killed_proc p).(state) = (if decide (p.(state) = SLEEPING) then RUNNABLE else p.(state))) /\
  ((forall i p, s.(ptable) !! i = Some p -> p.(pid) <> n) -> kill n s = Ok (-1, s)).
Proof.
  rewrite kill_run. destruct (find_pid n s.(ptable)) as [i|] eqn:E; split.
  - intros _. apply find_pid_Some in E as (p & Hp & Hn & _). exists i, p. eexists.
    split_and!; [done|done|done| | |]; simpl; [by rewrite (alter_const _ _ _ p)| |];
      unfold killed_proc; simpl; by case_decide.
  - intros H. apply find_pid_Some in E as (p & Hp & Hn & _). by destruct (H i p Hp).
  - intros (i & p & Hp & Hn). by destruct (find_pid_None _ _ E i p Hp).
  - done.
Qed.

(** kill(0) succeeds whenever a slot has never been used, and poisons it:
    the next process forked into that slot is born killed. *)
Theorem kill_zero_poisons s cur c np old :
  s.(ptable) !! cur = Some c -> c.(state) <> UNUSED ->
  (forall i p, s.(ptable) !! i = Some p -> p.(state) <> UNUSED -> p.(pid) <> 0) ->
  first_unused s.(ptable) = Some np -> s.(ptable) !! np = Some old -> old.(pid) = 0 ->
  exists s1, kill 0 s = Ok (0, s1) /\
  forall r s2, fork forkret trapret cur s1 = Ok (r, s2) -> r <> -1 ->
    exists n, s2.(ptable) !! np = Some n /\ n.(state) = RUNNABLE /\ n.(killed) = 1.
Proof.
  intros Hc Hcs Hpid Hnp Hold H0. pose proof Hnp as Hnp'.
  apply list_find_fst_Some in Hnp' as (old' & Ho & Hou & Hfirst).
  rewrite Hold in Ho. injection Ho as <-.
  assert (Hf : find_pid 0 s.(ptable) = Some np).
  { apply list_find_fst_Some. exists old. split_and!; [done|done|].
    intros j q Hq Hj. apply (Hpid j q Hq). by eapply Hfirst. }
  rewrite kill_run, Hf. eexists. split; [done|]. intros r s2 Hfork Hr.
  set (s1 := set_ptable s _) in *.
  assert (Hnc : np <> cur) by congruence.
  assert (Hkp : (killed_proc old).(state) = UNUSED /\ (killed_proc old).(killed) = 1).
  { unfold killed_proc. simpl. rewrite Hou. done. }
  assert (Hnp1 : s1.(ptable) !! np = Some (killed_proc old))
    by (simpl; by rewrite list_lookup_alter_eq, Hold).
  assert (Hfu : first_unused s1.(ptable) = Some np).
  { apply list_find_fst_Some. exists (killed_proc old). split_and!; [done|tauto|].
    intros j q Hq Hj. simpl in Hq. rewrite list_lookup_alter_ne in Hq by lia. by eapply Hfirst. }
  eapply fork_effect in Hfork as (_ & _ & [[? _]|Hk]);
    [done| |simpl; rewrite list_lookup_alter_ne by done; exact Hc|done].
  destruct Hk as (np' & old' & n & Hu & Ho' & Hn & Hrest).
  rewrite Hfu in Hu. injection Hu as <-. rewrite Hnp1 in Ho'. injection Ho' as <-.
  exists n. split; [done|]. destruct_and! Hrest. split; [done|]. by etrans; [|apply Hkp].
Qed.

End KillNice.

(** ** Concrete runs

    A bump allocator of pages in place of the rest of the kernel. *)

Module Demo.

#[local] Instance demo_svc : ProcSvc Z := {|
  svc_kalloc := fun w => Ok (KERNBASE + w, w + PGSIZE);
  svc_kfree := fun _ w => Ok (tt, w);
  svc_setupkvm := fun w => Ok (KERNBASE + w, w + PGSIZE);
  svc_inituvm := fun _ w => Ok (tt, w);
  svc_copyuvm := fun _ _ w => Ok (KERNBASE + w, w + PGSIZE);
  svc_freevm := fun _ w => Ok (tt, w);
  svc_allocuvm := fun _ _ new w => Ok (new, w);
  svc_deallocuvm := fun _ _ new w => Ok (new, w);
  svc_filedup := fun _ w => Ok (tt, w);
  svc_fileclose := fun _ w => Ok (tt, w);
  svc_idup := fun _ w => Ok (tt, w);
  svc_iput := fun _ w => Ok (tt, w);
  svc_namei_root := fun w => Ok (1, w)
|}.

(** init (slot 0, pid 1) running with one child (slot 1, pid 2). *)
Definition init0 : proc := with_pid (with_state proc0 RUNNING) 1.
Definition kid0 (st : procstate) : proc := with_parent (with_pid (with_state proc0 st) 2) (Some 0%nat).
Definition demo (st : procstate) : kst Z :=
  mk_kst ([init0; kid0 st] ++ replicate 62 proc0) (Some 0%nat) 3 0.

Example fork_run :
  match fork 1 2 0 (demo RUNNING) with
  | Ok (r, s) => (r, (fun p => (p.(state), p.(pid), p.(parent))) <$> s.(ptable) !! 2%nat)
  | Panic _ => (0, None)
  end = (3, Some (RUNNABLE, 3, Some 0%nat)).
Proof. vm_compute. reflexivity. Qed.

Example wait_run :
  match wait 0 (demo ZOMBIE) with Ok (r, _) => r | Panic _ => WaitErr end = WaitPid 2.
Proof. vm_compute. reflexivity. Qed.

Lemma nice_sign_ignored_witness :
  exists s1 s2, set_nice 2 5 (demo RUNNABLE) = Ok (0, s1) /\
    set_nice 2 (- (5)) (demo RUNNABLE) = Ok (0, s2) /\
    scheduler_pick s1.(ptable) = scheduler_pick s2.(ptable).
Proof.
  eexists _, _. split; [reflexivity|]. split; [reflexivity|].
  eapply (nice_sign_ignored (demo RUNNABLE) 2 5); reflexivity.
Defined.

Lemma kill_zero_poisons_witness :
  exists s1, kill 0 (demo RUNNING) = Ok (0, s1) /\
  forall r s2, fork 1 2 0 s1 = Ok (r, s2) -> r <> -1 ->
    exists n, s2.(ptable) !! 2%nat = Some n /\ n.(state) = RUNNABLE /\ n.(killed) = 1.
Proof.
  apply (kill_zero_poisons 1 2 (demo RUNNING) 0 init0 2 proc0);
    [reflexivity|discriminate| |reflexivity|reflexivity|reflexivity].
  intros i p Hp Hu.
  do 2 (destruct i as [|i]; [injection Hp as <-; discriminate|]).
  change (replicate 62 proc0 !! i = Some p) in Hp.
  apply lookup_replicate in Hp as [-> _]. by destruct Hu.
Defined.

End Demo.
