(* ===== verification/ProcInv.v ===== *)
(** * The process table under concurrency

    CPUs and processes take turns at the granularity of the critical sections
    of [ptable.lock].  [pstep] is one such turn, made of the operations of
    [Proc]; a fork is spread over several turns because [allocproc] gives the
    lock up between claiming the slot and publishing the child.  The file
    proves the invariant of every reachable state, and from it that
    [can_access_procinfo] ends and answers the ancestor question. *)

From S2P Require Import Prelude CString Mmu Proc ProcSpec.

(** Where a process stands inside [fork]: the slot is claimed, the child has a
    stack, the child is complete. *)
Inductive kont := KStack (np : nat) | KFill (np : nat) | KPub (np : nat).

Definition kont_np (k : kont) : nat := match k with KStack np | KFill np | KPub np => np end.

(** The kernel: the table, what each CPU runs, and the forks under way. *)
Record sys (W : Type) := mk_sys {
  ks : kst W;
  cpus : list (option nat);
  konts : gmap nat kont
}.
Arguments mk_sys {W}.
Arguments ks {W}.
Arguments cpus {W}.
Arguments konts {W}.

(** [p'] is [p] up to the fields only the process itself uses. *)
Definition private_change (p p' : proc) : Prop :=
  p'.(state) = p.(state) /\ p'.(pid) = p.(pid) /\ p'.(parent) = p.(parent) /\
  p'.(chan) = p.(chan) /\ p'.(killed) = p.(killed) /\ p'.(nice) = p.(nice).

Section Step.
Context {W : Type} `{SV : ProcSvc W}.
Variable forkret trapret : Z.

(** [runs s c i]: CPU [c] runs process [i]. *)
Definition runs (s : sys W) (c i : nat) : Prop := s.(cpus) !! c = Some (Some i).

Inductive pstep : sys W -> sys W -> Prop :=
| st_dispatch s c i cp0 cp k1 :                       (* scheduler(), then sleep()'s tidying *)
    s.(cpus) !! c = Some None ->
    scheduler cp0 s.(ks) = Ok (cp, k1) -> scheduler_pick s.(ks).(ptable) = Some i ->
    pstep s (mk_sys (upd_proc i (fun p => with_chan p KNull) k1)
                    (<[c := cp.(c_proc)]> s.(cpus)) s.(konts))
| st_yield s c i k1 :
    runs s c i -> yield i s.(ks) = Ok (tt, k1) ->
    pstep s (mk_sys k1 (<[c := None]> s.(cpus)) s.(konts))
| st_sleep s c i ch lk k1 :
    runs s c i -> ch <> KNull -> sleep (Some i) ch lk s.(ks) = Ok (tt, k1) ->
    pstep s (mk_sys k1 (<[c := None]> s.(cpus)) s.(konts))
| st_wakeup s ch k1 :
    wakeup ch s.(ks) = Ok (tt, k1) -> pstep s (mk_sys k1 s.(cpus) s.(konts))
| st_kill s n r k1 :
    kill n s.(ks) = Ok (r, k1) -> pstep s (mk_sys k1 s.(cpus) s.(konts))
| st_nice s n pr r k1 :
    set_nice n pr s.(ks) = Ok (r, k1) -> pstep s (mk_sys k1 s.(cpus) s.(konts))
| st_private s c i f w :                              (* exec, open, sbrk, timer ticks, .. *)
    runs s c i -> (forall p, private_change p (f p)) ->
    pstep s (mk_sys (set_world (upd_proc i f s.(ks)) w) s.(cpus) s.(konts))
| st_exit s c i k1 :                                  (* the files are closed: st_private *)
    runs s c i -> s.(konts) !! i = None -> s.(ks).(initproc) <> Some i -> exit_last i s.(ks) = Ok (tt, k1) ->
    pstep s (mk_sys k1 (<[c := None]> s.(cpus)) s.(konts))
| st_wait s c i r k1 :
    runs s c i -> s.(konts) !! i = None -> wait i s.(ks) = Ok (r, k1) ->
    pstep s (mk_sys k1 (match r with WaitSleep => <[c := None]> s.(cpus) | _ => s.(cpus) end)
                    s.(konts))
| st_fork_slot s c i o k1 :
    runs s c i -> s.(konts) !! i = None -> allocproc_slot s.(ks) = Ok (o, k1) ->
    pstep s (mk_sys k1 s.(cpus)
               (match o with Some np => <[i := KStack np]> s.(konts) | None => s.(konts) end))
| st_fork_stack s c i np o k1 :
    runs s c i -> s.(konts) !! i = Some (KStack np) ->
    allocproc_stack forkret trapret np s.(ks) = Ok (o, k1) ->
    pstep s (mk_sys k1 s.(cpus)
               (match o with Some _ => <[i := KFill np]> s.(konts) | None => delete i s.(konts) end))
| st_fork_fill s c i np o k1 :
    runs s c i -> s.(konts) !! i = Some (KFill np) -> fork_fill i np s.(ks) = Ok (o, k1) ->
    pstep s (mk_sys k1 s.(cpus)
               (match o with Some _ => <[i := KPub np]> s.(konts) | None => delete i s.(konts) end))
| st_fork_pub s c i np r k1 :
    runs s c i -> s.(konts) !! i = Some (KPub np) -> fork_publish np s.(ks) = Ok (r, k1) ->
    pstep s (mk_sys k1 s.(cpus) (delete i s.(konts))).

(** After [userinit]: [ncpu] idle CPUs and the first process. *)
Definition booted (ncpu : nat) (w0 : W) (s : sys W) : Prop :=
  userinit forkret trapret (pinit w0) = Ok (tt, s.(ks)) /\
  s.(cpus) = replicate ncpu None /\ s.(konts) = ∅.

(** How many pids have been given out, when [n] had been before the step. *)
Definition given (n : Z) (s s' : sys W) : Z :=
  if bool_decide (s'.(ks).(nextpid) = s.(ks).(nextpid)) then n else n + 1.

(** [s] is reached, and [n] pids have been given out since the start. *)
Inductive history (ncpu : nat) (w0 : W) : Z -> sys W -> Prop :=
| hist_boot s : booted ncpu w0 s -> history ncpu w0 1 s
| hist_step n s s' : history ncpu w0 n s -> pstep s s' -> history ncpu w0 (given n s s') s'.

Definition reachable (ncpu : nat) (w0 : W) (s : sys W) : Prop := exists n, history ncpu w0 n s.

End Step.

(** ** The invariant *)

(** What a state says about who owns the slot. *)
Inductive pclass := Free | Born | Alive | Dead.

Definition cls (p : proc) : pclass :=
  match p.(state) with
  | UNUSED => Free | EMBRYO => Born | ZOMBIE => Dead | _ => Alive
  end.

(** The process tree and the forks under way.  [ag i] is the age of the process
    in slot [i], the value that the counter of pids would have had without
    wrapping around when the process got its pid; [next] is the next age. *)
Record core (t : list proc) (init : option nat) (next : Z) (ag : nat -> Z) (kt : gmap nat kont) : Prop := {
  core_len : length t = NPROC;
  core_age : forall i p, t !! i = Some p -> cls p <> Free -> 0 < ag i < next /\ p.(pid) = s32 (ag i);
  core_uniq : forall i j p q, t !! i = Some p -> t !! j = Some q ->
    cls p <> Free -> cls q <> Free -> ag i = ag j -> i = j;
  core_parent : forall i p q, t !! i = Some p -> p.(parent) = Some q ->
    cls p <> Free /\ exists pq, t !! q = Some pq /\ cls pq = Alive /\ ag q < ag i;
  core_init : exists i0 p0, init = Some i0 /\ t !! i0 = Some p0 /\ cls p0 = Alive /\
    p0.(parent) = None /\ ag i0 = 1;
  core_kont : forall i k, kt !! i = Some k -> exists p n, t !! i = Some p /\ cls p = Alive /\
    t !! kont_np k = Some n /\ cls n = Born /\ ag i < ag (kont_np k) /\
    match k with KPub _ => True | _ => n.(parent) = None end;
  core_kont_inj : forall i j k l, kt !! i = Some k -> kt !! j = Some l ->
    kont_np k = kont_np l -> i = j;
  core_born : forall np n, t !! np = Some n -> cls n = Born ->
    exists i k, kt !! i = Some k /\ kont_np k = np
}.

(** Which CPU runs what. *)
Record running (t : list proc) (cs : list (option nat)) : Prop := {
  run_iff : forall i p, t !! i = Some p ->
    p.(state) = RUNNING <-> exists c, cs !! c = Some (Some i);
  run_slot : forall c i, cs !! c = Some (Some i) -> is_Some (t !! i);
  run_once : forall c d i, cs !! c = Some (Some i) -> cs !! d = Some (Some i) -> c = d
}.

Definition local_ok (p : proc) : Prop :=
  (p.(state) = SLEEPING -> p.(chan) <> KNull) /\ 0 <= p.(nice) <= 20.

(** The invariant, when [n] pids have been given out. *)
Record pinv {W} (n : Z) (s : sys W) : Prop := {
  pinv_core : exists ag, core s.(ks).(ptable) s.(ks).(initproc) (n + 1) ag s.(konts);
  pinv_next : s.(ks).(nextpid) = s32 (n + 1);
  pinv_running : running s.(ks).(ptable) s.(cpus);
  pinv_local : Forall local_ok s.(ks).(ptable)
}.

(** ** Steps that keep the tree *)

Definition same (p p' : proc) : Prop :=
  p'.(pid) = p.(pid) /\ p'.(parent) = p.(parent) /\ cls p' = cls p.

Definition run_same (p p' : proc) : Prop := p.(state) = RUNNING <-> p'.(state) = RUNNING.

Lemma Forall2_refl_list {A} (R : A -> A -> Prop) (l : list A) : (forall x, R x x) -> Forall2 R l l.
Proof. intros H. induction l; by constructor. Qed.

Lemma Forall2_alter_one {A} (R : A -> A -> Prop) f (l : list A) i :
  (forall x, R x x) -> (forall x, l !! i = Some x -> R x (f x)) -> Forall2 R l (alter f i l).
Proof.
  intros Hr Hf. apply Forall2_same_length_lookup. rewrite length_alter. split; [done|].
  intros j x y Hx Hy. rewrite list_lookup_alter in Hy. case_decide as He; [subst|];
    rewrite Hx in Hy; injection Hy as <-; [by apply Hf|apply Hr].
Qed.

Lemma Forall2_insert_one (l : list proc) i x y :
  l !! i = Some x -> same x y -> Forall2 same l (<[i := y]> l).
Proof.
  intros Hx Hs. rewrite <- (alter_const (fun _ => y) _ _ x) by done.
  apply Forall2_alter_one; [done|]. intros z Hz. by replace z with x by congruence.
Qed.

Lemma core_same t t' init next ag kt : Forall2 same t t' -> core t init next ag kt -> core t' init next ag kt.
Proof.
  intros H C. pose proof (Forall2_length _ _ _ H) as Hlen.
  assert (Hb : forall i p', t' !! i = Some p' -> exists p, t !! i = Some p /\ same p p').
  { intros i p' Hp. eapply Forall2_lookup_r in Hp; [|exact H]. done. }
  assert (Hf : forall i p, t !! i = Some p -> exists p', t' !! i = Some p' /\ same p p').
  { intros i p Hp. eapply Forall2_lookup_l in Hp; [|exact H]. done. }
  split.
  - rewrite <- Hlen. apply C.
  - intros i p' (p & Hp & E1 & _ & E3)%Hb. rewrite E1, E3. by eapply core_age.
  - intros i j p' q' (p & Hp & E1 & _ & E3)%Hb (q & Hq & F1 & _ & F3)%Hb.
    rewrite E3, F3. by eapply core_uniq.
  - intros i p' q (p & Hp & E1 & E2 & E3)%Hb. rewrite E2, E3. intros Hpar.
    edestruct core_parent as [? (pq & Hq & Ha & Hlt)]; [done..|]. split; [done|].
    destruct (Hf _ _ Hq) as (pq' & Hq' & F1 & _ & F3). exists pq'. by rewrite F3.
  - destruct (core_init _ _ _ _ _ C) as (i0 & p0 & Hi & Hp & Ha & Hn & H1).
    destruct (Hf _ _ Hp) as (p0' & Hp' & F1 & F2 & F3). exists i0, p0'. by rewrite F2, F3.
  - intros i k Hk. edestruct core_kont as (p & n & Hp & Ha & Hn & Hbn & Hlt & Hpar); [done..|].
    destruct (Hf _ _ Hp) as (p' & Hp' & E1 & _ & E3).
    destruct (Hf _ _ Hn) as (n' & Hn' & F1 & F2 & F3).
    exists p', n'. rewrite E3, F2, F3. done.
  - apply C.
  - intros np n' (n & Hn & _ & _ & F3)%Hb. rewrite F3. by eapply core_born.
Qed.

Lemma running_same t t' cs : Forall2 run_same t t' -> running t cs -> running t' cs.
Proof.
  intros H R. split.
  - intros i p' Hp'. eapply Forall2_lookup_r in Hp' as (p & Hp & Hs); [|exact H].
    rewrite <- (run_iff _ _ R i p Hp). symmetry. exact Hs.
  - intros c i Hc. destruct (run_slot _ _ R c i Hc) as [p Hp].
    eapply Forall2_lookup_l in Hp as (p' & Hp' & _); [|exact H]. eauto.
  - apply R.
Qed.

(** CPU [c] stops running [i]. *)
Lemma running_stop t t' cs c i :
  running t cs -> cs !! c = Some (Some i) ->
  Forall2 (fun p p' => True) t t' ->
  (forall p', t' !! i = Some p' -> p'.(state) <> RUNNING) ->
  (forall j p p', j <> i -> t !! j = Some p -> t' !! j = Some p' -> run_same p p') ->
  running t' (<[c := None]> cs).
Proof.
  intros R Hc Hl Hi Hj. split.
  - intros j p' Hp'. destruct (decide (j = i)) as [->|Hne].
    + split; [intros Hr; by destruct (Hi p' Hp')|]. intros [d Hd].
      apply list_lookup_insert_Some in Hd as [(_ & ? & _)|[Hd Hd']]; [done|].
      destruct Hd. by eapply run_once.
    + eapply Forall2_lookup_r in Hp' as Hp; [|exact Hl]. destruct Hp as (p & Hp & _).
      pose proof (Hj j p p' Hne Hp Hp') as Hjs. unfold run_same in Hjs.
      rewrite <- Hjs, (run_iff _ _ R j p Hp). split; intros [d Hd].
      * exists d. rewrite list_lookup_insert_ne; [done|]. congruence.
      * exists d. apply list_lookup_insert_Some in Hd as [(_ & ? & _)|[_ Hd]]; done.
  - intros d j Hd. apply list_lookup_insert_Some in Hd as [(_ & ? & _)|[_ Hd]]; [done|].
    destruct (run_slot _ _ R d j Hd) as [p Hp].
    eapply Forall2_lookup_l in Hp as (p' & Hp' & _); [|exact Hl]. eauto.
  - intros d e j Hd He. apply list_lookup_insert_Some in Hd as [(_ & ? & _)|[_ Hd]]; [done|].
    apply list_lookup_insert_Some in He as [(_ & ? & _)|[_ He]]; [done|]. by eapply run_once.
Qed.

(** An idle CPU [c] starts running [i]. *)
Lemma running_start t cs c i f p :
  running t cs -> cs !! c = Some None -> t !! i = Some p -> p.(state) <> RUNNING ->
  (f p).(state) = RUNNING -> running (alter f i t) (<[c := Some i]> cs).
Proof.
  intros R Hc Hp Hs Hf. pose proof (lookup_lt_Some _ _ _ Hc) as Hlt.
  assert (Hno : forall d, cs !! d <> Some (Some i)).
  { intros d Hd. apply Hs. rewrite (run_iff _ _ R i p Hp). eauto. }
  split.
  - intros j q Hq. rewrite list_lookup_alter in Hq. case_decide as He.
    + subst j. rewrite Hp in Hq. injection Hq as <-. split; [|done]. intros _. exists c.
      by apply list_lookup_insert_eq.
    + rewrite (run_iff _ _ R j q Hq). split; intros [d Hd].
      * exists d. rewrite list_lookup_insert_ne; [done|]. congruence.
      * apply list_lookup_insert_Some in Hd as [(_ & ? & _)|[_ Hd]]; [congruence|eauto].
  - intros d j Hd. rewrite list_lookup_alter.
    apply list_lookup_insert_Some in Hd as [(_ & ? & _)|[_ Hd]].
    + assert (i = j) as <- by congruence. rewrite decide_True, Hp by done. eauto.
    + case_decide; [subst j; by destruct (Hno d)|]. by eapply run_slot.
  - intros d e j Hd He.
    apply list_lookup_insert_Some in Hd as [(<- & Ej & _)|[? Hd]];
      apply list_lookup_insert_Some in He as [(<- & Ej' & _)|[? He]]; try done.
    + injection Ej as <-. by destruct (Hno e).
    + injection Ej' as <-. by destruct (Hno d).
    + by eapply run_once.
Qed.

(** ** Steps that change the tree, one slot at a time *)

Lemma insert_cases {A} (l : list A) i x j y :
  <[i := x]> l !! j = Some y -> (j = i /\ y = x) \/ (j <> i /\ l !! j = Some y).
Proof. intros H. apply list_lookup_insert_Some in H as [(-> & -> & _)|[? ?]]; auto. Qed.

(** The counter of pids. *)
Lemma s32_succ z : s32 (s32 z + 1) = s32 (z + 1).
Proof.
  assert (E : u32 (s32 z + 1) = u32 (z + 1)); [|unfold s32 at 1 3; by rewrite E].
  unfold s32, u32. cbv zeta. destruct (_ <? _).
  - by rewrite Zplus_mod_idemp_l.
  - replace (z mod 2 ^ 32 - 2 ^ 32 + 1) with (z mod 2 ^ 32 + 1 + (-1) * 2 ^ 32) by lia. by rewrite Z_mod_plus_full, Zplus_mod_idemp_l.
Qed.

Lemma s32_mod z : s32 z mod 2 ^ 32 = z mod 2 ^ 32.
Proof.
  unfold s32, u32. cbv zeta. destruct (_ <? _); [by rewrite Z.mod_mod|].
  replace (z mod 2 ^ 32 - 2 ^ 32) with (z mod 2 ^ 32 + (-1) * 2 ^ 32) by lia. by rewrite Z_mod_plus_full, Z.mod_mod.
Qed.

(** Two numbers less than 2^32 apart have different bit patterns. *)
Lemma s32_inj a b : s32 a = s32 b -> Z.abs (a - b) < 2 ^ 32 -> a = b.
Proof.
  intros E Hd. assert (Em : a mod 2 ^ 32 = b mod 2 ^ 32) by (by rewrite <- s32_mod, E, s32_mod).
  pose proof (Z.div_mod a (2 ^ 32) ltac:(done)). pose proof (Z.div_mod b (2 ^ 32) ltac:(done)). nia.
Qed.

Lemma s32_succ_ne z : s32 (z + 1) <> s32 z.
Proof. intros E%s32_inj; lia. Qed.

Section Core.
Context (t : list proc) (init : option nat) (next : Z) (ag : nat -> Z) (kt : gmap nat kont).
Hypothesis C : core t init next ag kt.

Lemma free_parent i p : t !! i = Some p -> cls p = Free -> p.(parent) = None.
Proof.
  intros Hp Hf. destruct (p.(parent)) as [q|] eqn:E; [|done].
  destruct (core_parent _ _ _ _ _ C i p q Hp E) as [? _]. done.
Qed.

(** Only an Alive process has children. *)
Lemma parent_alive i p q pq : t !! i = Some p -> p.(parent) = Some q -> t !! q = Some pq -> cls pq = Alive.
Proof.
  intros Hp Hq Hpq. destruct (core_parent _ _ _ _ _ C i p q Hp Hq) as [_ (r & Hr & ? & _)]. congruence.
Qed.

(** A fork claims a free slot. *)
Lemma core_claim i p np n n' :
  t !! i = Some p -> cls p = Alive -> kt !! i = None -> 0 < next ->
  t !! np = Some n -> cls n = Free ->
  cls n' = Born -> n'.(pid) = s32 next -> n'.(parent) = n.(parent) ->
  core (<[np := n']> t) init (next + 1) (fun j => if decide (j = np) then next else ag j) (<[i := KStack np]> kt).
Proof.
  intros Hp Ha Hk Hnext Hn Hf Hb Hpid Hpar. set (ag' := fun j => if decide (j = np) then next else ag j).
  assert (An : ag' np = next) by (unfold ag'; by rewrite decide_True).
  assert (Ao : forall j q, t !! j = Some q -> cls q <> Free -> ag' j = ag j).
  { intros j q Hq Hc. unfold ag'. rewrite decide_False; [done|]. congruence. } rewrite (free_parent np n Hn Hf) in Hpar.
  pose proof (lookup_lt_Some _ _ _ Hn) as Hlt.
  assert (Hkeep : forall j q, t !! j = Some q -> cls q <> Free -> <[np := n']> t !! j = Some q).
  { intros j q Hq Hc. rewrite list_lookup_insert_ne; [done|]. congruence. }
  split.
  - rewrite length_insert. apply C.
  - intros j q [[-> ->]|[_ Hq]]%insert_cases Hc; [rewrite An; lia|].
    rewrite (Ao j q Hq Hc). pose proof (core_age _ _ _ _ _ C j q Hq Hc). lia.
  - intros j k q r [[-> ->]|[? Hq]]%insert_cases [[-> ->]|[? Hr]]%insert_cases Hcq Hcr He; try done.
    + rewrite An, (Ao k r Hr Hcr) in He. pose proof (core_age _ _ _ _ _ C k r Hr Hcr). lia.
    + rewrite An, (Ao j q Hq Hcq) in He. pose proof (core_age _ _ _ _ _ C j q Hq Hcq). lia.
    + rewrite (Ao j q Hq Hcq), (Ao k r Hr Hcr) in He. by eapply core_uniq.
  - intros j q r [[-> ->]|[? Hq]]%insert_cases Hr; [congruence|].
    destruct (core_parent _ _ _ _ _ C j q r Hq Hr) as [Hcq (pr & Hpr & Hc & Hl)].
    split; [done|]. exists pr. split; [apply Hkeep; congruence|]. split; [done|].
    by rewrite (Ao r pr Hpr ltac:(congruence)), (Ao j q Hq Hcq).
  - destruct (core_init _ _ _ _ _ C) as (i0 & p0 & Hi & Hp0 & Hc & Hr). exists i0, p0.
    split; [done|]. split; [apply Hkeep; congruence|]. by rewrite (Ao i0 p0 Hp0 ltac:(congruence)).
  - intros j k Hj. destruct (decide (j = i)) as [->|Hne].
    + rewrite lookup_insert_eq in Hj. injection Hj as <-. exists p, n'. simpl.
      split; [apply Hkeep; congruence|]. split; [done|].
      split; [by apply list_lookup_insert_eq|]. split; [done|]. split; [|done].
      rewrite An, (Ao i p Hp ltac:(congruence)). pose proof (core_age _ _ _ _ _ C i p Hp ltac:(congruence)). lia.
    + rewrite lookup_insert_ne in Hj by done.
      destruct (core_kont _ _ _ _ _ C j k Hj) as (q & m & Hq & Hqa & Hm & Hmb & Hx).
      exists q, m. split; [apply Hkeep; congruence|]. split; [done|].
      split; [apply Hkeep; congruence|]. by rewrite (Ao j q Hq ltac:(congruence)), (Ao _ m Hm ltac:(congruence)).
  - intros j k kj kk Hj Hkk He.
    assert (Hfresh : forall a ka, kt !! a = Some ka -> kont_np ka <> np).
    { intros a ka Ha' Hnp'. destruct (core_kont _ _ _ _ _ C a ka Ha') as (? & m & _ & _ & Hm & Hmb & _).
      rewrite Hnp' in Hm. congruence. }
    destruct (decide (j = i)) as [->|], (decide (k = i)) as [->|]; try done;
      rewrite ?lookup_insert_eq in *; rewrite ?lookup_insert_ne in * by done.
    + injection Hj as <-. by destruct (Hfresh _ _ Hkk).
    + injection Hkk as <-. by destruct (Hfresh _ _ Hj).
    + by eapply core_kont_inj.
  - intros a m [[-> ->]|[? Hm]]%insert_cases Hmb.
    + exists i, (KStack np). by rewrite lookup_insert_eq.
    + destruct (core_born _ _ _ _ _ C a m Hm Hmb) as (j & k & Hj & He). exists j, k.
      rewrite lookup_insert_ne; [done|]. congruence.
Qed.

(** The fork of [i] moves on to the phase [k']. *)
Lemma core_advance i k k' :
  kt !! i = Some k -> kont_np k' = kont_np k ->
  match k, k' with KPub _, KPub _ => True | KPub _, _ => False | _, _ => True end ->
  core t init next ag (<[i := k']> kt).
Proof.
  intros Hk Hnp Hph. destruct C as [C1 C2 C3 C4 C5 C6 C7 C8]. split; try done.
  - intros j l Hj. destruct (decide (j = i)) as [->|]; [|rewrite lookup_insert_ne in Hj by done; by apply C6].
    rewrite lookup_insert_eq in Hj. injection Hj as <-.
    destruct (C6 i k Hk) as (p & n & H1 & H2 & H3 & H4 & H5 & H6). exists p, n. rewrite Hnp.
    split_and!; try done. by destruct k, k'.
  - intros j a l m Hj Ha He.
    assert (Hold : forall b lb, <[i:=k']> kt !! b = Some lb -> exists lb', kt !! b = Some lb' /\ kont_np lb' = kont_np lb).
    { intros b lb Hb. destruct (decide (b = i)) as [->|].
      - rewrite lookup_insert_eq in Hb. injection Hb as <-. eauto.
      - rewrite lookup_insert_ne in Hb by done. eauto. }
    destruct (Hold _ _ Hj) as (l' & Hl' & E1), (Hold _ _ Ha) as (m' & Hm' & E2).
    eapply C7; [done|done|congruence].
  - intros np n Hn Hb. destruct (C8 np n Hn Hb) as (j & l & Hj & He).
    destruct (decide (j = i)) as [->|].
    + exists i, k'. rewrite lookup_insert_eq. split; [done|]. congruence.
    + exists j, l. by rewrite lookup_insert_ne.
Qed.

(** The child of the fork of [i] gets its parent. *)
Lemma core_set_parent i np n n' :
  kt !! i = Some (KPub np) -> t !! np = Some n ->
  n'.(pid) = n.(pid) -> cls n' = cls n -> n'.(parent) = Some i ->
  core (<[np := n']> t) init next ag kt.
Proof.
  intros Hk Hn Hpid Hc Hpar.
  destruct (core_kont _ _ _ _ _ C i _ Hk) as (p & m & Hp & Ha & Hm & Hb & Hlt & _). simpl in Hm.
  rewrite Hn in Hm. injection Hm as <-.
  pose proof (lookup_lt_Some _ _ _ Hn) as Hl.
  assert (Hback : forall j q, <[np := n']> t !! j = Some q ->
            exists q0, t !! j = Some q0 /\ q.(pid) = q0.(pid) /\ cls q = cls q0 /\ (j <> np -> q = q0)).
  { intros j q [[-> ->]|[? Hq]]%insert_cases; eauto. exists n. done. }
  assert (Hfwd : forall j q0, t !! j = Some q0 -> exists q, <[np := n']> t !! j = Some q /\
            q.(pid) = q0.(pid) /\ cls q = cls q0 /\ (j <> np -> q = q0)).
  { intros j q0 Hq. destruct (decide (j = np)) as [->|].
    - exists n'. rewrite list_lookup_insert_eq by done. assert (q0 = n) as -> by congruence. done.
    - exists q0. by rewrite list_lookup_insert_ne. }
  split.
  - rewrite length_insert. apply C.
  - intros j q (q0 & Hq & -> & -> & _)%Hback. by eapply core_age.
  - intros j k q r (q0 & Hq & _ & -> & _)%Hback (r0 & Hr & _ & -> & _)%Hback. by eapply core_uniq.
  - intros j q r [[-> ->]|[? Hq]]%insert_cases Hr.
    + assert (r = i) as -> by congruence. rewrite Hc. split; [congruence|].
      destruct (Hfwd _ _ Hp) as (p' & Hp' & E1 & E2 & _). exists p'. by rewrite E2.
    + destruct (core_parent _ _ _ _ _ C j q r Hq Hr) as [? (pr & Hpr & Hcr & Hlr)].
      split; [done|]. destruct (Hfwd _ _ Hpr) as (p' & Hp' & E1 & E2 & _). exists p'.
      by rewrite E2.
  - destruct (core_init _ _ _ _ _ C) as (i0 & p0 & Hi & Hp0 & Hc0 & Hr). exists i0.
    destruct (Hfwd _ _ Hp0) as (p' & Hp' & Hp1 & Hc' & He). exists p'.
    rewrite He in * by congruence. done.
  - intros j k Hj. destruct (core_kont _ _ _ _ _ C j k Hj) as (q & m & Hq & Hqa & Hm & Hmb & Hx & Hpx).
    destruct (Hfwd _ _ Hq) as (q' & Hq' & Eq1 & Eq2 & _), (Hfwd _ _ Hm) as (m' & Hm' & Em1 & Em2 & He).
    exists q', m'. rewrite Eq2, Em2. split_and!; try done.
    destruct (decide (kont_np k = np)) as [Hknp|Hne]; [|by rewrite (He Hne)].
    assert (j = i) as -> by by eapply core_kont_inj. rewrite Hk in Hj. by injection Hj as <-.
  - apply C.
  - intros a m (m0 & Hm & _ & -> & _)%Hback Hmb. by eapply core_born.
Qed.

(** A slot with no children becomes free; [kt'] forgets the fork that owned it. *)
Lemma core_free np n n' kt' :
  t !! np = Some n -> cls n = Born \/ cls n = Dead ->
  cls n' = Free -> n'.(parent) = None ->
  (forall j k, kt' !! j = Some k <-> kt !! j = Some k /\ kont_np k <> np) ->
  core (<[np := n']> t) init next ag kt'.
Proof.
  intros Hn Hcn Hf Hpar Hkt.
  assert (Hkeep : forall j q, t !! j = Some q -> cls q = Alive -> <[np := n']> t !! j = Some q).
  { intros j q Hq Ha. rewrite list_lookup_insert_ne; [done|]. intros ->.
    destruct Hcn; congruence. }
  split.
  - rewrite length_insert. apply C.
  - intros j q [[-> ->]|[? Hq]]%insert_cases; [done|]. by eapply core_age.
  - intros j k q r [[-> ->]|[? Hq]]%insert_cases [[-> ->]|[? Hr]]%insert_cases ? ? ?; try done.
    by eapply core_uniq.
  - intros j q r [[-> ->]|[? Hq]]%insert_cases Hr; [congruence|].
    destruct (core_parent _ _ _ _ _ C j q r Hq Hr) as [? (pr & Hpr & Hcr & Hlr)]. eauto 10.
  - destruct (core_init _ _ _ _ _ C) as (i0 & p0 & Hi & Hp0 & Hc0 & Hr). exists i0, p0.
    split; [done|]. split; [by apply Hkeep|done].
  - intros j k [Hj Hne]%Hkt.
    destruct (core_kont _ _ _ _ _ C j k Hj) as (q & m & Hq & Hqa & Hm & Hx). exists q, m.
    split; [by apply Hkeep|]. split; [done|]. by rewrite list_lookup_insert_ne.
  - intros j k l m [Hj _]%Hkt [Hk _]%Hkt. by eapply core_kont_inj.
  - intros a m [[-> ->]|[? Hm]]%insert_cases Hmb; [congruence|].
    destruct (core_born _ _ _ _ _ C a m Hm Hmb) as (j & k & Hj & He). exists j, k.
    split; [|done]. apply Hkt. split; [done|congruence].
Qed.

(** The child is published. *)
Lemma core_publish i k n n' :
  kt !! i = Some k -> t !! kont_np k = Some n ->
  cls n' = Alive -> n'.(pid) = n.(pid) -> n'.(parent) = n.(parent) ->
  core (<[kont_np k := n']> t) init next ag (delete i kt).
Proof.
  intros Hk Hn Ha Hpid Hpar.
  destruct (core_kont _ _ _ _ _ C i _ Hk) as (p & m & Hp & Hpa & Hm & Hb & _).
  rewrite Hn in Hm. injection Hm as <-. pose proof (lookup_lt_Some _ _ _ Hn) as Hl.
  set (np := kont_np k) in *.
  assert (Hback : forall j q, <[np := n']> t !! j = Some q -> exists q0, t !! j = Some q0 /\
            q.(pid) = q0.(pid) /\ q.(parent) = q0.(parent) /\ (cls q <> Free <-> cls q0 <> Free)).
  { intros j q [[-> ->]|[? Hq]]%insert_cases; eauto. exists n.
    rewrite Ha, Hb. done. }
  assert (Hfwd : forall j q0, t !! j = Some q0 -> cls q0 = Alive -> <[np := n']> t !! j = Some q0).
  { intros j q0 Hq Hqa. rewrite list_lookup_insert_ne; [done|]. congruence. }
  split.
  - rewrite length_insert. apply C.
  - intros j q (q0 & Hq & -> & _ & ->)%Hback. by eapply core_age.
  - intros j a q r (q0 & Hq & _ & _ & ->)%Hback (r0 & Hr & _ & _ & ->)%Hback. by eapply core_uniq.
  - intros j q r (q0 & Hq & _ & -> & ->)%Hback Hr.
    destruct (core_parent _ _ _ _ _ C j q0 r Hq Hr) as [? (pr & Hpr & Hcr & Hlr)]. eauto 10.
  - destruct (core_init _ _ _ _ _ C) as (i0 & p0 & Hi & Hp0 & Hc0 & Hr). exists i0, p0.
    split; [done|]. split; [by apply Hfwd|done].
  - intros j l Hj. apply lookup_delete_Some in Hj as [Hne Hj].
    destruct (core_kont _ _ _ _ _ C j l Hj) as (q & m & Hq & Hqa & Hm & Hx). exists q, m.
    split; [by apply Hfwd|]. split; [done|]. rewrite list_lookup_insert_ne; [done|].
    intros He. apply Hne. by eapply core_kont_inj.
  - intros j a l m Hj Ha'. apply lookup_delete_Some in Hj as [_ Hj], Ha' as [_ Ha'].
    by eapply core_kont_inj.
  - intros a m [[-> ->]|[Hne Hm]]%insert_cases Hmb; [congruence|].
    destruct (core_born _ _ _ _ _ C a m Hm Hmb) as (j & l & Hj & He). exists j, l.
    split; [|done]. apply lookup_delete_Some. split; [|done]. intros <-.
    rewrite Hk in Hj. injection Hj as <-. done.
Qed.

(** Process [cur] dies: its children go to init. *)
Lemma core_exit cur c t' :
  t !! cur = Some c -> cls c = Alive -> init <> Some cur -> kt !! cur = None ->
  length t' = length t ->
  (forall i p p', t !! i = Some p -> t' !! i = Some p' ->
     p'.(pid) = p.(pid) /\ cls p' = (if decide (i = cur) then Dead else cls p) /\
     p'.(parent) = (if decide (p.(parent) = Some cur) then init else p.(parent))) ->
  core t' init next ag kt.
Proof.
  intros Hc Ha Hi Hkc Hlen Hpt.
  assert (Hback : forall i p', t' !! i = Some p' -> exists p, t !! i = Some p /\
     p'.(pid) = p.(pid) /\ cls p' = (if decide (i = cur) then Dead else cls p) /\
     p'.(parent) = (if decide (p.(parent) = Some cur) then init else p.(parent))).
  { intros i p' Hp'. destruct (lookup_lt_is_Some_2 t i) as [p Hp]; [|eauto].
    rewrite <- Hlen. by eapply lookup_lt_Some. }
  assert (Hfwd : forall i p, t !! i = Some p -> exists p', t' !! i = Some p' /\
     p'.(pid) = p.(pid) /\ cls p' = (if decide (i = cur) then Dead else cls p) /\
     p'.(parent) = (if decide (p.(parent) = Some cur) then init else p.(parent))).
  { intros i p Hp. destruct (lookup_lt_is_Some_2 t' i) as [p' Hp']; [|eauto].
    rewrite Hlen. by eapply lookup_lt_Some. }
  assert (Hfree : forall i p p', t !! i = Some p -> cls p' = (if decide (i = cur) then Dead else cls p) ->
            cls p' <> Free -> cls p <> Free).
  { intros i p p' Hp E Hf. destruct (decide (i = cur)); [subst i|]; congruence. }
  destruct (core_init _ _ _ _ _ C) as (i0 & p0 & Hi0 & Hp0 & Hc0 & Hr0 & Hage0).
  assert (Hne0 : i0 <> cur) by congruence.
  split.
  - rewrite Hlen. apply C.
  - intros i p' (p & Hp & -> & E & _)%Hback Hf. eapply core_age; eauto.
  - intros i j p' q' (p & Hp & _ & E & _)%Hback (q & Hq & _ & F & _)%Hback Hf Hg.
    eapply core_uniq; eauto.
  - intros i p' q (p & Hp & _ & E & Epar)%Hback Hq.
    assert (Hnf : cls p <> Free).
    { intros Hf. rewrite (free_parent i p Hp Hf) in Epar. rewrite decide_False in Epar by done. congruence. }
    split; [rewrite E; destruct (decide (i = cur)); congruence|].
    destruct (decide (p.(parent) = Some cur)) as [Hpc|Hpc].
    + assert (q = i0) as -> by congruence. destruct (Hfwd _ _ Hp0) as (p0' & Hp0' & Ep & Ec & _).
      exists p0'. rewrite Ec, decide_False by done. split_and!; try done.
      pose proof (core_age _ _ _ _ _ C i p Hp Hnf).
      assert (ag i <> ag i0); [|lia]. intros He.
      assert (i = i0) as -> by (eapply core_uniq; eauto; congruence). congruence.
    + rewrite Epar in Hq. destruct (core_parent _ _ _ _ _ C i p q Hp Hq) as [_ (pq & Hpq & Hqa & Hlt)].
      destruct (Hfwd _ _ Hpq) as (pq' & Hpq' & Ep & Ec & _). exists pq'.
      rewrite Ec, decide_False by congruence. done.
  - exists i0. destruct (Hfwd _ _ Hp0) as (p0' & Hp0' & Ep & Ec & Epar). exists p0'.
    rewrite Ec, Epar, Hr0, !decide_False by done. done.
  - intros i k Hk. destruct (core_kont _ _ _ _ _ C i k Hk) as (p & n & Hp & Hpa & Hn & Hb & Hlt & Hpar).
    destruct (Hfwd _ _ Hp) as (p' & Hp' & Ep & Ec & _), (Hfwd _ _ Hn) as (n' & Hn' & Fp & Fc & Fpar).
    exists p', n'. rewrite Ec, Fc, !decide_False by congruence. split_and!; try done.
    rewrite Fpar. destruct k; try done; by rewrite Hpar, decide_False.
  - apply C.
  - intros np n' (n & Hn & _ & E & _)%Hback Hb. eapply core_born; eauto. rewrite E in Hb.
    by destruct (decide (np = cur)).
Qed.

End Core.

(** ** Every step preserves the invariant *)

Section Preserve.
Context {W : Type} `{SV : ProcSvc W}.
Variable forkret trapret : Z.
Implicit Types (s : sys W) (k : kst W) (made : Z).

Lemma runs_alive made s c i : pinv made s -> runs s c i ->
  exists p, s.(ks).(ptable) !! i = Some p /\ p.(state) = RUNNING.
Proof.
  intros I Hr. destruct (run_slot _ _ (pinv_running _ _ I) c i Hr) as [p Hp]. exists p.
  split; [done|]. apply (run_iff _ _ (pinv_running _ _ I) i p Hp). by exists c.
Qed.

(** A step that touches one slot and no tree field. *)
Lemma pinv_one made s k1 i f :
  pinv made s -> k1.(ptable) = alter f i s.(ks).(ptable) ->
  k1.(initproc) = s.(ks).(initproc) -> k1.(nextpid) = s.(ks).(nextpid) ->
  (forall p, s.(ks).(ptable) !! i = Some p -> same p (f p) /\ run_same p (f p) /\ (local_ok p -> local_ok (f p))) ->
  pinv made (mk_sys k1 s.(cpus) s.(konts)).
Proof.
  intros [[ag C] Nx R L] Ht Hi Hn Hf. split; simpl; rewrite ?Ht; [|by rewrite Hn|..].
  - exists ag. rewrite Hi. eapply core_same; [|exact C]. apply Forall2_alter_one; [done|].
    intros p Hp. by apply Hf.
  - eapply running_same; [|exact R]. apply Forall2_alter_one; [done|]. intros p Hp. by apply Hf.
  - apply Forall_alter; [done|]. intros p Hp Hl. by apply Hf.
Qed.

(** A running process gives its CPU up. *)
Lemma pinv_switch made s k1 c i f :
  pinv made s -> runs s c i -> k1.(ptable) = alter f i s.(ks).(ptable) ->
  k1.(initproc) = s.(ks).(initproc) -> k1.(nextpid) = s.(ks).(nextpid) ->
  (forall p, s.(ks).(ptable) !! i = Some p -> p.(state) = RUNNING ->
     same p (f p) /\ (f p).(state) <> RUNNING /\ (local_ok p -> local_ok (f p))) ->
  pinv made (mk_sys k1 (<[c := None]> s.(cpus)) s.(konts)).
Proof.
  intros I Hr Ht Hi Hn Hf. destruct (runs_alive made s c i I Hr) as (p & Hp & Hst).
  destruct (Hf p Hp Hst) as (Hs & Hnr & Hl). destruct I as [[ag C] Nx R L].
  split; simpl; rewrite ?Ht; [|by rewrite Hn|..].
  - exists ag. rewrite Hi. eapply core_same; [|exact C]. apply Forall2_alter_one; [done|].
    intros q Hq. by replace q with p by congruence.
  - eapply running_stop; [exact R|exact Hr|by apply Forall2_alter_one| |].
    + intros p'. rewrite list_lookup_alter_eq, Hp. by intros [= <-].
    + intros j q q' Hj Hq. rewrite list_lookup_alter_ne, Hq by done. by intros [= <-].
  - apply Forall_alter; [done|]. intros q Hq. by replace q with p by congruence.
Qed.

Lemma pinv_exit made s c i k1 :
  pinv made s -> runs s c i -> s.(konts) !! i = None -> s.(ks).(initproc) <> Some i -> exit_last i s.(ks) = Ok (tt, k1) ->
  pinv made (mk_sys k1 (<[c := None]> s.(cpus)) s.(konts)).
Proof.
  intros I Hr Hk Hi H. destruct (runs_alive made s c i I Hr) as (p & Hp & Hst).
  destruct I as [[ag C] Nx R L]. rewrite (exit_last_run _ _ p Hp Hi) in H. injection H as <-.
  set (t' := left_table i p.(parent) s.(ks).(initproc) s.(ks).(ptable)).
  assert (Hlen : length t' = length s.(ks).(ptable)).
  { unfold t', left_table. by rewrite length_alter, reparent_length, wakeup1_length. }
  assert (Hpt : forall j q q', s.(ks).(ptable) !! j = Some q -> t' !! j = Some q' ->
     q'.(pid) = q.(pid) /\ cls q' = (if decide (j = i) then Dead else cls q) /\
     q'.(parent) = (if decide (q.(parent) = Some i) then s.(ks).(initproc) else q.(parent)) /\
     (j <> i -> run_same q q') /\ (local_ok q -> local_ok q') /\ (j = i -> q'.(state) <> RUNNING)).
  { intros j q q' Hq. unfold t'. rewrite left_table_lookup, Hq by done. intros [= <-].
    set (b := zombie_child _ _). unfold cls, run_same, local_ok.
    destruct (decide (j = i)) as [->|Hne]; simpl;
      rewrite ?wake_if_parent, ?adopt_parent, ?wake_parent, ?wake_if_pid, ?adopt_pid, ?wake_pid.
    - split_and!; try done. unfold wake_if, adopt, wake.
      intros [_ ?]. split; [done|]. destruct b; repeat case_decide; done.
    - split_and!; try done; unfold wake_if, adopt, wake;
        destruct b; repeat case_decide; simpl in *; destruct_and?;
        repeat match goal with Hq : state q = _ |- _ => rewrite Hq in * end;
        intuition congruence. }
  split; simpl; [exists ag|exact Nx|..].
  - eapply core_exit; eauto.
    + unfold cls. by rewrite Hst.
    + intros j q q' Hq Hq'. destruct (Hpt j q q' Hq Hq') as (? & ? & ? & _). done.
  - eapply running_stop; [exact R|exact Hr| | |].
    + apply Forall2_same_length_lookup. by rewrite Hlen.
    + intros q' Hq'. by apply (Hpt i p q').
    + intros j q q' Hj Hq Hq'. by apply (Hpt j q q').
  - apply Forall_lookup. intros j q' Hq'.
    destruct (lookup_lt_is_Some_2 s.(ks).(ptable) j) as [q Hq].
    { rewrite <- Hlen. by eapply lookup_lt_Some. }
    apply (Hpt j q q' Hq Hq'). rewrite Forall_lookup in L. by apply (L j).
Qed.

Lemma pinv_dispatch made s c i cp0 cp k1 :
  pinv made s -> s.(cpus) !! c = Some None ->
  scheduler cp0 s.(ks) = Ok (cp, k1) -> scheduler_pick s.(ks).(ptable) = Some i ->
  pinv made (mk_sys (upd_proc i (fun p => with_chan p KNull) k1)
               (<[c := cp.(c_proc)]> s.(cpus)) s.(konts)).
Proof.
  intros [[ag C] Nx R L] Hc H Hpick. destruct (pick_runnable _ _ Hpick) as (p & Hp & Hst).
  unfold scheduler in H. krun1 H. rewrite Hpick in H. krun1 H.
  rewrite Hp in Hget. injection Hget as <-.
  unfold switchuvm in H. repeat (destruct (_ =? 0); [done|]). krun H.
  split; simpl; rewrite ?list_alter_alter_eq; [exists ag|exact Nx|..].
  - eapply core_same; [|exact C]. apply Forall2_alter_one; [done|]. intros q Hq.
    replace q with p by congruence. unfold same, cls. simpl. by rewrite Hst.
  - eapply running_start; [exact R|exact Hc|exact Hp|congruence|done].
  - apply Forall_alter; [done|]. by intros q Hq [_ ?].
Qed.

Lemma next_pos t init next ag kt : core t init next ag kt -> 1 < next.
Proof.
  intros C. destruct (core_init _ _ _ _ _ C) as (i0 & p0 & _ & Hp & Ha & _ & H1).
  pose proof (core_age _ _ _ _ _ C i0 p0 Hp ltac:(congruence)). lia.
Qed.

Lemma pinv_fork_slot made s c i o k1 :
  pinv made s -> runs s c i -> s.(konts) !! i = None -> allocproc_slot s.(ks) = Ok (o, k1) ->
  pinv (match o with Some _ => made + 1 | None => made end) (mk_sys k1 s.(cpus)
         (match o with Some np => <[i := KStack np]> s.(konts) | None => s.(konts) end)).
Proof.
  intros I Hr Hk H. destruct (runs_alive made s c i I Hr) as (p & Hp & Hst). unfold allocproc_slot in H.
  destruct (first_unused s.(ks).(ptable)) as [np|] eqn:Hu; injection H as <- <-;
    [|by destruct s as [? ? ?]]. destruct I as [[ag C] Nx R L].
  destruct (first_unused_lookup _ _ Hu) as (n & Hnp & Hns). pose proof (next_pos _ _ _ _ _ C) as Hn.
  split; simpl; rewrite ?list_alter_alter_eq, ?(alter_const _ _ _ n) by done.
  - eexists. eapply core_claim; eauto; unfold cls; simpl; try done; [by rewrite Hst|lia|by rewrite Hns].
  - rewrite Nx. apply s32_succ.
  - eapply running_same; [|exact R]. rewrite <- (alter_const (fun _ => _) _ _ n) by done.
    apply Forall2_alter_one; [done|]. intros q Hq. replace q with n by congruence.
    unfold run_same. simpl. rewrite Hns. done.
  - apply Forall_insert; [done|]. by split; simpl.
Qed.

Lemma allocproc_stack_Ok np (s s' : kst W) o :
  allocproc_stack forkret trapret np s = Ok (o, s') ->
  s'.(initproc) = s.(initproc) /\ s'.(nextpid) = s.(nextpid) /\
  exists f, s'.(ptable) = alter f np s.(ptable) /\ (forall p, (f p).(pid) = p.(pid) /\
    (f p).(parent) = p.(parent) /\ (f p).(nice) = p.(nice) /\ (f p).(chan) = p.(chan) /\
    (f p).(state) = match o with Some _ => p.(state) | None => UNUSED end).
Proof.
  intros H. unfold allocproc_stack in H. krun1 H. krun1 H.
  destruct (Z.eqb_spec a 0); krun H; (split; [done|]); (split; [done|]);
    rewrite !list_alter_alter_eq; eexists; (split; [reflexivity|]); intros p; lazy; done.
Qed.

(** What happens to the slot of a fork under way, in either outcome. *)
Lemma pinv_fork_step made s c i (a : kont) (f : proc -> proc) k1 kt' :
  pinv made s -> runs s c i -> s.(konts) !! i = Some a ->
  k1.(ptable) = alter f (kont_np a) s.(ks).(ptable) ->
  k1.(initproc) = s.(ks).(initproc) -> k1.(nextpid) = s.(ks).(nextpid) ->
  (forall n, cls n = Born -> local_ok n -> local_ok (f n) /\ (f n).(state) <> RUNNING) ->
  (forall n, s.(ks).(ptable) !! kont_np a = Some n -> cls n = Born ->
     forall ag, core s.(ks).(ptable) s.(ks).(initproc) (made + 1) ag s.(konts) ->
     core (<[kont_np a := f n]> s.(ks).(ptable)) s.(ks).(initproc) (made + 1) ag kt') ->
  pinv made (mk_sys k1 s.(cpus) kt').
Proof.
  intros [[ag C] Nx R L] Hr Hk Ht Hi Hn Hf Hc.
  destruct (core_kont _ _ _ _ _ C i a Hk) as (p & n & Hp & Ha & Hnn & Hb & _).
  assert (Hln : local_ok n) by (rewrite Forall_lookup in L; by apply (L (kont_np a))).
  destruct (Hf n Hb Hln) as [Hl Hnr].
  split; simpl; rewrite ?Ht, ?Hi, ?Hn, ?(alter_const _ _ _ n) by done; [exists ag|exact Nx|..].
  - by apply Hc.
  - rewrite <- (alter_const f _ _ n) by done. eapply running_same; [|exact R].
    apply Forall2_alter_one; [done|]. intros q Hq. replace q with n by congruence.
    unfold run_same. split; [|done]. unfold cls in Hb. intros E. by rewrite E in Hb.
  - by apply Forall_insert.
Qed.

(** Forgetting the fork of [i] forgets exactly the claims on its slot. *)
Lemma delete_kont t init next ag kt i (a : kont) :
  core t init next ag kt -> kt !! i = Some a ->
  forall j l, delete i kt !! j = Some l <-> kt !! j = Some l /\ kont_np l <> kont_np a.
Proof.
  intros C Hk j l. rewrite lookup_delete_Some. split; intros [H1 H2].
  - split; [done|]. intros He. apply H1. by eapply core_kont_inj.
  - split; [|done]. intros ->. apply H2. congruence.
Qed.

Lemma pinv_fork_stack made s c i np o k1 :
  pinv made s -> runs s c i -> s.(konts) !! i = Some (KStack np) ->
  allocproc_stack forkret trapret np s.(ks) = Ok (o, k1) ->
  pinv made (mk_sys k1 s.(cpus)
    (match o with Some _ => <[i := KFill np]> s.(konts) | None => delete i s.(konts) end)).
Proof.
  intros I Hr Hk H.
  apply allocproc_stack_Ok in H as (Hi & Hn & f & Ht & Hf).
  eapply (pinv_fork_step made s c i (KStack np) f); eauto; simpl.
  - intros n Hb [_ Hnice]. destruct (Hf n) as (_ & _ & E3 & _ & E5). unfold local_ok.
    rewrite E3, E5. unfold cls in Hb. destruct o; [|done]. by destruct n.(state).
  - intros n Hnp Hb ag C. destruct (Hf n) as (E1 & E2 & _ & _ & E5). destruct o as [np'|].
    + apply (core_advance _ _ _ _ _ (core_same _ _ _ _ _ _
        (Forall2_insert_one _ np n (f n) Hnp ltac:(unfold same, cls; by rewrite E1, E2, E5)) C)
        i (KStack np)); done.
    + eapply core_free; [exact C|done|by left| | |by apply (delete_kont _ _ _ _ _ _ (KStack np) C)].
      * unfold cls. by rewrite E5.
      * rewrite E2. destruct (core_kont _ _ _ _ _ C i _ Hk) as (? & m & _ & _ & Hm & _ & _ & Hp).
        simpl in Hm. congruence.
Qed.

Lemma pinv_fork_fill made s c i np o k1 :
  pinv made s -> runs s c i -> s.(konts) !! i = Some (KFill np) ->
  fork_fill i np s.(ks) = Ok (o, k1) ->
  pinv made (mk_sys k1 s.(cpus)
    (match o with Some _ => <[i := KPub np]> s.(konts) | None => delete i s.(konts) end)).
Proof.
  intros I Hr Hk H. pose proof (pinv_local _ _ I) as L.
  destruct (runs_alive made s c i I Hr) as (p & Hp & Hst).
  destruct (fork_fill_Ok _ _ _ _ _ p Hp H) as (Hi & Hn & Ho).
  assert (Hlp : local_ok p) by (rewrite Forall_lookup in L; by apply (L i)).
  destruct o as [np'|].
  - destruct Ho as (-> & pd & _ & Ht).
    assert (Hf : forall n, (filled i p pd n).(pid) = n.(pid) /\ (filled i p pd n).(parent) = Some i /\
      (filled i p pd n).(nice) = p.(nice) /\ (filled i p pd n).(state) = n.(state)).
    { intros n. split_and!; lazy; reflexivity. }
    eapply (pinv_fork_step made s c i (KFill np)); eauto; simpl.
    + intros n Hb _. destruct (Hf n) as (_ & _ & E3 & E4). unfold local_ok. rewrite E3, E4.
      destruct Hlp. unfold cls in Hb. by destruct n.(state).
    + intros n Hnp Hb ag C. destruct (Hf n) as (E1 & E2 & _ & E4).
      eapply (core_set_parent _ _ _ _ _ (core_advance _ _ _ _ _ C i (KFill np) (KPub np) Hk eq_refl Logic.I) i);
        [by rewrite lookup_insert_eq|exact Hnp|done| |done].
      unfold cls. by rewrite E4.
  - eapply (pinv_fork_step made s c i (KFill np)); eauto; simpl.
    + by intros n _ [_ ?].
    + intros n Hnp Hb ag C.
      eapply core_free; [exact C|done|by left|done| |by apply (delete_kont _ _ _ _ _ _ (KFill np) C)].
      destruct (core_kont _ _ _ _ _ C i _ Hk) as (? & m & _ & _ & Hm & _ & _ & Hpar).
      simpl in *. congruence.
Qed.

Lemma pinv_fork_pub made s c i np r k1 :
  pinv made s -> runs s c i -> s.(konts) !! i = Some (KPub np) -> fork_publish np s.(ks) = Ok (r, k1) ->
  pinv made (mk_sys k1 s.(cpus) (delete i s.(konts))).
Proof.
  intros I Hr Hk H. unfold fork_publish in H. krun H.
  eapply (pinv_fork_step made s c i (KPub np)); try done.
  - by intros n _ [_ ?].
  - intros n Hnp _ ag C. by eapply (core_publish _ _ _ _ _ C i (KPub np)).
Qed.

Lemma pinv_wait made s c i r k1 :
  pinv made s -> runs s c i -> wait i s.(ks) = Ok (r, k1) ->
  pinv made (mk_sys k1 (match r with WaitSleep => <[c := None]> s.(cpus) | _ => s.(cpus) end) s.(konts)).
Proof.
  intros I Hr H. destruct (runs_alive made s c i I Hr) as (p & Hp & Hst).
  destruct (wait_Ok _ _ p _ _ Hp H) as (Hi & Hn & Hw). destruct r as [z| |].
  - destruct Hw as (j & q & Hq & [Hpar Hz] & Ht). destruct I as [[ag C] Nx R L].
    split; simpl; rewrite ?Ht, ?Hi, ?Hn; [exists ag|exact Nx|..].
    + eapply core_free; [exact C|exact Hq| |done|done|].
      { right. unfold cls. by rewrite Hz. }
      intros a l. split; [|by intros [? _]]. intros Ha. split; [done|]. intros <-.
      destruct (core_kont _ _ _ _ _ C a l Ha) as (? & m & _ & _ & Hm & Hb & _).
      replace m with q in Hb by congruence. unfold cls in Hb. by rewrite Hz in Hb.
    + rewrite <- (alter_const (fun _ => reaped q) _ _ q) by done. eapply running_same; [|exact R].
      apply Forall2_alter_one; [done|]. intros x Hx. replace x with q by congruence.
      unfold run_same. by rewrite Hz.
    + apply Forall_insert; [done|]. rewrite Forall_lookup in L. destruct (L j q Hq). by split.
  - subst k1. by destruct s.
  - eapply (pinv_switch made s k1 c i (fun p => with_state (with_chan p (KProc i)) SLEEPING));
      try done; [by rewrite (alter_const _ _ _ p)|].
    intros q Hq Hs. unfold same, cls. simpl. rewrite Hs. split_and!; try done. by intros [? ?].
Qed.

Lemma pinv_wakeup made s ch k1 :
  pinv made s -> wakeup ch s.(ks) = Ok (tt, k1) -> pinv made (mk_sys k1 s.(cpus) s.(konts)).
Proof.
  intros [[ag C] Nx R L] H. injection H as <-.
  assert (Hw : forall p, same p (wake ch p) /\ run_same p (wake ch p) /\ (local_ok p -> local_ok (wake ch p))).
  { intros p. unfold same, run_same, local_ok, cls, wake. case_decide as E; [|done].
    destruct E as [E _]. simpl. rewrite E. intuition congruence. }
  split; simpl; unfold wakeup1; [exists ag|exact Nx|..].
  - eapply core_same; [|exact C]. apply Forall2_fmap_r, Forall2_refl_list. apply Hw.
  - eapply running_same; [|exact R]. apply Forall2_fmap_r, Forall2_refl_list. apply Hw.
  - apply Forall_fmap. eapply Forall_impl; [exact L|]. intros p Hp. by apply Hw.
Qed.

(** Every turn keeps the invariant. *)
Lemma pinv_step made s s' : pinv made s -> pstep forkret trapret s s' -> pinv made s' \/ pinv (made + 1) s'.
Proof.
  intros I H. assert (Hend : forall x : sys W, pinv made x -> pinv made x \/ pinv (made + 1) x) by (intros x Hx; by left). destruct H as [s c i cp0 cp k1 Hc Hs Hp|s c i k1 Hr H|s c i ch lk k1 Hr Hch H|s ch k1 H
    |s n r k1 H|s n pr r k1 H|s c i f w Hr Hf|s c i k1 Hr Hk Hin H|s c i r k1 Hr Hk H
    |s c i o k1 Hr Hk H|s c i np o k1 Hr Hk H|s c i np o k1 Hr Hk H|s c i np r k1 Hr Hk H].
  - apply Hend. by eapply pinv_dispatch.
  - apply Hend. unfold yield in H. krun1 H. apply sched_Ok in H as ->.
    eapply pinv_switch; try done. intros p _ Hst. unfold same, cls. simpl. rewrite Hst. split_and!; try done. by intros [? ?].
  - apply Hend. unfold sleep in H. destruct (bool_decide _); [done|]. do 2 krun1 H. apply sched_Ok in H as ->.
    eapply (pinv_switch made s _ c i (fun p => with_state (with_chan p ch) SLEEPING)); try done.
    { simpl. by rewrite list_alter_alter_eq. }
    intros p _ Hst. unfold same, cls. simpl. rewrite Hst. split_and!; try done. by intros [? ?].
  - apply Hend. by eapply pinv_wakeup.
  - apply Hend. rewrite kill_run in H. destruct (find_pid n _) as [j|]; injection H as <- <-;
      [|by destruct s]. eapply pinv_one; try done. intros p _.
    unfold killed_proc, same, run_same, cls, local_ok. simpl.
    destruct (decide (p.(state) = SLEEPING)) as [E|]; simpl; rewrite ?E; intuition congruence.
  - apply Hend. rewrite set_nice_run in H. destruct (_ || _) eqn:E; [injection H as <- <-; by destruct s|].
    apply orb_false_iff in E as [E1%Z.ltb_ge E2%Z.ltb_ge].
    destruct (find_pid n _) as [j|]; injection H as <- <-; [|by destruct s].
    eapply pinv_one; try done. intros p _. split; [done|]. split; [done|].
    intros [? _]. split; simpl; [done|lia].
  - apply Hend. eapply (pinv_one made s _ i f); try done. intros p _.
    destruct (Hf p) as (E1 & E2 & E3 & E4 & E5 & E6).
    unfold same, run_same, cls, local_ok. by rewrite E1, E2, E3, E4, E6.
  - apply Hend. by eapply pinv_exit.
  - apply Hend. by eapply pinv_wait.
  - pose proof (pinv_fork_slot made s c i o k1 I Hr Hk H) as Hx. destruct o; [by right|by left].
  - apply Hend. by eapply pinv_fork_stack.
  - apply Hend. by eapply pinv_fork_fill.
  - apply Hend. by eapply pinv_fork_pub.
Qed.

Lemma pinv_boot (t : list proc) p cs w ncpu :
  p.(pid) = 1 -> p.(parent) = None -> p.(state) = RUNNABLE -> 0 <= p.(nice) <= 20 ->
  t = <[0%nat := p]> (replicate NPROC proc0) -> cs = replicate ncpu None ->
  pinv 1 (mk_sys (mk_kst t (Some 0%nat) 2 w : kst W) cs ∅).
Proof.
  intros Hpid Hpar Hst Hnice -> ->.
  assert (Hin : forall i q, <[0%nat := p]> (replicate NPROC proc0) !! i = Some q ->
            (i = 0%nat /\ q = p) \/ q = proc0).
  { intros i q [[-> ->]|[_ Hq]]%insert_cases; [by left|]. right.
    by apply lookup_replicate in Hq as [-> _]. }
  assert (Hno : forall c (i : nat), replicate ncpu None !! c <> Some (Some i)).
  { intros c i Hc. by apply lookup_replicate in Hc as [? _]. }
  split; cbn [ks cpus konts ptable initproc nextpid]; [exists (fun _ => 1)|reflexivity|..].
  - split.
    + by rewrite length_insert, length_replicate.
    + intros i q [[-> ->]| ->]%Hin Hc; [by rewrite Hpid|done].
    + intros i j q r [[-> ->]| ->]%Hin [[-> ->]| ->]%Hin; done.
    + intros i q r [[-> ->]| ->]%Hin; simpl; congruence.
    + exists 0%nat, p. unfold cls. by rewrite Hst.
    + intros i k Hk. by rewrite lookup_empty in Hk.
    + intros i j k l Hk. by rewrite lookup_empty in Hk.
    + intros i q [[-> ->]| ->]%Hin; unfold cls; [by rewrite Hst|done].
  - split.
    + intros i q Hq. split; [|intros [c Hc]; by destruct (Hno c i)].
      destruct (Hin i q Hq) as [[_ ->]| ->]; [by rewrite Hst|done].
    + intros c i Hc. by destruct (Hno c i).
    + intros c d i Hc. by destruct (Hno c i).
  - apply Forall_lookup. intros i q [[_ ->]| ->]%Hin; split; simpl; try done; by rewrite ?Hst.
Qed.

Lemma first_unused_boot : first_unused (replicate NPROC proc0) = Some 0%nat.
Proof. reflexivity. Qed.

Lemma userinit_Ok t0 w0 k :
  first_unused t0 = Some 0%nat -> t0 !! 0%nat = Some proc0 ->
  userinit forkret trapret (mk_kst t0 None 1 w0) = Ok (tt, k) ->
  exists p, k = mk_kst (<[0%nat := p]> t0) (Some 0%nat) 2 k.(world) /\ p.(pid) = 1 /\
    p.(parent) = None /\ p.(state) = RUNNABLE /\ p.(nice) = 0.
Proof.
  intros Hu0 H0 H. unfold userinit in H. kinv H. apply allocproc_Ok in Hr as [_ Ho].
  destruct a as [np|]; [|by kinv H; injection Hr as <- <-].
  destruct Ho as (Hu & Hn & kk & Hkk & Ht). cbn [ptable nextpid] in Hu, Hn, Ht.
  rewrite Hu0 in Hu. injection Hu as <-. rewrite (alter_const _ _ _ proc0 H0) in Ht.
  do 3 krun1 H. destruct (_ =? 0); [done|]. krun H.
  unfold upd_proc, set_world, set_ptable. simpl. rewrite Hn, Ht, !list_alter_alter_eq.
  rewrite (alter_const _ _ 0 _ (list_lookup_insert_eq _ _ _ (lookup_lt_Some _ _ _ H0))).
  rewrite list_insert_insert_eq. eexists. split; [reflexivity|]. split_and!; lazy; reflexivity.
Qed.

Lemma booted_inv ncpu w0 s : booted forkret trapret ncpu w0 s -> pinv 1 s.
Proof.
  intros (H & Hc & Hk). destruct s as [k cs kt]. simpl in Hc, Hk, H. subst kt.
  apply userinit_Ok in H as (p & -> & ? & ? & ? & Hn); [|done..].
  eapply pinv_boot; try done. by rewrite Hn.
Qed.

Lemma history_pinv ncpu w0 n s : history forkret trapret ncpu w0 n s -> pinv n s.
Proof.
  induction 1 as [s B|n s s' H IH St]; [by eapply booted_inv|]. unfold given.
  destruct (pinv_step n s s' IH St) as [I|I]; pose proof (pinv_next _ _ IH) as E; pose proof (pinv_next _ _ I) as E'.
  - by rewrite bool_decide_eq_true_2 by congruence.
  - rewrite bool_decide_eq_false_2; [done|]. rewrite E, E'. apply s32_succ_ne.
Qed.

(** ** The walk up the tree *)

(** [i] is [caller] or descends from it. *)
Inductive descends (t : list proc) (caller : nat) : nat -> Prop :=
| desc_self : descends t caller caller
| desc_up i p j : t !! i = Some p -> p.(parent) = Some j -> descends t caller j ->
    descends t caller i.

Lemma filter_shrinks {A} (P Q : A -> Prop) `{!forall x, Decision (P x), !forall x, Decision (Q x)}
    (l : list A) x :
  x ∈ l -> Q x -> ~ P x -> (forall y, P y -> Q y) ->
  (length (filter P l) < length (filter Q l))%nat.
Proof.
  intros Hx HQ HP Himp.
  assert (Hle : forall l', (length (filter P l') <= length (filter Q l'))%nat).
  { induction l' as [|y l' IH]; [done|]. rewrite !filter_cons.
    destruct (decide (P y)), (decide (Q y)); simpl; try lia; exfalso; auto. }
  induction Hx as [x l|x y l Hx IH]; rewrite !filter_cons.
  - rewrite decide_False, decide_True by done. simpl. specialize (Hle l). lia.
  - specialize (IH HQ HP). destruct (decide (P y)), (decide (Q y)); simpl; try lia; exfalso; auto.
Qed.

#[local] Instance pclass_eq_dec : EqDecision pclass.
Proof. solve_decision. Defined.

(** How many slots hold an older process than slot [i]. *)
Definition older (t : list proc) (ag : nat -> Z) (i : nat) : nat := length (filter (fun j => ag j < ag i) (seq 0 (length t))).

Lemma walk_ends t init next ag kt caller fuel i p :
  core t init next ag kt -> t !! i = Some p -> (older t ag i + 2 <= fuel)%nat ->
  exists b, can_access_procinfo fuel t caller (Some i) = Some b /\ (b = true <-> descends t caller i).
Proof.
  intros C. revert i p. induction fuel as [|fuel IH]; intros i p Hp Hf; [lia|].
  cbn [can_access_procinfo]. destruct (decide (i = caller)) as [->|Hne].
  { exists true. split; [done|]. split; [constructor|done]. }
  rewrite Hp. destruct (p.(parent)) as [j|] eqn:Hpar.
  - destruct (core_parent _ _ _ _ _ C i p j Hp Hpar) as (_ & q & Hq & Ha & Hlt).
    assert (Hold : (older t ag j < older t ag i)%nat).
    { apply (filter_shrinks _ _ _ j); [|done|lia|lia]. apply elem_of_seq. apply lookup_lt_Some in Hq. lia. }
    destruct (IH j q Hq ltac:(lia)) as (b & Hb & Hiff). exists b. split; [done|].
    rewrite Hiff. split.
    + intros Hd. by eapply desc_up.
    + intros Hd. inversion Hd as [|? p' j' Hp' Hj' Hd']; [done|]. congruence.
  - destruct fuel as [|fuel]; [lia|]. exists false. split; [done|]. split; [done|].
    intros Hd. inversion Hd as [|? p' j' Hp' Hj' Hd']; [done|]. congruence.
Qed.

Lemma older_bound t ag p i : t !! i = Some p -> (older t ag i < length t)%nat.
Proof.
  intros Hp. eapply Nat.lt_le_trans; [|etransitivity; [apply (length_filter (fun _ => True) (seq 0 (length t)))|by rewrite length_seq]].
  apply (filter_shrinks _ _ _ i); [|done|lia|done]. apply elem_of_seq. apply lookup_lt_Some in Hp. lia.
Qed.

End Preserve.

Section Claims.
Context {W : Type} `{SV : ProcSvc W}.
Variable forkret trapret : Z.

(** C3. In every state the kernel can reach, whatever the interleaving of
    dispatches, yields, sleeps, wakeups, kills, nice calls, exits, waits and
    the four phases of fork on any number of CPUs, and however many processes
    there have been: a parent is alive and was created before its child; init
    is alive and was created first; every EMBRYO slot belongs to exactly one
    fork under way; a process is RUNNING exactly when one CPU, and only one,
    runs it; a sleeper has a channel; and nice stays within 0..20.  The pids
    are those of a counter that wraps around at 2^31.  As long as fewer than
    2^32 have been given out, the processes in use have distinct pids; as long
    as fewer than 2^31 have, these are positive, and a parent's is smaller
    than its child's. *)
Theorem reachable_inv ncpu w0 n (s : sys W) :
  history forkret trapret ncpu w0 n s ->
  let t := s.(ks).(ptable) in
  pinv n s /\
  (n < 2 ^ 32 -> forall i j p q, t !! i = Some p -> t !! j = Some q -> p.(state) <> UNUSED -> q.(state) <> UNUSED ->
     p.(pid) = q.(pid) -> i = j) /\
  (n < 2 ^ 31 -> forall i p, t !! i = Some p -> p.(state) <> UNUSED ->
     0 < p.(pid) <= n /\ forall j q, p.(parent) = Some j -> t !! j = Some q -> q.(pid) < p.(pid)).
Proof.
  intros H t. pose proof (history_pinv _ _ _ _ _ _ H) as I. split; [done|]. destruct (pinv_core _ _ I) as [ag C].
  assert (Hag : forall i p, t !! i = Some p -> p.(state) <> UNUSED -> 0 < ag i <= n /\ p.(pid) = s32 (ag i)).
  { intros i p Hp Hu. destruct (core_age _ _ _ _ _ C i p Hp) as [? ?]; [|split; [lia|done]]. unfold cls. by destruct p.(state). }
  split.
  - intros Hn i j p q Hp Hq Hpu Hqu E. destruct (Hag i p Hp Hpu) as [A1 E1], (Hag j q Hq Hqu) as [A2 E2].
    eapply (core_uniq _ _ _ _ _ C i j p q); [done|done|unfold cls; by destruct p.(state)|unfold cls; by destruct q.(state)|].
    apply s32_inj; [congruence|lia].
  - intros Hn i p Hp Hpu. destruct (Hag i p Hp Hpu) as [A1 E1].
    assert (S : forall z, 0 < z <= n -> s32 z = z) by (intros z Hz; apply s32_small; unfold is_s32; lia).
    rewrite E1, S by done. split; [done|]. intros j q Hj Hq.
    destruct (core_parent _ _ _ _ _ C i p j Hp Hj) as [_ (q' & Hq' & Ha & Hlt)].
    change (t !! j = Some q') in Hq'. rewrite Hq in Hq'. injection Hq' as <-.
    destruct (Hag j q Hq) as [A2 E2]; [|by rewrite E2, S]. unfold cls in Ha. by destruct q.(state).
Qed.

(** C40. In every reachable state the parent walk of can_access_procinfo ends
    within NPROC + 1 turns, and it answers yes exactly when the target is the
    caller or a descendant of it. *)
Theorem can_access_procinfo_spec ncpu w0 (s : sys W) caller i :
  reachable forkret trapret ncpu w0 s -> (i < NPROC)%nat ->
  exists b, can_access_procinfo (S NPROC) s.(ks).(ptable) caller (Some i) = Some b /\
    (b = true <-> descends s.(ks).(ptable) caller i).
Proof.
  intros [n R] Hi. destruct (pinv_core _ _ (history_pinv _ _ _ _ _ _ R)) as [ag C].
  rewrite <- (core_len _ _ _ _ _ C) in Hi.
  apply lookup_lt_is_Some_2 in Hi as [p Hp]. pose proof (older_bound _ ag _ _ Hp).
  eapply walk_ends; [exact C|exact Hp|]. rewrite <- (core_len _ _ _ _ _ C). lia.
Qed.

(** What [getprocinfo] copies out for process [p]. *)
Definition info_of (t : list proc) (p : proc) (old : procinfo) : procinfo :=
  mk_procinfo p.(pid)
    (default 0 (q ← p.(parent); pid <$> t !! q))
    (safestrcpy_field old.(pi_state) (lit (procstatestr p.(state))) 16)
    p.(sz) p.(cputicks) (safestrcpy_field old.(pi_name) p.(name) 16) p.(nice) p.(is_privileged).

(** getprocinfo returns in every reachable state.  While fewer than 2^32 pids
    have been given out, it returns 0 exactly when a process in use has the pid and is the caller or a descendant of the
    caller, and then fills the structure from that process; otherwise it
    returns -1 and leaves the structure alone. *)
Theorem getprocinfo_spec ncpu w0 made (s : sys W) cur n old :
  history forkret trapret ncpu w0 made s -> made < 2 ^ 32 ->
  let t := s.(ks).(ptable) in
  exists r info, getprocinfo (S NPROC) cur n (Some old) s.(ks) = Some (r, Some info) /\
    (r = 0 /\ (exists i p, t !! i = Some p /\ p.(pid) = n /\ p.(state) <> UNUSED /\
                 descends t cur i /\ info = info_of t p old) \/
     r = -1 /\ info = old /\
       (forall i p, t !! i = Some p -> p.(pid) = n -> p.(state) <> UNUSED -> ~ descends t cur i)).
Proof.
  intros R Hmade t. destruct (pinv_core _ _ (history_pinv _ _ _ _ _ _ R)) as [ag C]. unfold getprocinfo.
  destruct (fst <$> list_find _ _) as [i|] eqn:E.
  - apply list_find_fst_Some in E as (p & Hp & [Hn Hu] & _). rewrite Hp.
    pose proof (older_bound _ ag _ _ Hp).
    destruct (walk_ends _ _ _ _ _ cur (S NPROC) i p C Hp) as ([|] & -> & Hb);
      [rewrite <- (core_len _ _ _ _ _ C); lia|..]; (eexists _, _; split; [reflexivity|]).
    + left. split; [done|]. exists i, p. split_and!; try done; [by apply Hb|].
      unfold info_of. f_equal. destruct (p.(parent)) as [q|]; simpl; [|done].
      fold t. by destruct (t !! q).
    + right. split; [done|]. split; [done|]. intros j q Hq Hqn Hqu Hd.
      assert (j = i) as ->; [|by apply Hb in Hd].
      assert (Hfree : forall x, x.(state) <> UNUSED -> cls x <> Free).
      { intros x. unfold cls. by destruct x.(state). }
      eapply core_uniq; eauto. destruct (core_age _ _ _ _ _ C j q Hq ltac:(auto)) as [A1 E1].
      destruct (core_age _ _ _ _ _ C i p Hp ltac:(auto)) as [A2 E2]. apply s32_inj; [congruence|lia].
  - rewrite list_find_fst_None in E. eexists _, _. split; [reflexivity|].
    right. split; [done|]. split; [done|]. intros j q Hq Hqn Hqu _. by eapply (E j q).
Qed.

(** The counter of pids is not guarded: when the largest [int] has been given
    out the next pid is negative, and a fork that succeeds returns it, which
    the caller takes for a failure. *)
Theorem nextpid_wraps (s : kst W) cur c np k pd w :
  s32 (2 ^ 31 - 1 + 1) = - 2 ^ 31 /\
  (s.(nextpid) = - 2 ^ 31 -> s.(ptable) !! cur = Some c -> c.(state) <> UNUSED -> first_unused s.(ptable) = Some np ->
   fork_world c s.(world) = Ok ((k, pd), w) -> k <> 0 -> pd <> 0 ->
   exists s' n, fork forkret trapret cur s = Ok (- 2 ^ 31, s') /\ s'.(ptable) !! np = Some n /\ n.(state) = RUNNABLE).
Proof.
  split; [reflexivity|]. intros Hn Hc Hs Hu Hw Hk Hpd. rewrite (fork_exact _ _ s cur c np Hc Hs Hu), Hw.
  destruct (first_unused_lookup _ _ Hu) as (old & Hold & _). unfold fork_result, fork_slot.
  rewrite (proj2 (Z.eqb_neq k 0) Hk), (proj2 (Z.eqb_neq pd 0) Hpd), Hn. cbn [orb]. eexists _, _. split; [reflexivity|].
  cbn [ptable]. by rewrite list_lookup_alter_eq, Hold.
Qed.

End Claims.

Module InvDemo.
Import ProcSpec.Demo.
#[local] Existing Instance demo_svc.

(** Two CPUs just after boot. *)
Definition boot_ks : kst Z := match userinit 1 2 (pinit 0) with Ok (_, s) => s | Panic _ => pinit 0 end.
Definition boot_sys : sys Z := mk_sys boot_ks [None; None] ∅.

Definition cpu0 : cpu := mk_cpu None 0 0.
Definition after {A} (m : kM (kst Z) A) (s : sys Z) : kst Z := match m s.(ks) with Ok (_, k) => k | Panic _ => s.(ks) end.
Definition picked (s : sys Z) : cpu := match scheduler cpu0 s.(ks) with Ok (c, _) => c | Panic _ => cpu0 end.
Definition idle_chan (p : proc) : proc := with_chan p KNull.

(** CPU 0 runs init, which forks; CPU 1 runs the child, which exits. *)
Definition s1 : sys Z := mk_sys (upd_proc 0 idle_chan (after (scheduler cpu0) boot_sys)) [Some 0%nat; None] ∅.
Definition s2 : sys Z := mk_sys (after allocproc_slot s1) [Some 0%nat; None] (<[0%nat := KStack 1]> ∅).
Definition s3 : sys Z := mk_sys (after (allocproc_stack 1 2 1) s2) [Some 0%nat; None] (<[0%nat := KFill 1]> (<[0%nat := KStack 1]> ∅)).
Definition s4 : sys Z := mk_sys (after (fork_fill 0 1) s3) [Some 0%nat; None] (<[0%nat := KPub 1]> s3.(konts)).
Definition s5 : sys Z := mk_sys (after (fork_publish 1) s4) [Some 0%nat; None] (delete 0%nat s4.(konts)).
Definition s6 : sys Z := mk_sys (upd_proc 1 idle_chan (after (scheduler cpu0) s5)) [Some 0%nat; Some 1%nat] s5.(konts).
Definition s7 : sys Z := mk_sys (after (exit_last 1) s6) [Some 0%nat; None] s6.(konts).

Lemma hist_next n n' s s' : history 1 2 2 0 n s -> pstep 1 2 s s' -> given n s s' = n' -> history 1 2 2 0 n' s'.
Proof. intros H St <-. by apply (hist_step 1 2 2 0 n s s'). Qed.

Lemma s7_history : history 1 2 2 0 2 s7.
Proof.
  assert (H0 : history 1 2 2 0 1 boot_sys) by (apply hist_boot; split; [vm_compute; reflexivity|split; reflexivity]).
  assert (H1 : history 1 2 2 0 1 s1).
  { eapply hist_next; [exact H0| |vm_compute; reflexivity]. apply (st_dispatch 1 2 boot_sys 0 0 cpu0 (picked boot_sys) (after (scheduler cpu0) boot_sys)); vm_compute; reflexivity. }
  assert (H2 : history 1 2 2 0 2 s2).
  { eapply hist_next; [exact H1| |vm_compute; reflexivity]. apply (st_fork_slot 1 2 s1 0 0 (Some 1%nat) (after allocproc_slot s1)); vm_compute; reflexivity. }
  assert (H3 : history 1 2 2 0 2 s3).
  { eapply hist_next; [exact H2| |vm_compute; reflexivity]. apply (st_fork_stack 1 2 s2 0 0 1 (Some 1%nat) (after (allocproc_stack 1 2 1) s2)); vm_compute; reflexivity. }
  assert (H4 : history 1 2 2 0 2 s4).
  { eapply hist_next; [exact H3| |vm_compute; reflexivity]. apply (st_fork_fill 1 2 s3 0 0 1 (Some 1%nat) (after (fork_fill 0 1) s3)); vm_compute; reflexivity. }
  assert (H5 : history 1 2 2 0 2 s5).
  { eapply hist_next; [exact H4| |vm_compute; reflexivity]. apply (st_fork_pub 1 2 s4 0 0 1 2 (after (fork_publish 1) s4)); vm_compute; reflexivity. }
  assert (H6 : history 1 2 2 0 2 s6).
  { eapply hist_next; [exact H5| |vm_compute; reflexivity]. apply (st_dispatch 1 2 s5 1 1 cpu0 (picked s5) (after (scheduler cpu0) s5)); vm_compute; reflexivity. }
  eapply hist_next; [exact H6| |vm_compute; reflexivity]. apply (st_exit 1 2 s6 1 1 (after (exit_last 1) s6)); [vm_compute; reflexivity|vm_compute; reflexivity|discriminate|vm_compute; reflexivity].
Qed.

Lemma s7_reachable : reachable 1 2 2 0 s7.
Proof. exists 2. exact s7_history. Qed.

Lemma reachable_inv_witness :
  pinv 2 s7 /\ (fun p => (p.(state), p.(pid), p.(parent))) <$> s7.(ks).(ptable) !! 1%nat = Some (ZOMBIE, 2, Some 0%nat) /\
  forall i p, s7.(ks).(ptable) !! i = Some p -> p.(state) <> UNUSED -> 0 < p.(pid) <= 2.
Proof.
  destruct (reachable_inv 1 2 2 0 2 s7 s7_history) as (H1 & _ & H2). split; [exact H1|]. split; [vm_compute; reflexivity|].
  intros i p Hp Hu. exact (proj1 (H2 eq_refl i p Hp Hu)).
Defined.

Lemma can_access_procinfo_spec_witness :
  exists b, can_access_procinfo (S NPROC) s7.(ks).(ptable) 0 (Some 1%nat) = Some b /\
    (b = true <-> descends s7.(ks).(ptable) 0 1%nat).
Proof.
  apply (can_access_procinfo_spec 1 2 2 0 s7 0 1); [exact s7_reachable|unfold NPROC; lia].
Defined.

Lemma getprocinfo_spec_witness :
  exists r info, getprocinfo (S NPROC) 0 1 (Some (mk_procinfo 0 0 [] 0 0 [] 0 0)) s7.(ks)
    = Some (r, Some info).
Proof.
  destruct (getprocinfo_spec 1 2 2 0 2 s7 0 1 (mk_procinfo 0 0 [] 0 0 [] 0 0))
    as (r & info & H & _); [exact s7_history|reflexivity|]. exists r, info. exact H.
Defined.

End InvDemo.
