(* ===== verification/Asm.v ===== *)
(** * The assembly code (swtch.S, trapasm.S, vectors.S, usys.S, initcode.S)

    The instructions that the assembly files use, on the registers of one CPU
    and a memory; what the CPU does at an interrupt and at [iret]; and the
    code itself, as lists of instructions.  A block of code ends with the
    instruction that leaves it, which sets the program counter to the label of
    the next block or to an address from the stack. *)

From S2P Require Import Prelude Mmu Proc ProcSpec.

(** ** The CPU *)

Inductive reg := EAX | ECX | EDX | EBX | ESP | EBP | ESI | EDI.
Inductive sreg := CS | DS | ES | FS | GS | SS.

Record regs := mk_regs {
  eax : Z; ecx : Z; edx : Z; ebx : Z; esp : Z; ebp : Z; esi : Z; edi : Z
}.

Record segs := mk_segs { cs : Z; ds : Z; es : Z; fs : Z; gs : Z; ss : Z }.

(** [ts_esp0] and [ts_ss0] are the kernel stack in the task state segment,
    which [switchuvm] sets. *)
Record cpust := mk_cpust {
  rg : regs;
  sg : segs;
  eip : Z;
  eflags : Z;
  mm : mem;
  ts_esp0 : Z;
  ts_ss0 : Z
}.

Definition get_reg (g : regs) (r : reg) : Z :=
  match r with
  | EAX => g.(eax) | ECX => g.(ecx) | EDX => g.(edx) | EBX => g.(ebx)
  | ESP => g.(esp) | EBP => g.(ebp) | ESI => g.(esi) | EDI => g.(edi)
  end.

Definition set_reg (g : regs) (r : reg) (v : Z) : regs :=
  match r with
  | EAX => mk_regs v g.(ecx) g.(edx) g.(ebx) g.(esp) g.(ebp) g.(esi) g.(edi)
  | ECX => mk_regs g.(eax) v g.(edx) g.(ebx) g.(esp) g.(ebp) g.(esi) g.(edi)
  | EDX => mk_regs g.(eax) g.(ecx) v g.(ebx) g.(esp) g.(ebp) g.(esi) g.(edi)
  | EBX => mk_regs g.(eax) g.(ecx) g.(edx) v g.(esp) g.(ebp) g.(esi) g.(edi)
  | ESP => mk_regs g.(eax) g.(ecx) g.(edx) g.(ebx) v g.(ebp) g.(esi) g.(edi)
  | EBP => mk_regs g.(eax) g.(ecx) g.(edx) g.(ebx) g.(esp) v g.(esi) g.(edi)
  | ESI => mk_regs g.(eax) g.(ecx) g.(edx) g.(ebx) g.(esp) g.(ebp) v g.(edi)
  | EDI => mk_regs g.(eax) g.(ecx) g.(edx) g.(ebx) g.(esp) g.(ebp) g.(esi) v
  end.

Definition get_sreg (g : segs) (r : sreg) : Z :=
  match r with
  | CS => g.(cs) | DS => g.(ds) | ES => g.(es) | FS => g.(fs) | GS => g.(gs) | SS => g.(ss)
  end.

Definition set_sreg (g : segs) (r : sreg) (v : Z) : segs :=
  match r with
  | CS => mk_segs v g.(ds) g.(es) g.(fs) g.(gs) g.(ss)
  | DS => mk_segs g.(cs) v g.(es) g.(fs) g.(gs) g.(ss)
  | ES => mk_segs g.(cs) g.(ds) v g.(fs) g.(gs) g.(ss)
  | FS => mk_segs g.(cs) g.(ds) g.(es) v g.(gs) g.(ss)
  | GS => mk_segs g.(cs) g.(ds) g.(es) g.(fs) v g.(ss)
  | SS => mk_segs g.(cs) g.(ds) g.(es) g.(fs) g.(gs) v
  end.

Definition with_reg (s : cpust) (r : reg) (v : Z) : cpust :=
  mk_cpust (set_reg s.(rg) r v) s.(sg) s.(eip) s.(eflags) s.(mm) s.(ts_esp0) s.(ts_ss0).
Definition with_sreg (s : cpust) (r : sreg) (v : Z) : cpust :=
  mk_cpust s.(rg) (set_sreg s.(sg) r v) s.(eip) s.(eflags) s.(mm) s.(ts_esp0) s.(ts_ss0).
Definition with_eip (s : cpust) (v : Z) : cpust :=
  mk_cpust s.(rg) s.(sg) v s.(eflags) s.(mm) s.(ts_esp0) s.(ts_ss0).
Definition with_eflags (s : cpust) (v : Z) : cpust :=
  mk_cpust s.(rg) s.(sg) s.(eip) v s.(mm) s.(ts_esp0) s.(ts_ss0).
Definition with_mm (s : cpust) (m : mem) : cpust :=
  mk_cpust s.(rg) s.(sg) s.(eip) s.(eflags) m s.(ts_esp0) s.(ts_ss0).

Definition push (v : Z) (s : cpust) : cpust :=
  let a := u32 (s.(rg).(esp) - 4) in with_mm (with_reg s ESP a) (store32 s.(mm) a v).

(** A segment register is pushed with a 16-bit move; the upper half of the
    word keeps what was there. *)
Definition push16 (v : Z) (s : cpust) : cpust :=
  let a := u32 (s.(rg).(esp) - 4) in push (v + 65536 * (load32 s.(mm) a / 65536)) s.

Definition top (s : cpust) : Z := load32 s.(mm) s.(rg).(esp).
Definition drop4 (s : cpust) : cpust := with_reg s ESP (u32 (s.(rg).(esp) + 4)).

(** ** Segments, gates and interrupts *)

Definition SEG_KCODE : Z := 1.
Definition SEG_KDATA : Z := 2.
Definition STS_IG32 : Z := 14.
Definition STS_TG32 : Z := 15.

(** The privilege level of a selector's segment, as [seginit] sets it: those
    of user code and data are 3, those of the kernel 0. *)
Definition seg_dpl (sel : Z) : Z :=
  let i := sel / 8 in if (i =? SEG_UCODE) || (i =? SEG_UDATA) then DPL_USER else 0.

Record gatedesc := mk_gatedesc {
  off_15_0 : Z; g_cs : Z; args : Z; rsv1 : Z; g_type : Z; g_s : Z; dpl : Z; g_p : Z; off_31_16 : Z
}.

Definition SETGATE (istrap : bool) (sel off d : Z) : gatedesc :=
  mk_gatedesc (Z.land off 65535) sel 0 0 (if istrap then STS_TG32 else STS_IG32) 0 d 1 (Z.shiftr off 16).

Definition T_GPFLT : Z := 13.
Definition T_SYSCALL : Z := 64.

(** [tvinit]; [vectors] are the addresses of the handlers. *)
Definition tvinit (vectors : Z -> Z) : list gatedesc :=
  <[Z.to_nat T_SYSCALL := SETGATE true (Z.shiftl SEG_KCODE 3) (vectors T_SYSCALL) DPL_USER]>
    (map (fun i => SETGATE false (Z.shiftl SEG_KCODE 3) (vectors (Z.of_nat i)) 0) (seq 0 256)).

Definition cpl (s : cpust) : Z := Z.land s.(sg).(cs) 3.

(** The flags that an interrupt clears: TF, NT, RF and VM, and IF in an
    interrupt gate. *)
Definition handler_flags (istrap : bool) (f : Z) : Z :=
  Z.ldiff f (if istrap then 213248 else 213760).

(** The CPU enters the handler of gate [g]: on the stack of the kernel if the
    privilege rises, with the old stack, the flags, the return address and
    perhaps an error code pushed. *)
Definition enter_gate (g : gatedesc) (err : option Z) (s : cpust) : cpust :=
  let f := s.(eflags) in
  let s1 := if Z.land g.(g_cs) 3 <? cpl s then
              let s0 := with_sreg (with_reg s ESP s.(ts_esp0)) SS s.(ts_ss0) in
              push s.(rg).(esp) (push16 s.(sg).(ss) s0)
            else s in
  let s2 := push s.(eip) (push16 s.(sg).(cs) (push f s1)) in
  let s3 := match err with Some e => push e s2 | None => s2 end in
  with_eflags (with_eip (with_sreg s3 CS g.(g_cs)) (Z.lor (Z.shiftl g.(off_31_16) 16) g.(off_15_0)))
    (handler_flags (g.(g_type) =? STS_TG32) f).

(** A fault or an interrupt from a device. *)
Definition interrupt (idt : list gatedesc) (n : Z) (err : option Z) (s : cpust) : outcome cpust :=
  match idt !! Z.to_nat n with
  | Some g => Ok (enter_gate g err s)
  | None => Panic "no gate"
  end.

(** The instruction [int]: a gate that the privilege does not reach is a
    general protection fault. *)
Definition int (idt : list gatedesc) (n : Z) (s : cpust) : outcome cpust :=
  match idt !! Z.to_nat n with
  | Some g => if g.(dpl) <? cpl s then interrupt idt T_GPFLT (Some (8 * n + 2)) s else Ok (enter_gate g None s)
  | None => Panic "no gate"
  end.

(** A data segment that the outer ring may not use is cleared by [iret]. *)
Definition outer_seg (v : Z) : Z := if (3 <? v) && (seg_dpl v <? DPL_USER) then 0 else v.

Definition iret (s : cpust) : cpust :=
  let w k := load32 s.(mm) (u32 (s.(rg).(esp) + k)) in
  let sel := u16 (w 4) in
  let g := s.(sg) in
  if cpl s <? Z.land sel 3 then
    mk_cpust (set_reg s.(rg) ESP (w 12))
      (mk_segs sel (outer_seg g.(ds)) (outer_seg g.(es)) (outer_seg g.(fs)) (outer_seg g.(gs)) (u16 (w 16)))
      (w 0) (w 8) s.(mm) s.(ts_esp0) s.(ts_ss0)
  else
    mk_cpust (set_reg s.(rg) ESP (u32 (s.(rg).(esp) + 12))) (set_sreg g CS sel) (w 0) (w 8) s.(mm) s.(ts_esp0) s.(ts_ss0).

(** ** Instructions *)

Inductive instr :=
| Movl_load (off : Z) (base dst : reg)    (* movl off(base), dst *)
| Movl_store (src base : reg)             (* movl src, (base) *)
| Movl_rr (src dst : reg)
| Movl_ir (v : Z) (dst : reg)
| Movw_ir (v : Z) (dst : reg)             (* the low half of dst *)
| Movw_rs (src : reg) (dst : sreg)
| Pushl_r (r : reg)
| Pushl_i (v : Z)
| Pushl_s (r : sreg)
| Popl_r (r : reg)
| Popl_s (r : sreg)
| Pushal
| Popal
| Addl_ir (v : Z) (r : reg)
| Jmp (l : Z)
| Call (l next : Z)                       (* next is the address after the call *)
| Ret
| Iret
| Int (n next : Z).

Section Exec.

Variable idt : list gatedesc.

Definition exec1 (i : instr) (s : cpust) : outcome cpust :=
  match i with
  | Movl_load off b d => Ok (with_reg s d (load32 s.(mm) (u32 (get_reg s.(rg) b + off))))
  | Movl_store r b => Ok (with_mm s (store32 s.(mm) (get_reg s.(rg) b) (get_reg s.(rg) r)))
  | Movl_rr r d => Ok (with_reg s d (get_reg s.(rg) r))
  | Movl_ir v d => Ok (with_reg s d v)
  | Movw_ir v d => Ok (with_reg s d (get_reg s.(rg) d - get_reg s.(rg) d mod 65536 + v))
  | Movw_rs r d => Ok (with_sreg s d (u16 (get_reg s.(rg) r)))
  | Pushl_r r => Ok (push (get_reg s.(rg) r) s)
  | Pushl_i v => Ok (push v s)
  | Pushl_s r => Ok (push16 (get_sreg s.(sg) r) s)
  | Popl_r r => Ok (with_reg (drop4 s) r (top s))
  | Popl_s r => Ok (with_sreg (drop4 s) r (u16 (top s)))
  | Pushal =>
      let g := s.(rg) in
      Ok (push g.(edi) (push g.(esi) (push g.(ebp) (push g.(esp)
           (push g.(ebx) (push g.(edx) (push g.(ecx) (push g.(eax) s))))))))
  | Popal =>
      let w k := load32 s.(mm) (u32 (s.(rg).(esp) + k)) in
      Ok (mk_cpust (mk_regs (w 28) (w 24) (w 20) (w 16) (u32 (s.(rg).(esp) + 32)) (w 8) (w 4) (load32 s.(mm) s.(rg).(esp)))
            s.(sg) s.(eip) s.(eflags) s.(mm) s.(ts_esp0) s.(ts_ss0))
  | Addl_ir v r => Ok (with_reg s r (u32 (get_reg s.(rg) r + v)))
  | Jmp l => Ok (with_eip s l)
  | Call l next => Ok (with_eip (push next s) l)
  | Ret => Ok (with_eip (drop4 s) (top s))
  | Iret => Ok (iret s)
  | Int n next => int idt n (with_eip s next)
  end.

Fixpoint execute (c : list instr) (s : cpust) : outcome cpust :=
  match c with
  | [] => Ok s
  | i :: c => s' ← exec1 i s; execute c s'
  end.

End Exec.

(** ** The code *)

Definition swtch : list instr :=
  [Movl_load 4 ESP EAX; Movl_load 8 ESP EDX;
   Pushl_r EBP; Pushl_r EBX; Pushl_r ESI; Pushl_r EDI;
   Movl_store ESP EAX; Movl_rr EDX ESP;
   Popl_r EDI; Popl_r ESI; Popl_r EBX; Popl_r EBP; Ret].

(** The handlers for which the CPU pushes an error code. *)
Definition has_err (n : Z) : bool := (n =? 8) || ((10 <=? n) && (n <=? 14)) || (n =? 17).

Definition vector (alltraps_at n : Z) : list instr :=
  (if has_err n then [] else [Pushl_i 0]) ++ [Pushl_i n; Jmp alltraps_at].

(** [alltraps] up to the call of [trap], and from its return on. *)
Definition alltraps (trap_at back : Z) : list instr :=
  [Pushl_s DS; Pushl_s ES; Pushl_s FS; Pushl_s GS; Pushal;
   Movw_ir (Z.shiftl SEG_KDATA 3) EAX; Movw_rs EAX DS; Movw_rs EAX ES;
   Pushl_r ESP; Call trap_at back].

Definition trapret : list instr :=
  [Popal; Popl_s GS; Popl_s FS; Popl_s ES; Popl_s DS; Addl_ir 8 ESP; Iret].

Definition alltraps_back : list instr := Addl_ir 4 ESP :: trapret.

(** The system call stub with number [num]: up to the interrupt, and from
    [next] on. *)
Definition stub (num next : Z) : list instr := [Movl_ir num EAX; Int T_SYSCALL next].
Definition stub_back : list instr := [Ret].

(** The first program: "exec(init, argv)", then exit for ever. *)
Definition SYS_exec : Z := 7.
Definition SYS_exit : Z := 2.
Definition initcode_start (argv init next : Z) : list instr :=
  [Pushl_i argv; Pushl_i init; Pushl_i 0; Movl_ir SYS_exec EAX; Int T_SYSCALL next].
Definition initcode_exit (next : Z) : list instr := [Movl_ir SYS_exit EAX; Int T_SYSCALL next].
Definition initcode_again (exit_at : Z) : list instr := [Jmp exit_at].

(** ** Running the code *)

Lemma exec_cons idt i c s s' : exec1 idt i s = Ok s' -> execute idt (i :: c) s = execute idt c s'.
Proof. intros H. cbn [execute]. unfold mbind, outcome_bind. by rewrite H. Qed.

(** Addresses are kept in the form [a + k] or [a - k]. *)
Ltac addr_norm :=
  repeat match goal with
  | |- context [?a - ?b - ?c] => let n := eval compute in (b + c) in replace (a - b - c) with (a - n) by lia
  | |- context [?a + ?b + ?c] =>
      lazymatch b with Zpos _ => idtac end; lazymatch c with Zpos _ => idtac end;
      let n := eval compute in (b + c) in replace (a + b + c) with (a + n) by lia
  end.

Ltac addr_norm_in H :=
  repeat match type of H with context [?a + ?b + ?c] =>
    lazymatch b with Zpos _ => idtac end; lazymatch c with Zpos _ => idtac end;
    let n := eval compute in (b + c) in replace (a + b + c) with (a + n) in H by lia
  end.

Ltac addr_small := repeat match goal with |- context [u32 ?x] => rewrite (u32_small x) by (unfold is_u32; lia) end.

(** One instruction on a state that is written out; addresses do not wrap. *)
Ltac asm_step :=
  erewrite exec_cons;
  [| cbn [exec1]; unfold push16, push, with_mm, drop4, top, with_reg, with_sreg, with_eip;
     cbn [rg sg mm get_reg set_reg get_sreg set_sreg esp eax ecx edx ebx ebp esi edi cs ds es fs gs ss eip eflags ts_esp0 ts_ss0];
     addr_small; addr_norm;
     reflexivity ].

(** ** Words on the stack *)

(** The words [ws] from address [a] up. *)
Fixpoint stack (m : mem) (a : Z) (ws : list Z) : Prop :=
  match ws with
  | [] => True
  | w :: ws => load32 m a = w /\ stack m (a + 4) ws
  end.

Lemma stack_ext m m' ws : forall a, (forall x, a <= x < a + 4 * Z.of_nat (length ws) -> m' x = m x) -> stack m a ws -> stack m' a ws.
Proof.
  induction ws as [|w ws IH]; intros a E H; [done|]. cbn [length] in E. destruct H as [H1 H2]. split.
  - rewrite <- H1. apply load32_ext. intros x Hx. apply E. lia.
  - apply (IH (a + 4)); [|done]. intros x Hx. apply E. lia.
Qed.

(** The stack from [sp] up to [top] holds [ws]; below and above it the memory
    is [m0]. *)
Record pushed (m0 : mem) (top sp : Z) (m : mem) (ws : list Z) : Prop := {
  pu_sp : sp = top - 4 * Z.of_nat (length ws);
  pu_words : stack m sp ws;
  pu_frame : forall x, ~ (sp <= x < top) -> m x = m0 x;
  pu_bytes : bytes_ok m
}.

Lemma pushed_nil m top : bytes_ok m -> pushed m top top m [].
Proof. intros H. split; [cbn; lia|done|done|done]. Qed.

Section Push.
Context (m0 : mem) (tp : Z).
Hypothesis Htop : is_u32 tp.

Lemma push_pushed v s ws :
  pushed m0 tp s.(rg).(esp) s.(mm) ws -> is_u32 v -> 4 * Z.of_nat (S (length ws)) <= tp ->
  pushed m0 tp (push v s).(rg).(esp) (push v s).(mm) (v :: ws).
Proof.
  intros [P1 P2 P3 P4] Hv Hr. unfold is_u32 in Htop. assert (Ea : u32 (s.(rg).(esp) - 4) = s.(rg).(esp) - 4) by (apply u32_small; unfold is_u32; lia).
  cbn [push with_mm with_reg rg mm set_reg esp]. rewrite Ea. split.
  - cbn [length]. lia.
  - split; [by apply load32_store32_eq|]. apply (stack_ext s.(mm)); [|by replace (s.(rg).(esp) - 4 + 4) with s.(rg).(esp) by lia].
    intros x Hx. apply store32_frame. lia.
  - intros x Hx. rewrite store32_frame by lia. apply P3. lia.
  - by apply store32_bytes.
Qed.

Lemma push16_pushed v s ws :
  pushed m0 tp s.(rg).(esp) s.(mm) ws -> 0 <= v < 65536 -> 4 * Z.of_nat (S (length ws)) <= tp ->
  exists w, u16 w = v /\ pushed m0 tp (push16 v s).(rg).(esp) (push16 v s).(mm) (w :: ws).
Proof.
  intros P Hv Hr. unfold push16. set (h := load32 _ _ / 65536). assert (Hh : 0 <= h < 65536).
  { pose proof (load32_range s.(mm) (u32 (s.(rg).(esp) - 4)) (pu_bytes _ _ _ _ _ P)) as H. unfold is_u32 in H.
    split; [apply Z.div_pos|apply Z.div_lt_upper_bound]; lia. }
  exists (v + 65536 * h). split.
  - unfold u16. rewrite (Z.mul_comm 65536), Z.mod_add by lia. by apply Z.mod_small.
  - apply push_pushed; [done|unfold is_u32; lia|done].
Qed.

End Push.

(** A trap frame in memory, laid out as [struct trapframe]. *)
Definition tf_at (m : mem) (a : Z) : trapframe :=
  mk_trapframe (load32 m a) (load32 m (a + 4)) (load32 m (a + 8)) (load32 m (a + 12)) (load32 m (a + 16)) (load32 m (a + 20))
    (load32 m (a + 24)) (load32 m (a + 28)) (u16 (load32 m (a + 32))) (u16 (load32 m (a + 36))) (u16 (load32 m (a + 40)))
    (u16 (load32 m (a + 44))) (load32 m (a + 48)) (load32 m (a + 52)) (load32 m (a + 56)) (u16 (load32 m (a + 60)))
    (load32 m (a + 64)) (load32 m (a + 68)) (u16 (load32 m (a + 72))).

Definition ctx_at (m : mem) (a : Z) : kcontext :=
  mk_kcontext (load32 m a) (load32 m (a + 4)) (load32 m (a + 8)) (load32 m (a + 12)) (load32 m (a + 16)).

Lemma tf_at_stack m a w0 w1 w2 w3 w4 w5 w6 w7 w8 w9 w10 w11 w12 w13 w14 w15 w16 w17 w18 :
  stack m a [w0; w1; w2; w3; w4; w5; w6; w7; w8; w9; w10; w11; w12; w13; w14; w15; w16; w17; w18] ->
  tf_at m a = mk_trapframe w0 w1 w2 w3 w4 w5 w6 w7 (u16 w8) (u16 w9) (u16 w10) (u16 w11) w12 w13 w14 (u16 w15) w16 w17 (u16 w18).
Proof. cbn [stack]. intros H. addr_norm_in H. destruct_and!. subst. reflexivity. Qed.

Lemma ctx_at_stack m a w0 w1 w2 w3 w4 : stack m a [w0; w1; w2; w3; w4] -> ctx_at m a = mk_kcontext w0 w1 w2 w3 w4.
Proof. cbn [stack]. intros H. addr_norm_in H. destruct_and!. subst. reflexivity. Qed.

(** ** Context switch *)

Definition apart (a n b k : Z) : Prop := a + n <= b \/ b + k <= a.

(** The registers are words, and the segment registers half words. *)
Definition regs_ok (g : regs) : Prop := forall r, is_u32 (get_reg g r).
Definition segs_ok (g : segs) : Prop := forall r, 0 <= get_sreg g r < 65536.

Section Swtch.
Context (idt : list gatedesc).

(** A call of [swtch(old, new)] is about to run: the return address and the
    two arguments are on the stack, and [new] points to a saved context. *)
Record swtch_call (s : cpust) (ret old new : Z) : Prop := {
  sw_args : stack s.(mm) s.(rg).(esp) [ret; old; new];
  sw_regs : regs_ok s.(rg);
  sw_bytes : bytes_ok s.(mm);
  sw_stack : 16 <= s.(rg).(esp) /\ s.(rg).(esp) + 12 <= 2 ^ 32;
  sw_new : 0 <= new /\ new + 20 < 2 ^ 32;
  sw_apart : apart (s.(rg).(esp) - 16) 16 new 20;
  sw_old : apart old 4 (s.(rg).(esp) - 16) 20 /\ apart old 4 new 20
}.

Lemma swtch_run s ret old new :
  swtch_call s ret old new ->
  let c := ctx_at s.(mm) new in let sp := s.(rg).(esp) in
  exists m', execute idt swtch s = Ok (mk_cpust (mk_regs old s.(rg).(ecx) new c.(ctx_ebx) (new + 20) c.(ctx_ebp) c.(ctx_esi) c.(ctx_edi))
      s.(sg) c.(ctx_eip) s.(eflags) m' s.(ts_esp0) s.(ts_ss0)) /\
    load32 m' old = sp - 16 /\
    ctx_at m' (sp - 16) = mk_kcontext s.(rg).(edi) s.(rg).(esi) s.(rg).(ebx) s.(rg).(ebp) ret /\
    (forall x, ~ (sp - 16 <= x < sp) -> ~ (old <= x < old + 4) -> m' x = s.(mm) x) /\ bytes_ok m'.
Proof.
  intros [A R B [S1 S2] [N1 N2] Ha [O1 O2]] c sp. destruct s as [g sgs ip f m e0 s0]. destruct g as [ax cx dx bx sp0 bp si di].
  cbn [rg sg mm esp ecx ebx ebp esi edi eip eflags ts_esp0 ts_ss0] in *. subst sp. rename sp0 into sp.
  destruct A as (A1 & A2 & A3 & _). unfold apart in *.
  assert (U : forall x, 0 <= x < 2 ^ 32 -> u32 x = x) by (intros; by apply u32_small).
  set (m4 := store32 (store32 (store32 (store32 m (sp - 4) bp) (sp - 8) bx) (sp - 12) si) (sp - 16) di).
  assert (P : pushed m sp (sp - 16) m4 [di; si; bx; bp]).
  { pose proof (R EBP). pose proof (R EBX). pose proof (R ESI). pose proof (R EDI). cbn [get_reg ebp ebx esi edi] in *. split; [cbn; lia| | |].
    - unfold m4. cbn [stack]. replace (sp - 16 + 4) with (sp - 12) by lia. replace (sp - 12 + 4) with (sp - 8) by lia.
      replace (sp - 8 + 4) with (sp - 4) by lia. split_and!; repeat (rewrite load32_store32_ne by lia); done || by apply load32_store32_eq.
    - intros x Hx. unfold m4. by rewrite !store32_frame by lia.
    - by repeat apply store32_bytes. }
  assert (Hc : forall k, 0 <= k <= 16 -> load32 (store32 m4 old (sp - 16)) (new + k) = load32 m (new + k)).
  { intros k Hk. rewrite load32_store32_ne by lia. unfold m4. by rewrite !load32_store32_ne by lia. }
  exists (store32 m4 old (sp - 16)). split.
  - unfold swtch. do 2 asm_step. replace (sp + 8) with (sp + 4 + 4) by lia. rewrite A2, A3. do 4 asm_step. fold m4. do 7 asm_step.
    pose proof (Hc 0 ltac:(lia)) as Hc0. rewrite !Z.add_0_r in Hc0. rewrite Hc0, !Hc by lia. reflexivity.
  - destruct P as [_ P2 P3 P4]. split_and!.
    + apply load32_store32_eq. unfold is_u32. lia.
    + apply ctx_at_stack. apply (stack_ext m4); [intros x Hx; apply store32_frame; cbn in Hx; lia|].
      cbn [stack] in *. destruct P2 as (Q1 & Q2 & Q3 & Q4 & _). split_and!; try done.
      rewrite <- A1. replace (sp - 16 + 4 + 4 + 4 + 4) with sp by lia. apply load32_ext. intros x Hx. apply P3. lia.
    + intros x H1 H2. rewrite store32_frame by lia. apply P3. lia.
    + by apply store32_bytes.
Qed.

(** What code on another stack may do between two switches: the frame of the
    sleeping thread, and the place where its context is, are as they were. *)
Definition keeps (m m' : mem) (a n : Z) : Prop := forall x, a <= x < a + n -> m' x = m x.

Lemma ctx_at_keeps m m' a : keeps m m' a 20 -> ctx_at m' a = ctx_at m a.
Proof. intros K. unfold ctx_at. f_equal; apply load32_ext; intros x Hx; apply K; lia. Qed.

(** C12. Threads are coroutines.  If a thread calls [swtch] to save itself in
    [*old], and later some other thread calls [swtch] with what [*old] holds,
    the frame of the first being as it left it, then the first thread returns
    from its call: at its return address, on its stack with the return
    address popped, and with the registers that C code expects a call to
    keep.  The second call starts the thread whose context [new] points to
    with the registers of that context. *)
Theorem swtch_resumes s ret old new s1 s2 ret2 old2 :
  swtch_call s ret old new -> execute idt swtch s = Ok s1 ->
  swtch_call s2 ret2 old2 (load32 s1.(mm) old) -> keeps s1.(mm) s2.(mm) (s.(rg).(esp) - 16) 20 ->
  let c := ctx_at s.(mm) new in
  s1.(eip) = c.(ctx_eip) /\ s1.(rg).(esp) = new + 20 /\
  (s1.(rg).(ebx), s1.(rg).(ebp), s1.(rg).(esi), s1.(rg).(edi)) = (c.(ctx_ebx), c.(ctx_ebp), c.(ctx_esi), c.(ctx_edi)) /\
  exists s3, execute idt swtch s2 = Ok s3 /\ s3.(eip) = ret /\ s3.(rg).(esp) = s.(rg).(esp) + 4 /\
    (s3.(rg).(ebx), s3.(rg).(ebp), s3.(rg).(esi), s3.(rg).(edi)) = (s.(rg).(ebx), s.(rg).(ebp), s.(rg).(esi), s.(rg).(edi)).
Proof.
  intros W R W2 K c. destruct (swtch_run s ret old new W) as (m1 & R1 & E1 & C1 & _). rewrite R in R1. injection R1 as ->.
  cbn [rg sg eip mm eax ecx edx ebx esp ebp esi edi] in *. split_and!; try done. rewrite E1 in W2.
  destruct (swtch_run s2 ret2 old2 _ W2) as (m3 & R3 & _). eexists. split; [exact R3|].
  rewrite (ctx_at_keeps m1 s2.(mm)) by done. rewrite C1.
  cbn [rg eip esp ebx ebp esi edi ctx_eip ctx_ebx ctx_ebp ctx_esi ctx_edi]. split_and!; [done|lia|done].
Qed.

End Swtch.

(** ** Entering the kernel *)

(** The state [s] is [s0] but for words pushed on the stack. *)
Record grown (m0 : mem) (tp : Z) (s0 s : cpust) (ws : list Z) : Prop := {
  gr_pushed : pushed m0 tp s.(rg).(esp) s.(mm) ws;
  gr_regs : set_reg s.(rg) ESP 0 = set_reg s0.(rg) ESP 0;
  gr_segs : s.(sg) = s0.(sg);
  gr_eip : s.(eip) = s0.(eip);
  gr_flags : s.(eflags) = s0.(eflags);
  gr_ts : s.(ts_esp0) = s0.(ts_esp0) /\ s.(ts_ss0) = s0.(ts_ss0)
}.

Lemma gr_get m0 tp s0 s ws r : grown m0 tp s0 s ws -> r <> ESP -> get_reg s.(rg) r = get_reg s0.(rg) r.
Proof.
  intros G Hr. pose proof (gr_regs _ _ _ _ _ G) as E. destruct s.(rg), s0.(rg). cbn in E. injection E as -> -> -> -> -> -> ->. by destruct r.
Qed.

Lemma gr_esp m0 tp s0 s ws : grown m0 tp s0 s ws -> s.(rg).(esp) = tp - 4 * Z.of_nat (length ws).
Proof. intros G. apply G. Qed.

Section Enter.
Context (m0 : mem) (tp : Z).
Hypothesis Htop : is_u32 tp.

Abbreviation grows := (grown m0 tp).

Lemma grows_push v s0 s ws : grows s0 s ws -> is_u32 v -> 4 * Z.of_nat (S (length ws)) <= tp -> grows s0 (push v s) (v :: ws).
Proof. intros [G1 G2 G3 G4 G5 G6] Hv Hl. split; try done. by apply push_pushed. Qed.

Lemma grows_push16 v s0 s ws : grows s0 s ws -> 0 <= v < 65536 -> 4 * Z.of_nat (S (length ws)) <= tp ->
  exists w, u16 w = v /\ grows s0 (push16 v s) (w :: ws).
Proof.
  intros [G1 G2 G3 G4 G5 G6] Hv Hl. destruct (push16_pushed m0 tp Htop v s ws G1 Hv Hl) as (w & Hw & P). exists w. split; [done|]. by split.
Qed.

Lemma grows_eip v s0 s ws : grows s0 s ws -> grows (with_eip s0 v) (with_eip s v) ws.
Proof. intros [G1 G2 G3 G4 G5 G6]. by split. Qed.

Lemma grows_eflags v s0 s ws : grows s0 s ws -> grows (with_eflags s0 v) (with_eflags s v) ws.
Proof. intros [G1 G2 G3 G4 G5 G6]. by split. Qed.

Lemma grows_sreg r v s0 s ws : grows s0 s ws -> grows (with_sreg s0 r v) (with_sreg s r v) ws.
Proof. intros [G1 G2 G3 G4 G5 G6]. split; try done. cbn [with_sreg sg]. by rewrite G3. Qed.

Lemma grows_reg r v s0 s ws : grows s0 s ws -> r <> ESP -> grows (with_reg s0 r v) (with_reg s r v) ws.
Proof.
  intros [G1 G2 G3 G4 G5 G6] Hr. split; try done.
  - cbn [with_reg rg mm]. replace (esp (set_reg (rg s) r v)) with (esp (rg s)); [done|]. by destruct (rg s), r.
  - cbn [with_reg rg]. destruct s.(rg), s0.(rg). cbn in G2. injection G2 as -> -> -> -> -> -> ->. by destruct r.
Qed.

(** All the general registers at once. *)
Lemma grows_pushal idt s0 s ws : grows s0 s ws -> regs_ok s0.(rg) -> 4 * Z.of_nat (8 + length ws) <= tp ->
  let g := s0.(rg) in
  exists s', exec1 idt Pushal s = Ok s' /\
    grows s0 s' ([g.(edi); g.(esi); g.(ebp); tp - 4 * Z.of_nat (length ws); g.(ebx); g.(edx); g.(ecx); g.(eax)] ++ ws).
Proof.
  intros G R Hl. cbv zeta. pose proof (fun r => gr_get _ _ _ _ _ r G) as E. pose proof (gr_esp _ _ _ _ _ G) as Es. cbn [exec1].
  pose proof (E EDI ltac:(done)). pose proof (E ESI ltac:(done)). pose proof (E EBP ltac:(done)). pose proof (E EBX ltac:(done)).
  pose proof (E EDX ltac:(done)). pose proof (E ECX ltac:(done)). pose proof (E EAX ltac:(done)). cbn [get_reg] in *.
  pose proof (R EDI). pose proof (R ESI). pose proof (R EBP). pose proof (R EBX). pose proof (R EDX). pose proof (R ECX). pose proof (R EAX).
  cbn [get_reg] in *. destruct s.(rg) as [ax cx dx bx sp bp si di]. cbn [eax ecx edx ebx esp ebp esi edi] in *. subst.
  eexists. split; [reflexivity|]. cbn [app]. unfold is_u32 in Htop.
  repeat (apply grows_push; [|done || (unfold is_u32; lia)|cbn [length]; lia]). done.
Qed.

Lemma exec_push_s idt r s0 s ws : grows s0 s ws -> segs_ok s0.(sg) -> 4 * Z.of_nat (S (length ws)) <= tp ->
  exists w s', exec1 idt (Pushl_s r) s = Ok s' /\ u16 w = get_sreg s0.(sg) r /\ grows s0 s' (w :: ws).
Proof.
  intros G Hs Hl. destruct (grows_push16 (get_sreg s0.(sg) r) s0 s ws G (Hs r) Hl) as (w & Hw & G'). exists w, (push16 (get_sreg s0.(sg) r) s).
  split_and!; [|done|done]. cbn [exec1]. by rewrite (gr_segs _ _ _ _ _ G).
Qed.

Lemma vector_run idt alltraps_at n e s0 s ws :
  grows s0 s ((if has_err n then [e] else []) ++ ws) -> (has_err n = false -> e = 0) -> is_u32 n -> 4 * Z.of_nat (2 + length ws) <= tp ->
  exists s', execute idt (vector alltraps_at n) s = Ok s' /\ grows (with_eip s0 alltraps_at) s' (n :: e :: ws).
Proof.
  intros G He Hn Hl. unfold vector. destruct (has_err n); cbn [app] in *; eexists; (split; [reflexivity|]).
  - apply grows_eip, grows_push; [done|done|cbn [length]; lia].
  - rewrite (He eq_refl). apply grows_eip, grows_push; [apply grows_push; [done|unfold is_u32; lia|lia]|done|cbn [length]; lia].
Qed.

Lemma movw_low x v : 0 <= v < 65536 -> u16 (x - x mod 65536 + v) = v.
Proof.
  intros Hv. unfold u16. change (2 ^ 16) with 65536. pose proof (Z.div_mod x 65536). replace (x - x mod 65536 + v) with (v + x / 65536 * 65536) by lia.
  rewrite Z.mod_add by lia. by apply Z.mod_small.
Qed.

(** [alltraps] up to the call of [trap], with the trap number and the error
    code on the stack. *)
Lemma alltraps_run idt trap_at back s0 s ws :
  grows s0 s ws -> is_u32 back -> regs_ok s0.(rg) -> segs_ok s0.(sg) -> 4 * Z.of_nat (14 + length ws) <= tp ->
  let g := s0.(rg) in let sp := tp - 4 * Z.of_nat (4 + length ws) in
  exists s' wd we wf wg, execute idt (alltraps trap_at back) s = Ok s' /\
    u16 wd = s0.(sg).(ds) /\ u16 we = s0.(sg).(es) /\ u16 wf = s0.(sg).(fs) /\ u16 wg = s0.(sg).(gs) /\
    s'.(eip) = trap_at /\ s'.(sg) = mk_segs s0.(sg).(cs) 16 16 s0.(sg).(fs) s0.(sg).(gs) s0.(sg).(ss) /\
    s'.(eflags) = s0.(eflags) /\ s'.(ts_esp0) = s0.(ts_esp0) /\ s'.(ts_ss0) = s0.(ts_ss0) /\
    pushed m0 tp s'.(rg).(esp) s'.(mm) ([back; sp - 32; g.(edi); g.(esi); g.(ebp); sp; g.(ebx); g.(edx); g.(ecx); g.(eax); wg; wf; we; wd] ++ ws).
Proof.
  intros G Hb R Sg Hl. cbv zeta. unfold is_u32 in Htop. unfold alltraps.
  destruct (exec_push_s idt DS _ _ _ G Sg ltac:(lia)) as (wd & s1 & R1 & E1 & G1).
  destruct (exec_push_s idt ES _ _ _ G1 Sg ltac:(cbn [length]; lia)) as (we & s2 & R2 & E2 & G2).
  destruct (exec_push_s idt FS _ _ _ G2 Sg ltac:(cbn [length]; lia)) as (wf & s3 & R3 & E3 & G3).
  destruct (exec_push_s idt GS _ _ _ G3 Sg ltac:(cbn [length]; lia)) as (wg & s4 & R4 & E4 & G4).
  destruct (grows_pushal idt _ _ _ G4 R ltac:(cbn [length]; lia)) as (s5 & R5 & G5). cbn [length app] in G5.
  rewrite (exec_cons _ _ _ _ _ R1), (exec_cons _ _ _ _ _ R2), (exec_cons _ _ _ _ _ R3), (exec_cons _ _ _ _ _ R4), (exec_cons _ _ _ _ _ R5).
  set (v := eax (rg s5) - eax (rg s5) mod 65536 + 16). assert (Hv : u16 v = 16) by (apply movw_low; lia).
  pose proof (grows_sreg ES 16 _ _ _ (grows_sreg DS 16 _ _ _ (grows_reg EAX v _ _ _ G5 ltac:(done)))) as G8.
  set (s8 := with_sreg (with_sreg (with_reg s5 EAX v) DS 16) ES 16) in G8.
  assert (R8 : forall c, execute idt (Movw_ir (Z.shiftl SEG_KDATA 3) EAX :: Movw_rs EAX DS :: Movw_rs EAX ES :: c) s5 = execute idt c s8).
  { intros c. rewrite (exec_cons idt _ _ s5 (with_reg s5 EAX v)) by reflexivity.
    rewrite (exec_cons idt _ _ _ (with_sreg (with_reg s5 EAX v) DS 16)) 
      by (change (Ok (with_sreg (with_reg s5 EAX v) DS (u16 v)) = Ok (with_sreg (with_reg s5 EAX v) DS 16)); by rewrite Hv).
    apply exec_cons. change (Ok (with_sreg (with_sreg (with_reg s5 EAX v) DS 16) ES (u16 v)) = Ok s8). by rewrite Hv. }
  rewrite R8. erewrite exec_cons by reflexivity. cbn [get_reg].
  pose proof (gr_esp _ _ _ _ _ G8) as Es. cbn [length] in Es.
  assert (G9 := grows_push (esp (rg s8)) _ _ _ G8). cbn [length] in G9. specialize (G9 ltac:(unfold is_u32; lia) ltac:(lia)).
  assert (G10 := grows_eip trap_at _ _ _ (grows_push back _ _ _ G9 Hb ltac:(cbn [length]; lia))).
  exists (with_eip (push back (push (esp (rg s8)) s8)) trap_at), wd, we, wf, wg. destruct G10 as [P1 P2 P3 P4 P5 P6].
  split_and!; try done; try apply P6.
  match type of P1 with pushed _ _ _ _ ?l => enough (E : [back; tp - 4 * Z.of_nat (4 + length ws) - 32; edi (rg s0); esi (rg s0); ebp (rg s0);
    tp - 4 * Z.of_nat (4 + length ws); ebx (rg s0); edx (rg s0); ecx (rg s0); eax (rg s0); wg; wf; we; wd] ++ ws = l) by (by rewrite E) end.
  cbn [app Nat.add]. do 2 f_equal. lia.
Qed.
End Enter.

(** ** Gates *)

Lemma gate_offset off : Z.lor (Z.shiftl (Z.shiftr off 16) 16) (Z.land off 65535) = off.
Proof.
  change 65535 with (Z.ones 16). apply Z.bits_inj'. intros k Hk. rewrite Z.lor_spec, Z.land_spec. destruct (Z.ltb_spec k 16).
  - by rewrite Z.shiftl_spec_low, Z.ones_spec_low, andb_true_r by lia.
  - rewrite Z.shiftl_spec, Z.shiftr_spec, Z.ones_spec_high, andb_false_r, orb_false_r by lia. f_equal. lia.
Qed.

Lemma tvinit_gate vectors n : 0 <= n < 256 ->
  tvinit vectors !! Z.to_nat n = Some (SETGATE (n =? T_SYSCALL) 8 (vectors n) (if n =? T_SYSCALL then DPL_USER else 0)).
Proof.
  intros Hn. unfold tvinit. destruct (Z.eqb_spec n T_SYSCALL) as [->|Hne].
  - apply list_lookup_insert_eq. rewrite length_map, length_seq. unfold T_SYSCALL. lia.
  - rewrite list_lookup_insert_ne by (unfold T_SYSCALL in *; lia). change (map ?f ?l) with (f <$> l). rewrite list_lookup_fmap, lookup_seq_lt by lia.
    cbn. by rewrite Z2Nat.id by lia.
Qed.

Record cpu_ok (s : cpust) : Prop := {
  ck_regs : regs_ok s.(rg);
  ck_segs : segs_ok s.(sg);
  ck_eip : is_u32 s.(eip);
  ck_flags : is_u32 s.(eflags);
  ck_bytes : bytes_ok s.(mm)
}.

(** In user mode, with room on the kernel stack. *)
Record user_mode (s : cpust) : Prop := {
  um_cpu : cpu_ok s;
  um_cpl : cpl s = DPL_USER;
  um_stack : 84 <= s.(ts_esp0) < 2 ^ 32;
  um_ss0 : 0 <= s.(ts_ss0) < 65536;
  um_data : outer_seg s.(sg).(ds) = s.(sg).(ds) /\ outer_seg s.(sg).(es) = s.(sg).(es) /\
    outer_seg s.(sg).(fs) = s.(sg).(fs) /\ outer_seg s.(sg).(gs) = s.(sg).(gs)
}.

Definition err_ok (n : Z) (err : option Z) : Prop :=
  match err with Some e => has_err n = true /\ is_u32 e | None => has_err n = false end.

Definition err_word (err : option Z) : Z := default 0 err.
Definition err_words (err : option Z) : list Z := match err with Some e => [e] | None => [] end.

(** The state that the handler starts with, the stack aside. *)
Definition handler_base (s : cpust) (g : regs) (sel : segs) (istrap : bool) (off : Z) : cpust :=
  mk_cpust g sel off (handler_flags istrap s.(eflags)) s.(mm) s.(ts_esp0) s.(ts_ss0).

Lemma enter_tail m0 tp istrap off d err f c ip b s ws :
  is_u32 tp -> is_u32 f -> 0 <= c < 65536 -> is_u32 ip -> (forall e, err = Some e -> is_u32 e) ->
  grown m0 tp b s ws -> 4 * Z.of_nat (4 + length ws) <= tp ->
  let g := SETGATE istrap 8 off d in
  let s2 := push ip (push16 c (push f s)) in
  let s3 := match err with Some e => push e s2 | None => s2 end in
  exists wc, u16 wc = c /\
    grown m0 tp (mk_cpust b.(rg) (set_sreg b.(sg) CS 8) off (handler_flags istrap f) b.(mm) b.(ts_esp0) b.(ts_ss0))
      (with_eflags (with_eip (with_sreg s3 CS g.(g_cs)) (Z.lor (Z.shiftl g.(off_31_16) 16) g.(off_15_0))) (handler_flags (g.(g_type) =? STS_TG32) f))
      (err_words err ++ [ip; wc; f] ++ ws).
Proof.
  intros Ht Hf Hc Hip He G Hl g s2 s3. pose proof (grows_push m0 tp Ht f b s ws G Hf ltac:(lia)) as G1.
  destruct (grows_push16 m0 tp Ht c _ _ _ G1 Hc ltac:(cbn [length]; lia)) as (wc & Ec & G2).
  pose proof (grows_push m0 tp Ht ip _ _ _ G2 Hip ltac:(cbn [length]; lia)) as G3. fold s2 in G3.
  assert (G4 : grown m0 tp b s3 (err_words err ++ [ip; wc; f] ++ ws)).
  { unfold s3. destruct err as [e|]; [|done]. apply grows_push; [done|done|by apply He|cbn [length app]; lia]. }
  exists wc. split; [done|]. unfold g. cbn [SETGATE g_cs off_31_16 off_15_0 g_type]. rewrite gate_offset.
  replace ((if istrap then STS_TG32 else STS_IG32) =? STS_TG32) with istrap by (by destruct istrap).
  pose proof (grows_eflags m0 tp (handler_flags istrap f) _ _ _ (grows_eip m0 tp off _ _ _ (grows_sreg m0 tp CS 8 _ _ _ G4))) as G5. exact G5.
Qed.

Lemma enter_user istrap off d err s :
  user_mode s -> (forall e, err = Some e -> is_u32 e) ->
  exists wc wss, u16 wc = s.(sg).(cs) /\ u16 wss = s.(sg).(ss) /\
    grown s.(mm) s.(ts_esp0) (handler_base s (set_reg s.(rg) ESP s.(ts_esp0)) (set_sreg (set_sreg s.(sg) SS s.(ts_ss0)) CS 8) istrap off)
      (enter_gate (SETGATE istrap 8 off d) err s) (err_words err ++ [s.(eip); wc; s.(eflags); s.(rg).(esp); wss]).
Proof.
  intros [[R S E F B] Hc Hs Hss _] He. assert (Ht : is_u32 s.(ts_esp0)) by (unfold is_u32; lia). unfold enter_gate. rewrite Hc.
  change (Z.land (g_cs (SETGATE istrap 8 off d)) 3 <? DPL_USER) with true. cbv iota zeta.
  set (s0 := with_sreg (with_reg s ESP s.(ts_esp0)) SS s.(ts_ss0)).
  assert (G0 : grown s.(mm) s.(ts_esp0) s0 s0 []) by (split; try done; by apply pushed_nil).
  destruct (grows_push16 _ _ Ht (ss (sg s)) _ _ _ G0 (S SS) ltac:(cbn [length]; lia)) as (wss & Ess & G1).
  pose proof (grows_push _ _ Ht (esp (rg s)) _ _ _ G1 (R ESP) ltac:(cbn [length]; lia)) as G2.
  destruct (enter_tail _ _ istrap off d err s.(eflags) (cs (sg s)) s.(eip) _ _ _ Ht F (S CS) E He G2 ltac:(cbn [length]; lia)) as (wc & Ec & G3).
  exists wc, wss. split_and!; [done|done|exact G3].
Qed.

(** The trap frame of a trap in user mode. *)
Definition user_frame (s : cpust) (n : Z) (err : option Z) : trapframe :=
  mk_trapframe s.(rg).(edi) s.(rg).(esi) s.(rg).(ebp) (s.(ts_esp0) - 44) s.(rg).(ebx) s.(rg).(edx) s.(rg).(ecx) s.(rg).(eax)
    s.(sg).(gs) s.(sg).(fs) s.(sg).(es) s.(sg).(ds) n (err_word err) s.(eip) s.(sg).(cs) s.(eflags) s.(rg).(esp) s.(sg).(ss).

(** The kernel stack when [trap] is called: its return address, its argument,
    and the trap frame that the argument points to. *)
Record in_trap (s s' : cpust) (n : Z) (err : option Z) (trap_at back : Z) : Prop := {
  it_eip : s'.(eip) = trap_at;
  it_esp : s'.(rg).(esp) = s.(ts_esp0) - 84;
  it_args : stack s'.(mm) (s.(ts_esp0) - 84) [back; s.(ts_esp0) - 76];
  it_frame : tf_at s'.(mm) (s.(ts_esp0) - 76) = user_frame s n err;
  it_segs : s'.(sg) = mk_segs 8 16 16 s.(sg).(fs) s.(sg).(gs) s.(ts_ss0);
  it_flags : s'.(eflags) = handler_flags (n =? T_SYSCALL) s.(eflags);
  it_ts : s'.(ts_esp0) = s.(ts_esp0) /\ s'.(ts_ss0) = s.(ts_ss0);
  it_rest : forall x, ~ (s.(ts_esp0) - 84 <= x < s.(ts_esp0)) -> s'.(mm) x = s.(mm) x;
  it_bytes : bytes_ok s'.(mm)
}.

(** ** Leaving the kernel *)

(** The state that a trap frame describes; [outer] for one of user mode. *)
Definition resumed (s : cpust) (t : trapframe) : cpust :=
  mk_cpust (mk_regs t.(tf_eax) t.(tf_ecx) t.(tf_edx) t.(tf_ebx) t.(tf_esp) t.(tf_ebp) t.(tf_esi) t.(tf_edi))
    (mk_segs t.(tf_cs) (outer_seg t.(tf_ds)) (outer_seg t.(tf_es)) (outer_seg t.(tf_fs)) (outer_seg t.(tf_gs)) t.(tf_ss))
    t.(tf_eip) t.(tf_eflags) s.(mm) s.(ts_esp0) s.(ts_ss0).

(** [trapret] loads the registers from the trap frame that the stack pointer
    points to. *)
Lemma trapret_run idt s a : s.(rg).(esp) = a -> 0 <= a -> a + 76 <= 2 ^ 32 -> cpl s = 0 ->
  let t := tf_at s.(mm) a in
  Z.land t.(tf_cs) 3 = DPL_USER -> execute idt trapret s = Ok (resumed s t).
Proof.
  intros E H1 H2 Hc t Hu. destruct s as [[ax cx dx bx sp bp si di] [c d e f g sse] ip fl m e0 s0]. cbn [rg esp mm] in *. subst sp.
  unfold trapret, t in *. do 6 asm_step. cbn [execute exec1]. unfold mbind, outcome_bind, iret.
  cbn [rg sg mm esp set_reg eip eflags ts_esp0 ts_ss0]. addr_small. addr_norm. rewrite Z.add_0_r.
  unfold cpl in *. cbn [sg cs] in *. rewrite Hc. cbn [tf_at tf_cs] in Hu. rewrite Hu. reflexivity.
Qed.

Section Traps.
Context (vectors : Z -> Z) (alltraps_at trap_at back : Z).
Hypothesis Hback : is_u32 back.

Abbreviation idt := (tvinit vectors).

(** From the handler of vector [n] to the call of [trap]. *)
Definition handle (n : Z) (s : cpust) : outcome cpust :=
  s1 ← execute idt (vector alltraps_at n) s;
  execute idt (alltraps trap_at back) s1.

Lemma handle_user n err s : 0 <= n < 256 -> err_ok n err -> user_mode s ->
  exists s', handle n (enter_gate (SETGATE (n =? T_SYSCALL) 8 (vectors n) (if n =? T_SYSCALL then DPL_USER else 0)) err s) = Ok s' /\
    in_trap s s' n err trap_at back.
Proof.
  intros Hn He U. pose proof U as [[R S _ _ _] _ Hst Hss _]. assert (Ht : is_u32 s.(ts_esp0)) by (unfold is_u32; lia).
  destruct (enter_user (n =? T_SYSCALL) (vectors n) (if n =? T_SYSCALL then DPL_USER else 0) err s U) as (wc & wss & Ec & Es & G).
  { intros e ->. apply He. }
  set (b := handler_base _ _ _ _ _) in G. set (s1 := enter_gate _ _ _) in *.
  assert (Rb : regs_ok b.(rg)) by (intros r; destruct r; first [apply Ht|apply (R EAX)|apply (R ECX)|apply (R EDX)|apply (R EBX)|apply (R EBP)|apply (R ESI)|apply (R EDI)]).
  assert (Sb : segs_ok b.(sg)).
  { intros r. destruct r; cbn; try lia; apply (S DS) || apply (S ES) || apply (S FS) || apply (S GS). }
  destruct (vector_run s.(mm) _ Ht idt alltraps_at n (err_word err) b s1 [s.(eip); wc; s.(eflags); s.(rg).(esp); wss]) as (s2 & R2 & G2).
  - destruct err; [destruct He as [-> ?]|cbn [err_ok] in He; rewrite He]; exact G.
  - destruct err; [by destruct He as [-> _]|done].
  - unfold is_u32. lia.
  - cbn [length]. lia.
  - destruct (alltraps_run s.(mm) _ Ht idt trap_at back _ _ _ G2 Hback Rb Sb ltac:(cbn [length]; lia))
      as (s3 & wd & we & wf & wg & R3 & E1 & E2 & E3 & E4 & H1 & H2 & H3 & H4 & H5 & P).
    exists s3. unfold handle, mbind, outcome_bind. rewrite R2. split; [exact R3|].
    cbn [length app b handler_base with_eip rg set_reg edi esi ebp ebx edx ecx eax] in P. destruct P as [P1 P2 P3 P4]. cbn [length] in P1.
    assert (Esp : s3.(rg).(esp) = s.(ts_esp0) - 84) by lia. rewrite Esp in P2, P3. split; try done.
    + destruct P2 as (Q1 & Q2 & _). cbn [stack]. split_and!; [done|rewrite Q2; lia|done].
    + destruct P2 as (_ & _ & P2). replace (s.(ts_esp0) - 84 + 4 + 4) with (s.(ts_esp0) - 76) in P2 by lia.
      rewrite (tf_at_stack _ _ _ _ _ _ _ _ _ _ _ _ _ _ _ _ _ _ _ _ _ P2). unfold user_frame. rewrite E1, E2, E3, E4, Ec, Es. cbn [length b handler_base sg set_sreg with_eip gs fs es ds].
      f_equal.
Qed.

(** [trap] has returned to [alltraps]: on the kernel stack of the process, in
    the kernel. *)
Record trap_returned (s s2 : cpust) : Prop := {
  tn_eip : s2.(eip) = back;
  tn_esp : s2.(rg).(esp) = s.(ts_esp0) - 80;
  tn_cpl : cpl s2 = 0
}.

Lemma alltraps_back_run s s2 : 84 <= s.(ts_esp0) < 2 ^ 32 -> trap_returned s s2 ->
  let t := tf_at s2.(mm) (s.(ts_esp0) - 76) in
  Z.land t.(tf_cs) 3 = DPL_USER -> execute idt alltraps_back s2 = Ok (resumed s2 t).
Proof.
  intros Ht [H1 H2 H3] t Hu. unfold alltraps_back. rewrite (exec_cons idt _ _ s2 (with_reg s2 ESP (s.(ts_esp0) - 76))).
  - apply (trapret_run idt (with_reg s2 ESP (s.(ts_esp0) - 76)) (s.(ts_esp0) - 76)); [done|lia|lia|done|done].
  - cbn [exec1 get_reg]. rewrite H2, u32_small by (unfold is_u32; lia). do 2 f_equal. lia.
Qed.

(** The state that returns to the user, when the kernel left the frame as it
    was but for the result in [eax]. *)
Lemma resumed_user s s2 n err v : user_mode s ->
  resumed s2 (with_tf_eax (user_frame s n err) v) =
    mk_cpust (set_reg s.(rg) EAX v) s.(sg) s.(eip) s.(eflags) s2.(mm) s2.(ts_esp0) s2.(ts_ss0).
Proof.
  intros U. destruct (um_data _ U) as (E1 & E2 & E3 & E4). unfold resumed, user_frame, with_tf_eax.
  cbn [tf_eax tf_ecx tf_edx tf_ebx tf_esp tf_ebp tf_esi tf_edi tf_cs tf_ds tf_es tf_fs tf_gs tf_ss tf_eip tf_eflags].
  rewrite E1, E2, E3, E4. destruct s as [g sgs ? ? ? ? ?]. cbn [sg rg]. by destruct sgs.
Qed.

(** C11. A trap and the return from it are invisible to the user program.  Any
    interrupt or fault in user mode, through its gate, its vector and
    [alltraps], ends in a call of [trap] whose argument points to a trap frame
    with every register of the program, the vector's number and the error code
    (0 if the CPU pushes none), and nothing outside 84 bytes of the kernel
    stack was written.  When [trap] returns, whatever it did to the other
    registers and to memory, [alltraps] and [trapret] resume the program that
    the frame then describes; if that is the frame as it was but for a result
    in [eax], all the program's registers but [eax] are as before the trap. *)
Theorem trap_roundtrip n err s :
  0 <= n < 256 -> err_ok n err -> user_mode s ->
  exists s1, (s0 ← interrupt idt n err s; handle n s0) = Ok s1 /\ in_trap s s1 n err trap_at back /\
  forall s2, trap_returned s s2 ->
    let t := tf_at s2.(mm) (s.(ts_esp0) - 76) in
    (Z.land t.(tf_cs) 3 = DPL_USER -> execute idt alltraps_back s2 = Ok (resumed s2 t)) /\
    (forall v, t = with_tf_eax (user_frame s n err) v ->
       execute idt alltraps_back s2 =
         Ok (mk_cpust (set_reg s.(rg) EAX v) s.(sg) s.(eip) s.(eflags) s2.(mm) s2.(ts_esp0) s2.(ts_ss0))).
Proof.
  intros Hn He U. destruct (handle_user n err s Hn He U) as (s1 & R & I). exists s1. unfold interrupt. rewrite tvinit_gate by done.
  split; [exact R|]. split; [exact I|]. intros s2 B. pose proof (um_stack _ U) as Ht. split.
  - by apply alltraps_back_run.
  - intros v Et. rewrite (alltraps_back_run s s2 Ht B), Et; [by rewrite resumed_user|]. rewrite Et. apply (um_cpl _ U).
Qed.

(** A user program reaches no gate but that of system calls with [int]. *)
Lemma int_guarded n s : 0 <= n < 256 -> n <> T_SYSCALL -> user_mode s ->
  int idt n s = interrupt idt T_GPFLT (Some (8 * n + 2)) s.
Proof.
  intros Hn Hne U. unfold int. rewrite tvinit_gate by done. rewrite (um_cpl _ U). destruct (Z.eqb_spec n T_SYSCALL); [done|]. done.
Qed.

(** C21. The system call stubs of usys.S implement C calls.  A stub called with
    its arguments on the user stack enters [trap] with a frame that has the
    number of the call in [eax] and the user stack pointer, so that argument
    [i] lies at [esp + 4 + 4 * i], where [argint] looks for it.  When [trap]
    returns with a result in [eax] of the frame, the stub returns to its caller
    with that result, the return address popped, and every other register
    unchanged. *)
Theorem stub_calls num next s ret :
  user_mode s -> is_u32 num -> is_u32 next -> stack s.(mm) s.(rg).(esp) [ret] ->
  0 <= s.(rg).(esp) -> s.(rg).(esp) + 4 <= s.(ts_esp0) - 84 ->
  let u := with_eip (with_reg s EAX num) next in
  exists s1, (s0 ← execute idt (stub num next) s; handle T_SYSCALL s0) = Ok s1 /\ in_trap u s1 T_SYSCALL None trap_at back /\
    (forall i, s.(rg).(esp) + 4 + 4 * i + 4 <= s.(ts_esp0) - 84 ->
       load32 s1.(mm) ((user_frame u T_SYSCALL None).(tf_esp) + 4 + 4 * i) = load32 s.(mm) (s.(rg).(esp) + 4 + 4 * i)) /\
    forall s2 v, trap_returned u s2 -> keeps s1.(mm) s2.(mm) s.(rg).(esp) 4 ->
      tf_at s2.(mm) (s.(ts_esp0) - 76) = with_tf_eax (user_frame u T_SYSCALL None) v ->
      exists s3, (s' ← execute idt alltraps_back s2; execute idt stub_back s') = Ok s3 /\
        s3.(eip) = ret /\ s3.(rg) = set_reg (set_reg s.(rg) EAX v) ESP (s.(rg).(esp) + 4) /\
        s3.(sg) = s.(sg) /\ s3.(eflags) = s.(eflags) /\ s3.(mm) = s2.(mm).
Proof.
  intros U Hnum Hnext Hret He1 He2 u. pose proof (um_stack _ U) as Ht.
  assert (Uu : user_mode u).
  { destruct U as [[R S E F B] U2 U3 U4 U5]. split; try done. split; try done. intros r. destruct r; try done; apply (R _) || first
      [apply (R ECX)|apply (R EDX)|apply (R EBX)|apply (R ESP)|apply (R EBP)|apply (R ESI)|apply (R EDI)]. }
  destruct (handle_user T_SYSCALL None u ltac:(done) ltac:(done) Uu) as (s1 & R & I). exists s1.
  assert (Ru : execute idt (stub num next) s = Ok (enter_gate (SETGATE true 8 (vectors T_SYSCALL) DPL_USER) None u)).
  { unfold stub. rewrite (exec_cons idt _ _ s (with_reg s EAX num)) by done. cbn [execute exec1]. unfold mbind, outcome_bind, int. fold u.
    rewrite tvinit_gate by done. rewrite (um_cpl _ Uu). done. }
  assert (Kp : forall a, a + 4 <= s.(ts_esp0) - 84 -> load32 s1.(mm) a = load32 s.(mm) a).
  { intros a Ha. apply load32_ext. intros x Hx. apply (it_rest _ _ _ _ _ _ I). change (ts_esp0 u) with (ts_esp0 s). lia. }
  unfold mbind, outcome_bind. rewrite Ru. split_and!; [exact R|exact I| |].
  - intros i Hi. apply Kp. lia.
  - intros s2 v B K Et. pose proof (alltraps_back_run u s2 Ht B) as Rb. change (ts_esp0 u) with (ts_esp0 s) in Rb. cbv zeta in Rb. rewrite Et in Rb.
    rewrite Rb by apply (um_cpl _ Uu). rewrite resumed_user by done. eexists. split; [reflexivity|]. destruct Hret as [Hret _].
    unfold drop4, top, with_reg, with_eip. cbn [rg sg mm eip eflags esp set_reg u with_eip with_reg]. split_and!; try done.
    + rewrite <- Hret, <- (Kp (esp (rg s))) by lia. apply load32_ext. intros x Hx. apply K. lia.
    + rewrite u32_small by (unfold is_u32; lia). reflexivity.
Qed.

(** The first program: [start] of initcode.S enters [trap] with the number of
    [exec], and with "init" and "argv" where the kernel looks for the
    arguments. *)
Theorem initcode_execs argv init next s :
  user_mode s -> is_u32 argv -> is_u32 init -> is_u32 next -> 12 <= s.(rg).(esp) -> s.(rg).(esp) <= s.(ts_esp0) - 84 ->
  exists u s1, (s0 ← execute idt (initcode_start argv init next) s; handle T_SYSCALL s0) = Ok s1 /\
    in_trap u s1 T_SYSCALL None trap_at back /\
    let t := user_frame u T_SYSCALL None in
    t.(tf_eax) = SYS_exec /\ t.(tf_eip) = next /\ load32 s1.(mm) (t.(tf_esp) + 4 + 4 * 0) = init /\ load32 s1.(mm) (t.(tf_esp) + 4 + 4 * 1) = argv.
Proof.
  intros U Ha Hi Hn H1 H2. pose proof U as [[R Sg E F B] Uc Us Uss Ud]. pose proof (R ESP) as Hsp. cbn [get_reg] in Hsp. set (sp := s.(rg).(esp)) in *.
  assert (G0 : grown s.(mm) sp s s []) by (split; try done; by apply pushed_nil).
  pose proof (grows_push _ _ Hsp argv _ _ _ G0 Ha ltac:(cbn [length]; lia)) as G1.
  pose proof (grows_push _ _ Hsp init _ _ _ G1 Hi ltac:(cbn [length]; lia)) as G2.
  pose proof (grows_push _ _ Hsp 0 _ _ _ G2 ltac:(unfold is_u32; lia) ltac:(cbn [length]; lia)) as G3.
  pose proof (grows_eip _ _ next _ _ _ (grows_reg _ _ EAX SYS_exec _ _ _ G3 ltac:(done))) as G4.
  set (u := with_eip (with_reg (push 0 (push init (push argv s))) EAX SYS_exec) next) in G4.
  pose proof (gr_esp _ _ _ _ _ G4) as Eu. cbn [length] in Eu. destruct G4 as [[P1 P2 P3 P4] Gr Gs Ge Gf [Gt1 Gt2]].
  assert (Uu : user_mode u).
  { split; [split|..].
    - intros r. destruct r; try (unfold is_u32; cbn [get_reg]; lia); try done;
        first [apply (R ECX)|apply (R EDX)|apply (R EBX)|apply (R EBP)|apply (R ESI)|apply (R EDI)].
    - rewrite Gs. exact Sg.
    - done.
    - rewrite Gf. exact F.
    - exact P4.
    - unfold cpl. rewrite Gs. exact Uc.
    - rewrite Gt1. exact Us.
    - rewrite Gt2. exact Uss.
    - rewrite Gs. exact Ud. }
  destruct (handle_user T_SYSCALL None u ltac:(done) ltac:(done) Uu) as (s1 & Rh & I). exists u, s1. cbv zeta. split_and!; [|exact I|done|done|..].
  - unfold mbind at 1, outcome_bind at 1. replace (execute idt (initcode_start argv init next) s)
      with (Ok (enter_gate (SETGATE true 8 (vectors T_SYSCALL) DPL_USER) None u)); [exact Rh|].
    unfold initcode_start. do 4 (erewrite exec_cons by reflexivity). cbn [execute exec1]. unfold mbind, outcome_bind, int. fold u.
    rewrite tvinit_gate by done. by rewrite (um_cpl _ Uu).
  - cbn [user_frame tf_esp]. destruct P2 as (_ & Q & _). rewrite Z.mul_0_r, Z.add_0_r. etransitivity; [|exact Q]. apply load32_ext. intros x Hx.
    apply (it_rest _ _ _ _ _ _ I). rewrite Gt1. cbn [with_eip with_reg ts_esp0]. lia.
  - cbn [user_frame tf_esp]. destruct P2 as (_ & _ & Q & _). rewrite Z.mul_1_r. etransitivity; [|exact Q]. apply load32_ext. intros x Hx.
    apply (it_rest _ _ _ _ _ _ I). rewrite Gt1. cbn [with_eip with_reg ts_esp0]. lia.
Qed.

(** ** Interrupts in the kernel *)

Record kernel_mode (s : cpust) : Prop := {
  km_cpu : cpu_ok s;
  km_cpl : cpl s = 0;
  km_stack : 76 <= s.(rg).(esp)
}.

Lemma enter_kernel istrap off d err s :
  kernel_mode s -> (forall e, err = Some e -> is_u32 e) ->
  exists wc, u16 wc = s.(sg).(cs) /\
    grown s.(mm) s.(rg).(esp) (handler_base s s.(rg) (set_sreg s.(sg) CS 8) istrap off)
      (enter_gate (SETGATE istrap 8 off d) err s) (err_words err ++ [s.(eip); wc; s.(eflags)]).
Proof.
  intros [[R S E F B] Hc Hs] He. unfold enter_gate. rewrite Hc. change (Z.land (g_cs (SETGATE istrap 8 off d)) 3 <? 0) with false. cbv iota zeta.
  assert (G0 : grown s.(mm) s.(rg).(esp) s s []) by (split; try done; by apply pushed_nil).
  destruct (enter_tail s.(mm) s.(rg).(esp) istrap off d err s.(eflags) (cs (sg s)) s.(eip) _ _ _ (R ESP) F (S CS) E He G0 ltac:(cbn [length]; lia)) as (wc & Ec & G3).
  exists wc. split; [done|exact G3].
Qed.

(** [trapret] to the kernel: the stack pointer is the one before the trap. *)
Lemma trapret_kernel_run s a w0 w1 w2 w3 w4 w5 w6 w7 w8 w9 w10 w11 w12 w13 w14 w15 w16 : s.(rg).(esp) = a -> 0 <= a -> a + 68 < 2 ^ 32 -> cpl s = 0 ->
  stack s.(mm) a [w0; w1; w2; w3; w4; w5; w6; w7; w8; w9; w10; w11; w12; w13; w14; w15; w16] ->
  Z.land (u16 w15) 3 = 0 ->
  execute idt trapret s = Ok (mk_cpust (mk_regs w7 w6 w5 w4 (a + 68) w2 w1 w0)
    (mk_segs (u16 w15) (u16 w11) (u16 w10) (u16 w9) (u16 w8) s.(sg).(ss)) w14 w16 s.(mm) s.(ts_esp0) s.(ts_ss0)).
Proof.
  intros E H1 H2 Hc St Hu. destruct s as [[ax cx dx bx sp bp si di] [c d e f g sse] ip fl m e0 s0]. cbn [rg esp mm sg ss ts_esp0 ts_ss0] in *. subst sp.
  cbn [stack] in St. addr_norm_in St. destruct_and!. subst.
  unfold trapret. do 6 asm_step. cbn [execute exec1]. unfold mbind, outcome_bind, iret.
  cbn [rg sg mm esp set_reg eip eflags ts_esp0 ts_ss0]. addr_small. addr_norm. rewrite Z.add_0_r.
  unfold cpl in *. cbn [sg cs] in *. rewrite Hc, Hu. reflexivity.
Qed.

(** An interrupt of the kernel itself, handled on the stack in use, leaves no
    trace in the registers when [trap] returns with the frame unchanged. *)
Theorem kernel_trap_transparent n err s :
  0 <= n < 256 -> err_ok n err -> kernel_mode s ->
  exists s1, (s0 ← interrupt idt n err s; handle n s0) = Ok s1 /\ s1.(eip) = trap_at /\ s1.(rg).(esp) = s.(rg).(esp) - 76 /\
    (tf_at s1.(mm) (s.(rg).(esp) - 68)).(tf_trapno) = n /\ (tf_at s1.(mm) (s.(rg).(esp) - 68)).(tf_eip) = s.(eip) /\
  forall s2, s2.(rg).(esp) = s.(rg).(esp) - 72 -> cpl s2 = 0 -> s2.(sg).(ss) = s.(sg).(ss) -> keeps s1.(mm) s2.(mm) (s.(rg).(esp) - 68) 68 ->
    execute idt alltraps_back s2 = Ok (mk_cpust s.(rg) s.(sg) s.(eip) s.(eflags) s2.(mm) s2.(ts_esp0) s2.(ts_ss0)).
Proof.
  intros Hn He U. pose proof U as [[R S _ _ _] Hcpl Hst]. pose proof (R ESP) as Ht. cbn [get_reg] in Ht. set (sp := s.(rg).(esp)) in *.
  destruct (enter_kernel (n =? T_SYSCALL) (vectors n) (if n =? T_SYSCALL then DPL_USER else 0) err s U) as (wc & Ec & G).
  { intros e ->. apply He. }
  set (b := handler_base _ _ _ _ _) in G. set (s1 := enter_gate _ _ _) in *. fold sp in G.
  assert (Sb : segs_ok b.(sg)).
  { intros r. destruct r; cbn; try lia; first [apply (S DS)|apply (S ES)|apply (S FS)|apply (S GS)|apply (S SS)]. }
  destruct (vector_run s.(mm) sp Ht idt alltraps_at n (err_word err) b s1 [s.(eip); wc; s.(eflags)]) as (s2 & R2 & G2).
  { destruct err; [destruct He as [-> ?]|cbn [err_ok] in He; rewrite He]; exact G. }
  { destruct err; [by destruct He as [-> _]|done]. }
  { unfold is_u32. lia. }
  { cbn [length]. lia. }
  destruct (alltraps_run s.(mm) sp Ht idt trap_at back _ _ _ G2 Hback R Sb ltac:(cbn [length]; lia))
    as (s3 & wd & we & wf & wg & R3 & E1 & E2 & E3 & E4 & H1 & _ & _ & _ & _ & P).
  exists s3. unfold interrupt. rewrite tvinit_gate by done. unfold handle, mbind, outcome_bind. fold s1. rewrite R2.
  cbn [length app b handler_base with_eip rg] in P. destruct P as [P1 P2 P3 P4]. cbn [length] in P1.
  assert (Esp : s3.(rg).(esp) = sp - 76) by lia. rewrite Esp in P2. destruct P2 as (_ & _ & P2). replace (sp - 76 + 4 + 4) with (sp - 68) in P2 by lia.
  split_and!; [exact R3|exact H1|exact Esp| | |].
  - cbn [stack] in P2. addr_norm_in P2. cbn [tf_at tf_trapno]. by destruct_and!.
  - cbn [stack] in P2. addr_norm_in P2. cbn [tf_at tf_eip]. by destruct_and!.
  - intros s4 B1 B2 B3 K. unfold is_u32 in Ht. unfold alltraps_back. rewrite (exec_cons idt _ _ s4 (with_reg s4 ESP (sp - 68))).
    2: { cbn [exec1 get_reg]. rewrite B1, u32_small by (unfold is_u32; lia). do 2 f_equal. lia. }
    assert (St : stack s4.(mm) (sp - 68) [edi (rg s); esi (rg s); ebp (rg s); sp - 4 * Z.of_nat (4 + 5); ebx (rg s); edx (rg s); ecx (rg s); eax (rg s);
      wg; wf; we; wd; n; err_word err; eip s; wc; eflags s]).
    { eapply stack_ext; [|exact P2]. intros x Hx. apply K. cbn [length] in Hx. lia. }
    rewrite (trapret_kernel_run (with_reg s4 ESP (sp - 68)) (sp - 68) _ _ _ _ _ _ _ _ _ _ _ _ _ _ _ _ _
      eq_refl ltac:(lia) ltac:(lia) B2 St ltac:(rewrite Ec; exact Hcpl)).
    cbn [with_reg sg ss mm ts_esp0 ts_ss0]. rewrite E1, E2, E3, E4, Ec, B3. replace (sp - 68 + 68) with sp by lia. unfold sp, b.
    cbn [handler_base with_eip sg set_sreg ds es fs gs]. by destruct (rg s), (sg s).
Qed.

End Traps.

(** ** The first run of a process *)

Lemma tf_at_keeps m m' a : keeps m m' a 76 -> tf_at m' a = tf_at m a.
Proof. intros K. unfold tf_at. f_equal; try (apply f_equal); apply load32_ext; intros x Hx; apply K; lia. Qed.

(** The kernel stack of a process that was never run, as the record has it. *)
Record kstack_holds (m : mem) (p : proc) : Prop := {
  kh_context : ctx_at m p.(context) = p.(contextv);
  kh_ret : load32 m (p.(context) + sizeof_context) = p.(kret);
  kh_tf : tf_at m p.(tf) = p.(tfv)
}.

(** A new process starts where its trap frame says.  When the scheduler
    switches to a process that [allocproc] has set up with the kernel stack
    [k], it enters [forkret], whose return address is [trapret]; when [forkret]
    returns, [trapret] loads the registers of the trap frame.  For the child
    of a fork that is the frame of the parent with 0 in [eax]: it returns from
    the system call of its parent, with result 0. *)
Theorem child_starts idt forkret_at trapret_at s ret old q n k t :
  let p := with_tfv (embryo forkret_at trapret_at n k q) t in
  swtch_call s ret old p.(context) -> kstack_holds s.(mm) p ->
  0 <= k -> k + KSTACKSIZE < 2 ^ 32 -> apart (s.(rg).(esp) - 16) 16 k KSTACKSIZE -> apart old 4 k KSTACKSIZE ->
  exists s1, execute idt swtch s = Ok s1 /\ s1.(eip) = forkret_at /\ stack s1.(mm) s1.(rg).(esp) [trapret_at] /\
    s1.(rg).(esp) + 4 = p.(tf) /\
  forall s2, s2.(rg).(esp) = s1.(rg).(esp) + 4 -> cpl s2 = 0 -> keeps s1.(mm) s2.(mm) p.(tf) 76 -> Z.land t.(tf_cs) 3 = DPL_USER ->
    execute idt trapret s2 = Ok (resumed s2 t).
Proof.
  intros p W [K1 K2 K3] Hk Hk2 Ha Ho. destruct (swtch_run idt s ret old _ W) as (m1 & R & _ & _ & F & _). rewrite K1 in R. eexists. split; [exact R|].
  unfold apart, KSTACKSIZE in *.
  assert (Kp : keeps s.(mm) m1 k 4096) by (intros x Hx; apply F; lia).
  assert (Ec : p.(context) = k + 3996) by (cbn; unfold KSTACKSIZE, sizeof_trapframe, sizeof_context; lia).
  assert (Et : p.(tf) = k + 4020) by (cbn; unfold KSTACKSIZE, sizeof_trapframe; lia).
  cbn [eip rg esp mm]. rewrite Ec, Et in *. split_and!; [done| |lia|].
  - cbn [stack]. split; [|done]. change trapret_at with p.(kret). rewrite <- K2. unfold sizeof_context. apply load32_ext. intros x Hx. apply Kp. lia.
  - intros s2 E2 Hc K Hu.
    assert (Ets : tf_at s2.(mm) (k + 4020) = t).
    { rewrite (tf_at_keeps m1 s2.(mm)) by done. rewrite (tf_at_keeps s.(mm) m1); [exact K3|]. intros x Hx. apply Kp. lia. }
    rewrite (trapret_run idt s2 (k + 4020)) by (rewrite ?Ets; done || lia). by rewrite Ets.
Qed.

(** ** Examples *)

Module AsmDemo.

Definition mem0 : mem := fun _ => 0.

Lemma mem0_bytes : bytes_ok mem0.
Proof. intros x. unfold mem0, is_u8. lia. Qed.

(** A user program at address 256, with its stack at 8192; word 8192 is a
    return address. *)
Definition user0 : cpust :=
  mk_cpust (mk_regs 1 2 3 4 8192 6 7 8) (mk_segs 27 35 35 0 0 35) 256 512 (store32 mem0 8192 300) 2147487744 16.

Lemma user0_mode : user_mode user0.
Proof.
  split; [split|reflexivity|cbn; lia|cbn; lia|done].
  - intros r. destruct r; unfold is_u32; cbn; lia.
  - intros r. destruct r; cbn; lia.
  - unfold is_u32. cbn. lia.
  - unfold is_u32. cbn. lia.
  - apply store32_bytes, mem0_bytes.
Qed.

(** Witness of [trap_roundtrip]: a clock tick. *)
Lemma trap_roundtrip_witness :
  exists s1, (s0 ← interrupt (tvinit (fun n => n)) 32 None user0; handle (fun n => n) 5000 6000 7000 32 s0) = Ok s1 /\
    s1.(eip) = 6000 /\ tf_at s1.(mm) 2147487668 = user_frame user0 32 None.
Proof.
  destruct (trap_roundtrip (fun n => n) 5000 6000 7000 ltac:(unfold is_u32; lia) 32 None user0 ltac:(lia) ltac:(reflexivity) user0_mode) as (s1 & R & I & _).
  exists s1. split; [exact R|]. split; [apply I|]. exact (it_frame _ _ _ _ _ _ I).
Defined.

(** Witness of [stub_calls]: getpid. *)
Lemma stub_calls_witness :
  exists s1, (s0 ← execute (tvinit (fun n => n)) (stub 11 700) user0; handle (fun n => n) 5000 6000 7000 T_SYSCALL s0) = Ok s1 /\
    (tf_at s1.(mm) 2147487668).(tf_eax) = 11 /\ (tf_at s1.(mm) 2147487668).(tf_esp) = 8192.
Proof.
  destruct (stub_calls (fun n => n) 5000 6000 7000 ltac:(unfold is_u32; lia) 11 700 user0 300 user0_mode) as (s1 & R & I & _);
    [unfold is_u32; lia|unfold is_u32; lia|split; [by vm_compute|done]|cbn; lia|cbn; lia|].
  exists s1. split; [exact R|]. pose proof (it_frame _ _ _ _ _ _ I) as E. change (ts_esp0 _ - 76) with 2147487668 in E. rewrite E. split; reflexivity.
Defined.

(** A thread that switches to the context at 16384, all zeros, and keeps
    its own in the word at 20480. *)
Definition thread_a : cpust :=
  mk_cpust (mk_regs 1 2 3 4 12288 6 7 8) (mk_segs 8 16 16 0 0 16) 256 512
    (store32 (store32 (store32 mem0 12288 77) 12292 20480) 12296 16384) 0 0.
Definition after_a : cpust := match execute [] swtch thread_a with Ok s => s | Panic _ => thread_a end.

(** The other thread switches back. *)
Definition thread_b : cpust :=
  mk_cpust (mk_regs 9 9 9 9 28672 9 9 9) (mk_segs 8 16 16 0 0 16) 0 512
    (store32 (store32 (store32 after_a.(mm) 28672 99) 28676 32768) 28680 12272) 0 0.

Lemma thread_a_call : swtch_call thread_a 77 20480 16384.
Proof.
  split; [split; [|split]; by vm_compute| | | | | |]; try (cbn; unfold apart; lia).
  - intros r. destruct r; unfold is_u32; cbn; lia.
  - repeat apply store32_bytes. apply mem0_bytes.
Qed.

Lemma after_a_run : execute [] swtch thread_a = Ok after_a.
Proof. unfold after_a. destruct (swtch_run [] thread_a 77 20480 16384 thread_a_call) as (m & R & _). by rewrite R. Qed.

Lemma after_a_bytes : bytes_ok after_a.(mm).
Proof.
  destruct (swtch_run [] thread_a 77 20480 16384 thread_a_call) as (m & R & _ & _ & _ & B). rewrite after_a_run in R.
  pose proof (f_equal (fun o => match o with Ok s => s.(mm) | Panic _ => mem0 end) R) as E. cbv beta iota in E. rewrite E. exact B.
Qed.

Lemma swtch_resumes_witness :
  exists s3, execute [] swtch thread_b = Ok s3 /\ s3.(eip) = 77 /\ s3.(rg).(esp) = 12292 /\
    (s3.(rg).(ebx), s3.(rg).(ebp), s3.(rg).(esi), s3.(rg).(edi)) = (4, 6, 7, 8).
Proof.
  destruct (swtch_resumes [] thread_a 77 20480 16384 after_a thread_b 99 32768 thread_a_call after_a_run) as (_ & _ & _ & s3 & R & E1 & E2 & E3).
  - replace (load32 (mm after_a) 20480) with 12272 by (vm_compute; reflexivity). split; [split; [|split]; by vm_compute| | | | | |].
    + intros r. destruct r; unfold is_u32; cbn; lia.
    + do 3 apply store32_bytes. apply after_a_bytes.
    + cbn. lia.
    + lia.
    + cbn. unfold apart. lia.
    + cbn. unfold apart. lia.
  - intros x Hx. cbn [rg esp thread_a] in Hx. unfold thread_b. cbn [mm]. by rewrite !store32_frame by lia.
  - exists s3. split; [exact R|]. split; [exact E1|]. split; [exact E2|exact E3].
Defined.

(** The scheduler about to switch to a new process with its stack at 65536. *)
Definition new_stack : mem := store32 (store32 (store32 mem0 69548 111) 69552 222) 69616 27.
Definition sched0 : cpust :=
  mk_cpust (mk_regs 1 2 3 4 12288 6 7 8) (mk_segs 8 16 16 0 0 16) 256 512
    (store32 (store32 (store32 new_stack 12288 77) 12292 20480) 12296 69532) 0 0.

Lemma child_starts_witness :
  exists s1, execute [] swtch sched0 = Ok s1 /\ s1.(eip) = 111 /\ stack s1.(mm) s1.(rg).(esp) [222].
Proof.
  destruct (child_starts [] 111 222 sched0 77 20480 proc0 1 65536 (tf_at sched0.(mm) 69556)) as (s1 & R & E1 & E2 & _).
  - change (context _) with 69532. split; [split; [|split]; by vm_compute| | | | | |].
    + intros r. destruct r; unfold is_u32; cbn; lia.
    + repeat apply store32_bytes. apply mem0_bytes.
    + cbn. lia.
    + lia.
    + cbn. unfold apart. lia.
    + cbn. unfold apart. lia.
  - split; by vm_compute.
  - lia.
  - unfold KSTACKSIZE. lia.
  - cbn. unfold apart, KSTACKSIZE. lia.
  - unfold apart, KSTACKSIZE. lia.
  - exists s1. split; [exact R|]. split; [exact E1|exact E2].
Defined.

End AsmDemo.
