(* ===== verification/Mp.v ===== *)
(** * Finding the processors (mp.c) and routing interrupts (ioapic.c)

    The search for the tables that the BIOS leaves in memory, and the loop
    over the entries of the configuration table.  A table is described by the
    list of its entries; what the kernel makes of it is a function of that
    list.  The I/O APIC is a device with a select register and a data window
    on a table of registers. *)

From S2P Require Import Prelude CString Mmu.

(** ** mp.c *)

Definition NCPU : nat := 8.

(** The offsets of the fields of mp.h. *)
Definition sizeof_mp : Z := 16.
Definition sizeof_mpconf : Z := 44.
Definition sizeof_mpproc : Z := 20.
Definition sizeof_mpioapic : Z := 8.
Definition mp_physaddr (m : mem) (p : Z) : Z := load32 m (p + 4).
Definition mp_imcrp (m : mem) (p : Z) : Z := m (p + 12).
Definition conf_length (m : mem) (c : Z) : Z := m (c + 4) + 256 * m (c + 5).
Definition conf_version (m : mem) (c : Z) : Z := m (c + 6).
Definition conf_lapicaddr (m : mem) (c : Z) : Z := load32 m (c + 36).

Definition MPPROC : Z := 0.
Definition MPBUS : Z := 1.
Definition MPIOAPIC : Z := 2.
Definition MPIOINTR : Z := 3.
Definition MPLINTR : Z := 4.

(** The bytes from [a] on are those of a string literal. *)
Fixpoint sig_at (m : mem) (a : Z) (l : list Z) : bool :=
  match l with
  | [] => true
  | c :: l => (m a =? c) && sig_at m (a + 1) l
  end.

Definition sig_mp : list Z := [95; 77; 80; 95].        (* "_MP_" *)
Definition sig_pcmp : list Z := [80; 67; 77; 80].      (* "PCMP" *)

(** The loop of [sum], an [int], for [n] more bytes. *)
Fixpoint sum_loop (m : mem) (a : Z) (n : nat) (acc : Z) : Z :=
  match n with
  | O => acc
  | S n => sum_loop m (a + 1) n (s32 (acc + m a))
  end.

Definition sum (m : mem) (a len : Z) : Z := u8 (sum_loop m a (Z.to_nat len) 0).

(** [mpsearch1]: the steps from [p] up to [e]. *)
Fixpoint mpsearch1_loop (m : mem) (p : Z) (k : nat) : option Z :=
  match k with
  | O => None
  | S k => if sig_at m p sig_mp && (sum m p sizeof_mp =? 0) then Some p else mpsearch1_loop m (p + sizeof_mp) k
  end.

Definition mpsearch1 (m : mem) (a len : Z) : option Z := mpsearch1_loop m (P2V a) (Z.to_nat ((len + 15) / 16)).

Definition mpsearch (m : mem) : option Z :=
  let bda := P2V 1024 in
  let p := Z.shiftl (Z.lor (Z.shiftl (m (bda + 15)) 8) (m (bda + 14))) 4 in
  let first :=
    if c_true p then mpsearch1 m p 1024
    else mpsearch1 m (u32 (Z.lor (Z.shiftl (m (bda + 20)) 8) (m (bda + 19)) * 1024 - 1024)) 1024 in
  match first with
  | Some mp => Some mp
  | None => mpsearch1 m 983040 65536
  end.

(** The structure found and the table it points to. *)
Definition mpconfig (m : mem) : option (Z * Z) :=
  match mpsearch m with
  | None => None
  | Some mp =>
      if mp_physaddr m mp =? 0 then None
      else
        let conf := P2V (mp_physaddr m mp) in
        if negb (sig_at m conf sig_pcmp) then None
        else if negb (conf_version m conf =? 1) && negb (conf_version m conf =? 4) then None
        else if negb (sum m conf (conf_length m conf) =? 0) then None
        else Some (mp, conf)
  end.

(** The globals that [mpinit] sets, and the bytes it writes to ports. *)
Record mpst := mk_mpst { apicids : list Z; ioapicid : Z; lapic : Z; outs : list (Z * Z) }.

(** One turn of the loop of [mpinit] at [p]: the next [p], or [None] for an
    entry of another type, where the switch is left but [p] stays. *)
Definition mp_entry (m : mem) (p : Z) (s : mpst) : option Z * mpst :=
  let t := m p in
  if t =? MPPROC then
    (Some (p + sizeof_mpproc),
     if (length s.(apicids) <? NCPU)%nat then mk_mpst (s.(apicids) ++ [m (p + 1)]) s.(ioapicid) s.(lapic) s.(outs) else s)
  else if t =? MPIOAPIC then
    (Some (p + sizeof_mpioapic), mk_mpst s.(apicids) (m (p + 1)) s.(lapic) s.(outs))
  else if (t =? MPBUS) || (t =? MPIOINTR) || (t =? MPLINTR) then (Some (p + 8), s)
  else (None, s).

Fixpoint mpinit_loop (fuel : nat) (m : mem) (p e : Z) (ismp : bool) (s : mpst) : outcome (bool * mpst) :=
  match fuel with
  | O => Panic "out of fuel"
  | S fuel =>
      if p <? e then
        match mp_entry m p s with
        | (Some p', s') => mpinit_loop fuel m p' e ismp s'
        | (None, s') => mpinit_loop fuel m p e false s'
        end
      else Ok (ismp, s)
  end.

(** [inb23] is what a read of port 0x23 returns. *)
Definition mpinit (fuel : nat) (m : mem) (inb23 : Z) (s : mpst) : outcome mpst :=
  match mpconfig m with
  | None => Panic "Expect to run on an SMP"
  | Some (mp, conf) =>
      let s := mk_mpst s.(apicids) s.(ioapicid) (conf_lapicaddr m conf) s.(outs) in
      r ← mpinit_loop fuel m (conf + sizeof_mpconf) (conf + conf_length m conf) true s;
      let (ismp, s) := (r : bool * mpst) in
      if negb ismp then Panic "Didn't find a suitable machine"
      else if c_true (mp_imcrp m mp) then
        Ok (mk_mpst s.(apicids) s.(ioapicid) s.(lapic) (s.(outs) ++ [(34, 112); (35, Z.lor inb23 1)]))
      else Ok s
  end.

(** ** What the BIOS has left

    Said of the bytes of memory, without the functions of the code. *)

(** The [n] bytes from [p] on, and their sum. *)
Definition bytes_from (m : mem) (p : Z) (n : nat) : list Z := (fun i => m (p + Z.of_nat i)) <$> seq 0 n.
Definition total (l : list Z) : Z := foldr Z.add 0 l.

(** A floating pointer structure at [p]. *)
Definition mp_valid (m : mem) (p : Z) : Prop := bytes_from m p 4 = sig_mp /\ total (bytes_from m p 16) mod 256 = 0.

#[global] Instance mp_valid_dec m p : Decision (mp_valid m p).
Proof. unfold mp_valid. apply _. Defined.

(** The places where it may lie, in the order of the search: the first KB of
    the extended BIOS data area if there is one and else the last KB of base
    memory, and then the ROM from 0xF0000 on. *)
Definition paragraphs (a : Z) (n : nat) : list Z := (fun i => P2V a + 16 * Z.of_nat i) <$> seq 0 n.

Definition mp_places (m : mem) : list Z :=
  let ebda := m (P2V 0x40e) + 256 * m (P2V 0x40f) in
  let kbytes := m (P2V 0x413) + 256 * m (P2V 0x414) in
  paragraphs (if decide (ebda = 0) then u32 (1024 * kbytes - 1024) else 16 * ebda) 64 ++ paragraphs 0xf0000 4096.

(** [mp] is the first structure, and [conf] the table it points to. *)
Definition mp_first (m : mem) (mp : Z) : Prop := exists i, list_find (mp_valid m) (mp_places m) = Some (i, mp).

Definition conf_valid (m : mem) (mp conf : Z) : Prop :=
  mp_physaddr m mp <> 0 /\ conf = P2V (mp_physaddr m mp) /\ bytes_from m conf 4 = sig_pcmp /\
  (conf_version m conf = 1 \/ conf_version m conf = 4) /\
  total (bytes_from m conf (Z.to_nat (conf_length m conf))) mod 256 = 0.

(** ** The search *)

Lemma bytes_from_S m p n : bytes_from m p (S n) = m p :: bytes_from m (p + 1) n.
Proof.
  unfold bytes_from. cbn [seq fmap list_fmap]. f_equal; [f_equal; lia|]. rewrite <- fmap_S_seq, <- list_fmap_compose.
  apply list_fmap_ext. intros i x _. unfold compose. f_equal. lia.
Qed.

Lemma sig_at_bytes m l : forall p, sig_at m p l = true <-> bytes_from m p (length l) = l.
Proof.
  induction l as [|c l IH]; intros p; [done|]. cbn [sig_at length]. rewrite bytes_from_S, andb_true_iff, IH, Z.eqb_eq.
  split; [by intros [-> ->]|by intros [= -> ->]].
Qed.

Lemma s32_mod256 z : s32 z mod 256 = z mod 256.
Proof.
  unfold s32, u32. cbv zeta. assert (E : (z mod 2 ^ 32) mod 256 = z mod 256).
  { change (2 ^ 32) with (256 * 2 ^ 24). rewrite Z.rem_mul_r by done. rewrite Z.mul_comm, Z.mod_add by done. apply Z.mod_mod. done. }
  destruct (_ <? _); [done|]. replace (z mod 2 ^ 32 - 2 ^ 32) with (z mod 2 ^ 32 + (- 2 ^ 24) * 256) by lia. by rewrite Z.mod_add.
Qed.

Lemma word_bytes hi lo : is_u8 hi -> is_u8 lo -> Z.lor (Z.shiftl hi 8) lo = lo + 256 * hi.
Proof.
  intros _ Hlo. pose proof (Z.add_lor_land (Z.shiftl hi 8) lo) as E. rewrite Z.shiftl_mul_pow2, (Z.mul_comm hi) in * by done.
  enough (Z.land (2 ^ 8 * hi) lo = 0) by (change (2 ^ 8) with 256 in *; lia). clear E.
  apply Z.bits_inj'. intros n Hn. rewrite Z.land_spec, Z.bits_0. destruct (Z.ltb_spec n 8).
  - rewrite Z.mul_comm, Z.mul_pow2_bits_low by done. done.
  - rewrite (Z.bits_above_log2 lo n); [by rewrite andb_false_r|unfold is_u8 in Hlo; lia|].
    unfold is_u8 in Hlo. destruct (Z.eq_dec lo 0) as [->|]; [cbn; lia|].
    apply Z.lt_le_trans with 8; [apply Z.log2_lt_pow2; lia|done].
Qed.

Lemma sum_loop_total m n : forall p acc, sum_loop m p n acc mod 256 = (acc + total (bytes_from m p n)) mod 256.
Proof.
  induction n as [|n IH]; intros p acc; cbn [sum_loop].
  - unfold total, bytes_from. cbn. by rewrite Z.add_0_r.
  - rewrite IH, bytes_from_S. cbn [total foldr]. fold (total (bytes_from m (p + 1) n)). rewrite Z.add_assoc.
    rewrite <- (Z.add_mod_idemp_l (s32 _)), <- (Z.add_mod_idemp_l (acc + m p)) by done. do 2 f_equal. apply s32_mod256.
Qed.

Lemma sum_total m p n : sum m p n = total (bytes_from m p (Z.to_nat n)) mod 256.
Proof. unfold sum, u8. change (2 ^ 8) with 256. by rewrite sum_loop_total. Qed.

Lemma mp_valid_check m p : sig_at m p sig_mp && (sum m p sizeof_mp =? 0) = bool_decide (mp_valid m p).
Proof.
  apply eq_true_iff_eq. rewrite bool_decide_eq_true, andb_true_iff, Z.eqb_eq, sig_at_bytes, sum_total. done.
Qed.

Lemma mpsearch1_loop_find m k : forall p,
  mpsearch1_loop m p k = snd <$> list_find (mp_valid m) ((fun i => p + 16 * Z.of_nat i) <$> seq 0 k).
Proof.
  induction k as [|k IH]; intros p; [done|]. cbn [mpsearch1_loop seq fmap list_fmap list_find]. rewrite Z.mul_0_r, Z.add_0_r, mp_valid_check.
  case_decide as Hd; [by rewrite bool_decide_true|]. rewrite bool_decide_false by done.
  rewrite IH. unfold sizeof_mp. rewrite <- fmap_S_seq, <- list_fmap_compose.
  rewrite (list_fmap_ext _ ((fun i => p + 16 * Z.of_nat i) ∘ S) (seq 0 k)) by (intros i x _; unfold compose; lia).
  destruct (list_find _ _) as [[i x]|]; done.
Qed.

Lemma mpsearch1_find m a len : mpsearch1 m a len = snd <$> list_find (mp_valid m) (paragraphs a (Z.to_nat ((len + 15) / 16))).
Proof. apply mpsearch1_loop_find. Qed.

(** [mpsearch] finds the first structure there is. *)
Lemma mpsearch_find m : bytes_ok m -> mpsearch m = snd <$> list_find (mp_valid m) (mp_places m).
Proof.
  intros B. unfold mpsearch. cbv zeta. change (P2V 1024 + 15) with (P2V 0x40f). change (P2V 1024 + 14) with (P2V 0x40e).
  change (P2V 1024 + 20) with (P2V 0x414). change (P2V 1024 + 19) with (P2V 0x413).
  rewrite !word_bytes by apply B. unfold mp_places. set (ebda := _ + 256 * m (P2V 0x40f)). set (kb := _ + 256 * m (P2V 0x414)).
  rewrite Z.shiftl_mul_pow2 by done. change (2 ^ 4) with 16.
  set (l1 := paragraphs (if decide (ebda = 0) then _ else _) 64). set (l2 := paragraphs 0xf0000 4096).
  assert (E : (if c_true (ebda * 16) then mpsearch1 m (ebda * 16) 1024 else mpsearch1 m (u32 (kb * 1024 - 1024)) 1024) =
    snd <$> list_find (mp_valid m) l1).
  { unfold l1, c_true. destruct (decide (ebda = 0)) as [Hn|Hn].
    - rewrite (proj2 (Z.eqb_eq (ebda * 16) 0)) by lia. cbn [negb]. rewrite mpsearch1_find, (Z.mul_comm kb). reflexivity.
    - rewrite (proj2 (Z.eqb_neq (ebda * 16) 0)) by lia. cbn [negb]. rewrite mpsearch1_find, (Z.mul_comm ebda). reflexivity. }
  rewrite E. destruct (list_find (mp_valid m) l1) as [[i x]|] eqn:E1; cbn [fmap option_fmap option_map snd].
  - by rewrite (list_find_app_l _ _ _ _ _ E1).
  - rewrite (list_find_app_r _ _ _ E1), mpsearch1_find. change (paragraphs 983040 (Z.to_nat ((65536 + 15) / 16))) with l2.
    by destruct (list_find (mp_valid m) l2) as [[j y]|].
Qed.

(** [mpconfig] finds a table exactly if the first structure points to one. *)
Lemma mpconfig_find m mp conf : bytes_ok m -> mpconfig m = Some (mp, conf) <-> mp_first m mp /\ conf_valid m mp conf.
Proof.
  intros B. unfold mpconfig, mp_first. rewrite mpsearch_find by done.
  destruct (list_find (mp_valid m) (mp_places m)) as [[i x]|] eqn:E; cbn [fmap option_fmap option_map snd];
    [|split; [done|by intros [[i Hi] _]]].
  transitivity (x = mp /\ conf_valid m mp conf).
  2: { split; [intros [-> H]; split; [by exists i|done]|intros [[j Hj] Hv]; injection Hj as _ <-; done]. }
  unfold conf_valid. rewrite <- (sig_at_bytes m sig_pcmp), <- sum_total. set (c := P2V (mp_physaddr m x)).
  destruct (Z.eqb_spec (mp_physaddr m x) 0) as [H1|H1]; [split; [done|]; by intros (-> & ? & _)|].
  destruct (sig_at m c sig_pcmp) eqn:H2; cbn [negb]; [|split; [done|]; intros (-> & _ & -> & H & _); unfold c in H2; congruence].
  destruct (Z.eqb_spec (conf_version m c) 1) as [H3|H3], (Z.eqb_spec (conf_version m c) 4) as [H4|H4]; cbn [negb andb];
    try (split; [done|]; intros (-> & _ & -> & _ & H & _); unfold c in *; lia);
    (destruct (Z.eqb_spec (sum m c (conf_length m c)) 0) as [H5|H5]; cbn [negb];
      [|split; [done|]; intros (-> & _ & -> & _ & _ & H); done]);
    (split; [intros [= <- <-]; split_and!; auto|intros (-> & _ & -> & _); done]).
Qed.

(** ** The configuration table *)

Inductive mpentry :=
| EProc (apicid : Z)
| EIoapic (apicno : Z)
| EOther (type : Z).

Definition esize (e : mpentry) : Z := match e with EProc _ => sizeof_mpproc | _ => 8 end.
Definition tsize (es : list mpentry) : Z := foldr (fun e z => esize e + z) 0 es.

Definition entry_at (m : mem) (p : Z) (e : mpentry) : Prop :=
  match e with
  | EProc i => m p = MPPROC /\ m (p + 1) = i
  | EIoapic i => m p = MPIOAPIC /\ m (p + 1) = i
  | EOther t => m p = t /\ (t = MPBUS \/ t = MPIOINTR \/ t = MPLINTR)
  end.

(** The entries [es] lie one after the other from [p] on. *)
Fixpoint table (m : mem) (p : Z) (es : list mpentry) : Prop :=
  match es with
  | [] => True
  | e :: es => entry_at m p e /\ table m (p + esize e) es
  end.

Definition proc_ids (es : list mpentry) : list Z := omap (fun e => match e with EProc i => Some i | _ => None end) es.
Definition ioapic_ids (es : list mpentry) : list Z := omap (fun e => match e with EIoapic i => Some i | _ => None end) es.

Definition known (t : Z) : Prop := 0 <= t <= 4.

(** What the entries do to the globals. *)
Definition scan (es : list mpentry) (s : mpst) : mpst :=
  mk_mpst (take NCPU (s.(apicids) ++ proc_ids es)) (default s.(ioapicid) (last (ioapic_ids es))) s.(lapic) s.(outs).

Lemma mp_entry_known m p e s : entry_at m p e -> (length s.(apicids) <= NCPU)%nat -> mp_entry m p s = (Some (p + esize e), scan [e] s).
Proof.
  intros H Hl. unfold mp_entry, scan, proc_ids, ioapic_ids. destruct s as [ids io la os]. cbn [apicids ioapicid lapic outs] in *.
  destruct e as [i|i|t]; cbn [entry_at omap list_omap last default esize] in *; destruct H as [-> H].
  - rewrite H. change (MPPROC =? MPPROC) with true. cbv iota. f_equal. destruct (Nat.ltb_spec (length ids) NCPU).
    + by rewrite take_ge by (rewrite length_app; cbn; lia).
    + rewrite take_app_le by lia. by rewrite take_ge by lia.
  - rewrite H. change (MPIOAPIC =? MPPROC) with false. change (MPIOAPIC =? MPIOAPIC) with true. cbv iota. by rewrite app_nil_r, take_ge.
  - destruct H as [->|[->| ->]]; cbn; by rewrite app_nil_r, take_ge.
Qed.

Lemma scan_length es s : (length (scan es s).(apicids) <= NCPU)%nat.
Proof. unfold scan. cbn [apicids]. rewrite length_take. lia. Qed.

Lemma scan_cons e es s : scan es (scan [e] s) = scan (e :: es) s.
Proof.
  unfold scan, proc_ids, ioapic_ids. cbn [apicids ioapicid lapic outs]. f_equal.
  - change (omap ?f (e :: es)) with (omap f ([e] ++ es)). rewrite omap_app, app_assoc. set (l := apicids s ++ omap _ [e]). set (k := omap _ es).
    destruct (decide (length l <= NCPU)%nat); [by rewrite (take_ge l)|]. rewrite !take_app_le by (rewrite ?length_take; lia). by rewrite take_take, Nat.min_id.
  - change (omap ?f (e :: es)) with (omap f ([e] ++ es)). rewrite omap_app, last_app. by destruct (last (omap _ es)).
Qed.

Lemma tsize_nonneg es : 0 <= tsize es.
Proof. induction es as [|e es IH]; cbn [tsize foldr]; [lia|]. unfold tsize in IH. destruct e; cbn; unfold sizeof_mpproc; lia. Qed.

Lemma tsize_length es : 8 * Z.of_nat (length es) <= tsize es.
Proof. induction es as [|e es IH]; cbn [tsize foldr length]; [lia|]. unfold tsize in IH. destruct e; cbn [esize]; unfold sizeof_mpproc; lia. Qed.

(** The loop passes over entries of known types. *)
Lemma mpinit_loop_run m es : forall fuel p e b s,
  table m p es -> p + tsize es <= e -> (length s.(apicids) <= NCPU)%nat ->
  mpinit_loop (length es + fuel) m p e b s = mpinit_loop fuel m (p + tsize es) e b (scan es s).
Proof.
  induction es as [|x es IH]; intros fuel p e b s T He Hl.
  - cbn [length Nat.add tsize foldr]. rewrite Z.add_0_r. unfold scan. cbn [proc_ids ioapic_ids omap list_omap last default]. rewrite app_nil_r, take_ge by done. by destruct s.
  - destruct T as [H T]. cbn [length Nat.add mpinit_loop]. cbn [tsize foldr] in He. fold (tsize es) in He. pose proof (tsize_nonneg es).
    assert (Hx : 0 < esize x) by (destruct x; cbn; unfold sizeof_mpproc; lia). destruct (Z.ltb_spec p e); [|lia].
    rewrite (mp_entry_known m p x s H Hl), IH; [|done|lia|apply scan_length].
    rewrite scan_cons. cbn [tsize foldr]. fold (tsize es). f_equal. lia.
Qed.

(** 8192 turns are enough: a table has fewer than 65536 bytes. *)
Definition mp_turns : nat := Z.to_nat 8192.

Lemma mp_turns_enough n : Z.of_nat n < 8192 -> exists k, mp_turns = (n + S k)%nat.
Proof. intros H. exists (mp_turns - n - 1)%nat. unfold mp_turns. lia. Qed.
#[global] Opaque mp_turns.

Lemma conf_length_range m c : bytes_ok m -> 0 <= conf_length m c < 65536.
Proof. intros B. unfold conf_length. pose proof (B (c + 4)). pose proof (B (c + 5)). unfold is_u8 in *. lia. Qed.

Lemma mpinit_run m inb23 s mp conf es :
  bytes_ok m -> mpconfig m = Some (mp, conf) -> table m (conf + sizeof_mpconf) es -> conf_length m conf = sizeof_mpconf + tsize es ->
  s.(apicids) = [] ->
  mpinit mp_turns m inb23 s =
    Ok (mk_mpst (take NCPU (proc_ids es)) (default s.(ioapicid) (last (ioapic_ids es))) (conf_lapicaddr m conf)
      (s.(outs) ++ if c_true (mp_imcrp m mp) then [(34, 112); (35, Z.lor inb23 1)] else [])).
Proof.
  intros B Hc T Hl Hs. unfold mpinit. rewrite Hc. pose proof (conf_length_range m conf B) as Hr. pose proof (tsize_length es) as Ht.
  unfold sizeof_mpconf in *. set (s0 := mk_mpst _ _ _ _).
  destruct (mp_turns_enough (length es)) as [k Hf]; [lia|].
  assert (R : mpinit_loop mp_turns m (conf + 44) (conf + conf_length m conf) true s0 = Ok (true, scan es s0)).
  { rewrite Hf, mpinit_loop_run; [|done|lia|unfold s0; cbn [apicids]; rewrite Hs; cbn; lia].
    cbn [mpinit_loop]. destruct (Z.ltb_spec (conf + 44 + tsize es) (conf + conf_length m conf)); [lia|done]. }
  unfold mbind, outcome_bind. rewrite R. cbn [negb]. unfold scan, s0. cbn [apicids ioapicid lapic outs]. rewrite Hs. cbn [app].
  destruct (c_true (mp_imcrp m mp)); [done|]. by rewrite app_nil_r.
Qed.

(** C24. [mpinit] finds the processors.  Take the first place, in the extended
    BIOS data area (or the last KB of base memory when there is none) and then
    in the ROM from 0xF0000 on, with the bytes _MP_ and a sum of 16 bytes that
    is 0 modulo 256; let it point to a table, not at address 0, with the bytes
    PCMP, version 1 or 4 and a sum that is 0 modulo 256.  If the entries of
    the table are of the five types that the code knows and fill it, [mpinit]
    returns; the processors are those of the table, the first [NCPU] of them,
    the I/O APIC is the last of the table, and the address of the local APIC
    is that of the header.  If there is no such place, or what it points to is
    not such a table, [mpinit] panics. *)
Theorem mpinit_spec m inb23 s :
  bytes_ok m -> s.(apicids) = [] ->
  (forall mp conf es, mp_first m mp -> conf_valid m mp conf ->
     table m (conf + sizeof_mpconf) es -> conf_length m conf = sizeof_mpconf + tsize es ->
     mpinit mp_turns m inb23 s =
       Ok (mk_mpst (take NCPU (proc_ids es)) (default s.(ioapicid) (last (ioapic_ids es))) (conf_lapicaddr m conf)
         (s.(outs) ++ if c_true (mp_imcrp m mp) then [(34, 112); (35, Z.lor inb23 1)] else []))) /\
  ((forall mp conf, mp_first m mp -> ~ conf_valid m mp conf) -> mpinit mp_turns m inb23 s = Panic "Expect to run on an SMP").
Proof.
  intros B Hs. split.
  - intros mp conf es H1 H2 T Hl. apply mpinit_run; try done. by apply mpconfig_find.
  - intros H. unfold mpinit. destruct (mpconfig m) as [[mp conf]|] eqn:E; [|done].
    apply mpconfig_find in E as [H1 H2]; [|done]. by destruct (H mp conf H1).
Qed.

(** An entry of another type stops [mpinit] for good: the [break] leaves the
    switch and not the loop, which goes on at the same entry. *)
Theorem mpinit_unknown_hangs m inb23 s mp conf es fuel :
  mpconfig m = Some (mp, conf) -> table m (conf + sizeof_mpconf) es -> sizeof_mpconf + tsize es < conf_length m conf ->
  ~ known (m (conf + sizeof_mpconf + tsize es)) -> s.(apicids) = [] ->
  mpinit (length es + fuel) m inb23 s = Panic "out of fuel".
Proof.
  intros Hc T Hl Hk Hs. unfold mpinit. rewrite Hc. set (s0 := mk_mpst _ _ _ _). unfold mbind, outcome_bind.
  rewrite mpinit_loop_run; [|done|lia|unfold s0; cbn [apicids]; rewrite Hs; cbn; lia]. set (s1 := scan es s0). set (p := conf + sizeof_mpconf + tsize es) in *.
  assert (H : forall b, mpinit_loop fuel m p (conf + conf_length m conf) b s1 = Panic "out of fuel"); [|by rewrite H].
  induction fuel as [|fuel IH]; intros b; cbn [mpinit_loop]; [done|]. destruct (Z.ltb_spec p (conf + conf_length m conf)); [|lia].
  unfold mp_entry. unfold known in Hk. unfold MPPROC, MPIOAPIC, MPBUS, MPIOINTR, MPLINTR.
  destruct (Z.eqb_spec (m p) 0); [lia|]. destruct (Z.eqb_spec (m p) 2); [lia|]. destruct (Z.eqb_spec (m p) 1); [lia|].
  destruct (Z.eqb_spec (m p) 3); [lia|]. destruct (Z.eqb_spec (m p) 4); [lia|]. apply IH.
Qed.

(** ** ioapic.c *)

Definition T_IRQ0 : Z := 32.
Definition REG_ID : Z := 0.
Definition REG_VER : Z := 1.
Definition REG_TABLE : Z := 16.
Definition INT_DISABLED : Z := 65536.

(** The device: the register that [reg] selects is read and written through
    [data]. *)
Record ioapic := mk_ioapic { io_reg : Z; io_data : Z -> Z }.

Definition ioapicread (reg : Z) : kM ioapic Z :=
  fun d => Ok (d.(io_data) reg, mk_ioapic reg d.(io_data)).

Definition ioapicwrite (reg data : Z) : kM ioapic unit :=
  fun d => Ok (tt, mk_ioapic reg (fun r => if r =? reg then data else d.(io_data) r)).

(** The loop of [ioapicinit] from interrupt [i] on, [k] of them. *)
Fixpoint ioapicinit_loop (i : Z) (k : nat) : kM ioapic unit :=
  match k with
  | O => mret tt
  | S k =>
      _ ← ioapicwrite (REG_TABLE + 2 * i) (Z.lor INT_DISABLED (T_IRQ0 + i));
      _ ← ioapicwrite (REG_TABLE + 2 * i + 1) 0;
      ioapicinit_loop (i + 1) k
  end.

(** Whether the message about a wrong id was printed. *)
Definition ioapicinit (ioapicid : Z) : kM ioapic bool :=
  v ← ioapicread REG_VER;
  let maxintr := Z.land (Z.shiftr v 16) 255 in
  w ← ioapicread REG_ID;
  let id := Z.shiftr w 24 in
  _ ← ioapicinit_loop 0 (Z.to_nat (maxintr + 1));
  mret (negb (id =? ioapicid)).

Definition ioapicenable (irq cpunum : Z) : kM ioapic unit :=
  _ ← ioapicwrite (REG_TABLE + 2 * irq) (T_IRQ0 + irq);
  ioapicwrite (REG_TABLE + 2 * irq + 1) (u32 (Z.shiftl cpunum 24)).

(** Where interrupt [i] goes: its vector and processor, if it is enabled. *)
Definition route (d : ioapic) (i : Z) : option (Z * Z) :=
  let low := d.(io_data) (REG_TABLE + 2 * i) in
  if Z.testbit low 16 then None else Some (Z.land low 255, Z.shiftr (d.(io_data) (REG_TABLE + 2 * i + 1)) 24).

Lemma disabled_bit i : 0 <= i < 256 -> Z.testbit (Z.lor INT_DISABLED (T_IRQ0 + i)) 16 = true.
Proof. intros Hi. by rewrite Z.lor_spec. Qed.

Lemma ioapicinit_loop_run k : forall i d, 0 <= i -> i + Z.of_nat k <= 256 ->
  exists d', ioapicinit_loop i k d = Ok (tt, d') /\
    (forall r, ~ (REG_TABLE + 2 * i <= r < REG_TABLE + 2 * (i + Z.of_nat k)) -> d'.(io_data) r = d.(io_data) r) /\
    (forall j, i <= j < i + Z.of_nat k -> route d' j = None).
Proof.
  induction k as [|k IH]; intros i d Hi Hk.
  { exists d. split_and!; [done|done|intros; lia]. }
  cbn [ioapicinit_loop]. do 2 (erewrite kM_bind_run by reflexivity). set (d1 := mk_ioapic _ _).
  destruct (IH (i + 1) d1 ltac:(lia) ltac:(lia)) as (d' & R & H1 & H2). exists d'. split_and!; [done| |].
  - intros r Hr. rewrite H1 by lia. unfold d1, REG_TABLE in *. cbn [io_data]. destruct (Z.eqb_spec r (16 + 2 * i + 1)); [lia|].
    destruct (Z.eqb_spec r (16 + 2 * i)); [lia|done].
  - intros j Hj. destruct (Z.eq_dec j i) as [->|Hne]; [|apply H2; lia]. unfold route. rewrite H1 by (unfold REG_TABLE; lia).
    unfold d1. cbn [io_data]. rewrite (proj2 (Z.eqb_neq _ _)) by lia. rewrite Z.eqb_refl, disabled_bit by lia. done.
Qed.

Lemma ioapicenable_run irq cpunum d : 0 <= irq < 208 -> 0 <= cpunum < 256 ->
  exists d', ioapicenable irq cpunum d = Ok (tt, d') /\
    forall i, route d' i = if decide (i = irq) then Some (T_IRQ0 + irq, cpunum) else route d i.
Proof.
  intros Hi Hc. unfold ioapicenable. erewrite kM_bind_run by reflexivity. eexists. split; [reflexivity|]. intros i. unfold route. cbn [io_data].
  destruct (decide (i = irq)) as [->|Hne].
  - rewrite (proj2 (Z.eqb_neq (REG_TABLE + 2 * irq) (REG_TABLE + 2 * irq + 1))) by lia. rewrite !Z.eqb_refl.
    replace (Z.testbit (T_IRQ0 + irq) 16) with false.
    2: { symmetry. apply Z.bits_above_log2; [unfold T_IRQ0; lia|]. apply Z.log2_lt_pow2; unfold T_IRQ0; lia. }
    f_equal. f_equal.
    + change 255 with (Z.ones 8). rewrite Z.land_ones by lia. apply Z.mod_small. unfold T_IRQ0. lia.
    + unfold u32. rewrite Z.shiftl_mul_pow2, Z.shiftr_div_pow2 by lia. rewrite Z.mod_small by lia. apply Z.div_mul. lia.
  - repeat rewrite (proj2 (Z.eqb_neq _ _)) by lia. done.
Qed.

Fixpoint enable_all (l : list (Z * Z)) : kM ioapic unit :=
  match l with
  | [] => mret tt
  | (irq, cpunum) :: l => _ ← ioapicenable irq cpunum; enable_all l
  end.

(** The routes that a list of calls asks for; a later call replaces an earlier
    one. *)
Definition asked (l : list (Z * Z)) (i : Z) : option (Z * Z) :=
  foldl (fun o c => if decide (i = c.1) then Some (T_IRQ0 + c.1, c.2) else o) None l.

Lemma enable_all_run l : forall d, Forall (fun c => 0 <= c.1 < 208 /\ 0 <= c.2 < 256) l ->
  exists d', enable_all l d = Ok (tt, d') /\
    forall i, route d' i = foldl (fun o c => if decide (i = c.1) then Some (T_IRQ0 + c.1, c.2) else o) (route d i) l.
Proof.
  induction l as [|[irq cpunum] l IH]; intros d Hl; [by exists d|]. apply Forall_cons in Hl as [[H1 H2] Hl]. cbn [enable_all].
  destruct (ioapicenable_run irq cpunum d H1 H2) as (d1 & R1 & E1). destruct (IH d1 Hl) as (d2 & R2 & E2). exists d2.
  rewrite (kM_bind_run _ _ _ _ _ R1). split; [done|]. intros i. rewrite E2, E1. done.
Qed.

(** The I/O APIC delivers the interrupts that were enabled, and no others.
    After [ioapicinit] and any calls of [ioapicenable], each interrupt that
    the device has is routed to the vector and the processor of the last call
    for it, and is masked if there was none. *)
Theorem ioapic_routes id l d :
  Forall (fun c => 0 <= c.1 < 208 /\ 0 <= c.2 < 256) l ->
  let maxintr := Z.land (Z.shiftr (d.(io_data) REG_VER) 16) 255 in
  exists d', (_ ← ioapicinit id; enable_all l) d = Ok (tt, d') /\ forall i, 0 <= i <= maxintr -> route d' i = asked l i.
Proof.
  intros Hl maxintr. assert (Hm : 0 <= maxintr < 256).
  { unfold maxintr. change 255 with (Z.ones 8). rewrite Z.land_ones by lia. apply Z.mod_pos_bound. lia. }
  destruct (ioapicinit_loop_run (Z.to_nat (maxintr + 1)) 0 (mk_ioapic REG_ID d.(io_data)) ltac:(lia) ltac:(lia)) as (d1 & R1 & _ & H1).
  destruct (enable_all_run l d1 Hl) as (d2 & R2 & H2). exists d2. split.
  - erewrite kM_bind_run; [exact R2|]. unfold ioapicinit. do 2 (erewrite kM_bind_run by reflexivity). fold maxintr. rewrite (kM_bind_run _ _ _ _ _ R1). reflexivity.
  - intros i Hi. rewrite H2, H1 by lia. done.
Qed.

(** ** A machine with two processors *)

Module MpDemo.

Fixpoint poke (m : mem) (a : Z) (l : list Z) : mem :=
  match l with
  | [] => m
  | c :: l => poke (upd m a c) (a + 1) l
  end.

(** The floating structure in the BIOS ROM, the table at 0x1000 with two
    processors, a bus and an I/O APIC; the checksums are the eleventh and the
    eighth byte. *)
Definition mp_bytes : list Z := [95; 77; 80; 95; 0; 16; 0; 0; 1; 4; 144; 0; 0; 0; 0; 0].
Definition header : list Z := [80; 67; 77; 80; 100; 0; 4; 114] ++ replicate 28 0 ++ [0; 0; 224; 254; 0; 0; 0; 0].
Definition rows : list Z := (0 :: 5 :: replicate 18 0) ++ (0 :: 7 :: replicate 18 0) ++ (1 :: replicate 7 0) ++ (2 :: 9 :: replicate 6 0).
Definition bios : mem := poke (poke (fun _ => 0) (P2V 983040) mp_bytes) (P2V 4096) (header ++ rows).
Definition globals0 : mpst := mk_mpst [] 0 0 [].

Lemma poke_bytes l : forall m a, bytes_ok m -> Forall is_u8 l -> bytes_ok (poke m a l).
Proof.
  induction l as [|c l IH]; intros m a B H; [done|]. apply Forall_cons in H as [Hc H]. cbn [poke]. apply IH; [|done].
  intros x. unfold upd. case_bool; [done|apply B].
Qed.

Lemma bios_bytes : bytes_ok bios.
Proof.
  apply poke_bytes; [apply poke_bytes; [intros x; unfold is_u8; lia|]|];
    (eapply (bool_decide_unpack (Forall is_u8 _)); vm_compute; exact I).
Qed.

Lemma upd_bytes m a v : bytes_ok m -> is_u8 v -> bytes_ok (upd m a v).
Proof. intros B Hv x. unfold upd. case_bool; [done|apply B]. Qed.

(** The same machine with a byte of the table changed. *)
Definition bad_bios : mem := upd bios (P2V 4140) 3.

Lemma bad_bios_bytes : bytes_ok bad_bios.
Proof. apply upd_bytes; [exact bios_bytes|done]. Qed.

Lemma bios_first : mp_first bios (P2V 983040).
Proof. eexists. vm_compute. reflexivity. Qed.

Lemma bad_bios_conf : forall mp conf, mp_first bad_bios mp -> ~ conf_valid bad_bios mp conf.
Proof.
  intros mp conf H. assert (E : mp = P2V 983040) by (destruct H as [i H]; vm_compute in H; vm_compute; congruence). subst mp.
  intros (_ & -> & _ & _ & H'). vm_compute in H'. congruence.
Qed.

Lemma mpinit_spec_witness :
  mpinit mp_turns bios 0 globals0 = Ok (mk_mpst [5; 7] 9 4276092928 []) /\
  mpinit mp_turns bad_bios 0 globals0 = Panic "Expect to run on an SMP".
Proof.
  split.
  - apply (proj1 (mpinit_spec bios 0 globals0 bios_bytes eq_refl) (P2V 983040) (P2V 4096) [EProc 5; EProc 7; EOther 1; EIoapic 9]).
    + exact bios_first.
    + vm_compute. split_and!; try done. by right.
    + vm_compute. repeat split. by left.
    + vm_compute. reflexivity.
  - apply (proj2 (mpinit_spec bad_bios 0 globals0 bad_bios_bytes eq_refl)). exact bad_bios_conf.
Defined.

Lemma ioapic_routes_witness :
  exists d', (_ ← ioapicinit 0; enable_all [(1, 0); (14, 1)]) (mk_ioapic 0 (fun _ => 1507328)) = Ok (tt, d') /\
    route d' 1 = Some (33, 0) /\ route d' 14 = Some (46, 1) /\ route d' 4 = None.
Proof.
  destruct (ioapic_routes 0 [(1, 0); (14, 1)] (mk_ioapic 0 (fun _ => 1507328))) as (d' & R & H).
  - repeat constructor; cbn; lia.
  - exists d'. split; [exact R|]. rewrite !H by (vm_compute; split; congruence). split; [reflexivity|]. split; reflexivity.
Defined.

End MpDemo.
