(* ===== verification/Rtc.v ===== *)
(** * The clock of the machine (lapic.c, date.h)

    [cmostime] reads the registers of the real-time clock twice and takes the
    time if both agree.  The clock goes on between any two reads: it is a
    function from the number of reads so far to the registers. *)

From S2P Require Import Prelude.

Record rtcdate := mk_rtcdate { second : Z; minute : Z; hour : Z; day : Z; month : Z; year : Z }.

#[export] Instance rtcdate_eq_dec : EqDecision rtcdate.
Proof. solve_decision. Defined.

Definition SECS : Z := 0.
Definition MINS : Z := 2.
Definition HOURS : Z := 4.
Definition DAY : Z := 7.
Definition MONTH : Z := 8.
Definition YEAR : Z := 9.
Definition CMOS_STATA : Z := 10.
Definition CMOS_STATB : Z := 11.
Definition CMOS_UIP : Z := 128.

Section Cmos.

(** Register [r] as the [n]-th read finds it. *)
Variable rtc : nat -> Z -> Z.

(** The state is the number of reads. *)
Definition cmos_read (r : Z) : kM nat Z := fun n => Ok (rtc n r, S n).

Definition fill_rtcdate : kM nat rtcdate :=
  s ← cmos_read SECS;
  mi ← cmos_read MINS;
  h ← cmos_read HOURS;
  d ← cmos_read DAY;
  mo ← cmos_read MONTH;
  y ← cmos_read YEAR;
  mret (mk_rtcdate s mi h d mo y).

(** The loop of [cmostime]. *)
Fixpoint cmostime_loop (fuel : nat) : kM nat rtcdate :=
  match fuel with
  | O => kpanic "out of fuel"
  | S fuel =>
      t1 ← fill_rtcdate;
      a ← cmos_read CMOS_STATA;
      if c_true (Z.land a CMOS_UIP) then cmostime_loop fuel
      else
        t2 ← fill_rtcdate;
        if decide (t1 = t2) then mret t1 else cmostime_loop fuel
  end.

(** [CONV]: two decimal digits. *)
Definition conv (x : Z) : Z := Z.shiftr x 4 * 10 + Z.land x 15.

Definition convert (bcd : bool) (t : rtcdate) : rtcdate :=
  if bcd then mk_rtcdate (conv t.(second)) (conv t.(minute)) (conv t.(hour)) (conv t.(day)) (conv t.(month)) (conv t.(year)) else t.

Definition cmostime (fuel : nat) : kM nat rtcdate :=
  sb ← cmos_read CMOS_STATB;
  let bcd := Z.land sb 4 =? 0 in
  t1 ← cmostime_loop fuel;
  let t := convert bcd t1 in
  mret (mk_rtcdate t.(second) t.(minute) t.(hour) t.(day) t.(month) (u32 (t.(year) + 2000))).

(** ** What is read *)

(** The time on the clock at one moment. *)
Definition shown (n : nat) : rtcdate :=
  mk_rtcdate (rtc n SECS) (rtc n MINS) (rtc n HOURS) (rtc n DAY) (rtc n MONTH) (rtc n YEAR).

Lemma fill_run n : fill_rtcdate n =
  Ok (mk_rtcdate (rtc n SECS) (rtc (n + 1) MINS) (rtc (n + 2) HOURS) (rtc (n + 3) DAY) (rtc (n + 4) MONTH) (rtc (n + 5) YEAR), n + 6)%nat.
Proof. unfold fill_rtcdate. do 6 (erewrite kM_bind_run by reflexivity). rewrite kM_ret_run. repeat f_equal; lia. Qed.

(** The clock does not go on twice in thirteen reads. *)
Definition steady : Prop :=
  forall n, exists c A B, forall i, (n <= i < n + 13)%nat -> shown i = if decide (i < c)%nat then A else B.

Lemma shown_fields i d : shown i = d -> rtc i SECS = d.(second) /\ rtc i MINS = d.(minute) /\ rtc i HOURS = d.(hour) /\
  rtc i DAY = d.(day) /\ rtc i MONTH = d.(month) /\ rtc i YEAR = d.(year).
Proof. intros <-. done. Qed.

(** Two equal readings are the time at some moment between them. *)
Lemma readings_agree n :
  steady ->
  let t1 := mk_rtcdate (rtc n SECS) (rtc (n + 1) MINS) (rtc (n + 2) HOURS) (rtc (n + 3) DAY) (rtc (n + 4) MONTH) (rtc (n + 5) YEAR) in
  t1 = mk_rtcdate (rtc (n + 7) SECS) (rtc (n + 8) MINS) (rtc (n + 9) HOURS) (rtc (n + 10) DAY) (rtc (n + 11) MONTH) (rtc (n + 12) YEAR) ->
  exists i, (n <= i < n + 13)%nat /\ t1 = shown i.
Proof.
  intros St t1 E. destruct (St n) as (c & A & B & H).
  assert (F : forall i, (n <= i < n + 13)%nat -> let d := if decide (i < c)%nat then A else B in
    rtc i SECS = d.(second) /\ rtc i MINS = d.(minute) /\ rtc i HOURS = d.(hour) /\ rtc i DAY = d.(day) /\ rtc i MONTH = d.(month) /\ rtc i YEAR = d.(year)).
  { intros i Hi. apply shown_fields. by apply H. }
  destruct (decide (c <= n + 7)%nat) as [Hc|Hc].
  - exists (n + 12)%nat. split; [lia|]. rewrite E, H, decide_False by lia.
    destruct (F (n + 7)%nat ltac:(lia)) as (-> & _). destruct (F (n + 8)%nat ltac:(lia)) as (_ & -> & _). destruct (F (n + 9)%nat ltac:(lia)) as (_ & _ & -> & _).
    destruct (F (n + 10)%nat ltac:(lia)) as (_ & _ & _ & -> & _). destruct (F (n + 11)%nat ltac:(lia)) as (_ & _ & _ & _ & -> & _).
    destruct (F (n + 12)%nat ltac:(lia)) as (_ & _ & _ & _ & _ & ->). rewrite !decide_False by lia. by destruct B.
  - exists n. split; [lia|]. rewrite H, decide_True by lia. unfold t1.
    destruct (F n ltac:(lia)) as (-> & _). destruct (F (n + 1)%nat ltac:(lia)) as (_ & -> & _). destruct (F (n + 2)%nat ltac:(lia)) as (_ & _ & -> & _).
    destruct (F (n + 3)%nat ltac:(lia)) as (_ & _ & _ & -> & _). destruct (F (n + 4)%nat ltac:(lia)) as (_ & _ & _ & _ & -> & _).
    destruct (F (n + 5)%nat ltac:(lia)) as (_ & _ & _ & _ & _ & ->). rewrite !decide_True by lia. by destruct A.
Qed.

Lemma cmostime_loop_run fuel : steady -> forall n t n',
  cmostime_loop fuel n = Ok (t, n') -> exists i, (n <= i < n')%nat /\ t = shown i.
Proof.
  intros St. induction fuel as [|fuel IH]; intros n t n' R; [done|]. cbn [cmostime_loop] in R.
  rewrite (kM_bind_run _ _ _ _ _ (fill_run n)) in R. erewrite kM_bind_run in R by reflexivity. destruct (c_true _).
  - destruct (IH _ _ _ R) as (i & Hi & ->). exists i. split; [lia|done].
  - rewrite (kM_bind_run _ _ _ _ _ (fill_run _)) in R. replace (S (n + 6)) with (n + 7)%nat in R by lia. rewrite <- !Nat.add_assoc in R. cbn [Nat.add] in R.
    destruct (decide _) as [E|E].
    + rewrite kM_ret_run in R. injection R as <- <-. destruct (readings_agree n St E) as (i & Hi & Ei).
      exists i. split; [lia|done].
    + destruct (IH _ _ _ R) as (i & Hi & ->). exists i. split; [lia|done].
Qed.

(** A clock at rest is read at once. *)
Lemma cmostime_loop_ends fuel n d :
  (forall i, (n <= i < n + 13)%nat -> shown i = d /\ Z.land (rtc i CMOS_STATA) CMOS_UIP = 0) ->
  cmostime_loop (S fuel) n = Ok (d, n + 13)%nat.
Proof.
  intros H. cbn [cmostime_loop]. rewrite (kM_bind_run _ _ _ _ _ (fill_run n)). erewrite kM_bind_run by reflexivity.
  assert (F : forall i, (n <= i < n + 13)%nat -> rtc i SECS = d.(second) /\ rtc i MINS = d.(minute) /\ rtc i HOURS = d.(hour) /\
    rtc i DAY = d.(day) /\ rtc i MONTH = d.(month) /\ rtc i YEAR = d.(year)) by (intros i Hi; apply shown_fields; by apply H).
  destruct (H (n + 6)%nat ltac:(lia)) as [_ ->]. change (c_true 0) with false. cbv iota. rewrite (kM_bind_run _ _ _ _ _ (fill_run _)).
  assert (T : forall k, (k = n \/ k = S (n + 6)) -> mk_rtcdate (rtc k SECS) (rtc (k + 1) MINS) (rtc (k + 2) HOURS) (rtc (k + 3) DAY) (rtc (k + 4) MONTH) (rtc (k + 5) YEAR) = d).
  { intros k Hk. destruct (F k ltac:(lia)) as (-> & _). destruct (F (k + 1)%nat ltac:(lia)) as (_ & -> & _). destruct (F (k + 2)%nat ltac:(lia)) as (_ & _ & -> & _).
    destruct (F (k + 3)%nat ltac:(lia)) as (_ & _ & _ & -> & _). destruct (F (k + 4)%nat ltac:(lia)) as (_ & _ & _ & _ & -> & _).
    destruct (F (k + 5)%nat ltac:(lia)) as (_ & _ & _ & _ & _ & ->). by destruct d. }
  rewrite !T by tauto. rewrite decide_True by done. rewrite kM_ret_run. do 2 f_equal. lia.
Qed.

End Cmos.

(** ** Binary-coded decimals *)

Definition bcd (x : Z) : Z := 16 * (x / 10) + x mod 10.

Lemma conv_bcd x : 0 <= x < 100 -> conv (bcd x) = x.
Proof.
  intros Hx. unfold conv, bcd. pose proof (Z.div_mod x 10 ltac:(lia)). pose proof (Z.mod_pos_bound x 10 ltac:(lia)).
  change 15 with (Z.ones 4). rewrite Z.land_ones, Z.shiftr_div_pow2 by lia. change (2 ^ 4) with 16.
  rewrite <- (Z.div_unique (16 * (x / 10) + x mod 10) 16 (x / 10) (x mod 10)) by lia.
  rewrite <- (Z.mod_unique (16 * (x / 10) + x mod 10) 16 (x / 10) (x mod 10)) by lia. lia.
Qed.

(** The registers of a clock that counts in decimal digits. *)
Definition bcd_date (t : rtcdate) : rtcdate :=
  mk_rtcdate (bcd t.(second)) (bcd t.(minute)) (bcd t.(hour)) (bcd t.(day)) (bcd t.(month)) (bcd t.(year)).

Definition date_ok (t : rtcdate) : Prop :=
  0 <= t.(second) < 60 /\ 0 <= t.(minute) < 60 /\ 0 <= t.(hour) < 24 /\ 1 <= t.(day) <= 31 /\ 1 <= t.(month) <= 12 /\ 0 <= t.(year) < 100.

(** [cmostime] returns a time that the clock has shown, never a mixture of
    two.  With a clock that goes on at most once in thirteen reads, the date
    that it returns is, digits decoded, that of one moment of the call, in the
    years from 2000 on; and if the clock rests for thirteen reads it returns. *)
Theorem cmostime_spec rtc fuel n :
  steady rtc -> (forall i, exists d, shown rtc i = bcd_date d /\ date_ok d) -> Z.land (rtc n CMOS_STATB) 4 = 0 ->
  (forall t n', cmostime rtc fuel n = Ok (t, n') ->
     exists i d, (n < i < n')%nat /\ shown rtc i = bcd_date d /\ t = mk_rtcdate d.(second) d.(minute) d.(hour) d.(day) d.(month) (2000 + d.(year))) /\
  ((forall i, (n < i < n + 14)%nat -> shown rtc i = shown rtc (S n) /\ Z.land (rtc i CMOS_STATA) CMOS_UIP = 0) -> (0 < fuel)%nat ->
     exists t, cmostime rtc fuel n = Ok (t, n + 14)%nat).
Proof.
  intros St Hd Hb. split.
  - intros t n' R. unfold cmostime in R. erewrite kM_bind_run in R by reflexivity. apply kM_bind_Ok in R as (t1 & n1 & R1 & R2).
    rewrite kM_ret_run in R2. injection R2 as <- <-. destruct (cmostime_loop_run rtc fuel St _ _ _ R1) as (i & Hi & ->).
    destruct (Hd i) as (d & Ed & D1 & D2 & D3 & D4 & D5 & D6). exists i, d. split_and!; [lia|lia|done|]. rewrite Ed, Hb. change (0 =? 0) with true.
    cbn [convert bcd_date second minute hour day month year]. rewrite !conv_bcd by lia. rewrite u32_small by (unfold is_u32; lia). f_equal. lia.
  - intros H Hf. destruct fuel as [|fuel]; [lia|]. unfold cmostime. erewrite kM_bind_run by reflexivity.
    rewrite (kM_bind_run _ _ _ _ _ (cmostime_loop_ends rtc fuel (S n) (shown rtc (S n)) ltac:(intros i Hi; apply H; lia))).
    rewrite kM_ret_run. eexists. do 2 f_equal. lia.
Qed.

Module RtcDemo.

(** The clock at 23:59:58 on 31 December 2025. *)
Definition newyear : rtcdate := mk_rtcdate 58 59 23 31 12 25.
Definition clock : nat -> Z -> Z := fun _ r =>
  let d := bcd_date newyear in
  if r =? SECS then d.(second) else if r =? MINS then d.(minute) else if r =? HOURS then d.(hour)
  else if r =? DAY then d.(day) else if r =? MONTH then d.(month) else if r =? YEAR then d.(year) else 0.

Lemma cmostime_spec_witness :
  exists t, cmostime clock 1 0%nat = Ok (t, 14%nat) /\ t = mk_rtcdate 58 59 23 31 12 2025.
Proof.
  assert (Sh : forall i, shown clock i = bcd_date newyear) by (intros i; reflexivity).
  destruct (cmostime_spec clock 1 0) as [K1 K2].
  - intros n. exists 0%nat, (bcd_date newyear), (bcd_date newyear). intros i _. by destruct (decide _).
  - intros i. exists newyear. split; [reflexivity|]. unfold date_ok. cbn. lia.
  - reflexivity.
  - destruct K2 as [t R]; [intros i _; split; reflexivity|lia|]. exists t. split; [exact R|]. vm_compute in R. by injection R as <-.
Defined.

End RtcDemo.
