(* ===== verification/Smp.v ===== *)
(** * Starting the other processors (lapic.c, picirq.c, startothers of main.c)

    The boot processor writes three words under a copy of entryother.S, sends
    the other processor the interrupts that reset and start it, and waits for
    it before the words are used for the next.  What a function of the boot
    processor does is a list of accesses to memory, ports and the local APIC;
    the other processors run beside it, and [sstep] interleaves them.

    [startothers_spec] shows that every processor enters [mpenter] on its own
    stack with the page table of entry.S, and that the start-up ends. *)

From S2P Require Import Prelude CString Mmu Proc Mp.

(** The registers of the local APIC. *)
Definition ID : Z := 8.
Definition VER : Z := 12.
Definition TPR : Z := 32.
Definition EOI : Z := 44.
Definition SVR : Z := 60.
Definition ENABLE : Z := 256.
Definition ESR : Z := 160.
Definition ICRLO : Z := 192.
Definition INIT : Z := 1280.
Definition STARTUP : Z := 1536.
Definition ASSERT : Z := 16384.
Definition LEVEL : Z := 32768.
Definition BCAST : Z := 524288.
Definition ICRHI : Z := 196.
Definition TIMER : Z := 200.
Definition X1 : Z := 11.
Definition PERIODIC : Z := 131072.
Definition PCINT : Z := 208.
Definition LINT0 : Z := 212.
Definition LINT1 : Z := 216.
Definition ERROR : Z := 220.
Definition MASKED : Z := 65536.
Definition TICR : Z := 224.
Definition TDCR : Z := 248.
Definition IRQ_TIMER : Z := 0.
Definition IRQ_ERROR : Z := 19.
Definition IRQ_SPURIOUS : Z := 31.
Definition CMOS_PORT : Z := 112.

(** What the boot processor does.  [Delivered] waits for the delivery of an
    interrupt, which is immediate here; [Spin i] waits for [cpus[i].started]. *)
Inductive act :=
| Outb (port v : Z)
| Copy (a : Z) (bytes : list Z)
| Store16 (a v : Z)
| Store32 (a v : Z)
| Lapicw (reg v : Z)
| Delivered
| Spin (i : nat).

Definition lapicinit (lapic ver : Z) : list act :=
  if lapic =? 0 then []
  else
    [Lapicw SVR (Z.lor ENABLE (T_IRQ0 + IRQ_SPURIOUS));
     Lapicw TDCR X1;
     Lapicw TIMER (Z.lor PERIODIC (T_IRQ0 + IRQ_TIMER));
     Lapicw TICR 10000000;
     Lapicw LINT0 MASKED;
     Lapicw LINT1 MASKED] ++
    (if 4 <=? Z.land (Z.shiftr ver 16) 255 then [Lapicw PCINT MASKED] else []) ++
    [Lapicw ERROR (T_IRQ0 + IRQ_ERROR);
     Lapicw ESR 0;
     Lapicw ESR 0;
     Lapicw EOI 0;
     Lapicw ICRHI 0;
     Lapicw ICRLO (Z.lor (Z.lor BCAST INIT) LEVEL);
     Delivered;
     Lapicw TPR 0].

Definition lapiceoi (lapic : Z) : list act := if lapic =? 0 then [] else [Lapicw EOI 0].

Definition lapicid (lapic : Z) (regs : Z -> Z) : Z := if lapic =? 0 then 0 else Z.shiftr (regs ID) 24.

Definition lapicstartap (apicid addr : Z) : list act :=
  let wrv := P2V (Z.lor (Z.shiftl 64 4) 103) in
  [Outb CMOS_PORT 15;
   Outb (CMOS_PORT + 1) 10;
   Store16 wrv 0;
   Store16 (wrv + 2) (u16 (Z.shiftr addr 4));
   Lapicw ICRHI (u32 (Z.shiftl apicid 24));
   Lapicw ICRLO (Z.lor (Z.lor INIT LEVEL) ASSERT);
   Lapicw ICRLO (Z.lor INIT LEVEL)] ++
  concat (replicate 2 [Lapicw ICRHI (u32 (Z.shiftl apicid 24)); Lapicw ICRLO (Z.lor STARTUP (Z.shiftr addr 12))]).

Definition picinit : list act := [Outb (32 + 1) 255; Outb (160 + 1) 255].

Section Startothers.

(** The image of entryother.S, the addresses of [mpenter] and [entrypgdir],
    the processors with their APIC ids, the one that runs, and the pages that
    [kalloc] gives. *)
Variable entryother : list Z.
Variable mpenter entrypgdir : Z.
Variable apicids : list Z.
Variable mycpu : nat.
Variable stack : nat -> Z.

Definition code : Z := P2V 28672.     (* 0x7000 *)

(** The body of the loop. *)
Definition start_one (i : nat) : list act :=
  [Store32 (code - 4) (u32 (stack i + KSTACKSIZE));
   Store32 (code - 8) mpenter;
   Store32 (code - 12) (V2P entrypgdir)] ++
  lapicstartap (nth i apicids 0) (V2P code) ++
  [Spin i].

Definition others : list nat := List.filter (fun i => negb (i =? mycpu)%nat) (seq 0 (length apicids)).

Definition startothers : list act := Copy code entryother :: concat (map start_one others).

(** ** The machine *)

(** A processor: before its reset, waiting for a start-up interrupt, at the
    start of its code, with [%cr3] loaded from [start-12], with [%esp] loaded
    from [start-4], in the function that [start-8] names, and done with
    [mpmain]. *)
Inductive apst :=
| Off
| WaitSipi
| Start (start : Z)
| Paged (start cr3 : Z)
| Stacked (start cr3 esp : Z)
| Entered (eip esp cr3 : Z)
| Up (eip esp cr3 : Z).

Record smp := mk_smp { sm : mem; lregs : Z -> Z; cpu : nat -> apst; todo : list act }.

(** An interrupt command reaches a processor by its APIC id, or all. *)
Definition reached (v dest : Z) (i : nat) : bool :=
  Z.testbit v 19 || bool_decide (apicids !! i = Some dest).

(** INIT resets a processor if it is asserted; a start-up interrupt is
    accepted by a processor that waits for one, at the page it gives. *)
Definition deliver (v dest : Z) (cpus : nat -> apst) : nat -> apst := fun i =>
  if reached v dest i then
    if Z.land v 1792 =? INIT then if Z.testbit v 14 then WaitSipi else cpus i
    else if Z.land v 1792 =? STARTUP then
      match cpus i with WaitSipi => Start (Z.shiftl (Z.land v 255) 12) | st => st end
    else cpus i
  else cpus i.

Fixpoint copy_in (m : mem) (a : Z) (l : list Z) : mem :=
  match l with
  | [] => m
  | b :: l => copy_in (upd m a b) (a + 1) l
  end.

Definition is_up (st : apst) : bool := match st with Up _ _ _ => true | _ => false end.

(** An access of the boot processor; [None] while it has to wait. *)
Definition act_sem (a : act) (s : smp) : option smp :=
  match a with
  | Outb _ _ | Delivered => Some s
  | Copy a l => Some (mk_smp (copy_in s.(sm) a l) s.(lregs) s.(cpu) s.(todo))
  | Store16 a v => Some (mk_smp (upd (upd s.(sm) a (u8 v)) (a + 1) (u8 (Z.shiftr v 8))) s.(lregs) s.(cpu) s.(todo))
  | Store32 a v => Some (mk_smp (store32 s.(sm) a v) s.(lregs) s.(cpu) s.(todo))
  | Lapicw r v =>
      Some (mk_smp s.(sm) (upd s.(lregs) r v)
        (if r =? ICRLO then deliver v (Z.shiftr (s.(lregs) ICRHI) 24) s.(cpu) else s.(cpu)) s.(todo))
  | Spin i => if is_up (s.(cpu) i) then Some s else None
  end.

(** The code of entryother.S is at [start]. *)
Definition has_code (m : mem) (start : Z) : bool := bool_decide (bytes_at m (P2V start) (length entryother) = entryother).

(** A step of another processor: entryother.S, and the way from [mpenter] to
    the place in [mpmain] where [started] is set. *)
Definition ap_step (m : mem) (st : apst) : option apst :=
  match st with
  | Start s => if has_code m s then Some (Paged s (load32 m (P2V (s - 12)))) else None
  | Paged s cr3 => if has_code m s then Some (Stacked s cr3 (load32 m (P2V (s - 4)))) else None
  | Stacked s cr3 esp => if has_code m s then Some (Entered (load32 m (P2V (s - 8))) esp cr3) else None
  | Entered eip esp cr3 => if eip =? mpenter then Some (Up eip esp cr3) else None
  | _ => None
  end.

Definition set_cpu (i : nat) (st : apst) (s : smp) : smp :=
  mk_smp s.(sm) s.(lregs) (fun k => if (k =? i)%nat then st else s.(cpu) k) s.(todo).

Inductive sstep : smp -> smp -> Prop :=
| s_boot s a rest s' : s.(todo) = a :: rest -> act_sem a s = Some s' -> sstep s (mk_smp s'.(sm) s'.(lregs) s'.(cpu) rest)
| s_ap s i st : i ∈ others -> ap_step s.(sm) (s.(cpu) i) = Some st -> sstep s (set_cpu i st s).

(** The machine as [startothers] begins. *)
Record begins (s : smp) : Prop := {
  be_todo : s.(todo) = startothers;
  be_off : forall i, i ∈ others -> s.(cpu) i = Off
}.

Inductive sreach : smp -> Prop :=
| sr_begin s : begins s -> sreach s
| sr_step s s' : sreach s -> sstep s s' -> sreach s'.

(** ** The invariant *)

Hypothesis ids_distinct : NoDup apicids.
Hypothesis ids_bytes : Forall is_u8 apicids.
Hypothesis mpenter_word : is_u32 mpenter.

Definition top (i : nat) : Z := u32 (stack i + KSTACKSIZE).

(** Processor [i] is up as it should be. *)
Definition good (i : nat) (st : apst) : Prop := st = Up mpenter (top i) (V2P entrypgdir).

(** Processor [i] has been started and is on its way. *)
Definition coming (i : nat) (st : apst) : Prop :=
  st = Start 28672 \/ st = Paged 28672 (V2P entrypgdir) \/ st = Stacked 28672 (V2P entrypgdir) (top i) \/
  st = Entered mpenter (top i) (V2P entrypgdir) \/ good i st.

(** The boot processor has done [k] accesses of the loop body for [i]. *)
Record phase (i k : nat) (s : smp) : Prop := {
  ph_code : bytes_at s.(sm) code (length entryother) = entryother;
  ph_stack : (1 <= k)%nat -> load32 s.(sm) (code - 4) = top i;
  ph_enter : (2 <= k)%nat -> load32 s.(sm) (code - 8) = mpenter;
  ph_pgdir : (3 <= k)%nat -> load32 s.(sm) (code - 12) = V2P entrypgdir;
  ph_dest : (8 <= k)%nat -> s.(lregs) ICRHI = u32 (Z.shiftl (nth i apicids 0) 24);
  ph_off : (k <= 8)%nat -> s.(cpu) i = Off;
  ph_wait : (9 <= k <= 11)%nat -> s.(cpu) i = WaitSipi;
  ph_coming : (12 <= k)%nat -> coming i (s.(cpu) i)
}.

Inductive sinv (s : smp) : Prop :=
| si_first : s.(todo) = startothers -> (forall i, i ∈ others -> s.(cpu) i = Off) -> sinv s
| si_at pre i post k : others = pre ++ i :: post -> (k < 15)%nat ->
    s.(todo) = drop k (start_one i) ++ concat (map start_one post) ->
    (forall j, j ∈ pre -> good j (s.(cpu) j)) -> (forall j, j ∈ post -> s.(cpu) j = Off) -> phase i k s -> sinv s
| si_done : s.(todo) = [] -> (forall j, j ∈ others -> good j (s.(cpu) j)) -> sinv s.

Lemma others_nodup : NoDup others.
Proof. apply NoDup_ListNoDup, List.NoDup_filter, NoDup_ListNoDup, NoDup_seq. Qed.

Lemma others_lt i : i ∈ others -> (i < length apicids)%nat.
Proof. intros H. apply list_elem_of_In, filter_In in H as [H _]. apply in_seq in H. lia. Qed.

Lemma id_at i : i ∈ others -> apicids !! i = Some (nth i apicids 0) /\ is_u8 (nth i apicids 0).
Proof.
  intros H. apply others_lt in H. destruct (lookup_lt_is_Some_2 apicids i H) as [x E]. rewrite (nth_lookup_Some _ _ _ _ E).
  split; [done|]. by apply (Forall_lookup_1 _ _ _ _ ids_bytes E).
Qed.

(** A command to [i] reaches no other processor. *)
Lemma reached_one v i : Z.testbit v 19 = false -> i ∈ others -> forall j,
  reached v (Z.shiftr (u32 (Z.shiftl (nth i apicids 0) 24)) 24) j = bool_decide (j = i).
Proof.
  intros Hv Hi j. destruct (id_at i Hi) as [Ei Bi]. unfold reached. rewrite Hv. cbn [orb].
  assert (E : Z.shiftr (u32 (Z.shiftl (nth i apicids 0) 24)) 24 = nth i apicids 0).
  { unfold is_u8 in Bi. rewrite Z.shiftl_mul_pow2, u32_small, Z.shiftr_div_pow2 by (unfold is_u32; lia). apply Z.div_mul. lia. }
  rewrite E. apply bool_decide_ext. split; [|intros ->; exact Ei]. intros Ej. by apply (NoDup_lookup apicids j i (nth i apicids 0)).
Qed.

Lemma copy_in_frame l : forall m a x, x < a -> copy_in m a l x = m x.
Proof. induction l as [|b l IH]; intros m a x H; cbn [copy_in]; [done|]. rewrite IH by lia. apply upd_ne. lia. Qed.

Lemma copy_in_bytes l : forall m a, bytes_at (copy_in m a l) a (length l) = l.
Proof.
  induction l as [|b l IH]; intros m a; [done|]. unfold bytes_at in *. cbn [length seq map copy_in]. f_equal.
  - rewrite Z.add_0_r, copy_in_frame by lia. apply upd_eq.
  - rewrite <- seq_shift, map_map. etransitivity; [|apply (IH (upd m a b) (a + 1))]. apply map_ext. intros i. f_equal. lia.
Qed.

Lemma bytes_at_above m m' a n : (forall x, a <= x -> m' x = m x) -> bytes_at m' a n = bytes_at m a n.
Proof. intros H. unfold bytes_at. apply map_ext. intros i. apply H. lia. Qed.

Lemma code_value : code = 2147512320.
Proof. reflexivity. Qed.

Lemma wrv_value : P2V (Z.lor (Z.shiftl 64 4) 103) = 2147484775.
Proof. reflexivity. Qed.

(** The accesses of the loop body. *)
Lemma start_one_acts i : start_one i =
  [Store32 (code - 4) (top i); Store32 (code - 8) mpenter; Store32 (code - 12) (V2P entrypgdir);
   Outb 112 15; Outb 113 10; Store16 2147484775 0; Store16 2147484777 1792;
   Lapicw ICRHI (u32 (Z.shiftl (nth i apicids 0) 24)); Lapicw ICRLO 50432; Lapicw ICRLO 34048;
   Lapicw ICRHI (u32 (Z.shiftl (nth i apicids 0) 24)); Lapicw ICRLO 1543;
   Lapicw ICRHI (u32 (Z.shiftl (nth i apicids 0) 24)); Lapicw ICRLO 1543; Spin i].
Proof. reflexivity. Qed.

Definition rank (st : apst) : nat :=
  match st with Off => 6 | WaitSipi => 5 | Start _ => 4 | Paged _ _ => 3 | Stacked _ _ _ => 2 | Entered _ _ _ => 1 | Up _ _ _ => 0 end.

Lemma load32_upd16 (m : mem) a v w b : a + 2 <= b -> load32 (upd (upd m a v) (a + 1) w) b = load32 m b.
Proof. intros H. apply load32_ext. intros x Hx. by rewrite !upd_ne by lia. Qed.

(** An access that leaves the processors alone, and memory from [code] on. *)
Lemma phase_mem i k s m' l' : phase i k s -> (forall x, code <= x -> m' x = s.(sm) x) ->
  ((1 <= S k)%nat -> load32 m' (code - 4) = top i) -> ((2 <= S k)%nat -> load32 m' (code - 8) = mpenter) ->
  ((3 <= S k)%nat -> load32 m' (code - 12) = V2P entrypgdir) -> ((8 <= S k)%nat -> l' ICRHI = u32 (Z.shiftl (nth i apicids 0) 24)) ->
  k <> 8%nat -> k <> 11%nat -> forall t, phase i (S k) (mk_smp m' l' s.(cpu) t).
Proof.
  intros [P1 P2 P3 P4 P5 P6 P7 P8] Hm H1 H2 H3 H4 K1 K2 t. split; cbn [sm lregs cpu]; try done.
  - by rewrite (bytes_at_above s.(sm)).
  - intros H. apply P6. lia.
  - intros H. apply P7. lia.
  - intros H. apply P8. lia.
Qed.

(** A command to processor [i]. *)
Lemma phase_ipi i k v s st : i ∈ others -> phase i k s -> (8 <= k)%nat -> Z.testbit v 19 = false ->
  (forall j, deliver v (Z.shiftr (s.(lregs) ICRHI) 24) s.(cpu) j = if decide (j = i) then st else s.(cpu) j) ->
  ((9 <= S k <= 11)%nat -> st = WaitSipi) -> ((12 <= S k)%nat -> coming i st) -> forall t,
  phase i (S k) (mk_smp s.(sm) (upd s.(lregs) ICRLO v) (deliver v (Z.shiftr (s.(lregs) ICRHI) 24) s.(cpu)) t).
Proof.
  intros Hi [P1 P2 P3 P4 P5 P6 P7 P8] Hk Hv D W C t.
  split; cbn [sm lregs cpu]; try (intros; done || lia); try (intros; (apply P2 || apply P3 || apply P4); lia).
  - intros _. rewrite upd_ne by done. apply P5. lia.
  - intros H. rewrite D. destruct (decide (i = i)); [by apply W|done].
  - intros H. rewrite D. destruct (decide (i = i)); [by apply C|done].
Qed.

Lemma deliver_one i k v s : i ∈ others -> phase i k s -> (8 <= k)%nat -> Z.testbit v 19 = false -> forall j,
  deliver v (Z.shiftr (s.(lregs) ICRHI) 24) s.(cpu) j =
    if decide (j = i) then
      if Z.land v 1792 =? INIT then if Z.testbit v 14 then WaitSipi else s.(cpu) i
      else if Z.land v 1792 =? STARTUP then match s.(cpu) i with WaitSipi => Start (Z.shiftl (Z.land v 255) 12) | st => st end
      else s.(cpu) i
    else s.(cpu) j.
Proof.
  intros Hi P Hk Hv j. unfold deliver. rewrite (ph_dest _ _ _ P Hk), reached_one by done.
  destruct (decide (j = i)) as [->|Hne]; [by rewrite bool_decide_true|by rewrite bool_decide_false].
Qed.

Lemma phase_cmd i k v s st : i ∈ others -> phase i k s -> (8 <= k)%nat -> Z.testbit v 19 = false ->
  (if Z.land v 1792 =? INIT then if Z.testbit v 14 then WaitSipi else s.(cpu) i
   else if Z.land v 1792 =? STARTUP then match s.(cpu) i with WaitSipi => Start (Z.shiftl (Z.land v 255) 12) | st => st end
   else s.(cpu) i) = st ->
  ((9 <= S k <= 11)%nat -> st = WaitSipi) -> ((12 <= S k)%nat -> coming i st) -> (rank st <= rank (s.(cpu) i))%nat -> k <> 14%nat ->
  let s' := mk_smp s.(sm) (upd s.(lregs) ICRLO v) (deliver v (Z.shiftr (s.(lregs) ICRHI) 24) s.(cpu)) s.(todo) in
  (forall t, phase i (S k) (mk_smp s'.(sm) s'.(lregs) s'.(cpu) t)) /\ (forall j, j <> i -> s'.(cpu) j = s.(cpu) j) /\
  (rank (s'.(cpu) i) <= rank (s.(cpu) i))%nat /\ (k = 14%nat -> good i (s'.(cpu) i)).
Proof.
  intros Hi P Hk Hv E W C R Hn s'. pose proof (deliver_one i k v s Hi P Hk Hv) as D. rewrite E in D. cbn [sm lregs cpu s']. split_and!; [| | |done].
  - by apply (phase_ipi i k v s st).
  - intros j Hj. rewrite D. by destruct (decide (j = i)).
  - rewrite D. by destruct (decide (i = i)).
Qed.

(** The effect of an access on the phase and on the processors. *)
Lemma phase_step i k s a s' : i ∈ others -> phase i k s -> start_one i !! k = Some a -> act_sem a s = Some s' ->
  (forall t, phase i (S k) (mk_smp s'.(sm) s'.(lregs) s'.(cpu) t)) /\ (forall j, j <> i -> s'.(cpu) j = s.(cpu) j) /\
  (rank (s'.(cpu) i) <= rank (s.(cpu) i))%nat /\ (k = 14%nat -> good i (s'.(cpu) i)).
Proof.
  intros Hi P Ha Hs. rewrite start_one_acts in Ha.
  assert (Ht : is_u32 (top i)) by apply u32_range. assert (Hp : is_u32 (V2P entrypgdir)) by apply u32_range.
  destruct k as [|[|[|[|[|[|[|[|[|[|[|[|[|[|[|k]]]]]]]]]]]]]]]; cbn in Ha; [injection Ha as <-; cbn [act_sem] in Hs..|done].
  1-7: injection Hs as <-; cbn [sm lregs cpu]; (split_and!; [|done|done|done]); apply (phase_mem i _ s _ _ P); try (intros; lia);
    try (intros x Hx; try apply store32_frame; rewrite ?upd_ne; rewrite ?code_value in *; lia || done);
    (intros _; first [by apply load32_store32_eq | rewrite ?load32_store32_ne by lia; rewrite ?load32_upd16 by (rewrite code_value; lia); apply P; lia]).
  1, 4, 6: injection Hs as <-; cbn [sm lregs cpu]; (split_and!; [|done|done|done]);
    apply (phase_mem i _ s _ _ P); try (intros; done || lia); try (intros _; apply P; lia); intros _; apply upd_eq.
  1-4: injection Hs as <-; change (ICRLO =? ICRLO) with true; cbv iota.
  - apply (phase_cmd i 8 50432 s WaitSipi); try done || lia. rewrite (ph_off _ _ _ P) by lia. cbn. lia.
  - pose proof (ph_wait _ _ _ P ltac:(lia)) as E. apply (phase_cmd i 9 34048 s WaitSipi); try done || lia. by rewrite E.
  - pose proof (ph_wait _ _ _ P ltac:(lia)) as E. apply (phase_cmd i 11 1543 s (Start 28672)); try done || lia; [by rewrite E|by left|rewrite E; cbn; lia].
  - pose proof (ph_coming _ _ _ P ltac:(lia)) as C. apply (phase_cmd i 13 1543 s (cpu s i)); try done || lia.
    unfold coming, good in C. by destruct C as [C | [C | [C | [C | C]]]]; rewrite C.
  - destruct (is_up (cpu s i)) eqn:U; [|done]. injection Hs as <-. split_and!; [|done|done|].
    + intros t. destruct P as [P1 P2 P3 P4 P5 P6 P7 P8]. split; cbn [sm lregs cpu]; try (intros; lia); try done;
        intros _; (apply P2 || apply P3 || apply P4 || apply P5 || apply P8); lia.
    + intros _. by destruct (ph_coming _ _ _ P ltac:(lia)) as [C | [C | [C | [C | C]]]]; [rewrite C in U..|].
Qed.

(** A step of a processor that has been started. *)
Lemma coming_step i k s st : phase i k s -> (12 <= k)%nat -> coming i (s.(cpu) i) -> ap_step s.(sm) (s.(cpu) i) = Some st ->
  coming i st /\ (rank st < rank (s.(cpu) i))%nat.
Proof.
  intros P Hk C Hs. assert (Hc : has_code s.(sm) 28672 = true) by (apply bool_decide_eq_true, P).
  unfold coming, good in C |- *. destruct C as [E | [E | [E | [E | E]]]]; rewrite E in Hs |- *; cbn [ap_step] in Hs; rewrite ?Hc in Hs.
  - injection Hs as <-. change (P2V (28672 - 12)) with (code - 12). rewrite (ph_pgdir _ _ _ P) by lia. cbn. split; [tauto|lia].
  - injection Hs as <-. change (P2V (28672 - 4)) with (code - 4). rewrite (ph_stack _ _ _ P) by lia. cbn. split; [tauto|lia].
  - injection Hs as <-. change (P2V (28672 - 8)) with (code - 8). rewrite (ph_enter _ _ _ P) by lia. cbn. split; [tauto|lia].
  - rewrite Z.eqb_refl in Hs. injection Hs as <-. cbn. split; [tauto|lia].
  - done.
Qed.

Lemma sinv_begin s : begins s -> sinv s.
Proof. intros [B1 B2]. by apply si_first. Qed.

(** The work that is left. *)
Definition work (s : smp) : nat := length s.(todo) + sum_list_with (fun i => rank (s.(cpu) i)) others.

Lemma sum_le (f g : nat -> nat) l : (forall i, i ∈ l -> (f i <= g i)%nat) -> (sum_list_with f l <= sum_list_with g l)%nat.
Proof.
  induction l as [|x l IH]; intros H; cbn; [lia|]. pose proof (H x ltac:(by left)). assert (sum_list_with f l <= sum_list_with g l)%nat; [|lia].
  apply IH. intros i Hi. apply H. by right.
Qed.

Lemma sum_lt (f g : nat -> nat) i l : i ∈ l -> (f i < g i)%nat -> (forall j, j ∈ l -> (f j <= g j)%nat) -> (sum_list_with f l < sum_list_with g l)%nat.
Proof.
  intros Hi Hlt H. induction l as [|x l IH]; [by apply elem_of_nil in Hi|]. cbn. apply elem_of_cons in Hi as [-> | Hi].
  - assert (sum_list_with f l <= sum_list_with g l)%nat by (apply sum_le; intros j Hj; apply H; by right). lia.
  - pose proof (H x ltac:(by left)). specialize (IH Hi). assert (sum_list_with f l < sum_list_with g l)%nat; [|lia]. apply IH. intros j Hj. apply H. by right.
Qed.

(** The boot processor turns to the next processor, if there is one. *)
Lemma sinv_next pre post s : others = pre ++ post -> s.(todo) = concat (map start_one post) -> bytes_at s.(sm) code (length entryother) = entryother ->
  (forall j, j ∈ pre -> good j (s.(cpu) j)) -> (forall j, j ∈ post -> s.(cpu) j = Off) -> sinv s.
Proof.
  intros Ho Ht Hc Hg Hf. destruct post as [|i post].
  - apply si_done; [done|]. rewrite Ho, app_nil_r. done.
  - apply (si_at s pre i post 0); try done; [lia| |].
    + intros j Hj. apply Hf. by right.
    + split; try (intros; lia); [done|]. intros _. apply Hf. by left.
Qed.

Lemma split_facts pre i post : others = pre ++ i :: post ->
  i ∈ others /\ (i ∉ pre) /\ (i ∉ post) /\ forall j, j ∈ others -> j = i \/ j ∈ pre \/ j ∈ post.
Proof.
  intros Ho. pose proof others_nodup as N. rewrite Ho in N |- *. apply NoDup_app in N as (N1 & N2 & N3). apply NoDup_cons in N3 as [N3 N4].
  split_and!; [rewrite elem_of_app; right; by left|intros H; apply (N2 i H); by left|done|].
  intros j. rewrite elem_of_app, elem_of_cons. tauto.
Qed.

Lemma sinv_boot s a rest s1 : sinv s -> s.(todo) = a :: rest -> act_sem a s = Some s1 ->
  sinv (mk_smp s1.(sm) s1.(lregs) s1.(cpu) rest) /\ forall j, j ∈ others -> (rank (s1.(cpu) j) <= rank (s.(cpu) j))%nat.
Proof.
  intros [T O | pre i post k Ho Hk T G F P | T G] Ht Ha; [| |congruence].
  - rewrite T in Ht. injection Ht as <- <-. cbn in Ha. injection Ha as <-. cbn [sm lregs cpu]. split; [|done].
    apply (sinv_next [] others); try done; [apply copy_in_bytes|]. intros j Hj. by apply elem_of_nil in Hj.
  - destruct (split_facts _ _ _ Ho) as (Hi & Hp & Hq & Hall). rewrite T in Ht.
    destruct (lookup_lt_is_Some_2 (start_one i) k) as [b Eb]; [rewrite start_one_acts; exact Hk|].
    rewrite (drop_S _ _ _ Eb) in Ht. injection Ht as -> <-. destruct (phase_step i k s a s1 Hi P Eb Ha) as (P' & Hj & R & U). split.
    + destruct (decide (k = 14%nat)) as [->|Hne].
      * apply (sinv_next (pre ++ [i]) post); cbn [sm cpu todo].
        -- by rewrite Ho, <- app_assoc.
        -- done.
        -- apply (ph_code _ _ _ (P' [])).
        -- intros j. rewrite elem_of_app, list_elem_of_singleton. intros [H | ->]; [rewrite Hj by (intros ->; done); by apply G|by apply U].
        -- intros j H. rewrite Hj by (intros ->; done). by apply F.
      * apply (si_at _ pre i post (S k)); cbn [cpu todo]; [done|lia|done| | |apply P'].
        -- intros j H. rewrite Hj by (intros ->; done). by apply G.
        -- intros j H. rewrite Hj by (intros ->; done). by apply F.
    + intros j H. destruct (decide (j = i)) as [->|Hne]; [done|]. by rewrite Hj.
Qed.

Lemma sinv_ap s i st : sinv s -> i ∈ others -> ap_step s.(sm) (s.(cpu) i) = Some st -> sinv (set_cpu i st s) /\ (rank st < rank (s.(cpu) i))%nat.
Proof.
  intros [T O | pre j post k Ho Hk T G F P | T G] Hi Hs.
  - by rewrite (O i Hi) in Hs.
  - destruct (split_facts _ _ _ Ho) as (Hj & Hp & Hq & Hall). destruct (Hall i Hi) as [-> | [H | H]].
    2: by rewrite (G i H) in Hs. 2: by rewrite (F i H) in Hs.
    destruct (decide (k <= 8)%nat); [by rewrite (ph_off _ _ _ P) in Hs|].
    destruct (decide (k <= 11)%nat); [by rewrite (ph_wait _ _ _ P) in Hs by lia|].
    destruct (coming_step j k s st P ltac:(lia) (ph_coming _ _ _ P ltac:(lia)) Hs) as [C R]. split; [|done].
    apply (si_at _ pre j post k); cbn [set_cpu cpu todo]; try done.
    + intros i H. destruct (Nat.eqb_spec i j) as [->|_]; [done|by apply G].
    + intros i H. destruct (Nat.eqb_spec i j) as [->|_]; [done|by apply F].
    + destruct P as [P1 P2 P3 P4 P5 P6 P7 P8]. split; cbn [set_cpu sm lregs cpu]; try done; rewrite ?Nat.eqb_refl; intros; (done || lia).
  - by rewrite (G i Hi) in Hs.
Qed.

Lemma sinv_step s s' : sinv s -> sstep s s' -> sinv s' /\ (work s' < work s)%nat.
Proof.
  intros I St. revert I. destruct St as [s a rest s1 Ht Ha | s i st Hi Hs]; intros I.
  - destruct (sinv_boot _ _ _ _ I Ht Ha) as [I' R]. split; [done|]. unfold work. cbn [todo cpu]. rewrite Ht. cbn [length].
    pose proof (sum_le _ _ others R). lia.
  - destruct (sinv_ap _ _ _ I Hi Hs) as [I' R]. split; [done|]. unfold work. cbn [set_cpu todo cpu].
    assert (sum_list_with (fun j => rank (if (j =? i)%nat then st else cpu s j)) others < sum_list_with (fun j => rank (cpu s j)) others)%nat; [|lia].
    apply (sum_lt _ _ i); [done|by rewrite Nat.eqb_refl|]. intros j Hj. destruct (Nat.eqb_spec j i) as [->|_]; lia.
Qed.

Lemma sreach_inv s : sreach s -> sinv s.
Proof. induction 1 as [s B | s s' _ IH St]; [by apply sinv_begin|by apply (sinv_step s)]. Qed.

(** Whoever has been entered has been entered right. *)
Lemma sinv_entered s i eip esp cr3 : sinv s -> i ∈ others -> s.(cpu) i = Entered eip esp cr3 \/ s.(cpu) i = Up eip esp cr3 ->
  eip = mpenter /\ esp = top i /\ cr3 = V2P entrypgdir.
Proof.
  assert (Hgood : forall st, good i st -> st = Entered eip esp cr3 \/ st = Up eip esp cr3 -> eip = mpenter /\ esp = top i /\ cr3 = V2P entrypgdir).
  { unfold good. intros st -> [E | E]; [done|]. injection E. auto. }
  intros [T O | pre j post k Ho Hk T G F P | T G] Hi E.
  - rewrite (O i Hi) in E. by destruct E.
  - destruct (split_facts _ _ _ Ho) as (Hj & Hp & Hq & Hall). destruct (Hall i Hi) as [-> | [H | H]].
    + destruct (decide (k <= 8)%nat); [rewrite (ph_off _ _ _ P) in E by done; by destruct E|].
      destruct (decide (k <= 11)%nat); [rewrite (ph_wait _ _ _ P) in E by lia; by destruct E|].
      destruct (ph_coming _ _ _ P ltac:(lia)) as [C | [C | [C | [C | C]]]]; [..|by apply (Hgood _ C)]; rewrite C in E; destruct E as [E | E]; try done.
      injection E. auto.
    + by apply (Hgood _ (G i H)).
    + rewrite (F i H) in E. by destruct E.
  - by apply (Hgood _ (G i Hi)).
Qed.

(** The machine can go on until all is done. *)
Lemma sinv_progress s : sinv s -> (s.(todo) = [] /\ forall i, i ∈ others -> is_up (s.(cpu) i) = true) \/ exists s', sstep s s'.
Proof.
  intros [T O | pre i post k Ho Hk T G F P | T G].
  - right. eexists. eapply s_boot; [exact T|reflexivity].
  - right. destruct (split_facts _ _ _ Ho) as (Hi & _). destruct (lookup_lt_is_Some_2 (start_one i) k) as [b Eb]; [rewrite start_one_acts; exact Hk|].
    rewrite (drop_S _ _ _ Eb) in T. destruct (act_sem b s) as [s1|] eqn:Ea; [eexists; eapply s_boot; [exact T|exact Ea]|].
    rewrite start_one_acts in Eb.
    destruct k as [|[|[|[|[|[|[|[|[|[|[|[|[|[|[|k]]]]]]]]]]]]]]]; cbn in Eb; [injection Eb as <-; try done..|done].
    assert (Hc : has_code s.(sm) 28672 = true) by (apply bool_decide_eq_true, P).
    cbn in Ea. destruct (is_up (cpu s i)) eqn:U; [done|].
    assert (exists st, ap_step s.(sm) (s.(cpu) i) = Some st) as [st Hst]; [|eexists; by apply (s_ap s i st)].
    destruct (ph_coming _ _ _ P ltac:(lia)) as [C | [C | [C | [C | C]]]]; rewrite C in U |- *; cbn [ap_step]; rewrite ?Hc, ?Z.eqb_refl; done || by eexists.
  - left. split; [done|]. intros i Hi. by rewrite (G i Hi).
Qed.

(** C22. The other processors are started one by one.  However their steps
    fall between those of the boot processor, each calls [mpenter] on the top
    of the stack that was allocated for it, with the page table of entry.S:
    the three words under the code are not changed before it has read them.
    No step is left undone: the machine can go on as long as a processor is
    not up, every step leaves less to do, and so [startothers] ends, with all
    processors up. *)
Theorem startothers_spec s : sreach s ->
  (forall i eip esp cr3, i ∈ others -> s.(cpu) i = Entered eip esp cr3 \/ s.(cpu) i = Up eip esp cr3 ->
    eip = mpenter /\ esp = u32 (stack i + KSTACKSIZE) /\ cr3 = V2P entrypgdir) /\
  ((s.(todo) = [] /\ forall i, i ∈ others -> is_up (s.(cpu) i) = true) \/ exists s', sstep s s') /\
  (forall s', sstep s s' -> (work s' < work s)%nat).
Proof.
  intros R. apply sreach_inv in R. split_and!.
  - intros i eip esp cr3. by apply sinv_entered.
  - by apply sinv_progress.
  - intros s' St. by apply (sinv_step s).
Qed.

(** An access to the local APIC that reaches no other processor. *)
Definition quiet (a : act) : bool :=
  match a with
  | Lapicw r v => negb (r =? ICRLO) || ((Z.land v 1792 =? INIT) && negb (Z.testbit v 14))
  | Delivered => true
  | _ => false
  end.

Fixpoint written (acts : list act) (l : Z -> Z) : Z -> Z :=
  match acts with
  | [] => l
  | Lapicw r v :: acts => written acts (upd l r v)
  | _ :: acts => written acts l
  end.

Fixpoint act_all (acts : list act) (s : smp) : option smp :=
  match acts with
  | [] => Some s
  | a :: acts => s' ← act_sem a s; act_all acts s'
  end.

Lemma quiet_run acts : forallb quiet acts = true -> forall s, exists s', act_all acts s = Some s' /\
  (forall i, s'.(cpu) i = s.(cpu) i) /\ s'.(sm) = s.(sm) /\ s'.(lregs) = written acts s.(lregs).
Proof.
  induction acts as [|a acts IH]; intros Q s; [by exists s|]. cbn [forallb] in Q. apply andb_true_iff in Q as [Qa Q].
  destruct a as [| | | |r v| |]; try done.
  - destruct (IH Q (mk_smp s.(sm) (upd s.(lregs) r v) (if r =? ICRLO then deliver v (Z.shiftr (s.(lregs) ICRHI) 24) s.(cpu) else s.(cpu)) s.(todo)))
      as (s' & R & C & M & L).
    exists s'. split_and!; [exact R| |done|exact L]. intros i. rewrite C. cbn [cpu]. destruct (r =? ICRLO) eqn:E; [|done].
    unfold quiet in Qa. rewrite E in Qa. cbn [negb orb] in Qa. apply andb_true_iff in Qa as [Q1 Q2]. apply negb_true_iff in Q2.
    unfold deliver. rewrite Q1, Q2. by destruct (reached _ _ _).
  - destruct (IH Q s) as (s' & R). exists s'. exact R.
Qed.

(** The initialisation of a local APIC disturbs no processor: its broadcast
    is a de-assertion, which resets none.  It leaves the timer to interrupt
    periodically at the vector of the clock, the lines LINT0 and LINT1
    masked, a vector for errors, and no priority that holds interrupts back. *)
Theorem lapicinit_spec lapic ver s : lapic <> 0 -> exists s', act_all (lapicinit lapic ver) s = Some s' /\
  (forall i, s'.(cpu) i = s.(cpu) i) /\ s'.(sm) = s.(sm) /\
  s'.(lregs) TIMER = Z.lor PERIODIC T_IRQ0 /\ s'.(lregs) LINT0 = MASKED /\ s'.(lregs) LINT1 = MASKED /\
  s'.(lregs) ERROR = T_IRQ0 + IRQ_ERROR /\ s'.(lregs) TPR = 0 /\ s'.(lregs) SVR = Z.lor ENABLE (T_IRQ0 + IRQ_SPURIOUS) /\
  (4 <= Z.land (Z.shiftr ver 16) 255 -> s'.(lregs) PCINT = MASKED).
Proof.
  intros Hl. unfold lapicinit. rewrite (proj2 (Z.eqb_neq _ _) Hl).
  destruct (Z.leb_spec 4 (Z.land (Z.shiftr ver 16) 255)) as [Hv|Hv];
    (match goal with |- exists s', act_all ?l s = _ /\ _ => destruct (quiet_run l) with (s := s) as (s' & R & C & M & L); [reflexivity|] end);
    exists s'; rewrite L; (split_and!; [exact R|exact C|exact M|..]); try (vm_compute; reflexivity); intros H; first [lia | vm_compute; reflexivity].
Qed.

End Startothers.

Module SmpDemo.

(** Three processors, the second of which boots. *)
Definition ids : list Z := [4; 0; 9].
Definition image : list Z := [250; 49; 192].
Definition page (i : nat) : Z := 2147483648 + 4096 * (1000 + Z.of_nat i).
Definition s0 : smp := mk_smp (fun _ => 0) (fun _ => 0) (fun i => if (i =? 1)%nat then Up 0 0 0 else Off) (startothers image 2148532224 2148569088 ids 1 page).

Lemma s0_begins : begins image 2148532224 2148569088 ids 1 page s0.
Proof.
  split; [reflexivity|]. intros i Hi. change (others ids 1) with [0; 2]%nat in Hi. apply elem_of_cons in Hi as [-> | Hi]; [done|].
  by apply list_elem_of_singleton in Hi as ->.
Qed.

(** The boot processor alone for [n] accesses. *)
Fixpoint boot_run (n : nat) (s : smp) : option smp :=
  match n, s.(todo) with
  | S n, a :: rest => s' ← act_sem ids a s; boot_run n (mk_smp s'.(sm) s'.(lregs) s'.(cpu) rest)
  | _, _ => Some s
  end.

Lemma boot_run_reach n : forall s s', sreach image 2148532224 2148569088 ids 1 page s -> boot_run n s = Some s' -> sreach image 2148532224 2148569088 ids 1 page s'.
Proof.
  induction n as [|n IH]; intros s s' R; cbn [boot_run]; [by intros [= <-]|]. destruct (todo s) as [|a rest] eqn:T; [by intros [= <-]|].
  destruct (act_sem ids a s) as [s1|] eqn:E; [|done]. cbn. apply IH. eapply sr_step; [exact R|]. by eapply s_boot.
Qed.

#[local] Instance apst_eq_dec : EqDecision apst.
Proof. solve_decision. Defined.

(** After 13 accesses the first processor has been sent for, and its words
    are in memory. *)
Definition sent_for (s : smp) : bool :=
  bool_decide (s.(cpu) 0%nat = Start 28672) && has_code image s.(sm) 28672 &&
  (load32 s.(sm) (P2V (28672 - 12)) =? 1085440) && (load32 s.(sm) (P2V (28672 - 4)) =? 2151583744) && (load32 s.(sm) (P2V (28672 - 8)) =? 2148532224).

Lemma boot_13 : exists s, boot_run 13 s0 = Some s /\ sent_for s = true.
Proof.
  assert (E : match boot_run 13 s0 with Some s => sent_for s | None => false end = true) by (vm_compute; reflexivity).
  destruct (boot_run 13 s0) as [s|]; [by exists s|discriminate].
Qed.

(** The processor is let run until it has called [mpenter]. *)
Lemma startothers_spec_witness : exists s,
  sreach image 2148532224 2148569088 ids 1 page s /\ s.(cpu) 0%nat = Entered 2148532224 2151583744 1085440 /\
  ((s.(todo) = [] /\ forall i, i ∈ others ids 1 -> is_up (s.(cpu) i) = true) \/ exists s', sstep image 2148532224 ids 1 s s').
Proof.
  destruct boot_13 as (s1 & E1 & Hs). pose proof (boot_run_reach 13 s0 s1 (sr_begin _ _ _ _ _ _ _ s0_begins) E1) as R1.
  assert (Hin : 0%nat ∈ others ids 1) by (change (others ids 1) with [0; 2]%nat; by left).
  unfold sent_for in Hs. apply andb_true_iff in Hs as [Hs He]. apply andb_true_iff in Hs as [Hs Ht]. apply andb_true_iff in Hs as [Hs Hp].
  apply andb_true_iff in Hs as [Hs Hc]. apply bool_decide_eq_true in Hs. apply Z.eqb_eq in He, Ht, Hp.
  assert (A1 : ap_step image 2148532224 s1.(sm) (s1.(cpu) 0%nat) = Some (Paged 28672 1085440)) by (rewrite Hs; cbn [ap_step]; rewrite Hc, Hp; reflexivity).
  pose proof (sr_step _ _ _ _ _ _ _ _ R1 (s_ap _ _ _ _ _ _ _ Hin A1)) as R2.
  assert (A2 : ap_step image 2148532224 s1.(sm) (Paged 28672 1085440) = Some (Stacked 28672 1085440 2151583744)) by (cbn [ap_step]; rewrite Hc, Ht; reflexivity).
  pose proof (sr_step _ _ _ _ _ _ _ _ R2 (s_ap _ _ _ _ (set_cpu 0 (Paged 28672 1085440) s1) 0 _ Hin A2)) as R3.
  assert (A3 : ap_step image 2148532224 s1.(sm) (Stacked 28672 1085440 2151583744) = Some (Entered 2148532224 2151583744 1085440)) by (cbn [ap_step]; rewrite Hc, He; reflexivity).
  pose proof (sr_step _ _ _ _ _ _ _ _ R3 (s_ap _ _ _ _ (set_cpu 0 (Stacked 28672 1085440 2151583744) (set_cpu 0 (Paged 28672 1085440) s1)) 0 _ Hin A3)) as R4.
  eexists. split; [exact R4|]. split; [reflexivity|].
  assert (N : NoDup ids) by by apply (bool_decide_unpack (NoDup ids)).
  assert (B : Forall is_u8 ids) by by apply (bool_decide_unpack (Forall is_u8 ids)).
  assert (M : is_u32 2148532224) by (unfold is_u32; lia).
  exact (proj1 (proj2 (startothers_spec image 2148532224 2148569088 ids 1 page N B M _ R4))).
Defined.

End SmpDemo.
