(* ===== verification/Boot.v ===== *)
(** * The boot loader (bootmain.c)

    [bootmain] loads the segments of an ELF file that begins at sector 1 of
    the disk.  The disk is a function from sectors to their bytes, read by the
    address that is written to the ports of the controller. *)

From S2P Require Import Prelude.

Definition SECTSIZE : Z := 512.
Definition ELF_MAGIC : Z := 1179403647.    (* 0x464C457F *)

Section Boot.

Variable disk : Z -> list Z.

(** The sector that the controller reads, from the four bytes that [readsect]
    writes to the ports 0x1F3 to 0x1F6: 28 bits of address. *)
Definition lba (offset : Z) : Z :=
  u8 offset + 2 ^ 8 * u8 (Z.shiftr offset 8) + 2 ^ 16 * u8 (Z.shiftr offset 16)
    + 2 ^ 24 * Z.land (u8 (Z.lor (Z.shiftr offset 24) 224)) 15.

(** [insl]: the bytes of a sector at [d]. *)
Definition blit (m : mem) (d : Z) (bs : list Z) : mem :=
  fun x => if (d <=? x) && (x <? d + SECTSIZE) then nth (Z.to_nat (x - d)) bs 0 else m x.

Definition readsect (m : mem) (dst offset : Z) : mem := blit m dst (disk (lba offset)).

(** The loop of [readseg]. *)
Fixpoint readseg_loop (fuel : nat) (m : mem) (pa epa offset : Z) : outcome mem :=
  match fuel with
  | O => Panic "out of fuel"
  | S fuel =>
      if pa <? epa then readseg_loop fuel (readsect m pa offset) (u32 (pa + SECTSIZE)) epa (u32 (offset + 1))
      else Ok m
  end.

(** The turns that [readseg] needs for [count] bytes. *)
Definition seg_turns (count : Z) : nat := S (S (Z.to_nat (count / SECTSIZE))) + 1.

Definition readseg (m : mem) (pa count offset : Z) : outcome mem :=
  readseg_loop (seg_turns count) m (u32 (pa - offset mod SECTSIZE)) (u32 (pa + count)) (u32 (offset / SECTSIZE + 1)).

(** The fields of [struct elfhdr] and [struct proghdr]. *)
Definition load16 (m : mem) (a : Z) : Z := m a + 2 ^ 8 * m (a + 1).
Definition elf_magic (m : mem) (e : Z) : Z := load32 m e.
Definition elf_entry (m : mem) (e : Z) : Z := load32 m (e + 24).
Definition elf_phoff (m : mem) (e : Z) : Z := load32 m (e + 28).
Definition elf_phnum (m : mem) (e : Z) : Z := load16 m (e + 44).

Record proghdr := mk_proghdr { ph_off : Z; ph_paddr : Z; ph_filesz : Z; ph_memsz : Z }.

Definition ph_at (m : mem) (p : Z) : proghdr :=
  mk_proghdr (load32 m (p + 4)) (load32 m (p + 12)) (load32 m (p + 16)) (load32 m (p + 20)).

(** One segment. *)
Definition load_segment (m : mem) (p : proghdr) : outcome mem :=
  m ← readseg m p.(ph_paddr) p.(ph_filesz) p.(ph_off);
  Ok (if p.(ph_filesz) <? p.(ph_memsz)
      then stosb m (u32 (p.(ph_paddr) + p.(ph_filesz))) 0 (u32 (p.(ph_memsz) - p.(ph_filesz))) else m).

(** The loop over the program headers from [ph] up to [eph]. *)
Fixpoint load_segments (fuel : nat) (m : mem) (ph eph : Z) : outcome mem :=
  if ph <? eph then
    match fuel with
    | O => Panic "out of fuel"
    | S fuel => m' ← load_segment m (ph_at m ph); load_segments fuel m' (u32 (ph + 32)) eph
    end
  else Ok m.

Definition elf : Z := 65536.

(** The entry point that is called, or [None] if there is no ELF file and
    [bootmain] returns. *)
Definition bootmain (m : mem) : outcome (option Z * mem) :=
  m ← readseg m elf 4096 0;
  if negb (elf_magic m elf =? ELF_MAGIC) then Ok (None, m)
  else
    let ph := u32 (elf + elf_phoff m elf) in
    m' ← load_segments (Z.to_nat (elf_phnum m elf)) m ph (u32 (ph + 32 * elf_phnum m elf));
    Ok (Some (elf_entry m' elf), m').

(** ** Reading *)

(** Byte [o] of the file. *)
Definition kfile : mem := fun o => nth (Z.to_nat (o mod 512)) (disk (1 + o / 512)) 0.

Lemma lba_id o : 0 <= o < 2 ^ 28 -> lba o = o.
Proof.
  intros Ho. unfold lba, u8. rewrite !Z.shiftr_div_pow2 by lia. change (2 ^ 24) with 16777216. change (2 ^ 16) with 65536. change (2 ^ 8) with 256.
  assert (H : 0 <= o / 16777216 < 16) by (split; [apply Z.div_pos|apply Z.div_lt_upper_bound]; lia).
  assert (E : Z.land (Z.lor (o / 16777216) 224 mod 256) 15 = o / 16777216).
  { assert (F : forallb (fun k => Z.land (Z.lor (Z.of_nat k) 224 mod 256) 15 =? Z.of_nat k) (seq 0 16) = true) by (vm_compute; reflexivity).
    rewrite forallb_forall in F. specialize (F (Z.to_nat (o / 16777216))). rewrite Z2Nat.id in F by lia. apply Z.eqb_eq, F. apply in_seq. lia. }
  rewrite E. clear E. Z.to_euclidean_division_equations. lia.
Qed.

(** The memory from [a] up to [b] is the file, shifted so that [pa] is [off]. *)
Definition filled (m m' : mem) (a b pa off : Z) : Prop :=
  forall x, m' x = if (a <=? x) && (x <? b) then kfile (off + (x - pa)) else m x.

Lemma blit_file m a o x : 0 <= o -> o + 1 < 2 ^ 28 ->
  readsect m a (o + 1) x = if (a <=? x) && (x <? a + 512) then kfile (512 * o + (x - a)) else m x.
Proof.
  intros Ho H. unfold readsect, blit, SECTSIZE. rewrite lba_id by lia. destruct ((a <=? x) && (x <? a + 512)) eqn:E; [|done].
  apply andb_true_iff in E as [E1 E2]. apply Z.leb_le in E1. apply Z.ltb_lt in E2. unfold kfile.
  rewrite <- (Z.mod_unique (512 * o + (x - a)) 512 o (x - a)) by lia. rewrite <- (Z.div_unique (512 * o + (x - a)) 512 o (x - a)) by lia. do 2 f_equal; lia.
Qed.

(** [k] sectors from [a] on. *)
Lemma readseg_loop_run k : forall fuel m a epa o,
  (k < fuel)%nat -> 0 <= a -> a + 512 * Z.of_nat k < 2 ^ 32 -> 0 <= o -> o + Z.of_nat k + 1 < 2 ^ 28 ->
  epa <= a + 512 * Z.of_nat k -> (0 < k)%nat -> a + 512 * (Z.of_nat k - 1) < epa ->
  exists m', readseg_loop fuel m a epa (o + 1) = Ok m' /\ filled m m' a (a + 512 * Z.of_nat k) a (512 * o).
Proof.
  induction k as [|k IH]; intros [|fuel] m a epa o Hf Ha Ha2 Ho Ho2 He Hk He2; try lia. cbn [readseg_loop].
  destruct (Z.ltb_spec a epa); [|lia]. unfold SECTSIZE. rewrite !u32_small by (unfold is_u32; lia).
  destruct k as [|k].
  - exists (readsect m a (o + 1)). split.
    + destruct fuel as [|fuel]; [lia|]. cbn [readseg_loop]. destruct (Z.ltb_spec (a + 512) epa); [lia|done].
    + intros x. rewrite blit_file by lia. done.
  - destruct (IH fuel (readsect m a (o + 1)) (a + 512) epa (o + 1)) as (m' & R & F); try lia.
    exists m'. split; [exact R|]. intros x. rewrite F, blit_file by lia. clear.
    destruct (Z.leb_spec (a + 512) x), (Z.leb_spec a x), (Z.ltb_spec x (a + 512 + 512 * Z.of_nat (S k))), (Z.ltb_spec x (a + 512)),
      (Z.ltb_spec x (a + 512 * Z.of_nat (S (S k)))); cbn [andb]; try lia; try done. f_equal. lia.
Qed.

(** The end of what [readseg] writes. *)
Definition seg_end (pa count off : Z) : Z := pa - off mod 512 + 512 * ((off mod 512 + count + 511) / 512).

Lemma readseg_run m pa count off :
  off mod 512 <= pa -> 0 <= count -> 0 <= off -> off + count < 2 ^ 36 -> pa + count + 1024 < 2 ^ 32 ->
  exists m', readseg m pa count off = Ok m' /\ filled m m' (pa - off mod 512) (seg_end pa count off) pa off.
Proof.
  intros Hp Hc Ho Ho2 Hpa. pose proof (Z.mod_pos_bound off 512 ltac:(lia)) as Hm. pose proof (Z.div_mod off 512 ltac:(lia)) as Hd.
  unfold readseg, SECTSIZE. rewrite !u32_small by (unfold is_u32; Z.to_euclidean_division_equations; lia). unfold seg_end.
  set (n := off mod 512 + count) in *. pose proof (Z.div_mod (n + 511) 512 ltac:(lia)) as Hdn. pose proof (Z.mod_pos_bound (n + 511) 512 ltac:(lia)) as Hmn.
  set (k := (n + 511) / 512) in *. assert (Hk : 0 <= k) by lia.
  pose proof (Z.div_mod count 512 ltac:(lia)) as Hdc. pose proof (Z.mod_pos_bound count 512 ltac:(lia)) as Hmc.
  destruct (Z.eq_dec k 0) as [E|E].
  - assert (n = 0) by lia. exists m. split.
    + unfold seg_turns. cbn [readseg_loop Nat.add]. destruct (Z.ltb_spec (pa - off mod 512) (pa + count)); [lia|done].
    + intros x. rewrite E. destruct (Z.leb_spec (pa - off mod 512) x), (Z.ltb_spec x (pa - off mod 512 + 512 * 0)); cbn [andb]; lia || done.
  - destruct (readseg_loop_run (Z.to_nat k) (seg_turns count) m (pa - off mod 512) (pa + count) (off / 512)) as (m' & R & F);
      try (unfold seg_turns, SECTSIZE; lia).
    exists m'. split; [exact R|]. intros x. rewrite F. rewrite Z2Nat.id by lia. destruct (_ && _); [|done]. f_equal. lia.
Qed.

(** ** Loading *)

(** The bytes of memory that a segment writes, and those it is for. *)
Definition seg_writes (p : proghdr) (x : Z) : Prop :=
  p.(ph_paddr) - p.(ph_off) mod 512 <= x < seg_end p.(ph_paddr) p.(ph_filesz) p.(ph_off) \/
  p.(ph_paddr) + p.(ph_filesz) <= x < p.(ph_paddr) + p.(ph_memsz).

Definition seg_needs (p : proghdr) (x : Z) : Prop := p.(ph_paddr) <= x < p.(ph_paddr) + Z.max p.(ph_filesz) p.(ph_memsz).

Record seg_ok (p : proghdr) : Prop := {
  so_off : 0 <= p.(ph_off) /\ p.(ph_off) + p.(ph_filesz) < 2 ^ 36;
  so_low : p.(ph_off) mod 512 <= p.(ph_paddr);
  so_size : 0 <= p.(ph_filesz) /\ 0 <= p.(ph_memsz);
  so_high : p.(ph_paddr) + Z.max p.(ph_filesz) p.(ph_memsz) + 1024 < 2 ^ 32
}.

(** The segment is in memory as the program header says. *)
Definition loaded (m : mem) (p : proghdr) : Prop :=
  (forall i, 0 <= i < p.(ph_filesz) -> m (p.(ph_paddr) + i) = kfile (p.(ph_off) + i)) /\
  (forall i, p.(ph_filesz) <= i < p.(ph_memsz) -> m (p.(ph_paddr) + i) = 0).

Lemma load_segment_run m p : seg_ok p ->
  exists m', load_segment m p = Ok m' /\ loaded m' p /\ forall x, ~ seg_writes p x -> m' x = m x.
Proof.
  intros [[O1 O2] L [S1 S2] H]. destruct (readseg_run m (ph_paddr p) (ph_filesz p) (ph_off p) L S1 O1 O2 ltac:(lia)) as (m1 & R & F).
  unfold load_segment, mbind, outcome_bind. rewrite R. pose proof (Z.mod_pos_bound (ph_off p) 512 ltac:(lia)) as Hm.
  assert (Hin : forall i, 0 <= i < p.(ph_filesz) -> p.(ph_paddr) + i < seg_end p.(ph_paddr) p.(ph_filesz) p.(ph_off)).
  { intros i Hi. unfold seg_end. pose proof (Z.div_mod (ph_off p mod 512 + ph_filesz p + 511) 512 ltac:(lia)).
    pose proof (Z.mod_pos_bound (ph_off p mod 512 + ph_filesz p + 511) 512 ltac:(lia)). lia. }
  assert (F1 : forall i, 0 <= i < p.(ph_filesz) -> m1 (p.(ph_paddr) + i) = kfile (p.(ph_off) + i)).
  { intros i Hi. rewrite F. specialize (Hin i Hi). destruct (Z.leb_spec (ph_paddr p - ph_off p mod 512) (ph_paddr p + i)); [|lia].
    destruct (Z.ltb_spec (ph_paddr p + i) (seg_end (ph_paddr p) (ph_filesz p) (ph_off p))); [|lia]. cbn [andb]. f_equal. lia. }
  assert (F2 : forall x, ~ seg_writes p x -> m1 x = m x).
  { intros x Hx. rewrite F. destruct (Z.leb_spec (ph_paddr p - ph_off p mod 512) x), (Z.ltb_spec x (seg_end (ph_paddr p) (ph_filesz p) (ph_off p))); try done.
    exfalso. apply Hx. by left. }
  destruct (Z.ltb_spec (ph_filesz p) (ph_memsz p)) as [Hlt|Hge]; eexists; (split; [reflexivity|]).
  - rewrite !u32_small by (unfold is_u32; lia). split; [split|].
    + intros i Hi. rewrite stosb_frame by lia. by apply F1.
    + intros i Hi. by rewrite stosb_in by lia.
    + intros x Hx. rewrite stosb_frame; [by apply F2|]. intros Hx2. apply Hx. right. lia.
  - split; [split; [done|intros; lia]|done].
Qed.

(** The program headers of the file. *)
Definition phs (off : Z) (k : nat) : list proghdr := map (fun i => ph_at kfile (off + 32 * Z.of_nat i)) (seq 0 k).

(** A file whose segments can be loaded one after the other: none writes over
    the page with the headers, or over what an earlier one has loaded. *)
Record bootable (ps : list proghdr) : Prop := {
  bo_segs : forall i p, ps !! i = Some p -> seg_ok p;
  bo_header : forall i p x, ps !! i = Some p -> elf <= x < elf + 4096 -> ~ seg_writes p x;
  bo_order : forall i j p q x, (i < j)%nat -> ps !! i = Some p -> ps !! j = Some q -> seg_needs p x -> ~ seg_writes q x
}.

Lemma loaded_keep m m' p : 0 <= p.(ph_filesz) -> loaded m p -> (forall x, seg_needs p x -> m' x = m x) -> loaded m' p.
Proof.
  intros Hz [L1 L2] K. split; intros i Hi.
  - rewrite K; [by apply L1|]. unfold seg_needs. lia.
  - rewrite K; [by apply L2|]. unfold seg_needs. lia.
Qed.

(** The first page of the file is at [elf]. *)
Definition header_in (m : mem) : Prop := forall x, elf <= x < elf + 4096 -> m x = kfile (x - elf).

Lemma load32_header m a : header_in m -> 0 <= a -> a + 4 <= 4096 -> load32 m (elf + a) = load32 kfile a.
Proof.
  intros H Ha Ha2. unfold load32. rewrite !H by lia. do 3 (f_equal; [|do 2 f_equal; lia]). f_equal. lia.
Qed.

Lemma ph_at_header m off : header_in m -> 0 <= off -> off + 32 <= 4096 -> ph_at m (elf + off) = ph_at kfile off.
Proof. intros H H1 H2. unfold ph_at. rewrite <- !Z.add_assoc. by rewrite !load32_header by (done || lia). Qed.

Lemma phs_lookup off k i : (i < k)%nat -> phs off k !! i = Some (ph_at kfile (off + 32 * Z.of_nat i)).
Proof. intros Hi. unfold phs. change (map ?f ?l) with (f <$> l). by rewrite list_lookup_fmap, lookup_seq_lt. Qed.

Lemma phs_length off k : length (phs off k) = k.
Proof. unfold phs. by rewrite length_map, length_seq. Qed.

Lemma load_segments_run off t k : bootable (phs off t) -> 0 <= off -> off + 32 * Z.of_nat t <= 4096 -> forall n m,
  (n + k = t)%nat -> header_in m -> (forall i p, (i < n)%nat -> phs off t !! i = Some p -> loaded m p) ->
  exists m', load_segments k m (elf + (off + 32 * Z.of_nat n)) (elf + (off + 32 * Z.of_nat t)) = Ok m' /\ header_in m' /\ forall i p, phs off t !! i = Some p -> loaded m' p.
Proof.
  intros [B1 B2 B3] Ho Ho2. induction k as [|k IH]; intros n m Hn Hh Hl; cbn [load_segments].
  { destruct (Z.ltb_spec (elf + (off + 32 * Z.of_nat n)) (elf + (off + 32 * Z.of_nat t))); [lia|]. exists m. split_and!; [done|done|]. intros i p Hp. apply (Hl i); [|done]. apply lookup_lt_Some in Hp. rewrite phs_length in Hp. lia. }
  destruct (Z.ltb_spec (elf + (off + 32 * Z.of_nat n)) (elf + (off + 32 * Z.of_nat t))); [|lia]. rewrite ph_at_header by (done || lia).
  pose proof (phs_lookup off t n ltac:(lia)) as Hp. set (p := ph_at kfile (off + 32 * Z.of_nat n)) in *.
  destruct (load_segment_run m p (B1 _ _ Hp)) as (m1 & R1 & L1 & K1). unfold mbind, outcome_bind. rewrite R1.
  rewrite u32_small by (unfold is_u32, elf in *; lia).
  replace (elf + (off + 32 * Z.of_nat n) + 32) with (elf + (off + 32 * Z.of_nat (S n))) by lia. apply IH; [lia| |].
  - intros x Hx. rewrite K1; [by apply Hh|]. by apply (B2 n p).
  - intros i q Hi Hq. destruct (decide (i = n)) as [->|Hne]; [rewrite Hp in Hq; by injection Hq as <-|].
    apply (loaded_keep m); [apply (so_size _ (B1 _ _ Hq))|by apply (Hl i); [lia|]|]. intros x Hx. apply K1. apply (B3 i n q p x); done || lia.
Qed.

(** C23. The boot loader loads the kernel.  If the file at sector 1 is no ELF
    file, [bootmain] returns to its caller.  If it is one, with its program
    headers in the first page and segments that can be loaded in order, every
    segment is in memory: at the physical address of its header the bytes of
    the file, and zeros from there to its size in memory; though whole sectors
    are read, no segment is damaged by another.  Then the entry point of the
    file is called. *)
Theorem bootmain_spec m :
  let off := elf_phoff kfile 0 in let n := Z.to_nat (elf_phnum kfile 0) in
  (elf_magic kfile 0 <> ELF_MAGIC -> exists m', bootmain m = Ok (None, m')) /\
  (elf_magic kfile 0 = ELF_MAGIC -> 0 <= elf_phnum kfile 0 -> 0 <= off -> off + 32 * elf_phnum kfile 0 <= 4096 -> bootable (phs off n) ->
    exists m', bootmain m = Ok (Some (elf_entry kfile 0), m') /\ forall i p, phs off n !! i = Some p -> loaded m' p).
Proof.
  intros off n. destruct (readseg_run m elf 4096 0 ltac:(by vm_compute) ltac:(lia) ltac:(lia) ltac:(lia) ltac:(unfold elf; lia)) as (m0 & R0 & F0).
  assert (H0 : header_in m0).
  { intros x Hx. rewrite F0. change (seg_end elf 4096 0) with (elf + 4096). change (elf - 0 mod 512) with elf.
    destruct (Z.leb_spec elf x), (Z.ltb_spec x (elf + 4096)); try lia. done. }
  assert (Hw : forall a, 0 <= a -> a + 4 <= 4096 -> load32 m0 (elf + a) = load32 kfile a) by (intros; by apply load32_header).
  assert (Em : elf_magic m0 elf = elf_magic kfile 0) by (unfold elf_magic; rewrite <- (Hw 0) by lia; f_equal).
  unfold bootmain, mbind, outcome_bind. rewrite R0, Em. split.
  - intros Hne. exists m0. by rewrite (proj2 (Z.eqb_neq _ _) Hne).
  - intros E Hpn Ho Ho2 Hb. rewrite E. change (negb (ELF_MAGIC =? ELF_MAGIC)) with false. cbv iota.
    assert (Ep : elf_phoff m0 elf = off) by (apply (Hw 28); lia).
    assert (En : elf_phnum m0 elf = elf_phnum kfile 0) by (unfold elf_phnum, load16; rewrite !H0 by (unfold elf; lia); done).
    rewrite Ep, En. cbv zeta. fold n. rewrite !u32_small by (unfold is_u32, elf in *; rewrite ?u32_small by (unfold is_u32; lia); lia). destruct (load_segments_run off n n Hb Ho ltac:(unfold n; lia) 0 m0 eq_refl H0) as (m' & R' & H' & L'); [intros; lia|].
    rewrite Z.add_0_r in R'. unfold n in R' at 2. rewrite Z2Nat.id in R' by done. rewrite <- Z.add_assoc, R'. exists m'. split; [|done]. do 3 f_equal. unfold elf_entry. by rewrite load32_header by (done || lia).
Qed.

End Boot.

Module BootDemo.

Definition w16 (v : Z) : list Z := [v mod 256; v / 256].
Definition w32 (v : Z) : list Z := [v mod 256; v / 256 mod 256; v / 65536 mod 256; v / 16777216].

Definition hdr (off paddr filesz memsz : Z) : list Z :=
  w32 1 ++ w32 off ++ w32 (2147483648 + paddr) ++ w32 paddr ++ w32 filesz ++ w32 memsz ++ w32 7 ++ w32 4096.

(** A kernel with 700 bytes of code at 0x100000 and, in the sector that the
    loader fills after it, 300 bytes of data, with 5000 bytes more in memory. *)
Definition sector (n : Z) : list Z :=
  if n =? 1 then
    w32 ELF_MAGIC ++ replicate 12 0 ++ w16 2 ++ w16 3 ++ w32 1 ++ w32 1048588 ++ w32 52 ++ w32 0 ++ w32 0 ++ w16 52 ++ w16 32 ++ w16 2 ++ replicate 6 0
      ++ hdr 512 1048576 700 700 ++ hdr 1536 1049400 300 5300
  else map (fun i => (n * 7 + Z.of_nat i * 3) mod 256) (seq 0 512).

Lemma sector_phs : phs sector 52 2 = [mk_proghdr 512 1048576 700 700; mk_proghdr 1536 1049400 300 5300].
Proof. vm_compute. reflexivity. Qed.

Lemma sector_bootable : bootable (phs sector 52 2).
Proof.
  rewrite sector_phs. split.
  - intros [|[|i]] p Hp; inversion Hp; subst; (split; cbn [ph_off ph_paddr ph_filesz ph_memsz]); by vm_compute.
  - intros [|[|i]] p x Hp Hx; inversion Hp; subst; unfold seg_writes, seg_end, elf in *; cbn [ph_off ph_paddr ph_filesz ph_memsz];
      Z.to_euclidean_division_equations; lia.
  - intros [|[|i]] [|[|j]] p q x Hij Hp Hq; try lia; inversion Hp; inversion Hq; subst; unfold seg_needs, seg_writes, seg_end;
      cbn [ph_off ph_paddr ph_filesz ph_memsz]; Z.to_euclidean_division_equations; lia.
Qed.

Lemma bootmain_spec_witness :
  exists m', bootmain sector (fun _ => 170) = Ok (Some 1048588, m') /\ forall i p, phs sector 52 2 !! i = Some p -> loaded sector m' p.
Proof.
  apply (proj2 (bootmain_spec sector (fun _ => 170))); try (vm_compute; done). exact sector_bootable.
Defined.

End BootDemo.
