(* ===== verification/Kalloc.v ===== *)
(** * The physical page allocator (kalloc.c)

    The free pages form a list threaded through their own first words.  The
    state holds the kernel's memory, addressed by kernel virtual address, so
    that the links are real loads and stores.  [free_rep s l] says that the
    list in memory is [l]; the operations are shown to push and pop it. *)

From S2P Require Import Prelude CString Mmu.

(** [struct kmem] and the memory the list lives in. *)
Record kmem := mk_kmem { kmem_mem : mem; use_lock : bool; freelist : Z }.

Definition set_mem (s : kmem) (m : mem) : kmem := mk_kmem m s.(use_lock) s.(freelist).

Section Kalloc.

(** [end]: the first address after the kernel image. *)
Variable kend : Z.

Definition kfree (v : Z) : kM kmem unit :=
  if c_true (v mod PGSIZE) || (v <? kend) || (PHYSTOP <=? V2P v) then kpanic "kfree"
  else
    _ ← kmodify (fun s => set_mem s (memset s.(kmem_mem) v 1 PGSIZE));
    _ ← kmodify (fun s => set_mem s (store32 s.(kmem_mem) v s.(freelist)));
    kmodify (fun s => mk_kmem s.(kmem_mem) s.(use_lock) v).

Definition kalloc : kM kmem Z :=
  s ← kget;
  let r := s.(freelist) in
  _ ← (if c_true r
       then kmodify (fun s => mk_kmem s.(kmem_mem) s.(use_lock) (load32 s.(kmem_mem) r))
       else mret tt);
  mret r.

Fixpoint freerange_from (fuel : nat) (p vend : Z) : kM kmem unit :=
  match fuel with
  | O => kpanic "out of fuel"
  | S fuel =>
      if u32 (p + PGSIZE) <=? vend
      then _ ← kfree p; freerange_from fuel (u32 (p + PGSIZE)) vend
      else mret tt
  end.

(** Each turn moves [p] one page closer to [vend]. *)
Definition freerange (vstart vend : Z) : kM kmem unit :=
  let p := PGROUNDUP vstart in
  freerange_from (S (Z.to_nat ((vend - p) / PGSIZE))) p vend.

Definition kinit1 (vstart vend : Z) : kM kmem unit :=
  _ ← kmodify (fun s => mk_kmem s.(kmem_mem) false s.(freelist));
  freerange vstart vend.

Definition kinit2 (vstart vend : Z) : kM kmem unit :=
  _ ← freerange vstart vend;
  kmodify (fun s => mk_kmem s.(kmem_mem) true s.(freelist)).

(** ** The list in memory *)

(** An address [kfree] accepts. *)
Definition page_ok (v : Z) : Prop := v mod 4096 = 0 /\ kend <= v < KERNBASE + PHYSTOP.

Fixpoint chain (m : mem) (a : Z) (l : list Z) : Prop :=
  match l with
  | [] => a = 0
  | v :: l => a = v /\ page_ok v /\ chain m (load32 m v) l
  end.

Definition free_rep (s : kmem) (l : list Z) : Prop :=
  chain s.(kmem_mem) s.(freelist) l /\ NoDup l.

(** The linker script puts [end] after KERNLINK. *)
Hypothesis Hend : KERNLINK <= kend.

Lemma page_ok_range v : page_ok v -> is_u32 v /\ 0 < v /\ v + 4096 <= 2 ^ 32.
Proof. unfold page_ok, is_u32, KERNLINK, KERNBASE, PHYSTOP, EXTMEM in *. intros [? ?]. lia. Qed.

Lemma page_ok_apart v w : page_ok v -> page_ok w -> v <> w -> v + 4096 <= w \/ w + 4096 <= v.
Proof. intros [Hv _] [Hw _] Hne. Z.to_euclidean_division_equations. lia. Qed.

Lemma page_ok_V2P v : page_ok v -> V2P v = v - KERNBASE.
Proof.
  unfold page_ok, V2P. intros [_ ?]. apply u32_small.
  unfold is_u32, KERNLINK, KERNBASE, PHYSTOP, EXTMEM in *. lia.
Qed.

(** The check at the top of [kfree] is [page_ok]. *)
Lemma kfree_guard v :
  is_u32 v ->
  c_true (v mod PGSIZE) || (v <? kend) || (PHYSTOP <=? V2P v) = false <-> page_ok v.
Proof.
  intros Hu. unfold c_true, PGSIZE, page_ok. rewrite !orb_false_iff, negb_false_iff, Z.eqb_eq,
    Z.ltb_ge, Z.leb_gt. split.
  - intros [[H1 H2] H3]. split; [done|]. split; [done|]. unfold V2P in H3.
    rewrite u32_small in H3; unfold is_u32, KERNLINK, KERNBASE, PHYSTOP, EXTMEM in *; lia.
  - intros Hp. rewrite (page_ok_V2P v Hp). destruct Hp. lia.
Qed.

(** Changes away from the free pages do not touch the list. *)
Lemma chain_frame m m' a l :
  (forall v x, v ∈ l -> v <= x < v + 4 -> m' x = m x) -> chain m a l -> chain m' a l.
Proof.
  revert a. induction l as [|v l IH]; intros a Hm; [done|]. intros (-> & Hv & Hc).
  split; [done|]. split; [done|]. rewrite (load32_ext m' m).
  - apply IH; [|done]. intros w x Hw. apply Hm. by right.
  - intros x Hx. apply (Hm v x); [by left|done].
Qed.

Lemma chain_pages m a l v : chain m a l -> v ∈ l -> page_ok v.
Proof.
  revert a. induction l as [|w l IH]; intros a Hc Hv; [by apply elem_of_nil in Hv|].
  destruct Hc as (-> & Hw & Hc). apply elem_of_cons in Hv as [->|Hv]; [done|by eapply IH].
Qed.

Lemma free_rep_pages s l v : free_rep s l -> v ∈ l -> page_ok v.
Proof. intros [Hc _]. by eapply chain_pages. Qed.

(** ** The operations push and pop *)

Lemma kalloc_rep s l :
  free_rep s l ->
  kalloc s = Ok (default 0 (head l), mk_kmem s.(kmem_mem) s.(use_lock)
                   (match l with [] => 0 | _ :: _ => load32 s.(kmem_mem) s.(freelist) end)) /\
  free_rep (mk_kmem s.(kmem_mem) s.(use_lock)
              (match l with [] => 0 | _ :: _ => load32 s.(kmem_mem) s.(freelist) end)) (tail l).
Proof.
  intros [Hc Hn]. destruct s as [m ul a]. unfold kalloc. simpl in *. destruct l as [|v l]; simpl in *.
  - subst a. split; [done|]. by split.
  - destruct Hc as (-> & Hv & Hc). apply page_ok_range in Hv as (_ & Hv & _).
    unfold c_true. rewrite (kM_bind_run _ _ _ (mk_kmem m ul v) (mk_kmem m ul v)) by done. simpl.
    destruct (Z.eqb_spec v 0); [lia|]. split; [done|]. split; [done|]. by apply NoDup_cons in Hn as [_ ?].
Qed.

(** What [kfree] leaves in memory: the link, then junk. *)
Lemma kfree_run v s :
  page_ok v ->
  kfree v s = Ok (tt, mk_kmem (store32 (memset s.(kmem_mem) v 1 PGSIZE) v s.(freelist))
                        s.(use_lock) v).
Proof.
  intros Hv. unfold kfree. rewrite (proj2 (kfree_guard v (proj1 (page_ok_range v Hv))) Hv). done.
Qed.

Lemma kfree_frame v s x :
  ~ (v <= x < v + 4096) ->
  store32 (memset s.(kmem_mem) v 1 PGSIZE) v s.(freelist) x = s.(kmem_mem) x.
Proof.
  intros Hx. rewrite store32_frame, memset_at by lia. unfold PGSIZE.
  case_bools; lia || done.
Qed.

Lemma free_rep_head s l : free_rep s l -> is_u32 s.(freelist).
Proof.
  intros [Hc _]. destruct l as [|v l]; [rewrite Hc; done|]. destruct Hc as (-> & Hv & _).
  by apply page_ok_range in Hv as [? _].
Qed.

Lemma kfree_rep v s l :
  page_ok v -> free_rep s l -> v ∉ l ->
  free_rep (mk_kmem (store32 (memset s.(kmem_mem) v 1 PGSIZE) v s.(freelist)) s.(use_lock) v) (v :: l).
Proof.
  intros Hv Hr Hnin. pose proof (free_rep_head s l Hr) as Hu. destruct Hr as [Hc Hn].
  split; [|by apply NoDup_cons]. simpl. split; [done|]. split; [done|].
  rewrite load32_store32_eq by done. eapply chain_frame; [|exact Hc].
  intros w x Hw Hx. apply (kfree_frame v s). intros Hx'.
  pose proof (chain_pages _ _ _ w Hc Hw) as Hwp.
  destruct (page_ok_apart v w Hv Hwp) as [?|?]; [congruence|lia|lia].
Qed.

(** ** What the allocator promises its clients *)

(** A client's calls: [CFree n] gives back the [n]-th page it holds. *)
Inductive kcall := CAlloc | CFree (n : nat).

(** Run the calls; [held] are the pages the client holds, newest first. *)
Fixpoint kcalls (cs : list kcall) (held : list Z) : kM kmem (list Z) :=
  match cs with
  | [] => mret held
  | CAlloc :: cs =>
      v ← kalloc;
      kcalls cs (if c_true v then v :: held else held)
  | CFree n :: cs =>
      match held !! n with
      | Some v => _ ← kfree v; kcalls cs (delete n held)
      | None => kcalls cs held
      end
  end.

(** Between them, the list and the client hold the pages [all]. *)
Definition shared (all : list Z) (s : kmem) (held : list Z) : Prop :=
  Forall page_ok held /\ exists l, free_rep s l /\ held ++ l ≡ₚ all.

Lemma kcalls_shared all cs held s :
  NoDup all -> shared all s held ->
  exists held' s', kcalls cs held s = Ok (held', s') /\ shared all s' held'.
Proof.
  intros Hall. revert held s. induction cs as [|[|n] cs IH]; intros held s Hs; simpl.
  - eauto.
  - destruct Hs as (Hh & l & Hr & Hp). destruct (kalloc_rep s l Hr) as [Hk Hr'].
    rewrite (kM_bind_run _ _ _ _ _ Hk). apply IH. destruct l as [|v l]; simpl in *.
    + split; [done|]. by exists [].
    + assert (Hv : page_ok v) by (eapply free_rep_pages; [exact Hr|by left]).
      unfold c_true. destruct (Z.eqb_spec v 0); [apply page_ok_range in Hv; lia|]. simpl.
      split; [by constructor|]. exists l. split; [done|].
      rewrite <- Hp. apply Permutation_middle.
  - destruct (held !! n) as [v|] eqn:Hn; [|by apply IH]. destruct Hs as (Hh & l & Hr & Hp).
    assert (Hv : page_ok v) by (by eapply Forall_lookup_1).
    assert (Hd : v :: delete n held ≡ₚ held) by (symmetry; by apply delete_Permutation).
    assert (Hnin : v ∉ l).
    { rewrite <- Hp, <- Hd in Hall. apply NoDup_app in Hall as (_ & Hdis & _). apply Hdis. by left. }
    rewrite (kM_bind_run _ _ _ _ _ (kfree_run v s Hv)). apply IH.
    split; [by apply Forall_delete|]. exists (v :: l). split; [by apply kfree_rep|].
    rewrite <- Hp. etransitivity; [|apply Permutation_app_tail, Hd]. simpl.
    symmetry. apply Permutation_middle.
Qed.

Lemma freerange_from_run fuel p vend s l :
  p mod 4096 = 0 -> kend <= p <= KERNBASE + PHYSTOP -> vend <= KERNBASE + PHYSTOP ->
  (0 < fuel)%nat -> (vend - p) / 4096 < Z.of_nat fuel ->
  free_rep s l -> (forall v, v ∈ l -> ~ (p <= v < vend)) ->
  exists s' l', freerange_from fuel p vend s = Ok (tt, s') /\ free_rep s' l' /\
    s'.(use_lock) = s.(use_lock) /\
    forall v, v ∈ l' <-> v ∈ l \/ v mod 4096 = 0 /\ p <= v /\ v + 4096 <= vend.
Proof.
  intros Hp He Hv. assert (Hk : KERNLINK = 2148532224) by done.
  assert (Hb : KERNBASE + PHYSTOP = 2382364672) by done.
  revert p s l Hp He. induction fuel as [|fuel IH]; intros p s l Hp He Hpos Hf Hr Hl; cbn [freerange_from].
  - lia.
  - destruct (Z.leb_spec (u32 (p + PGSIZE)) vend) as [Hle|Hgt].
    + assert (Hle' : p + 4096 <= vend).
      { unfold PGSIZE in Hle. unfold u32 in Hle. change (2 ^ 32) with 4294967296 in Hle.
        Z.to_euclidean_division_equations. lia. }
      rewrite u32_small by (unfold is_u32, PGSIZE; lia). unfold PGSIZE.
      assert (Hpg : page_ok p) by (split; [done|lia]).
      rewrite (kM_bind_run _ _ _ _ _ (kfree_run p s Hpg)).
      edestruct (IH (p + 4096)) as (s' & l' & Hrun & Hr' & Hul & Hin);
        [Z.to_euclidean_division_equations; lia|lia|Z.to_euclidean_division_equations; lia
        |Z.to_euclidean_division_equations; lia| | |].
      { apply (kfree_rep p s l Hpg Hr). intros Hin. by destruct (Hl p Hin); lia. }
      { intros v [->|Hvl]%elem_of_cons; [lia|]. specialize (Hl v Hvl). lia. }
      exists s', l'. split; [exact Hrun|]. split; [done|]. split; [done|].
      intros v. rewrite Hin, elem_of_cons. split.
      * intros [[->|?]|(? & ? & ?)]; [right; lia|by left|right; lia].
      * intros [?|(? & ? & ?)]; [left; by right|].
        destruct (Z.eq_dec v p) as [->|]; [left; by left|right].
        Z.to_euclidean_division_equations. lia.
    + exists s, l. split; [done|]. split; [done|]. split; [done|]. intros v.
      unfold PGSIZE in Hgt. rewrite u32_small in Hgt by (unfold is_u32; lia).
      split; [by left|]. intros [?|(? & ? & ?)]; [done|lia].
Qed.

Lemma freerange_run vstart vend s l :
  kend <= vstart <= KERNBASE + PHYSTOP -> vend <= KERNBASE + PHYSTOP ->
  free_rep s l -> (forall v, v ∈ l -> ~ (vstart <= v < vend)) ->
  exists s' l', freerange vstart vend s = Ok (tt, s') /\ free_rep s' l' /\
    s'.(use_lock) = s.(use_lock) /\
    forall v, v ∈ l' <-> v ∈ l \/ v mod 4096 = 0 /\ vstart <= v /\ v + 4096 <= vend.
Proof.
  intros Hs Hv Hr Hl. unfold freerange.
  assert (Hk : KERNLINK = 2148532224) by done.
  assert (Hb : KERNBASE + PHYSTOP = 2382364672) by done.
  rewrite PGROUNDUP_val by lia.
  edestruct (freerange_from_run (S (Z.to_nat ((vend - (vstart + 4095) / 4096 * 4096) / PGSIZE)))
    ((vstart + 4095) / 4096 * 4096) vend s l) as (s' & l' & H1 & H2 & H3 & H4);
    [apply Z_mod_mult| |done|lia|unfold PGSIZE; lia|done| |].
  { Z.to_euclidean_division_equations. lia. }
  { intros v Hvl. specialize (Hl v Hvl). Z.to_euclidean_division_equations. lia. }
  exists s', l'. split; [done|]. split; [done|]. split; [done|]. intros v. rewrite H4.
  split; (intros [?|(? & ? & ?)]; [by left|right]); Z.to_euclidean_division_equations; lia.
Qed.

(** [main()]: the pages below 4MB, what the rest of the boot allocates from
    them, then the other pages. *)
Definition kboot (cs : list kcall) : kM kmem (list Z) :=
  _ ← kinit1 kend (P2V 4194304);
  held ← kcalls cs [];
  _ ← kinit2 (P2V 4194304) (P2V PHYSTOP);
  mret held.

End Kalloc.

(** The boot ends with every page-aligned address between the kernel
    image and PHYSTOP either held by the boot code or on the free list, in
    exactly one of the two and once, whatever is allocated and freed between
    the two initialisation phases; the lock is in use from then on. *)
Theorem kboot_spec kend cs (s : kmem) :
  KERNLINK <= kend <= P2V 4194304 -> s.(freelist) = 0 ->
  exists held s' l, kboot kend cs s = Ok (held, s') /\ free_rep kend s' l /\ s'.(use_lock) = true /\
    NoDup (held ++ l) /\ forall v, v ∈ held ++ l <-> page_ok kend v.
Proof.
  intros [Hk Hk4] Hf. assert (E1 : KERNLINK = 2148532224) by done.
  assert (E2 : KERNBASE + PHYSTOP = 2382364672) by done.
  assert (E3 : P2V 4194304 = 2151677952) by done. assert (E4 : P2V PHYSTOP = 2382364672) by done.
  edestruct (freerange_run kend Hk kend (P2V 4194304) (mk_kmem s.(kmem_mem) false s.(freelist)) [])
    as (s1 & l1 & H1 & R1 & _ & I1); [lia|lia|split; [done|constructor]|by intros v ?%elem_of_nil|].
  destruct (kcalls_shared kend Hk l1 cs [] s1 (proj2 R1)) as (held & s2 & H2 & Hh & l2 & R2 & Hp).
  { split; [constructor|]. by exists l1. }
  edestruct (freerange_run kend Hk (P2V 4194304) (P2V PHYSTOP) s2 l2)
    as (s3 & l3 & H3 & R3 & _ & I3); [lia|lia|done| |].
  { intros v Hv. assert (Hv1 : v ∈ l1) by (rewrite <- Hp; apply elem_of_app; by right).
    apply I1 in Hv1 as [Hv1|Hv1]; [by apply elem_of_nil in Hv1|lia]. }
  assert (Hheld : forall v, v ∈ held -> v < P2V 4194304).
  { intros v Hv. assert (Hv1 : v ∈ l1) by (rewrite <- Hp; apply elem_of_app; by left).
    apply I1 in Hv1 as [Hv1|Hv1]; [by apply elem_of_nil in Hv1|lia]. }
  pose proof (proj2 R1) as N1. rewrite <- Hp in N1. apply NoDup_app in N1 as (N1 & N2 & _).
  exists held, (mk_kmem s3.(kmem_mem) true s3.(freelist)), l3. split_and!.
  - unfold kboot, kinit1, kinit2. rewrite (kM_bind_run _ _ _ tt s1) by exact H1.
    rewrite (kM_bind_run _ _ _ _ _ H2). by erewrite kM_bind_run by (by erewrite kM_bind_run).
  - exact R3.
  - done.
  - apply NoDup_app. split; [done|]. split; [|apply R3]. intros v Hv Hv3.
    specialize (Hheld v Hv). apply I3 in Hv3 as [Hv3|Hv3]; [by apply (N2 v)|lia].
  - intros v. rewrite elem_of_app, I3.
    assert (Hl : v ∈ held \/ v ∈ l2 <-> v mod 4096 = 0 /\ kend <= v /\ v + 4096 <= P2V 4194304).
    { rewrite <- elem_of_app, Hp, I1, elem_of_nil. tauto. }
    transitivity ((v ∈ held \/ v ∈ l2) \/ v mod 4096 = 0 /\ P2V 4194304 <= v /\ v + 4096 <= P2V PHYSTOP);
      [tauto|]. rewrite Hl. unfold page_ok. Z.to_euclidean_division_equations. lia.
Qed.

(** C16. However a client interleaves allocations with giving back pages it
    holds, the allocator never panics and never hands out a page the client
    holds: client and free list together always hold the same pages, each
    once. *)
Theorem kalloc_client_safe kend all cs held (s : kmem) :
  KERNLINK <= kend -> NoDup all -> shared kend all s held ->
  exists held' s', kcalls kend cs held s = Ok (held', s') /\ NoDup held' /\ shared kend all s' held'.
Proof.
  intros Hk Hall Hs. destruct (kcalls_shared kend Hk all cs held s Hall Hs) as (held' & s' & H1 & H2).
  exists held', s'. split; [done|]. split; [|done]. destruct H2 as (_ & l & _ & Hp).
  rewrite <- Hp in Hall. by apply NoDup_app in Hall as [? _].
Qed.

Module KallocDemo.

Definition kend0 : Z := 2148573184.             (* 0x8010A000 *)
Definition boot0 : kmem := mk_kmem (fun _ => 0) false 0.

Lemma kboot_spec_witness :
  exists held s' l, kboot kend0 [CAlloc; CAlloc; CFree 1] boot0 = Ok (held, s') /\
    free_rep kend0 s' l /\ s'.(use_lock) = true /\
    NoDup (held ++ l) /\ forall v, v ∈ held ++ l <-> page_ok kend0 v.
Proof. apply (kboot_spec kend0); [split; intros H; discriminate H|reflexivity]. Defined.

Lemma kalloc_client_safe_witness :
  exists held' s', kcalls kend0 [CAlloc; CFree 0] [] (mk_kmem (fun _ => 0) true kend0) = Ok (held', s') /\
    NoDup held' /\ shared kend0 [kend0] s' held'.
Proof.
  apply (kalloc_client_safe kend0 [kend0]); [intros H; discriminate H|by apply NoDup_singleton|].
  split; [constructor|]. exists [kend0]. split; [|reflexivity].
  split; [|by apply NoDup_singleton].
  split; [reflexivity|]. split; [|reflexivity]. split; [reflexivity|].
  split; [intros H; discriminate H|reflexivity].
Defined.

End KallocDemo.
