(* ===== verification/Vm.v ===== *)
(** * Page tables and user memory (vm.c)

    Two-level page tables held in the allocator's memory.  The definitions
    follow vm.c line by line over the state of [Kalloc]; the loops that run
    over an address range carry a fuel that their callers compute from the
    range.  [VmSpec] proves what they do to address translation. *)

From S2P Require Import Prelude CString Mmu Kalloc.

Section Vm.

(** Linker symbols: [end] and [data]. *)
Variable kend kdata : Z.

Definition ld (a : Z) : kM kmem Z := fun s => Ok (load32 s.(kmem_mem) a, s).
Definition st (a v : Z) : kM kmem unit := kmodify (fun s => set_mem s (store32 s.(kmem_mem) a v)).
Definition fill (v c : Z) : kM kmem unit :=
  kmodify (fun s => set_mem s (memset s.(kmem_mem) v c PGSIZE)).

Definition walkpgdir (pgdir va : Z) (alloc : bool) : kM kmem Z :=
  let pde := pgdir + 4 * PDX va in
  e ← ld pde;
  if present e then mret (P2V (PTE_ADDR e) + 4 * PTX va)
  else if negb alloc then mret 0
  else
    pgtab ← kalloc;
    if pgtab =? 0 then mret 0
    else
      _ ← fill pgtab 0;
      _ ← st pde (Z.lor (Z.lor (Z.lor (V2P pgtab) PTE_P) PTE_W) PTE_U);
      mret (pgtab + 4 * PTX va).

Fixpoint mappages_loop (fuel : nat) (pgdir a last pa perm : Z) : kM kmem Z :=
  match fuel with
  | O => kpanic "out of fuel"
  | S fuel =>
      pte ← walkpgdir pgdir a true;
      if pte =? 0 then mret (-1)
      else
        e ← ld pte;
        if present e then kpanic "remap"
        else
          _ ← st pte (Z.lor (Z.lor pa perm) PTE_P);
          if a =? last then mret 0
          else mappages_loop fuel pgdir (u32 (a + PGSIZE)) last (u32 (pa + PGSIZE)) perm
  end.

(** One turn per page from the first to the last. *)
Definition mappages (pgdir va size pa perm : Z) : kM kmem Z :=
  let a := PGROUNDDOWN va in
  let last := PGROUNDDOWN (u32 (va + size - 1)) in
  mappages_loop (S (Z.to_nat (u32 (last - a) / PGSIZE))) pgdir a last pa perm.

Fixpoint deallocuvm_loop (fuel : nat) (pgdir a oldsz : Z) : kM kmem unit :=
  match fuel with
  | O => kpanic "out of fuel"
  | S fuel =>
      if a <? oldsz then
        pte ← walkpgdir pgdir a false;
        if pte =? 0 then
          deallocuvm_loop fuel pgdir (u32 (u32 (PGADDR (PDX a + 1) 0 0 - PGSIZE) + PGSIZE)) oldsz
        else
          e ← ld pte;
          if present e then
            let pa := PTE_ADDR e in
            if pa =? 0 then kpanic "kfree"
            else
              _ ← kfree kend (P2V pa);
              _ ← st pte 0;
              deallocuvm_loop fuel pgdir (u32 (a + PGSIZE)) oldsz
          else deallocuvm_loop fuel pgdir (u32 (a + PGSIZE)) oldsz
      else mret tt
  end.

(** Each turn moves on by at least one page. *)
Definition deallocuvm (pgdir oldsz newsz : Z) : kM kmem Z :=
  if oldsz <=? newsz then mret oldsz
  else
    let a := PGROUNDUP newsz in
    _ ← deallocuvm_loop (S (Z.to_nat ((oldsz - a + PGSIZE - 1) / PGSIZE))) pgdir a oldsz;
    mret newsz.

Fixpoint freevm_tabs (n : nat) (pgdir i : Z) : kM kmem unit :=
  match n with
  | O => mret tt
  | S n =>
      e ← ld (pgdir + 4 * i);
      _ ← (if present e then kfree kend (P2V (PTE_ADDR e)) else mret tt);
      freevm_tabs n pgdir (i + 1)
  end.

Definition freevm (pgdir : Z) : kM kmem unit :=
  if pgdir =? 0 then kpanic "freevm: no pgdir"
  else
    _ ← deallocuvm pgdir KERNBASE 0;
    _ ← freevm_tabs NPDENTRIES pgdir 0;
    kfree kend pgdir.

(** [kmap]: virtual start, physical start and end, permissions. *)
Definition kmap : list (Z * Z * Z * Z) :=
  [(KERNBASE, 0, EXTMEM, PTE_W);
   (KERNLINK, V2P KERNLINK, V2P kdata, 0);
   (kdata, V2P kdata, PHYSTOP, PTE_W);
   (DEVSPACE, DEVSPACE, 0, PTE_W)].

Fixpoint setupkvm_loop (ks : list (Z * Z * Z * Z)) (pgdir : Z) : kM kmem Z :=
  match ks with
  | [] => mret pgdir
  | (virt, phys_start, phys_end, perm) :: ks =>
      r ← mappages pgdir virt (u32 (phys_end - phys_start)) phys_start perm;
      if r <? 0 then _ ← freevm pgdir; mret 0
      else setupkvm_loop ks pgdir
  end.

Definition setupkvm : kM kmem Z :=
  pgdir ← kalloc;
  if pgdir =? 0 then mret 0
  else
    _ ← fill pgdir 0;
    if DEVSPACE <? P2V PHYSTOP then kpanic "PHYSTOP too high"
    else setupkvm_loop kmap pgdir.

Definition inituvm (pgdir init sz : Z) : kM kmem unit :=
  if PGSIZE <=? sz then kpanic "inituvm: more than a page"
  else
    m ← kalloc;
    _ ← fill m 0;
    _ ← mappages pgdir 0 PGSIZE (V2P m) (Z.lor PTE_W PTE_U);
    kmodify (fun s => set_mem s (memmove s.(kmem_mem) m init (Z.to_nat sz))).

Fixpoint allocuvm_loop (fuel : nat) (pgdir a oldsz newsz : Z) : kM kmem Z :=
  match fuel with
  | O => kpanic "out of fuel"
  | S fuel =>
      if a <? newsz then
        m ← kalloc;
        if m =? 0 then
          _ ← deallocuvm pgdir newsz oldsz;
          mret 0
        else
          _ ← fill m 0;
          r ← mappages pgdir a PGSIZE (V2P m) (Z.lor PTE_W PTE_U);
          if r <? 0 then
            _ ← deallocuvm pgdir newsz oldsz;
            _ ← kfree kend m;
            mret 0
          else allocuvm_loop fuel pgdir (u32 (a + PGSIZE)) oldsz newsz
      else mret newsz
  end.

Definition allocuvm (pgdir oldsz newsz : Z) : kM kmem Z :=
  if KERNBASE <=? newsz then mret 0
  else if newsz <? oldsz then mret oldsz
  else
    let a := PGROUNDUP oldsz in
    allocuvm_loop (S (Z.to_nat ((newsz - a + PGSIZE - 1) / PGSIZE))) pgdir a oldsz newsz.

Definition clearpteu (pgdir uva : Z) : kM kmem unit :=
  pte ← walkpgdir pgdir uva false;
  if pte =? 0 then kpanic "clearpteu"
  else
    e ← ld pte;
    st pte (Z.land e (u32 (Z.lnot PTE_U))).

Fixpoint copyuvm_loop (fuel : nat) (pgdir d i sz : Z) : kM kmem Z :=
  match fuel with
  | O => kpanic "out of fuel"
  | S fuel =>
      if i <? sz then
        pte ← walkpgdir pgdir i false;
        if pte =? 0 then kpanic "copyuvm: pte should exist"
        else
          e ← ld pte;
          if negb (present e) then kpanic "copyuvm: page not present"
          else
            let pa := PTE_ADDR e in
            let flags := PTE_FLAGS e in
            m ← kalloc;
            if m =? 0 then _ ← freevm d; mret 0
            else
              _ ← kmodify (fun s => set_mem s (memmove s.(kmem_mem) m (P2V pa) (Z.to_nat PGSIZE)));
              r ← mappages d i PGSIZE (V2P m) flags;
              if r <? 0 then _ ← kfree kend m; _ ← freevm d; mret 0
              else copyuvm_loop fuel pgdir d (u32 (i + PGSIZE)) sz
      else mret d
  end.

Definition copyuvm (pgdir sz : Z) : kM kmem Z :=
  d ← setupkvm;
  if d =? 0 then mret 0
  else copyuvm_loop (S (Z.to_nat ((sz + PGSIZE - 1) / PGSIZE))) pgdir d 0 sz.

(** The pointer [walkpgdir] returns is used unchecked. *)
Definition uva2ka (pgdir uva : Z) : kM kmem Z :=
  pte ← walkpgdir pgdir uva false;
  e ← ld pte;
  if negb (present e) then mret 0
  else if Z.land e PTE_U =? 0 then mret 0
  else mret (P2V (PTE_ADDR e)).

(** Bytes stored from [a] on. *)
Definition store_bytes (m : mem) (a : Z) (bs : list Z) : mem :=
  fun x => if (a <=? x) && (x <? a + Z.of_nat (length bs)) then nth (Z.to_nat (x - a)) bs 0 else m x.

(** [copyout]; [buf] are the bytes at its argument [p] that are still to be
    copied, from another address space than the pages they go to. *)
Fixpoint copyout_loop (fuel : nat) (pgdir va : Z) (buf : list Z) : kM kmem Z :=
  match fuel with
  | O => kpanic "out of fuel"
  | S fuel =>
      if 0 <? Z.of_nat (length buf) then
        let va0 := PGROUNDDOWN va in
        pa0 ← uva2ka pgdir va0;
        if pa0 =? 0 then mret (-1)
        else
          let n := u32 (PGSIZE - (va - va0)) in
          let n := if Z.of_nat (length buf) <? n then Z.of_nat (length buf) else n in
          _ ← kmodify (fun s => set_mem s (store_bytes s.(kmem_mem) (pa0 + (va - va0)) (take (Z.to_nat n) buf)));
          copyout_loop fuel pgdir (u32 (va0 + PGSIZE)) (drop (Z.to_nat n) buf)
      else mret 0
  end.

Definition copyout (pgdir va : Z) (buf : list Z) : kM kmem Z :=
  copyout_loop (S (Z.to_nat ((Z.of_nat (length buf) + 2 * PGSIZE) / PGSIZE))) pgdir va buf.

End Vm.
