(* ===== verification/VmSpec.v ===== *)
(** * What the page-table code does to address translation

    [lookup_pte m pgdir va] is the entry the hardware finds for [va].  [vmok]
    is the ownership invariant: the directory, its tables, the data pages [D]
    and the free pages [l] are all different pages.  Under it every operation
    of [Vm] is described by what it does to [lookup_pte], to the contents of
    the data pages and to the free list. *)

From S2P Require Import Prelude CString Mmu Kalloc Vm.

(** ** Translation *)

Definition pde (m : mem) (pgdir i : Z) : Z := load32 m (pgdir + 4 * i).
Definition has (m : mem) (pgdir i : Z) : bool := present (pde m pgdir i).
Definition tab (m : mem) (pgdir i : Z) : Z := P2V (PTE_ADDR (pde m pgdir i)).

(** The page-table entry of [va]; 0, not present, when there is no table. *)
Definition lookup_pte (m : mem) (pgdir va : Z) : Z :=
  if has m pgdir (PDX va) then load32 m (tab m pgdir (PDX va) + 4 * PTX va) else 0.

(** [m'] agrees with [m] on the page at [p]. *)
Definition same_page (m m' : mem) (p : Z) : Prop := forall x, p <= x < p + 4096 -> m' x = m x.

Lemma load32_page m m' p k : same_page m m' p -> 0 <= k < 1024 -> load32 m' (p + 4 * k) = load32 m (p + 4 * k).
Proof. intros H Hk. apply load32_ext. intros x Hx. apply H. lia. Qed.

Lemma store32_same_page m a v p k q :
  a = p + 4 * k -> 0 <= k < 1024 -> p + 4096 <= q \/ q + 4096 <= p -> same_page m (store32 m a v) q.
Proof. intros -> Hk Hq x Hx. apply store32_frame. lia. Qed.

Lemma memset_same_page m p c q :
  p + 4096 <= q \/ q + 4096 <= p -> same_page m (memset m p c PGSIZE) q.
Proof. intros Hq x Hx. rewrite memset_at. unfold PGSIZE. case_bools; lia || done. Qed.

Lemma memset_bytes m p c n : bytes_ok m -> bytes_ok (memset m p c n).
Proof. intros H x. rewrite memset_at. destruct (_ && _); [apply u8_range|apply H]. Qed.

Lemma memmove_bytes m d s n : bytes_ok m -> bytes_ok (memmove m d s n).
Proof. intros H x. rewrite memmove_at. destruct (_ && _); apply H. Qed.

#[export] Hint Resolve store32_bytes memset_bytes memmove_bytes : xv6.

Section Spec.
Variable kend : Z.
Hypothesis Hend : KERNLINK <= kend.

Abbreviation page_ok := (page_ok kend).
Abbreviation free_rep := (free_rep kend).

Record vmok (s : kmem) (l : list Z) (pgdir : Z) (D : list Z) : Prop := {
  vm_free : free_rep s l;
  vm_bytes : bytes_ok s.(kmem_mem);
  vm_dir : page_ok pgdir;
  vm_tab : forall i, 0 <= i < 1024 -> has s.(kmem_mem) pgdir i = true ->
    page_ok (tab s.(kmem_mem) pgdir i) /\ tab s.(kmem_mem) pgdir i <> pgdir /\
    tab s.(kmem_mem) pgdir i ∉ D ++ l;
  vm_tab_inj : forall i j, 0 <= i < 1024 -> 0 <= j < 1024 ->
    has s.(kmem_mem) pgdir i = true -> has s.(kmem_mem) pgdir j = true ->
    tab s.(kmem_mem) pgdir i = tab s.(kmem_mem) pgdir j -> i = j;
  vm_dir_sep : pgdir ∉ D ++ l;
  vm_data : Forall page_ok D;
  vm_nodup : NoDup (D ++ l)
}.

(** *** Changes that leave the tables alone *)

(** The free list, and memory, may change as long as the directory and its
    tables keep their contents. *)
Lemma tables_frame m m' pgdir :
  same_page m m' pgdir ->
  (forall i, 0 <= i < 1024 -> has m pgdir i = true -> same_page m m' (tab m pgdir i)) ->
  (forall i, 0 <= i < 1024 -> has m' pgdir i = has m pgdir i /\ tab m' pgdir i = tab m pgdir i) /\
  (forall va, lookup_pte m' pgdir va = lookup_pte m pgdir va).
Proof.
  intros Hd Ht.
  assert (Hpde : forall i, 0 <= i < 1024 -> pde m' pgdir i = pde m pgdir i).
  { intros i Hi. by apply load32_page. }
  split.
  - intros i Hi. unfold has, tab. by rewrite Hpde.
  - intros va. pose proof (PDX_range va) as Hi. unfold lookup_pte.
    unfold has at 1. rewrite Hpde by done. fold (has m pgdir (PDX va)).
    destruct (has m pgdir (PDX va)) eqn:E; [|done].
    unfold tab at 1. rewrite Hpde by done. apply load32_page; [by apply Ht|apply PTX_range].
Qed.

Lemma page_apart s l pgdir D i p :
  vmok s l pgdir D -> 0 <= i < 1024 -> has s.(kmem_mem) pgdir i = true -> p ∈ D ++ l ->
  page_ok p ->
  (p + 4096 <= tab s.(kmem_mem) pgdir i \/ tab s.(kmem_mem) pgdir i + 4096 <= p).
Proof.
  intros V Hi Hh Hp Hpo. destruct (vm_tab _ _ _ _ V i Hi Hh) as (Hok & _ & Hnin).
  apply (page_ok_apart kend); [done|done|]. intros ->. done.
Qed.

Lemma dir_apart s l pgdir D p :
  vmok s l pgdir D -> p ∈ D ++ l -> page_ok p -> p + 4096 <= pgdir \/ pgdir + 4096 <= p.
Proof.
  intros V Hp Hpo. apply (page_ok_apart kend); [done|apply V|]. intros ->.
  by apply (vm_dir_sep _ _ _ _ V).
Qed.

(** Memory may change inside one data page. *)
Lemma vmok_write s l pgdir D p m' :
  vmok s l pgdir D -> p ∈ D -> bytes_ok m' ->
  (forall x, ~ (p <= x < p + 4096) -> m' x = s.(kmem_mem) x) ->
  vmok (set_mem s m') l pgdir D /\
  (forall va, lookup_pte m' pgdir va = lookup_pte s.(kmem_mem) pgdir va).
Proof.
  intros V Hp Hb Hm.
  assert (Hpo : page_ok p) by (by eapply Forall_forall; [apply V|]).
  assert (HpD : p ∈ D ++ l) by (apply elem_of_app; by left).
  assert (Hsame : forall q, p + 4096 <= q \/ q + 4096 <= p -> same_page s.(kmem_mem) m' q).
  { intros q Hq x Hx. apply Hm. lia. }
  destruct (tables_frame s.(kmem_mem) m' pgdir) as [Ht Hl].
  - apply Hsame. by eapply dir_apart.
  - intros i Hi Hh. apply Hsame. by eapply page_apart.
  - split; [|done]. split; simpl; try apply V; try done.
    + destruct (vm_free _ _ _ _ V) as [Hc Hn]. split; [|done]. simpl.
      eapply chain_frame; [|exact Hc]. intros v x Hv Hx.
      assert (Hvo : page_ok v) by (eapply free_rep_pages; [apply V|done]).
      apply (Hsame v); [|lia]. apply (page_ok_apart kend); [done|done|]. intros ->.
      pose proof (vm_nodup _ _ _ _ V) as Hnd. apply NoDup_app in Hnd as (_ & Hdis & _). by apply (Hdis v).
    + intros i Hi. destruct (Ht i Hi) as [-> ->]. by apply V.
    + intros i j Hi Hj. destruct (Ht i Hi) as [-> ->], (Ht j Hj) as [-> ->]. by apply V.
Qed.

(** [kalloc] moves a page from the free list to the data pages. *)
Lemma vmok_kalloc s l pgdir D :
  vmok s l pgdir D ->
  match l with
  | [] => kalloc s = Ok (0, s)
  | v :: l' => v <> 0 /\ exists s', kalloc s = Ok (v, s') /\ s'.(kmem_mem) = s.(kmem_mem) /\
      vmok s' l' pgdir (v :: D)
  end.
Proof.
  intros V. destruct (kalloc_rep kend Hend s l (vm_free _ _ _ _ V)) as [Hk Hr].
  destruct l as [|v l]; simpl in *.
  - rewrite Hk. destruct (vm_free _ _ _ _ V) as [Hc _]. simpl in Hc. destruct s as [? ? ?].
    simpl in *. by rewrite Hc.
  - assert (Hv : page_ok v) by (eapply free_rep_pages; [apply V|by left]).
    split; [apply (page_ok_range kend Hend) in Hv; lia|]. eexists. split; [exact Hk|]. split; [done|].
    assert (Hp : D ++ v :: l ≡ₚ (v :: D) ++ l) by (simpl; symmetry; apply Permutation_middle).
    split; try apply V; simpl; try done.
    + intros i Hi Hh. destruct (vm_tab _ _ _ _ V i Hi Hh) as (? & ? & Hn). split; [done|].
      split; [done|]. by rewrite <- Hp.
    + intros Hin. apply (vm_dir_sep _ _ _ _ V). rewrite Hp. exact Hin.
    + constructor; [done|apply V].
    + pose proof (vm_nodup _ _ _ _ V) as Hn. rewrite Hp in Hn. exact Hn.
Qed.

Lemma vmok_perm s l pgdir D D' : D ≡ₚ D' -> vmok s l pgdir D -> vmok s l pgdir D'.
Proof.
  intros Hp V. split; try apply V.
  - intros i Hi Hh. destruct (vm_tab _ _ _ _ V i Hi Hh) as (? & ? & Hn). by rewrite <- Hp.
  - intros Hin. apply (vm_dir_sep _ _ _ _ V). by rewrite Hp.
  - rewrite <- Hp. apply V.
  - rewrite <- Hp. apply V.
Qed.

(** [kfree] moves a data page to the free list. *)
Lemma vmok_kfree s l pgdir D d :
  vmok s l pgdir (d :: D) ->
  exists s', kfree kend d s = Ok (tt, s') /\ vmok s' (d :: l) pgdir D /\
    (forall va, lookup_pte s'.(kmem_mem) pgdir va = lookup_pte s.(kmem_mem) pgdir va) /\
    (forall q, page_ok q -> q <> d -> same_page s.(kmem_mem) s'.(kmem_mem) q).
Proof.
  intros V. assert (Hd : page_ok d) by (eapply Forall_inv; apply V).
  rewrite (kfree_run kend Hend d s Hd). eexists. split; [reflexivity|]. simpl.
  set (m' := store32 _ _ _).
  assert (Hfr : forall x, ~ (d <= x < d + 4096) -> m' x = s.(kmem_mem) x) by (intros; by apply kfree_frame).
  assert (Hbo : bytes_ok m') by (apply store32_bytes, memset_bytes, V).
  destruct (vmok_write s l pgdir (d :: D) d m' V) as [V' Hl]; [by left|done..|].
  assert (Hp : (d :: D) ++ l ≡ₚ D ++ d :: l) by apply Permutation_middle.
  split; [|split; [done|]].
  - split; try apply V'; try done.
    + apply kfree_rep; [done|done|apply V|]. pose proof (vm_nodup _ _ _ _ V) as Hn.
      apply NoDup_cons in Hn as [Hn _]. intros Hin. apply Hn, elem_of_app. by right.
    + intros i Hi Hh. destruct (vm_tab _ _ _ _ V' i Hi Hh) as (? & ? & Hn). by rewrite <- Hp.
    + intros Hin. apply (vm_dir_sep _ _ _ _ V). by rewrite Hp.
    + eapply Forall_inv_tail, V.
    + rewrite <- Hp. apply V.
  - intros q Hq Hne x Hx. apply Hfr. destruct (page_ok_apart kend q d Hq Hd Hne); lia.
Qed.

(** *** Entries *)

Lemma pde_store m pgdir i j v :
  is_u32 v -> 0 <= i < 1024 -> 0 <= j < 1024 ->
  pde (store32 m (pgdir + 4 * i) v) pgdir j = if decide (j = i) then v else pde m pgdir j.
Proof.
  intros Hv Hi Hj. unfold pde. case_decide; [subst; by apply load32_store32_eq|].
  apply load32_store32_ne. lia.
Qed.

Lemma page_ok_P2V t : page_ok t -> P2V (V2P t) = t.
Proof.
  intros Ht. rewrite (page_ok_V2P kend Hend t Ht). unfold P2V. rewrite Z.sub_add.
  by apply u32_small, (page_ok_range kend Hend).
Qed.

Lemma page_ok_phys t : page_ok t -> is_u32 (V2P t) /\ V2P t mod 4096 = 0 /\ V2P t + 4096 <= PHYSTOP.
Proof.
  intros Ht. split; [apply u32_range|]. rewrite (page_ok_V2P kend Hend t Ht). destruct Ht as [H1 H2].
  unfold KERNBASE, PHYSTOP in *. split; Z.to_euclidean_division_equations; lia.
Qed.

(** The directory entry [walkpgdir] makes. *)
Lemma pde_entry t : page_ok t ->
  let e := Z.lor (Z.lor (Z.lor (V2P t) PTE_P) PTE_W) PTE_U in
  is_u32 e /\ present e = true /\ P2V (PTE_ADDR e) = t.
Proof.
  intros Ht e. assert (He : e = Z.lor (Z.lor (V2P t) 6) PTE_P).
  { unfold e, PTE_P, PTE_W, PTE_U. rewrite <- !Z.lor_assoc. done. }
  destruct (page_ok_phys t Ht) as (Hu & Ha & _). rewrite He. split; [|split].
  - by apply mk_pte_u32; [| |lia].
  - by apply present_mk.
  - rewrite PTE_ADDR_mk by (done || lia). by apply page_ok_P2V.
Qed.

(** A zeroed data page becomes a page table. *)
Lemma vmok_new_table s l pgdir D t i :
  vmok s l pgdir (t :: D) -> (forall x, t <= x < t + 4096 -> s.(kmem_mem) x = 0) ->
  0 <= i < 1024 -> has s.(kmem_mem) pgdir i = false ->
  let m' := store32 s.(kmem_mem) (pgdir + 4 * i)
              (Z.lor (Z.lor (Z.lor (V2P t) PTE_P) PTE_W) PTE_U) in
  vmok (set_mem s m') l pgdir D /\ has m' pgdir i = true /\ tab m' pgdir i = t /\
  (forall va, lookup_pte m' pgdir va = lookup_pte s.(kmem_mem) pgdir va) /\
  (forall j, 0 <= j < 1024 -> j <> i -> pde m' pgdir j = pde s.(kmem_mem) pgdir j).
Proof.
  intros V Hz Hi Hh m'. assert (Ht : page_ok t) by (eapply Forall_inv; apply V).
  destruct (pde_entry t Ht) as (Hu & Hpr & Had).
  set (e := Z.lor (Z.lor (Z.lor (V2P t) PTE_P) PTE_W) PTE_U) in *.
  assert (Hpde : forall j, 0 <= j < 1024 ->
            pde m' pgdir j = if decide (j = i) then e else pde s.(kmem_mem) pgdir j).
  { intros j Hj. by apply pde_store. }
  assert (Hhi : has m' pgdir i = true) by (unfold has; by rewrite Hpde, decide_True).
  assert (Hti : tab m' pgdir i = t) by (unfold tab; by rewrite Hpde, decide_True).
  assert (Hho : forall j, 0 <= j < 1024 -> j <> i ->
            has m' pgdir j = has s.(kmem_mem) pgdir j /\ tab m' pgdir j = tab s.(kmem_mem) pgdir j).
  { intros j Hj Hne. unfold has, tab. by rewrite Hpde, decide_False. }
  assert (Hsame : forall q, page_ok q -> q <> pgdir -> same_page s.(kmem_mem) m' q).
  { intros q Hq Hne. eapply store32_same_page; [reflexivity|done|].
    apply (page_ok_apart kend); [apply V|done|done]. }
  assert (Htd : t <> pgdir) by (intros ->; apply (vm_dir_sep _ _ _ _ V); by left).
  assert (Hnin : t ∉ D ++ l) by (by apply NoDup_cons, V).
  split; [|split; [done|split; [done|split]]].
  3: { intros j Hj Hne. by rewrite Hpde, decide_False. }
  - split; simpl.
    + destruct (vm_free _ _ _ _ V) as [Hc Hn]. split; [|done]. eapply chain_frame; [|exact Hc].
      intros v x Hv Hx. assert (Hvo : page_ok v) by (eapply free_rep_pages; [apply V|done]).
      apply (Hsame v Hvo); [|lia]. intros ->. apply (vm_dir_sep _ _ _ _ V), elem_of_app. by right.
    + apply store32_bytes, V.
    + apply V.
    + intros j Hj Hhj. destruct (decide (j = i)) as [->|Hne]; [by rewrite Hti|].
      destruct (Hho j Hj Hne) as [E1 ->]. rewrite E1 in Hhj.
      destruct (vm_tab _ _ _ _ V j Hj Hhj) as (? & ? & Hn). split; [done|]. split; [done|].
      intros Hin. apply Hn. by right.
    + assert (Hnew : forall j, 0 <= j < 1024 -> j <> i -> has m' pgdir j = true -> tab m' pgdir j <> t).
      { intros j Hj Hne Hhj. destruct (Hho j Hj Hne) as [E1 ->]. rewrite E1 in Hhj.
        destruct (vm_tab _ _ _ _ V j Hj Hhj) as (_ & _ & Hn). intros E. apply Hn. rewrite E. by left. }
      intros j k Hj Hk Hhj Hhk E.
      destruct (decide (j = i)) as [->|Hji], (decide (k = i)) as [->|Hki]; [done|..].
      * rewrite Hti in E. by destruct (Hnew k Hk Hki Hhk).
      * rewrite Hti in E. by destruct (Hnew j Hj Hji Hhj).
      * destruct (Hho j Hj Hji) as [F1 F2], (Hho k Hk Hki) as [G1 G2].
        rewrite F1 in Hhj. rewrite G1 in Hhk. rewrite F2, G2 in E. by eapply vm_tab_inj.
    + intros Hin. apply (vm_dir_sep _ _ _ _ V). by right.
    + eapply Forall_inv_tail, V.
    + pose proof (vm_nodup _ _ _ _ V) as Hn. by apply NoDup_cons in Hn as [_ ?].
  - intros va. pose proof (PDX_range va) as Hva. pose proof (PTX_range va). unfold lookup_pte.
    destruct (decide (PDX va = i)) as [->|Hne].
    + rewrite Hhi, Hti, Hh. rewrite (load32_page _ _ t _ (Hsame t Ht Htd)) by done.
      unfold load32. by rewrite !Hz by lia.
    + destruct (Hho _ Hva Hne) as [-> ->]. destruct (has s.(kmem_mem) pgdir (PDX va)) eqn:E; [|done].
      destruct (vm_tab _ _ _ _ V _ Hva E) as (? & ? & _). by apply load32_page; [apply Hsame|].
Qed.

(** One entry of a table changes. *)
Lemma vmok_set_pte s l pgdir D i k v :
  vmok s l pgdir D -> 0 <= i < 1024 -> has s.(kmem_mem) pgdir i = true -> 0 <= k < 1024 -> is_u32 v ->
  let m' := store32 s.(kmem_mem) (tab s.(kmem_mem) pgdir i + 4 * k) v in
  vmok (set_mem s m') l pgdir D /\
  (forall va, lookup_pte m' pgdir va =
     if decide (PDX va = i /\ PTX va = k) then v else lookup_pte s.(kmem_mem) pgdir va) /\
  (forall q, page_ok q -> q <> tab s.(kmem_mem) pgdir i -> same_page s.(kmem_mem) m' q) /\
  same_page s.(kmem_mem) m' pgdir.
Proof.
  intros V Hi Hh Hk Hv m'. destruct (vm_tab _ _ _ _ V i Hi Hh) as (Ht & Htd & Hnin).
  set (t := tab s.(kmem_mem) pgdir i) in *.
  assert (Hsame : forall q, page_ok q -> q <> t -> same_page s.(kmem_mem) m' q).
  { intros q Hq Hne. eapply store32_same_page; [reflexivity|done|].
    by apply (page_ok_apart kend). }
  assert (Hpde : forall j, 0 <= j < 1024 -> pde m' pgdir j = pde s.(kmem_mem) pgdir j).
  { intros j Hj. apply load32_page; [|done]. apply Hsame; [apply V|done]. }
  assert (Hho : forall j, 0 <= j < 1024 ->
            has m' pgdir j = has s.(kmem_mem) pgdir j /\ tab m' pgdir j = tab s.(kmem_mem) pgdir j).
  { intros j Hj. unfold has, tab. by rewrite Hpde. }
  split; [|split; [|split; [done|apply Hsame; [apply V|done]]]].
  - split; simpl; try apply V.
    + destruct (vm_free _ _ _ _ V) as [Hc Hn]. split; [|done]. eapply chain_frame; [|exact Hc].
      intros w x Hw Hx. assert (Hwo : page_ok w) by (eapply free_rep_pages; [apply V|done]).
      apply (Hsame w Hwo); [|lia]. intros ->. apply Hnin, elem_of_app. by right.
    + apply store32_bytes, V.
    + intros j Hj. destruct (Hho j Hj) as [-> ->]. by apply V.
    + intros j j' Hj Hj'. destruct (Hho j Hj) as [-> ->], (Hho j' Hj') as [-> ->]. by apply V.
  - intros va. pose proof (PDX_range va) as Hva. pose proof (PTX_range va). unfold lookup_pte.
    destruct (Hho _ Hva) as [-> ->]. destruct (decide (PDX va = i)) as [E|Hne].
    + rewrite E, Hh. fold t. destruct (decide (PTX va = k)) as [<-|Hnk].
      * rewrite decide_True by done. by apply load32_store32_eq.
      * rewrite decide_False by tauto. apply load32_store32_ne. lia.
    + rewrite decide_False by tauto. destruct (has s.(kmem_mem) pgdir (PDX va)) eqn:E; [|done].
      destruct (vm_tab _ _ _ _ V _ Hva E) as (? & ? & _). apply load32_page; [|done].
      apply Hsame; [done|]. intros E'. apply Hne. by eapply (vm_tab_inj _ _ _ _ V).
Qed.

(** *** The page tables of a directory *)

Definition same_dir (m m' : mem) (pgdir : Z) : Prop := forall i, 0 <= i < 1024 -> pde m' pgdir i = pde m pgdir i.

(** [m'] has the tables of [m] and those of [u], and no others. *)
Definition tables_add (m m' : mem) (pgdir : Z) (u : list Z) : Prop :=
  (forall i, 0 <= i < 1024 -> has m pgdir i = true -> pde m' pgdir i = pde m pgdir i) /\
  (forall p, p ∈ u <-> exists i, 0 <= i < 1024 /\ has m pgdir i = false /\ has m' pgdir i = true /\ tab m' pgdir i = p).

Lemma same_page_dir m m' pgdir : same_page m m' pgdir -> same_dir m m' pgdir.
Proof. intros H i Hi. by apply load32_page. Qed.

Lemma same_dir_trans m m1 m2 pgdir : same_dir m m1 pgdir -> same_dir m1 m2 pgdir -> same_dir m m2 pgdir.
Proof. intros H1 H2 i Hi. by rewrite H2, H1. Qed.

Lemma tables_same m m' pgdir : same_dir m m' pgdir -> tables_add m m' pgdir [].
Proof.
  intros H. split; [intros i Hi _; by apply H|]. intros p. split; [by intros ?%elem_of_nil|].
  intros (i & Hi & H1 & H2 & _). unfold has in *. rewrite H in H2 by done. congruence.
Qed.

Lemma tables_trans m m1 m2 pgdir u v :
  tables_add m m1 pgdir u -> tables_add m1 m2 pgdir v -> tables_add m m2 pgdir (u ++ v).
Proof.
  intros [A1 A2] [B1 B2]. assert (H1 : forall i, 0 <= i < 1024 -> has m pgdir i = true -> has m1 pgdir i = true).
  { intros i Hi Hh. unfold has. by rewrite A1. }
  split.
  - intros i Hi Hh. rewrite B1 by auto. by apply A1.
  - intros p. rewrite elem_of_app, A2, B2. split.
    + intros [(i & Hi & E1 & E2 & E3)|(i & Hi & E1 & E2 & E3)]; exists i.
      * split; [done|]. split; [done|]. unfold has, tab in *. by rewrite B1.
      * split; [done|]. split; [|done]. destruct (has m pgdir i) eqn:E; [|done]. pose proof (H1 i Hi E). congruence.
    + intros (i & Hi & E1 & E2 & E3). destruct (has m1 pgdir i) eqn:E.
      * left. exists i. unfold tab in *. rewrite B1 in E3 by done. exact (conj Hi (conj E1 (conj E E3))).
      * right. by exists i.
Qed.

(** A change that leaves the directory alone, before or after. *)
Lemma tables_before m m1 m2 pgdir u : same_dir m m1 pgdir -> tables_add m1 m2 pgdir u -> tables_add m m2 pgdir u.
Proof. intros H1 H2. exact (tables_trans _ _ _ _ [] u (tables_same _ _ _ H1) H2). Qed.

Lemma tables_after m m1 m2 pgdir u : tables_add m m1 pgdir u -> same_dir m1 m2 pgdir -> tables_add m m2 pgdir u.
Proof.
  intros H1 H2. pose proof (tables_trans _ _ _ _ u [] H1 (tables_same _ _ _ H2)) as H. by rewrite app_nil_r in H.
Qed.

(** *** walkpgdir *)

Lemma walk_run pgdir va s :
  walkpgdir pgdir va false s =
    Ok (if has s.(kmem_mem) pgdir (PDX va) then tab s.(kmem_mem) pgdir (PDX va) + 4 * PTX va else 0, s).
Proof.
  unfold walkpgdir, ld. erewrite kM_bind_run by reflexivity.
  fold (pde s.(kmem_mem) pgdir (PDX va)). fold (has s.(kmem_mem) pgdir (PDX va)).
  by destruct (has s.(kmem_mem) pgdir (PDX va)).
Qed.

Lemma pte_addr_nonzero s l pgdir D va :
  vmok s l pgdir D -> has s.(kmem_mem) pgdir (PDX va) = true ->
  tab s.(kmem_mem) pgdir (PDX va) + 4 * PTX va <> 0.
Proof.
  intros V Hh. destruct (vm_tab _ _ _ _ V _ (PDX_range va) Hh) as (Ht & _).
  apply (page_ok_range kend Hend) in Ht. pose proof (PTX_range va). lia.
Qed.

(** With [alloc] set: a table is added if there was none, translation does not
    change, and neither do the data pages. *)
Lemma walk_alloc pgdir va s l D :
  vmok s l pgdir D ->
  exists r s' l', walkpgdir pgdir va true s = Ok (r, s') /\ vmok s' l' pgdir D /\
    (exists k, l = k ++ l' /\ tables_add s.(kmem_mem) s'.(kmem_mem) pgdir k) /\
    (forall x, lookup_pte s'.(kmem_mem) pgdir x = lookup_pte s.(kmem_mem) pgdir x) /\
    (forall d, d ∈ D -> same_page s.(kmem_mem) s'.(kmem_mem) d) /\
    (r = 0 /\ l' = [] /\ s' = s \/
     r <> 0 /\ has s'.(kmem_mem) pgdir (PDX va) = true /\
       r = tab s'.(kmem_mem) pgdir (PDX va) + 4 * PTX va).
Proof.
  intros V. unfold walkpgdir, ld. erewrite kM_bind_run by reflexivity.
  fold (pde s.(kmem_mem) pgdir (PDX va)). fold (has s.(kmem_mem) pgdir (PDX va)).
  destruct (has s.(kmem_mem) pgdir (PDX va)) eqn:Hh.
  { eexists _, s, l. split; [reflexivity|]. split; [done|]. split; [by exists []; split; [|apply tables_same]|].
    split; [done|]. split; [done|]. right. split; [by eapply pte_addr_nonzero|]. by split. }
  simpl negb. cbn [negb]. pose proof (vmok_kalloc s l pgdir D V) as Hk. destruct l as [|t l].
  { rewrite (kM_bind_run _ _ _ _ _ Hk). eexists _, s, []. split; [reflexivity|]. split; [done|].
    split; [by exists []; split; [|apply tables_same]|]. split; [done|]. split; [done|]. by left. }
  destruct Hk as (Ht0 & s1 & Hk & Hm & V1). rewrite (kM_bind_run _ _ _ _ _ Hk).
  destruct (Z.eqb_spec t 0) as [|_]; [done|].
  assert (Ht : page_ok t) by (eapply Forall_inv; apply V1).
  set (m2 := memset s1.(kmem_mem) t 0 PGSIZE).
  assert (Hz : forall x, t <= x < t + 4096 -> m2 x = 0).
  { intros x Hx. unfold m2. rewrite memset_at. unfold PGSIZE. case_bools; lia || done. }
  destruct (vmok_write s1 l pgdir (t :: D) t m2 V1) as [V2 Hl2]; [by left|apply memset_bytes, V1| |].
  { intros x Hx. unfold m2. rewrite memset_at. unfold PGSIZE. case_bools; lia || done. }
  assert (Hh2 : has m2 pgdir (PDX va) = false).
  { rewrite <- Hh, <- Hm. unfold has. f_equal. apply load32_page; [|apply PDX_range].
    apply memset_same_page, (page_ok_apart kend); [done|apply V|]. intros ->.
    apply (vm_dir_sep _ _ _ _ V1). by left. }
  destruct (vmok_new_table (set_mem s1 m2) l pgdir D t (PDX va) V2 Hz (PDX_range va) Hh2)
    as (V3 & Hh3 & Ht3 & Hl3 & Hp3).
  assert (Hsd : same_dir s.(kmem_mem) m2 pgdir).
  { rewrite <- Hm. apply same_page_dir, memset_same_page, (page_ok_apart kend); [done|apply V|]. intros ->.
    apply (vm_dir_sep _ _ _ _ V1). by left. }
  eexists _, _, l. split; [reflexivity|]. split; [exact V3|]. split.
  { exists [t]. split; [done|]. apply (tables_before _ m2); [done|]. split.
    - intros i Hi Hhi. apply Hp3; [done|]. intros ->. cbn [set_mem kmem_mem] in Hh2. congruence.
    - intros p. rewrite list_elem_of_singleton. split.
      + intros ->. exists (PDX va). split_and!; [apply PDX_range..|exact Hh2|exact Hh3|exact Ht3].
      + intros (i & Hi & E1 & E2 & <-). destruct (decide (i = PDX va)) as [->|Hne]; [exact Ht3|].
        unfold has in *. rewrite Hp3 in E2 by done. cbn [set_mem kmem_mem] in E2. congruence. }
  split; [|split].
  - intros x. etransitivity; [apply Hl3|]. etransitivity; [apply Hl2|]. by rewrite Hm.
  - intros d Hd. assert (Hdo : page_ok d) by (eapply Forall_forall; [apply V|done]).
    assert (Htd : d <> t).
    { intros ->. pose proof (vm_nodup _ _ _ _ V1) as Hn. apply NoDup_cons in Hn as [Hn _].
      apply Hn, elem_of_app. by left. }
    assert (Hdd : d <> pgdir) by (intros ->; apply (vm_dir_sep _ _ _ _ V), elem_of_app; by left).
    intros x Hx. cbn [set_mem kmem_mem]. rewrite <- Hm.
    transitivity (m2 x).
    + eapply (store32_same_page m2 _ _ pgdir _ d); [reflexivity|apply PDX_range| |done].
      apply (page_ok_apart kend); [apply V|done|done].
    + apply (memset_same_page s1.(kmem_mem) t 0 d); [|done].
      by apply (page_ok_apart kend).
  - right. split; [apply (page_ok_range kend Hend) in Ht; pose proof (PTX_range va); lia|].
    split; [exact Hh3|]. f_equal. symmetry. exact Ht3.
Qed.

(** *** mappages *)

(** The first [n] pages from [a] now map to consecutive frames from [pa]. *)
Definition remapped (m m' : mem) (pgdir a n pa perm : Z) : Prop :=
  forall va, is_u32 va -> lookup_pte m' pgdir va =
    if decide (a <= va < a + 4096 * n)
    then Z.lor (Z.lor (pa + (va / 4096 * 4096 - a)) perm) PTE_P
    else lookup_pte m pgdir va.

(** One turn of the loop. *)
Lemma mappages_turn fuel pgdir a last pa perm s l D :
  vmok s l pgdir D -> a mod 4096 = 0 -> is_u32 a -> pa mod 4096 = 0 -> is_u32 pa ->
  0 <= perm < 4096 -> present (lookup_pte s.(kmem_mem) pgdir a) = false ->
  exists s' l', vmok s' l' pgdir D /\ (exists k, l = k ++ l' /\ tables_add s.(kmem_mem) s'.(kmem_mem) pgdir k) /\
    (forall d, d ∈ D -> same_page s.(kmem_mem) s'.(kmem_mem) d) /\
    (s' = s /\ l' = [] /\ mappages_loop (S fuel) pgdir a last pa perm s = Ok (-1, s) \/
     remapped s.(kmem_mem) s'.(kmem_mem) pgdir a 1 pa perm /\
     mappages_loop (S fuel) pgdir a last pa perm s =
       (if a =? last then mret 0
        else mappages_loop fuel pgdir (u32 (a + PGSIZE)) last (u32 (pa + PGSIZE)) perm) s').
Proof.
  intros V Ha Hau Hpa Hpu Hpe Hno. cbn [mappages_loop].
  destruct (walk_alloc pgdir a s l D V) as (r & s1 & l1 & Hw & V1 & Hk1 & Hlk & Hdata & Hr).
  rewrite (kM_bind_run _ _ _ _ _ Hw). destruct Hr as [(-> & -> & ->)|(Hr0 & Hh1 & Er)].
  { exists s, []. split; [done|]. split; [done|]. split; [done|]. by left. }
  destruct (Z.eqb_spec r 0) as [|_]; [done|].
  destruct (vmok_set_pte s1 l1 pgdir D (PDX a) (PTX a) (Z.lor (Z.lor pa perm) PTE_P) V1
    (PDX_range a) Hh1 (PTX_range a) (mk_pte_u32 pa perm Hpu Hpa Hpe)) as (V2 & Hlk2 & Hs2 & Hd2).
  eexists _, l1. split; [exact V2|]. split.
  { destruct Hk1 as (k & Hk & Ht). exists k. split; [done|]. by apply (tables_after _ s1.(kmem_mem)); [|apply same_page_dir]. }
  split.
  { intros d Hd x Hx. cbn [set_mem kmem_mem]. rewrite <- (Hdata d Hd x Hx).
    apply (Hs2 d); [by eapply Forall_forall; [apply V|]| |done]. intros ->.
    destruct (vm_tab _ _ _ _ V1 _ (PDX_range a) Hh1) as (_ & _ & Hn). apply Hn, elem_of_app. by left. }
  right. split.
  - intros va Hva. cbn [set_mem kmem_mem]. rewrite Hlk2, Hlk.
    assert (Hiff : PDX va = PDX a /\ PTX va = PTX a <-> a <= va < a + 4096 * 1).
    { split.
      - intros [H1 H2]. pose proof (page_split va a Hva Hau H1 H2).
        Z.to_euclidean_division_equations. lia.
      - intros Hr. assert (E : va / 4096 = a / 4096) by (Z.to_euclidean_division_equations; lia).
        rewrite !PDX_val, !PTX_val, E by done. split; [|done].
        change 4194304 with (4096 * 1024). by rewrite <- !Z.div_div, E by lia. }
    destruct (decide (PDX va = PDX a /\ PTX va = PTX a)) as [H|H]; destruct (decide (a <= va < a + 4096 * 1)) as [H'|H'];
      try tauto. do 2 f_equal. Z.to_euclidean_division_equations. lia.
  - unfold ld. erewrite kM_bind_run by reflexivity.
    assert (Hld : load32 s1.(kmem_mem) r = lookup_pte s.(kmem_mem) pgdir a).
    { rewrite <- Hlk. unfold lookup_pte. by rewrite Hh1, Er. }
    rewrite Hld, Hno. unfold st. rewrite Er. by erewrite kM_bind_run by reflexivity.
Qed.

Lemma remapped_trans m m1 m2 pgdir a n pa perm :
  0 <= n -> remapped m m1 pgdir a 1 pa perm -> remapped m1 m2 pgdir (a + 4096) n (pa + 4096) perm ->
  remapped m m2 pgdir a (n + 1) pa perm.
Proof.
  intros Hn H1 H2 va Hva. rewrite (H2 va Hva), (H1 va Hva).
  destruct (decide (a + 4096 <= va < a + 4096 + 4096 * n)), (decide (a <= va < a + 4096 * 1)),
    (decide (a <= va < a + 4096 * (n + 1))); try lia; try done.
  do 2 f_equal. lia.
Qed.

Lemma mappages_loop_run fuel pgdir a last pa perm s l D :
  vmok s l pgdir D -> a mod 4096 = 0 -> 0 <= a -> last = a + 4096 * Z.of_nat fuel -> last < 2 ^ 32 ->
  pa mod 4096 = 0 -> 0 <= pa -> pa + 4096 * Z.of_nat fuel < 2 ^ 32 -> 0 <= perm < 4096 ->
  (forall va, a <= va <= last -> present (lookup_pte s.(kmem_mem) pgdir va) = false) ->
  exists r s' l' n, mappages_loop (S fuel) pgdir a last pa perm s = Ok (r, s') /\
    vmok s' l' pgdir D /\ (exists k, l = k ++ l' /\ tables_add s.(kmem_mem) s'.(kmem_mem) pgdir k) /\
    (forall d, d ∈ D -> same_page s.(kmem_mem) s'.(kmem_mem) d) /\
    remapped s.(kmem_mem) s'.(kmem_mem) pgdir a n pa perm /\
    (r = 0 /\ n = Z.of_nat fuel + 1 \/ r = -1 /\ l' = [] /\ 0 <= n <= Z.of_nat fuel).
Proof.
  revert a pa s l. induction fuel as [|fuel IH]; intros a pa s l V Ha Ha0 Hl Hl2 Hpa Hpa0 Hpa2 Hpe Hno;
    (match goal with |- context [mappages_loop (S ?f)] =>
       destruct (mappages_turn f pgdir a last pa perm s l D V) as (s1 & l1 & V1 & Hk1 & Hd1 & Hr) end;
     [done|unfold is_u32; lia|done|unfold is_u32; lia|done|apply Hno; lia|]);
    (destruct Hr as [(-> & -> & Hrun)|[Hm Hrun]];
     [exists (-1), s, [], 0; rewrite Hrun; split_and!; try done;
      [intros va Hva; by rewrite decide_False by lia|right; split_and!; lia || done]|]).
  - rewrite Z.mul_0_r, Z.add_0_r in Hl. subst last. rewrite Z.eqb_refl in Hrun.
    exists 0, s1, l1, 1. rewrite Hrun. split_and!; try done. by left.
  - destruct (Z.eqb_spec a last) as [|_]; [lia|].
    rewrite !u32_small in Hrun by (unfold is_u32, PGSIZE; lia). unfold PGSIZE in Hrun.
    destruct (IH (a + 4096) (pa + 4096) s1 l1 V1) as (r & s2 & l2 & n & Hrun2 & V2 & Hk2 & Hd2 & Hm2 & Hr2);
      try lia; try (Z.to_euclidean_division_equations; lia).
    { intros va Hva. rewrite Hm by (unfold is_u32; lia). rewrite decide_False by lia. apply Hno. lia. }
    exists r, s2, l2, (n + 1). rewrite Hrun. split; [done|]. split; [done|]. split_and!.
    + destruct Hk1 as (k1 & -> & T1), Hk2 as (k2 & -> & T2). exists (k1 ++ k2). split; [by rewrite app_assoc|].
      by apply (tables_trans _ s1.(kmem_mem)).
    + intros d Hd x Hx. rewrite (Hd2 d Hd x Hx). exact (Hd1 d Hd x Hx).
    + apply (remapped_trans _ s1.(kmem_mem)); [lia|done|done].
    + destruct Hr2 as [(-> & ->)|(-> & -> & ?)]; [left; lia|right; split_and!; lia || done].
Qed.

Lemma mappages_run pgdir va size pa perm s l D :
  let a := va / 4096 * 4096 in
  let n := (va + size - 1) / 4096 - va / 4096 + 1 in
  vmok s l pgdir D -> 0 <= va -> 0 < size -> va + size <= 2 ^ 32 ->
  pa mod 4096 = 0 -> 0 <= pa -> pa + 4096 * (n - 1) < 2 ^ 32 -> 0 <= perm < 4096 ->
  (forall x, a <= x < a + 4096 * n -> present (lookup_pte s.(kmem_mem) pgdir x) = false) ->
  exists r s' l' k, mappages pgdir va size pa perm s = Ok (r, s') /\
    vmok s' l' pgdir D /\ (exists u, l = u ++ l' /\ tables_add s.(kmem_mem) s'.(kmem_mem) pgdir u) /\
    (forall d, d ∈ D -> same_page s.(kmem_mem) s'.(kmem_mem) d) /\
    remapped s.(kmem_mem) s'.(kmem_mem) pgdir a k pa perm /\
    (r = 0 /\ k = n \/ r = -1 /\ l' = [] /\ 0 <= k < n).
Proof.
  intros a n V Hva Hsz Hend2 Hpa Hpa0 Hpa2 Hpe Hno. unfold mappages, PGSIZE.
  rewrite (PGROUNDDOWN_val va) by (unfold is_u32; lia).
  rewrite (u32_small (va + size - 1)) by (unfold is_u32; lia).
  rewrite (PGROUNDDOWN_val (va + size - 1)) by (unfold is_u32; lia). fold a.
  set (last := (va + size - 1) / 4096 * 4096).
  assert (Hn : 1 <= n) by (unfold n; Z.to_euclidean_division_equations; lia).
  assert (Hlast : last = a + 4096 * (n - 1)) by (unfold last, a, n; lia).
  assert (Ha : 0 <= a /\ last < 2 ^ 32).
  { unfold a, last. change (2 ^ 32) with 4294967296 in *. Z.to_euclidean_division_equations. lia. }
  rewrite (u32_small (last - a)) by (unfold is_u32; lia).
  replace ((last - a) / 4096) with (n - 1) by (rewrite Hlast; Z.to_euclidean_division_equations; lia).
  destruct (mappages_loop_run (Z.to_nat (n - 1)) pgdir a last pa perm s l D V)
    as (r & s' & l' & k & H1 & H2 & H3 & H4 & H5 & H6); try lia.
  { unfold a. apply Z_mod_mult. }
  { intros x Hx. apply Hno. unfold last, a, n in *. Z.to_euclidean_division_equations. lia. }
  exists r, s', l', k. split_and!; try done.
  destruct H6 as [(-> & ->)|(-> & -> & ?)]; [left; lia|right; split_and!; lia || done].
Qed.

(** ** User memory *)

Definition frame_of (m : mem) (pgdir va : Z) : Z := P2V (PTE_ADDR (lookup_pte m pgdir va)).

(** User pages are backed by data pages, a page each. *)
Record umok (m : mem) (pgdir : Z) (D : list Z) : Prop := {
  um_in : forall va, 0 <= va < KERNBASE -> present (lookup_pte m pgdir va) = true ->
    frame_of m pgdir va ∈ D;
  um_inj : forall va vb, 0 <= va < KERNBASE -> 0 <= vb < KERNBASE ->
    present (lookup_pte m pgdir va) = true -> present (lookup_pte m pgdir vb) = true ->
    frame_of m pgdir va = frame_of m pgdir vb -> va / 4096 = vb / 4096
}.

Lemma umok_ext m m' pgdir D :
  (forall va, is_u32 va -> lookup_pte m' pgdir va = lookup_pte m pgdir va) -> umok m pgdir D -> umok m' pgdir D.
Proof.
  intros H [U1 U2]. assert (Hu : forall va, 0 <= va < KERNBASE -> is_u32 va) by (unfold is_u32, KERNBASE; lia).
  split; unfold frame_of in *.
  - intros va Hva. rewrite H by auto. by apply U1.
  - intros va vb Hva Hvb. rewrite !H by auto. by apply U2.
Qed.

(** [m'] is [m] with nothing mapped in the pages from [a] up to [b]. *)
Definition unmapped (m m' : mem) (pgdir a b : Z) : Prop :=
  forall va, is_u32 va ->
    if decide (a <= va / 4096 * 4096 < b)
    then present (lookup_pte m' pgdir va) = false
    else lookup_pte m' pgdir va = lookup_pte m pgdir va.

Lemma unmapped_present m m' pgdir a b va :
  unmapped m m' pgdir a b -> is_u32 va -> present (lookup_pte m' pgdir va) = true ->
  lookup_pte m' pgdir va = lookup_pte m pgdir va.
Proof. intros H Hva Hp. specialize (H va Hva). case_decide; congruence. Qed.

Lemma same_slot va vb :
  is_u32 va -> is_u32 vb -> PDX va = PDX vb /\ PTX va = PTX vb <-> va / 4096 = vb / 4096.
Proof.
  intros Ha Hb. split; [intros [? ?]; by apply page_split|]. intros E.
  rewrite !PDX_val, !PTX_val, E by done. split; [|done].
  change 4194304 with (4096 * 1024). by rewrite <- !Z.div_div, E by lia.
Qed.

(** Freeing the frame of one mapped user page and clearing its entry. *)
Lemma unmap_one pgdir a s l D :
  vmok s l pgdir D -> umok s.(kmem_mem) pgdir D -> 0 <= a < KERNBASE -> a mod 4096 = 0 ->
  present (lookup_pte s.(kmem_mem) pgdir a) = true ->
  let e := lookup_pte s.(kmem_mem) pgdir a in
  let d := P2V (PTE_ADDR e) in
  PTE_ADDR e <> 0 /\
  exists s1 s2 D', D ≡ₚ d :: D' /\ kfree kend d s = Ok (tt, s1) /\
    st (tab s.(kmem_mem) pgdir (PDX a) + 4 * PTX a) 0 s1 = Ok (tt, s2) /\
    vmok s2 (d :: l) pgdir D' /\ umok s2.(kmem_mem) pgdir D' /\
    unmapped s.(kmem_mem) s2.(kmem_mem) pgdir a (a + 4096) /\
    (forall q, q ∈ D' -> same_page s.(kmem_mem) s2.(kmem_mem) q) /\ same_dir s.(kmem_mem) s2.(kmem_mem) pgdir.
Proof.
  intros V U Ha Haa Hp e d. assert (Hau : is_u32 a) by (unfold is_u32, KERNBASE in *; lia).
  assert (HdD : d ∈ D) by (by apply (um_in _ _ _ U)).
  assert (Hdo : page_ok d) by (eapply Forall_forall; [apply V|done]).
  split.
  { intros E. unfold d in Hdo. rewrite E in Hdo. destruct Hdo as [_ Hdo].
    change (P2V 0) with 2147483648 in Hdo. unfold KERNLINK, KERNBASE, EXTMEM in *. lia. }
  assert (Hfr : frame_of s.(kmem_mem) pgdir a = d) by done. clearbody d.
  apply elem_of_Permutation in HdD as [D' HD'].
  destruct (vmok_kfree s l pgdir D' d) as (s1 & Hk & V1 & Hl1 & Hs1); [by eapply vmok_perm|].
  assert (Hh : has s.(kmem_mem) pgdir (PDX a) = true).
  { unfold e, lookup_pte in Hp. by destruct (has _ _ _). }
  assert (Hsd1 : same_dir s.(kmem_mem) s1.(kmem_mem) pgdir).
  { apply same_page_dir, Hs1; [apply V|]. intros ->. apply (vm_dir_sep _ _ _ _ V), elem_of_app. left. rewrite HD'. by left. }
  assert (Htab : has s1.(kmem_mem) pgdir (PDX a) = true /\
                 tab s1.(kmem_mem) pgdir (PDX a) = tab s.(kmem_mem) pgdir (PDX a)).
  { unfold has, tab. rewrite Hsd1 by apply PDX_range. done. }
  destruct Htab as [Hh1 Ht1].
  destruct (vmok_set_pte s1 (d :: l) pgdir D' (PDX a) (PTX a) 0 V1 (PDX_range a) Hh1 (PTX_range a))
    as (V2 & Hl2 & Hs2 & Hd2); [done|]. rewrite Ht1 in *.
  assert (Hlk : forall va, is_u32 va -> lookup_pte (store32 s1.(kmem_mem)
             (tab s.(kmem_mem) pgdir (PDX a) + 4 * PTX a) 0) pgdir va =
             if decide (va / 4096 = a / 4096) then 0 else lookup_pte s.(kmem_mem) pgdir va).
  { intros va Hva. rewrite Hl2, Hl1. pose proof (same_slot va a Hva Hau).
    destruct (decide (PDX va = PDX a /\ PTX va = PTX a)), (decide (va / 4096 = a / 4096)); tauto. }
  eexists s1, _, D'. split; [done|]. split; [done|]. split; [reflexivity|]. split; [exact V2|].
  cbn [set_mem kmem_mem]. split; [|split; [|split]].
  4: { by apply (same_dir_trans _ s1.(kmem_mem)); [|apply same_page_dir]. }
  - split; unfold frame_of in *.
    + intros va Hva. rewrite Hlk by (unfold is_u32, KERNBASE in *; lia).
      destruct (decide (va / 4096 = a / 4096)) as [|Hne]; [done|]. intros Hpv.
      pose proof (um_in _ _ _ U va Hva Hpv) as Hin. rewrite HD' in Hin.
      apply elem_of_cons in Hin as [Hin|Hin]; [|done].
      destruct Hne. apply (um_inj _ _ _ U); try done. exact (eq_trans Hin (eq_sym Hfr)).
    + intros va vb Hva Hvb. rewrite !Hlk by (unfold is_u32, KERNBASE in *; lia).
      destruct (decide (va / 4096 = a / 4096)), (decide (vb / 4096 = a / 4096)); try done.
      by apply (um_inj _ _ _ U).
  - intros va Hva. rewrite Hlk by done.
    destruct (decide (va / 4096 = a / 4096)) as [E|E].
    + rewrite decide_True; [done|]. Z.to_euclidean_division_equations. lia.
    + rewrite decide_False; [done|]. Z.to_euclidean_division_equations. lia.
  - intros q Hq. assert (Hqo : page_ok q) by (eapply Forall_forall; [apply V1|done]).
    intros x Hx. rewrite <- (Hs1 q Hqo) by (try done; intros ->;
      pose proof (vm_nodup _ _ _ _ V) as Hn; rewrite HD' in Hn; apply NoDup_cons in Hn as [Hn _];
      apply Hn, elem_of_app; by left).
    apply (Hs2 q Hqo); [|done]. intros ->. rewrite <- Ht1 in Hq.
    destruct (vm_tab _ _ _ _ V1 _ (PDX_range a) Hh1) as (_ & _ & Hn). apply Hn, elem_of_app. by left.
Qed.

Lemma unmapped_trans m m1 m2 pgdir a b c :
  a <= b <= c -> unmapped m m1 pgdir a b -> unmapped m1 m2 pgdir b c -> unmapped m m2 pgdir a c.
Proof.
  intros Hab H1 H2 va Hva. specialize (H1 va Hva). specialize (H2 va Hva).
  destruct (decide (a <= va / 4096 * 4096 < b)), (decide (b <= va / 4096 * 4096 < c)),
    (decide (a <= va / 4096 * 4096 < c)); try lia; congruence.
Qed.

Lemma unmapped_skip m m' pgdir a b c :
  a <= b -> (forall va, is_u32 va -> a <= va / 4096 * 4096 < b -> present (lookup_pte m pgdir va) = false) ->
  unmapped m m' pgdir b c -> unmapped m m' pgdir a c.
Proof.
  intros Hab H1 H2 va Hva. specialize (H1 va Hva). specialize (H2 va Hva).
  destruct (decide (b <= va / 4096 * 4096 < c)), (decide (a <= va / 4096 * 4096 < c)); try lia; try done.
  rewrite H2. apply H1. lia.
Qed.

(** [d] backs a page mapped between [a] and [b]. *)
Definition frames_in (m : mem) (pgdir a b d : Z) : Prop :=
  exists va, is_u32 va /\ a <= va / 4096 * 4096 < b /\
    present (lookup_pte m pgdir va) = true /\ frame_of m pgdir va = d.

Lemma frames_in_skip m pgdir a b c d :
  a <= b -> (forall va, is_u32 va -> a <= va / 4096 * 4096 < b -> present (lookup_pte m pgdir va) = false) ->
  frames_in m pgdir b c d <-> frames_in m pgdir a c d.
Proof.
  intros Hab Hno. split; intros (va & Hva & Hr & Hp & Hf); exists va; split_and!; try done; try lia.
  destruct (Z.le_gt_cases b (va / 4096 * 4096)); [done|]. rewrite Hno in Hp by (done || lia). done.
Qed.

Lemma frames_in_step m m2 pgdir a c d :
  is_u32 a -> a mod 4096 = 0 -> a < c -> unmapped m m2 pgdir a (a + 4096) ->
  present (lookup_pte m pgdir a) = true ->
  frames_in m pgdir a c d <-> d = frame_of m pgdir a \/ frames_in m2 pgdir (a + 4096) c d.
Proof.
  intros Ha Haa Hc Hu Hpa. split.
  - intros (va & Hva & Hr & Hp & <-). destruct (Z.le_gt_cases (a + 4096) (va / 4096 * 4096)).
    + right. exists va. specialize (Hu va Hva). rewrite decide_False in Hu by lia.
      unfold frame_of. rewrite Hu. split_and!; try done; lia.
    + left. assert (E : va / 4096 = a / 4096) by (Z.to_euclidean_division_equations; lia).
      apply same_slot in E as [E1 E2]; [|done..]. unfold frame_of, lookup_pte. by rewrite E1, E2.
  - intros [->|(va & Hva & Hr & Hp & <-)].
    + exists a. split_and!; try done; Z.to_euclidean_division_equations; lia.
    + specialize (Hu va Hva). rewrite decide_False in Hu by lia. exists va. unfold frame_of.
      rewrite <- Hu. split_and!; try done; lia.
Qed.

(** What [deallocuvm]'s loop has done from [a] up to [b]: the frames mapped
    there, and no others, are back on the free list. *)
Definition cleared (s : kmem) (l D : list Z) (pgdir a b : Z) (s' : kmem) : Prop :=
  exists f D', vmok s' (f ++ l) pgdir D' /\ umok s'.(kmem_mem) pgdir D' /\ f ++ D' ≡ₚ D /\
    unmapped s.(kmem_mem) s'.(kmem_mem) pgdir a b /\
    (forall d, d ∈ f <-> frames_in s.(kmem_mem) pgdir a b d) /\
    (forall q, q ∈ D' -> same_page s.(kmem_mem) s'.(kmem_mem) q) /\ same_dir s.(kmem_mem) s'.(kmem_mem) pgdir.

Lemma cleared_done s l D pgdir a b :
  vmok s l pgdir D -> umok s.(kmem_mem) pgdir D -> b <= a -> cleared s l D pgdir a b s.
Proof.
  intros V U Hab. exists [], D. split_and!; try done.
  - intros va Hva. by rewrite decide_False by lia.
  - intros d. split; [by intros ?%elem_of_nil|]. intros (va & _ & Hr & _). lia.
Qed.

Lemma cleared_skip s l D pgdir a b c s' :
  a <= b -> (forall va, is_u32 va -> a <= va / 4096 * 4096 < b ->
    present (lookup_pte s.(kmem_mem) pgdir va) = false) ->
  cleared s l D pgdir b c s' -> cleared s l D pgdir a c s'.
Proof.
  intros Hab Hno (f & D' & V & U & HD & Hu & Hf & Hd & Hs). exists f, D'. split_and!; try done.
  - by eapply unmapped_skip.
  - intros d. rewrite Hf. by apply frames_in_skip.
Qed.

Lemma cleared_step s l D D1 pgdir a c s2 s3 :
  is_u32 a -> a mod 4096 = 0 -> a < c -> present (lookup_pte s.(kmem_mem) pgdir a) = true ->
  D ≡ₚ frame_of s.(kmem_mem) pgdir a :: D1 ->
  unmapped s.(kmem_mem) s2.(kmem_mem) pgdir a (a + 4096) ->
  (forall q, q ∈ D1 -> same_page s.(kmem_mem) s2.(kmem_mem) q) -> same_dir s.(kmem_mem) s2.(kmem_mem) pgdir ->
  cleared s2 (frame_of s.(kmem_mem) pgdir a :: l) D1 pgdir (a + 4096) c s3 -> cleared s l D pgdir a c s3.
Proof.
  intros Ha Haa Hac Hp HD Hu Hd Hs (f & D3 & V3 & U3 & HD3 & Hu3 & Hf3 & Hd3 & Hs3).
  set (d := frame_of _ _ _) in *. exists (f ++ [d]), D3. split; [by rewrite <- app_assoc|]. split; [done|].
  split; [|split; [|split; [|split]]].
  5: { by apply (same_dir_trans _ s2.(kmem_mem)). }
  - rewrite HD, <- HD3, <- app_assoc. simpl. symmetry. apply Permutation_middle.
  - intros va Hva. specialize (Hu va Hva). specialize (Hu3 va Hva).
    destruct (decide (a <= va / 4096 * 4096 < a + 4096)),
      (decide (a + 4096 <= va / 4096 * 4096 < c)),
      (decide (a <= va / 4096 * 4096 < c)); try lia; try congruence.
    Z.to_euclidean_division_equations. lia.
  - intros d'. rewrite elem_of_app, Hf3, list_elem_of_singleton.
    rewrite (frames_in_step _ s2.(kmem_mem) _ a c d') by done. fold d. tauto.
  - intros q Hq x Hx. rewrite (Hd3 q Hq x Hx). apply (Hd q); [|done]. rewrite <- HD3. apply elem_of_app. by right.
Qed.

(** The two jumps of the loop: over one unmapped page, and over a page table
    that is not there. *)
Lemma unmapped_page m pgdir a : is_u32 a -> a mod 4096 = 0 ->
  present (lookup_pte m pgdir a) = false ->
  forall va, is_u32 va -> a <= va / 4096 * 4096 < a + 4096 -> present (lookup_pte m pgdir va) = false.
Proof.
  intros Ha Haa Hp va Hva Hr. replace (lookup_pte m pgdir va) with (lookup_pte m pgdir a); [done|].
  assert (E : a / 4096 = va / 4096) by (Z.to_euclidean_division_equations; lia).
  apply same_slot in E as [E1 E2]; [|done..]. unfold lookup_pte. by rewrite E1, E2.
Qed.

Lemma unmapped_table m pgdir a : is_u32 a -> a mod 4096 = 0 -> has m pgdir (PDX a) = false ->
  forall va, is_u32 va -> a <= va / 4096 * 4096 < (a / 4194304 + 1) * 4194304 ->
  present (lookup_pte m pgdir va) = false.
Proof.
  intros Ha Haa Hh va Hva Hr. unfold lookup_pte.
  replace (PDX va) with (PDX a); [by rewrite Hh|]. rewrite !PDX_val by done.
  Z.to_euclidean_division_equations. lia.
Qed.

Lemma next_table a : 0 <= a < KERNBASE ->
  u32 (u32 (PGADDR (PDX a + 1) 0 0 - PGSIZE) + PGSIZE) = (a / 4194304 + 1) * 4194304.
Proof.
  intros Ha. assert (EK : KERNBASE = 2147483648) by done.
  assert (Hpg : PGADDR (PDX a + 1) 0 0 = (a / 4194304 + 1) * 4194304).
  { unfold PGADDR. rewrite PDX_val, Z.shiftl_0_l, !Z.lor_0_r, Z.shiftl_mul_pow2 by (unfold is_u32; done || lia).
    change (2 ^ 22) with 4194304. apply u32_small. unfold is_u32. change (2 ^ 32) with 4294967296.
    Z.to_euclidean_division_equations. lia. }
  rewrite Hpg. unfold PGSIZE. rewrite (u32_small (_ - 4096)), Z.sub_add; [apply u32_small|];
    unfold is_u32; Z.to_euclidean_division_equations; lia.
Qed.

Lemma deallocuvm_loop_run fuel pgdir a oldsz s l D :
  vmok s l pgdir D -> umok s.(kmem_mem) pgdir D -> 0 <= a <= KERNBASE -> a mod 4096 = 0 ->
  oldsz <= KERNBASE -> (0 < fuel)%nat -> (oldsz - a + 4095) / 4096 < Z.of_nat fuel ->
  exists s', deallocuvm_loop kend fuel pgdir a oldsz s = Ok (tt, s') /\ cleared s l D pgdir a oldsz s'.
Proof.
  intros V U Ha Haa Ho Hpos. revert a s l D V U Ha Haa.
  induction fuel as [|fuel IH]; intros a s l D V U Ha Haa Hf; [lia|]. cbn [deallocuvm_loop].
  assert (EK : KERNBASE = 2147483648) by done.
  destruct (Z.ltb_spec a oldsz) as [Hlt|Hge]; [|exists s; split; [done|by apply cleared_done]].
  assert (Hau : is_u32 a) by (unfold is_u32; lia).
  specialize (IH ltac:(Z.to_euclidean_division_equations; lia)).
  rewrite (kM_bind_run _ _ _ _ _ (walk_run pgdir a s)).
  destruct (has s.(kmem_mem) pgdir (PDX a)) eqn:Hh.
  - pose proof (pte_addr_nonzero s l pgdir D a V Hh) as Hnz.
    destruct (Z.eqb_spec (tab s.(kmem_mem) pgdir (PDX a) + 4 * PTX a) 0) as [|_]; [done|].
    unfold ld at 1. erewrite kM_bind_run by reflexivity.
    assert (Hlk : load32 s.(kmem_mem) (tab s.(kmem_mem) pgdir (PDX a) + 4 * PTX a)
                  = lookup_pte s.(kmem_mem) pgdir a) by (unfold lookup_pte; by rewrite Hh).
    rewrite Hlk. rewrite u32_small by (unfold is_u32, PGSIZE; lia). unfold PGSIZE.
    destruct (present (lookup_pte s.(kmem_mem) pgdir a)) eqn:Hp.
    + destruct (unmap_one pgdir a s l D V U) as (Hn0 & s1 & s2 & D1 & HD & Hk & Hst & V2 & U2 & Hu & Hd & Hs);
        [lia|done|done|].
      destruct (Z.eqb_spec (PTE_ADDR (lookup_pte s.(kmem_mem) pgdir a)) 0) as [|_]; [done|].
      rewrite (kM_bind_run _ _ _ _ _ Hk), (kM_bind_run _ _ _ _ _ Hst).
      destruct (IH (a + 4096) s2 _ D1 V2 U2) as (s3 & Hrun & H3);
        try lia; try (Z.to_euclidean_division_equations; lia).
      exists s3. split; [done|]. by eapply cleared_step.
    + destruct (IH (a + 4096) s l D V U) as (s3 & Hrun & H3);
        try lia; try (Z.to_euclidean_division_equations; lia).
      exists s3. split; [done|]. eapply cleared_skip; [|by apply unmapped_page|exact H3]. lia.
  - simpl. rewrite next_table by lia.
    destruct (IH ((a / 4194304 + 1) * 4194304) s l D V U) as (s3 & Hrun & H3);
      try lia; try (Z.to_euclidean_division_equations; lia).
    exists s3. split; [done|]. eapply cleared_skip; [|by apply unmapped_table|exact H3].
    Z.to_euclidean_division_equations. lia.
Qed.

Lemma deallocuvm_run pgdir oldsz newsz s l D :
  vmok s l pgdir D -> umok s.(kmem_mem) pgdir D -> 0 <= newsz -> newsz < oldsz <= KERNBASE ->
  exists s' f D', deallocuvm kend pgdir oldsz newsz s = Ok (newsz, s') /\
    vmok s' (f ++ l) pgdir D' /\ umok s'.(kmem_mem) pgdir D' /\ f ++ D' ≡ₚ D /\
    unmapped s.(kmem_mem) s'.(kmem_mem) pgdir (PGROUNDUP newsz) oldsz /\
    (forall d, d ∈ f <-> frames_in s.(kmem_mem) pgdir (PGROUNDUP newsz) oldsz d) /\
    (forall q, q ∈ D' -> same_page s.(kmem_mem) s'.(kmem_mem) q) /\ same_dir s.(kmem_mem) s'.(kmem_mem) pgdir.
Proof.
  intros V U Hn Ho. assert (EK : KERNBASE = 2147483648) by done. unfold deallocuvm.
  destruct (Z.leb_spec oldsz newsz); [lia|]. rewrite PGROUNDUP_val by lia.
  destruct (deallocuvm_loop_run
    (S (Z.to_nat ((oldsz - (newsz + 4095) / 4096 * 4096 + PGSIZE - 1) / PGSIZE)))
    pgdir ((newsz + 4095) / 4096 * 4096) oldsz s l D V U) as (s' & Hrun & f & D' & Hrest).
  - Z.to_euclidean_division_equations. lia.
  - apply Z_mod_mult.
  - lia.
  - lia.
  - unfold PGSIZE. Z.to_euclidean_division_equations. lia.
  - exists s', f, D'. split; [|done]. by rewrite (kM_bind_run _ _ _ _ _ Hrun).
Qed.

(** *** allocuvm *)

(** [v] is a page of zeroes. *)
Definition zero_page (m : mem) (v : Z) : Prop := forall x, v <= x < v + 4096 -> m x = 0.

(** Mapping the data page [v] at the unmapped user page [a]. *)
Lemma map_user pgdir a v flags s l D :
  vmok s l pgdir (v :: D) -> umok s.(kmem_mem) pgdir D -> 0 <= a < KERNBASE -> a mod 4096 = 0 ->
  0 <= flags < 4096 -> present (lookup_pte s.(kmem_mem) pgdir a) = false ->
  exists r s' l', mappages pgdir a PGSIZE (V2P v) flags s = Ok (r, s') /\
    vmok s' l' pgdir (v :: D) /\ (exists u, l = u ++ l' /\ tables_add s.(kmem_mem) s'.(kmem_mem) pgdir u) /\
    (forall q, q ∈ v :: D -> same_page s.(kmem_mem) s'.(kmem_mem) q) /\
    (r = 0 /\ umok s'.(kmem_mem) pgdir (v :: D) /\
       (forall va, is_u32 va -> lookup_pte s'.(kmem_mem) pgdir va =
          if decide (va / 4096 = a / 4096) then Z.lor (Z.lor (V2P v) flags) PTE_P
          else lookup_pte s.(kmem_mem) pgdir va) \/
     r = -1 /\ l' = [] /\
       (forall va, is_u32 va -> lookup_pte s'.(kmem_mem) pgdir va = lookup_pte s.(kmem_mem) pgdir va)).
Proof.
  intros V U Ha Haa Hfl Hno. assert (EK : KERNBASE = 2147483648) by done.
  assert (Hv : page_ok v) by (eapply Forall_inv; apply V).
  destruct (page_ok_phys v Hv) as (Hvu & Hva & Hvp). assert (EP : PHYSTOP = 234881024) by done.
  assert (En : (a + 4096 - 1) / 4096 - a / 4096 + 1 = 1) by (Z.to_euclidean_division_equations; lia).
  assert (Ea : a / 4096 * 4096 = a) by (Z.to_euclidean_division_equations; lia).
  destruct (mappages_run pgdir a PGSIZE (V2P v) flags s l (v :: D)) as
    (r & s' & l' & k & Hrun & V' & Hu & Hd & Hm & Hr); unfold PGSIZE in *;
    rewrite ?En, ?Ea in *; try lia; try done; try (unfold is_u32 in Hvu; lia).
  { intros x Hx. assert (E : x / 4096 = a / 4096) by (Z.to_euclidean_division_equations; lia).
    apply same_slot in E as [E1 E2]; [|unfold is_u32; lia..].
    unfold lookup_pte in *. by rewrite E1, E2. }
  exists r, s', l'. split; [done|]. split; [done|]. split; [done|]. split; [done|].
  destruct Hr as [[-> ->]|(-> & -> & Hk)]; [left|right].
  - split; [done|].
    assert (Hlk : forall va, is_u32 va -> lookup_pte s'.(kmem_mem) pgdir va =
          if decide (va / 4096 = a / 4096) then Z.lor (Z.lor (V2P v) flags) PTE_P
          else lookup_pte s.(kmem_mem) pgdir va).
    { intros va Hva'. rewrite (Hm va Hva').
      destruct (decide (a <= va < a + 4096 * 1)), (decide (va / 4096 = a / 4096)); try done;
        try (exfalso; Z.to_euclidean_division_equations; lia).
      do 2 f_equal. Z.to_euclidean_division_equations. lia. }
    split; [|done].
    assert (Hfv : P2V (PTE_ADDR (Z.lor (Z.lor (V2P v) flags) PTE_P)) = v).
    { rewrite PTE_ADDR_mk by done. by apply page_ok_P2V. }
    assert (Hnin : v ∉ D).
    { pose proof (vm_nodup _ _ _ _ V) as Hn. apply NoDup_cons in Hn as [Hn _].
      intros Hin. apply Hn, elem_of_app. by left. }
    split; unfold frame_of.
    + intros va Hr. rewrite Hlk by (unfold is_u32; lia).
      destruct (decide (va / 4096 = a / 4096)); intros Hp; [rewrite Hfv; by left|].
      right. by apply (um_in _ _ _ U).
    + intros va vb Hr Hr'. rewrite !Hlk by (unfold is_u32; lia).
      destruct (decide (va / 4096 = a / 4096)), (decide (vb / 4096 = a / 4096)); rewrite ?Hfv; intros H1 H2 E.
      * congruence.
      * destruct Hnin. rewrite E. by apply (um_in _ _ _ U).
      * destruct Hnin. rewrite <- E. by apply (um_in _ _ _ U).
      * by apply (um_inj _ _ _ U).
  - split; [done|]. split; [done|]. intros va Hva'. rewrite (Hm va Hva'). rewrite decide_False by lia. done.
Qed.

(** Between [a0] and [a] the user pages are new: writable, zeroed, backed by
    the pages of [New]; everything else is as in [m0]. *)
Record grown (m0 m : mem) (pgdir a0 a : Z) (New D : list Z) : Prop := {
  gr_new : forall va, is_u32 va -> a0 <= va / 4096 * 4096 < a ->
    exists v, v ∈ New /\ lookup_pte m pgdir va = Z.lor (Z.lor (V2P v) (Z.lor PTE_W PTE_U)) PTE_P;
  gr_old : forall va, is_u32 va -> ~ (a0 <= va / 4096 * 4096 < a) ->
    lookup_pte m pgdir va = lookup_pte m0 pgdir va;
  gr_zero : forall v, v ∈ New -> zero_page m v;
  gr_used : forall v, v ∈ New -> frames_in m pgdir a0 a v;
  gr_data : forall q, q ∈ D -> same_page m0 m q
}.

(** Writing elsewhere keeps it. *)
Lemma grown_ext m0 m m' pgdir a0 a New D :
  (forall va, is_u32 va -> lookup_pte m' pgdir va = lookup_pte m pgdir va) ->
  (forall q, q ∈ New ++ D -> same_page m m' q) ->
  grown m0 m pgdir a0 a New D -> grown m0 m' pgdir a0 a New D.
Proof.
  intros Hlk Hs [Ga Gb Gc Gd Ge]. split.
  - intros va Hva Hr. rewrite Hlk by done. by apply Ga.
  - intros va Hva Hr. rewrite Hlk by done. by apply Gb.
  - intros w Hw x Hx. rewrite (Hs w) by (try done; apply elem_of_app; by left). by apply (Gc w).
  - intros w Hw. destruct (Gd w Hw) as (va & Hva & ? & ? & ?). exists va. unfold frame_of. by rewrite Hlk.
  - intros q Hq x Hx. rewrite (Hs q) by (try done; apply elem_of_app; by right). exact (Ge q Hq x Hx).
Qed.

(** Past the end nothing is left to map. *)
Lemma grown_end m0 m pgdir a0 a b New D :
  a mod 4096 = 0 -> b <= a < b + 4096 -> grown m0 m pgdir a0 a New D -> grown m0 m pgdir a0 b New D.
Proof.
  intros Haa Hab [G1 G2 G3 G4 G5]. split; try done.
  - intros va Hva Hr. apply G1; [done|]. lia.
  - intros va Hva Hr. apply G2; [done|]. Z.to_euclidean_division_equations. lia.
  - intros v Hv. destruct (G4 v Hv) as (va & ? & ? & ? & ?). exists va. split_and!; try done; try lia.
    Z.to_euclidean_division_equations. lia.
Qed.

(** Every page is mapped in [m'] as it is in [m]. *)
Definition same_map (m m' : mem) (pgdir : Z) : Prop :=
  forall va, is_u32 va ->
    present (lookup_pte m' pgdir va) = true \/ present (lookup_pte m pgdir va) = true ->
    lookup_pte m' pgdir va = lookup_pte m pgdir va.

Lemma user_entry v : page_ok v ->
  P2V (PTE_ADDR (Z.lor (Z.lor (V2P v) (Z.lor PTE_W PTE_U)) PTE_P)) = v /\
  present (Z.lor (Z.lor (V2P v) (Z.lor PTE_W PTE_U)) PTE_P) = true.
Proof.
  intros Hv. destruct (page_ok_phys v Hv) as (Hu & Ha & _). split; [|by apply present_mk].
  rewrite PTE_ADDR_mk; [by apply page_ok_P2V|done|done|vm_compute; split; congruence].
Qed.

Lemma umok_more m pgdir D E : umok m pgdir D -> umok m pgdir (E ++ D).
Proof.
  intros [U1 U2]. split; [|done]. intros va Hva Hp. apply elem_of_app. right. by apply U1.
Qed.

(** Undoing a partial [allocuvm]: [E] is a page taken but not yet mapped. *)
Lemma alloc_undo pgdir a oldsz newsz s l m0 New D E :
  vmok s l pgdir (E ++ New ++ D) -> umok s.(kmem_mem) pgdir (New ++ D) ->
  0 <= oldsz < newsz -> newsz <= KERNBASE -> a <= newsz ->
  grown m0 s.(kmem_mem) pgdir (PGROUNDUP oldsz) a New D ->
  (forall va, is_u32 va -> PGROUNDUP oldsz <= va / 4096 * 4096 < newsz ->
     present (lookup_pte m0 pgdir va) = false) ->
  exists s' l', deallocuvm kend pgdir newsz oldsz s = Ok (oldsz, s') /\ l' ≡ₚ New ++ l /\
    vmok s' l' pgdir (E ++ D) /\ umok s'.(kmem_mem) pgdir D /\
    same_map m0 s'.(kmem_mem) pgdir /\
    (forall q, q ∈ D -> same_page m0 s'.(kmem_mem) q) /\ same_dir s.(kmem_mem) s'.(kmem_mem) pgdir.
Proof.
  intros V U Ho Hn Ha G Hno.
  destruct (deallocuvm_run pgdir newsz oldsz s l (E ++ New ++ D) V (umok_more _ _ _ _ U))
    as (s' & f & D' & Hrun & V' & U' & HD' & Hu & Hf & Hd & Hs); [lia|lia|].
  assert (Hpg : forall v, v ∈ New -> page_ok v).
  { intros v Hv. eapply Forall_forall; [apply V|]. rewrite !elem_of_app. auto. }
  assert (Hnd : NoDup (E ++ New ++ D)).
  { pose proof (vm_nodup _ _ _ _ V) as H0. by apply NoDup_app in H0 as [? _]. }
  assert (HfN : f ≡ₚ New).
  { apply NoDup_Permutation.
    - rewrite <- HD' in Hnd. by apply NoDup_app in Hnd as [? _].
    - apply NoDup_app in Hnd as (_ & _ & Hnd). by apply NoDup_app in Hnd as [? _].
    - intros d. rewrite Hf. split.
      + intros (va & Hva & Hr & Hp & <-). destruct (Z.le_gt_cases a (va / 4096 * 4096)).
        * rewrite (gr_old _ _ _ _ _ _ _ G) in Hp by (done || lia). rewrite Hno in Hp by done. done.
        * destruct (gr_new _ _ _ _ _ _ _ G va Hva) as (v & Hv & Hlk); [lia|]. unfold frame_of.
          rewrite Hlk. destruct (user_entry v (Hpg v Hv)) as [-> _]. done.
      + intros Hv. destruct (gr_used _ _ _ _ _ _ _ G d Hv) as (va & Hva & Hr & Hp & Hfr).
        exists va. split_and!; try done; lia. }
  assert (HD : D' ≡ₚ E ++ D).
  { apply (Permutation_app_inv_l f). rewrite HD', HfN, !app_assoc. apply Permutation_app_tail, Permutation_app_comm. }
  assert (Hdn : forall q, q ∈ D -> q ∈ D') by (intros q Hq; rewrite HD; apply elem_of_app; by right).
  exists s', (f ++ l). split; [done|]. split; [by rewrite HfN|].
  split; [by eapply vmok_perm|]. split_and!; [| | |exact Hs].
  - split; [|apply U']. intros va Hr Hp. pose proof (um_in _ _ _ U' va Hr Hp) as Hin.
    assert (Hru : is_u32 va) by (unfold is_u32, KERNBASE in *; lia).
    rewrite HD, elem_of_app in Hin. destruct Hin as [Hin|Hin]; [|done]. exfalso.
    unfold frame_of in Hin. rewrite (unmapped_present _ _ _ _ _ va Hu Hru Hp) in Hin.
    rewrite (unmapped_present _ _ _ _ _ va Hu Hru Hp) in Hp.
    pose proof (um_in _ _ _ U va Hr Hp) as Hin'. apply NoDup_app in Hnd as (_ & Hdis & _).
    by apply (Hdis _ Hin).
  - intros va Hva [Hp|Hp].
    { rewrite (unmapped_present _ _ _ _ _ va Hu Hva Hp).
      destruct (decide (PGROUNDUP oldsz <= va / 4096 * 4096 < newsz)) as [Hr|Hr].
      - specialize (Hu va Hva). rewrite decide_True in Hu by done. congruence.
      - apply (gr_old _ _ _ _ _ _ _ G); [done|lia]. }
    destruct (decide (PGROUNDUP oldsz <= va / 4096 * 4096 < newsz)) as [Hr|Hr].
    + rewrite Hno in Hp by done. done.
    + specialize (Hu va Hva). rewrite decide_False in Hu by done. rewrite Hu.
      apply (gr_old _ _ _ _ _ _ _ G); [done|lia].
  - intros q Hq x Hx. rewrite (Hd q (Hdn q Hq) x Hx). exact (gr_data _ _ _ _ _ _ _ G q Hq x Hx).
Qed.

(** One more page: [grown] extends to [a + 4096]. *)
Lemma grown_step m0 m m' pgdir a0 a New D v :
  (forall q, q ∈ New ++ D -> page_ok q) -> page_ok v ->
  a mod 4096 = 0 -> a0 <= a -> 0 <= a < KERNBASE -> zero_page m v ->
  grown m0 m pgdir a0 a New D ->
  (forall va, is_u32 va -> lookup_pte m' pgdir va =
     if decide (va / 4096 = a / 4096) then Z.lor (Z.lor (V2P v) (Z.lor PTE_W PTE_U)) PTE_P
     else lookup_pte m pgdir va) ->
  (forall q, q ∈ v :: New ++ D -> same_page m m' q) ->
  grown m0 m' pgdir a0 (a + 4096) (v :: New) D.
Proof.
  intros Hpg Hv Haa Ha0 Ha Hz G Hlk Hd. assert (EK : KERNBASE = 2147483648) by done.
  destruct (user_entry v Hv) as [Hfv Hpv]. split.
  - intros va Hva Hr. destruct (decide (va / 4096 = a / 4096)) as [E|E].
    + exists v. split; [by left|]. rewrite Hlk by done. by rewrite decide_True.
    + destruct (gr_new _ _ _ _ _ _ _ G va Hva) as (w & Hw & Hl).
      { Z.to_euclidean_division_equations. lia. }
      exists w. split; [by right|]. rewrite Hlk by done. by rewrite decide_False.
  - intros va Hva Hr. rewrite Hlk by done. rewrite decide_False.
    + apply (gr_old _ _ _ _ _ _ _ G); [done|lia].
    + intros E. Z.to_euclidean_division_equations. lia.
  - intros w Hw x Hx. rewrite (Hd w) by (try done; rewrite app_comm_cons; apply elem_of_app; by left).
    apply elem_of_cons in Hw as [->|Hw]; [by apply Hz|by apply (gr_zero _ _ _ _ _ _ _ G w)].
  - intros w Hw. apply elem_of_cons in Hw as [->|Hw].
    + exists a. assert (is_u32 a) by (unfold is_u32; lia).
      unfold frame_of. rewrite Hlk, decide_True by done. split_and!; try done;
        Z.to_euclidean_division_equations; lia.
    + destruct (gr_used _ _ _ _ _ _ _ G w Hw) as (va & Hva & Hr & Hp & Hf). exists va.
      unfold frame_of. rewrite Hlk, decide_False by (try done; intros E; Z.to_euclidean_division_equations; lia).
      split_and!; try done; lia.
  - intros q Hq x Hx. rewrite (Hd q) by (try done; right; apply elem_of_app; by right).
    exact (gr_data _ _ _ _ _ _ _ G q Hq x Hx).
Qed.

Section Grow.
Context (pgdir oldsz newsz : Z) (m0 : mem) (D l0 : list Z).
Hypothesis (Ho : 0 <= oldsz <= newsz) (Hn : newsz < KERNBASE).
Hypothesis Hno : forall va, is_u32 va -> PGROUNDUP oldsz <= va / 4096 * 4096 < newsz ->
  present (lookup_pte m0 pgdir va) = false.

(** How [allocuvm] can end: [l'] is the free list then, and [tabs] are the
    page tables that the directory has and had not before. *)
Definition alloc_post (r : Z) (s' : kmem) : Prop :=
  exists l' tabs, tables_add m0 s'.(kmem_mem) pgdir tabs /\
    ((r = newsz /\ exists New, vmok s' l' pgdir (New ++ D) /\ umok s'.(kmem_mem) pgdir (New ++ D) /\
       grown m0 s'.(kmem_mem) pgdir (PGROUNDUP oldsz) newsz New D /\ l0 ≡ₚ tabs ++ New ++ l') \/
    (r = 0 /\ vmok s' l' pgdir D /\ umok s'.(kmem_mem) pgdir D /\ same_map m0 s'.(kmem_mem) pgdir /\
       (forall q, q ∈ D -> same_page m0 s'.(kmem_mem) q) /\ l0 ≡ₚ tabs ++ l')).

Lemma allocuvm_loop_run fuel a s l New tabs :
  vmok s l pgdir (New ++ D) -> umok s.(kmem_mem) pgdir (New ++ D) ->
  a mod 4096 = 0 -> PGROUNDUP oldsz <= a < newsz + 4096 -> 0 <= a -> (0 < fuel)%nat ->
  (newsz - a + 4095) / 4096 < Z.of_nat fuel ->
  grown m0 s.(kmem_mem) pgdir (PGROUNDUP oldsz) a New D -> l0 ≡ₚ tabs ++ New ++ l ->
  tables_add m0 s.(kmem_mem) pgdir tabs ->
  exists r s', allocuvm_loop kend fuel pgdir a oldsz newsz s = Ok (r, s') /\ alloc_post r s'.
Proof.
  assert (EK : KERNBASE = 2147483648) by done.
  revert a s l New tabs. induction fuel as [|fuel IH]; intros a s l New tabs V U Haa Ha Ha0 Hpos Hf G Hl Ht; [lia|].
  cbn [allocuvm_loop]. destruct (Z.ltb_spec a newsz) as [Hlt|Hge].
  2: { exists newsz, s. split; [done|]. exists l, tabs. split; [done|]. left. split; [done|]. exists New. split_and!; try done.
       eapply grown_end; [exact Haa| |exact G]. lia. }
  assert (Ho' : 0 <= oldsz < newsz).
  { rewrite PGROUNDUP_val in Ha by lia. Z.to_euclidean_division_equations. lia. }
  pose proof (vmok_kalloc s l pgdir (New ++ D) V) as Hk. destruct l as [|v l].
  { rewrite (kM_bind_run _ _ _ _ _ Hk). simpl.
    destruct (alloc_undo pgdir a oldsz newsz s [] m0 New D []) as (s' & l' & Hrun & Hl' & V' & U' & Hm & Hd & Hs);
      try done; try lia.
    rewrite (kM_bind_run _ _ _ _ _ Hrun). exists 0, s'. split; [done|]. exists l', tabs.
    split; [by apply (tables_after _ s.(kmem_mem))|]. right. split_and!; try done. by rewrite Hl', Hl. }
  destruct Hk as (Hv0 & s1 & Hk & Hm1 & V1). rewrite (kM_bind_run _ _ _ _ _ Hk).
  destruct (Z.eqb_spec v 0) as [|_]; [done|].
  set (m2 := memset s1.(kmem_mem) v 0 PGSIZE).
  assert (Hout : forall x, ~ (v <= x < v + 4096) -> m2 x = s1.(kmem_mem) x).
  { intros x Hx. unfold m2. rewrite memset_at. unfold PGSIZE. case_bools; lia || done. }
  destruct (vmok_write s1 l pgdir (v :: New ++ D) v m2 V1) as [V2 Hl2]; [by left|apply memset_bytes, V1|done|].
  unfold fill. erewrite kM_bind_run by reflexivity. fold m2.
  assert (Hvo : page_ok v) by (eapply Forall_inv; apply V1).
  assert (Hpg : forall q, q ∈ New ++ D -> page_ok q) by (intros q Hq; eapply Forall_forall; [apply V|done]).
  assert (Hvn : v ∉ New ++ D).
  { pose proof (vm_nodup _ _ _ _ V1) as Hnd. apply NoDup_cons in Hnd as [Hnd _]. intros Hin.
    apply Hnd, elem_of_app. by left. }
  assert (G2 : grown m0 m2 pgdir (PGROUNDUP oldsz) a New D).
  { eapply grown_ext; [| |exact G].
    - intros va _. by rewrite Hl2, Hm1.
    - intros q Hq x Hx. rewrite <- Hm1. apply Hout.
      destruct (page_ok_apart kend q v (Hpg q Hq) Hvo) as [?|?]; [congruence|lia|lia]. }
  assert (U2 : umok m2 pgdir (New ++ D)) by (eapply umok_ext; [|exact U]; intros va _; by rewrite Hl2, Hm1).
  destruct (map_user pgdir a v (Z.lor PTE_W PTE_U) (set_mem s1 m2) l (New ++ D) V2 U2)
    as (r & s3 & l3 & Hrun & V3 & (u & Hu & Tu) & Hd3 & Hr); [lia|done|vm_compute; split; congruence| |].
  { cbn [set_mem kmem_mem]. rewrite (gr_old _ _ _ _ _ _ _ G2) by (unfold is_u32; Z.to_euclidean_division_equations; lia).
    apply Hno; [unfold is_u32; lia|]. Z.to_euclidean_division_equations. lia. }
  rewrite (kM_bind_run _ _ _ _ _ Hrun). cbn [set_mem kmem_mem] in *.
  assert (T3 : tables_add m0 s3.(kmem_mem) pgdir (tabs ++ u)).
  { apply (tables_trans _ s.(kmem_mem)); [done|]. apply (tables_before _ m2); [|done]. rewrite <- Hm1.
    apply same_page_dir, memset_same_page. eapply dir_apart; [exact V1|by left|done]. }
  destruct Hr as [(-> & U3 & Hlk)|(-> & -> & Hlk)]; simpl.
  - rewrite u32_small by (unfold is_u32, PGSIZE; lia). unfold PGSIZE.
    apply (IH (a + 4096) s3 l3 (v :: New) (tabs ++ u)); try done; try lia;
      try (Z.to_euclidean_division_equations; lia).
    + eapply (grown_step m0 m2); try done; try lia. intros x Hx. unfold m2. rewrite memset_at.
      unfold PGSIZE. case_bools; lia || done.
    + rewrite Hl, Hu. solve_Permutation.
  - assert (U3 : umok s3.(kmem_mem) pgdir (New ++ D)) by (by eapply umok_ext).
    assert (G3 : grown m0 s3.(kmem_mem) pgdir (PGROUNDUP oldsz) a New D).
    { eapply grown_ext; [exact Hlk| |exact G2]. intros q Hq. apply Hd3. by right. }
    destruct (alloc_undo pgdir a oldsz newsz s3 [] m0 New D [v]) as (s' & l' & Hrun' & Hl' & V' & U' & Hm & Hd & Hs);
      try done; try lia.
    rewrite (kM_bind_run _ _ _ _ _ Hrun').
    destruct (vmok_kfree s' l' pgdir D v V') as (s4 & Hk4 & V4 & Hl4 & Hs4).
    rewrite (kM_bind_run _ _ _ _ _ Hk4). exists 0, s4. split; [done|]. exists (v :: l'), (tabs ++ u). split.
    { apply (tables_after _ s3.(kmem_mem)); [done|]. apply (same_dir_trans _ s'.(kmem_mem)); [done|].
      apply same_page_dir, Hs4; [apply V|]. intros ->. apply (vm_dir_sep _ _ _ _ V'). by left. }
    right. split_and!; try done.
    + eapply umok_ext; [|exact U']. intros va _. apply Hl4.
    + intros va Hva. rewrite Hl4. by apply Hm.
    + intros q Hq x Hx. assert (Hqa : q ∈ New ++ D) by (apply elem_of_app; by right).
      rewrite (Hs4 q) by (done || (by apply Hpg) || congruence). exact (Hd q Hq x Hx).
    + rewrite Hl, Hl', Hu. solve_Permutation.
Qed.

End Grow.

Lemma allocuvm_run pgdir oldsz newsz s l D :
  vmok s l pgdir D -> umok s.(kmem_mem) pgdir D -> 0 <= oldsz <= newsz -> newsz < KERNBASE ->
  (forall va, is_u32 va -> PGROUNDUP oldsz <= va / 4096 * 4096 < newsz ->
     present (lookup_pte s.(kmem_mem) pgdir va) = false) ->
  exists r s', allocuvm kend pgdir oldsz newsz s = Ok (r, s') /\
    alloc_post pgdir oldsz newsz s.(kmem_mem) D l r s'.
Proof.
  intros V U Ho Hn Hno. assert (EK : KERNBASE = 2147483648) by done. unfold allocuvm.
  destruct (Z.leb_spec KERNBASE newsz); [lia|]. destruct (Z.ltb_spec newsz oldsz); [lia|].
  assert (Hr : PGROUNDUP oldsz = (oldsz + 4095) / 4096 * 4096) by (apply PGROUNDUP_val; lia).
  eapply (allocuvm_loop_run _ _ _ _ _ _ Ho Hn Hno _ _ s l [] []); try done.
  - rewrite Hr. apply Z_mod_mult.
  - rewrite Hr. Z.to_euclidean_division_equations. lia.
  - rewrite Hr. Z.to_euclidean_division_equations. lia.
  - lia.
  - unfold PGSIZE. Z.to_euclidean_division_equations. lia.
  - split; try done.
    + intros va Hva Hx. lia.
    + by intros v ?%elem_of_nil.
    + by intros v ?%elem_of_nil.
  - by apply tables_same.
Qed.

End Spec.

(** mappages, on an address range with nothing mapped in it: it never
    panics; on success exactly the pages of the range are mapped, to
    consecutive frames with the given permissions, and every other translation
    is unchanged; on failure the free list is empty and only a prefix of the
    range is mapped.  Data pages keep their contents in both cases. *)
Theorem mappages_spec kend pgdir va size pa perm s l D :
  let a := va / 4096 * 4096 in
  let n := (va + size - 1) / 4096 - va / 4096 + 1 in
  KERNLINK <= kend -> vmok kend s l pgdir D -> 0 <= va -> 0 < size -> va + size <= 2 ^ 32 ->
  pa mod 4096 = 0 -> 0 <= pa -> pa + 4096 * (n - 1) < 2 ^ 32 -> 0 <= perm < 4096 ->
  (forall x, a <= x < a + 4096 * n -> present (lookup_pte s.(kmem_mem) pgdir x) = false) ->
  exists r s' l' k, mappages pgdir va size pa perm s = Ok (r, s') /\
    vmok kend s' l' pgdir D /\ (exists u, l = u ++ l' /\ tables_add s.(kmem_mem) s'.(kmem_mem) pgdir u) /\
    (forall d, d ∈ D -> same_page s.(kmem_mem) s'.(kmem_mem) d) /\
    remapped s.(kmem_mem) s'.(kmem_mem) pgdir a k pa perm /\
    (r = 0 /\ k = n \/ r = -1 /\ l' = [] /\ 0 <= k < n).
Proof. intros a n Hk. by apply mappages_run. Qed.

(** deallocuvm, shrinking a process: it never panics and returns the new
    size; nothing stays mapped between the new and the old size and every
    other translation is unchanged; exactly the pages that backed the range
    are put on the free list; the other data pages keep their contents. *)
Theorem deallocuvm_spec kend pgdir oldsz newsz s l D :
  KERNLINK <= kend -> vmok kend s l pgdir D -> umok s.(kmem_mem) pgdir D ->
  0 <= newsz -> newsz < oldsz <= KERNBASE ->
  exists s' f D', deallocuvm kend pgdir oldsz newsz s = Ok (newsz, s') /\
    vmok kend s' (f ++ l) pgdir D' /\ umok s'.(kmem_mem) pgdir D' /\ f ++ D' ≡ₚ D /\
    unmapped s.(kmem_mem) s'.(kmem_mem) pgdir (PGROUNDUP newsz) oldsz /\
    (forall d, d ∈ f <-> frames_in s.(kmem_mem) pgdir (PGROUNDUP newsz) oldsz d) /\
    (forall q, q ∈ D' -> same_page s.(kmem_mem) s'.(kmem_mem) q) /\ same_dir s.(kmem_mem) s'.(kmem_mem) pgdir.
Proof. intros Hk. by apply deallocuvm_run. Qed.

(** C14. allocuvm, growing a process below KERNBASE by pages that are not
    mapped: it never panics.  When it returns the new size, each page of the
    range is mapped user-writable to a zeroed page of its own and all else is
    as before; when it returns 0, every translation and every data page is as
    before.  No page is lost: the pages that have left the free list are the
    new data pages, if it has succeeded, and the page tables that the directory
    has now and had not before, and no others. *)
Theorem allocuvm_spec kend pgdir oldsz newsz s l D :
  KERNLINK <= kend -> vmok kend s l pgdir D -> umok s.(kmem_mem) pgdir D ->
  0 <= oldsz <= newsz -> newsz < KERNBASE ->
  (forall va, is_u32 va -> PGROUNDUP oldsz <= va / 4096 * 4096 < newsz ->
     present (lookup_pte s.(kmem_mem) pgdir va) = false) ->
  exists r s', allocuvm kend pgdir oldsz newsz s = Ok (r, s') /\
    alloc_post kend pgdir oldsz newsz s.(kmem_mem) D l r s'.
Proof. intros Hk. by apply allocuvm_run. Qed.

(** uva2ka uses the pointer from walkpgdir without a null check: for an
    address whose page directory entry is absent it answers according to the
    word at address 0. *)
Theorem uva2ka_unchecked pgdir va s :
  has s.(kmem_mem) pgdir (PDX va) = false ->
  let e := load32 s.(kmem_mem) 0 in
  lookup_pte s.(kmem_mem) pgdir va = 0 /\
  uva2ka pgdir va s =
    Ok (if present e && negb (Z.land e PTE_U =? 0) then P2V (PTE_ADDR e) else 0, s).
Proof.
  intros Hh e. split; [unfold lookup_pte; by rewrite Hh|]. unfold uva2ka.
  rewrite (kM_bind_run _ _ _ _ _ (walk_run pgdir va s)), Hh. unfold ld.
  erewrite kM_bind_run by reflexivity. fold e. destruct (present e); [|done]. simpl.
  by destruct (_ =? 0).
Qed.

Module VmDemo.

(** A zeroed directory and two free pages. *)
Definition kend0 : Z := 2148573184.
Definition dir0 : Z := kend0.
Definition pg1 : Z := kend0 + 4096.
Definition pg2 : Z := kend0 + 8192.
Definition s0 : kmem := mk_kmem (store32 (fun _ => 0) pg1 pg2) true pg1.

Lemma s0_zero x : x < pg1 \/ pg1 + 4 <= x -> s0.(kmem_mem) x = 0.
Proof. intros H. simpl. rewrite store32_frame; [done|lia]. Qed.

Lemma s0_no_table i : 0 <= i < 1024 -> has s0.(kmem_mem) dir0 i = false.
Proof.
  intros Hi. unfold has, pde, load32.
  rewrite !s0_zero by (unfold dir0, pg1, kend0; lia). reflexivity.
Qed.

Lemma s0_unmapped va : present (lookup_pte s0.(kmem_mem) dir0 va) = false.
Proof. unfold lookup_pte. by rewrite s0_no_table by apply PDX_range. Qed.

Lemma pg_nodup : NoDup [pg1; pg2].
Proof. apply (bool_decide_unpack _). vm_compute. exact I. Qed.

Lemma s0_vmok : vmok kend0 s0 [pg1; pg2] dir0 [].
Proof.
  split.
  - split; [|exact pg_nodup].
    assert (H1 : load32 s0.(kmem_mem) pg1 = pg2) by (apply load32_store32_eq; vm_compute; split; congruence).
    assert (H2 : load32 s0.(kmem_mem) pg2 = 0).
    { unfold load32. rewrite !s0_zero by (unfold pg1, pg2, kend0; lia). reflexivity. }
    cbn [chain]. rewrite H1, H2. unfold page_ok. split_and!; try reflexivity; vm_compute; congruence.
  - intros x. simpl. unfold store32. destruct (_ && _); [apply u8_range|split; [reflexivity|reflexivity]].
  - split; [reflexivity|split; [vm_compute; congruence|reflexivity]].
  - intros i Hi Hh. by rewrite s0_no_table in Hh.
  - intros i j Hi Hj Hh. by rewrite s0_no_table in Hh.
  - simpl. intros H. apply elem_of_cons in H as [H|H]; [discriminate H|].
    apply elem_of_cons in H as [H|H]; [discriminate H|by apply elem_of_nil in H].
  - constructor.
  - exact pg_nodup.
Qed.

Lemma s0_umok : umok s0.(kmem_mem) dir0 [].
Proof. split; intros va; intros; by rewrite s0_unmapped in *. Qed.

Lemma mappages_spec_witness :
  exists r s' l' k, mappages dir0 0 4096 4096 6 s0 = Ok (r, s') /\ vmok kend0 s' l' dir0 [] /\
    remapped s0.(kmem_mem) s'.(kmem_mem) dir0 0 k 4096 6.
Proof.
  destruct (mappages_spec kend0 dir0 0 4096 4096 6 s0 [pg1; pg2] []) as (r & s' & l' & k & H1 & H2 & _ & _ & H3 & _);
    [vm_compute; congruence|exact s0_vmok|lia|lia|lia|reflexivity|lia|reflexivity|lia
    |intros; apply s0_unmapped|]. exists r, s', l', k. split; [exact H1|]. split; [exact H2|exact H3].
Defined.

Lemma deallocuvm_spec_witness :
  exists s' (f D' : list Z), deallocuvm kend0 dir0 8192 4096 s0 = Ok (4096, s') /\ f ++ D' ≡ₚ [].
Proof.
  destruct (deallocuvm_spec kend0 dir0 8192 4096 s0 [pg1; pg2] []) as (s' & f & D' & H1 & _ & _ & H2 & _);
    [vm_compute; congruence|exact s0_vmok|exact s0_umok|lia|split; [reflexivity|vm_compute; congruence]|].
  exists s', f, D'. split; [exact H1|exact H2].
Defined.

Lemma allocuvm_spec_witness :
  exists r s', allocuvm kend0 dir0 0 4096 s0 = Ok (r, s') /\
    alloc_post kend0 dir0 0 4096 s0.(kmem_mem) [] [pg1; pg2] r s'.
Proof.
  apply (allocuvm_spec kend0 dir0 0 4096 s0 [pg1; pg2] []);
    [vm_compute; congruence|exact s0_vmok|exact s0_umok|lia|reflexivity|intros; apply s0_unmapped].
Defined.

Lemma uva2ka_unchecked_witness :
  lookup_pte s0.(kmem_mem) dir0 4096 = 0 /\ uva2ka dir0 4096 s0 = Ok (0, s0).
Proof. apply (uva2ka_unchecked dir0 4096 s0). apply s0_no_table. apply PDX_range. Defined.

End VmDemo.
