(* ===== verification/Locks.v ===== *)
(** * Locks (spinlock.c, sleeplock.c)

    The first half models what one call does to a CPU's interrupt state and to
    a lock.  The second half interleaves [acquire] and [release] of any number
    of CPUs on one lock, an instruction that touches the lock at a time, and
    proves mutual exclusion; this is what lets the other files treat a
    critical section as one step. *)

From S2P Require Import Prelude.

(** ** Interrupt nesting *)

(** The part of [struct cpu] that pushcli and popcli use, and the processor's
    interrupt flag. *)
Record icpu := mk_icpu { ncli : Z; intena : bool; eflags_if : bool }.

Definition pushcli (c : icpu) : icpu :=
  let eflags := c.(eflags_if) in
  let intena := if c.(ncli) =? 0 then eflags else c.(intena) in
  mk_icpu (s32 (c.(ncli) + 1)) intena false.

Definition popcli (c : icpu) : outcome icpu :=
  if c.(eflags_if) then Panic "popcli - interruptible"
  else
    let n := s32 (c.(ncli) - 1) in
    if n <? 0 then Panic "popcli"
    else Ok (mk_icpu n c.(intena) ((n =? 0) && c.(intena))).

(** ** One lock *)

Record spinlock := mk_spinlock { locked : bool; lk_cpu : option nat }.

Definition initlock : spinlock := mk_spinlock false None.

Definition holding (me : nat) (lk : spinlock) : bool :=
  lk.(locked) && bool_decide (lk.(lk_cpu) = Some me).

(** [acquire] by a CPU that finds the lock free, and [release]: the lock and
    the CPU's interrupt state.  [None] is a CPU that keeps spinning. *)
Definition acquire (me : nat) (s : spinlock * icpu) : outcome (option (spinlock * icpu)) :=
  let c := pushcli s.2 in
  if holding me s.1 then Panic "acquire"
  else if s.1.(locked) then Ok None
  else Ok (Some (mk_spinlock true (Some me), c)).

Definition release (me : nat) (s : spinlock * icpu) : outcome (spinlock * icpu) :=
  if holding me s.1 then
    match popcli s.2 with
    | Ok c => Ok (mk_spinlock false None, c)
    | Panic msg => Panic msg
    end
  else Panic "release".

(** ** Sleep locks *)

Record sleeplock := mk_sleeplock { sl_locked : bool; sl_pid : Z }.

Definition initsleeplock : sleeplock := mk_sleeplock false 0.

(** [acquiresleep] by process [me]: [None] when it goes to sleep on the lock,
    to look again once woken. *)
Definition acquiresleep (me : Z) (lk : sleeplock) : option sleeplock :=
  if lk.(sl_locked) then None else Some (mk_sleeplock true me).

Definition releasesleep (lk : sleeplock) : sleeplock := mk_sleeplock false 0.

Definition holdingsleep (me : Z) (lk : sleeplock) : bool :=
  lk.(sl_locked) && (lk.(sl_pid) =? me).

(** ** Many CPUs on one lock

    The places a CPU can be: outside, spinning after its holding check, past
    the successful xchg, inside the critical section, and past the store that
    clears [lk->cpu]. *)

Inductive pc := Outside | Spinning | Won | Inside | Leaving.

Record lsys := mk_lsys { the_lock : spinlock; pcs : list pc; intr : list icpu }.

Inductive lstep : lsys -> lsys -> Prop :=
| ls_enter s c i :                        (* pushcli(); if(holding(lk)) panic *)
    s.(pcs) !! c = Some Outside -> s.(intr) !! c = Some i -> holding c s.(the_lock) = false ->
    lstep s (mk_lsys s.(the_lock) (<[c := Spinning]> s.(pcs)) (<[c := pushcli i]> s.(intr)))
| ls_spin s c :                           (* xchg returned 1 *)
    s.(pcs) !! c = Some Spinning -> s.(the_lock).(locked) = true ->
    lstep s s
| ls_win s c :                            (* xchg returned 0 *)
    s.(pcs) !! c = Some Spinning -> s.(the_lock).(locked) = false ->
    lstep s (mk_lsys (mk_spinlock true s.(the_lock).(lk_cpu)) (<[c := Won]> s.(pcs)) s.(intr))
| ls_own s c :                            (* lk->cpu = mycpu() *)
    s.(pcs) !! c = Some Won ->
    lstep s (mk_lsys (mk_spinlock s.(the_lock).(locked) (Some c)) (<[c := Inside]> s.(pcs)) s.(intr))
| ls_clear s c :                          (* release(): lk->cpu = 0 *)
    s.(pcs) !! c = Some Inside -> holding c s.(the_lock) = true ->
    lstep s (mk_lsys (mk_spinlock s.(the_lock).(locked) None) (<[c := Leaving]> s.(pcs)) s.(intr))
| ls_leave s c i i' :                     (* lk->locked = 0; popcli() *)
    s.(pcs) !! c = Some Leaving -> s.(intr) !! c = Some i -> popcli i = Ok i' ->
    lstep s (mk_lsys (mk_spinlock false s.(the_lock).(lk_cpu)) (<[c := Outside]> s.(pcs))
                     (<[c := i']> s.(intr))).

(** [ncpu] CPUs outside, interrupts enabled. *)
Definition lsys0 (ncpu : nat) : lsys :=
  mk_lsys initlock (replicate ncpu Outside) (replicate ncpu (mk_icpu 0 false true)).

Inductive lreach (ncpu : nat) : lsys -> Prop :=
| lr_init : lreach ncpu (lsys0 ncpu)
| lr_step s s' : lreach ncpu s -> lstep s s' -> lreach ncpu s'.

(** A CPU that has the lock. *)
Definition has_lock (p : pc) : bool := match p with Won | Inside | Leaving => true | _ => false end.

(** What a CPU's place says of its interrupt state. *)
Definition intr_ok (p : pc) (i : icpu) : Prop :=
  match p with
  | Outside => i.(ncli) = 0 /\ i.(eflags_if) = true
  | _ => i.(ncli) = 1 /\ i.(eflags_if) = false /\ i.(intena) = true
  end.

Record linv (s : lsys) : Prop := {
  li_held : s.(the_lock).(locked) = true <-> exists c p, s.(pcs) !! c = Some p /\ has_lock p = true;
  li_one : forall c d p q, s.(pcs) !! c = Some p -> s.(pcs) !! d = Some q ->
    has_lock p = true -> has_lock q = true -> c = d;
  li_cpu : forall c, s.(the_lock).(lk_cpu) = Some c <-> s.(pcs) !! c = Some Inside;
  li_intr : Forall2 intr_ok s.(pcs) s.(intr)
}.

Lemma pcs_cases (l : list pc) c p d q :
  <[c := p]> l !! d = Some q -> (d = c /\ q = p) \/ (d <> c /\ l !! d = Some q).
Proof. intros H. apply list_lookup_insert_Some in H as [(-> & -> & _)|[? ?]]; auto. Qed.

Lemma pcs_insert (l : list pc) c p p' : l !! c = Some p -> <[c := p']> l !! c = Some p'.
Proof. intros H. apply list_lookup_insert_eq. by eapply lookup_lt_Some. Qed.

Lemma pushcli_ok p i : intr_ok Outside i -> p <> Outside -> intr_ok p (pushcli i).
Proof.
  intros [H1 H2] Hp. unfold pushcli. rewrite H1, H2. by destruct p.
Qed.

Lemma popcli_ok i i' : intr_ok Leaving i -> popcli i = Ok i' -> intr_ok Outside i'.
Proof.
  intros (H1 & H2 & H3) H. unfold popcli in H. rewrite H1, H2, H3 in H.
  change (s32 (1 - 1)) with 0 in H. simpl in H. by injection H as <-.
Qed.

(** Moving CPU [c] without changing who has the lock. *)
Lemma linv_move s c p p' k i i' :
  linv s -> s.(pcs) !! c = Some p -> s.(intr) !! c = Some i -> intr_ok p' i' ->
  has_lock p' = has_lock p -> k.(locked) = s.(the_lock).(locked) ->
  (forall d, k.(lk_cpu) = Some d <-> <[c := p']> s.(pcs) !! d = Some Inside) ->
  linv (mk_lsys k (<[c := p']> s.(pcs)) (<[c := i']> s.(intr))).
Proof.
  intros [L1 L2 L3 L4] Hp Hi Hok Hh Hk Hc. split; simpl.
  - rewrite Hk, L1. split; intros (d & q & Hq & Hhq).
    + destruct (decide (d = c)) as [->|Hne].
      * exists c, p'. split; [by eapply pcs_insert|]. congruence.
      * exists d, q. by rewrite list_lookup_insert_ne.
    + apply pcs_cases in Hq as [[-> ->]|[Hne Hq]]; [|by exists d, q].
      exists c, p. split; [done|]. congruence.
  - intros d e q r Hq Hr Hhq Hhr.
    apply pcs_cases in Hq as [[-> ->]|[? Hq]]; apply pcs_cases in Hr as [[-> ->]|[? Hr]]; try done.
    + eapply (L2 c e p r); try done. congruence.
    + eapply (L2 d c q p); try done. congruence.
    + by eapply (L2 d e q r).
  - exact Hc.
  - by apply Forall2_insert.
Qed.

Lemma intr_at s c p : linv s -> s.(pcs) !! c = Some p -> exists i, s.(intr) !! c = Some i /\ intr_ok p i.
Proof. intros L Hp. eapply Forall2_lookup_l in Hp; [|apply L]. done. Qed.

Lemma linv_step s s' : linv s -> lstep s s' -> linv s'.
Proof.
  intros L H. destruct H as [s c i Hp Hi Hh|s c Hp Hl|s c Hp Hl|s c Hp|s c Hp Hh|s c i i' Hp Hi Hpop].
  - destruct (intr_at s c _ L Hp) as (i0 & Hi0 & Hok). replace i0 with i in Hok by congruence.
    eapply linv_move; try done; [by apply pushcli_ok|]. intros d. rewrite (li_cpu _ L d).
    destruct (decide (d = c)) as [->|]; [|by rewrite list_lookup_insert_ne].
    rewrite (pcs_insert _ _ _ _ Hp), Hp. done.
  - done.
  - destruct (intr_at s c _ L Hp) as (i & Hi & Hok).
    assert (Hnone : forall d q, s.(pcs) !! d = Some q -> has_lock q = false).
    { intros d q Hq. destruct (has_lock q) eqn:E; [|done].
      assert (s.(the_lock).(locked) = true) by (apply (li_held _ L); eauto). congruence. }
    split; simpl.
    + split; [|done]. intros _. exists c, Won. split; [by eapply pcs_insert|done].
    + intros d e q r Hq Hr Hhq Hhr.
      apply pcs_cases in Hq as [[-> ->]|[? Hq]]; apply pcs_cases in Hr as [[-> ->]|[? Hr]]; try done.
      * by rewrite (Hnone e r Hr) in Hhr.
      * by rewrite (Hnone d q Hq) in Hhq.
      * by rewrite (Hnone d q Hq) in Hhq.
    + intros d. rewrite (li_cpu _ L d). destruct (decide (d = c)) as [->|]; [|by rewrite list_lookup_insert_ne].
      rewrite (pcs_insert _ _ _ _ Hp), Hp. done.
    + rewrite <- (list_insert_id s.(intr) c i Hi). apply Forall2_insert; [apply L|done].
  - destruct (intr_at s c _ L Hp) as (i & Hi & Hok).
    rewrite <- (list_insert_id s.(intr) c i Hi). eapply linv_move; try done. intros d. simpl.
    destruct (decide (d = c)) as [->|Hne]; [by rewrite (pcs_insert _ _ _ _ Hp)|].
    rewrite list_lookup_insert_ne by done. split; [congruence|]. intros Hd.
    destruct Hne. by eapply (li_one _ L d c).
  - destruct (intr_at s c _ L Hp) as (i & Hi & Hok).
    rewrite <- (list_insert_id s.(intr) c i Hi). eapply linv_move; try done. intros d. simpl.
    split; [done|]. intros Hd. apply pcs_cases in Hd as [[_ ?]|[Hne Hd]]; [done|].
    destruct Hne. by eapply (li_one _ L d c).
  - destruct (intr_at s c _ L Hp) as (i0 & Hi0 & Hok). replace i0 with i in Hok by congruence.
    assert (Hothers : forall d q, d <> c -> s.(pcs) !! d = Some q -> has_lock q = false).
    { intros d q Hne Hq. destruct (has_lock q) eqn:E; [|done]. destruct Hne.
      by eapply (li_one _ L d c q Leaving). }
    split; simpl.
    + split; [done|]. intros (d & q & Hq & Hhq).
      apply pcs_cases in Hq as [[-> ->]|[? Hq]]; [done|]. by rewrite (Hothers d q) in Hhq.
    + intros d e q r Hq Hr Hhq Hhr.
      apply pcs_cases in Hq as [[-> ->]|[? Hq]]; apply pcs_cases in Hr as [[-> ->]|[? Hr]]; try done.
      by rewrite (Hothers d q) in Hhq.
    + intros d. rewrite (li_cpu _ L d). destruct (decide (d = c)) as [->|]; [|by rewrite list_lookup_insert_ne].
      rewrite (pcs_insert _ _ _ _ Hp), Hp. done.
    + apply Forall2_insert; [apply L|]. by eapply popcli_ok.
Qed.

Lemma lreach_linv ncpu s : lreach ncpu s -> linv s.
Proof.
  induction 1 as [|s s' _ IH Hs]; [|by eapply linv_step]. unfold lsys0. split; simpl.
  - split; [done|]. intros (c & p & Hp & Hh). apply lookup_replicate in Hp as [-> _]. done.
  - intros c d p q Hp. apply lookup_replicate in Hp as [-> _]. done.
  - intros c. split; [done|]. intros Hp. by apply lookup_replicate in Hp as [? _].
  - apply Forall2_replicate. by split.
Qed.

(** A whole [acquire] and a whole [release] are steps of the system. *)
Lemma acquire_steps s c i :
  linv s -> s.(pcs) !! c = Some Outside -> s.(intr) !! c = Some i ->
  match acquire c (s.(the_lock), i) with
  | Ok (Some (lk, i')) => rtc lstep s (mk_lsys lk (<[c := Inside]> s.(pcs)) (<[c := i']> s.(intr)))
  | Ok None => exists d p, s.(pcs) !! d = Some p /\ has_lock p = true
  | Panic _ => False
  end.
Proof.
  intros L Hc Hi. assert (Hh : holding c s.(the_lock) = false).
  { unfold holding. apply andb_false_iff. right. apply bool_decide_eq_false. intros E. apply (li_cpu _ L c) in E. congruence. }
  assert (Hlt : (c < length s.(pcs))%nat) by (by eapply lookup_lt_Some).
  unfold acquire. cbn [fst snd]. rewrite Hh. destruct s.(the_lock).(locked) eqn:El; [by apply (li_held _ L)|].
  eapply rtc_l; [by apply (ls_enter s c i)|]. eapply rtc_l.
  { apply (ls_win (mk_lsys s.(the_lock) (<[c := Spinning]> s.(pcs)) (<[c := pushcli i]> s.(intr))) c); [|exact El].
    cbn. by apply list_lookup_insert_eq. }
  eapply rtc_l.
  { apply (ls_own _ c). cbn. apply list_lookup_insert_eq. by rewrite length_insert. }
  cbn. rewrite !list_insert_insert_eq. apply rtc_refl.
Qed.

Lemma release_steps s c i :
  linv s -> s.(pcs) !! c = Some Inside -> s.(intr) !! c = Some i ->
  exists lk i', release c (s.(the_lock), i) = Ok (lk, i') /\
    rtc lstep s (mk_lsys lk (<[c := Outside]> s.(pcs)) (<[c := i']> s.(intr))).
Proof.
  intros L Hc Hi. destruct (intr_at s c _ L Hc) as (i' & Hi' & Hok).
  replace i' with i in Hok by congruence. destruct Hok as (H1 & H2 & H3).
  assert (Hh : holding c s.(the_lock) = true).
  { unfold holding. apply andb_true_iff. split; [apply (li_held _ L); eauto|]. apply bool_decide_eq_true. by apply (li_cpu _ L c). }
  assert (Hp : popcli i = Ok (mk_icpu 0 i.(intena) i.(intena))).
  { unfold popcli. rewrite H1, H2. done. }
  unfold release. cbn [fst snd]. rewrite Hh, Hp. do 2 eexists. split; [reflexivity|].
  eapply rtc_l; [by apply (ls_clear s c)|]. eapply rtc_l.
  { apply (ls_leave _ c i (mk_icpu 0 i.(intena) i.(intena))); [|exact Hi|exact Hp].
    cbn. apply list_lookup_insert_eq. by eapply lookup_lt_Some. }
  cbn. rewrite list_insert_insert_eq. apply rtc_refl.
Qed.

(** C31. Mutual exclusion.  However acquire and release of any number of CPUs
    interleave on one lock, at most one CPU is between the exchange that took
    the lock and the store that frees it; such a CPU has interrupts off; a CPU
    inside its critical section, and no other, passes the holding check.  A
    whole [acquire] by a CPU outside never panics: it succeeds and is a run of
    the system, or spins because some CPU has the lock; and a whole [release]
    from inside succeeds and is a run of the system. *)
Theorem mutual_exclusion ncpu s :
  lreach ncpu s ->
  (forall c d p q, s.(pcs) !! c = Some p -> s.(pcs) !! d = Some q ->
     has_lock p = true -> has_lock q = true -> c = d) /\
  (forall c p i, s.(pcs) !! c = Some p -> s.(intr) !! c = Some i -> has_lock p = true ->
     i.(eflags_if) = false) /\
  (forall c, holding c s.(the_lock) = true <-> s.(pcs) !! c = Some Inside) /\
  (forall c i, s.(pcs) !! c = Some Outside -> s.(intr) !! c = Some i ->
     match acquire c (s.(the_lock), i) with
     | Ok (Some (lk, i')) => rtc lstep s (mk_lsys lk (<[c := Inside]> s.(pcs)) (<[c := i']> s.(intr)))
     | Ok None => exists d p, s.(pcs) !! d = Some p /\ has_lock p = true
     | Panic _ => False
     end) /\
  (forall c i, s.(pcs) !! c = Some Inside -> s.(intr) !! c = Some i ->
     exists lk i', release c (s.(the_lock), i) = Ok (lk, i') /\
       rtc lstep s (mk_lsys lk (<[c := Outside]> s.(pcs)) (<[c := i']> s.(intr)))).
Proof.
  intros R. pose proof (lreach_linv ncpu s R) as L. split; [apply L|]. split; [|split; [|split]].
  - intros c p i Hp Hi Hh. destruct (intr_at s c p L Hp) as (i' & Hi' & Hok).
    replace i' with i in Hok by congruence. destruct p; try done; by destruct Hok as (_ & ? & _).
  - intros c. unfold holding. rewrite andb_true_iff, bool_decide_eq_true, (li_cpu _ L c).
    split; [by intros [_ ?]|]. intros Hc. split; [|done]. apply (li_held _ L). eauto.
  - intros c i. by apply acquire_steps.
  - intros c i. by apply release_steps.
Qed.

Module LockDemo.

(** CPU 0 has won the lock, CPU 1 is outside. *)
Definition won : lsys :=
  mk_lsys (mk_spinlock true None) [Won; Outside] [mk_icpu 1 true false; mk_icpu 0 false true].

Lemma mutual_exclusion_witness :
  won.(pcs) !! 0%nat = Some Won /\
  forall c d p q, won.(pcs) !! c = Some p -> won.(pcs) !! d = Some q ->
    has_lock p = true -> has_lock q = true -> c = d.
Proof.
  split; [reflexivity|]. apply (mutual_exclusion 2 won).
  eapply lr_step; [eapply lr_step; [apply lr_init|]|].
  - exact (ls_enter (lsys0 2) 0 (mk_icpu 0 false true) eq_refl eq_refl eq_refl).
  - exact (ls_win (mk_lsys initlock [Spinning; Outside] [mk_icpu 1 true false; mk_icpu 0 false true])
             0 eq_refl eq_refl).
Defined.

End LockDemo.
