(* ===== verification/Bio.v ===== *)
(** * The buffer cache (bio.c) over the memory disk (memide.c)

    [NBUF] buffers and a list head, linked through [prev] and [next] indices
    as the C structs are through pointers (index [NBUF] is the head).  The
    loops of [bget] follow those links; [brelse] relinks.  [iderw] is the
    driver of memide.c, a disk that is an array of blocks; [writes] records
    the order of the disk writes, which is what a crash can cut short.
    Going to sleep on a locked buffer is the outcome [Panic "sleep"]; no
    theorem is about a run that reaches it. *)

From S2P Require Import Prelude Locks.

Definition BSIZE : nat := 512.
Definition NBUF : nat := 30.
Definition B_VALID : Z := 2.
Definition B_DIRTY : Z := 4.

(** The contents of a block: [BSIZE] bytes. *)
Abbreviation block := (list Z).

Record buf := mk_buf {
  flags : Z;
  dev : Z;
  blockno : Z;
  lock : sleeplock;
  refcnt : Z;
  prev : nat;
  next : nat;
  data : block
}.

Definition with_flags (b : buf) (v : Z) : buf :=
  mk_buf v b.(dev) b.(blockno) b.(lock) b.(refcnt) b.(prev) b.(next) b.(data).
Definition with_dev (b : buf) (v : Z) : buf :=
  mk_buf b.(flags) v b.(blockno) b.(lock) b.(refcnt) b.(prev) b.(next) b.(data).
Definition with_blockno (b : buf) (v : Z) : buf :=
  mk_buf b.(flags) b.(dev) v b.(lock) b.(refcnt) b.(prev) b.(next) b.(data).
Definition with_lock (b : buf) (v : sleeplock) : buf :=
  mk_buf b.(flags) b.(dev) b.(blockno) v b.(refcnt) b.(prev) b.(next) b.(data).
Definition with_refcnt (b : buf) (v : Z) : buf :=
  mk_buf b.(flags) b.(dev) b.(blockno) b.(lock) v b.(prev) b.(next) b.(data).
Definition with_prev (b : buf) (v : nat) : buf :=
  mk_buf b.(flags) b.(dev) b.(blockno) b.(lock) b.(refcnt) v b.(next) b.(data).
Definition with_next (b : buf) (v : nat) : buf :=
  mk_buf b.(flags) b.(dev) b.(blockno) b.(lock) b.(refcnt) b.(prev) v b.(data).
Definition with_data (b : buf) (v : block) : buf :=
  mk_buf b.(flags) b.(dev) b.(blockno) b.(lock) b.(refcnt) b.(prev) b.(next) v.

(** A zeroed [struct buf]. *)
Definition buf0 : buf := mk_buf 0 0 0 initsleeplock 0 0 0 (replicate BSIZE 0).

(** The cache, the disk, and the writes the disk has seen, oldest first. *)
Record bio := mk_bio {
  bufs : list buf;
  disk : Z -> block;
  disksize : Z;
  writes : list (Z * block)
}.

Definition getb (i : nat) : kM bio buf :=
  fun s => match s.(bufs) !! i with Some b => Ok (b, s) | None => Panic "bad buffer" end.

Definition upd_buf (i : nat) (f : buf -> buf) (s : bio) : bio :=
  mk_bio (alter f i s.(bufs)) s.(disk) s.(disksize) s.(writes).

Definition setb (i : nat) (f : buf -> buf) : kM bio unit := kmodify (upd_buf i f).

Definition dupd (d : Z -> block) (n : Z) (v : block) : Z -> block :=
  fun x => if x =? n then v else d x.

(** The list head. *)
Definition bhead : nat := NBUF.

(** [binit]: the body of the loop links buffer [b] after the head. *)
Definition binit_link (b : nat) : kM bio unit :=
  h ← getb bhead;
  _ ← setb b (fun x => with_next x h.(next));
  _ ← setb b (fun x => with_prev x bhead);
  _ ← setb b (fun x => with_lock x initsleeplock);
  h ← getb bhead;
  _ ← setb h.(next) (fun x => with_prev x b);
  setb bhead (fun x => with_next x b).

Fixpoint binit_loop (bs : list nat) : kM bio unit :=
  match bs with
  | [] => mret tt
  | b :: bs => _ ← binit_link b; binit_loop bs
  end.

Definition binit : kM bio unit :=
  _ ← setb bhead (fun x => with_prev x bhead);
  _ ← setb bhead (fun x => with_next x bhead);
  binit_loop (seq 0 NBUF).

Section Bio.

(** The pid of the running process. *)
Variable me : Z.

(** [bget]: the forward search for a cached block .. *)
Fixpoint bget_cached (fuel : nat) (d n : Z) (b : nat) : kM bio (option nat) :=
  match fuel with
  | O => kpanic "out of fuel"
  | S fuel =>
      if decide (b = bhead) then mret None
      else
        x ← getb b;
        if (x.(dev) =? d) && (x.(blockno) =? n) then mret (Some b)
        else bget_cached fuel d n x.(next)
  end.

(** .. and the backward search for a buffer to recycle. *)
Fixpoint bget_free (fuel : nat) (b : nat) : kM bio (option nat) :=
  match fuel with
  | O => kpanic "out of fuel"
  | S fuel =>
      if decide (b = bhead) then mret None
      else
        x ← getb b;
        if (x.(refcnt) =? 0) && (Z.land x.(flags) B_DIRTY =? 0) then mret (Some b)
        else bget_free fuel x.(prev)
  end.

Definition lock_buf (b : nat) : kM bio unit :=
  x ← getb b;
  match acquiresleep me x.(lock) with
  | Some lk => setb b (fun x => with_lock x lk)
  | None => kpanic "sleep"
  end.

Definition bget (d n : Z) : kM bio nat :=
  h ← getb bhead;
  o ← bget_cached (S NBUF) d n h.(next);
  match o with
  | Some b =>
      _ ← setb b (fun x => with_refcnt x (u32 (x.(refcnt) + 1)));
      _ ← lock_buf b;
      mret b
  | None =>
      h ← getb bhead;
      o ← bget_free (S NBUF) h.(prev);
      match o with
      | Some b =>
          _ ← setb b (fun x => with_dev x d);
          _ ← setb b (fun x => with_blockno x n);
          _ ← setb b (fun x => with_flags x 0);
          _ ← setb b (fun x => with_refcnt x 1);
          _ ← lock_buf b;
          mret b
      | None => kpanic "bget: no buffers"
      end
  end.

Definition iderw (b : nat) : kM bio unit :=
  x ← getb b;
  s ← kget;
  if negb (holdingsleep me x.(lock)) then kpanic "iderw: buf not locked"
  else if Z.land x.(flags) (Z.lor B_VALID B_DIRTY) =? B_VALID then kpanic "iderw: nothing to do"
  else if negb (x.(dev) =? 1) then kpanic "iderw: request not for disk 1"
  else if s.(disksize) <=? x.(blockno) then kpanic "iderw: block out of range"
  else
    _ ← (if negb (Z.land x.(flags) B_DIRTY =? 0) then
           _ ← setb b (fun x => with_flags x (Z.land x.(flags) (Z.lnot B_DIRTY)));
           kmodify (fun s => mk_bio s.(bufs) (dupd s.(disk) x.(blockno) x.(data)) s.(disksize)
                               (s.(writes) ++ [(x.(blockno), x.(data))]))
         else setb b (fun y => with_data y (s.(disk) x.(blockno))));
    setb b (fun x => with_flags x (Z.lor x.(flags) B_VALID)).

Definition bread (d n : Z) : kM bio nat :=
  b ← bget d n;
  x ← getb b;
  _ ← (if Z.land x.(flags) B_VALID =? 0 then iderw b else mret tt);
  mret b.

Definition bwrite (b : nat) : kM bio unit :=
  x ← getb b;
  if negb (holdingsleep me x.(lock)) then kpanic "bwrite"
  else
    _ ← setb b (fun x => with_flags x (Z.lor x.(flags) B_DIRTY));
    iderw b.

(** Unlink [b] and link it after the head. *)
Definition brelse_move (b : nat) : kM bio unit :=
  x ← getb b;
  _ ← setb x.(next) (fun y => with_prev y x.(prev));
  x ← getb b;
  _ ← setb x.(prev) (fun y => with_next y x.(next));
  h ← getb bhead;
  _ ← setb b (fun y => with_next y h.(next));
  _ ← setb b (fun y => with_prev y bhead);
  h ← getb bhead;
  _ ← setb h.(next) (fun y => with_prev y b);
  setb bhead (fun y => with_next y b).

Definition brelse (b : nat) : kM bio unit :=
  x ← getb b;
  if negb (holdingsleep me x.(lock)) then kpanic "brelse"
  else
    _ ← setb b (fun x => with_lock x (releasesleep x.(lock)));
    _ ← setb b (fun x => with_refcnt x (u32 (x.(refcnt) - 1)));
    x ← getb b;
    if x.(refcnt) =? 0 then brelse_move b else mret tt.

End Bio.
