(* ===== verification/BioSpec.v ===== *)
(** * What the buffer cache promises

    The links form a ring through all buffers, most recently used first; no
    two buffers hold the same block; a clean unlocked buffer equals the disk.
    Under this invariant [bread], [bwrite] and [brelse] are described
    exactly. *)

From S2P Require Import Prelude Locks Bio.

(** ** The ring *)

Definition nxt (bs : list buf) (i : nat) : option nat := next <$> bs !! i.
Definition prv (bs : list buf) (i : nat) : option nat := prev <$> bs !! i.

(** [l] is linked, both ways, between [a] and [b]. *)
Fixpoint seg (bs : list buf) (a : nat) (l : list nat) (b : nat) : Prop :=
  match l with
  | [] => nxt bs a = Some b /\ prv bs b = Some a
  | x :: l => nxt bs a = Some x /\ prv bs x = Some a /\ seg bs x l b
  end.

Lemma seg_app bs a l1 x l2 b : seg bs a (l1 ++ x :: l2) b <-> seg bs a l1 x /\ seg bs x l2 b.
Proof.
  revert a. induction l1 as [|y l1 IH]; intros a; simpl; [tauto|]. rewrite IH. tauto.
Qed.

Lemma seg_frame bs bs' a l b :
  (forall i, i ∈ a :: l -> nxt bs' i = nxt bs i) -> (forall i, i ∈ l ++ [b] -> prv bs' i = prv bs i) ->
  seg bs a l b -> seg bs' a l b.
Proof.
  revert a. induction l as [|x l IH]; intros a Hn Hp; simpl.
  - rewrite Hn, Hp by by left. done.
  - rewrite Hn by by left. rewrite (Hp x) by by left. intros (? & ? & ?). split_and!; try done.
    apply IH; [|intros i Hi; apply Hp; by right|done]. intros i Hi. apply Hn. by right.
Qed.

Lemma nxt_set_prev bs i v j : nxt (alter (fun y => with_prev y v) i bs) j = nxt bs j.
Proof. unfold nxt. rewrite list_lookup_alter. case_decide; [subst|done]. by destruct (bs !! j). Qed.

Lemma prv_set_next bs i v j : prv (alter (fun y => with_next y v) i bs) j = prv bs j.
Proof. unfold prv. rewrite list_lookup_alter. case_decide; [subst|done]. by destruct (bs !! j). Qed.

Lemma prv_set_prev bs i v j :
  (i < length bs)%nat ->
  prv (alter (fun y => with_prev y v) i bs) j = if decide (j = i) then Some v else prv bs j.
Proof.
  intros Hi. unfold prv. rewrite list_lookup_alter. destruct (decide (j = i)) as [->|Hne].
  - rewrite decide_True by done. apply lookup_lt_is_Some_2 in Hi as [x ->]. done.
  - by rewrite decide_False by done.
Qed.

Lemma nxt_set_next bs i v j :
  (i < length bs)%nat ->
  nxt (alter (fun y => with_next y v) i bs) j = if decide (j = i) then Some v else nxt bs j.
Proof.
  intros Hi. unfold nxt. rewrite list_lookup_alter. destruct (decide (j = i)) as [->|Hne].
  - rewrite decide_True by done. apply lookup_lt_is_Some_2 in Hi as [x ->]. done.
  - by rewrite decide_False by done.
Qed.

#[local] Hint Rewrite nxt_set_prev prv_set_next : xv6.
#[local] Hint Rewrite prv_set_prev nxt_set_next using (rewrite ?length_alter; lia) : xv6.

(** Unlinking [x] between [p] and [n]. *)
Definition unlink (p n : nat) (bs : list buf) : list buf :=
  alter (fun y => with_next y n) p (alter (fun y => with_prev y p) n bs).

Definition first_of (l : list nat) (b : nat) : nat := default b (head l).
Definition last_of (a : nat) (l : list nat) : nat := default a (last l).

Lemma last_of_cons a x l : last_of a (x :: l) = last_of x l.
Proof.
  unfold last_of. destruct l as [|y l]; [done|]. rewrite last_cons_cons.
  assert (is_Some (last (y :: l))) as [z ->] by (by apply last_is_Some). done.
Qed.

Lemma seg_first bs a l b : seg bs a l b -> nxt bs a = Some (first_of l b).
Proof. destruct l; simpl; tauto. Qed.

Lemma seg_last bs a l b : seg bs a l b -> prv bs b = Some (last_of a l).
Proof.
  revert a. induction l as [|x l IH]; intros a; simpl; [tauto|]. intros (_ & _ & H).
  rewrite (IH x H). by rewrite last_of_cons.
Qed.

Lemma nxt_lt bs i v : nxt bs i = Some v -> (i < length bs)%nat.
Proof. unfold nxt. intros H. apply fmap_Some in H as (x & H & _). by eapply lookup_lt_Some. Qed.

Lemma prv_lt bs i v : prv bs i = Some v -> (i < length bs)%nat.
Proof. unfold prv. intros H. apply fmap_Some in H as (x & H & _). by eapply lookup_lt_Some. Qed.

Lemma unlink_nxt bs p n j :
  (p < length bs)%nat -> nxt (unlink p n bs) j = if decide (j = p) then Some n else nxt bs j.
Proof.
  intros Hp. unfold unlink. rewrite nxt_set_next by by rewrite length_alter. by rewrite nxt_set_prev.
Qed.

Lemma unlink_prv bs p n j :
  (n < length bs)%nat -> prv (unlink p n bs) j = if decide (j = n) then Some p else prv bs j.
Proof. intros Hn. unfold unlink. by rewrite prv_set_next, prv_set_prev. Qed.

Lemma seg_unlink bs a l1 x l2 b :
  seg bs a l1 x -> seg bs x l2 b -> NoDup (l1 ++ x :: l2) ->
  a ∉ l1 ++ x :: l2 -> b ∉ l1 ++ x :: l2 ->
  seg (unlink (last_of a l1) (first_of l2 b) bs) a (l1 ++ l2) b.
Proof.
  intros H1 H2 Hnd Ha Hb. set (p := last_of a l1). set (n := first_of l2 b).
  assert (Hp : (p < length bs)%nat).
  { assert (nxt bs p = Some x) as Hx; [|by eapply nxt_lt]. unfold p. clear -H1.
    revert a H1. induction l1 as [|y l1 IH]; intros a; simpl; [tauto|]. intros (_ & _ & H).
    rewrite last_of_cons. by apply IH. }
  assert (Hn : (n < length bs)%nat).
  { assert (prv bs n = Some x) as Hx; [|by eapply prv_lt]. unfold n, first_of.
    destruct l2; simpl in *; tauto. }
  assert (Hbs : forall l, seg bs x l2 b -> l2 = l -> seg (unlink p n bs) p l b).
  { intros l Hs <-. destruct l2 as [|y l2];
      [assert (E : n = b) by reflexivity|assert (E : n = y) by reflexivity]; clearbody n; subst n; simpl in *.
    - rewrite unlink_nxt, unlink_prv by done. rewrite !decide_True by done. done.
    - rewrite unlink_nxt, unlink_prv by done. rewrite !decide_True by done. split; [done|]. split; [done|].
      eapply seg_frame; [..|apply Hs].
      + intros i Hi. rewrite unlink_nxt by done. rewrite decide_False; [done|]. intros ->.
        unfold p, last_of in Hi. destruct (last l1) as [z|] eqn:El; simpl in Hi.
        * apply last_Some in El as [l1' ->]. apply NoDup_app in Hnd as (_ & Hd & _).
          apply (Hd z); [apply elem_of_app; right; by left|by right].
        * apply Ha, elem_of_app. right. by right.
      + intros i Hi. rewrite unlink_prv by done. rewrite decide_False; [done|]. intros ->.
        apply NoDup_app in Hnd as (_ & _ & Hnd). apply NoDup_cons in Hnd as [_ Hnd].
        apply elem_of_app in Hi as [Hi|Hi]; [by apply NoDup_cons in Hnd as [? _]|].
        apply list_elem_of_singleton in Hi as ->. apply Hb, elem_of_app. right. right. by left. }
  assert (Hgo : forall l1' a', seg bs a' l1' x -> last_of a' l1' = p -> NoDup (l1' ++ x :: l2) ->
            a' ∉ l1' -> b ∉ l1' -> seg (unlink p n bs) a' (l1' ++ l2) b).
  { intros l1'. induction l1' as [|y l1' IH]; intros a' Hs Hl Hnd' Ha' Hb'; simpl in *.
    - unfold last_of in Hl. simpl in Hl. subst a'. by apply Hbs.
    - destruct Hs as (Hs1 & Hs2 & Hs3). apply not_elem_of_cons in Ha' as [Ha1 Ha2], Hb' as [Hb1 Hb2].
      apply NoDup_cons in Hnd' as [Hy Hnd'].
      assert (Hlast : last_of y l1' = p) by (by rewrite <- Hl, last_of_cons).
      split; [|split].
      + rewrite unlink_nxt by done. rewrite decide_False; [done|]. intros ->. rewrite <- Hlast in *.
        unfold last_of in *. destruct (last l1') as [z|] eqn:El; simpl in *; [|done].
        apply Ha2. by apply last_Some in El as [? ->]; apply elem_of_app; right; left.
      + rewrite unlink_prv by done. rewrite decide_False; [done|]. unfold n, first_of. intros E.
        destruct l2 as [|z l2]; simpl in E; [done|]. apply Hy, elem_of_app. right. right. rewrite E. by left.
      + apply IH; try done. intros Hin. apply Hy, elem_of_app. by left. }
  apply Hgo; try done.
  - intros Hin. apply Ha, elem_of_app. by left.
  - intros Hin. apply Hb, elem_of_app. by left.
Qed.

(** Linking [x] between [a] and the node [f] that follows it. *)
Definition link (a x f : nat) (bs : list buf) : list buf :=
  alter (fun y => with_next y x) a (alter (fun y => with_prev y x) f
    (alter (fun y => with_prev y a) x (alter (fun y => with_next y f) x bs))).

Lemma seg_link bs a l x :
  seg bs a l a -> NoDup l -> a ∉ l -> x ∉ l -> x <> a -> (x < length bs)%nat ->
  seg (link a x (first_of l a) bs) a (x :: l) a.
Proof.
  intros Hs Hnd Ha Hx Hxa Hlt. set (f := first_of l a).
  assert (Hal : (a < length bs)%nat) by (eapply nxt_lt, seg_first, Hs).
  assert (Hfx : f <> x).
  { unfold f, first_of. destruct l as [|y l]; simpl; [done|]. intros ->. apply Hx. by left. }
  assert (Hfl : (f < length bs)%nat).
  { unfold f, first_of. destruct l as [|y l]; simpl; [done|]. simpl in Hs. eapply prv_lt, Hs. }
  assert (Hn : forall j, nxt (link a x f bs) j =
             if decide (j = a) then Some x else if decide (j = x) then Some f else nxt bs j).
  { intros j. unfold link. rewrite nxt_set_next by (rewrite !length_alter; lia).
    by rewrite !nxt_set_prev, nxt_set_next by done. }
  assert (Hp : forall j, prv (link a x f bs) j =
             if decide (j = f) then Some x else if decide (j = x) then Some a else prv bs j).
  { intros j. unfold link. rewrite prv_set_next, prv_set_prev by (rewrite !length_alter; lia).
    by rewrite prv_set_prev, prv_set_next by (rewrite !length_alter; lia). }
  cbn [seg]. rewrite Hn, Hp, decide_True by done. rewrite (decide_False (P := x = f)) by done.
  rewrite decide_True by done. split; [done|]. split; [done|].
  destruct l as [|y l].
  - assert (E : f = a) by reflexivity. cbn [seg]. rewrite Hn, Hp.
    rewrite decide_False, !decide_True by done. by rewrite E.
  - assert (E : f = y) by reflexivity. cbn [seg] in *. rewrite Hn, Hp.
    rewrite decide_False, !decide_True by done. rewrite E. split; [done|]. split; [done|].
    apply not_elem_of_cons in Ha as [Ha1 Ha2], Hx as [Hx1 Hx2]. apply NoDup_cons in Hnd as [Hy Hnd].
    eapply seg_frame; [..|apply Hs].
    + intros i Hi. rewrite Hn, !decide_False; [done|..].
      * intros ->. apply elem_of_cons in Hi as [->|?]; done.
      * intros ->. apply elem_of_cons in Hi as [->|?]; done.
    + intros i Hi. rewrite Hp, E, !decide_False; [done|..].
      * intros ->. apply elem_of_app in Hi as [?|Hi%list_elem_of_singleton]; congruence.
      * intros ->. apply elem_of_app in Hi as [?|Hi%list_elem_of_singleton]; congruence.
Qed.

(** The buffers, most recently used first. *)
Record ring (bs : list buf) (order : list nat) : Prop := {
  ring_seg : seg bs bhead order bhead;
  ring_nodup : NoDup order;
  ring_all : forall i, i ∈ order <-> (i < NBUF)%nat;
  ring_len : length bs = S NBUF
}.

(** A buffer without its links. *)
Definition strip (b : buf) : buf := with_prev (with_next b 0) 0.

Lemma strip_alter f i (bs : list buf) : (forall y, strip (f y) = strip y) -> strip <$> alter f i bs = strip <$> bs.
Proof.
  intros Hf. apply list_eq. intros j. rewrite !list_lookup_fmap, list_lookup_alter.
  case_decide; [subst|done]. destruct (bs !! j); simpl; [by rewrite Hf|done].
Qed.

Lemma strip_link a x f bs : strip <$> link a x f bs = strip <$> bs.
Proof. unfold link. by rewrite !strip_alter. Qed.

Lemma strip_unlink p n bs : strip <$> unlink p n bs = strip <$> bs.
Proof. unfold unlink. by rewrite !strip_alter. Qed.

Lemma strip_lookup (bs bs' : list buf) i x' :
  strip <$> bs' = strip <$> bs -> bs' !! i = Some x' -> exists x, bs !! i = Some x /\ strip x' = strip x.
Proof.
  intros E H. assert (E' : (strip <$> bs') !! i = (strip <$> bs) !! i) by by rewrite E.
  rewrite !list_lookup_fmap, H in E'. simpl in E'. symmetry in E'.
  apply fmap_Some in E' as (x & Hx & E'). eauto.
Qed.

Lemma length_link a x f bs : length (link a x f bs) = length bs.
Proof. unfold link. by rewrite !length_alter. Qed.

Lemma length_unlink p n bs : length (unlink p n bs) = length bs.
Proof. unfold unlink. by rewrite !length_alter. Qed.

Lemma ring_not_head bs order : ring bs order -> bhead ∉ order.
Proof. intros R Hin. apply (ring_all _ _ R) in Hin. unfold bhead in Hin. lia. Qed.

(** ** Searching *)

Section Find.
Variable s : bio.

Definition matches (d n : Z) (i : nat) : bool :=
  match s.(bufs) !! i with Some x => (x.(dev) =? d) && (x.(blockno) =? n) | None => false end.

Definition recyclable (i : nat) : bool :=
  match s.(bufs) !! i with
  | Some x => (x.(refcnt) =? 0) && (Z.land x.(flags) B_DIRTY =? 0)
  | None => false
  end.

Lemma getb_run i x : s.(bufs) !! i = Some x -> getb i s = Ok (x, s).
Proof. intros H. unfold getb. by rewrite H. Qed.

Lemma bget_cached_run fuel d n a l :
  seg s.(bufs) a l bhead -> bhead ∉ l -> (length l < fuel)%nat ->
  bget_cached fuel d n (first_of l bhead) s = Ok (List.find (matches d n) l, s).
Proof.
  revert fuel a. induction l as [|x l IH]; intros [|fuel] a Hs Hh Hf; simpl in Hf; try lia; [done|].
  change (first_of (x :: l) bhead) with x. cbn [bget_cached]. apply not_elem_of_cons in Hh as [Hx Hh].
  rewrite decide_False by done. destruct Hs as (_ & Hp & Hs).
  apply seg_first in Hs as Hn. unfold nxt in Hn. apply fmap_Some in Hn as (y & Hy & Hn).
  rewrite (kM_bind_run _ _ _ _ _ (getb_run x y Hy)). cbn [List.find]. unfold matches at 1. rewrite Hy.
  destruct (_ && _); [done|]. rewrite <- Hn. apply (IH fuel x); [done|done|lia].
Qed.

Lemma bget_free_run fuel l b :
  seg s.(bufs) bhead l b -> bhead ∉ l -> (length l < fuel)%nat ->
  bget_free fuel (last_of bhead l) s = Ok (List.find recyclable (rev l), s).
Proof.
  revert fuel b. induction l as [|x l IH] using rev_ind; intros [|fuel] b Hs Hh Hf;
    rewrite ?length_app in Hf; simpl in Hf; try lia; [done|].
  assert (E : last_of bhead (l ++ [x]) = x) by (unfold last_of; by rewrite last_snoc).
  rewrite E, rev_unit. cbn [bget_free].
  apply not_elem_of_app in Hh as [Hh Hx]. apply seg_app in Hs as [Hs Hb]. simpl in Hb.
  rewrite decide_False by (intros ->; apply Hx; by left).
  apply seg_last in Hs as Hp. unfold prv in Hp. apply fmap_Some in Hp as (y & Hy & Hp).
  rewrite (kM_bind_run _ _ _ _ _ (getb_run x y Hy)). cbn [List.find]. unfold recyclable at 1. rewrite Hy.
  destruct (_ && _); [done|]. rewrite <- Hp. by apply (IH fuel x); [| |lia].
Qed.

End Find.

(** ** The invariant *)

Definition buf_ok (s : bio) (x : buf) : Prop :=
  0 <= x.(refcnt) /\ (x.(lock).(sl_locked) = true -> 0 < x.(refcnt)) /\
  (x.(dev) = 0 /\ x.(flags) = 0 /\ x.(refcnt) = 0 \/
   x.(dev) = 1 /\ 0 <= x.(blockno) < s.(disksize) /\ (x.(flags) = 2 \/ x.(flags) = 6)) /\
  (x.(flags) = 2 -> x.(lock).(sl_locked) = false -> x.(data) = s.(disk) x.(blockno)).

(** Buffer [i] holds block [n]. *)
Definition cached (s : bio) (n : Z) (i : nat) (x : buf) : Prop :=
  s.(bufs) !! i = Some x /\ (i < NBUF)%nat /\ x.(dev) = 1 /\ x.(blockno) = n.

Record binv (s : bio) (order : list nat) : Prop := {
  bi_ring : ring s.(bufs) order;
  bi_uniq : forall n i j x y, cached s n i x -> cached s n j y -> i = j;
  bi_buf : forall i x, (i < NBUF)%nat -> s.(bufs) !! i = Some x -> buf_ok s x
}.

(** The current contents of block [n]: the cached copy if there is one. *)
Definition vw (s : bio) (n : Z) : block :=
  match list_find (fun x => x.(dev) = 1 /\ x.(blockno) = n) (take NBUF s.(bufs)) with
  | Some (_, x) => x.(data)
  | None => s.(disk) n
  end.

Lemma vw_cached s order n i x : binv s order -> cached s n i x -> vw s n = x.(data).
Proof.
  intros B (Hx & Hi & Hd & Hn). unfold vw.
  destruct (list_find _ _) as [[j y]|] eqn:E.
  - apply list_find_Some in E as (Hy & [Hd' Hn'] & _).
    apply lookup_take_Some in Hy as [Hy Hj].
    assert (j = i) as -> by (eapply (bi_uniq _ _ B n); by split_and!). congruence.
  - apply list_find_None in E. rewrite Forall_lookup in E. exfalso.
    apply (E i x); [|done]. by rewrite lookup_take_lt.
Qed.

Lemma vw_uncached s n : (forall i x, ~ cached s n i x) -> vw s n = s.(disk) n.
Proof.
  intros Hno. unfold vw. destruct (list_find _ _) as [[j y]|] eqn:E; [|done].
  apply list_find_Some in E as (Hy & [Hd Hn] & _). apply lookup_take_Some in Hy as [Hy Hj].
  exfalso. by apply (Hno j y).
Qed.

Lemma find_matches s order n :
  binv s order ->
  match List.find (matches s 1 n) order with
  | Some b => exists x, cached s n b x
  | None => forall i x, ~ cached s n i x
  end.
Proof.
  intros B. destruct (List.find _ _) as [b|] eqn:E.
  - apply find_some in E as [Hin Hm]. rewrite <- list_elem_of_In, (ring_all _ _ (bi_ring _ _ B)) in Hin.
    unfold matches in Hm. destruct (s.(bufs) !! b) as [x|] eqn:Hx; [|done].
    apply andb_true_iff in Hm as [Hd%Z.eqb_eq Hn%Z.eqb_eq]. by exists x.
  - intros i x (Hx & Hi & Hd & Hn).
    assert (Hin : In i order) by (rewrite <- list_elem_of_In; by apply (ring_all _ _ (bi_ring _ _ B))).
    pose proof (find_none _ _ E i Hin) as Hm. unfold matches in Hm. rewrite Hx, Hd, Hn in Hm.
    by rewrite !Z.eqb_refl in Hm.
Qed.

Definition locked_by (me : Z) : sleeplock := mk_sleeplock true me.

Lemma lock_buf_run me b x s :
  s.(bufs) !! b = Some x -> x.(lock).(sl_locked) = false ->
  lock_buf me b s = Ok (tt, upd_buf b (fun x => with_lock x (locked_by me)) s).
Proof.
  intros Hx Hl. unfold lock_buf, acquiresleep. rewrite (kM_bind_run _ _ _ _ _ (getb_run s b x Hx)).
  by rewrite Hl.
Qed.

Lemma upd_upd b f g s : upd_buf b f (upd_buf b g s) = upd_buf b (fun x => f (g x)) s.
Proof. unfold upd_buf. simpl. by rewrite list_alter_alter_eq. Qed.

Lemma upd_ext b f g s x : s.(bufs) !! b = Some x -> f x = g x -> upd_buf b f s = upd_buf b g s.
Proof.
  intros Hx E. unfold upd_buf. f_equal. apply list_alter_ext; [|done]. intros y Hy. congruence.
Qed.

Lemma upd_lookup b f s x : s.(bufs) !! b = Some x -> (upd_buf b f s).(bufs) !! b = Some (f x).
Proof. intros Hx. simpl. by rewrite list_lookup_alter_eq, Hx. Qed.

Lemma upd_lookup_ne b f s i : i <> b -> (upd_buf b f s).(bufs) !! i = s.(bufs) !! i.
Proof. intros H. simpl. by rewrite list_lookup_alter_ne. Qed.

(** A buffer that has just been read from the disk. *)
Definition fresh_buf (me n : Z) (d : block) (x : buf) : buf :=
  mk_buf B_VALID 1 n (locked_by me) 1 x.(prev) x.(next) d.

(** A cached buffer taken once more. *)
Definition taken_buf (me : Z) (x : buf) : buf :=
  with_lock (with_refcnt x (u32 (x.(refcnt) + 1))) (locked_by me).

Lemma bget_start s order :
  binv s order -> exists h, s.(bufs) !! bhead = Some h /\ h.(next) = first_of order bhead /\
    h.(prev) = last_of bhead order.
Proof.
  intros B. pose proof (ring_seg _ _ (bi_ring _ _ B)) as Hs.
  apply seg_first in Hs as Hn. apply seg_last in Hs as Hp. unfold nxt, prv in *.
  apply fmap_Some in Hn as (h & Hh & Hn), Hp as (h' & Hh' & Hp). exists h.
  split; [done|]. split; congruence.
Qed.

Lemma ring_fuel bs order : ring bs order -> (length order < S NBUF)%nat.
Proof.
  intros R. assert (order ≡ₚ seq 0 NBUF) as E.
  { apply NoDup_Permutation; [apply R|apply NoDup_seq|]. intros i. rewrite (ring_all _ _ R), elem_of_seq. lia. }
  rewrite E, length_seq. lia.
Qed.

(** [bread] of a block of the disk, in all cases. *)
Lemma bread_run me s order n :
  binv s order -> 0 <= n < s.(disksize) ->
  bread me 1 n s =
  match List.find (matches s 1 n) order with
  | Some b =>
      if default false (sl_locked ∘ lock <$> s.(bufs) !! b) then Panic "sleep"
      else Ok (b, upd_buf b (taken_buf me) s)
  | None =>
      match List.find (recyclable s) (rev order) with
      | Some b => Ok (b, upd_buf b (fresh_buf me n (s.(disk) n)) s)
      | None => Panic "bget: no buffers"
      end
  end.
Proof.
  intros B Hn. pose proof (bi_ring _ _ B) as R.
  destruct (bget_start s order B) as (h & Hh & Hnx & Hpv).
  pose proof (bget_cached_run s (S NBUF) 1 n bhead order (ring_seg _ _ R) (ring_not_head _ _ R) (ring_fuel _ _ R)) as Hc.
  pose proof (bget_free_run s (S NBUF) order bhead (ring_seg _ _ R) (ring_not_head _ _ R) (ring_fuel _ _ R)) as Hf.
  pose proof (find_matches s order n B) as Hm.
  unfold bread. unfold bget at 1. unfold mbind at 1, kM_bind at 1.
  rewrite (kM_bind_run _ _ _ _ _ (getb_run s bhead h Hh)), Hnx, (kM_bind_run _ _ _ _ _ Hc).
  destruct (List.find (matches s 1 n) order) as [b|].
  - destruct Hm as (x & Hx & Hb & Hd & Hbn). rewrite Hx. simpl.
    erewrite kM_bind_run by reflexivity.
    pose proof (upd_lookup b (fun x => with_refcnt x (u32 (x.(refcnt) + 1))) s x Hx) as Hx1.
    destruct (x.(lock).(sl_locked)) eqn:El.
    + unfold lock_buf at 1, acquiresleep. unfold mbind at 1, kM_bind at 1.
      rewrite (kM_bind_run _ _ _ _ _ (getb_run _ _ _ Hx1)). simpl. by rewrite El.
    + rewrite (kM_bind_run _ _ _ _ _ (lock_buf_run me b _ _ Hx1 El)), kM_ret_run.
      pose proof (upd_lookup b (fun x => with_lock x (locked_by me)) _ _ Hx1) as Hx2.
      rewrite (kM_bind_run _ _ _ _ _ (getb_run _ _ _ Hx2)). simpl.
      destruct (bi_buf _ _ B b x Hb Hx) as (_ & _ & Hfl & _).
      replace (Z.land x.(flags) B_VALID =? 0) with false
        by (destruct Hfl as [(? & ? & _)|(_ & _ & [-> | ->])]; [congruence|done|done]).
      erewrite kM_bind_run by reflexivity. rewrite kM_ret_run, upd_upd. done.
  - rewrite (kM_bind_run _ _ _ _ _ (getb_run s bhead h Hh)), Hpv, (kM_bind_run _ _ _ _ _ Hf).
    destruct (List.find (recyclable s) (rev order)) as [b|] eqn:Hr; [|done].
    apply find_some in Hr as [Hin Hr]. rewrite <- in_rev, <- list_elem_of_In, (ring_all _ _ R) in Hin.
    unfold recyclable in Hr. destruct (s.(bufs) !! b) as [x|] eqn:Hx; [|done].
    apply andb_true_iff in Hr as [Hr%Z.eqb_eq _].
    do 4 (erewrite kM_bind_run by reflexivity). rewrite !upd_upd.
    destruct (bi_buf _ _ B b x Hin Hx) as (_ & Hlk & _).
    assert (El : x.(lock).(sl_locked) = false) by (destruct (x.(lock).(sl_locked)); [lia|done]).
    pose proof (upd_lookup b (fun x => with_refcnt (with_flags (with_blockno (with_dev x 1) n) 0) 1) s x Hx) as Hx1.
    rewrite (kM_bind_run _ _ _ _ _ (lock_buf_run me b _ _ Hx1 El)), kM_ret_run, upd_upd.
    pose proof (upd_lookup b (fun x => with_lock (with_refcnt (with_flags (with_blockno (with_dev x 1) n) 0) 1)
      (locked_by me)) s x Hx) as Hx2.
    rewrite (kM_bind_run _ _ _ _ _ (getb_run _ _ _ Hx2)). cbn [flags with_lock with_refcnt with_flags].
    change (Z.land 0 B_VALID =? 0) with true. cbn iota.
    unfold iderw at 1. unfold mbind at 1, kM_bind at 1.
    rewrite (kM_bind_run _ _ _ _ _ (getb_run _ _ _ Hx2)). erewrite kM_bind_run by reflexivity. simpl.
    unfold holdingsleep. simpl. rewrite Z.eqb_refl. simpl.
    destruct (Z.leb_spec s.(disksize) n); [lia|].
    erewrite kM_bind_run by reflexivity. unfold setb, kmodify. cbn iota beta.
    rewrite kM_ret_run, !upd_upd. done.
Qed.

(** ** Steps that change one buffer *)

(** Changing fields of buffer [b] other than its links. *)
Lemma ring_upd s order b f :
  ring s.(bufs) order -> (forall x, (f x).(next) = x.(next) /\ (f x).(prev) = x.(prev)) ->
  ring (upd_buf b f s).(bufs) order.
Proof.
  intros [R1 R2 R3 R4] Hf. split; try done; simpl; [|by rewrite length_alter].
  eapply seg_frame; [..|exact R1]; intros i _; unfold nxt, prv; rewrite list_lookup_alter;
    (case_decide; [subst|done]); destruct (s.(bufs) !! i) as [x|]; simpl; try done; f_equal; apply Hf.
Qed.

Lemma binv_upd s order b f x :
  binv s order -> (forall x, (f x).(next) = x.(next) /\ (f x).(prev) = x.(prev)) ->
  s.(bufs) !! b = Some x -> (b < NBUF)%nat -> buf_ok s (f x) ->
  ((f x).(dev) = 1 -> forall i y, i <> b -> ~ cached s (f x).(blockno) i y) ->
  binv (upd_buf b f s) order.
Proof.
  intros B Hf Hx Hb Hok Hu. split.
  - apply ring_upd; [apply B|done].
  - assert (Hback : forall n i y, cached (upd_buf b f s) n i y ->
              i = b /\ y = f x /\ (f x).(dev) = 1 /\ (f x).(blockno) = n \/ i <> b /\ cached s n i y).
    { intros n i y (Hy & Hi & Hd & Hn). destruct (decide (i = b)) as [->|Hne].
      - rewrite (upd_lookup b f s x Hx) in Hy. injection Hy as <-. by left.
      - rewrite upd_lookup_ne in Hy by done. right. by split_and!. }
    intros n i j y z [(-> & -> & Hd & Hn)|[Hi Hy]]%Hback [(-> & -> & Hd2 & Hn2)|[Hj Hz]]%Hback; try done.
    + subst n. by destruct (Hu Hd j z Hj).
    + subst n. by destruct (Hu Hd2 i y Hi).
    + by eapply (bi_uniq _ _ B n).
  - intros i y Hi Hy. destruct (decide (i = b)) as [->|Hne].
    + rewrite (upd_lookup b f s x Hx) in Hy. by injection Hy as <-.
    + rewrite upd_lookup_ne in Hy by done. by apply (bi_buf _ _ B i y Hi).
Qed.

Lemma bread_inv me s order n b s' :
  binv s order -> 0 <= n < s.(disksize) -> bread me 1 n s = Ok (b, s') ->
  (forall i x, s.(bufs) !! i = Some x -> x.(refcnt) < 2 ^ 32 - 1) -> binv s' order.
Proof.
  intros B Hn H Hrc. rewrite (bread_run me s order n B Hn) in H.
  pose proof (find_matches s order n B) as Hm. destruct (List.find (matches s 1 n) order) as [b0|].
  - destruct Hm as (x & Hx & Hb & Hd & Hbn). rewrite Hx in H. simpl in H.
    destruct (x.(lock).(sl_locked)) eqn:El; [done|]. injection H as <- <-.
    destruct (bi_buf _ _ B b0 x Hb Hx) as (H1 & H2 & H3 & H4). specialize (Hrc b0 x Hx).
    eapply binv_upd; try done.
    + unfold buf_ok. simpl. rewrite u32_small by (unfold is_u32; lia).
      split_and!; try lia; try done.
    + intros _ i y Hi Hy. apply Hi. simpl in Hy. by eapply (bi_uniq _ _ B _ _ _ y x).
  - destruct (List.find (recyclable s) (rev order)) as [b0|] eqn:Hr; [|done]. injection H as <- <-.
    apply find_some in Hr as [Hin Hr]. rewrite <- in_rev, <- list_elem_of_In, (ring_all _ _ (bi_ring _ _ B)) in Hin.
    unfold recyclable in Hr. destruct (s.(bufs) !! b0) as [x|] eqn:Hx; [|done].
    eapply binv_upd; try done.
    + unfold buf_ok. simpl. split_and!; try lia; try done. right. split_and!; try done; try lia. by left.
Qed.

(** *** bwrite *)

Lemma bwrite_run me s order b x :
  binv s order -> s.(bufs) !! b = Some x -> (b < NBUF)%nat -> x.(lock) = locked_by me -> x.(dev) = 1 ->
  bwrite me b s = Ok (tt,
    mk_bio (alter (fun x => with_flags x B_VALID) b s.(bufs)) (dupd s.(disk) x.(blockno) x.(data))
      s.(disksize) (s.(writes) ++ [(x.(blockno), x.(data))])).
Proof.
  intros B Hx Hb Hl Hd. destruct (bi_buf _ _ B b x Hb Hx) as (_ & _ & H3 & _).
  destruct H3 as [(? & _)|(_ & Hn & Hfl)]; [congruence|].
  unfold bwrite. rewrite (kM_bind_run _ _ _ _ _ (getb_run s b x Hx)).
  assert (Hh : holdingsleep me x.(lock) = true) by (rewrite Hl; unfold holdingsleep; simpl; apply Z.eqb_refl).
  rewrite Hh. simpl. erewrite kM_bind_run by reflexivity.
  pose proof (upd_lookup b (fun x => with_flags x (Z.lor x.(flags) B_DIRTY)) s x Hx) as Hx1.
  unfold iderw. rewrite (kM_bind_run _ _ _ _ _ (getb_run _ _ _ Hx1)).
  erewrite kM_bind_run by reflexivity. simpl. rewrite Hh, Hd. simpl.
  assert (E6 : Z.lor x.(flags) B_DIRTY = 6) by (destruct Hfl as [-> | ->]; done). rewrite E6. simpl.
  destruct (Z.leb_spec s.(disksize) x.(blockno)); [lia|].
  erewrite kM_bind_run by reflexivity. unfold setb, kmodify, upd_buf. simpl.
  rewrite !list_alter_alter_eq. do 3 f_equal. apply list_alter_ext; [|done].
  intros y Hy. assert (y = x) as -> by congruence. simpl. unfold with_flags. simpl. by rewrite E6.
Qed.

Lemma dupd_eq d n v : dupd d n v n = v.
Proof. unfold dupd. by rewrite Z.eqb_refl. Qed.

Lemma dupd_ne d n v m : m <> n -> dupd d n v m = d m.
Proof. intros H. unfold dupd. by destruct (Z.eqb_spec m n). Qed.

Lemma bwrite_inv s order b x :
  binv s order -> s.(bufs) !! b = Some x -> (b < NBUF)%nat -> x.(lock).(sl_locked) = true -> x.(dev) = 1 ->
  binv (mk_bio (alter (fun x => with_flags x B_VALID) b s.(bufs)) (dupd s.(disk) x.(blockno) x.(data))
      s.(disksize) (s.(writes) ++ [(x.(blockno), x.(data))])) order.
Proof.
  intros B Hx Hb Hl Hd. set (s' := mk_bio _ _ _ _).
  destruct (bi_buf _ _ B b x Hb Hx) as (H1 & H2 & H3 & _).
  assert (Hback : forall n i y, cached s' n i y -> exists y0, cached s n i y0 /\ (i <> b -> y = y0) /\
            (i = b -> y = with_flags x B_VALID)).
  { intros n i y (Hy & Hi & Hyd & Hyn). simpl in Hy. destruct (decide (i = b)) as [->|Hne].
    - rewrite list_lookup_alter_eq, Hx in Hy. injection Hy as <-. exists x. by split_and!.
    - rewrite list_lookup_alter_ne in Hy by done. exists y. by split_and!. }
  split.
  - apply (ring_upd s order b (fun x => with_flags x B_VALID)); [apply B|done].
  - intros n i j y z (y0 & Hy & _)%Hback (z0 & Hz & _)%Hback. by eapply (bi_uniq _ _ B n).
  - intros i y Hi Hy. simpl in Hy. destruct (decide (i = b)) as [->|Hne].
    + rewrite list_lookup_alter_eq, Hx in Hy. injection Hy as <-. unfold buf_ok. simpl.
      split_and!; try done. { right. destruct H3 as [(? & _)|(_ & ? & _)]; [congruence|]. split_and!; try done; try lia. by left. }
      intros _ El. congruence.
    + rewrite list_lookup_alter_ne in Hy by done. destruct (bi_buf _ _ B i y Hi Hy) as (G1 & G2 & G3 & G4).
      unfold buf_ok. simpl. split_and!; try done. intros Ef El. rewrite dupd_ne; [by apply G4|].
      intros En. apply Hne. destruct G3 as [(_ & ? & _)|(Gd & _)]; [congruence|].
      eapply (bi_uniq _ _ B x.(blockno) i b y x); by split_and!.
Qed.

(** *** brelse *)

Lemma strip_fields x y : strip x = strip y ->
  x.(flags) = y.(flags) /\ x.(dev) = y.(dev) /\ x.(blockno) = y.(blockno) /\ x.(lock) = y.(lock) /\
  x.(refcnt) = y.(refcnt) /\ x.(data) = y.(data).
Proof. destruct x, y. unfold strip. simpl. intros H. injection H as -> -> -> -> -> ->. done. Qed.

Lemma binv_strip s order bs' order' :
  binv s order -> ring bs' order' -> strip <$> bs' = strip <$> s.(bufs) ->
  binv (mk_bio bs' s.(disk) s.(disksize) s.(writes)) order'.
Proof.
  intros B R E. split; [done| |].
  - assert (Hback : forall n i y, cached (mk_bio bs' s.(disk) s.(disksize) s.(writes)) n i y ->
              exists y0, cached s n i y0).
    { intros n i y (Hy & Hi & Hd & Hn). destruct (strip_lookup _ _ i y E Hy) as (y0 & Hy0 & Es).
      apply strip_fields in Es as (_ & E1 & E2 & _). exists y0. split_and!; try done; congruence. }
    intros n i j y z (y0 & Hy)%Hback (z0 & Hz)%Hback. by eapply (bi_uniq _ _ B n).
  - intros i y Hi Hy. destruct (strip_lookup _ _ i y E Hy) as (y0 & Hy0 & Es).
    apply strip_fields in Es as (E1 & E2 & E3 & E4 & E5 & E6).
    destruct (bi_buf _ _ B i y0 Hi Hy0) as (G1 & G2 & G3 & G4). unfold buf_ok. simpl.
    rewrite E1, E2, E3, E4, E5, E6. done.
Qed.

(** Move to front. *)
Lemma brelse_move_run s order b :
  ring s.(bufs) order -> b ∈ order ->
  exists bs' l1 l2, brelse_move b s = Ok (tt, mk_bio bs' s.(disk) s.(disksize) s.(writes)) /\
    ring bs' (b :: l1 ++ l2) /\ order = l1 ++ b :: l2 /\ strip <$> bs' = strip <$> s.(bufs).
Proof.
  intros R Hb. apply list_elem_of_split in Hb as (l1 & l2 & ->).
  pose proof (ring_not_head _ _ R) as Hh. pose proof (ring_nodup _ _ R) as Hnd.
  destruct (proj1 (seg_app _ _ _ _ _ _) (ring_seg _ _ R)) as [S1 S2].
  set (p := last_of bhead l1). set (n := first_of l2 bhead).
  assert (Hp : prv s.(bufs) b = Some p) by (by apply seg_last).
  assert (Hn : nxt s.(bufs) b = Some n) by (by apply seg_first).
  unfold prv, nxt in *. apply fmap_Some in Hp as (x & Hx & Hp), Hn as (x' & Hx' & Hn).
  assert (x' = x) as -> by congruence.
  assert (Hbh : b <> bhead) by (intros ->; apply Hh, elem_of_app; right; by left).
  assert (Hbn : n <> b).
  { unfold n, first_of. destruct l2 as [|y l2]; simpl; [done|]. intros ->.
    apply NoDup_app in Hnd as (_ & _ & Hnd). apply NoDup_cons in Hnd as [Hnd _]. apply Hnd. by left. }
  pose proof (seg_unlink s.(bufs) bhead l1 b l2 bhead S1 S2 Hnd Hh Hh) as SU. fold p n in SU.
  set (bs2 := unlink p n s.(bufs)) in *.
  assert (Hnd' : NoDup (l1 ++ l2) /\ b ∉ l1 ++ l2).
  { rewrite <- Permutation_middle in Hnd. by apply NoDup_cons in Hnd as [? ?]. }
  assert (Hh' : bhead ∉ l1 ++ l2).
  { intros Hin. apply Hh. apply elem_of_app in Hin as [?|?]; apply elem_of_app; [by left|right; by right]. }
  pose proof (ring_len _ _ R) as Hlen.
  assert (Hbl : (b < length bs2)%nat) by (unfold bs2; rewrite length_unlink; by eapply lookup_lt_Some).
  pose proof (seg_link bs2 bhead (l1 ++ l2) b SU (proj1 Hnd') Hh' (proj2 Hnd') Hbh Hbl) as SL.
  set (f := first_of (l1 ++ l2) bhead) in *.
  exists (link bhead b f bs2), l1, l2. split; [|split; [|split]].
  - assert (Hnh : nxt bs2 bhead = Some f) by (by apply seg_first in SU).
    unfold nxt in Hnh. apply fmap_Some in Hnh as (h & Hhh & Hf).
    unfold brelse_move. rewrite (kM_bind_run _ _ _ _ _ (getb_run s b x Hx)), <- Hn, <- Hp.
    erewrite kM_bind_run by reflexivity.
    assert (Hx1 : (upd_buf n (fun y => with_prev y p) s).(bufs) !! b = Some x) by (by rewrite upd_lookup_ne).
    rewrite (kM_bind_run _ _ _ _ _ (getb_run _ _ _ Hx1)), <- Hn, <- Hp.
    erewrite kM_bind_run by reflexivity.
    assert (Hh1 : (upd_buf p (fun y => with_next y n) (upd_buf n (fun y => with_prev y p) s)).(bufs) !! bhead = Some h)
      by exact Hhh.
    rewrite (kM_bind_run _ _ _ _ _ (getb_run _ _ _ Hh1)), <- Hf.
    do 2 (erewrite kM_bind_run by reflexivity).
    match goal with |- (getb bhead ≫= _) ?st = _ =>
      assert (Hh2 : st.(bufs) !! bhead = Some h) by (rewrite 2 upd_lookup_ne by done; exact Hh1) end.
    rewrite (kM_bind_run _ _ _ _ _ (getb_run _ _ _ Hh2)), <- Hf.
    by erewrite kM_bind_run by reflexivity.
  - split; [done|apply NoDup_cons; tauto| |by rewrite length_link; unfold bs2; rewrite length_unlink].
    intros i. rewrite <- (ring_all _ _ R). rewrite elem_of_cons, !elem_of_app, elem_of_cons. tauto.
  - done.
  - rewrite strip_link. apply strip_unlink.
Qed.

Definition released (x : buf) : buf :=
  with_refcnt (with_lock x (releasesleep x.(lock))) (u32 (x.(refcnt) - 1)).

(** Dropping a reference; the last one moves the buffer to the front. *)
Lemma brelse_run me s order b x :
  binv s order -> s.(bufs) !! b = Some x -> (b < NBUF)%nat -> x.(lock) = locked_by me ->
  0 < x.(refcnt) < 2 ^ 32 -> (x.(flags) = 2 -> x.(data) = s.(disk) x.(blockno)) ->
  exists s' order', brelse me b s = Ok (tt, s') /\ binv s' order' /\
    s'.(disk) = s.(disk) /\ s'.(disksize) = s.(disksize) /\ s'.(writes) = s.(writes) /\
    strip <$> s'.(bufs) = strip <$> alter released b s.(bufs) /\
    (exists l1 l2, order = l1 ++ b :: l2 /\ order' = if x.(refcnt) =? 1 then b :: l1 ++ l2 else order).
Proof.
  intros B Hx Hb Hl Hr Hclean. destruct (bi_buf _ _ B b x Hb Hx) as (H1 & H2 & H3 & H4).
  assert (Hdev : x.(dev) = 1) by (destruct H3 as [(_ & _ & ?)|(? & _)]; [lia|done]).
  assert (Bu : binv (upd_buf b released s) order).
  { eapply binv_upd; try done.
    - unfold buf_ok. simpl. rewrite u32_small by (unfold is_u32; lia). split_and!; try lia; try done.
      intros Ef _. by apply Hclean.
    - intros _ i y Hi Hy. apply Hi. simpl in Hy. eapply (bi_uniq _ _ B x.(blockno) i b y x); [exact Hy|by split_and!]. }
  unfold brelse. rewrite (kM_bind_run _ _ _ _ _ (getb_run s b x Hx)).
  assert (Hh : holdingsleep me x.(lock) = true) by (rewrite Hl; unfold holdingsleep; simpl; apply Z.eqb_refl).
  rewrite Hh. simpl. do 2 (erewrite kM_bind_run by reflexivity). rewrite upd_upd.
  pose proof (upd_lookup b released s x Hx) as Hx1.
  change (fun x0 : buf => with_refcnt (with_lock x0 (releasesleep (lock x0)))
    (u32 (refcnt (with_lock x0 (releasesleep (lock x0))) - 1))) with released.
  rewrite (kM_bind_run _ _ _ _ _ (getb_run _ _ _ Hx1)). simpl.
  rewrite u32_small by (unfold is_u32; lia).
  destruct (Z.eqb_spec x.(refcnt) 1) as [E|E].
  - rewrite E. simpl.
    destruct (brelse_move_run (upd_buf b released s) order b (bi_ring _ _ Bu)) as (bs' & l1 & l2 & Hrun & R' & Hp & Es).
    { by apply (ring_all _ _ (bi_ring _ _ B)). }
    eexists _, _. split; [exact Hrun|]. split; [by eapply (binv_strip (upd_buf b released s))|].
    split_and!; try done. eauto.
  - destruct (Z.eqb_spec (x.(refcnt) - 1) 0); [lia|].
    exists (upd_buf b released s), order. split_and!; try done.
    assert (Hin : b ∈ order) by (by apply (ring_all _ _ (bi_ring _ _ B))).
    apply list_elem_of_split in Hin as (l1 & l2 & ->). eauto.
Qed.
