(* ===== verification/BioView.v ===== *)
(** * The buffer cache as one client sees it

    The client [me] holds the buffers [H] and nobody else holds any.  Each
    operation is described by what it does to the contents of the blocks
    ([vw]), to the disk, to the set of dirty blocks and to [H]; the log is
    verified against these descriptions. *)

From S2P Require Import Prelude Locks Bio BioSpec.

(** Buffers kept from recycling because they differ from the disk. *)
Definition dirtyb (s : bio) (i : nat) : bool :=
  match s.(bufs) !! i with Some x => negb (Z.land x.(flags) B_DIRTY =? 0) | None => false end.

Definition ndirty (s : bio) : nat := length (List.filter (dirtyb s) (seq 0 NBUF)).

Definition dirtyn (s : bio) (n : Z) : Prop := exists i x, cached s n i x /\ x.(flags) = 6.

Section View.
Variable me : Z.

Definition holds (s : bio) (H : list nat) : Prop :=
  forall i x, (i < NBUF)%nat -> s.(bufs) !! i = Some x ->
    (i ∈ H -> x.(refcnt) = 1 /\ x.(lock) = locked_by me) /\
    (i ∉ H -> x.(refcnt) = 0 /\ x.(lock).(sl_locked) = false).

(** The client's state. *)
Record client (s : bio) (order : list nat) (H : list nat) : Prop := {
  cl_inv : binv s order;
  cl_holds : holds s H;
  cl_nodup : NoDup H;
  cl_lt : forall i, i ∈ H -> (i < NBUF)%nat
}.

Lemma pigeon n (H F : list nat) :
  (forall i, (i < n)%nat -> i ∈ H \/ i ∈ F) -> (n <= length H + length F)%nat.
Proof.
  intros Hall. assert (Hsub : seq 0 n ⊆+ H ++ F).
  { apply NoDup_submseteq; [apply NoDup_seq|]. intros i Hi. apply elem_of_seq in Hi.
    apply elem_of_app, Hall. lia. }
  apply submseteq_length in Hsub. by rewrite length_app, length_seq in Hsub.
Qed.

(** Some buffer is neither held nor dirty. *)
Lemma recyclable_exists s order H :
  client s order H -> (length H + ndirty s < NBUF)%nat ->
  exists b, List.find (recyclable s) (rev order) = Some b.
Proof.
  intros [B Hh Hnd Hlt] Hc. pose proof (bi_ring _ _ B) as R.
  destruct (List.find (recyclable s) (rev order)) as [b|] eqn:E; [eauto|]. exfalso.
  assert (Hall : forall i, (i < NBUF)%nat -> i ∈ H \/ dirtyb s i = true).
  { intros i Hi. assert (Hin : In i (rev order)).
    { rewrite <- in_rev, <- list_elem_of_In. by apply (ring_all _ _ R). }
    pose proof (find_none _ _ E i Hin) as Hr. unfold recyclable in Hr.
    destruct (lookup_lt_is_Some_2 s.(bufs) i) as [x Hx]; [rewrite (ring_len _ _ R); lia|].
    destruct (decide (i ∈ H)) as [|Hni]; [by left|right]. unfold dirtyb. rewrite Hx in *.
    destruct (Hh i x Hi Hx) as [_ Hf]. destruct (Hf Hni) as [Hrc _]. rewrite Hrc in Hr. simpl in Hr.
    by rewrite Hr. }
  apply (Nat.lt_irrefl NBUF). eapply Nat.le_lt_trans; [|exact Hc]. apply pigeon.
  intros i Hi. destruct (Hall i Hi) as [|Hd]; [by left|right].
  rewrite list_elem_of_In, filter_In, <- list_elem_of_In, elem_of_seq. split; [lia|done].
Qed.

Lemma vw_same s s' order order' :
  binv s order -> binv s' order' -> s'.(disk) = s.(disk) ->
  (forall m i x, cached s m i x -> (exists j y, cached s' m j y /\ y.(data) = x.(data)) \/
     (forall j y, ~ cached s' m j y) /\ x.(data) = s.(disk) m) ->
  (forall m j y, cached s' m j y -> (exists i x, cached s m i x) \/ y.(data) = s.(disk) m) ->
  forall m, vw s' m = vw s m.
Proof.
  intros B B' Hd H1 H2 m. pose proof (find_matches s order m B) as Hm.
  destruct (List.find (matches s 1 m) order) as [i|].
  - destruct Hm as (x & Hx). rewrite (vw_cached s order m i x B Hx).
    destruct (H1 m i x Hx) as [(j & y & Hy & E)|[Hno E]].
    + by rewrite (vw_cached s' order' m j y B' Hy).
    + by rewrite (vw_uncached s' m Hno), Hd, E.
  - rewrite (vw_uncached s m Hm). pose proof (find_matches s' order' m B') as Hm'.
    destruct (List.find (matches s' 1 m) order') as [j|].
    + destruct Hm' as (y & Hy). rewrite (vw_cached s' order' m j y B' Hy).
      destruct (H2 m j y Hy) as [(i & x & Hx)|E]; [by destruct (Hm i x)|done].
    + by rewrite (vw_uncached s' m Hm'), Hd.
Qed.

(** *** Reading *)

(** Buffer [b], until now [x], is made by [f] to hold block [n] with its
    current contents: it was the cached copy, or else a clean buffer. *)
Record turned (s : bio) (order : list nat) (b : nat) (x : buf) (f : buf -> buf) (n : Z) : Prop := {
  tu_inv : binv s order;
  tu_inv' : binv (upd_buf b f s) order;
  tu_x : s.(bufs) !! b = Some x /\ (b < NBUF)%nat;
  tu_y : (f x).(dev) = 1 /\ (f x).(blockno) = n /\ (f x).(data) = vw s n;
  tu_old : cached s n b x /\ (f x).(flags) = x.(flags) \/
    (forall i y, ~ cached s n i y) /\ (f x).(flags) = 2 /\ Z.land x.(flags) B_DIRTY = 0 /\
    (x.(dev) = 1 -> x.(data) = s.(disk) x.(blockno))
}.

Section Turned.
Context (s : bio) (order : list nat) (b : nat) (x : buf) (f : buf -> buf) (n : Z).
Hypothesis T : turned s order b x f n.

Lemma turned_at : (upd_buf b f s).(bufs) !! b = Some (f x).
Proof. apply upd_lookup, T. Qed.

Lemma turned_cached m i y :
  cached (upd_buf b f s) m i y <-> (i <> b /\ cached s m i y \/ i = b /\ y = f x /\ m = n).
Proof.
  destruct T as [_ _ [_ Hb] (Hd & Hn & _) _]. unfold cached. destruct (decide (i = b)) as [->|Hne].
  - rewrite turned_at. split.
    + intros (E & _ & _ & Em). injection E as <-. right. split_and!; congruence.
    + intros [[? _]|(_ & -> & ->)]; [done|]. by split_and!.
  - rewrite upd_lookup_ne by done. split; [by left|]. intros [[_ ?]|[? _]]; done.
Qed.

Lemma turned_vw m : vw (upd_buf b f s) m = vw s m.
Proof.
  destruct T as [B B' [Hx Hb] (Hd & Hn & Hdat) Hold]. revert m. apply (vw_same s _ order order B B'); [done|..].
  - intros m i y Hy. destruct (decide (i = b)) as [->|Hne]; [|left; exists i, y; split; [apply turned_cached; by left|done]].
    assert (y = x) as -> by (destruct Hy; congruence). destruct Hold as [[Hc _]|(Hno & _ & _ & Hcl)].
    + assert (m = n) as -> by (destruct Hy as (_ & _ & _ & <-), Hc as (_ & _ & _ & <-); done).
      left. exists b, (f x). split; [apply turned_cached; by right|]. by rewrite Hdat, (vw_cached s order n b x B Hc).
    + right. split.
      * intros j z Hz. apply turned_cached in Hz as [[Hj Hz]|(_ & _ & ->)]; [|by apply (Hno b x)].
        apply Hj. by apply (bi_uniq _ _ B m j b z x).
      * destruct Hy as (_ & _ & Hyd & <-). by apply Hcl.
  - intros m i y Hy. apply turned_cached in Hy as [[_ Hy]|(-> & -> & ->)]; [left; eauto|].
    destruct Hold as [[Hc _]|(Hno & _)]; [left; eauto|right]. by rewrite Hdat, (vw_uncached s n Hno).
Qed.

Lemma turned_dirtyn m : dirtyn (upd_buf b f s) m <-> dirtyn s m.
Proof.
  destruct T as [B _ [Hx Hb] _ Hold]. unfold dirtyn. split; intros (i & y & Hy & Hf).
  - apply turned_cached in Hy as [[_ Hy]|(-> & -> & ->)]; [eauto|].
    destruct Hold as [[Hc E]|(_ & E & _)]; [exists b, x; split; congruence|congruence].
  - destruct (decide (i = b)) as [->|Hne]; [|exists i, y; split; [apply turned_cached; by left|done]].
    assert (y = x) as -> by (destruct Hy; congruence). destruct Hold as [[Hc E]|(_ & _ & E & _)]; [|by rewrite Hf in E].
    exists b, (f x). split; [|congruence]. apply turned_cached. right. split_and!; [done..|].
    destruct Hy as (_ & _ & _ & <-), Hc as (_ & _ & _ & <-). done.
Qed.

Lemma turned_ndirty : ndirty (upd_buf b f s) = ndirty s.
Proof.
  destruct T as [_ _ [Hx Hb] _ Hold]. unfold ndirty. f_equal. apply List.filter_ext. intros i. unfold dirtyb.
  destruct (decide (i = b)) as [->|Hne]; [|by rewrite upd_lookup_ne]. rewrite turned_at, Hx.
  destruct Hold as [[_ ->]|(_ & -> & -> & _)]; done.
Qed.

Lemma turned_client H : client s order H -> b ∉ H -> (f x).(refcnt) = 1 -> (f x).(lock) = locked_by me ->
  client (upd_buf b f s) order (b :: H).
Proof.
  intros [B Hh Hnd Hlt] HbH Hr Hl. split; [apply T| |by constructor|].
  - intros i y Hi Hy. destruct (decide (i = b)) as [->|Hne].
    + rewrite turned_at in Hy. injection Hy as <-. split; [done|]. intros Hn'. destruct Hn'. by left.
    + rewrite upd_lookup_ne in Hy by done. destruct (Hh i y Hi Hy) as [F1 F2].
      split; intros Hin; [apply F1; by apply elem_of_cons in Hin as [?|?]|apply F2]. intros Hin'. apply Hin. by right.
  - intros i [->|Hi]%elem_of_cons; [exact (proj2 (tu_x _ _ _ _ _ _ T))|by apply Hlt].
Qed.

End Turned.

(** A read that finds the block. *)
Lemma turned_hit s order n b x :
  binv s order -> cached s n b x -> x.(lock).(sl_locked) = false -> x.(refcnt) < 2 ^ 32 - 1 ->
  turned s order b x (taken_buf me) n.
Proof.
  intros B Hc Hl Hr. pose proof Hc as (Hx & Hb & Hd & Hn). destruct (bi_buf _ _ B b x Hb Hx) as (G1 & _ & G3 & G4).
  split; [done| |done| |by left].
  - eapply binv_upd; try done.
    + unfold buf_ok. simpl. rewrite u32_small by (unfold is_u32; lia). split_and!; try lia; try done.
    + intros _ i y Hi Hy. apply Hi. simpl in Hy. rewrite Hn in Hy. by apply (bi_uniq _ _ B n i b y x).
  - split_and!; try done. symmetry. by apply (vw_cached s order n b x B).
Qed.

(** A read that recycles a buffer. *)
Lemma turned_miss s order n b :
  binv s order -> 0 <= n < s.(disksize) -> (forall i y, ~ cached s n i y) ->
  List.find (recyclable s) (rev order) = Some b ->
  exists x, turned s order b x (fresh_buf me n (s.(disk) n)) n /\ x.(refcnt) = 0.
Proof.
  intros B Hn Hm Hr. apply find_some in Hr as [Hb Hr].
  rewrite <- in_rev, <- list_elem_of_In, (ring_all _ _ (bi_ring _ _ B)) in Hb.
  unfold recyclable in Hr. destruct (s.(bufs) !! b) as [x|] eqn:Hx; [|done].
  apply andb_true_iff in Hr as [Hr0%Z.eqb_eq Hr1%Z.eqb_eq]. destruct (bi_buf _ _ B b x Hb Hx) as (_ & G2 & G3 & G4).
  assert (Hlk : x.(lock).(sl_locked) = false) by (destruct (x.(lock).(sl_locked)); [lia|done]).
  exists x. split; [|done]. split; [done| |done| |right; split_and!; try done].
  - eapply binv_upd; try done. unfold buf_ok. simpl. split_and!; try lia; try done.
    right. split_and!; try done; try lia. by left.
  - split_and!; try done. simpl. by rewrite (vw_uncached s n Hm).
  - intros Hd1. apply G4; [|done]. destruct G3 as [(? & _)|(_ & _ & [?|E6])]; [congruence|done|]. by rewrite E6 in Hr1.
Qed.

Lemma bread_turned s order H n :
  client s order H -> 0 <= n < s.(disksize) -> (forall i x, cached s n i x -> i ∉ H) ->
  (exists i x, cached s n i x) \/ (length H + ndirty s < NBUF)%nat ->
  exists b x f, bread me 1 n s = Ok (b, upd_buf b f s) /\ turned s order b x f n /\ (b ∉ H) /\
    (f x).(refcnt) = 1 /\ (f x).(lock) = locked_by me /\ ((f x).(flags) = 2 -> (f x).(data) = s.(disk) n).
Proof.
  intros Cl Hn HnH Hav. pose proof Cl as [B Hh _ _].
  pose proof (bread_run me s order n B Hn) as Hrun. pose proof (find_matches s order n B) as Hm.
  destruct (List.find (matches s 1 n) order) as [b|].
  - destruct Hm as (x & Hc). pose proof Hc as (Hx & Hb & _ & Hxn). pose proof (HnH b x Hc) as HbH.
    destruct (Hh b x Hb Hx) as [_ Hfree]. destruct (Hfree HbH) as [Hr0 Hl0]. rewrite Hx in Hrun. simpl in Hrun. rewrite Hl0 in Hrun.
    destruct (bi_buf _ _ B b x Hb Hx) as (_ & _ & _ & G4).
    exists b, x, (taken_buf me). split; [done|]. split; [apply turned_hit; done || lia|]. split; [done|]. unfold taken_buf. rewrite Hr0.
    split; [done|]. split; [done|]. simpl. intros Hf. rewrite <- Hxn. by apply G4.
  - destruct Hav as [(i & x & Hx)|Hav]; [by destruct (Hm i x)|].
    destruct (recyclable_exists s order H Cl Hav) as [b Hr]. rewrite Hr in Hrun.
    destruct (turned_miss s order n b B Hn Hm Hr) as (x & T & Hr0). exists b, x, (fresh_buf me n (s.(disk) n)).
    split; [done|]. split; [done|]. split; [|done]. intros Hin. destruct (tu_x _ _ _ _ _ _ T) as [Hx Hb]. destruct (Hh b x Hb Hx) as [F _].
    destruct (F Hin). lia.
Qed.

(** What a read by the client does. *)
Lemma bread_client s order H n :
  client s order H -> 0 <= n < s.(disksize) -> (forall i x, cached s n i x -> i ∉ H) ->
  (exists i x, cached s n i x) \/ (length H + ndirty s < NBUF)%nat ->
  exists b s' x, bread me 1 n s = Ok (b, s') /\ client s' order (b :: H) /\ (b ∉ H) /\
    cached s' n b x /\ x.(data) = vw s n /\
    s'.(disk) = s.(disk) /\ s'.(disksize) = s.(disksize) /\ s'.(writes) = s.(writes) /\
    (forall m, vw s' m = vw s m) /\ (forall m, dirtyn s' m <-> dirtyn s m) /\ ndirty s' = ndirty s /\
    (forall i, i <> b -> s'.(bufs) !! i = s.(bufs) !! i) /\
    (x.(flags) = 2 -> x.(data) = s.(disk) n).
Proof.
  intros Cl Hn HnH Hav. destruct (bread_turned s order H n Cl Hn HnH Hav) as (b & x & f & R & T & HbH & Hr & Hl & Hf).
  exists b, (upd_buf b f s), (f x). split_and!; try done.
  - by apply (turned_client s order b x f n).
  - apply (turned_cached s order b x f n T). by right.
  - apply T.
  - apply (turned_vw s order b x f n T).
  - apply (turned_dirtyn s order b x f n T).
  - apply (turned_ndirty s order b x f n T).
  - intros i Hi. by apply upd_lookup_ne.
Qed.

(** *** Changing, writing and releasing a held buffer *)

Lemma held s order H b x : client s order H -> b ∈ H -> s.(bufs) !! b = Some x ->
  (b < NBUF)%nat /\ x.(refcnt) = 1 /\ x.(lock) = locked_by me /\ x.(dev) = 1.
Proof.
  intros [B Hh _ Hlt] Hb Hx. pose proof (Hlt b Hb) as Hbn. destruct (Hh b x Hbn Hx) as [F _].
  destruct (F Hb) as [Hr Hl]. destruct (bi_buf _ _ B b x Hbn Hx) as (_ & _ & G3 & _).
  split_and!; try done. destruct G3 as [(_ & _ & ?)|(? & _)]; [lia|done].
Qed.

(** A held buffer's data, or its dirty flag, may change at will. *)
Lemma client_upd s order H b x f :
  client s order H -> b ∈ H -> s.(bufs) !! b = Some x ->
  (forall y, (f y).(next) = y.(next) /\ (f y).(prev) = y.(prev) /\ (f y).(dev) = y.(dev) /\
     (f y).(blockno) = y.(blockno) /\ (f y).(lock) = y.(lock) /\ (f y).(refcnt) = y.(refcnt)) ->
  (f x).(flags) = 2 \/ (f x).(flags) = 6 ->
  client (upd_buf b f s) order H /\ cached (upd_buf b f s) x.(blockno) b (f x) /\
  (forall m, m <> x.(blockno) -> vw (upd_buf b f s) m = vw s m) /\
  (forall m, m <> x.(blockno) -> dirtyn (upd_buf b f s) m <-> dirtyn s m) /\
  (forall i, i <> b -> (upd_buf b f s).(bufs) !! i = s.(bufs) !! i).
Proof.
  intros Cl Hb Hx Hf Hfl. pose proof Cl as [B Hh Hnd Hlt].
  destruct (held s order H b x Cl Hb Hx) as (Hbn & Hr & Hl & Hd).
  destruct (Hf x) as (Fn & Fp & Fd & Fb & Fl & Fr).
  destruct (bi_buf _ _ B b x Hbn Hx) as (G1 & G2 & G3 & _).
  assert (B' : binv (upd_buf b f s) order).
  { eapply binv_upd; try done.
    - intros y. by destruct (Hf y) as (? & ? & _).
    - unfold buf_ok. rewrite Fl, Fr, Fd, Fb, Hl. simpl. split_and!; try lia; try done.
    - intros _ i y Hi Hy. apply Hi. rewrite Fb in Hy.
      eapply (bi_uniq _ _ B x.(blockno) i b y x); [exact Hy|by split_and!]. }
  pose proof (upd_lookup b f s x Hx) as Hb'.
  assert (Hck : forall m i y, m <> x.(blockno) -> cached (upd_buf b f s) m i y <-> cached s m i y).
  { intros m i y Hm. unfold cached. destruct (decide (i = b)) as [->|Hne]; [|by rewrite upd_lookup_ne].
    rewrite Hb'. split; intros (E & _ & _ & E2).
    - injection E as <-. congruence.
    - congruence. }
  split; [|split; [|split; [|split]]].
  - split; try done. intros i y Hi Hy. destruct (decide (i = b)) as [->|Hne].
    + rewrite Hb' in Hy. injection Hy as <-. by rewrite Fl, Fr.
    + rewrite upd_lookup_ne in Hy by done. by apply Hh.
  - split_and!; try done; congruence.
  - intros m Hm. pose proof (find_matches s order m B) as Hc.
    destruct (List.find (matches s 1 m) order) as [i|].
    + destruct Hc as (y & Hy). rewrite (vw_cached s order m i y B Hy).
      apply (vw_cached _ order m i y B'). by apply Hck.
    + rewrite (vw_uncached s m Hc). apply (vw_uncached (upd_buf b f s)). intros i y Hy.
      apply (Hc i y). by apply Hck.
  - intros m Hm. unfold dirtyn. setoid_rewrite Hck; [|done..]. done.
  - intros i Hi. by apply upd_lookup_ne.
Qed.

Lemma client_perm s order H H' : H ≡ₚ H' -> client s order H -> client s order H'.
Proof.
  intros Hp [B Hh Hnd Hlt]. split; [done| |by rewrite <- Hp|].
  - intros i x Hi Hx. rewrite <- Hp. by apply Hh.
  - intros i. rewrite <- Hp. apply Hlt.
Qed.

Lemma bwrite_client s order H b x :
  client s order H -> b ∈ H -> s.(bufs) !! b = Some x ->
  exists s', bwrite me b s = Ok (tt, s') /\ client s' order H /\
    s'.(bufs) !! b = Some (with_flags x B_VALID) /\
    s'.(disk) = dupd s.(disk) x.(blockno) x.(data) /\ s'.(disksize) = s.(disksize) /\
    s'.(writes) = s.(writes) ++ [(x.(blockno), x.(data))] /\
    (forall m, vw s' m = vw s m) /\ (forall m, dirtyn s' m <-> m <> x.(blockno) /\ dirtyn s m) /\
    (ndirty s' <= ndirty s)%nat /\ (forall i, i <> b -> s'.(bufs) !! i = s.(bufs) !! i).
Proof.
  intros Cl Hb Hx. pose proof Cl as [B Hh Hnd Hlt].
  destruct (held s order H b x Cl Hb Hx) as (Hbn & Hr & Hl & Hd).
  pose proof (bwrite_run me s order b x B Hx Hbn Hl Hd) as Hrun.
  assert (Hl' : x.(lock).(sl_locked) = true) by by rewrite Hl.
  pose proof (bwrite_inv s order b x B Hx Hbn Hl' Hd) as B'.
  set (s' := mk_bio _ _ _ _) in *.
  assert (Hb' : s'.(bufs) !! b = Some (with_flags x B_VALID)) by (simpl; by rewrite list_lookup_alter_eq, Hx).
  assert (Ho' : forall i, i <> b -> s'.(bufs) !! i = s.(bufs) !! i)
    by (intros i Hi; simpl; by rewrite list_lookup_alter_ne).
  assert (Hxc : cached s x.(blockno) b x) by by split_and!.
  assert (Hxc' : cached s' x.(blockno) b (with_flags x B_VALID)) by by split_and!.
  assert (Hck : forall m i y, i <> b -> cached s' m i y <-> cached s m i y).
  { intros m i y Hi. unfold cached. by rewrite Ho'. }
  assert (Hcb : forall m y, cached s m b y -> m = x.(blockno) /\ y = x).
  { intros m y (Hy & _ & _ & Hm). split; congruence. }
  assert (Hcb' : forall m y, cached s' m b y -> m = x.(blockno) /\ y = with_flags x B_VALID).
  { intros m y (Hy & _ & _ & Hm). rewrite Hb' in Hy. injection Hy as <-. by split. }
  exists s'. split; [done|]. split; [|split_and!; try done].
  - split; try done. intros i y Hi Hy. destruct (decide (i = b)) as [->|Hne].
    + rewrite Hb' in Hy. injection Hy as <-. simpl. by apply (Hh b x).
    + rewrite Ho' in Hy by done. by apply Hh.
  - intros m. pose proof (find_matches s order m B) as Hc.
    destruct (List.find (matches s 1 m) order) as [i|].
    + destruct Hc as (y & Hy). rewrite (vw_cached s order m i y B Hy).
      destruct (decide (i = b)) as [->|Hne].
      * apply Hcb in Hy as [-> ->]. by rewrite (vw_cached s' order _ b _ B' Hxc').
      * rewrite (vw_cached s' order m i y B'); [done|]. by apply Hck.
    + rewrite (vw_uncached s m Hc).
      assert (Hm : m <> x.(blockno)) by (intros ->; by apply (Hc b x)).
      rewrite (vw_uncached s' m).
      * simpl. by rewrite dupd_ne.
      * intros i y Hy. destruct (decide (i = b)) as [->|Hne].
        { by apply Hcb' in Hy as [-> _]. } by apply (Hc i y), Hck.
  - intros m. unfold dirtyn. split.
    + intros (i & y & Hy & Hf). destruct (decide (i = b)) as [->|Hne].
      * by apply Hcb' in Hy as [_ ->].
      * split; [|exists i, y; split; [by apply Hck|done]]. intros ->. apply Hne.
        eapply (bi_uniq _ _ B x.(blockno) i b y x); [by apply Hck|done].
    + intros [Hm (i & y & Hy & Hf)]. destruct (decide (i = b)) as [->|Hne].
      * by apply Hcb in Hy as [-> _].
      * exists i, y. split; [by apply Hck|done].
  - assert (Hle : forall l, (length (List.filter (dirtyb s') l) <= length (List.filter (dirtyb s) l))%nat).
    { assert (Hd' : forall i, dirtyb s' i = true -> dirtyb s i = true).
      { intros i. unfold dirtyb. destruct (decide (i = b)) as [->|Hne]; [by rewrite Hb'|by rewrite Ho']. }
      intros l. induction l as [|i l IH]; simpl; [done|]. specialize (Hd' i).
      destruct (dirtyb s' i), (dirtyb s i); simpl; try lia; by discriminate Hd'. }
    apply Hle.
Qed.

Lemma brelse_client s order H b x :
  client s order (b :: H) -> s.(bufs) !! b = Some x -> (x.(flags) = 2 -> x.(data) = s.(disk) x.(blockno)) ->
  exists s' order', brelse me b s = Ok (tt, s') /\ client s' order' H /\
    s'.(disk) = s.(disk) /\ s'.(disksize) = s.(disksize) /\ s'.(writes) = s.(writes) /\
    (forall m, vw s' m = vw s m) /\ (forall m, dirtyn s' m <-> dirtyn s m) /\ ndirty s' = ndirty s /\
    (forall i y, i <> b -> s.(bufs) !! i = Some y ->
       exists y', s'.(bufs) !! i = Some y' /\ strip y' = strip y).
Proof.
  intros Cl Hx Hclean. pose proof Cl as [B Hh Hnd Hlt].
  destruct (held s order (b :: H) b x Cl) as (Hbn & Hr & Hl & Hd); [by left|done|].
  destruct (brelse_run me s order b x B Hx Hbn Hl) as (s' & order' & Hrun & B' & E1 & E2 & E3 & Es & _);
    [lia|done|].
  assert (Hget : forall i y, s.(bufs) !! i = Some y -> exists y', s'.(bufs) !! i = Some y' /\
            strip y' = strip (if decide (i = b) then released y else y)).
  { intros i y Hy.
    assert (Ha : alter released b s.(bufs) !! i = Some (if decide (i = b) then released y else y)).
    { rewrite list_lookup_alter. case_decide; subst; rewrite ?Hy, ?decide_True by done; [done|].
      by rewrite decide_False. }
    destruct (strip_lookup _ _ i _ (eq_sym Es) Ha) as (y' & Hy' & E). exists y'. by split. }
  assert (Hback : forall i y', s'.(bufs) !! i = Some y' -> exists y, s.(bufs) !! i = Some y /\
            strip y' = strip (if decide (i = b) then released y else y)).
  { intros i y' Hy'. destruct (strip_lookup _ _ i y' Es Hy') as (y & Hy & E).
    rewrite list_lookup_alter in Hy. destruct (decide (i = b)) as [->|Hne].
    - rewrite decide_True in Hy by done. rewrite Hx in Hy. injection Hy as <-. exists x.
      rewrite ?decide_True by done. by split.
    - rewrite decide_False in Hy by done. exists y. rewrite ?decide_False by done. by split. }
  assert (Hst : forall i y y', strip y' = strip (if decide (i = b) then released y else y) ->
            y'.(flags) = y.(flags) /\ y'.(dev) = y.(dev) /\ y'.(blockno) = y.(blockno) /\ y'.(data) = y.(data)).
  { intros i y y' E. apply strip_fields in E as (F1 & F2 & F3 & _ & _ & F6).
    rewrite F1, F2, F3, F6. by case_decide. }
  exists s', order'. split; [done|]. split; [|split_and!; try done].
  - apply NoDup_cons in Hnd as [HbH Hnd]. split; [done| |done|intros i Hi; apply Hlt; by right].
    intros i y' Hi Hy'. destruct (Hback i y' Hy') as (y & Hy & E). apply strip_fields in E as (_ & _ & _ & F4 & F5 & _).
    destruct (decide (i = b)) as [->|Hne].
    + assert (y = x) as -> by congruence. rewrite F4, F5. simpl. rewrite Hr. done.
    + rewrite F4, F5. destruct (Hh i y Hi Hy) as [G1 G2]. split; intros Hin; [apply G1; by right|apply G2].
      intros [?|?]%elem_of_cons; done.
  - apply (vw_same s s' order order' B B' E1).
    + intros m i y (Hy & Hi & Hyd & Hym). left. destruct (Hget i y Hy) as (y' & Hy' & E).
      destruct (Hst i y y' E) as (_ & F2 & F3 & F6). exists i, y'. split; [|done]. split_and!; try done; congruence.
    + intros m i y' (Hy & Hi & Hyd & Hym). left. destruct (Hback i y' Hy) as (y & Hy0 & E).
      destruct (Hst i y y' E) as (_ & F2 & F3 & F6). exists i, y. split_and!; try done; congruence.
  - intros m. unfold dirtyn. split.
    + intros (i & y' & (Hy & Hi & Hyd & Hym) & Hf). destruct (Hback i y' Hy) as (y & Hy0 & E).
      destruct (Hst i y y' E) as (F1 & F2 & F3 & _). exists i, y. split; [split_and!; try done; congruence|congruence].
    + intros (i & y & (Hy & Hi & Hyd & Hym) & Hf). destruct (Hget i y Hy) as (y' & Hy0 & E).
      destruct (Hst i y y' E) as (F1 & F2 & F3 & _). exists i, y'. split; [split_and!; try done; congruence|congruence].
  - unfold ndirty. f_equal. apply List.filter_ext. intros i. unfold dirtyb.
    destruct (s.(bufs) !! i) as [y|] eqn:Hy.
    + destruct (Hget i y Hy) as (y' & -> & E). destruct (Hst i y y' E) as (-> & _). done.
    + destruct (s'.(bufs) !! i) as [y'|] eqn:Hy'; [|done]. destruct (Hback i y' Hy') as (y & ? & _). congruence.
  - intros i y Hi Hy. destruct (Hget i y Hy) as (y' & Hy' & E). exists y'. rewrite decide_False in E by done. done.
Qed.

End View.

(** ** Boot *)

(** The zeroed [bcache] over disk [d]. *)
Definition bio0 (d : Z -> block) (ds : Z) : bio := mk_bio (replicate (S NBUF) buf0) d ds [].

(** The buffers [binit] leaves; the disk plays no part. *)
Definition booted_bufs : list buf :=
  match binit (bio0 (fun _ => []) 0) with Ok (_, s) => s.(bufs) | Panic _ => [] end.

Lemma binit_run d ds : binit (bio0 d ds) = Ok (tt, mk_bio booted_bufs d ds []).
Proof. vm_compute. reflexivity. Qed.

Definition boot_order : list nat := rev (seq 0 NBUF).

Lemma booted_ring : ring booted_bufs boot_order.
Proof.
  split.
  - vm_compute. repeat (split; [reflexivity|]). reflexivity.
  - unfold boot_order. rewrite <- Permutation_rev. apply NoDup_seq.
  - intros i. unfold boot_order. rewrite list_elem_of_In, <- in_rev, <- list_elem_of_In, elem_of_seq. lia.
  - vm_compute. reflexivity.
Qed.

(** Every buffer of a fresh cache is empty, unlocked and unused. *)
Lemma booted_buf i x : booted_bufs !! i = Some x ->
  x.(dev) = 0 /\ x.(flags) = 0 /\ x.(refcnt) = 0 /\ x.(lock).(sl_locked) = false.
Proof.
  intros Hx. assert (Hall : forallb (fun x => (x.(dev) =? 0) && (x.(flags) =? 0) && (x.(refcnt) =? 0) &&
    negb x.(lock).(sl_locked)) booted_bufs = true) by (vm_compute; reflexivity).
  rewrite forallb_forall in Hall. specialize (Hall x). rewrite <- list_elem_of_In in Hall.
  specialize (Hall (list_elem_of_lookup_2 _ _ _ Hx)).
  rewrite !andb_true_iff, !Z.eqb_eq, negb_true_iff in Hall. tauto.
Qed.

#[global] Opaque booted_bufs.

(** A cache of such buffers is a client's state in which nothing is cached. *)
Lemma fresh_client me bs order d ds ws :
  ring bs order ->
  (forall i x, bs !! i = Some x ->
     x.(dev) = 0 /\ x.(flags) = 0 /\ x.(refcnt) = 0 /\ x.(lock).(sl_locked) = false) ->
  let s := mk_bio bs d ds ws in
  client me s order [] /\ ndirty s = 0%nat /\ (forall n, vw s n = d n) /\ (forall n, ~ dirtyn s n).
Proof.
  intros R Hbs s. assert (Hno : forall n i x, ~ cached s n i x).
  { intros n i x (Hx & _ & Hd & _). apply Hbs in Hx as (? & _). congruence. }
  split; [split|split; [|split]].
  - split; [exact R| |].
    + intros n i j x y Hx. by destruct (Hno n i x).
    + intros i x Hi Hx. apply Hbs in Hx as (E1 & E2 & E3 & E4). unfold buf_ok.
      rewrite E1, E2, E3, E4. split_and!; try done. left. done.
  - intros i x Hi Hx. apply Hbs in Hx as (E1 & E2 & E3 & E4). rewrite E3, E4. split; [|done].
    by intros ?%elem_of_nil.
  - constructor.
  - by intros i ?%elem_of_nil.
  - unfold ndirty. generalize (seq 0 NBUF) as l. induction l as [|i l IH]; [done|]. simpl.
    replace (dirtyb s i) with false; [done|]. unfold dirtyb. destruct (s.(bufs) !! i) as [x|] eqn:Hx; [|done].
    apply Hbs in Hx as (_ & -> & _). done.
  - intros n. by apply (vw_uncached s).
  - intros n (i & x & Hx & _). by apply (Hno n i x).
Qed.

(** ** What the cache promises *)

Section Promises.
Variable me : Z.

(** Somebody has locked the buffer of block [n]. *)
Definition blocked (s : bio) (n : Z) : Prop := exists b x, cached s n b x /\ x.(lock).(sl_locked) = true.

(** Block [n] is not cached, and no buffer can be had for it. *)
Definition exhausted (s : bio) (n : Z) : Prop :=
  (forall b x, ~ cached s n b x) /\
  (forall i x, (i < NBUF)%nat -> s.(bufs) !! i = Some x -> x.(refcnt) <> 0 \/ Z.land x.(flags) B_DIRTY <> 0).

(** The buffer [b], until now [x0], is the cached copy of block [n], unlocked;
    or there is none and [b] is the least recently used of the buffers that
    are neither referenced nor dirty. *)
Definition chosen (s : bio) (order : list nat) (n : Z) (b : nat) (x0 : buf) : Prop :=
  cached s n b x0 /\ x0.(lock).(sl_locked) = false \/
  (forall i y, ~ cached s n i y) /\ (b < NBUF)%nat /\ s.(bufs) !! b = Some x0 /\
    List.find (recyclable s) (rev order) = Some b /\ x0.(refcnt) = 0 /\ Z.land x0.(flags) B_DIRTY = 0.

Lemma chosen_free s order n b x : binv s order -> chosen s order n b x -> ~ blocked s n /\ ~ exhausted s n.
Proof.
  intros B [[Hc Hl]|(Hno & Hb & Hx & _ & Hr & Hd)]; split.
  - intros (c & y & Hy & Hl'). assert (b = c) as <- by (by apply (bi_uniq _ _ B n b c x y)).
    destruct Hc as (Hx & _), Hy as (Hy & _). congruence.
  - intros [Hno _]. by apply (Hno b x).
  - intros (c & y & Hy & _). by apply (Hno c y).
  - intros [_ Hall]. by destruct (Hall b x Hb Hx).
Qed.

(** C30. [bread] of a block of the disk, when no reference count is at the
    largest value of its type.  It sleeps exactly when the buffer of the block
    is locked; it panics exactly when the block is not cached and every buffer
    is referenced or dirty; and in every other state it returns a buffer that
    is locked by the caller and holds the current contents of the block.  That
    is the cached copy if there is one, with one more reference, and else the
    least recently used buffer that is neither referenced nor dirty, with one
    reference and the contents of the disk.  The other buffers, the contents of
    every block, the disk and the use order stay as they were. *)
Theorem bread_spec s order n :
  binv s order -> 0 <= n < s.(disksize) ->
  (forall i x, s.(bufs) !! i = Some x -> x.(refcnt) < 2 ^ 32 - 1) ->
  match bread me 1 n s with
  | Ok (b, s') => ~ blocked s n /\ ~ exhausted s n /\ binv s' order /\
      (exists x0 x, chosen s order n b x0 /\ cached s' n b x /\ x.(lock) = locked_by me /\
         x.(refcnt) = x0.(refcnt) + 1 /\ x.(data) = vw s n) /\
      (forall i, i <> b -> s'.(bufs) !! i = s.(bufs) !! i) /\
      s'.(disk) = s.(disk) /\ s'.(writes) = s.(writes) /\ (forall m, vw s' m = vw s m)
  | Panic msg => msg = "sleep"%string /\ blocked s n \/ msg = "bget: no buffers"%string /\ exhausted s n
  end.
Proof.
  intros B Hn Hrc. pose proof (find_matches s order n B) as Hm. rewrite (bread_run me s order n B Hn).
  assert (Hgo : forall b x f, turned s order b x f n -> chosen s order n b x -> (f x).(lock) = locked_by me ->
      (f x).(refcnt) = x.(refcnt) + 1 ->
    ~ blocked s n /\ ~ exhausted s n /\ binv (upd_buf b f s) order /\
    (exists x0 x, chosen s order n b x0 /\ cached (upd_buf b f s) n b x /\ x.(lock) = locked_by me /\
       x.(refcnt) = x0.(refcnt) + 1 /\ x.(data) = vw s n) /\
    (forall i, i <> b -> (upd_buf b f s).(bufs) !! i = s.(bufs) !! i) /\
    (upd_buf b f s).(disk) = s.(disk) /\ (upd_buf b f s).(writes) = s.(writes) /\ (forall m, vw (upd_buf b f s) m = vw s m)).
  { intros b x f T C Hl Hr. destruct (chosen_free s order n b x B C) as [C1 C2].
    split_and!; [done|done|apply T| |intros i Hi; by apply upd_lookup_ne|done|done|apply (turned_vw s order b x f n T)].
    exists x, (f x). split_and!; [done|apply (turned_cached s order b x f n T); by right|done|done|apply T]. }
  destruct (List.find (matches s 1 n) order) as [b|].
  - destruct Hm as (x & Hc). pose proof Hc as (Hx & Hb & _ & _). rewrite Hx. simpl.
    destruct (x.(lock).(sl_locked)) eqn:El; [left; split; [done|by exists b, x]|].
    destruct (bi_buf _ _ B b x Hb Hx) as (Hr0 & _). specialize (Hrc b x Hx).
    apply (Hgo b x); [by apply turned_hit|by left|done|]. simpl. by rewrite u32_small by (unfold is_u32; lia).
  - destruct (List.find (recyclable s) (rev order)) as [b|] eqn:Hr.
    + destruct (turned_miss me s order n b B Hn Hm Hr) as (x & T & Hx0). apply (Hgo b x); [done| |done|by rewrite Hx0].
      right. destruct T as [_ _ [Hx Hb] _ [[Hc _]|(_ & _ & Hd & _)]]; [by destruct (Hm b x)|]. by split_and!.
    + right. split; [done|]. split; [done|]. intros i x Hi Hx.
      assert (Hin : In i (rev order)).
      { rewrite <- in_rev, <- list_elem_of_In. by apply (ring_all _ _ (bi_ring _ _ B)). }
      pose proof (find_none _ _ Hr i Hin) as Hf. unfold recyclable in Hf. rewrite Hx in Hf.
      apply andb_false_iff in Hf as [Hf%Z.eqb_neq|Hf%Z.eqb_neq]; [by left|by right].
Qed.

(** [brelse] of a buffer the caller has locked unlocks it and drops one
    reference.  The last reference moves the buffer to the front of the use
    order (so the others age in place) and any other reference leaves the
    order alone; no contents change and the invariant is kept. *)
Theorem brelse_spec s order b x :
  binv s order -> s.(bufs) !! b = Some x -> (b < NBUF)%nat -> x.(lock) = locked_by me ->
  0 < x.(refcnt) < 2 ^ 32 -> (x.(flags) = 2 -> x.(data) = s.(disk) x.(blockno)) ->
  exists s' order', brelse me b s = Ok (tt, s') /\ binv s' order' /\
    s'.(disk) = s.(disk) /\ s'.(writes) = s.(writes) /\
    strip <$> s'.(bufs) = strip <$> alter released b s.(bufs) /\
    exists l1 l2, order = l1 ++ b :: l2 /\ order' = if x.(refcnt) =? 1 then b :: l1 ++ l2 else order.
Proof.
  intros B Hx Hb Hl Hr Hc. destruct (brelse_run me s order b x B Hx Hb Hl Hr Hc)
    as (s' & order' & Hrun & B' & E1 & E2 & E3 & E4 & Ho).
  exists s', order'. by split_and!.
Qed.

End Promises.

(** [binit] on the zeroed cache returns with the invariant: all buffers on
    the ring, the last one linked first, none cached, locked or referenced, so
    that every block's contents are those of the disk. *)
Theorem binit_spec me d ds :
  exists s, binit (bio0 d ds) = Ok (tt, s) /\ client me s (rev (seq 0 NBUF)) [] /\ ndirty s = 0%nat /\
    s.(disk) = d /\ s.(disksize) = ds /\ s.(writes) = [] /\ (forall n, vw s n = d n).
Proof.
  exists (mk_bio booted_bufs d ds []). split; [apply binit_run|].
  destruct (fresh_client me booted_bufs boot_order d ds [] booted_ring booted_buf) as (H1 & H2 & H3 & _).
  split_and!; done.
Qed.

Module BioDemo.

Definition demo_disk (n : Z) : block := [n].
Definition demo : bio := mk_bio booted_bufs demo_disk 100 [].

Lemma demo_inv : binv demo boot_order.
Proof. apply (fresh_client 1 booted_bufs boot_order demo_disk 100 [] booted_ring booted_buf). Qed.

Lemma bread_spec_witness :
  match bread 1 1 5 demo with
  | Ok (b, s') => exists x, cached s' 5 b x /\ x.(data) = [5]
  | Panic _ => False
  end.
Proof.
  assert (H : (0 <= 5 < demo.(disksize)) /\
              (forall i x, demo.(bufs) !! i = Some x -> x.(refcnt) < 2 ^ 32 - 1)).
  { split; [done|]. intros i x Hx. apply booted_buf in Hx as (_ & _ & -> & _). done. }
  pose proof (bread_spec 1 demo boot_order 5 demo_inv (proj1 H) (proj2 H)) as S.
  destruct (bread 1 1 5 demo) as [[b s']|msg] eqn:E.
  - destruct S as (_ & _ & _ & (_ & x & _ & Hc & _ & _ & Hd) & _). exists x. split; [done|]. rewrite Hd. vm_compute. reflexivity.
  - vm_compute in E. discriminate E.
Defined.

(** Block 5 is read into buffer 0, the least recently used. *)
Definition demo_read : bio := upd_buf 0 (fresh_buf 1 5 [5]) demo.

Lemma demo_read_inv : binv demo_read boot_order.
Proof.
  apply (bread_inv 1 demo boot_order 5 0 demo_read demo_inv); [done|vm_compute; reflexivity|].
  intros i x Hx. apply booted_buf in Hx as (_ & _ & -> & _). done.
Qed.

Lemma brelse_spec_witness :
  exists s' order', brelse 1 0 demo_read = Ok (tt, s') /\ binv s' order' /\ head order' = Some 0%nat.
Proof.
  destruct (brelse_spec 1 demo_read boot_order 0 (fresh_buf 1 5 [5] (nth 0 booted_bufs buf0)) demo_read_inv)
    as (s' & order' & Hr & B & _ & _ & _ & l1 & l2 & _ & ->); [vm_compute; reflexivity|unfold NBUF; lia|done..|].
  exists s'. eexists. split; [exact Hr|]. split; [exact B|]. reflexivity.
Defined.

End BioDemo.
