(* ===== verification/Layout.v ===== *)
(** * The on-disk format (fs.h)

    Little-endian access to the bytes of a block, the super block, and the
    macros that place inodes and bitmap bits in block groups. *)

From S2P Require Import Prelude.

(** The blocks of the file system (param.h). *)
Definition FSSIZE : Z := 20000.

(** ** Words in a block *)

(** The [uint] and [ushort] at byte offset [off]. *)
Definition get32 (b : list Z) (off : nat) : Z :=
  nth off b 0 + 2 ^ 8 * nth (off + 1) b 0 + 2 ^ 16 * nth (off + 2) b 0 + 2 ^ 24 * nth (off + 3) b 0.

Definition put32 (b : list Z) (off : nat) (v : Z) : list Z :=
  <[(off + 3)%nat := u8 (Z.shiftr v 24)]> (<[(off + 2)%nat := u8 (Z.shiftr v 16)]>
    (<[(off + 1)%nat := u8 (Z.shiftr v 8)]> (<[off := u8 v]> b))).

Definition get16 (b : list Z) (off : nat) : Z := nth off b 0 + 2 ^ 8 * nth (off + 1) b 0.

Definition put16 (b : list Z) (off : nat) (v : Z) : list Z :=
  <[(off + 1)%nat := u8 (Z.shiftr v 8)]> (<[off := u8 v]> b).

Lemma nth_insert_eq (b : list Z) i v d : (i < length b)%nat -> nth i (<[i := v]> b) d = v.
Proof. intros H. rewrite (nth_lookup_Some _ _ _ v); [done|]. by apply list_lookup_insert_eq. Qed.

Lemma nth_insert_ne (b : list Z) i j v d : i <> j -> nth j (<[i := v]> b) d = nth j b d.
Proof. intros H. by rewrite !nth_lookup, list_lookup_insert_ne. Qed.


Lemma length_put32 b off v : length (put32 b off v) = length b.
Proof. unfold put32. by rewrite !length_insert. Qed.

Lemma length_put16 b off v : length (put16 b off v) = length b.
Proof. unfold put16. by rewrite !length_insert. Qed.

Lemma get32_put32_eq b off v :
  is_u32 v -> (off + 4 <= length b)%nat -> get32 (put32 b off v) off = v.
Proof.
  intros Hv Hl. unfold get32, put32.
  rewrite !(nth_insert_ne _ (off + 3)), !(nth_insert_ne _ (off + 2)), !(nth_insert_ne _ (off + 1)) by lia.
  rewrite !nth_insert_eq by (rewrite ?length_insert; lia).
  rewrite <- (bytes_of_word v Hv) at 5. rewrite Z.mul_0_r, Z.shiftr_0_r. done.
Qed.

Lemma get32_put32_ne b off off' v :
  (off + 4 <= off' \/ off' + 4 <= off)%nat -> get32 (put32 b off v) off' = get32 b off'.
Proof. intros H. unfold get32, put32. by rewrite !nth_insert_ne by lia. Qed.

Lemma get16_put16_eq b off v :
  0 <= v < 2 ^ 16 -> (off + 2 <= length b)%nat -> get16 (put16 b off v) off = v.
Proof.
  intros Hv Hl. unfold get16, put16. rewrite !(nth_insert_ne _ (off + 1)) by lia.
  rewrite !nth_insert_eq by (rewrite ?length_insert; lia). unfold u8.
  rewrite Z.shiftr_div_pow2 by lia. change (2 ^ 8) with 256. change (2 ^ 16) with 65536 in Hv.
  Z.to_euclidean_division_equations. lia.
Qed.

Lemma get16_put16_ne b off off' v :
  (off + 2 <= off' \/ off' + 2 <= off)%nat -> get16 (put16 b off v) off' = get16 b off'.
Proof. intros H. unfold get16, put16. by rewrite !nth_insert_ne by lia. Qed.

Lemma get32_range b off : Forall is_u8 b -> is_u32 (get32 b off).
Proof.
  intros Hb. assert (Hn : forall i, is_u8 (nth i b 0)).
  { intros i. rewrite nth_lookup. destruct (b !! i) eqn:E; simpl; [by eapply Forall_lookup_1|split; lia]. }
  unfold get32, is_u32, is_u8 in *. pose proof (Hn off). pose proof (Hn (off + 1)%nat).
  pose proof (Hn (off + 2)%nat). pose proof (Hn (off + 3)%nat). lia.
Qed.

(** ** The super block *)

Record superblock := mk_superblock {
  sb_magic : Z; sb_size : Z; sb_nblocks : Z; sb_ninodes : Z; sb_nlog : Z; sb_logstart : Z;
  sb_inodestart : Z; sb_bmapstart : Z; sb_bpg : Z; sb_ipg : Z; sb_ngroups : Z
}.

(** The bytes of a block read as a [struct superblock], and back. *)
Definition decode_sb (b : list Z) : superblock :=
  mk_superblock (get32 b 0) (get32 b 4) (get32 b 8) (get32 b 12) (get32 b 16) (get32 b 20)
    (get32 b 24) (get32 b 28) (get32 b 32) (get32 b 36) (get32 b 40).

Definition encode_sb (sb : superblock) (b : list Z) : list Z :=
  put32 (put32 (put32 (put32 (put32 (put32 (put32 (put32 (put32 (put32 (put32 b
    0 sb.(sb_magic)) 4 sb.(sb_size)) 8 sb.(sb_nblocks)) 12 sb.(sb_ninodes)) 16 sb.(sb_nlog))
    20 sb.(sb_logstart)) 24 sb.(sb_inodestart)) 28 sb.(sb_bmapstart)) 32 sb.(sb_bpg))
    36 sb.(sb_ipg)) 40 sb.(sb_ngroups).

Definition sb_u32 (sb : superblock) : Prop :=
  is_u32 sb.(sb_magic) /\ is_u32 sb.(sb_size) /\ is_u32 sb.(sb_nblocks) /\ is_u32 sb.(sb_ninodes) /\
  is_u32 sb.(sb_nlog) /\ is_u32 sb.(sb_logstart) /\ is_u32 sb.(sb_inodestart) /\
  is_u32 sb.(sb_bmapstart) /\ is_u32 sb.(sb_bpg) /\ is_u32 sb.(sb_ipg) /\ is_u32 sb.(sb_ngroups).

Lemma decode_encode_sb sb b :
  sb_u32 sb -> (44 <= length b)%nat -> decode_sb (encode_sb sb b) = sb.
Proof.
  intros (?&?&?&?&?&?&?&?&?&?&?) Hl. unfold decode_sb, encode_sb.
  repeat first [ rewrite get32_put32_eq by (first [done | rewrite ?length_put32; lia])
               | rewrite get32_put32_ne by lia ].
  by destruct sb.
Qed.

(** ** Block groups *)

Definition IPB : Z := 8.        (* BSIZE / sizeof(struct dinode) = 512 / 64 *)
Definition BPB : Z := 4096.     (* BSIZE * 8 *)

Definition global_start (sb : superblock) : Z := u32 (sb.(sb_logstart) + sb.(sb_nlog)).

(** Block containing inode [i], and its index there. *)
Definition IBLOCK (i : Z) (sb : superblock) : Z :=
  u32 (sb.(sb_logstart) + sb.(sb_nlog) + (i / sb.(sb_ipg)) * sb.(sb_bpg) + (i mod sb.(sb_ipg)) / IPB).

(** Bitmap block of block [b]. *)
Definition BBLOCK (b : Z) (sb : superblock) : Z :=
  u32 (sb.(sb_logstart) + sb.(sb_nlog) +
       (u32 (b - (sb.(sb_logstart) + sb.(sb_nlog))) / sb.(sb_bpg)) * sb.(sb_bpg) + sb.(sb_ipg) / IPB).
