(* ===== verification/Ide.v ===== *)
(** * The disk driver (ide.c)

    The driver proper: a queue of buffers linked through [qnext], of which the
    first is what the disk works at, an interrupt handler that completes it
    and starts the next, and callers that sleep until their buffer is done.
    The disk is the class [Ata]: the instructions by which the code reaches
    it, with [AtaLaws] for what the code relies on.

    [ide_refines] compares any interleaving of callers and interrupts with
    the driver of memide.c, on which the rest of the kernel is verified: each
    interrupt has the effect that [Bio.iderw] has on the oldest request, or,
    when the disk reports a fault, the effect of [afail].
    [ide_completes] shows that no caller sleeps for ever. *)

From stdpp Require Import gmap.
From S2P Require Import Prelude Locks Bio Layout.

Definition SECTOR_SIZE : Z := 512.
Definition IDE_BSY : Z := 0x80.
Definition IDE_DRDY : Z := 0x40.
Definition IDE_DF : Z := 0x20.
Definition IDE_ERR : Z := 0x01.
Definition IDE_CMD_READ : Z := 0x20.
Definition IDE_CMD_WRITE : Z := 0x30.
Definition IDE_CMD_RDMUL : Z := 0xc4.
Definition IDE_CMD_WRMUL : Z := 0xc5.

(** ** The device *)

(** The instructions for ports, on the state [D] of the device. *)
Class Ata (D : Type) := {
  inb : Z -> D -> Z * D;
  outb : Z -> Z -> D -> D;
  insl : Z -> Z -> D -> list Z * D;
  outsl : Z -> list Z -> D -> D
}.

(** ** The driver *)

Section Driver.
Context {D : Type} `{Ata D}.

(** How often [idewait] may look at the status before the model gives up. *)
Context (polls : nat).

(** The buffers, the queue, the device, and who is inside [iderw]: the caller
    for a buffer is asleep ([false]) or will run again ([true]). *)
Record ide := mk_ide {
  ibufs : list buf;
  idequeue : option nat;
  qnext : nat -> option nat;
  havedisk1 : bool;
  idev : D;
  callers : gmap nat bool
}.

Definition with_ibufs (s : ide) (v : list buf) : ide := mk_ide v s.(idequeue) s.(qnext) s.(havedisk1) s.(idev) s.(callers).
Definition with_queue (s : ide) (v : option nat) : ide := mk_ide s.(ibufs) v s.(qnext) s.(havedisk1) s.(idev) s.(callers).
Definition with_qnext (s : ide) (v : nat -> option nat) : ide :=
  mk_ide s.(ibufs) s.(idequeue) v s.(havedisk1) s.(idev) s.(callers).
Definition with_havedisk1 (s : ide) (v : bool) : ide := mk_ide s.(ibufs) s.(idequeue) s.(qnext) v s.(idev) s.(callers).
Definition with_idev (s : ide) (v : D) : ide := mk_ide s.(ibufs) s.(idequeue) s.(qnext) s.(havedisk1) v s.(callers).
Definition with_callers (s : ide) (v : gmap nat bool) : ide :=
  mk_ide s.(ibufs) s.(idequeue) s.(qnext) s.(havedisk1) s.(idev) v.

Definition ibuf (b : nat) : kM ide buf :=
  fun s => match s.(ibufs) !! b with Some x => Ok (x, s) | None => Panic "bad buffer" end.

Definition set_ibuf (b : nat) (f : buf -> buf) : kM ide unit := kmodify (fun s => with_ibufs s (alter f b s.(ibufs))).

Definition io {A} (f : D -> A * D) : kM ide A := fun s => let '(a, d) := f s.(idev) in Ok (a, with_idev s d).

Definition out (f : D -> D) : kM ide unit := kmodify (fun s => with_idev s (f s.(idev))).

Fixpoint idewait_loop (n : nat) : kM ide Z :=
  match n with
  | O => kpanic "out of fuel"
  | S n =>
      r ← io (inb 0x1f7);
      if Z.land r (Z.lor IDE_BSY IDE_DRDY) =? IDE_DRDY then mret r else idewait_loop n
  end.

Definition idewait (checkerr : bool) : kM ide Z :=
  r ← idewait_loop polls;
  if checkerr && negb (Z.land r (Z.lor IDE_DF IDE_ERR) =? 0) then mret (-1) else mret 0.

Fixpoint probe_loop (n : nat) : kM ide unit :=
  match n with
  | O => mret tt
  | S n =>
      r ← io (inb 0x1f7);
      if negb (r =? 0) then kmodify (fun s => with_havedisk1 s true) else probe_loop n
  end.

Definition ideinit : kM ide unit :=
  _ ← idewait false;
  _ ← out (outb 0x1f6 (Z.lor 0xe0 (Z.shiftl 1 4)));
  _ ← probe_loop 1000;
  out (outb 0x1f6 (Z.lor 0xe0 (Z.shiftl 0 4))).

Definition idestart (b : option nat) : kM ide unit :=
  match b with
  | None => kpanic "idestart"
  | Some b =>
      x ← ibuf b;
      if FSSIZE <=? x.(blockno) then kpanic "incorrect blockno"
      else
        let sector_per_block := Z.of_nat BSIZE / SECTOR_SIZE in
        let sector := s32 (x.(blockno) * sector_per_block) in
        let read_cmd := if sector_per_block =? 1 then IDE_CMD_READ else IDE_CMD_RDMUL in
        let write_cmd := if sector_per_block =? 1 then IDE_CMD_WRITE else IDE_CMD_WRMUL in
        if 7 <? sector_per_block then kpanic "idestart"
        else
          _ ← idewait false;
          _ ← out (outb 0x3f6 0);
          _ ← out (outb 0x1f2 sector_per_block);
          _ ← out (outb 0x1f3 (Z.land sector 0xff));
          _ ← out (outb 0x1f4 (Z.land (Z.shiftr sector 8) 0xff));
          _ ← out (outb 0x1f5 (Z.land (Z.shiftr sector 16) 0xff));
          _ ← out (outb 0x1f6 (Z.lor (Z.lor 0xe0 (Z.shiftl (Z.land x.(dev) 1) 4)) (Z.land (Z.shiftr sector 24) 0x0f)));
          if negb (Z.land x.(flags) B_DIRTY =? 0) then
            _ ← out (outb 0x1f7 write_cmd);
            out (outsl 0x1f0 x.(data))
          else out (outb 0x1f7 read_cmd)
  end.

(** The caller that sleeps on [b] becomes runnable. *)
Definition wakeup_buf (b : nat) : kM ide unit := kmodify (fun s => with_callers s (alter (fun _ => true) b s.(callers))).

(** The part of [ideintr] that deals with the buffer. *)
Definition finish (b : nat) : kM ide unit :=
  x ← ibuf b;
  _ ← (if Z.land x.(flags) B_DIRTY =? 0 then
         r ← idewait true;
         if 0 <=? r then
           v ← io (insl 0x1f0 (Z.of_nat BSIZE / 4));
           set_ibuf b (fun x => with_data x v)
         else mret tt
       else mret tt);
  _ ← set_ibuf b (fun x => with_flags x (Z.lor x.(flags) B_VALID));
  _ ← set_ibuf b (fun x => with_flags x (Z.land x.(flags) (Z.lnot B_DIRTY)));
  wakeup_buf b.

Definition ideintr : kM ide unit :=
  s ← kget;
  match s.(idequeue) with
  | None => mret tt
  | Some b =>
      _ ← kmodify (fun s => with_queue s (s.(qnext) b));
      _ ← finish b;
      s ← kget;
      match s.(idequeue) with
      | None => mret tt
      | Some _ => idestart s.(idequeue)
      end
  end.

(** [pp] points to [idequeue] or to the [qnext] of a buffer. *)
Inductive qlink := LQueue | LNext (b : nat).

Definition deref (pp : qlink) : kM ide (option nat) :=
  s ← kget;
  mret (match pp with LQueue => s.(idequeue) | LNext b => s.(qnext) b end).

Definition set_qnext (b : nat) (v : option nat) : kM ide unit :=
  kmodify (fun s => with_qnext s (fun i => if decide (i = b) then v else s.(qnext) i)).

Definition assign (pp : qlink) (v : option nat) : kM ide unit :=
  match pp with LQueue => kmodify (fun s => with_queue s v) | LNext b => set_qnext b v end.

Fixpoint find_end (fuel : nat) (pp : qlink) : kM ide qlink :=
  match fuel with
  | O => kpanic "out of fuel"
  | S fuel =>
      p ← deref pp;
      match p with
      | None => mret pp
      | Some b => find_end fuel (LNext b)
      end
  end.

(** Append [b] to the queue. *)
Definition enqueue (b : nat) : kM ide unit :=
  s ← kget;
  _ ← set_qnext b None;
  pp ← find_end (S (length s.(ibufs))) LQueue;
  assign pp (Some b).

(** The loop at the end of [iderw], from the start or after [sleep]: whether
    the call returns. *)
Definition iderw_wait (b : nat) : kM ide bool :=
  x ← ibuf b;
  if negb (Z.land x.(flags) (Z.lor B_VALID B_DIRTY) =? B_VALID) then
    _ ← kmodify (fun s => with_callers s (<[b := false]> s.(callers)));
    mret false
  else
    _ ← kmodify (fun s => with_callers s (delete b s.(callers)));
    mret true.

(** [iderw] up to its first [sleep], by the process [me]. *)
Definition iderw_start (me : Z) (b : nat) : kM ide bool :=
  x ← ibuf b;
  s ← kget;
  if negb (holdingsleep me x.(lock)) then kpanic "iderw: buf not locked"
  else if Z.land x.(flags) (Z.lor B_VALID B_DIRTY) =? B_VALID then kpanic "iderw: nothing to do"
  else if negb (x.(dev) =? 0) && negb s.(havedisk1) then kpanic "iderw: ide disk 1 not present"
  else
    _ ← enqueue b;
    s ← kget;
    _ ← (if decide (s.(idequeue) = Some b) then idestart (Some b) else mret tt);
    iderw_wait b.

(** ** Events

    A process calls [iderw]; the disk interrupts; a process is woken although
    its buffer is not done, as [kill] does; a process that was woken runs;
    and the rest of the kernel works on the buffers. *)
Inductive event :=
| EStart (me : Z) (b : nat)
| EIntr
| EKick (b : nat)
| EResume (b : nat)
| EClient (bs : list buf).

(** The result is the buffer for which a call returned. *)
Definition istep (e : event) : kM ide (option nat) :=
  match e with
  | EStart me b => r ← iderw_start me b; mret (if (r : bool) then Some b else None)
  | EIntr => _ ← ideintr; mret None
  | EKick b => _ ← wakeup_buf b; mret None
  | EResume b => r ← iderw_wait b; mret (if (r : bool) then Some b else None)
  | EClient bs => _ ← kmodify (fun s => with_ibufs s bs); mret None
  end.

Fixpoint irun (evs : list event) : kM ide (list (option nat)) :=
  match evs with
  | [] => mret []
  | e :: evs => r ← istep e; rs ← irun evs; mret (r :: rs)
  end.

End Driver.

(** ** What the driver relies on

    A disk as its host sees it: the registers of the command block, what it is
    doing, its sectors by drive and number, and which drives are there. *)
Inductive activity := Idle | Reading (dr n : Z) | Expecting (dr n : Z) | Written.

Record ata := mk_ata {
  areg : Z -> Z;
  doing : activity;
  sect : Z -> Z -> block;
  present : Z -> bool
}.

Definition set_reg (v : ata) (p x : Z) : ata :=
  mk_ata (fun q => if q =? p then x else v.(areg) q) v.(doing) v.(sect) v.(present).
Definition set_doing (v : ata) (c : activity) : ata := mk_ata v.(areg) c v.(sect) v.(present).
Definition set_sector (v : ata) (dr n : Z) (bs : block) : ata :=
  mk_ata v.(areg) v.(doing) (fun d m => if (d =? dr) && (m =? n) then bs else v.(sect) d m) v.(present).

(** The drive that is selected and the sector that is addressed. *)
Definition drive (v : ata) : Z := Z.land (Z.shiftr (v.(areg) 0x1f6) 4) 1.
Definition lba (v : ata) : Z :=
  v.(areg) 0x1f3 + 2 ^ 8 * v.(areg) 0x1f4 + 2 ^ 16 * v.(areg) 0x1f5 + 2 ^ 24 * Z.land (v.(areg) 0x1f6) 15.

(** A device that answers within [polls] looks at its status, takes a command
    when it is not busy, and takes the data of a write right after it: the
    driver does not look at the status in between.  A command may fail: then
    [fault] is what the status will report of it, a read has no data to fetch
    and is over, and a write leaves the sector with anything. *)
Class AtaLaws (D : Type) `{Ata D} (polls : nat) := {
  view : D -> ata;
  busy : D -> nat;
  fault : D -> bool;
  accepting (d : D) : Prop :=
    (view d).(doing) = Idle \/ (view d).(doing) = Written \/ ((exists dr n, (view d).(doing) = Reading dr n) /\ fault d = true);
  ata_poll d :
    let '(r, d') := inb 0x1f7 d in
    view d' = view d /\ fault d' = fault d /\
    if present (view d) (drive (view d)) then
      r <> 0 /\ (Z.land r (Z.lor IDE_BSY IDE_DRDY) = IDE_DRDY <-> busy d = O) /\
      (Z.land r (Z.lor IDE_DF IDE_ERR) = 0 <-> fault d = false) /\ busy d' = pred (busy d)
    else r = 0 /\ busy d' = busy d;
  ata_bound d : (busy d < polls)%nat;
  ata_reg p x d :
    p ∈ [0x3f6; 0x1f2; 0x1f3; 0x1f4; 0x1f5; 0x1f6] -> 0 <= x < 256 -> busy d = O -> accepting d ->
    busy (outb p x d) = O /\ view (outb p x d) = set_reg (view d) p x /\ accepting (outb p x d);
  ata_command c d :
    c ∈ [IDE_CMD_READ; IDE_CMD_WRITE] -> busy d = O -> accepting d -> (view d).(areg) 0x1f2 = 1 ->
    Z.testbit ((view d).(areg) 0x1f6) 6 = true -> present (view d) (drive (view d)) = true ->
    view (outb 0x1f7 c d) =
      set_doing (view d) (if c =? IDE_CMD_READ then Reading (drive (view d)) (lba (view d))
                          else Expecting (drive (view d)) (lba (view d)));
  ata_outsl bs d dr n :
    doing (view d) = Expecting dr n -> length bs = 512%nat ->
    exists bs', view (outsl 0x1f0 bs d) = set_doing (set_sector (view d) dr n bs') Written /\
      (fault (outsl 0x1f0 bs d) = false -> bs' = bs);
  ata_insl d dr n :
    doing (view d) = Reading dr n -> busy d = O -> fault d = false ->
    exists d', insl 0x1f0 128 d = (sect (view d) dr n, d') /\ view d' = set_doing (view d) Idle
}.

(** ** The driver of memide.c, at every interrupt

    The requests that wait, oldest first, with the process that made them. *)
Record ast := mk_ast {
  abio : bio;
  pend : list (Z * nat);
  acallers : gmap nat bool
}.

Definition waiting (a : ast) : list nat := (a.(pend)).*2.

(** How the disk fared with a request: it was carried out, or it failed and
    the sector now holds [bs]. *)
Inductive verdict := Done | Failed (bs : block).

(** What becomes of the buffer of a request that failed. *)
Definition marked (x : buf) : buf := with_flags x (Z.lor (Z.land x.(flags) (Z.lnot B_DIRTY)) B_VALID).

Definition dirty (x : buf) : bool := negb (Z.land x.(flags) B_DIRTY =? 0).

(** A request that failed: the buffer is marked as valid and clean, its data
    stay, and of the disk only the sector of a write may have changed. *)
Definition afail (b : nat) (bs : block) (B : bio) : bio :=
  mk_bio (alter marked b B.(bufs))
    (match B.(bufs) !! b with
     | Some x => if dirty x then dupd B.(disk) x.(blockno) bs else B.(disk)
     | None => B.(disk)
     end) B.(disksize) B.(writes).

Definition aintr (v : verdict) : kM ast unit := fun a =>
  match a.(pend) with
  | [] => Ok (tt, a)
  | (me, b) :: rest =>
      match (match v with Done => Bio.iderw me b a.(abio) | Failed bs => Ok (tt, afail b bs a.(abio)) end) with
      | Ok (_, B) => Ok (tt, mk_ast B rest (alter (fun _ => true) b a.(acallers)))
      | Panic m => Panic m
      end
  end.

(** An event, with the verdict when it is an interrupt. *)
Definition astep (e : event) (v : verdict) : kM ast (option nat) :=
  match e with
  | EStart me b =>
      _ ← kmodify (fun a => mk_ast a.(abio) (a.(pend) ++ [(me, b)]) (<[b := false]> a.(acallers)));
      mret None
  | EIntr => _ ← aintr v; mret None
  | EKick b => _ ← kmodify (fun a => mk_ast a.(abio) a.(pend) (alter (fun _ => true) b a.(acallers))); mret None
  | EResume b =>
      a ← kget;
      if decide (b ∈ waiting a) then
        _ ← kput (mk_ast a.(abio) a.(pend) (<[b := false]> a.(acallers)));
        mret None
      else
        _ ← kput (mk_ast a.(abio) a.(pend) (delete b a.(acallers)));
        mret (Some b)
  | EClient bs =>
      _ ← kmodify (fun a => mk_ast (mk_bio bs a.(abio).(disk) a.(abio).(disksize) a.(abio).(writes)) a.(pend) a.(acallers));
      mret None
  end.

Fixpoint arun (evs : list (event * verdict)) : kM ast (list (option nat)) :=
  match evs with
  | [] => mret []
  | (e, v) :: evs => r ← astep e v; rs ← arun evs; mret (r :: rs)
  end.

(** A buffer for which [iderw] may be called. *)
Record request (me : Z) (x : buf) : Prop := {
  rq_lock : holdingsleep me x.(lock) = true;
  rq_flags : Z.land x.(flags) (Z.lor B_VALID B_DIRTY) <> B_VALID;
  rq_dev : x.(dev) = 1;
  rq_block : 0 <= x.(blockno) < FSSIZE;
  rq_data : length x.(data) = BSIZE
}.

(** What others may change in a buffer whose lock they do not hold. *)
Definition kept (x y : buf) : Prop :=
  y.(flags) = x.(flags) /\ y.(dev) = x.(dev) /\ y.(blockno) = x.(blockno) /\ y.(lock) = x.(lock) /\ y.(data) = x.(data).

(** How the kernel uses the driver: [iderw] is called with the lock of the
    buffer, and nobody else touches the buffer until the call returns. *)
Definition legal (e : event) (a : ast) : Prop :=
  match e with
  | EStart me b =>
      (exists x, a.(abio).(bufs) !! b = Some x /\ request me x) /\ (b ∉ waiting a) /\ a.(acallers) !! b = None
  | EIntr | EKick _ => True
  | EResume b => a.(acallers) !! b = Some true
  | EClient bs =>
      length bs = length a.(abio).(bufs) /\
      forall b x, is_Some (a.(acallers) !! b) -> a.(abio).(bufs) !! b = Some x -> exists y, bs !! b = Some y /\ kept x y
  end.

Fixpoint legal_run (evs : list (event * verdict)) (a : ast) : Prop :=
  match evs with
  | [] => True
  | (e, v) :: evs => legal e a /\ forall r a', astep e v a = Ok (r, a') -> legal_run evs a'
  end.

(** ** Buffers *)

(** What both drivers make of a buffer, when the disk is [dk]. *)
Definition synced (v : verdict) (dk : Z -> block) (x : buf) : buf :=
  match v with
  | Done => marked (if dirty x then x else with_data x (dk x.(blockno)))
  | Failed _ => marked x
  end.

Definition sync_disk (v : verdict) (dk : Z -> block) (x : buf) : Z -> block :=
  if dirty x then dupd dk x.(blockno) (match v with Done => x.(data) | Failed bs => bs end) else dk.

Lemma clean_flags f : Z.land f B_DIRTY = 0 -> Z.land f (Z.lnot B_DIRTY) = f.
Proof.
  intros E. rewrite <- Z.ldiff_land. apply Z.bits_inj'. intros n Hn. rewrite Z.ldiff_spec.
  assert (E' := f_equal (fun z => Z.testbit z n) E). cbn beta in E'. rewrite Z.land_spec, Z.bits_0 in E'.
  by destruct (Z.testbit f n), (Z.testbit B_DIRTY n).
Qed.

Lemma valid_flags f : Z.land (Z.lor f B_VALID) (Z.lnot B_DIRTY) = Z.lor (Z.land f (Z.lnot B_DIRTY)) B_VALID.
Proof. by rewrite Z.land_lor_distr_l. Qed.

Lemma marked_flags x : Z.land (marked x).(flags) (Z.lor B_VALID B_DIRTY) = B_VALID.
Proof.
  unfold marked. cbn [flags with_flags]. rewrite Z.land_lor_distr_l, <- Z.land_assoc.
  change (Z.land (Z.lnot B_DIRTY) (Z.lor B_VALID B_DIRTY)) with B_VALID. change (Z.land B_VALID (Z.lor B_VALID B_DIRTY)) with B_VALID.
  apply Z.bits_inj'. intros n Hn. rewrite Z.lor_spec, Z.land_spec. by destruct (Z.testbit x.(flags) n), (Z.testbit B_VALID n).
Qed.

Lemma synced_flags v dk x : Z.land (synced v dk x).(flags) (Z.lor B_VALID B_DIRTY) = B_VALID.
Proof. destruct v; apply marked_flags. Qed.

Lemma memide_run me b x B :
  B.(bufs) !! b = Some x -> request me x -> B.(disksize) = FSSIZE ->
  exists w, Bio.iderw me b B =
    Ok (tt, mk_bio (alter (synced Done B.(disk)) b B.(bufs)) (sync_disk Done B.(disk) x) B.(disksize) w).
Proof.
  intros Hb [H1 H2 H3 H4 H5] Hs. unfold Bio.iderw. erewrite kM_bind_run by (unfold getb; rewrite Hb; reflexivity).
  erewrite kM_bind_run by reflexivity. rewrite H1. cbn [negb]. rewrite (proj2 (Z.eqb_neq _ _) H2), H3.
  change (negb (1 =? 1)) with false. cbv iota. rewrite Hs, (proj2 (Z.leb_gt _ _)) by lia. fold (dirty x). unfold sync_disk.
  destruct (dirty x) eqn:Hd; eexists; (erewrite kM_bind_run by reflexivity); unfold setb, kmodify, upd_buf; cbn [bufs disk disksize writes];
    rewrite list_alter_alter_eq; do 3 f_equal; try exact Hs; (apply list_alter_ext; [|done]; intros y Hy; rewrite Hb in Hy; injection Hy as <-).
  - unfold synced. by rewrite Hd.
  - unfold synced, marked. rewrite Hd. cbn. rewrite clean_flags; [done|].
    unfold dirty in Hd. by apply negb_false_iff, Z.eqb_eq in Hd.
Qed.

(** Either verdict, in one form. *)
Lemma aintr_run a me b x rest v :
  a.(pend) = (me, b) :: rest -> a.(abio).(bufs) !! b = Some x -> request me x -> a.(abio).(disksize) = FSSIZE ->
  exists w, aintr v a = Ok (tt, mk_ast (mk_bio (alter (synced v a.(abio).(disk)) b a.(abio).(bufs)) (sync_disk v a.(abio).(disk) x)
                                          a.(abio).(disksize) w) rest (alter (fun _ => true) b a.(acallers))).
Proof.
  intros Hp Hx Hr Hs. unfold aintr. rewrite Hp. destruct v as [|bs].
  - destruct (memide_run me b x a.(abio) Hx Hr Hs) as (w & ->). by exists w.
  - eexists. unfold afail. rewrite Hx. reflexivity.
Qed.

Section Refines.
Context {D : Type} `{L : AtaLaws D}.

(** ** The device *)

Definition ready (s : ide (D := D)) : Prop :=
  present (view s.(idev)) (drive (view s.(idev))) = true /\ accepting s.(idev).

(** What the disk makes of the request it works at, which is the oldest. *)
Definition ruling (s : ide (D := D)) : verdict :=
  match s.(idequeue) ≫= fun b => s.(ibufs) !! b with
  | Some x => if fault s.(idev) then Failed ((view s.(idev)).(sect) 1 x.(blockno)) else Done
  | None => Done
  end.

(** The events of a run, each with the verdict at that moment. *)
Fixpoint history (evs : list event) (s : ide (D := D)) : list (event * verdict) :=
  match evs with
  | [] => []
  | e :: evs => (e, ruling s) :: match istep polls e s with Ok (_, s') => history evs s' | Panic _ => [] end
  end.

(** The same from the start of the driver. *)
Definition history0 (evs : list event) (s : ide (D := D)) : list (event * verdict) :=
  match ideinit polls s with Ok (_, s') => history evs s' | Panic _ => [] end.

Lemma idewait_loop_run n s :
  present (view s.(idev)) (drive (view s.(idev))) = true -> (busy s.(idev) < n)%nat ->
  exists r d, idewait_loop n s = Ok (r, with_idev s d) /\ view d = view s.(idev) /\ busy d = O /\
    fault d = fault s.(idev) /\ (Z.land r (Z.lor IDE_DF IDE_ERR) = 0 <-> fault d = false).
Proof.
  revert s. induction n as [|n IH]; intros s Hp Hn; [lia|]. cbn [idewait_loop].
  pose proof (ata_poll s.(idev)) as P. unfold io. destruct (inb 0x1f7 s.(idev)) as [r d] eqn:E. rewrite Hp in P.
  destruct P as (Hv & Hfd & _ & Hr & Hf & Hb).
  erewrite kM_bind_run by (rewrite E; reflexivity).
  destruct (Z.eqb_spec (Z.land r (Z.lor IDE_BSY IDE_DRDY)) IDE_DRDY) as [Er|Er].
  - apply Hr in Er. exists r, d. split_and!; [done|done|by rewrite Hb, Er|done|by rewrite Hfd].
  - assert (busy s.(idev) <> O) by (by intros ?%Hr). destruct (IH (with_idev s d)) as (r' & d' & R & V & B & F & G).
    { cbn [idev with_idev]. by rewrite Hv. } { cbn [idev with_idev]. lia. }
    exists r', d'. split_and!; [exact R|by rewrite V|done|by rewrite F|done].
Qed.

Lemma idewait_run c s :
  present (view s.(idev)) (drive (view s.(idev))) = true ->
  exists d, idewait polls c s = Ok (if c && fault s.(idev) then -1 else 0, with_idev s d) /\
    view d = view s.(idev) /\ busy d = O /\ fault d = fault s.(idev).
Proof.
  intros Hp. destruct (idewait_loop_run polls s Hp (ata_bound _)) as (r & d & R & V & B & F & G). exists d. split_and!; [|done..].
  unfold idewait. rewrite (kM_bind_run _ _ _ _ _ R), <- F. destruct (fault d).
  - rewrite (proj2 (Z.eqb_neq _ _)); [by destruct c|]. intros E%G. done.
  - rewrite (proj2 G eq_refl), !andb_false_r. done.
Qed.

(** The device takes a command, and shows [v]. *)
Definition takes (d : D) (v : ata) : Prop := busy d = O /\ view d = v /\ accepting d.

Lemma takes_reg d v p x :
  takes d v -> p ∈ [0x3f6; 0x1f2; 0x1f3; 0x1f4; 0x1f5; 0x1f6] -> 0 <= x < 256 -> takes (outb p x d) (set_reg v p x).
Proof. intros (Hb & <- & Ha) Hp Hx. destruct (ata_reg p x d Hp Hx Hb Ha) as (? & ? & ?). by split. Qed.

(** The device [d] works for [x], having shown [v] before. *)
Record started (x : buf) (v : ata) (d : D) : Prop := {
  st_doing : (view d).(doing) = if dirty x then Written else Reading 1 x.(blockno);
  st_sect : forall n, dirty x = false \/ n <> x.(blockno) -> (view d).(sect) 1 n = v.(sect) 1 n;
  st_data : dirty x = true -> fault d = false -> (view d).(sect) 1 x.(blockno) = x.(data);
  st_present : (view d).(present) = v.(present);
  st_drive : drive (view d) = 1;
  st_irq : (view d).(areg) 0x3f6 = 0
}.

(** So its disk is the one the request will leave. *)
Lemma started_disk x v d dk w n :
  started x v d -> w = (if fault d then Failed ((view d).(sect) 1 x.(blockno)) else Done) -> v.(sect) 1 n = dk n ->
  (view d).(sect) 1 n = sync_disk w dk x n.
Proof.
  intros St -> E. unfold sync_disk, dupd. destruct (dirty x) eqn:Hd; [|rewrite (st_sect _ _ _ St); [done|by left]].
  destruct (Z.eqb_spec n x.(blockno)) as [->|Hn]; [|rewrite (st_sect _ _ _ St); [done|by right]].
  destruct (fault d) eqn:Hf; [done|]. by apply (st_data _ _ _ St).
Qed.

Lemma low_byte z : 0 <= Z.land z 0xff < 256.
Proof. change 255 with (Z.ones 8). rewrite Z.land_ones by done. by apply Z.mod_pos_bound. Qed.

Lemma lba_bytes n :
  0 <= n < 2 ^ 24 ->
  Z.land n 255 + 2 ^ 8 * Z.land (Z.shiftr n 8) 255 + 2 ^ 16 * Z.land (Z.shiftr n 16) 255 + 2 ^ 24 * 0 = n.
Proof.
  intros Hn. change 255 with (Z.ones 8). rewrite !Z.land_ones, !Z.shiftr_div_pow2 by done.
  pose proof (Z.div_mod n (2 ^ 8) ltac:(done)). pose proof (Z.div_mod (n / 2 ^ 8) (2 ^ 8) ltac:(done)) as E.
  rewrite Z.div_div in E by done. change (2 ^ 8 * 2 ^ 8) with (2 ^ 16) in E.
  rewrite (Z.mod_small (n / 2 ^ 16)); [lia|]. split; [apply Z.div_pos; lia|apply Z.div_lt_upper_bound; lia].
Qed.

Local Ltac listed := apply (bool_decide_unpack _); reflexivity.

(** The six registers of a command for sector [n] of drive 1. *)
Definition addressed (n : Z) (d : D) : D :=
  outb 0x1f6 0xf0 (outb 0x1f5 (Z.land (Z.shiftr n 16) 0xff) (outb 0x1f4 (Z.land (Z.shiftr n 8) 0xff)
    (outb 0x1f3 (Z.land n 0xff) (outb 0x1f2 1 (outb 0x3f6 0 d))))).

Lemma addressed_run n d v :
  takes d v -> 0 <= n < 2 ^ 24 ->
  exists v1, takes (addressed n d) v1 /\ v1.(areg) 0x1f2 = 1 /\ Z.testbit (v1.(areg) 0x1f6) 6 = true /\
    lba v1 = n /\ drive v1 = 1 /\ v1.(areg) 0x3f6 = 0 /\ v1.(sect) = v.(sect) /\ v1.(present) = v.(present).
Proof.
  intros T Hn. eexists. split.
  - do 6 (apply takes_reg; [|listed|done || apply low_byte]). exact T.
  - split_and!; try reflexivity. by apply lba_bytes.
Qed.

Lemma idestart_run s b x :
  s.(ibufs) !! b = Some x -> x.(dev) = 1 -> 0 <= x.(blockno) < FSSIZE -> length x.(data) = BSIZE ->
  ready s -> present (view s.(idev)) 1 = true ->
  exists d, idestart polls (Some b) s = Ok (tt, with_idev s d) /\ started x (view s.(idev)) d.
Proof.
  intros Hb Hdev Hn Hl [Hp Ha] H1. destruct (idewait_run false s Hp) as (d & R & V & B & F).
  set (n := x.(blockno)) in *. unfold FSSIZE in Hn.
  assert (Hsec : s32 (n * (Z.of_nat BSIZE / SECTOR_SIZE)) = n).
  { change (Z.of_nat BSIZE / SECTOR_SIZE) with 1. rewrite Z.mul_1_r. apply s32_small. unfold is_s32. lia. }
  assert (H24 : Z.shiftr n 24 = 0) by (rewrite Z.shiftr_div_pow2 by done; apply Z.div_small; lia).
  destruct (addressed_run n d (view s.(idev))) as (v1 & (B1 & V1 & A1) & Hc & Hbit & Hlba & Hdr & Hirq & Hs & Hpr).
  { split_and!; [done|done|]. unfold accepting in *. by rewrite V, F. } { lia. }
  unfold idestart. erewrite kM_bind_run by (unfold ibuf; rewrite Hb; reflexivity). cbv zeta. fold n.
  rewrite Hsec, Hdev, H24, (proj2 (Z.leb_gt FSSIZE n)) by (unfold FSSIZE; lia).
  change (7 <? Z.of_nat BSIZE / SECTOR_SIZE) with false. cbv iota. rewrite (kM_bind_run _ _ _ _ _ R).
  do 6 (erewrite kM_bind_run by reflexivity). fold (dirty x). change (Z.of_nat BSIZE / SECTOR_SIZE =? 1) with true. cbv iota.
  assert (C : forall c, c ∈ [IDE_CMD_READ; IDE_CMD_WRITE] -> view (outb 0x1f7 c (addressed n d)) =
    set_doing v1 (if c =? IDE_CMD_READ then Reading 1 n else Expecting 1 n)).
  { intros c Hcc. rewrite (ata_command c (addressed n d) Hcc B1 A1); rewrite V1; [by rewrite Hlba, Hdr|done|done|].
    by rewrite Hdr, Hpr. }
  assert (C1 := C IDE_CMD_READ ltac:(listed)). assert (C2 := C IDE_CMD_WRITE ltac:(listed)). destruct (dirty x) eqn:Hd.
  - exists (outsl 0x1f0 x.(data) (outb 0x1f7 IDE_CMD_WRITE (addressed n d))). split; [reflexivity|].
    destruct (ata_outsl x.(data) (outb 0x1f7 IDE_CMD_WRITE (addressed n d)) 1 n) as (bs & O1 & O2); [by rewrite C2|done|].
    split; rewrite O1, C2; try done; [by rewrite Hd|..]; cbn [set_doing set_sector sect]; rewrite Hs.
    + intros m [Hm|Hm]; [congruence|]. by rewrite (proj2 (Z.eqb_neq m n) Hm).
    + intros _ Hf. fold n. rewrite !Z.eqb_refl. by apply O2.
  - exists (outb 0x1f7 IDE_CMD_READ (addressed n d)). split; [reflexivity|]. split; rewrite C1; try done; [by rewrite Hd| |congruence].
    intros m _. cbn [set_doing sect]. by rewrite Hs.
Qed.

(** ** The queue *)

Fixpoint queued (nx : nat -> option nat) (p : option nat) (l : list nat) : Prop :=
  match l with
  | [] => p = None
  | b :: l => p = Some b /\ queued nx (nx b) l
  end.

Lemma queued_ext nx nx' p l : (forall b, b ∈ l -> nx' b = nx b) -> queued nx p l -> queued nx' p l.
Proof.
  revert p. induction l as [|b l IH]; intros p E; [done|]. intros [-> Q]. split; [done|].
  rewrite E by by left. apply IH; [|done]. intros c Hc. apply E. by right.
Qed.

(** Where [find_end] stops. *)
Definition end_of (pp : qlink) (l : list nat) : qlink := match last l with Some b => LNext b | None => pp end.

Definition follow (s : ide (D := D)) (pp : qlink) : option nat := match pp with LQueue => s.(idequeue) | LNext b => s.(qnext) b end.

Lemma find_end_run fuel pp s l :
  queued s.(qnext) (follow s pp) l -> (length l < fuel)%nat -> find_end fuel pp s = Ok (end_of pp l, s).
Proof.
  revert pp l. induction fuel as [|fuel IH]; intros pp l Q Hf; [lia|]. cbn [find_end].
  erewrite kM_bind_run by reflexivity. change (match pp with LQueue => s.(idequeue) | LNext b => s.(qnext) b end) with (follow s pp).
  destruct l as [|b l]; cbn [queued length] in *; [by rewrite Q|]. destruct Q as [-> Q].
  rewrite (IH (LNext b) l Q ltac:(lia)). unfold end_of. rewrite last_cons. by destruct (last l).
Qed.

Lemma queued_snoc nx p l b q nx' :
  queued nx p l -> NoDup l -> nx' b = None ->
  (forall c, c ∈ l -> nx' c = if decide (last l = Some c) then Some b else nx c) ->
  q = (if decide (l = []) then Some b else p) -> queued nx' q (l ++ [b]).
Proof.
  revert p q. induction l as [|a l IH]; intros p q Q N Hb Hn ->; [done|]. destruct Q as [-> Q]. apply NoDup_cons in N as [Ha N].
  rewrite decide_False by done. cbn [app queued]. split; [done|]. rewrite Hn by by left. apply (IH (nx a)); [done|done|done| |].
  - intros c Hc. rewrite Hn by by right. destruct l; [by apply not_elem_of_nil in Hc|done].
  - destruct l as [|c l]; [by rewrite !decide_True|]. change (last (a :: c :: l)) with (last (c :: l)).
    rewrite !decide_False; [done|done|]. intros E. apply Ha. by apply last_Some_elem_of.
Qed.

(** Appending [b] as [iderw] does. *)
Lemma enqueue_run (s : ide (D := D)) l b :
  queued s.(qnext) s.(idequeue) l -> NoDup l -> (b ∉ l) -> (length l <= length s.(ibufs))%nat ->
  exists s', enqueue b s = Ok (tt, s') /\
    s'.(ibufs) = s.(ibufs) /\ s'.(idev) = s.(idev) /\ s'.(callers) = s.(callers) /\ s'.(havedisk1) = s.(havedisk1) /\
    queued s'.(qnext) s'.(idequeue) (l ++ [b]).
Proof.
  intros Q N Hb Hn. unfold enqueue. do 2 (erewrite kM_bind_run by reflexivity).
  set (s1 := with_qnext s _). assert (Q1 : queued s1.(qnext) s1.(idequeue) l).
  { eapply queued_ext; [|exact Q]. intros c Hc. cbn. rewrite decide_False; [done|]. by intros ->. }
  rewrite (kM_bind_run _ _ _ _ _ (find_end_run (S (length s.(ibufs))) LQueue s1 l Q1 ltac:(lia))). unfold end_of.
  destruct (last l) as [c|] eqn:El; (eexists; split; [reflexivity|]; split_and!; try reflexivity).
  - apply (queued_snoc _ _ _ _ _ _ Q1 N).
    + cbn. rewrite decide_False; [by rewrite decide_True|]. intros ->. apply Hb. by apply last_Some_elem_of.
    + intros e He. rewrite El. cbn. destruct (decide (e = c)) as [->|Hne]; [by rewrite decide_True|].
      by rewrite (decide_False (P := Some c = Some e)) by congruence.
    + by rewrite decide_False by (by intros ->).
  - apply last_None in El as ->. cbn. split; [done|by rewrite decide_True].
Qed.

(** ** Related states *)

(** The disk with what the oldest request has already sent to it. *)
Definition ahead (v : verdict) (a : ast) : Z -> block :=
  match a.(pend) with
  | (_, b) :: _ => match a.(abio).(bufs) !! b with Some x => sync_disk v a.(abio).(disk) x | None => a.(abio).(disk) end
  | [] => a.(abio).(disk)
  end.

(** The device works for the oldest request. *)
Definition serves (d : D) (a : ast) : Prop :=
  match a.(pend) with
  | (_, b) :: _ =>
      exists x, a.(abio).(bufs) !! b = Some x /\ (view d).(doing) = (if dirty x then Written else Reading 1 x.(blockno)) /\
        (view d).(areg) 0x3f6 = 0
  | [] => accepting d
  end.

Record irel (s : ide (D := D)) (a : ast) : Prop := {
  ir_bufs : s.(ibufs) = a.(abio).(bufs);
  ir_callers : s.(callers) = a.(acallers);
  ir_queue : queued s.(qnext) s.(idequeue) (waiting a);
  ir_nodup : NoDup (waiting a);
  ir_req : forall me b, (me, b) ∈ a.(pend) -> exists x, a.(abio).(bufs) !! b = Some x /\ request me x;
  ir_serves : serves s.(idev) a;
  ir_disk : forall n, 0 <= n < FSSIZE -> (view s.(idev)).(sect) 1 n = ahead (ruling s) a n;
  ir_size : a.(abio).(disksize) = FSSIZE;
  ir_have : s.(havedisk1) = true;
  ir_present : (view s.(idev)).(present) 1 = true /\ (view s.(idev)).(present) (drive (view s.(idev))) = true;
  ir_in : forall b, b ∈ waiting a -> is_Some (a.(acallers) !! b);
  ir_done : forall b, is_Some (a.(acallers) !! b) -> b ∉ waiting a ->
    a.(acallers) !! b = Some true /\
    exists x, a.(abio).(bufs) !! b = Some x /\ Z.land x.(flags) (Z.lor B_VALID B_DIRTY) = B_VALID
}.

Lemma waiting_pend a b : b ∈ waiting a -> exists me, (me, b) ∈ a.(pend).
Proof. intros ([me c] & -> & Hc)%list_elem_of_fmap. by exists me. Qed.

Lemma waiting_length s a : irel s a -> (length (waiting a) <= length s.(ibufs))%nat.
Proof.
  intros R. replace (length s.(ibufs)) with (length (seq 0 (length s.(ibufs)))) by apply length_seq. apply submseteq_length, NoDup_submseteq; [apply R|].
  intros b Hb. destruct (waiting_pend a b Hb) as [me Hm]. destruct (ir_req _ _ R me b Hm) as (x & Hx & _).
  apply elem_of_seq. rewrite (ir_bufs _ _ R). apply lookup_lt_Some in Hx. lia.
Qed.

Lemma ibuf_run (s : ide (D := D)) b x : s.(ibufs) !! b = Some x -> ibuf b s = Ok (x, s).
Proof. unfold ibuf. by intros ->. Qed.

Lemma dirty_false x : dirty x = false -> Z.land x.(flags) B_DIRTY = 0.
Proof. unfold dirty. by intros ?%negb_false_iff%Z.eqb_eq. Qed.

Lemma finish_run s b x :
  let v := if fault s.(idev) then Failed ((view s.(idev)).(sect) 1 x.(blockno)) else Done in
  s.(ibufs) !! b = Some x -> (view s.(idev)).(present) (drive (view s.(idev))) = true ->
  (view s.(idev)).(doing) = (if dirty x then Written else Reading 1 x.(blockno)) ->
  exists d, finish polls b s = Ok (tt, mk_ide (alter (synced v ((view s.(idev)).(sect) 1)) b s.(ibufs)) s.(idequeue) s.(qnext)
                                        s.(havedisk1) d (alter (fun _ => true) b s.(callers))) /\
    accepting d /\ (view d).(sect) = (view s.(idev)).(sect) /\ (view d).(present) = (view s.(idev)).(present) /\
    drive (view d) = drive (view s.(idev)).
Proof.
  intros v Hb Hp Hd. unfold finish. rewrite (kM_bind_run _ _ _ _ _ (ibuf_run _ _ _ Hb)).
  assert (E : forall y, with_flags y (Z.land (Z.lor y.(flags) B_VALID) (Z.lnot B_DIRTY)) = marked y)
    by (intros y; unfold marked; by rewrite valid_flags).
  destruct (dirty x) eqn:Hx; [|rewrite (dirty_false x Hx); change (0 =? 0) with true; cbv iota;
    destruct (idewait_run true s Hp) as (d & R & V & B & F)].
  - pose proof Hx as Hx'. unfold dirty in Hx'. apply negb_true_iff in Hx'. rewrite Hx'.
    exists s.(idev). split; [|by split_and!; [right; left|..]].
    do 3 (erewrite kM_bind_run by reflexivity). unfold wakeup_buf, kmodify, with_callers, with_ibufs.
    cbn [callers ibufs idequeue qnext havedisk1 idev]. rewrite list_alter_alter_eq. do 3 f_equal. apply list_alter_ext; [|done].
    intros y Hy. rewrite Hb in Hy. injection Hy as <-. unfold synced. rewrite Hx. subst v. destruct (fault _); by rewrite <- E.
  - subst v. destruct (fault s.(idev)) eqn:Hf.
    + exists d. split; [|rewrite V; split_and!; [|done..]; right; right; rewrite V; by split; [eexists _, _|]].
      erewrite kM_bind_run. 2:{ rewrite (kM_bind_run _ _ _ _ _ R). reflexivity. }
      do 2 (erewrite kM_bind_run by reflexivity). unfold wakeup_buf, kmodify, with_callers, with_ibufs, with_idev.
      cbn [callers ibufs idequeue qnext havedisk1 idev]. rewrite !list_alter_alter_eq. do 3 f_equal. apply list_alter_ext; [|done].
      intros y Hy. cbn [synced]. by rewrite <- E.
    + destruct (ata_insl d 1 x.(blockno)) as (d' & I & V'); [by rewrite V|done|done|].
      exists d'. split; [|rewrite V', V; split_and!; [|done..]; left; by rewrite V'].
      erewrite kM_bind_run. 2:{ rewrite (kM_bind_run _ _ _ _ _ R). change (0 <=? 0) with true. cbv iota. unfold io.
        erewrite kM_bind_run by (cbn [idev with_idev]; change (Z.of_nat BSIZE / 4) with 128; rewrite I; reflexivity). reflexivity. }
      do 2 (erewrite kM_bind_run by reflexivity). unfold wakeup_buf, kmodify, with_callers, with_ibufs, with_idev.
      cbn [callers ibufs idequeue qnext havedisk1 idev]. rewrite !list_alter_alter_eq. do 3 f_equal. apply list_alter_ext; [|done].
      intros y Hy. rewrite Hb in Hy. injection Hy as <-. unfold synced. rewrite Hx, <- V, <- E. done.
Qed.

Definition simulates (e : event) : Prop :=
  forall s a, irel s a -> legal e a ->
  exists r s' a', istep polls e s = Ok (r, s') /\ astep e (ruling s) a = Ok (r, a') /\ irel s' a'.

Lemma wait_sleeps (s : ide (D := D)) b x :
  s.(ibufs) !! b = Some x -> Z.land x.(flags) (Z.lor B_VALID B_DIRTY) <> B_VALID ->
  iderw_wait b s = Ok (false, with_callers s (<[b := false]> s.(callers))).
Proof.
  intros Hb Hf. unfold iderw_wait. rewrite (kM_bind_run _ _ _ _ _ (ibuf_run _ _ _ Hb)).
  by rewrite (proj2 (Z.eqb_neq _ _) Hf).
Qed.

Lemma wait_returns (s : ide (D := D)) b x :
  s.(ibufs) !! b = Some x -> Z.land x.(flags) (Z.lor B_VALID B_DIRTY) = B_VALID ->
  iderw_wait b s = Ok (true, with_callers s (delete b s.(callers))).
Proof.
  intros Hb Hf. unfold iderw_wait. rewrite (kM_bind_run _ _ _ _ _ (ibuf_run _ _ _ Hb)). by rewrite Hf, Z.eqb_refl.
Qed.

(** The verdict on the request of the first buffer in the queue. *)
Lemma ruling_head (s : ide (D := D)) b x :
  s.(idequeue) = Some b -> s.(ibufs) !! b = Some x ->
  ruling s = if fault s.(idev) then Failed ((view s.(idev)).(sect) 1 x.(blockno)) else Done.
Proof. intros Hq Hb. unfold ruling. rewrite Hq. cbn [mbind option_bind]. by rewrite Hb. Qed.

(** A caller enters and sleeps. *)
Lemma irel_enter (s : ide (D := D)) a me b x s' :
  irel s a -> legal (EStart me b) a -> a.(abio).(bufs) !! b = Some x -> request me x ->
  s'.(ibufs) = s.(ibufs) -> s'.(callers) = <[b := false]> s.(callers) -> s'.(havedisk1) = s.(havedisk1) ->
  queued s'.(qnext) s'.(idequeue) (waiting a ++ [b]) ->
  (if decide (a.(pend) = []) then started x (view s.(idev)) s'.(idev) else s'.(idev) = s.(idev)) ->
  irel s' (mk_ast a.(abio) (a.(pend) ++ [(me, b)]) (<[b := false]> a.(acallers))).
Proof.
  intros R (_ & Hw & Hc) Hx Hr Eb Ec Eh Q Hdev. destruct R as [R1 R2 R3 R4 R5 R6 R7 R8 R9 [R10 R10'] R11 R12].
  assert (W : waiting (mk_ast a.(abio) (a.(pend) ++ [(me, b)]) (<[b := false]> a.(acallers))) = waiting a ++ [b]).
  { unfold waiting. cbn [pend]. by rewrite fmap_app. }
  assert (V : serves s'.(idev) (mk_ast a.(abio) (a.(pend) ++ [(me, b)]) (<[b := false]> a.(acallers))) /\
    (forall n, 0 <= n < FSSIZE -> (view s'.(idev)).(sect) 1 n =
      ahead (ruling s') (mk_ast a.(abio) (a.(pend) ++ [(me, b)]) (<[b := false]> a.(acallers))) n) /\
    (view s'.(idev)).(present) 1 = true /\ (view s'.(idev)).(present) (drive (view s'.(idev))) = true).
  { unfold serves, ahead, waiting in *. cbn [pend abio]. destruct a.(pend) as [|[me0 b0] rest]; cbn [app].
    - rewrite decide_True in Hdev by done. pose proof Hdev as [S1 S2 S3 S4 S5 S6]. rewrite Hx, S5, S4. split_and!; try done.
      + by exists x.
      + intros n Hn. apply (started_disk x (view s.(idev))); [done| |by apply R7].
        apply ruling_head with b; [apply Q|by rewrite Eb, R1].
    - rewrite decide_False in Hdev by done. assert (E : ruling s' = ruling s).
      { unfold ruling. rewrite (proj1 Q), (proj1 R3), Hdev, Eb. done. }
      by rewrite Hdev, E. }
  destruct V as (V1 & V2 & V3). split; cbn [abio acallers pend]; rewrite ?W; try done; try congruence.
  - apply NoDup_app. split_and!; [done| |apply NoDup_singleton]. intros c Hc1 ->%list_elem_of_singleton. done.
  - intros me' b' [Hin|Hin%list_elem_of_singleton]%elem_of_app; [by apply R5|]. injection Hin as -> ->. by exists x.
  - intros c [Hin| ->%list_elem_of_singleton]%elem_of_app; [|by rewrite lookup_insert_eq].
    rewrite lookup_insert. destruct (decide (b = c)); [by eexists|by apply R11].
  - intros c Hs Hn. rewrite not_elem_of_app, list_elem_of_singleton in Hn. destruct Hn as [Hn Hne].
    rewrite lookup_insert_ne in Hs |- * by done. by apply R12.
Qed.

Lemma start_simulates me b : simulates (EStart me b).
Proof.
  intros s a R Hleg. pose proof Hleg as ((x & Hx & Hr) & Hw & _). pose proof (waiting_length s a R) as Hlen.
  destruct (enqueue_run s (waiting a) b (ir_queue _ _ R) (ir_nodup _ _ R) Hw Hlen) as (s1 & E1 & B1 & D1 & C1 & H1 & Q1).
  assert (Hxs : s.(ibufs) !! b = Some x) by (by rewrite (ir_bufs _ _ R)).
  exists None. cbn [istep astep].
  assert (G : exists s2, (if decide (s1.(idequeue) = Some b) then idestart polls (Some b) else mret tt) s1 = Ok (tt, s2) /\
    s2 = with_idev s1 s2.(idev) /\
    if decide (a.(pend) = []) then started x (view s.(idev)) s2.(idev) else s2.(idev) = s.(idev)).
  { pose proof (ir_serves _ _ R) as Sv. unfold serves, waiting in *. destruct a.(pend) as [|[me0 b0] rest].
    - destruct Q1 as [Q1 _]. rewrite !decide_True by done. destruct Hr as [Q2 Q3 Q4 Q5 Q6].
      destruct (idestart_run s1 b x) as (d & E & St); [by rewrite B1|done..| | |].
      + split; rewrite D1; [apply (ir_present _ _ R)|done].
      + rewrite D1. apply (ir_present _ _ R).
      + exists (with_idev s1 d). rewrite <- D1. done.
    - cbn [fmap list_fmap app snd] in *. destruct Q1 as [Q1 _]. rewrite Q1, decide_False.
      + exists s1. rewrite decide_False by done. split_and!; [done|by destruct s1|done].
      + intros [= ->]. apply Hw. by left. }
  destruct G as (s2 & E2 & E3 & G).
  assert (Hx2 : s2.(ibufs) !! b = Some x) by (rewrite E3; cbn [ibufs with_idev]; by rewrite B1).
  exists (with_callers s2 (<[b := false]> s2.(callers))), (mk_ast a.(abio) (a.(pend) ++ [(me, b)]) (<[b := false]> a.(acallers))).
  split_and!; [|reflexivity|].
  - destruct Hr as [Q2 Q3 Q4 Q5 Q6]. unfold iderw_start. erewrite (kM_bind_run _ _ _ false); [reflexivity|].
    rewrite (kM_bind_run _ _ _ _ _ (ibuf_run _ _ _ Hxs)). erewrite kM_bind_run by reflexivity.
    rewrite Q2, (proj2 (Z.eqb_neq _ _) Q3), (ir_have _ _ R), andb_false_r. cbn [negb].
    rewrite (kM_bind_run _ _ _ _ _ E1). erewrite kM_bind_run by reflexivity. rewrite (kM_bind_run _ _ _ _ _ E2).
    by apply wait_sleeps with x.
  - apply irel_enter with s x; try done; cbn [ibufs callers havedisk1 qnext idequeue idev with_callers];
      rewrite E3; cbn [ibufs callers havedisk1 qnext idequeue with_idev]; try done. by rewrite C1.
Qed.

(** The oldest request is done. *)
Definition popped (v : verdict) (a : ast) (b : nat) (x : buf) (rest : list (Z * nat)) (w : list (Z * block)) : ast :=
  mk_ast (mk_bio (alter (synced v a.(abio).(disk)) b a.(abio).(bufs)) (sync_disk v a.(abio).(disk) x) a.(abio).(disksize) w)
    rest (alter (fun _ => true) b a.(acallers)).

Lemma popped_buf v a b x rest w c y : c <> b -> (popped v a b x rest w).(abio).(bufs) !! c = Some y <-> a.(abio).(bufs) !! c = Some y.
Proof. intros Hne. cbn [popped abio bufs]. by rewrite list_lookup_alter_ne. Qed.

Lemma irel_popped s a v me b x rest w s' :
  irel s a -> a.(pend) = (me, b) :: rest -> a.(abio).(bufs) !! b = Some x ->
  s'.(ibufs) = alter (synced v a.(abio).(disk)) b s.(ibufs) -> s'.(callers) = alter (fun _ => true) b s.(callers) ->
  s'.(havedisk1) = s.(havedisk1) -> queued s'.(qnext) s'.(idequeue) rest.*2 ->
  serves s'.(idev) (popped v a b x rest w) ->
  (forall n, 0 <= n < FSSIZE -> (view s'.(idev)).(sect) 1 n = ahead (ruling s') (popped v a b x rest w) n) ->
  (view s'.(idev)).(present) 1 = true /\ (view s'.(idev)).(present) (drive (view s'.(idev))) = true ->
  irel s' (popped v a b x rest w).
Proof.
  intros [R1 R2 R3 R4 R5 R6 R7 R8 R9 R10 R11 R12] Hp Hx Eb Ec Eh Q V1 V2 V3. unfold waiting in *. rewrite Hp in *.
  cbn [fmap list_fmap snd] in R4, R11, R12. apply NoDup_cons in R4 as [Hb R4].
  split; unfold waiting in *; cbn [popped abio acallers pend bufs disksize] in *; try done; try congruence.
  - intros me' b' Hin. destruct (R5 me' b') as (y & Hy & Hr); [by right|]. exists y. split; [|done].
    rewrite list_lookup_alter_ne; [done|]. intros <-. apply Hb. by apply (list_elem_of_fmap_2 snd) in Hin.
  - intros c Hc. rewrite lookup_alter. destruct (decide (b = c)) as [<-|Hne].
    + destruct (R11 b) as [u ->]; [by left|by eexists].
    + apply R11. by right.
  - intros c Hs Hn. rewrite lookup_alter in Hs |- *. destruct (decide (b = c)) as [<-|Hne].
    + destruct (R11 b) as [u ->]; [by left|]. split; [done|]. rewrite list_lookup_alter_eq, Hx. eexists. split; [done|].
      apply synced_flags.
    + rewrite list_lookup_alter_ne by done. apply R12; [done|]. intros [->|?]%elem_of_cons; done.
Qed.

(** The disk is given the next request. *)
Lemma next_run s a v me b x rest w s1 :
  irel s a -> v = ruling s -> a.(pend) = (me, b) :: rest -> a.(abio).(bufs) !! b = Some x ->
  s1.(ibufs) = alter (synced v a.(abio).(disk)) b s.(ibufs) -> s1.(callers) = alter (fun _ => true) b s.(callers) ->
  s1.(havedisk1) = s.(havedisk1) -> queued s1.(qnext) s1.(idequeue) rest.*2 -> accepting s1.(idev) ->
  (view s1.(idev)).(sect) = (view s.(idev)).(sect) -> (view s1.(idev)).(present) = (view s.(idev)).(present) ->
  drive (view s1.(idev)) = drive (view s.(idev)) ->
  exists s2, (match s1.(idequeue) with None => mret tt | Some _ => idestart polls s1.(idequeue) end) s1 = Ok (tt, s2) /\
    irel s2 (popped v a b x rest w).
Proof.
  intros R Hv Hp Hx Eb Ec Eh Q A Ds Dp Dd. destruct (ir_present _ _ R) as [P1 P2].
  assert (Dk : forall n, 0 <= n < FSSIZE -> (view s1.(idev)).(sect) 1 n = sync_disk v a.(abio).(disk) x n).
  { intros n Hn. rewrite Ds, (ir_disk _ _ R) by done. unfold ahead. by rewrite Hp, Hx, Hv. }
  destruct rest as [|[me2 b2] rest]; cbn [fmap list_fmap snd] in Q.
  - rewrite Q. eexists. split; [reflexivity|]. apply (irel_popped s a v me b x []); try done. by rewrite Dp, Dd.
  - destruct (ir_req _ _ R me2 b2) as (y & Hy & Hry); [rewrite Hp; right; by left|].
    assert (Hne : b2 <> b).
    { pose proof (ir_nodup _ _ R) as N. unfold waiting in N. rewrite Hp in N. apply NoDup_cons in N as [N _]. intros ->. apply N. by left. }
    assert (Hy1 : s1.(ibufs) !! b2 = Some y) by (rewrite Eb, list_lookup_alter_ne by done; by rewrite (ir_bufs _ _ R)).
    destruct (idestart_run s1 b2 y) as (d2 & E2 & St); try apply Hry.
    { done. } { split; [by rewrite Dp, Dd|done]. } { by rewrite Dp. }
    destruct Q as [Q2 Q]. rewrite Q2. eexists. split; [exact E2|]. apply (irel_popped s a v me b x ((me2, b2) :: rest)); try done; cbn [idev with_idev].
    + unfold serves. cbn [pend popped]. exists y. split; [by apply popped_buf|]. split; apply St.
    + intros n Hn. unfold ahead. cbn [pend popped]. rewrite (proj2 (popped_buf v a b x ((me2, b2) :: rest) w b2 y Hne) Hy).
      apply (started_disk y (view s1.(idev))); [done|by rewrite (ruling_head _ b2 y)|by apply Dk].
    + by rewrite (st_drive _ _ _ St), (st_present _ _ _ St), Dp.
Qed.

Lemma intr_simulates : simulates EIntr.
Proof.
  intros s a R _. exists None. cbn [istep astep]. pose proof (ir_queue _ _ R) as Q. unfold waiting in Q.
  destruct a.(pend) as [|[me b] rest] eqn:Hp; cbn [fmap list_fmap snd queued] in Q.
  { exists s, a. split_and!; [| |done].
    - erewrite kM_bind_run; [reflexivity|]. unfold ideintr. erewrite kM_bind_run by reflexivity. by rewrite Q.
    - erewrite kM_bind_run; [reflexivity|]. unfold aintr. by rewrite Hp. }
  set (v := ruling s). destruct Q as [Q1 Q]. destruct (ir_req _ _ R me b) as (x & Hx & Hr); [rewrite Hp; by left|].
  destruct (aintr_run a me b x rest v Hp Hx Hr (ir_size _ _ R)) as (w & M).
  pose proof (ir_serves _ _ R) as Sv. unfold serves in Sv. rewrite Hp in Sv. destruct Sv as (x' & Hx' & Hd & _).
  rewrite Hx in Hx'. injection Hx' as <-.
  assert (Hxs : s.(ibufs) !! b = Some x) by (by rewrite (ir_bufs _ _ R)).
  destruct (finish_run (with_queue s (s.(qnext) b)) b x) as (d & F & A & Ds & Dp & Dd); [done|apply (ir_present _ _ R)|done|].
  cbn [idev with_queue ibufs idequeue qnext havedisk1 callers] in *. rewrite <- (ruling_head s b x Q1 Hxs) in F. fold v in F.
  assert (Es : alter (synced v ((view s.(idev)).(sect) 1)) b s.(ibufs) = alter (synced v a.(abio).(disk)) b s.(ibufs)).
  { apply list_alter_ext; [|done]. intros y Hy. rewrite Hxs in Hy. injection Hy as <-. unfold synced. destruct v; [|done].
    destruct (dirty x) eqn:Hdx; [done|].
    rewrite (ir_disk _ _ R) by apply Hr. unfold ahead, sync_disk. by rewrite Hp, Hx, Hdx. }
  rewrite Es in F. match type of F with _ = Ok (_, ?t) => set (s1 := t) in F end.
  destruct (next_run s a v me b x rest w s1) as (s2 & E2 & R2); try done.
  exists s2, (popped v a b x rest w). split_and!; [| |done].
  - erewrite kM_bind_run; [reflexivity|]. unfold ideintr. erewrite kM_bind_run by reflexivity. rewrite Q1.
    erewrite kM_bind_run by reflexivity. rewrite (kM_bind_run _ _ _ _ _ F). erewrite kM_bind_run by reflexivity. exact E2.
  - erewrite kM_bind_run; [reflexivity|]. exact M.
Qed.

Lemma kick_simulates b : simulates (EKick b).
Proof.
  intros s a R _. exists None. eexists _, _. split_and!; [reflexivity|reflexivity|].
  destruct R as [R1 R2 R3 R4 R5 R6 R7 R8 R9 R10 R11 R12]. split; try done; cbn [callers acallers with_callers].
  - by rewrite R2.
  - intros c Hc. rewrite lookup_alter. destruct (R11 c Hc) as [v Hv]. destruct (decide (b = c)) as [->|]; rewrite Hv; by eexists.
  - intros c Hs Hn. rewrite lookup_alter in Hs |- *. destruct (decide (b = c)) as [->|]; [|by apply R12].
    destruct (a.(acallers) !! c) as [v|] eqn:E; [|by destruct Hs]. destruct (R12 c) as [_ Hx]; [by rewrite E|done|done].
Qed.

Lemma resume_simulates b : simulates (EResume b).
Proof.
  intros s a R Hb. cbn [legal] in Hb. cbn [istep astep]. pose proof R as [R1 R2 R3 R4 R5 R6 R7 R8 R9 R10 R11 R12].
  destruct (decide (b ∈ waiting a)) as [Hw|Hw].
  - destruct (waiting_pend a b Hw) as [me Hm]. destruct (R5 me b Hm) as (x & Hx & Hr).
    exists None. eexists _, _. split_and!.
    + erewrite (kM_bind_run _ _ _ false); [reflexivity|]. apply wait_sleeps with x; [by rewrite R1|apply Hr].
    + erewrite kM_bind_run by reflexivity. by rewrite decide_True.
    + split; try done; cbn [callers acallers with_callers]; [by rewrite R2| |].
      * intros c Hc. rewrite lookup_insert. destruct (decide (b = c)); [by eexists|by apply R11].
      * intros c Hs Hn. rewrite lookup_insert in Hs |- *. destruct (decide (b = c)) as [->|]; [done|by apply R12].
  - destruct (R12 b) as (_ & x & Hx & Hf); [by rewrite Hb|done|]. exists (Some b). eexists _, _. split_and!.
    + erewrite (kM_bind_run _ _ _ true); [reflexivity|]. apply wait_returns with x; [by rewrite R1|done].
    + erewrite kM_bind_run by reflexivity. by rewrite decide_False.
    + split; try done; cbn [callers acallers with_callers]; [by rewrite R2| |].
      * intros c Hc. rewrite lookup_delete_ne; [by apply R11|]. by intros ->.
      * intros c Hs Hn. rewrite lookup_delete in Hs |- *. destruct (decide (b = c)) as [->|]; [by destruct Hs|by apply R12].
Qed.

Lemma client_simulates bs : simulates (EClient bs).
Proof.
  intros s a R [Hl Hk]. exists None. eexists _, _. split_and!; [reflexivity|reflexivity|].
  destruct R as [R1 R2 R3 R4 R5 R6 R7 R8 R9 R10 R11 R12].
  assert (W : forall me b, (me, b) ∈ a.(pend) -> exists x y, a.(abio).(bufs) !! b = Some x /\ bs !! b = Some y /\ kept x y /\ request me x).
  { intros me b Hin. destruct (R5 me b Hin) as (x & Hx & Hr). destruct (Hk b x) as (y & Hy & K); [|done|by exists x, y].
    apply R11. by apply (list_elem_of_fmap_2 snd) in Hin. }
  split; try done; cbn [abio acallers pend bufs].
  - intros me b Hin. destruct (W me b Hin) as (x & y & _ & Hy & (K1 & K2 & K3 & K4 & K5) & [Q1 Q2 Q3 Q4 Q5]).
    exists y. split; [done|]. split; congruence.
  - unfold serves in *. cbn [pend abio bufs]. destruct a.(pend) as [|[me b] rest]; [done|].
    destruct (W me b) as (x & y & Hx & Hy & (K1 & K2 & K3 & K4 & K5) & _); [by left|]. destruct R6 as (x' & Hx' & Hd & Hi).
    rewrite Hx in Hx'. injection Hx' as <-. exists y. unfold dirty. by rewrite K1, K3.
  - intros n Hn. cbn [idev with_ibufs]. rewrite R7 by done. unfold ahead, waiting in *. cbn [pend abio bufs disk]. destruct a.(pend) as [|[me b] rest]; [done|].
    destruct (W me b) as (x & y & Hx & Hy & (K1 & K2 & K3 & K4 & K5) & _); [by left|]. rewrite Hx, Hy.
    assert (E : ruling (with_ibufs s bs) = ruling s).
    { destruct R3 as [R3 _]. rewrite (ruling_head s b x R3), (ruling_head (with_ibufs s bs) b y R3); [|done|by rewrite R1].
      cbn [idev with_ibufs]. by rewrite K3. }
    rewrite E. unfold sync_disk, dirty. by rewrite K1, K3, K5.
  - intros b Hs Hn. destruct (R12 b Hs Hn) as (Hc & x & Hx & Hf). split; [done|]. destruct (Hk b x Hs Hx) as (y & Hy & K1 & _).
    exists y. by rewrite K1.
Qed.

Lemma run_simulates evs s a :
  irel s a -> legal_run (history evs s) a ->
  exists rs s' a', irun polls evs s = Ok (rs, s') /\ arun (history evs s) a = Ok (rs, a') /\ irel s' a' /\
    (history evs s).*1 = evs.
Proof.
  revert s a. induction evs as [|e evs IH]; intros s a R Hl; [by exists [], s, a|]. cbn [history legal_run] in Hl. destruct Hl as [Hl Hn].
  assert (St : simulates e).
  { destruct e; auto using start_simulates, intr_simulates, kick_simulates, resume_simulates, client_simulates. }
  destruct (St s a R Hl) as (r & s1 & a1 & I1 & A1 & R1).
  rewrite I1 in Hn. destruct (IH s1 a1 R1 (Hn r a1 A1)) as (rs & s2 & a2 & I2 & A2 & R2 & H2).
  exists (r :: rs), s2, a2. cbn [irun history arun fmap list_fmap fst]. rewrite I1, H2.
  rewrite (kM_bind_run _ _ _ _ _ I1), (kM_bind_run _ _ _ _ _ A1), (kM_bind_run _ _ _ _ _ I2), (kM_bind_run _ _ _ _ _ A2). done.
Qed.

(** ** Start *)

Lemma probe_run n s :
  (0 < n)%nat -> busy s.(idev) = O ->
  exists d, probe_loop n s = Ok (tt, with_havedisk1 (with_idev s d)
                                   (s.(havedisk1) || present (view s.(idev)) (drive (view s.(idev))))) /\
    view d = view s.(idev) /\ busy d = O /\ fault d = fault s.(idev).
Proof.
  revert s. induction n as [|n IH]; intros s Hn Hb; [lia|]. cbn [probe_loop]. pose proof (ata_poll s.(idev)) as P.
  unfold io. destruct (inb 0x1f7 s.(idev)) as [r d] eqn:E. erewrite kM_bind_run by (rewrite E; reflexivity).
  destruct P as (Hv & Hf & P). destruct (present (view s.(idev)) (drive (view s.(idev)))) eqn:Hp.
  - destruct P as (Hr & _ & _ & B). rewrite (proj2 (Z.eqb_neq r 0) Hr), orb_true_r. exists d. by rewrite B, Hb.
  - destruct P as [-> B]. rewrite Hb in B. change (negb (0 =? 0)) with false. cbv iota. rewrite orb_false_r. destruct n as [|n].
    { exists d. by destruct s. }
    destruct (IH (with_idev s d)) as (d' & R & V & B' & F); [lia|done|]. cbn [idev with_idev havedisk1] in *. rewrite Hv, Hp, orb_false_r in R.
    exists d'. by rewrite V, F.
Qed.

(** The second disk is found if it is there. *)
Lemma ideinit_run s :
  ready s ->
  exists d, ideinit polls s = Ok (tt, with_havedisk1 (with_idev s d) (s.(havedisk1) || present (view s.(idev)) 1)) /\
    accepting d /\ (view d).(sect) = (view s.(idev)).(sect) /\
    (view d).(present) = (view s.(idev)).(present) /\ drive (view d) = 0.
Proof.
  intros [Hp Ha]. destruct (idewait_run false s Hp) as (d & R & V & B & F).
  assert (T : takes d (view s.(idev))) by (split_and!; [done|done|]; unfold accepting in *; by rewrite V, F).
  apply (takes_reg _ _ 0x1f6 0xf0) in T as (B1 & V1 & A1); [|listed|done].
  destruct (probe_run 1000 (with_idev s (outb 0x1f6 0xf0 d))) as (d2 & R2 & V2 & B2 & F2); [lia|done|].
  cbn [idev with_idev havedisk1] in R2, V2, F2.
  assert (T2 : takes d2 (set_reg (view s.(idev)) 0x1f6 0xf0)).
  { split_and!; [done|by rewrite V2|]. unfold accepting in *. by rewrite V2, F2. }
  rewrite V1 in R2. change (drive (set_reg (view s.(idev)) 0x1f6 0xf0)) with 1 in R2.
  apply (takes_reg _ _ 0x1f6 0xe0) in T2 as (B3 & V3 & A3); [|listed|done].
  exists (outb 0x1f6 0xe0 d2). rewrite V3. split_and!; try reflexivity; [|exact A3]. unfold ideinit. rewrite (kM_bind_run _ _ _ _ _ R).
  erewrite kM_bind_run by reflexivity. change (Z.lor 0xe0 (Z.shiftl 1 4)) with 0xf0. rewrite (kM_bind_run _ _ _ _ _ R2). reflexivity.
Qed.

(** Before [ideinit]: no requests, an idle device with two drives, of which
    the second holds [dk]. *)
Record boot (s : ide (D := D)) (dk : Z -> block) : Prop := {
  bt_queue : s.(idequeue) = None;
  bt_callers : s.(callers) = ∅;
  bt_ready : accepting s.(idev);
  bt_present : (view s.(idev)).(present) 0 = true /\ (view s.(idev)).(present) 1 = true;
  bt_drive : drive (view s.(idev)) = 0;
  bt_disk : forall n, 0 <= n < FSSIZE -> (view s.(idev)).(sect) 1 n = dk n
}.

Definition ast0 (bs : list buf) (dk : Z -> block) : ast := mk_ast (mk_bio bs dk FSSIZE []) [] ∅.

Lemma boot_run s dk : boot s dk -> exists s', ideinit polls s = Ok (tt, s') /\ irel s' (ast0 s.(ibufs) dk).
Proof.
  intros [B1 B2 B3 [B4 B5] B6 B7]. destruct (ideinit_run s) as (d & R & V1 & V2 & V3 & V4); [split; [by rewrite B6|done]|].
  eexists. split; [exact R|]. rewrite B5, orb_true_r. split; unfold waiting; cbn; try done.
  - apply NoDup_nil_2.
  - by intros me b ?%not_elem_of_nil.
  - intros n Hn. rewrite V2. by apply B7.
  - by rewrite V3, V4.
  - by intros b ?%not_elem_of_nil.
  - intros b [x Hx]. by rewrite lookup_empty in Hx.
Qed.

(** C19. The driver of the disk behaves as the driver of memide.c, on which the
    kernel is verified.  For every number of callers, every order of calls,
    interrupts (also ones that come too early), wake-ups by [kill] and work of
    others on other buffers, and whatever requests the disk fails, the calls
    of [iderw] that return are the same and the buffers are the same as when
    each interrupt deals with the oldest request at once: with memide's
    [iderw] if the disk carried the request out; if it reports a fault, the
    buffer keeps its data and is marked valid and clean all the same, and of
    the disk only the sector of a write may have changed.  When no request
    waits the disks are the same. *)
Theorem ide_refines s dk evs :
  boot s dk -> legal_run (history0 evs s) (ast0 s.(ibufs) dk) ->
  exists rs s' a', (_ ← ideinit polls; irun polls evs) s = Ok (rs, s') /\
    (history0 evs s).*1 = evs /\ arun (history0 evs s) (ast0 s.(ibufs) dk) = Ok (rs, a') /\
    s'.(ibufs) = a'.(abio).(bufs) /\
    (waiting a' = [] -> forall n, 0 <= n < FSSIZE -> (view s'.(idev)).(sect) 1 n = a'.(abio).(disk) n).
Proof.
  intros Hb Hl. destruct (boot_run s dk Hb) as (s1 & E1 & R1). unfold history0 in *. rewrite E1 in *.
  destruct (run_simulates evs s1 _ R1 Hl) as (rs & s2 & a2 & E2 & A2 & R2 & Hh).
  exists rs, s2, a2. rewrite (kM_bind_run _ _ _ _ _ E1). split_and!; [done|done|done|apply R2|].
  intros W n Hn. rewrite (ir_disk _ _ R2) by done. unfold ahead, waiting in *. by destruct a2.(pend).
Qed.

Lemma irun_app e1 e2 s rs s1 rs' s2 :
  irun polls e1 s = Ok (rs, s1) -> irun polls e2 s1 = Ok (rs', s2) -> irun polls (e1 ++ e2) s = Ok (rs ++ rs', s2).
Proof.
  revert s rs. induction e1 as [|e e1 IH]; intros s rs H1 H2; cbn [irun app] in *.
  - injection H1 as <- <-. done.
  - apply kM_bind_Ok in H1 as (r & t & E & H1). apply kM_bind_Ok in H1 as (rs1 & t1 & E1 & H1). injection H1 as <- <-.
    rewrite (kM_bind_run _ _ _ _ _ E). by rewrite (kM_bind_run _ _ _ _ _ (IH t rs1 E1 H2)).
Qed.

Lemma aintr_pops v a r a' :
  astep EIntr v a = Ok (r, a') ->
  r = None /\ waiting a' = tail (waiting a) /\ forall c, is_Some (a.(acallers) !! c) -> is_Some (a'.(acallers) !! c).
Proof.
  cbn [astep]. unfold waiting. intros ([] & a1 & E & H1)%kM_bind_Ok. injection H1 as <- <-. split; [done|]. unfold aintr in E. destruct a.(pend) as [|[me b] rest] eqn:Hp.
  - injection E as <-. by rewrite Hp.
  - destruct (match v with Done => _ | Failed _ => _ end) as [[u B]|]; [|done]. injection E as <-. split; [done|]. cbn [acallers]. intros c [o Ho].
    rewrite lookup_alter. destruct (decide (b = c)) as [->|]; rewrite Ho; by eexists.
Qed.

Lemma intrs_run k s a :
  irel s a ->
  exists s' a', irun polls (replicate k EIntr) s = Ok (replicate k None, s') /\ irel s' a' /\ waiting a' = drop k (waiting a) /\
    forall c, is_Some (a.(acallers) !! c) -> is_Some (a'.(acallers) !! c).
Proof.
  revert s a. induction k as [|k IH]; intros s a R; [by exists s, a|].
  destruct (intr_simulates s a R I) as (r & s1 & a1 & E1 & A1 & R1). destruct (aintr_pops _ a r a1 A1) as (-> & W1 & C1).
  destruct (IH s1 a1 R1) as (s2 & a2 & E2 & R2 & W2 & C2). exists s2, a2. cbn [replicate irun].
  rewrite (kM_bind_run _ _ _ _ _ E1), (kM_bind_run _ _ _ _ _ E2). split_and!; [done|done| |by auto].
  rewrite W2, W1. destruct (waiting a); cbn [tail]; by rewrite ?drop_nil.
Qed.

(** C20. Nobody waits for ever: in every state that legal use of the driver
    reaches, after as many interrupts as there are requests up to a buffer's
    own, the caller for that buffer has been woken, and when it runs its call
    of [iderw] returns, whichever of the requests the disk fails. *)
Theorem ide_completes s dk evs rs a k b :
  boot s dk -> legal_run (history0 evs s) (ast0 s.(ibufs) dk) ->
  arun (history0 evs s) (ast0 s.(ibufs) dk) = Ok (rs, a) -> waiting a !! k = Some b ->
  exists s1 s2, (_ ← ideinit polls; irun polls (evs ++ replicate (S k) EIntr)) s = Ok (rs ++ replicate (S k) None, s1) /\
    s1.(callers) !! b = Some true /\ istep polls (EResume b) s1 = Ok (Some b, s2).
Proof.
  intros Hb Hl Ha Hk. destruct (boot_run s dk Hb) as (s1 & E1 & R1). unfold history0 in *. rewrite E1 in *.
  destruct (run_simulates evs s1 _ R1 Hl) as (rs' & s2 & a2 & E2 & A2 & R2 & _). rewrite Ha in A2. injection A2 as <- <-.
  destruct (intrs_run (S k) s2 a R2) as (s3 & a3 & E3 & R3 & W3 & C3).
  assert (Hw : b ∉ waiting a3).
  { rewrite W3. pose proof (ir_nodup _ _ R2) as N. rewrite <- (take_drop_middle _ _ _ Hk) in N. apply NoDup_app in N as (_ & _ & N).
    by apply NoDup_cons in N as [N _]. }
  destruct (ir_done _ _ R3 b) as [Hc _]; [|done|].
  { apply C3, (ir_in _ _ R2). by apply list_elem_of_lookup_2 with k. }
  destruct (resume_simulates b s3 a3 R3 Hc) as (r & s4 & a4 & E4 & A4 & _).
  exists s3, s4. rewrite (kM_bind_run _ _ _ _ _ E1). split_and!; [by apply irun_app with s2|by rewrite (ir_callers _ _ R3)|].
  rewrite E4. cbn [astep] in A4. erewrite kM_bind_run in A4 by reflexivity. rewrite decide_False in A4 by done. by injection A4 as <- _.
Qed.

End Refines.

(** ** A device

    A disk of two drives that is busy for one look after every command, and
    that fails the commands for sector 5. *)
Module IdeDemo.

Record sim := mk_sim { sim_ata : ata; sim_busy : bool; sim_err : bool }.

Definition sim_inb (p : Z) (d : sim) : Z * sim :=
  if d.(sim_ata).(present) (drive d.(sim_ata)) then
    (Z.lor (if d.(sim_busy) then IDE_BSY else IDE_DRDY) (if d.(sim_err) then IDE_ERR else 0), mk_sim d.(sim_ata) false d.(sim_err))
  else (0, d).

Definition sim_outb (p x : Z) (d : sim) : sim :=
  let v := d.(sim_ata) in
  if p =? 0x1f7 then
    mk_sim (set_doing v (if x =? IDE_CMD_READ then Reading (drive v) (lba v) else Expecting (drive v) (lba v))) true (lba v =? 5)
  else mk_sim (set_reg v p x) d.(sim_busy) d.(sim_err).

Definition sim_insl (p n : Z) (d : sim) : list Z * sim :=
  match d.(sim_ata).(doing) with
  | Reading dr m => (d.(sim_ata).(sect) dr m, mk_sim (set_doing d.(sim_ata) Idle) d.(sim_busy) d.(sim_err))
  | _ => ([], d)
  end.

Definition sim_outsl (p : Z) (bs : list Z) (d : sim) : sim :=
  match d.(sim_ata).(doing) with
  | Expecting dr m =>
      mk_sim (set_doing (set_sector d.(sim_ata) dr m (if d.(sim_err) then replicate 512 255 else bs)) Written) true d.(sim_err)
  | _ => d
  end.

#[local] Instance sim_device : Ata sim := {| inb := sim_inb; outb := sim_outb; insl := sim_insl; outsl := sim_outsl |}.

#[local] Instance sim_laws : AtaLaws sim 2.
Proof.
  refine (@Build_AtaLaws sim sim_device 2 sim_ata (fun d => if d.(sim_busy) then 1%nat else 0%nat) sim_err _ _ _ _ _ _).
  - intros [v b e]. cbn [inb sim_device]. unfold sim_inb. cbn [sim_ata sim_busy sim_err]. destruct (present v (drive v)); [|done]. by destruct b, e.
  - intros [v [] e]; cbn; lia.
  - intros p x [v b e] Hp Hx Hb Ha. cbn [outb sim_device sim_ata sim_busy sim_err] in *. unfold sim_outb. destruct (Z.eqb_spec p 0x1f7) as [->|]; [|done].
    by apply (bool_decide_pack _) in Hp.
  - done.
  - intros bs [v b e] dr n Hd _. cbn [outsl sim_device sim_ata sim_err] in *. unfold sim_outsl. cbn [sim_ata sim_err]. rewrite Hd.
    eexists. split; [reflexivity|]. cbn [sim_err]. by intros ->.
  - intros [v b e] dr n Hd _ _. cbn [insl sim_device sim_ata] in *. unfold sim_insl. cbn [sim_ata]. rewrite Hd. by eexists.
Defined.

(** Process 7 reads block 5 and process 8 writes block 6. *)
Definition reader : buf := mk_buf 0 1 5 (mk_sleeplock true 7) 1 0 0 (replicate BSIZE 0).
Definition writer : buf := mk_buf 4 1 6 (mk_sleeplock true 8) 1 0 0 (replicate BSIZE 9).

Definition contents : Z -> block := fun n => replicate BSIZE n.

Definition device0 : sim := mk_sim (mk_ata (fun _ => 0) Idle (fun _ => contents) (fun dr => (dr =? 0) || (dr =? 1))) false false.

Definition start : ide := mk_ide [reader; writer] None (fun _ => None) false device0 ∅.

Definition session : list event := [EStart 7 0; EStart 8 1; EKick 1; EResume 1; EIntr; EResume 0].

(** The interrupt finds that the read of block 5 has failed. *)
Definition verdicts : list (event * verdict) :=
  [(EStart 7 0, Done); (EStart 8 1, Failed (contents 5)); (EKick 1, Failed (contents 5)); (EResume 1, Failed (contents 5));
   (EIntr, Failed (contents 5)); (EResume 0, Done)].

Lemma session_verdicts : history0 session start = verdicts.
Proof. vm_compute. reflexivity. Qed.

Lemma start_boot : boot start contents.
Proof. split; try done. by left. Qed.

Definition next (e : event) (v : verdict) (a : ast) : ast := match astep e v a with Ok (_, a') => a' | Panic _ => a end.

Lemma legal_next e v evs a : legal e a -> legal_run evs (next e v a) -> legal_run ((e, v) :: evs) a.
Proof. intros H1 H2. split; [done|]. intros r a' E. unfold next in H2. by rewrite E in H2. Qed.

Lemma session_legal : legal_run (history0 session start) (ast0 [reader; writer] contents).
Proof.
  rewrite session_verdicts. unfold verdicts.
  apply legal_next; [split; [|split; [by intros ?%not_elem_of_nil|done]]; exists reader; split; [done|by split]|].
  apply legal_next; [split; [exists writer; split; [done|by split]|split; [|done]]; apply (bool_decide_unpack _); reflexivity|].
  apply legal_next; [done|]. apply legal_next; [reflexivity|]. apply legal_next; [done|]. by apply legal_next.
Qed.

Lemma ide_refines_witness :
  exists rs s' a', (_ ← ideinit 2; irun 2 session) start = Ok (rs, s') /\
    (history0 session start).*1 = session /\ arun (history0 session start) (ast0 [reader; writer] contents) = Ok (rs, a') /\
    s'.(ibufs) = a'.(abio).(bufs) /\
    (waiting a' = [] -> forall n, 0 <= n < FSSIZE -> s'.(idev).(sim_ata).(sect) 1 n = a'.(abio).(disk) n).
Proof. exact (ide_refines start contents session start_boot session_legal). Defined.

Definition after : ast := match arun verdicts (ast0 [reader; writer] contents) with Ok (_, a) => a | Panic _ => ast0 [] contents end.

Lemma ide_completes_witness :
  exists s1 s2, (_ ← ideinit 2; irun 2 (session ++ replicate 1 EIntr)) start =
      Ok ([None; None; None; None; None; Some 0%nat] ++ replicate 1 None, s1) /\
    s1.(callers) !! 1%nat = Some true /\ istep 2 (EResume 1) s1 = Ok (Some 1%nat, s2).
Proof.
  apply (ide_completes start contents session [None; None; None; None; None; Some 0%nat] after 0 1 start_boot session_legal);
    [rewrite session_verdicts|]; reflexivity.
Defined.

(** When the disk reports an error the buffer is not filled, but it is marked
    as valid all the same, and the caller returns with what was in it. *)
Theorem ideintr_hides_error :
  match (_ ← ideinit 2; irun 2 [EStart 7 0; EIntr; EResume 0]) start with
  | Ok (rs, s) => Some (rs, (fun x => (x.(flags), x.(data))) <$> s.(ibufs) !! 0%nat)
  | Panic _ => None
  end = Some ([None; None; Some 0%nat], Some (B_VALID, reader.(data))) /\ reader.(data) <> contents 5.
Proof. split; [vm_compute; reflexivity|done]. Qed.

End IdeDemo.
