(* ===== verification/Log.v ===== *)
(** * The write-ahead log (log.c)

    The in-memory header and counters over the buffer cache of [Bio].  Each
    function calls [bread], [bwrite] and [brelse] as the C does, so the order
    of the disk writes is the order of the code.  [begin_op] is one look at
    the log: either the caller is admitted or it sleeps and looks again. *)

From S2P Require Import Prelude Locks Bio Layout.

Definition MAXOPBLOCKS : Z := 10.
Definition LOGSIZE : Z := 30.

Record log := mk_log {
  start : Z;
  size : Z;
  outstanding : Z;
  committing : bool;
  ldev : Z;
  lh_n : Z;
  lh_block : list Z
}.

Definition with_n (l : log) (n : Z) : log :=
  mk_log l.(start) l.(size) l.(outstanding) l.(committing) l.(ldev) n l.(lh_block).
Definition with_block (l : log) (b : list Z) : log :=
  mk_log l.(start) l.(size) l.(outstanding) l.(committing) l.(ldev) l.(lh_n) b.
Definition with_outstanding (l : log) (n : Z) : log :=
  mk_log l.(start) l.(size) n l.(committing) l.(ldev) l.(lh_n) l.(lh_block).
Definition with_committing (l : log) (c : bool) : log :=
  mk_log l.(start) l.(size) l.(outstanding) c l.(ldev) l.(lh_n) l.(lh_block).

(** A zeroed [struct log]. *)
Definition log0 : log := mk_log 0 0 0 false 0 0 (replicate 30 0).

(** [woken] counts the calls of [wakeup(&log)]. *)
Record lgst := mk_lgst { lg : log; bc : bio; woken : nat }.

Definition onbio {A} (m : kM bio A) : kM lgst A :=
  fun s => match m s.(bc) with
           | Ok (a, b) => Ok (a, mk_lgst s.(lg) b s.(woken))
           | Panic msg => Panic msg
           end.

Definition getlog : kM lgst log := fun s => Ok (s.(lg), s).
Definition setlog (f : log -> log) : kM lgst unit :=
  kmodify (fun s => mk_lgst (f s.(lg)) s.(bc) s.(woken)).
Definition wakeup_log : kM lgst unit := kmodify (fun s => mk_lgst s.(lg) s.(bc) (S s.(woken))).

(** [lh.block[i]]. *)
Definition lblock (l : log) (i : Z) : Z := nth (Z.to_nat i) l.(lh_block) 0.

Section Log.
Variable me : Z.

(** One turn of the loop of [install_trans]: block [src] over block [dst]. *)
Definition install_one (tail : Z) : kM lgst unit :=
  l ← getlog;
  lbuf ← onbio (bread me l.(ldev) (u32 (l.(start) + tail + 1)));
  dbuf ← onbio (bread me l.(ldev) (u32 (lblock l tail)));
  x ← onbio (getb lbuf);
  _ ← onbio (setb dbuf (fun y => with_data y x.(data)));
  _ ← onbio (bwrite me dbuf);
  _ ← onbio (brelse me lbuf);
  onbio (brelse me dbuf).

Fixpoint for_tail (body : Z -> kM lgst unit) (tail : Z) (k : nat) : kM lgst unit :=
  match k with
  | O => mret tt
  | S k => _ ← body tail; for_tail body (tail + 1) k
  end.

Definition install_trans : kM lgst unit :=
  l ← getlog;
  for_tail install_one 0 (Z.to_nat l.(lh_n)).

(** Copy the words [block[0..n-1]] of a header block. *)
Fixpoint read_blocks (d : block) (i k : nat) (bl : list Z) : list Z :=
  match k with
  | O => bl
  | S k => read_blocks d (S i) k (<[i := s32 (get32 d (4 + 4 * i))]> bl)
  end.

Definition read_head : kM lgst unit :=
  l ← getlog;
  b ← onbio (bread me l.(ldev) (u32 l.(start)));
  x ← onbio (getb b);
  let n := s32 (get32 x.(data) 0) in
  _ ← setlog (fun l => with_n l n);
  _ ← setlog (fun l => with_block l (read_blocks x.(data) 0 (Z.to_nat n) l.(lh_block)));
  onbio (brelse me b).

Fixpoint put_blocks (bl : list Z) (i k : nat) (d : block) : block :=
  match k with
  | O => d
  | S k => put_blocks bl (S i) k (put32 d (4 + 4 * i) (nth i bl 0))
  end.

(** The header block that [write_head] writes over [d]. *)
Definition head_block (l : log) (d : block) : block :=
  put_blocks l.(lh_block) 0 (Z.to_nat l.(lh_n)) (put32 d 0 l.(lh_n)).

Definition write_head : kM lgst unit :=
  l ← getlog;
  b ← onbio (bread me l.(ldev) (u32 l.(start)));
  _ ← onbio (setb b (fun x => with_data x (head_block l x.(data))));
  _ ← onbio (bwrite me b);
  onbio (brelse me b).

Definition recover_from_log : kM lgst unit :=
  _ ← read_head;
  _ ← install_trans;
  _ ← setlog (fun l => with_n l 0);
  write_head.

Definition readsb (dv : Z) : kM lgst superblock :=
  b ← onbio (bread me dv 1);
  x ← onbio (getb b);
  _ ← onbio (brelse me b);
  mret (decode_sb x.(data)).

(** [sizeof(struct logheader)] is 4 + 4 * LOGSIZE. *)
Definition initlog (dv : Z) : kM lgst unit :=
  if Z.of_nat BSIZE <=? 4 + 4 * LOGSIZE then kpanic "initlog: too big logheader"
  else
    sb ← readsb dv;
    _ ← setlog (fun l => mk_log (s32 sb.(sb_logstart)) (s32 sb.(sb_nlog)) l.(outstanding)
                           l.(committing) dv l.(lh_n) l.(lh_block));
    recover_from_log.

Inductive begin_res := BeginSleep | Begun.

Definition begin_op : kM lgst begin_res :=
  l ← getlog;
  if l.(committing) then mret BeginSleep
  else if LOGSIZE <? l.(lh_n) + (l.(outstanding) + 1) * MAXOPBLOCKS then mret BeginSleep
  else
    _ ← setlog (fun l => with_outstanding l (l.(outstanding) + 1));
    mret Begun.

(** One turn of the loop of [write_log]. *)
Definition write_log_one (tail : Z) : kM lgst unit :=
  l ← getlog;
  to ← onbio (bread me l.(ldev) (u32 (l.(start) + tail + 1)));
  from ← onbio (bread me l.(ldev) (u32 (lblock l tail)));
  x ← onbio (getb from);
  _ ← onbio (setb to (fun y => with_data y x.(data)));
  _ ← onbio (bwrite me to);
  _ ← onbio (brelse me from);
  onbio (brelse me to).

Definition write_log : kM lgst unit :=
  l ← getlog;
  for_tail write_log_one 0 (Z.to_nat l.(lh_n)).

Definition commit : kM lgst unit :=
  l ← getlog;
  if 0 <? l.(lh_n) then
    _ ← write_log;
    _ ← write_head;
    _ ← install_trans;
    _ ← setlog (fun l => with_n l 0);
    write_head
  else mret tt.

Definition end_op : kM lgst unit :=
  _ ← setlog (fun l => with_outstanding l (l.(outstanding) - 1));
  l ← getlog;
  if l.(committing) then kpanic "log.committing"
  else if l.(outstanding) =? 0 then
    _ ← setlog (fun l => with_committing l true);
    _ ← commit;
    _ ← setlog (fun l => with_committing l false);
    wakeup_log
  else wakeup_log.

(** The index at which [log_write] stops: that of [bn], or [n]. *)
Fixpoint absorb_index (bl : list Z) (bn : Z) (i : Z) (k : nat) : Z :=
  match k with
  | O => i
  | S k => if u32 (nth (Z.to_nat i) bl 0) =? bn then i else absorb_index bl bn (i + 1) k
  end.

Definition log_write (b : nat) : kM lgst unit :=
  l ← getlog;
  if (LOGSIZE <=? l.(lh_n)) || (l.(size) - 1 <=? l.(lh_n)) then kpanic "too big a transaction"
  else if l.(outstanding) <? 1 then kpanic "log_write outside of trans"
  else
    x ← onbio (getb b);
    let i := absorb_index l.(lh_block) x.(blockno) 0 (Z.to_nat l.(lh_n)) in
    _ ← setlog (fun l => with_block l (<[Z.to_nat i := s32 x.(blockno)]> l.(lh_block)));
    _ ← (if i =? l.(lh_n) then setlog (fun l => with_n l (l.(lh_n) + 1)) else mret tt);
    onbio (setb b (fun x => with_flags x (Z.lor x.(flags) B_DIRTY))).

End Log.
