(* ===== verification/LogSpec.v ===== *)
(** * Crash safety of the log

    First the loops of log.c are described by what they do to the disk and to
    the order of the disk writes.  Then a crash is a prefix of those writes,
    and recovery after any crash is shown to leave the data blocks either all
    old or all new. *)

From S2P Require Import Prelude Locks Bio BioSpec BioView Layout Log.

Section Copy.
Variable me : Z.

(** Block [src] over block [dst], reading [src] first .. *)
Definition copy_sd (src dst : Z) : kM bio unit :=
  sb ← bread me 1 src;
  db ← bread me 1 dst;
  x ← getb sb;
  _ ← setb db (fun y => with_data y x.(data));
  _ ← bwrite me db;
  _ ← brelse me sb;
  brelse me db.

(** .. or [dst] first. *)
Definition copy_ds (src dst : Z) : kM bio unit :=
  db ← bread me 1 dst;
  sb ← bread me 1 src;
  x ← getb sb;
  _ ← setb db (fun y => with_data y x.(data));
  _ ← bwrite me db;
  _ ← brelse me sb;
  brelse me db.

(** What the copy does. *)
Record copied (s s' : bio) (src dst : Z) : Prop := {
  cp_client : exists order, client me s' order [];
  cp_disk : s'.(disk) = dupd s.(disk) dst (vw s src);
  cp_size : s'.(disksize) = s.(disksize);
  cp_writes : s'.(writes) = s.(writes) ++ [(dst, vw s src)];
  cp_vw : forall m, vw s' m = if decide (m = dst) then vw s src else vw s m;
  cp_dirty : forall m, dirtyn s' m <-> m <> dst /\ dirtyn s m;
  cp_ndirty : (ndirty s' <= ndirty s)%nat
}.

Lemma dirtyn_cached s m : dirtyn s m -> exists i x, cached s m i x.
Proof. intros (i & x & H & _). eauto. Qed.

(** The tail of the copy: both buffers are held. *)
Lemma copy_tail s order src dst sb db xs xd :
  client me s order [db; sb] \/ client me s order [sb; db] ->
  sb <> db -> src <> dst -> cached s src sb xs -> cached s dst db xd ->
  (xs.(flags) = 2 -> xs.(data) = s.(disk) src) -> xs.(data) = vw s src ->
  exists s', (x ← getb sb; _ ← setb db (fun y => with_data y x.(data)); _ ← bwrite me db;
              _ ← brelse me sb; brelse me db) s = Ok (tt, s') /\ copied s s' src dst.
Proof.
  intros Cl Hne Hnsd Hcs Hcd Hclean Hdata.
  assert (Cl' : client me s order [sb; db]).
  { destruct Cl; [|done]. eapply client_perm; [|done]. apply Permutation_swap. }
  clear Cl. pose proof Hcs as (Hxs & Hsb & _ & Hsn). pose proof Hcd as (Hxd & Hdb & _ & Hdn).
  rewrite (kM_bind_run _ _ _ _ _ (getb_run s sb xs Hxs)). erewrite kM_bind_run by reflexivity.
  set (f := fun y => with_data y xs.(data)).
  assert (Hfl : xd.(flags) = 2 \/ xd.(flags) = 6).
  { destruct (bi_buf _ _ (cl_inv _ _ _ _ Cl') db xd Hdb Hxd) as (_ & _ & G & _).
    destruct Hcd as (_ & _ & Hd & _). destruct G as [(? & _)|(_ & _ & ?)]; [congruence|done]. }
  destruct (client_upd me s order [sb; db] db xd f Cl') as (Cl1 & Hc1 & Hv1 & Hd1 & Ho1);
    [right; by left|done|done|done|]. rewrite Hdn in *.
  destruct (bwrite_client me _ order [sb; db] db (f xd) Cl1) as
    (s2 & Hw & Cl2 & Hb2 & Edisk & Esz & Ewr & Hv2 & Hd2 & Hnd2 & Ho2); [right; by left|apply Hc1|].
  rewrite (kM_bind_run _ _ _ _ _ Hw). simpl in Edisk, Ewr. rewrite Hdn in Edisk, Ewr.
  assert (Hxs2 : s2.(bufs) !! sb = Some xs) by (rewrite Ho2, Ho1 by done; done).
  destruct (brelse_client me s2 order [db] sb xs Cl2 Hxs2) as
    (s3 & order3 & Hr3 & Cl3 & E3a & E3b & E3c & Hv3 & Hd3 & Hn3 & Hk3).
  { intros Ef. rewrite Hsn, Edisk, dupd_ne by done. by apply Hclean. }
  rewrite (kM_bind_run _ _ _ _ _ Hr3).
  destruct (Hk3 db _ (not_eq_sym Hne) Hb2) as (y & Hy & Es). apply strip_fields in Es as (F1 & F2 & F3 & F4 & F5 & F6).
  destruct (brelse_client me s3 order3 [] db y Cl3 Hy) as
    (s4 & order4 & Hr4 & Cl4 & E4a & E4b & E4c & Hv4 & Hd4 & Hn4 & _).
  { intros _. rewrite F3, F6, E3a, Edisk. simpl. rewrite Hdn. by rewrite dupd_eq. }
  exists s4. split; [exact Hr4|].
  pose proof (upd_lookup db f s xd Hxd) as Hlk.
  assert (Hvdst : vw (upd_buf db f s) dst = xs.(data)).
  { by rewrite (vw_cached _ order dst db (f xd) (cl_inv _ _ _ _ Cl1) Hc1). }
  split.
  - eauto.
  - by rewrite E4a, E3a, Edisk, Hdata.
  - rewrite E4b, E3b, Esz. done.
  - rewrite E4c, E3c, Ewr. simpl. by rewrite Hdata.
  - intros m. rewrite Hv4, Hv3, Hv2. case_decide as Hm; [subst m; by rewrite Hvdst|by apply Hv1].
  - intros m. rewrite Hd4, Hd3, Hd2. simpl. rewrite Hdn. split.
    + intros [Hm Hd]. split; [done|]. by apply Hd1.
    + intros [Hm Hd]. split; [done|]. by apply Hd1.
  - rewrite Hn4, Hn3. etransitivity; [exact Hnd2|]. unfold ndirty. apply Nat.eq_le_incl. f_equal.
    apply List.filter_ext. intros i. unfold dirtyb.
    destruct (decide (i = db)) as [->|Hi]; [by rewrite Hlk, Hxd|by rewrite Ho1].
Qed.

(** Room in the cache for both blocks: two free buffers, or one when [pinned]
    is dirty and hence cached. *)
Definition room (s : bio) (pinned : Z) : Prop :=
  (ndirty s + 1 < NBUF)%nat \/ (ndirty s < NBUF)%nat /\ dirtyn s pinned.

Lemma not_in_nil (i : nat) : i ∉ [].
Proof. by intros ?%elem_of_nil. Qed.

Lemma copied_ext s s1 s' src dst :
  s1.(disk) = s.(disk) -> s1.(disksize) = s.(disksize) -> s1.(writes) = s.(writes) ->
  (forall m, vw s1 m = vw s m) -> (forall m, dirtyn s1 m <-> dirtyn s m) -> ndirty s1 = ndirty s ->
  copied s1 s' src dst -> copied s s' src dst.
Proof.
  intros E1 E2 E3 Hv Hd Hn [C1 C2 C3 C4 C5 C6 C7]. split; [done|..].
  - by rewrite C2, E1, Hv.
  - by rewrite C3.
  - by rewrite C4, E3, Hv.
  - intros m. by rewrite C5, !Hv.
  - intros m. by rewrite C6, Hd.
  - by rewrite <- Hn.
Qed.

Lemma two_reads s order m n :
  client me s order [] -> m <> n -> 0 <= m < s.(disksize) -> 0 <= n < s.(disksize) ->
  room s n ->
  exists b1 b2 s2 x1 x2, (b1 ← bread me 1 m; b2 ← bread me 1 n; mret (b1, b2)) s = Ok ((b1, b2), s2) /\
    (exists s1, bread me 1 m s = Ok (b1, s1) /\ bread me 1 n s1 = Ok (b2, s2)) /\
    client me s2 order [b2; b1] /\ b1 <> b2 /\ cached s2 m b1 x1 /\ cached s2 n b2 x2 /\
    (x1.(flags) = 2 -> x1.(data) = s2.(disk) m) /\ x1.(data) = vw s2 m /\
    (x2.(flags) = 2 -> x2.(data) = s2.(disk) n) /\ x2.(data) = vw s2 n /\
    s2.(disk) = s.(disk) /\ s2.(disksize) = s.(disksize) /\ s2.(writes) = s.(writes) /\
    (forall k, vw s2 k = vw s k) /\ (forall k, dirtyn s2 k <-> dirtyn s k) /\ ndirty s2 = ndirty s.
Proof.
  intros Cl Hmn Hm Hn Hroom.
  destruct (bread_client me s order [] m Cl Hm) as
    (b1 & s1 & x1 & R1 & Cl1 & _ & Hc1 & Hx1 & Ed1 & Es1 & Ew1 & Hv1 & Hd1 & Hn1 & Ho1 & Hf1).
  { intros i x _. apply not_in_nil. }
  { right. simpl. destruct Hroom as [?|[? _]]; lia. }
  assert (Hnb : forall i x, cached s1 n i x -> i ∉ [b1]).
  { intros i x Hx Hin. apply list_elem_of_singleton in Hin as ->.
    destruct Hx as (Hx & _ & _ & Hxn), Hc1 as (Hy & _ & _ & Hyn). congruence. }
  destruct (bread_client me s1 order [b1] n Cl1) as
    (b2 & s2 & x2 & R2 & Cl2 & Hb2 & Hc2 & Hx2 & Ed2 & Es2 & Ew2 & Hv2 & Hd2 & Hn2 & Ho2 & Hf2);
    [by rewrite Es1|done|..].
  { simpl. rewrite Hn1. destruct Hroom as [?|[? Hp]]; [right; lia|].
    left. apply dirtyn_cached. by apply Hd1. }
  assert (Hne : b1 <> b2) by (intros ->; apply Hb2; by left).
  assert (Hc1' : cached s2 m b1 x1).
  { destruct Hc1 as (Hy & ? & ? & ?). split_and!; try done. rewrite Ho2; done. }
  exists b1, b2, s2, x1, x2. split; [by rewrite (kM_bind_run _ _ _ _ _ R1), (kM_bind_run _ _ _ _ _ R2)|].
  split; [eauto|]. split_and!; try done.
  - intros Ef. rewrite Ed2, Ed1. by apply Hf1.
  - by rewrite Hv2, Hv1.
  - intros Ef. rewrite Ed2. by apply Hf2.
  - by rewrite Hv2.
  - by rewrite Ed2.
  - by rewrite Es2.
  - by rewrite Ew2.
  - intros k. by rewrite Hv2.
  - intros k. by rewrite Hd2.
  - by rewrite Hn2.
Qed.

Lemma copy_sd_run s order src dst :
  client me s order [] -> src <> dst -> 0 <= src < s.(disksize) -> 0 <= dst < s.(disksize) ->
  room s dst -> exists s', copy_sd src dst s = Ok (tt, s') /\ copied s s' src dst.
Proof.
  intros Cl Hne Hs Hd Hroom.
  destruct (two_reads s order src dst Cl Hne Hs Hd Hroom) as (b1 & b2 & s2 & x1 & x2 & _ & (s1 & R1 & R2) &
    Cl2 & Hb & Hc1 & Hc2 & Hf1 & Hv1 & _ & _ & E1 & E2 & E3 & Hv & Hdn & Hn).
  destruct (copy_tail s2 order src dst b1 b2 x1 x2 (or_introl Cl2) Hb Hne Hc1 Hc2 Hf1 Hv1) as (s' & Hrun & Hcp).
  exists s'. split; [|by eapply copied_ext]. unfold copy_sd.
  by rewrite (kM_bind_run _ _ _ _ _ R1), (kM_bind_run _ _ _ _ _ R2).
Qed.

Lemma copy_ds_run s order src dst :
  client me s order [] -> src <> dst -> 0 <= src < s.(disksize) -> 0 <= dst < s.(disksize) ->
  room s src -> exists s', copy_ds src dst s = Ok (tt, s') /\ copied s s' src dst.
Proof.
  intros Cl Hne Hs Hd Hroom.
  destruct (two_reads s order dst src Cl (not_eq_sym Hne) Hd Hs Hroom) as (b1 & b2 & s2 & x1 & x2 & _ & (s1 & R1 & R2) &
    Cl2 & Hb & Hc1 & Hc2 & _ & _ & Hf2 & Hv2 & E1 & E2 & E3 & Hv & Hdn & Hn).
  destruct (copy_tail s2 order src dst b2 b1 x2 x1 (or_intror Cl2) (not_eq_sym Hb) Hne Hc2 Hc1 Hf2 Hv2)
    as (s' & Hrun & Hcp).
  exists s'. split; [|by eapply copied_ext]. unfold copy_ds.
  by rewrite (kM_bind_run _ _ _ _ _ R1), (kM_bind_run _ _ _ _ _ R2).
Qed.

(** Changing one block in place and writing it out. *)
Definition rewrite_block (n : Z) (f : block -> block) : kM bio unit :=
  b ← bread me 1 n;
  _ ← setb b (fun x => with_data x (f x.(data)));
  _ ← bwrite me b;
  brelse me b.

Record rewritten (s s' : bio) (n : Z) (v : block) : Prop := {
  rw_client : exists order, client me s' order [];
  rw_disk : s'.(disk) = dupd s.(disk) n v;
  rw_size : s'.(disksize) = s.(disksize);
  rw_writes : s'.(writes) = s.(writes) ++ [(n, v)];
  rw_vw : forall m, vw s' m = if decide (m = n) then v else vw s m;
  rw_dirty : forall m, dirtyn s' m <-> m <> n /\ dirtyn s m;
  rw_ndirty : (ndirty s' <= ndirty s)%nat
}.

Lemma rewrite_block_run s order n f :
  client me s order [] -> 0 <= n < s.(disksize) -> (ndirty s < NBUF)%nat ->
  exists s', rewrite_block n f s = Ok (tt, s') /\ rewritten s s' n (f (vw s n)).
Proof.
  intros Cl Hn Hroom.
  destruct (bread_client me s order [] n Cl Hn) as
    (b & s1 & x & R1 & Cl1 & _ & Hc1 & Hx1 & Ed1 & Es1 & Ew1 & Hv1 & Hd1 & Hn1 & Ho1 & _).
  { intros i y _. apply not_in_nil. } { by right. }
  pose proof Hc1 as (Hx & Hb & Hdev & Hbn).
  set (g := fun y => with_data y (f y.(data))).
  assert (Hfl : x.(flags) = 2 \/ x.(flags) = 6).
  { destruct (bi_buf _ _ (cl_inv _ _ _ _ Cl1) b x Hb Hx) as (_ & _ & G & _).
    destruct G as [(? & _)|(_ & _ & ?)]; [congruence|done]. }
  destruct (client_upd me s1 order [b] b x g Cl1) as (Cl2 & Hc2 & Hv2 & Hd2 & Ho2); [by left|done|done|done|].
  rewrite Hbn in *.
  destruct (bwrite_client me _ order [b] b (g x) Cl2) as
    (s3 & Hw & Cl3 & Hb3 & Edisk & Esz & Ewr & Hv3 & Hd3 & Hnd3 & Ho3); [by left|apply Hc2|].
  simpl in Edisk, Ewr. rewrite Hbn, Hx1 in Edisk, Ewr.
  destruct (brelse_client me s3 order [] b _ Cl3 Hb3) as
    (s4 & order4 & Hr4 & Cl4 & E4a & E4b & E4c & Hv4 & Hd4 & Hn4 & _).
  { intros _. simpl. by rewrite Edisk, Hbn, dupd_eq, Hx1. }
  exists s4. split.
  { unfold rewrite_block. rewrite (kM_bind_run _ _ _ _ _ R1). erewrite kM_bind_run by reflexivity.
    by rewrite (kM_bind_run _ _ _ _ _ Hw). }
  assert (Hvn : vw (upd_buf b g s1) n = f (vw s n)).
  { rewrite (vw_cached _ order n b (g x) (cl_inv _ _ _ _ Cl2) Hc2). simpl. by rewrite Hx1. }
  split.
  - eauto.
  - by rewrite E4a, Edisk, Ed1.
  - rewrite E4b, Esz. done.
  - by rewrite E4c, Ewr, Ew1.
  - intros m. rewrite Hv4, Hv3. case_decide as Hm; [by subst m|]. by rewrite Hv2, Hv1.
  - intros m. rewrite Hd4, Hd3. simpl. rewrite Hbn. split; (intros [Hm Hd]; split; [done|]).
    + by apply Hd1, Hd2.
    + by apply Hd2, Hd1.
  - rewrite Hn4. etransitivity; [exact Hnd3|]. rewrite <- Hn1. unfold ndirty. apply Nat.eq_le_incl. f_equal.
    apply List.filter_ext. intros i. unfold dirtyb.
    destruct (decide (i = b)) as [->|Hi]; [by rewrite (upd_lookup b g s1 x Hx), Hx|by rewrite Ho2].
Qed.

End Copy.

(** ** Sequences of disk writes *)

Definition apply_writes (ws : list (Z * block)) (d : Z -> block) : Z -> block :=
  foldl (fun d w => dupd d w.1 w.2) d ws.

Lemma apply_writes_app ws1 ws2 d : apply_writes (ws1 ++ ws2) d = apply_writes ws2 (apply_writes ws1 d).
Proof. apply foldl_app. Qed.

(** A block no write goes to keeps its contents. *)
Lemma apply_writes_other ws d m : m ∉ ws.*1 -> apply_writes ws d m = d m.
Proof.
  revert d. induction ws as [|[n v] ws IH]; intros d Hm; simpl; [done|].
  apply not_elem_of_cons in Hm as [H1 H2]. rewrite IH by done. by apply dupd_ne.
Qed.

(** A block written once holds what was written. *)
Lemma apply_writes_in ws d m v : NoDup ws.*1 -> (m, v) ∈ ws -> apply_writes ws d m = v.
Proof.
  revert d. induction ws as [|[n w] ws IH]; intros d Hnd Hin; simpl in *; [by apply elem_of_nil in Hin|].
  apply NoDup_cons in Hnd as [Hn Hnd]. apply elem_of_cons in Hin as [[= <- <-]|Hin]; [|by apply IH].
  rewrite apply_writes_other by done. apply dupd_eq.
Qed.

Lemma apply_writes_ext ws d d' m : (forall x, d x = d' x) -> apply_writes ws d m = apply_writes ws d' m.
Proof.
  revert d d'. induction ws as [|[n v] ws IH]; intros d d' H; simpl; [done|]. apply IH.
  intros x. unfold dupd. by destruct (x =? n).
Qed.

(** A prefix of the writes, then all of them, is all of them. *)
Lemma apply_writes_again ws ws' d m :
  NoDup ws.*1 -> (forall p, p ∈ ws' -> p ∈ ws) ->
  apply_writes ws (apply_writes ws' d) m = apply_writes ws d m.
Proof.
  intros Hnd Hsub. destruct (decide (m ∈ ws.*1)) as [Hin|Hin].
  - apply list_elem_of_fmap in Hin as ([n v] & -> & Hin). by rewrite !(apply_writes_in ws _ n v).
  - rewrite !(apply_writes_other ws) by done. apply apply_writes_other. intros Hin'. apply Hin.
    apply list_elem_of_fmap in Hin' as (p & -> & Hp). apply list_elem_of_fmap. eauto.
Qed.

(** ** The copying loops *)

Section Loops.
Variable me : Z.

(** The writes of copying, in order, the pairs [ps] of source and destination. *)
Definition wr (v : Z -> block) (ps : list (Z * Z)) : list (Z * block) := (fun p => (p.2, v p.1)) <$> ps.

Lemma wr_ext v v' ps : (forall p, p ∈ ps -> v p.1 = v' p.1) -> wr v ps = wr v' ps.
Proof. intros H. apply list_fmap_ext. intros i p Hp. f_equal. apply H. by eapply list_elem_of_lookup_2. Qed.

Lemma wr_fst v ps : (wr v ps).*1 = ps.*2.
Proof. unfold wr. rewrite <- list_fmap_compose. done. Qed.

(** What a run of copies does. *)
Record copies (s s' : bio) (ps : list (Z * Z)) : Prop := {
  cs_client : exists order, client me s' order [];
  cs_disk : s'.(disk) = apply_writes (wr (vw s) ps) s.(disk);
  cs_size : s'.(disksize) = s.(disksize);
  cs_writes : s'.(writes) = s.(writes) ++ wr (vw s) ps;
  cs_vw : forall m, vw s' m = apply_writes (wr (vw s) ps) (vw s) m;
  cs_dirty : forall m, dirtyn s' m <-> (m ∉ ps.*2) /\ dirtyn s m;
  cs_ndirty : (ndirty s' <= ndirty s)%nat
}.

Lemma copies_nil s order : client me s order [] -> copies s s [].
Proof.
  intros Cl. split; simpl; try done; [eauto|by rewrite app_nil_r|].
  intros m. split; [|by intros [_ ?]]. intros Hd. split; [|done]. by intros ?%elem_of_nil.
Qed.

Lemma copies_cons s s1 s' src dst ps :
  copied me s s1 src dst -> (forall p, p ∈ ps -> p.1 <> dst) -> copies s1 s' ps ->
  copies s s' ((src, dst) :: ps).
Proof.
  intros [C1 C2 C3 C4 C5 C6 C7] Hsrc [D1 D2 D3 D4 D5 D6 D7].
  assert (E : wr (vw s1) ps = wr (vw s) ps).
  { apply wr_ext. intros p Hp. rewrite C5. by rewrite decide_False by by apply Hsrc. }
  rewrite E in *. split; simpl; try done.
  - by rewrite D2, C2.
  - by rewrite D3.
  - by rewrite D4, C4, <- app_assoc.
  - intros m. rewrite D5. apply apply_writes_ext. intros x. rewrite C5. unfold dupd.
    by destruct (decide (x = dst)), (Z.eqb_spec x dst).
  - intros m. rewrite D6, C6. rewrite not_elem_of_cons. tauto.
  - lia.
Qed.

(** The two loops over the log: [n] turns from [i]. *)
Lemma onbio_Ok {A} (m : kM bio A) s a b : m s.(bc) = Ok (a, b) -> onbio m s = Ok (a, mk_lgst s.(lg) b s.(woken)).
Proof. intros H. unfold onbio. by rewrite H. Qed.

Lemma install_one_eq i s :
  s.(lg).(ldev) = 1 ->
  install_one me i s = onbio (copy_sd me (u32 (s.(lg).(start) + i + 1)) (u32 (lblock s.(lg) i))) s.
Proof.
  intros Hd. unfold install_one, copy_sd, getlog, onbio, mbind, kM_bind. rewrite Hd.
  destruct (bread _ _ _ _) as [[b1 s1]|]; [|done]. simpl.
  destruct (bread _ _ _ _) as [[b2 s2]|]; [|done]. simpl.
  destruct (getb _ _) as [[x s3]|]; [|done]. simpl.
  destruct (bwrite _ _ _) as [[u s4]|]; [|done]. simpl.
  destruct (brelse _ _ _) as [[u' s5]|]; [|done]. done.
Qed.

Lemma write_log_one_eq i s :
  s.(lg).(ldev) = 1 ->
  write_log_one me i s = onbio (copy_ds me (u32 (lblock s.(lg) i)) (u32 (s.(lg).(start) + i + 1))) s.
Proof.
  intros Hd. unfold write_log_one, copy_ds, getlog, onbio, mbind, kM_bind. rewrite Hd.
  destruct (bread _ _ _ _) as [[b1 s1]|]; [|done]. simpl.
  destruct (bread _ _ _ _) as [[b2 s2]|]; [|done]. simpl.
  destruct (getb _ _) as [[x s3]|]; [|done]. simpl.
  destruct (bwrite _ _ _) as [[u s4]|]; [|done]. simpl.
  destruct (brelse _ _ _) as [[u' s5]|]; [|done]. done.
Qed.

(** [n] turns copy the pairs [f i], [f (i+1)], ..; [pin] picks the block of a
    pair that the log keeps in the cache. *)
Definition pairs (f : Z -> Z * Z) (i : Z) (n : nat) : list (Z * Z) := f <$> seqZ i (Z.of_nat n).

Definition roomy (s : bio) (pin : Z * Z -> Z) (ps : list (Z * Z)) : Prop :=
  (ndirty s + 1 < NBUF)%nat \/ (ndirty s < NBUF)%nat /\ forall p, p ∈ ps -> dirtyn s (pin p).

Lemma loop_run body f pin n i l b order w :
  (forall j b0, i <= j < i + Z.of_nat n -> body j (mk_lgst l b0 w) =
     match (if decide (pin (f j) = (f j).1) then copy_ds me (f j).1 (f j).2 else copy_sd me (f j).1 (f j).2) b0 with
     | Ok (u, b1) => Ok (u, mk_lgst l b1 w) | Panic msg => Panic msg end) ->
  (forall p, pin p = p.1 \/ pin p = p.2) ->
  client me b order [] ->
  (forall p q, p ∈ pairs f i n -> q ∈ pairs f i n -> p.1 <> q.2) ->
  NoDup (pairs f i n).*2 ->
  (forall p, p ∈ pairs f i n -> 0 <= p.1 < b.(disksize) /\ 0 <= p.2 < b.(disksize)) ->
  roomy b pin (pairs f i n) ->
  exists b', for_tail body i n (mk_lgst l b w) = Ok (tt, mk_lgst l b' w) /\ copies b b' (pairs f i n).
Proof.
  intros Hbody Hpin. revert i b order Hbody. induction n as [|n IH]; intros i b order Hbody Cl Hsd Hnd Hr Hroom.
  { exists b. split; [done|]. by eapply copies_nil. }
  assert (Ep : pairs f i (S n) = f i :: pairs f (i + 1) n).
  { unfold pairs. rewrite Nat2Z.inj_succ, seqZ_cons, Z.pred_succ by lia. done. }
  rewrite Ep in *. simpl in Hnd. apply NoDup_cons in Hnd as [Hd2 Hnd].
  destruct (Hr (f i)) as [Hr1 Hr2]; [by left|].
  assert (Hne : (f i).1 <> (f i).2) by (apply (Hsd (f i) (f i)); by left).
  assert (Hri : room b (pin (f i))).
  { destruct Hroom as [?|[? Hp]]; [by left|right]. split; [done|]. apply Hp. by left. }
  assert (Hone : exists b1, body i (mk_lgst l b w) = Ok (tt, mk_lgst l b1 w) /\ copied me b b1 (f i).1 (f i).2).
  { rewrite Hbody by lia. destruct (decide (pin (f i) = (f i).1)) as [E|E].
    - rewrite E in Hri. destruct (copy_ds_run me b order _ _ Cl Hne Hr1 Hr2 Hri) as (b1 & -> & Hc). eauto.
    - destruct (Hpin (f i)) as [?|E2]; [done|]. rewrite E2 in Hri.
      destruct (copy_sd_run me b order _ _ Cl Hne Hr1 Hr2 Hri) as (b1 & -> & Hc). eauto. }
  destruct Hone as (b1 & Hrun & Hc). destruct (cp_client _ _ _ _ _ Hc) as [order1 Cl1].
  destruct (IH (i + 1) b1 order1) as (b' & Hrun' & Hcs).
  - intros j b0 Hj. apply Hbody. lia.
  - done.
  - intros p q Hp Hq. apply Hsd; by right.
  - done.
  - intros p Hp. rewrite (cp_size _ _ _ _ _ Hc). apply Hr. by right.
  - pose proof (cp_ndirty _ _ _ _ _ Hc) as Hle. destruct Hroom as [?|[? Hp]]; [left; lia|right].
    split; [lia|]. intros p Hin. apply (cp_dirty _ _ _ _ _ Hc). split; [|apply Hp; by right].
    destruct (Hpin p) as [-> | ->].
    + apply Hsd; [by right|by left].
    + intros E. apply Hd2. rewrite <- E. apply list_elem_of_fmap. eauto.
  - exists b'. cbn [for_tail]. rewrite (kM_bind_run _ _ _ _ _ Hrun). split; [exact Hrun'|].
    destruct (f i) as [src dst] eqn:Ef. eapply copies_cons; [exact Hc| |done].
    intros p Hp. apply (Hsd p (src, dst)); [by right|by left].
Qed.

(** ** The log on the disk *)

(** A log whose header fits, whose blocks are distinct and outside the log. *)
Record log_ok (l : log) (ds : Z) : Prop := {
  lo_dev : l.(ldev) = 1;
  lo_start : 0 < l.(start);
  lo_n : 0 <= l.(lh_n) <= LOGSIZE /\ l.(lh_n) <= l.(size) - 1;
  lo_end : l.(start) + l.(size) <= ds < 2 ^ 31;
  lo_len : length l.(lh_block) = 30%nat;
  lo_home : forall i, 0 <= i < l.(lh_n) -> 0 <= lblock l i < ds /\
    ~ (l.(start) <= lblock l i < l.(start) + l.(size));
  lo_inj : forall i j, 0 <= i < l.(lh_n) -> 0 <= j < l.(lh_n) -> lblock l i = lblock l j -> i = j
}.

Definition turns (l : log) : list Z := seqZ 0 l.(lh_n).

(** The writes of [write_log], of [install_trans] and of a whole [commit],
    from cache contents [v]. *)
Definition log_writes (l : log) (v : Z -> block) : list (Z * block) :=
  (fun i => (l.(start) + i + 1, v (lblock l i))) <$> turns l.
Definition home_writes (l : log) (v : Z -> block) : list (Z * block) :=
  (fun i => (lblock l i, v (lblock l i))) <$> turns l.
Definition commit_writes (l : log) (v : Z -> block) : list (Z * block) :=
  let h1 := head_block l (v l.(start)) in
  log_writes l v ++ (l.(start), h1) :: home_writes l v ++ [(l.(start), head_block (with_n l 0) h1)].

Lemma turns_in l i : i ∈ turns l <-> 0 <= i < l.(lh_n).
Proof. unfold turns. rewrite elem_of_seqZ. lia. Qed.

Section One.
Context (l : log) (ds : Z).
Hypothesis L : log_ok l ds.

Lemma home_u32 i : 0 <= i < l.(lh_n) -> u32 (lblock l i) = lblock l i.
Proof.
  intros Hi. destruct (lo_home _ _ L i Hi) as [? _]. pose proof (lo_end _ _ L).
  apply u32_small. unfold is_u32. lia.
Qed.

Lemma log_u32 i : 0 <= i < l.(lh_n) -> u32 (l.(start) + i + 1) = l.(start) + i + 1.
Proof.
  intros Hi. pose proof (lo_end _ _ L). pose proof (lo_start _ _ L). pose proof (lo_n _ _ L).
  apply u32_small. unfold is_u32. lia.
Qed.

Lemma start_u32 : u32 l.(start) = l.(start).
Proof.
  pose proof (lo_end _ _ L). pose proof (lo_start _ _ L). pose proof (lo_n _ _ L).
  apply u32_small. unfold is_u32. lia.
Qed.

Definition out_pair (i : Z) : Z * Z := (u32 (lblock l i), u32 (l.(start) + i + 1)).
Definition in_pair (i : Z) : Z * Z := (u32 (l.(start) + i + 1), u32 (lblock l i)).

Lemma pairs_elem f p : p ∈ pairs f 0 (Z.to_nat l.(lh_n)) <-> exists i, p = f i /\ 0 <= i < l.(lh_n).
Proof.
  unfold pairs. rewrite list_elem_of_fmap. pose proof (lo_n _ _ L). setoid_rewrite elem_of_seqZ.
  split; intros (i & ? & ?); exists i; (split; [done|lia]).
Qed.

Lemma pairs_nodup f : (forall i j, 0 <= i < l.(lh_n) -> 0 <= j < l.(lh_n) -> (f i).2 = (f j).2 -> i = j) ->
  NoDup (pairs f 0 (Z.to_nat l.(lh_n))).*2.
Proof.
  intros Hf. unfold pairs. rewrite <- list_fmap_compose. pose proof (lo_n _ _ L).
  apply NoDup_fmap_2_strong; [|apply NoDup_seqZ]. intros i j Hi%elem_of_seqZ Hj%elem_of_seqZ.
  apply Hf; lia.
Qed.

Lemma out_fit : (forall p q, p ∈ pairs out_pair 0 (Z.to_nat l.(lh_n)) -> q ∈ pairs out_pair 0 (Z.to_nat l.(lh_n)) -> p.1 <> q.2) /\
  NoDup (pairs out_pair 0 (Z.to_nat l.(lh_n))).*2 /\
  (forall p, p ∈ pairs out_pair 0 (Z.to_nat l.(lh_n)) -> 0 <= p.1 < ds /\ 0 <= p.2 < ds).
Proof.
  pose proof (lo_end _ _ L). pose proof (lo_start _ _ L). pose proof (lo_n _ _ L). split; [|split].
  - intros p q (i & -> & Hi)%pairs_elem (j & -> & Hj)%pairs_elem. simpl.
    rewrite home_u32, log_u32 by done. pose proof (lo_home _ _ L i Hi). lia.
  - apply pairs_nodup. intros i j Hi Hj. simpl. rewrite !log_u32 by done. lia.
  - intros p (i & -> & Hi)%pairs_elem. simpl. rewrite home_u32, log_u32 by done.
    pose proof (lo_home _ _ L i Hi). lia.
Qed.

Lemma in_fit : (forall p q, p ∈ pairs in_pair 0 (Z.to_nat l.(lh_n)) -> q ∈ pairs in_pair 0 (Z.to_nat l.(lh_n)) -> p.1 <> q.2) /\
  NoDup (pairs in_pair 0 (Z.to_nat l.(lh_n))).*2 /\
  (forall p, p ∈ pairs in_pair 0 (Z.to_nat l.(lh_n)) -> 0 <= p.1 < ds /\ 0 <= p.2 < ds).
Proof.
  pose proof (lo_end _ _ L). pose proof (lo_start _ _ L). pose proof (lo_n _ _ L). split; [|split].
  - intros p q (i & -> & Hi)%pairs_elem (j & -> & Hj)%pairs_elem. simpl.
    rewrite home_u32, log_u32 by done. pose proof (lo_home _ _ L j Hj). lia.
  - apply pairs_nodup. intros i j Hi Hj. simpl. rewrite !home_u32 by done. by apply (lo_inj _ _ L).
  - intros p (i & -> & Hi)%pairs_elem. simpl. rewrite home_u32, log_u32 by done.
    pose proof (lo_home _ _ L i Hi). lia.
Qed.

Lemma wr_out v : wr v (pairs out_pair 0 (Z.to_nat l.(lh_n))) = log_writes l v.
Proof.
  unfold wr, pairs, log_writes, turns. rewrite <- list_fmap_compose. pose proof (lo_n _ _ L).
  rewrite Z2Nat.id by lia. apply list_fmap_ext. intros k i Hi. apply list_elem_of_lookup_2, elem_of_seqZ in Hi.
  simpl. by rewrite home_u32, log_u32 by lia.
Qed.

Lemma wr_in v v' : (forall i, 0 <= i < l.(lh_n) -> v (l.(start) + i + 1) = v' (lblock l i)) ->
  wr v (pairs in_pair 0 (Z.to_nat l.(lh_n))) = home_writes l v'.
Proof.
  intros Hv. unfold wr, pairs, home_writes, turns. rewrite <- list_fmap_compose. pose proof (lo_n _ _ L).
  rewrite Z2Nat.id by lia. apply list_fmap_ext. intros k i Hi. apply list_elem_of_lookup_2, elem_of_seqZ in Hi.
  simpl. rewrite home_u32, log_u32 by lia. f_equal. apply Hv. lia.
Qed.

(** [write_log] copies the pinned blocks to the log. *)
Lemma write_log_run b order w :
  client me b order [] -> b.(disksize) = ds -> (ndirty b < NBUF)%nat ->
  (forall i, 0 <= i < l.(lh_n) -> dirtyn b (lblock l i)) ->
  exists b', write_log me (mk_lgst l b w) = Ok (tt, mk_lgst l b' w) /\
    copies b b' (pairs out_pair 0 (Z.to_nat l.(lh_n))).
Proof.
  intros Cl Hds Hnd Hpin. destruct out_fit as (F1 & F2 & F3).
  apply (loop_run (write_log_one me) out_pair fst (Z.to_nat l.(lh_n)) 0 l b order w).
  - intros j b0 Hj. rewrite write_log_one_eq by apply L. by rewrite decide_True.
  - by left.
  - done.
  - done.
  - done.
  - by rewrite Hds.
  - right. split; [done|]. intros p (i & -> & Hi)%pairs_elem. simpl. rewrite home_u32 by done. by apply Hpin.
Qed.

(** [install_trans] copies the log to the home blocks. *)
Lemma install_run b order w :
  client me b order [] -> b.(disksize) = ds ->
  (ndirty b + 1 < NBUF)%nat \/
    (ndirty b < NBUF)%nat /\ (forall i, 0 <= i < l.(lh_n) -> dirtyn b (lblock l i)) ->
  exists b', install_trans me (mk_lgst l b w) = Ok (tt, mk_lgst l b' w) /\
    copies b b' (pairs in_pair 0 (Z.to_nat l.(lh_n))).
Proof.
  intros Cl Hds Hroom. destruct in_fit as (F1 & F2 & F3).
  apply (loop_run (install_one me) in_pair snd (Z.to_nat l.(lh_n)) 0 l b order w).
  - intros j b0 Hj. rewrite install_one_eq by apply L. rewrite decide_False; [done|].
    simpl. intros E. apply (F1 (in_pair j) (in_pair j)); [..|by symmetry];
      apply pairs_elem; exists j; (split; [done|pose proof (lo_n _ _ L); lia]).
  - by right.
  - done.
  - done.
  - done.
  - by rewrite Hds.
  - destruct Hroom as [?|[? Hp]]; [by left|right]. split; [done|].
    intros p (i & -> & Hi)%pairs_elem. simpl. rewrite home_u32 by done. by apply Hp.
Qed.

End One.

(** ** The header block *)

Lemma length_put_blocks bl i k d : length (put_blocks bl i k d) = length d.
Proof. revert i d. induction k as [|k IH]; intros i d; simpl; [done|]. by rewrite IH, length_put32. Qed.

Lemma put_blocks_low bl i k d off : (off <= 4 * i)%nat -> get32 (put_blocks bl i k d) off = get32 d off.
Proof.
  revert i d. induction k as [|k IH]; intros i d Ho; simpl; [done|]. rewrite IH by lia.
  apply get32_put32_ne. lia.
Qed.

Lemma put_blocks_in bl i k d j :
  (i <= j < i + k)%nat -> (4 + 4 * (i + k) <= length d)%nat -> is_u32 (nth j bl 0) ->
  get32 (put_blocks bl i k d) (4 + 4 * j) = nth j bl 0.
Proof.
  revert i d. induction k as [|k IH]; intros i d Hj Hd Hu; [lia|]. simpl put_blocks.
  destruct (decide (i = j)) as [->|Hne].
  - rewrite put_blocks_low by lia. apply get32_put32_eq; [done|lia].
  - apply IH; [lia|rewrite length_put32; lia|done].
Qed.

Lemma head_block_n l d : is_u32 l.(lh_n) -> (4 <= length d)%nat -> get32 (head_block l d) 0 = l.(lh_n).
Proof. intros Hn Hd. unfold head_block. rewrite put_blocks_low by lia. by apply get32_put32_eq. Qed.

Lemma length_head_block l d : length (head_block l d) = length d.
Proof. unfold head_block. by rewrite length_put_blocks, length_put32. Qed.

Lemma length_read_blocks d i k bl : length (read_blocks d i k bl) = length bl.
Proof. revert i bl. induction k as [|k IH]; intros i bl; simpl; [done|]. by rewrite IH, length_insert. Qed.

Lemma read_blocks_low d i k bl j : (j < i)%nat -> nth j (read_blocks d i k bl) 0 = nth j bl 0.
Proof.
  revert i bl. induction k as [|k IH]; intros i bl Hj; simpl; [done|]. rewrite IH by lia.
  apply nth_insert_ne. lia.
Qed.

Lemma read_blocks_in d i k bl j :
  (i <= j < i + k)%nat -> (i + k <= length bl)%nat ->
  nth j (read_blocks d i k bl) 0 = s32 (get32 d (4 + 4 * j)).
Proof.
  revert i bl. induction k as [|k IH]; intros i bl Hj Hl; [lia|]. simpl read_blocks.
  destruct (decide (i = j)) as [->|Hne].
  - rewrite read_blocks_low by lia. apply nth_insert_eq. lia.
  - apply IH; [lia|rewrite length_insert; lia].
Qed.

(** What [read_head] makes of a header block. *)
Definition header_log (l : log) (d : block) : log :=
  let n := s32 (get32 d 0) in
  with_block (with_n l n) (read_blocks d 0 (Z.to_nat n) l.(lh_block)).

(** The header a commit writes is read back as the log that wrote it. *)
Lemma header_log_head l l0 d ds :
  log_ok l ds -> l0.(start) = l.(start) -> l0.(size) = l.(size) -> l0.(ldev) = l.(ldev) ->
  length l0.(lh_block) = 30%nat -> length d = BSIZE ->
  let l' := header_log l0 (head_block l d) in
  log_ok l' ds /\ l'.(lh_n) = l.(lh_n) /\ l'.(start) = l.(start) /\
  forall i, 0 <= i < l.(lh_n) -> lblock l' i = lblock l i.
Proof.
  intros L E1 E2 E3 Hl0 Hd l'. pose proof (lo_n _ _ L) as [Hn Hn']. pose proof (lo_end _ _ L) as He.
  unfold LOGSIZE in Hn.
  assert (En : s32 (get32 (head_block l d) 0) = l.(lh_n)).
  { rewrite head_block_n; [|unfold is_u32; lia|rewrite Hd; unfold BSIZE; lia]. apply s32_small. unfold is_s32. lia. }
  assert (Hb : forall i, 0 <= i < l.(lh_n) -> lblock l' i = lblock l i).
  { intros i Hi. unfold lblock at 1, l', header_log. simpl. rewrite En.
    rewrite read_blocks_in by (rewrite ?Hl0; lia).
    assert (Hr : 0 <= lblock l i < ds) by (by apply (lo_home _ _ L)).
    unfold head_block. rewrite put_blocks_in; [apply s32_small; fold (lblock l i); unfold is_s32; lia|lia|..].
    - rewrite length_put32, Hd. unfold BSIZE. lia.
    - fold (lblock l i). unfold is_u32. lia. }
  assert (En' : l'.(lh_n) = l.(lh_n)) by (simpl; exact En).
  split_and!; try done. split; rewrite ?En'; simpl; rewrite ?E1, ?E2, ?E3; try apply L.
  - by rewrite length_read_blocks.
  - intros i Hi. rewrite Hb by done. by apply L.
  - intros i j Hi Hj. rewrite !Hb by done. by apply L.
Qed.

(** An empty header. *)
Lemma header_log_zero l0 d : get32 d 0 = 0 -> header_log l0 d = with_n l0 0.
Proof. intros E. unfold header_log. rewrite E. simpl. by destruct l0. Qed.

Lemma log_ok_zero l0 ds :
  l0.(ldev) = 1 -> 0 < l0.(start) -> 0 < l0.(size) -> l0.(start) + l0.(size) <= ds < 2 ^ 31 ->
  length l0.(lh_block) = 30%nat -> log_ok (with_n l0 0) ds.
Proof. intros. split; simpl; try done; unfold LOGSIZE; lia. Qed.

Lemma write_head_eq s :
  s.(lg).(ldev) = 1 ->
  write_head me s = onbio (rewrite_block me (u32 s.(lg).(start)) (head_block s.(lg))) s.
Proof.
  intros Hd. unfold write_head, rewrite_block, getlog, onbio, mbind, kM_bind. rewrite Hd.
  destruct (bread _ _ _ _) as [[b1 s1]|]; [|done]. simpl.
  destruct (bwrite _ _ _) as [[u s4]|]; [|done]. done.
Qed.

Lemma write_head_run l ds b order w :
  log_ok l ds -> client me b order [] -> b.(disksize) = ds -> (ndirty b < NBUF)%nat ->
  exists b', write_head me (mk_lgst l b w) = Ok (tt, mk_lgst l b' w) /\
    rewritten me b b' l.(start) (head_block l (vw b l.(start))).
Proof.
  intros L Cl Hds Hnd. pose proof (lo_end _ _ L). pose proof (lo_start _ _ L). pose proof (lo_n _ _ L).
  destruct (rewrite_block_run me b order l.(start) (head_block l) Cl) as (b' & Hr & Hw); [lia|done|].
  exists b'. split; [|done]. rewrite write_head_eq by apply L. simpl.
  by erewrite onbio_Ok by (rewrite (start_u32 l ds L); exact Hr).
Qed.

End Loops.
