(* ===== verification/LogCrash.v ===== *)
(** * Commit, crash and recovery

    [commit] is a fixed sequence of disk writes; a crash keeps a prefix of
    it.  Recovery run by the next boot on any such disk leaves every block
    outside the log as before the commit, or every block as after it; and a
    crash during recovery changes nothing of that. *)

From S2P Require Import Prelude Locks Bio BioSpec BioView Layout Log LogSpec.

Section Writes.
Context (l : log) (ds : Z).
Hypothesis L : log_ok l ds.

Lemma log_writes_fst v m : m ∈ (log_writes l v).*1 <-> exists i, 0 <= i < l.(lh_n) /\ m = l.(start) + i + 1.
Proof.
  unfold log_writes. rewrite <- list_fmap_compose, list_elem_of_fmap. setoid_rewrite turns_in. simpl.
  split; intros (i & ? & ?); eauto.
Qed.

Lemma home_writes_fst v m : m ∈ (home_writes l v).*1 <-> exists i, 0 <= i < l.(lh_n) /\ m = lblock l i.
Proof.
  unfold home_writes. rewrite <- list_fmap_compose, list_elem_of_fmap. setoid_rewrite turns_in. simpl.
  split; intros (i & ? & ?); eauto.
Qed.

Lemma turns_nodup : NoDup (turns l).
Proof. apply NoDup_seqZ. Qed.

Lemma log_writes_nodup v : NoDup (log_writes l v).*1.
Proof.
  unfold log_writes. rewrite <- list_fmap_compose. apply NoDup_fmap_2_strong; [|apply turns_nodup].
  simpl. intros i j _ _ E. lia.
Qed.

Lemma home_writes_nodup v : NoDup (home_writes l v).*1.
Proof.
  unfold home_writes. rewrite <- list_fmap_compose. apply NoDup_fmap_2_strong; [|apply turns_nodup].
  simpl. intros i j Hi%turns_in Hj%turns_in. by apply (lo_inj _ _ L).
Qed.

Lemma log_writes_at v d i : 0 <= i < l.(lh_n) ->
  apply_writes (log_writes l v) d (l.(start) + i + 1) = v (lblock l i).
Proof.
  intros Hi. apply apply_writes_in; [apply log_writes_nodup|]. unfold log_writes. apply list_elem_of_fmap.
  exists i. split; [done|]. by apply turns_in.
Qed.

Lemma log_writes_start v d : apply_writes (log_writes l v) d l.(start) = d l.(start).
Proof. apply apply_writes_other. rewrite log_writes_fst. intros (i & ? & ?). lia. Qed.

(** Log writes do not touch blocks outside the log, home writes none inside. *)
Lemma log_writes_outside v d m : ~ (l.(start) <= m < l.(start) + l.(size)) ->
  apply_writes (log_writes l v) d m = d m.
Proof.
  intros Hm. apply apply_writes_other. rewrite log_writes_fst. intros (i & ? & ->).
  pose proof (lo_n _ _ L). lia.
Qed.

Lemma home_writes_inside v d m : l.(start) <= m < l.(start) + l.(size) ->
  apply_writes (home_writes l v) d m = d m.
Proof.
  intros Hm. apply apply_writes_other. rewrite home_writes_fst. intros (i & Hi & ->).
  by destruct (lo_home _ _ L i Hi).
Qed.

Lemma start_inside : l.(start) <= l.(start) < l.(start) + l.(size).
Proof. pose proof (lo_n _ _ L). lia. Qed.

End Writes.

Section Commit.
Variable me : Z.

(** [commit] returns, having written the log, the header, the home blocks and
    the cleared header, in that order. *)
Lemma commit_run l ds b order w :
  log_ok l ds -> 0 < l.(lh_n) -> client me b order [] -> b.(disksize) = ds -> (ndirty b < NBUF)%nat ->
  (forall i, 0 <= i < l.(lh_n) -> dirtyn b (lblock l i)) ->
  exists b', commit me (mk_lgst l b w) = Ok (tt, mk_lgst (with_n l 0) b' w) /\
    (exists order', client me b' order' []) /\ b'.(disksize) = ds /\
    b'.(writes) = b.(writes) ++ commit_writes l (vw b) /\
    b'.(disk) = apply_writes (commit_writes l (vw b)) b.(disk) /\
    (forall m, ~ (l.(start) <= m < l.(start) + l.(size)) -> vw b' m = vw b m) /\
    (forall m, dirtyn b' m -> dirtyn b m /\ forall i, 0 <= i < l.(lh_n) -> m <> lblock l i) /\
    (ndirty b' <= ndirty b)%nat.
Proof.
  intros L Hn Cl Hds Hnd Hpin. unfold commit. erewrite kM_bind_run by reflexivity. simpl.
  destruct (Z.ltb_spec 0 l.(lh_n)); [|lia].
  destruct (write_log_run me l ds L b order w Cl Hds Hnd Hpin) as (b1 & R1 & [[o1 C1] D1 S1 W1 V1 Y1 N1]).
  rewrite (kM_bind_run _ _ _ _ _ R1). rewrite (wr_out l ds L) in *.
  destruct (write_head_run me l ds b1 o1 w L C1) as (b2 & R2 & [[o2 C2] D2 S2 W2 V2 Y2 N2]); [congruence|lia|].
  rewrite (kM_bind_run _ _ _ _ _ R2).
  assert (E1 : vw b1 l.(start) = vw b l.(start)) by (rewrite V1; apply log_writes_start).
  rewrite E1 in *. set (h1 := head_block l (vw b l.(start))) in *.
  assert (Hlog : forall i, 0 <= i < l.(lh_n) -> vw b2 (l.(start) + i + 1) = vw b (lblock l i)).
  { intros i Hi. rewrite V2, decide_False by lia. rewrite V1. by apply log_writes_at. }
  assert (Hpin2 : forall i, 0 <= i < l.(lh_n) -> dirtyn b2 (lblock l i)).
  { intros i Hi. destruct (lo_home _ _ L i Hi) as [_ Hout]. pose proof (start_inside l ds L).
    apply Y2. split; [intros E; rewrite E in Hout; lia|]. apply Y1. split; [|by apply Hpin].
    rewrite <- (wr_fst (vw b)), (wr_out l ds L), log_writes_fst. intros (j & Hj & E).
    pose proof (lo_n _ _ L). lia. }
  destruct (install_run me l ds L b2 o2 w C2) as (b3 & R3 & [[o3 C3] D3 S3 W3 V3 Y3 N3]).
  { congruence. } { right. split; [lia|done]. }
  rewrite (kM_bind_run _ _ _ _ _ R3). erewrite kM_bind_run by reflexivity. cbn [lg bc woken].
  rewrite (wr_in l ds L _ (vw b) Hlog) in *.
  assert (L0 : log_ok (with_n l 0) ds).
  { pose proof (lo_n _ _ L). apply log_ok_zero; try apply L; lia. }
  destruct (write_head_run me (with_n l 0) ds b3 o3 w L0 C3) as (b4 & R4 & [C4 D4 S4 W4 V4 Y4 N4]); [congruence|lia|].
  simpl in *.
  assert (E3 : vw b3 l.(start) = h1).
  { rewrite V3, (home_writes_inside l ds L) by by apply (start_inside l ds L). by rewrite V2, decide_True. }
  rewrite E3 in *. exists b4. split; [exact R4|]. split; [done|]. split; [congruence|].
  unfold commit_writes. fold h1. split_and!.
  - rewrite W4, W3, W2, W1. by rewrite <- !app_assoc.
  - rewrite D4, D3, D2, D1. by rewrite apply_writes_app; simpl; rewrite apply_writes_app.
  - intros m Hm. pose proof (start_inside l ds L). rewrite V4, decide_False by (intros ->; lia). rewrite V3.
    destruct (decide (m ∈ (home_writes l (vw b)).*1)) as [Hin|Hin].
    + pose proof Hin as (i & Hi & ->)%home_writes_fst. apply apply_writes_in; [by eapply home_writes_nodup|].
      unfold home_writes. apply list_elem_of_fmap. exists i. split; [done|]. by apply turns_in.
    + rewrite apply_writes_other by done. rewrite V2, decide_False by (intros ->; lia).
      rewrite V1. by apply (log_writes_outside l ds L).
  - intros m Hd. apply Y4 in Hd as [_ Hd]. apply Y3 in Hd as [Hh Hd]. apply Y2 in Hd as [_ Hd]. apply Y1 in Hd as [_ Hd].
    split; [done|]. intros i Hi ->. apply Hh.
    rewrite <- (wr_fst (vw b2)), (wr_in l ds L _ (vw b) Hlog), home_writes_fst. eauto.
  - lia.
Qed.

(** ** Reading without changing *)

(** The cache may have moved but its contents, and the disk, have not. *)
Record same_contents (s s' : bio) : Prop := {
  sc_client : exists order, client me s' order [];
  sc_disk : s'.(disk) = s.(disk);
  sc_size : s'.(disksize) = s.(disksize);
  sc_writes : s'.(writes) = s.(writes);
  sc_vw : forall m, vw s' m = vw s m;
  sc_dirty : forall m, dirtyn s' m <-> dirtyn s m;
  sc_ndirty : ndirty s' = ndirty s
}.

Lemma peek_run s order n :
  client me s order [] -> 0 <= n < s.(disksize) -> (ndirty s < NBUF)%nat ->
  exists b s1 x s', bread me 1 n s = Ok (b, s1) /\ getb b s1 = Ok (x, s1) /\ x.(data) = vw s n /\
    brelse me b s1 = Ok (tt, s') /\ same_contents s s'.
Proof.
  intros Cl Hn Hroom. destruct (bread_client me s order [] n Cl Hn) as
    (b & s1 & x & R1 & Cl1 & _ & Hc1 & Hx1 & Ed1 & Es1 & Ew1 & Hv1 & Hd1 & Hn1 & Ho1 & Hf).
  { intros i y _. apply not_in_nil. } { by right. }
  pose proof Hc1 as (Hx & Hb & Hdev & Hbn).
  destruct (brelse_client me s1 order [] b x Cl1 Hx) as
    (s' & order' & Hr & Cl' & E1 & E2 & E3 & Hv & Hd & Hnd & _).
  { intros Ef. rewrite Ed1, Hbn. by apply Hf. }
  exists b, s1, x, s'. split_and!; try done; [by apply getb_run|]. split; [eauto|congruence..| |].
  - intros m. by rewrite Hd.
  - congruence.
Qed.

Lemma read_head_run l b order w :
  l.(ldev) = 1 -> u32 l.(start) = l.(start) -> 0 <= l.(start) < b.(disksize) ->
  client me b order [] -> (ndirty b < NBUF)%nat ->
  exists b', read_head me (mk_lgst l b w) = Ok (tt, mk_lgst (header_log l (vw b l.(start))) b' w) /\
    same_contents b b'.
Proof.
  intros Hd Hu Hs Cl Hnd. destruct (peek_run b order l.(start) Cl Hs Hnd) as (i & s1 & x & b' & R1 & R2 & Hx & R3 & S).
  exists b'. split; [|done]. unfold read_head. erewrite kM_bind_run by reflexivity. cbn [lg]. rewrite Hd, Hu.
  rewrite (kM_bind_run _ _ _ _ _ (onbio_Ok _ (mk_lgst l b w) _ _ R1)).
  rewrite (kM_bind_run _ _ _ _ _ (onbio_Ok _ (mk_lgst l s1 w) _ _ R2)).
  do 2 (erewrite kM_bind_run by reflexivity). rewrite Hx.
  by erewrite onbio_Ok by exact R3.
Qed.

(** ** Recovery *)

Definition recover_writes (l : log) (d : Z -> block) : list (Z * block) :=
  ((fun i => (lblock l i, d (l.(start) + i + 1))) <$> turns l) ++
  [(l.(start), head_block (with_n l 0) (d l.(start)))].

(** The disk after recovering [d] with a log placed as [l0]. *)
Definition recovered (l0 : log) (d : Z -> block) : Z -> block :=
  apply_writes (recover_writes (header_log l0 (d l0.(start))) d) d.

Lemma recover_run l0 ds b order w :
  let l := header_log l0 (b.(disk) l0.(start)) in
  log_ok l ds -> client me b order [] -> b.(disksize) = ds -> (ndirty b + 1 < NBUF)%nat ->
  (forall m, vw b m = b.(disk) m) ->
  exists b', recover_from_log me (mk_lgst l0 b w) = Ok (tt, mk_lgst (with_n l 0) b' w) /\
    (exists order', client me b' order' []) /\ b'.(disksize) = ds /\
    b'.(writes) = b.(writes) ++ recover_writes l b.(disk) /\ b'.(disk) = recovered l0 b.(disk).
Proof.
  intros l L Cl Hds Hnd Hclean. pose proof (start_inside l ds L) as Hin. pose proof (lo_end _ _ L).
  pose proof (lo_start _ _ L).
  destruct (read_head_run l0 b order w) as (b1 & R1 & [[o1 C1] D1 S1 W1 V1 Y1 N1]); try done.
  { apply (lo_dev _ _ L). } { apply (start_u32 l ds L). } { simpl in *. lia. } { lia. }
  unfold recover_from_log. rewrite (kM_bind_run _ _ _ _ _ R1). rewrite Hclean. fold l.
  destruct (install_run me l ds L b1 o1 w C1) as (b2 & R2 & [[o2 C2] D2 S2 W2 V2 Y2 N2]).
  { congruence. } { left. rewrite N1. lia. }
  rewrite (kM_bind_run _ _ _ _ _ R2). erewrite kM_bind_run by reflexivity. cbn [lg bc woken].
  assert (L0 : log_ok (with_n l 0) ds).
  { pose proof (lo_n _ _ L). apply log_ok_zero; try apply L; lia. }
  destruct (write_head_run me (with_n l 0) ds b2 o2 w L0 C2) as (b3 & R3 & [C3 D3 S3 W3 V3 Y3 N3]); [congruence|lia|].
  cbn [start with_n] in *.
  set (hw := (fun i => (lblock l i, b.(disk) (l.(start) + i + 1))) <$> turns l).
  assert (Ew : wr (vw b1) (pairs (in_pair l) 0 (Z.to_nat l.(lh_n))) = hw).
  { unfold wr, pairs, hw, turns. rewrite <- list_fmap_compose. pose proof (lo_n _ _ L).
    rewrite Z2Nat.id by lia. apply list_fmap_ext. intros k i Hi. apply list_elem_of_lookup_2, elem_of_seqZ in Hi.
    unfold in_pair, compose. cbn [fst snd]. rewrite (home_u32 l ds L), (log_u32 l ds L) by lia. by rewrite V1, Hclean. }
  rewrite Ew in *.
  assert (Es : vw b2 l.(start) = b.(disk) l.(start)).
  { rewrite V2, apply_writes_other; [by rewrite V1, Hclean|]. unfold hw. rewrite <- list_fmap_compose.
    intros (i & E & Hi%turns_in)%list_elem_of_fmap. unfold compose in E. cbn [fst] in E. destruct (lo_home _ _ L i Hi) as [_ Hout]. lia. }
  rewrite Es in *. exists b3. split; [exact R3|]. split; [done|]. split; [congruence|].
  unfold recovered, recover_writes. fold l. fold hw. split.
  - by rewrite W3, W2, W1, <- app_assoc.
  - by rewrite D3, D2, D1, apply_writes_app.
Qed.

End Commit.

(** ** Crashes *)

Lemma zero_header l d : length d = BSIZE -> get32 (head_block (with_n l 0) d) 0 = 0.
Proof. intros Hd. apply head_block_n; [split; simpl; lia|]. rewrite Hd. unfold BSIZE. lia. Qed.

Section Crash.
Context (l l0 : log) (ds : Z).
Hypothesis L : log_ok l ds.
(** [l0] is a log placed like [l]. *)
Hypothesis Hplace : l0.(start) = l.(start) /\ l0.(size) = l.(size) /\ l0.(ldev) = l.(ldev) /\
  length l0.(lh_block) = 30%nat.

Definition outside (m : Z) : Prop := ~ (l.(start) <= m < l.(start) + l.(size)).

Lemma zero_log : log_ok (with_n l0 0) ds.
Proof.
  destruct Hplace as (E1 & E2 & E3 & E4). pose proof (lo_n _ _ L). pose proof (lo_end _ _ L). pose proof (lo_start _ _ L).
  apply log_ok_zero; try lia. rewrite E3. apply L.
Qed.

(** Recovery of a disk whose header is empty. *)
Lemma recovered_empty d :
  get32 (d l.(start)) 0 = 0 -> length (d l.(start)) = BSIZE ->
  log_ok (header_log l0 (d l0.(start))) ds /\ get32 (recovered l0 d l.(start)) 0 = 0 /\
  forall m, outside m -> recovered l0 d m = d m.
Proof.
  intros Hz Hd. destruct Hplace as (E1 & E2 & E3 & E4). pose proof zero_log as L0. unfold recovered.
  rewrite header_log_zero by by rewrite E1. split; [done|]. unfold recover_writes. simpl.
  split.
  - rewrite E1, dupd_eq. by apply zero_header.
  - intros m Hm. apply dupd_ne. pose proof (start_inside l ds L). unfold outside in Hm. rewrite E1. intros ->. lia.
Qed.

Context (v d0 : Z -> block).
Hypothesis Hlen : length (v l.(start)) = BSIZE /\ length (d0 l.(start)) = BSIZE.
Hypothesis Hempty : get32 (d0 l.(start)) 0 = 0.

(** Recovery of a disk whose header is that of [l] and whose log is complete. *)
Lemma recovered_full d e :
  d l.(start) = head_block l e -> length e = BSIZE ->
  (forall i, 0 <= i < l.(lh_n) -> d (l.(start) + i + 1) = v (lblock l i)) ->
  log_ok (header_log l0 (d l0.(start))) ds /\ get32 (recovered l0 d l.(start)) 0 = 0 /\
  forall m, outside m -> recovered l0 d m = apply_writes (home_writes l v) d m.
Proof.
  intros Hh He Hlog. destruct Hplace as (E1 & E2 & E3 & E4). unfold recovered. rewrite E1, Hh.
  destruct (header_log_head l l0 e ds L E1 E2 E3 E4 He) as (L' & En & Es & Hb).
  set (l' := header_log l0 (head_block l e)) in *. split; [done|].
  unfold recover_writes. rewrite Es.
  assert (Ew : ((fun i => (lblock l' i, d (l.(start) + i + 1))) <$> turns l') = home_writes l v).
  { unfold home_writes, turns. rewrite En. apply list_fmap_ext.
    intros k i Hi. apply list_elem_of_lookup_2, elem_of_seqZ in Hi. by rewrite Hb, Hlog by lia. }
  rewrite Ew, apply_writes_app. simpl. split.
  - rewrite dupd_eq. apply (zero_header l (d l.(start))). rewrite Hh, length_head_block. done.
  - intros m Hm. apply dupd_ne. pose proof (start_inside l ds L). unfold outside in Hm. intros ->. lia.
Qed.

Definition crash_disk (k : nat) : Z -> block := apply_writes (take k (commit_writes l v)) d0.

Lemma in_take {A} (x : A) k xs : x ∈ take k xs -> x ∈ xs.
Proof. intros H. rewrite <- (take_drop k xs). apply elem_of_app. by left. Qed.

Lemma take_log_other k d m : m ∉ (log_writes l v).*1 -> apply_writes (take k (log_writes l v)) d m = d m.
Proof.
  intros Hm. apply apply_writes_other. intros Hin. apply Hm. rewrite fmap_take in Hin. by eapply in_take.
Qed.

(** Off the log, applying the home writes does not care about the log. *)
Lemma home_outside d d' m :
  outside m -> (forall x, outside x -> d x = d' x) ->
  apply_writes (home_writes l v) d m = apply_writes (home_writes l v) d' m.
Proof.
  intros Hm Hd. destruct (decide (m ∈ (home_writes l v).*1)) as [Hin|Hin].
  - apply list_elem_of_fmap in Hin as ([n x] & -> & Hin).
    by rewrite !(apply_writes_in _ _ n x); [| |done| |done]; try by eapply home_writes_nodup.
  - rewrite !apply_writes_other by done. by apply Hd.
Qed.

Lemma log_header_outside m : outside m -> m <> l.(start).
Proof. intros Hm ->. apply Hm. by eapply start_inside. Qed.

(** Whatever the crash, recovery gives all of the old or all of the new. *)
Lemma crash_recovered k :
  log_ok (header_log l0 (crash_disk k l0.(start))) ds /\ get32 (recovered l0 (crash_disk k) l.(start)) 0 = 0 /\
  forall m, outside m -> recovered l0 (crash_disk k) m =
    if decide (k <= Z.to_nat l.(lh_n))%nat then d0 m else apply_writes (home_writes l v) d0 m.
Proof.
  assert (Hn : length (log_writes l v) = Z.to_nat l.(lh_n)).
  { unfold log_writes, turns. by rewrite length_fmap, length_seqZ. }
  assert (Hn' : length (home_writes l v) = Z.to_nat l.(lh_n)).
  { unfold home_writes, turns. by rewrite length_fmap, length_seqZ. }
  set (h1 := head_block l (v l.(start))).
  set (d1 := dupd (apply_writes (log_writes l v) d0) l.(start) h1).
  assert (Hd1 : forall x, outside x -> d1 x = d0 x).
  { intros x Hx. unfold d1. rewrite dupd_ne by by apply log_header_outside. by eapply log_writes_outside. }
  destruct (decide (k <= Z.to_nat l.(lh_n))%nat) as [Hk|Hk].
  - assert (Ed : crash_disk k = apply_writes (take k (log_writes l v)) d0).
    { unfold crash_disk, commit_writes. by rewrite take_app_le by lia. }
    assert (Es : crash_disk k l.(start) = d0 l.(start)).
    { rewrite Ed. apply take_log_other. rewrite log_writes_fst. intros (i & ? & ?). lia. }
    destruct (recovered_empty (crash_disk k)) as (H1 & H2 & H3); [by rewrite Es|rewrite Es; apply Hlen|].
    split_and!; try done. intros m Hm. rewrite H3, Ed by done. apply take_log_other.
    rewrite log_writes_fst. intros (i & ? & ->). unfold outside in Hm. pose proof (lo_n _ _ L). lia.
  - assert (Ek : exists j, crash_disk k = apply_writes (take j (home_writes l v ++
                   [(l.(start), head_block (with_n l 0) h1)])) d1).
    { exists (k - S (Z.to_nat l.(lh_n)))%nat. unfold crash_disk, commit_writes.
      rewrite take_app_ge by lia. rewrite apply_writes_app, Hn.
      replace (k - Z.to_nat l.(lh_n))%nat with (S (k - S (Z.to_nat l.(lh_n))))%nat by lia. done. }
    destruct Ek as [j Ek]. destruct (decide (j <= Z.to_nat l.(lh_n))%nat) as [Hj|Hj].
    + rewrite take_app_le in Ek by lia.
      assert (Hi : forall x, l.(start) <= x < l.(start) + l.(size) -> crash_disk k x = d1 x).
      { intros x Hx. rewrite Ek. apply apply_writes_other. rewrite fmap_take. intros Hin%in_take.
        apply home_writes_fst in Hin as (i & Hi & ->). by destruct (lo_home _ _ L i Hi). }
      pose proof (start_inside l ds L) as Hst.
      destruct (recovered_full (crash_disk k) (v l.(start))) as (H1 & H2 & H3).
      * rewrite Hi by done. unfold d1. apply dupd_eq.
      * apply Hlen.
      * intros i Hi'. pose proof (lo_n _ _ L). rewrite Hi by lia. unfold d1. rewrite dupd_ne by lia.
        by eapply log_writes_at.
      * split_and!; try done. intros m Hm. rewrite H3, Ek by done. rewrite apply_writes_again.
        -- by apply home_outside.
        -- by eapply home_writes_nodup.
        -- intros p. apply in_take.
    + rewrite take_ge in Ek by (rewrite length_app, Hn'; simpl; lia). rewrite apply_writes_app in Ek. simpl in Ek.
      assert (Es : crash_disk k l.(start) = head_block (with_n l 0) h1) by (rewrite Ek; apply dupd_eq).
      assert (Hh1 : length h1 = BSIZE) by (unfold h1; rewrite length_head_block; apply Hlen).
      destruct (recovered_empty (crash_disk k)) as (H1 & H2 & H3).
      * rewrite Es. by apply zero_header.
      * by rewrite Es, length_head_block.
      * split_and!; try done. intros m Hm. rewrite H3, Ek by done.
        rewrite dupd_ne by by apply log_header_outside. by apply home_outside.
Qed.

End Crash.

(** Recovery cut short after [j] writes and run again. *)
Lemma recovered_again l0 ds d j :
  let l := header_log l0 (d l0.(start)) in
  let d' := apply_writes (take j (recover_writes l d)) d in
  log_ok l ds -> length l0.(lh_block) = 30%nat -> length (d l.(start)) = BSIZE ->
  log_ok (header_log l0 (d' l0.(start))) ds /\ get32 (recovered l0 d' l.(start)) 0 = 0 /\
  forall m, outside l m -> recovered l0 d' m = recovered l0 d m.
Proof.
  intros l d' L Hl0 Hd. set (hw := (fun i => (lblock l i, d (l.(start) + i + 1))) <$> turns l).
  set (h0 := head_block (with_n l 0) (d l.(start))).
  assert (Er : recover_writes l d = hw ++ [(l.(start), h0)]) by done.
  assert (Hn : length hw = Z.to_nat l.(lh_n)) by (unfold hw, turns; by rewrite length_fmap, length_seqZ).
  assert (Hfst : forall m, m ∈ hw.*1 -> exists i, 0 <= i < l.(lh_n) /\ m = lblock l i).
  { intros m. unfold hw. rewrite <- list_fmap_compose. intros (i & -> & Hi%turns_in)%list_elem_of_fmap. by exists i. }
  assert (Hhw : forall m, l.(start) <= m < l.(start) + l.(size) -> m ∉ hw.*1).
  { intros m Hm (i & Hi & ->)%Hfst. by destruct (lo_home _ _ L i Hi). }
  pose proof (start_inside l ds L) as Hst.
  assert (Hplace : l0.(start) = l.(start) /\ l0.(size) = l.(size) /\ l0.(ldev) = l.(ldev) /\ length l0.(lh_block) = 30%nat) by done.
  destruct (decide (j <= Z.to_nat l.(lh_n))%nat) as [Hj|Hj].
  - assert (Ed : d' = apply_writes (take j hw) d) by (unfold d'; by rewrite Er, take_app_le by lia).
    assert (Hin : forall x, l.(start) <= x < l.(start) + l.(size) -> d' x = d x).
    { intros x Hx. rewrite Ed. apply apply_writes_other. rewrite fmap_take. intros H%in_take. by apply (Hhw x). }
    assert (Es : d' l0.(start) = d l0.(start)) by by apply Hin.
    assert (Ew : recover_writes l d' = recover_writes l d).
    { unfold recover_writes. rewrite (Hin l.(start)) by done. f_equal. apply list_fmap_ext. intros k i Hi.
      apply list_elem_of_lookup_2, turns_in in Hi. f_equal. apply Hin. pose proof (lo_n _ _ L). lia. }
    assert (Hall : forall m, recovered l0 d' m = recovered l0 d m).
    { intros m. unfold recovered. rewrite Es. fold l. rewrite Ew, Ed. apply apply_writes_again.
      - rewrite Er, fmap_app. apply NoDup_app. split_and!.
        + unfold hw. rewrite <- list_fmap_compose. apply NoDup_fmap_2_strong; [|apply NoDup_seqZ].
          intros i i' Hi%turns_in Hi'%turns_in. by apply (lo_inj _ _ L).
        + intros x Hx Hs%list_elem_of_singleton. subst x. by apply (Hhw l.(start)).
        + apply NoDup_singleton.
      - intros p Hp%in_take. rewrite Er. apply elem_of_app. by left. }
    rewrite Es. split; [done|]. split; [|by intros m _].
    rewrite Hall. unfold recovered. fold l. rewrite Er, apply_writes_app. simpl. rewrite dupd_eq.
    by apply zero_header.
  - assert (Ed : d' = dupd (apply_writes hw d) l.(start) h0).
    { unfold d'. rewrite Er, take_ge by (rewrite length_app, Hn; cbn [length]; lia). by rewrite apply_writes_app. }
    assert (Es : d' l.(start) = h0) by (rewrite Ed; apply dupd_eq).
    destruct (recovered_empty l l0 ds L Hplace d') as (H1 & H2 & H3).
    + rewrite Es. by apply zero_header.
    + by rewrite Es; unfold h0; rewrite length_head_block.
    + split_and!; try done. intros m Hm. rewrite H3 by done. unfold recovered. fold l. by rewrite Er, apply_writes_app, Ed.
Qed.

(** ** The code *)

Section Reboot.
Variable me : Z.

(** What the boot code and the first process do to the cache and the log. *)
Definition reboot (d : Z -> block) (ds : Z) : outcome lgst :=
  match binit (bio0 d ds) with
  | Ok (_, c) => match initlog me 1 (mk_lgst log0 c 0) with Ok (_, s) => Ok s | Panic msg => Panic msg end
  | Panic msg => Panic msg
  end.

(** The log a super block describes. *)
Definition sb_log (d : block) : log :=
  let sb := decode_sb d in
  mk_log (s32 sb.(sb_logstart)) (s32 sb.(sb_nlog)) 0 false 1 0 (replicate 30 0).

Lemma initlog_run b order ds :
  client me b order [] -> b.(disksize) = ds -> 1 < ds -> ndirty b = 0%nat -> (forall m, vw b m = b.(disk) m) ->
  let l0 := sb_log (b.(disk) 1) in
  let l := header_log l0 (b.(disk) l0.(start)) in
  log_ok l ds ->
  exists b', initlog me 1 (mk_lgst log0 b 0) = Ok (tt, mk_lgst (with_n l 0) b' 0) /\
    b'.(writes) = b.(writes) ++ recover_writes l b.(disk) /\ b'.(disk) = recovered l0 b.(disk).
Proof.
  intros Cl Hds Hds1 Hnd Hclean l0 l L.
  destruct (peek_run me b order 1 Cl) as (i & s1 & x & b1 & R1 & R2 & Hx & R3 & [[o1 C1] D1 S1 W1 V1 Y1 N1]).
  { lia. } { rewrite Hnd. unfold NBUF. lia. }
  destruct (recover_run me l0 ds b1 o1 0) as (b' & Hr & _ & _ & Hw & Hd).
  { rewrite D1. exact L. } { done. } { congruence. } { rewrite N1, Hnd. unfold NBUF. lia. }
  { intros m. by rewrite V1, D1. }
  rewrite D1, W1 in *. exists b'. split; [|done].
  unfold initlog. change (Z.of_nat BSIZE <=? 4 + 4 * LOGSIZE) with false. cbn iota.
  assert (Hsb : readsb me 1 (mk_lgst log0 b 0) = Ok (decode_sb (b.(disk) 1), mk_lgst log0 b1 0)).
  { unfold readsb. rewrite (kM_bind_run _ _ _ _ _ (onbio_Ok _ (mk_lgst log0 b 0) _ _ R1)).
    rewrite (kM_bind_run _ _ _ _ _ (onbio_Ok _ (mk_lgst log0 s1 0) _ _ R2)).
    rewrite (kM_bind_run _ _ _ _ _ (onbio_Ok _ (mk_lgst log0 s1 0) _ _ R3)). by rewrite Hx, Hclean. }
  rewrite (kM_bind_run _ _ _ _ _ Hsb). erewrite kM_bind_run by reflexivity. exact Hr.
Qed.

Lemma reboot_run d ds :
  1 < ds -> let l0 := sb_log (d 1) in let l := header_log l0 (d l0.(start)) in log_ok l ds ->
  exists s, reboot d ds = Ok s /\ s.(lg) = with_n l 0 /\ s.(bc).(writes) = recover_writes l d /\
    s.(bc).(disk) = recovered l0 d.
Proof.
  intros Hds l0 l L.
  destruct (fresh_client me booted_bufs boot_order d ds [] booted_ring booted_buf) as (H1 & H2 & H3 & _).
  destruct (initlog_run _ boot_order ds H1 eq_refl Hds H2 H3 L) as (b' & Hr & Hw & Hd).
  unfold reboot. rewrite binit_run, Hr. eexists. split; [reflexivity|].
  cbn [lg bc]. split; [reflexivity|]. split; [exact Hw|exact Hd].
Qed.

(** A disk with a log at [l]'s place, described by its super block in block 1. *)
Definition placed (l : log) (d : block) : Prop :=
  let sb := decode_sb d in s32 sb.(sb_logstart) = l.(start) /\ s32 sb.(sb_nlog) = l.(size).

(** C1. Crash safety of [commit]: it returns, and if the machine stops after
    any number [k] of the disk writes it makes, the next boot ([binit], then
    [initlog] with its recovery) also returns and leaves every block outside
    the log as it was before the commit, when the header had not been written
    ([k] at most the number of logged blocks), or as it is after the commit,
    otherwise; never a mixture.  The log is left empty. *)
Theorem commit_crash_safe l ds b order w :
  log_ok l ds -> 0 < l.(lh_n) -> client me b order [] -> b.(disksize) = ds -> (ndirty b < NBUF)%nat ->
  (forall i, 0 <= i < l.(lh_n) -> dirtyn b (lblock l i)) ->
  1 < l.(start) -> (forall i, 0 <= i < l.(lh_n) -> lblock l i <> 1) -> placed l (b.(disk) 1) ->
  get32 (b.(disk) l.(start)) 0 = 0 ->
  length (b.(disk) l.(start)) = BSIZE -> length (vw b l.(start)) = BSIZE ->
  exists b' ws, commit me (mk_lgst l b w) = Ok (tt, mk_lgst (with_n l 0) b' w) /\
    b'.(writes) = b.(writes) ++ ws /\
    forall k, exists s, reboot (apply_writes (take k ws) b.(disk)) ds = Ok s /\
      s.(lg).(lh_n) = 0 /\ get32 (s.(bc).(disk) l.(start)) 0 = 0 /\
      forall m, outside l m ->
        s.(bc).(disk) m = if decide (k <= Z.to_nat l.(lh_n))%nat then b.(disk) m else b'.(disk) m.
Proof.
  intros L Hn Cl Hds Hnd Hpin Hs1 Hh1 Hpl Hz Hl1 Hl2.
  destruct (commit_run me l ds b order w L Hn Cl Hds Hnd Hpin) as (b' & Hr & _ & _ & Hw & Hd & _).
  exists b', (commit_writes l (vw b)). split; [done|]. split; [done|]. intros k.
  change (apply_writes (take k (commit_writes l (vw b))) b.(disk)) with (crash_disk l (vw b) b.(disk) k).
  set (d := crash_disk l (vw b) b.(disk) k).
  assert (Hout1 : outside l 1) by (unfold outside; lia).
  assert (Hone : forall ws, (forall p, p ∈ ws -> p ∈ commit_writes l (vw b)) -> apply_writes ws b.(disk) 1 = b.(disk) 1).
  { intros ws Hsub. apply apply_writes_other. intros ([m x] & E & Hin)%list_elem_of_fmap. simpl in E. subst m.
    apply Hsub in Hin. unfold commit_writes in Hin.
    apply elem_of_app in Hin as [Hin|[Hin|[Hin|Hin]%elem_of_app]%elem_of_cons].
    - apply (list_elem_of_fmap_2 fst), log_writes_fst in Hin as (i & ? & E). simpl in E. lia.
    - injection Hin as E _. lia.
    - apply (list_elem_of_fmap_2 fst), home_writes_fst in Hin as (i & Hi & E). simpl in E. by apply (Hh1 i).
    - apply list_elem_of_singleton in Hin. injection Hin as E _. lia. }
  assert (E1 : d 1 = b.(disk) 1) by (apply Hone; intros p; apply in_take).
  set (l0 := sb_log (d 1)).
  assert (Hplace : l0.(start) = l.(start) /\ l0.(size) = l.(size) /\ l0.(ldev) = l.(ldev) /\ length l0.(lh_block) = 30%nat).
  { unfold l0. rewrite E1. destruct Hpl as [P1 P2]. rewrite (lo_dev _ _ L). split_and!; try done. }
  destruct (crash_recovered l l0 ds L Hplace (vw b) b.(disk) (conj Hl2 Hl1) Hz k) as (L' & H1 & H2). fold d in L', H1, H2.
  destruct (reboot_run d ds) as (s & Hs & El & _ & Ed); [pose proof (lo_end _ _ L); pose proof (lo_n _ _ L); lia|exact L'|].
  exists s. split; [exact Hs|]. rewrite El, Ed. split; [reflexivity|]. split; [exact H1|].
  intros m Hm. fold l0. rewrite (H2 m Hm). case_decide; [done|]. rewrite Hd. unfold commit_writes.
  rewrite apply_writes_app. simpl. rewrite apply_writes_app. simpl.
  rewrite dupd_ne by by eapply log_header_outside. apply (home_outside l ds L); [done|].
  intros x Hx. rewrite dupd_ne by by eapply log_header_outside. symmetry. by eapply log_writes_outside.
Qed.

(** C34. A crash during recovery is harmless: if the boot of a disk stops after
    any number [j] of its writes, the boot after that gives every block
    outside the log the contents the first boot would have given it. *)
Theorem recovery_restartable d ds :
  let l := header_log (sb_log (d 1)) (d (sb_log (d 1)).(start)) in
  log_ok l ds -> length (d l.(start)) = BSIZE -> 1 < l.(start) ->
  (forall i, 0 <= i < l.(lh_n) -> lblock l i <> 1) ->
  exists s, reboot d ds = Ok s /\ forall j, exists s',
    reboot (apply_writes (take j s.(bc).(writes)) d) ds = Ok s' /\ s'.(lg).(lh_n) = 0 /\
    forall m, outside l m -> s'.(bc).(disk) m = s.(bc).(disk) m.
Proof.
  intros l L Hd Hs1 Hh1. pose proof (lo_end _ _ L). pose proof (lo_n _ _ L).
  destruct (reboot_run d ds) as (s & Hs & El & Ew & Ed); [lia|exact L|]. exists s. split; [done|]. intros j.
  rewrite Ew. fold l. set (d' := apply_writes (take j (recover_writes l d)) d).
  destruct (recovered_again (sb_log (d 1)) ds d j L eq_refl Hd) as (L' & H1 & H2). fold l in L', H1, H2. fold d' in L', H1, H2.
  assert (E1 : d' 1 = d 1).
  { apply apply_writes_other. intros ([m x] & E & Hin%in_take)%list_elem_of_fmap. cbn [fst] in E. subst m.
    unfold recover_writes in Hin. apply elem_of_app in Hin as [Hin|Hin].
    - apply list_elem_of_fmap in Hin as (i & E & Hi%turns_in). injection E as E _. by apply (Hh1 i).
    - apply list_elem_of_singleton in Hin. assert (E : 1 = l.(start)) by (by injection Hin). lia. }
  destruct (reboot_run d' ds) as (s' & Hs' & El' & _ & Ed'); [lia|rewrite E1; exact L'|].
  exists s'. split; [exact Hs'|]. rewrite El', Ed', Ed, E1. split; [reflexivity|exact H2].
Qed.

End Reboot.
