(* ===== verification/LogTx.v ===== *)
(** * Transactions

    Between [begin_op] and the last [end_op] the log and the cache satisfy an
    invariant: the dirty buffers are exactly those of the logged blocks.
    [log_write] keeps it and absorbs repeated writes; the last [end_op] puts
    the contents of every block on the disk. *)

From S2P Require Import Prelude Locks Bio BioSpec BioView Layout Log LogSpec LogCrash.

Section Tx.
Variable me : Z.

(** [H] are the buffers the caller holds. *)
Record tx (ds : Z) (s : lgst) (order H : list nat) : Prop := {
  tx_log : log_ok s.(lg) ds;
  tx_client : client me s.(bc) order H;
  tx_size : s.(bc).(disksize) = ds;
  tx_pinned : forall i, 0 <= i < s.(lg).(lh_n) -> dirtyn s.(bc) (lblock s.(lg) i);
  tx_logged : forall m, dirtyn s.(bc) m -> exists i, 0 <= i < s.(lg).(lh_n) /\ m = lblock s.(lg) i
}.

(** ** The dirty buffers are no more than the logged blocks *)

Lemma dirtyb_cached s order i : binv s order -> (i < NBUF)%nat -> dirtyb s i = true ->
  exists x, cached s x.(blockno) i x /\ x.(flags) = 6.
Proof.
  intros B Hi Hd. unfold dirtyb in Hd. destruct (s.(bufs) !! i) as [x|] eqn:Hx; [|done].
  exists x. destruct (bi_buf _ _ B i x Hi Hx) as (_ & _ & G3 & _).
  destruct G3 as [(_ & Ef & _)|(Hdev & _ & [Ef|Ef])]; rewrite Ef in Hd; try done.
Qed.

(** An injection into [seqZ 0 n] bounds a list. *)
Lemma length_inj (xs : list nat) (f : nat -> Z) n :
  NoDup xs -> (forall i, i ∈ xs -> 0 <= f i < n) ->
  (forall i j, i ∈ xs -> j ∈ xs -> f i = f j -> i = j) -> (length xs <= Z.to_nat n)%nat.
Proof.
  intros Hnd Hr Hinj. rewrite <- (length_fmap f xs), <- (length_seqZ 0 n). apply submseteq_length.
  apply NoDup_submseteq.
  - apply NoDup_fmap_2_strong; done.
  - intros z (i & -> & Hi)%list_elem_of_fmap. apply elem_of_seqZ. specialize (Hr i Hi). lia.
Qed.

Definition slot_of (l : log) (m : Z) : Z :=
  default 0 (List.find (fun i => lblock l i =? m) (seqZ 0 l.(lh_n))).

Lemma slot_of_spec l m i : 0 <= i < l.(lh_n) -> m = lblock l i ->
  0 <= slot_of l m < l.(lh_n) /\ lblock l (slot_of l m) = m.
Proof.
  intros Hi ->. unfold slot_of. destruct (List.find _ _) as [j|] eqn:E; simpl.
  - apply find_some in E as [Hin He%Z.eqb_eq]. rewrite <- list_elem_of_In, elem_of_seqZ in Hin. split; [lia|done].
  - exfalso. assert (Hin : In i (seqZ 0 l.(lh_n))) by (rewrite <- list_elem_of_In, elem_of_seqZ; lia).
    pose proof (find_none _ _ E i Hin) as Hf. simpl in Hf. by rewrite Z.eqb_refl in Hf.
Qed.

Lemma tx_ndirty ds s order H : tx ds s order H -> (ndirty s.(bc) <= Z.to_nat s.(lg).(lh_n))%nat.
Proof.
  intros [L Cl _ _ Hlog]. pose proof (cl_inv _ _ _ _ Cl) as B. unfold ndirty.
  set (bn := fun i => default 0 (blockno <$> s.(bc).(bufs) !! i)).
  assert (Hin : forall i, i ∈ List.filter (dirtyb s.(bc)) (seq 0 NBUF) ->
            exists x, cached s.(bc) (bn i) i x /\ 0 <= slot_of s.(lg) (bn i) < s.(lg).(lh_n) /\
              lblock s.(lg) (slot_of s.(lg) (bn i)) = bn i).
  { intros i. rewrite list_elem_of_In, filter_In, <- list_elem_of_In, elem_of_seq. intros [Hi Hd].
    destruct (dirtyb_cached s.(bc) order i B) as (x & Hc & Hf); [lia|done|]. pose proof Hc as (Hx & _).
    assert (Eb : bn i = x.(blockno)) by (unfold bn; by rewrite Hx). rewrite Eb. exists x. split; [done|].
    destruct (Hlog x.(blockno)) as (j & Hj & E); [by exists i, x|]. by eapply slot_of_spec. }
  apply (length_inj _ (fun i => slot_of s.(lg) (bn i))).
  - apply NoDup_ListNoDup, List.NoDup_filter, NoDup_ListNoDup, NoDup_seq.
  - intros i (x & _ & ? & _)%Hin. done.
  - intros i j (x & Hx & _ & Ei)%Hin (y & Hy & _ & Ej)%Hin E. rewrite E, Ej in Ei. rewrite <- Ei in Hx.
    by eapply (bi_uniq _ _ B).
Qed.

(** A block that is not dirty is on the disk, once no buffer is held. *)
Lemma clean_on_disk s order m : client me s order [] -> ~ dirtyn s m -> vw s m = s.(disk) m.
Proof.
  intros Cl Hd. pose proof (cl_inv _ _ _ _ Cl) as B. pose proof (find_matches s order m B) as Hm.
  destruct (List.find (matches s 1 m) order) as [i|]; [|by apply vw_uncached].
  destruct Hm as (x & Hc). rewrite (vw_cached s order m i x B Hc). pose proof Hc as (Hx & Hi & Hdev & Hbn).
  destruct (bi_buf _ _ B i x Hi Hx) as (_ & _ & G3 & G4). rewrite <- Hbn. apply G4.
  - destruct G3 as [(? & _)|(_ & _ & [?|?])]; [congruence|done|]. destruct Hd. by exists i, x.
  - apply (cl_holds _ _ _ _ Cl i x Hi Hx). by intros ?%elem_of_nil.
Qed.

Lemma outside_dec l m : outside l m \/ l.(start) <= m < l.(start) + l.(size).
Proof. unfold outside. lia. Qed.

(** C33. The last [end_op] of a transaction commits: it returns with the log
    empty and idle, one wakeup sent, and the disk holding, for every block
    outside the log, the contents the cache had; nothing stays dirty. *)
Theorem end_op_commits ds s order :
  tx ds s order [] -> s.(lg).(size) <= LOGSIZE -> s.(lg).(outstanding) = 1 -> s.(lg).(committing) = false ->
  exists s', end_op me s = Ok (tt, s') /\ s'.(lg).(lh_n) = 0 /\ s'.(lg).(outstanding) = 0 /\
    s'.(lg).(committing) = false /\ s'.(woken) = S s.(woken) /\ (exists order', tx ds s' order' []) /\
    forall m, outside s.(lg) m -> s'.(bc).(disk) m = vw s.(bc) m /\ vw s'.(bc) m = vw s.(bc) m.
Proof.
  intros T Hsz Ho Hc. pose proof (tx_ndirty _ _ _ _ T) as Hnd. destruct T as [L Cl Hds Hpin Hlog].
  destruct s as [l b w]. cbn [lg bc woken] in *. pose proof (lo_n _ _ L) as [Hn1 Hn2]. pose proof (lo_n _ _ L) as Hn.
  set (l1 := with_committing (with_outstanding l 0) true).
  assert (L1 : log_ok l1 ds) by (split; apply L).
  assert (Lz : forall c, log_ok (with_n (with_committing (with_outstanding l 0) c) 0) ds).
  { intros c. pose proof (lo_end _ _ L). pose proof (lo_start _ _ L). apply log_ok_zero; cbn; try lia; apply L. }
  assert (Hrun : exists b', commit me (mk_lgst l1 b w) = Ok (tt, mk_lgst (with_n l1 0) b' w) /\
            (exists order', client me b' order' []) /\ b'.(disksize) = ds /\ (forall m, ~ dirtyn b' m) /\
            forall m, outside l m -> b'.(disk) m = vw b m /\ vw b' m = vw b m).
  { destruct (decide (0 < l.(lh_n))) as [Hpos|Hz].
    - destruct (commit_run me l1 ds b order w L1 Hpos Cl Hds) as (b' & Hr & C' & Hs' & _ & _ & Hv & Hd & _).
      { unfold LOGSIZE, NBUF in *. lia. } { exact Hpin. }
      exists b'. split_and!; try done.
      + intros m Hm. apply Hd in Hm as [Hm Hne]. apply Hlog in Hm as (i & Hi & ->). by apply (Hne i).
      + intros m Hm. split; [|by apply Hv]. destruct C' as [o' C']. rewrite <- Hv by done. symmetry.
        apply (clean_on_disk b' o' m C'). intros Hm'. apply Hd in Hm' as [Hm' Hne].
        apply Hlog in Hm' as (i & Hi & ->). by apply (Hne i).
    - assert (Hclean : forall m, ~ dirtyn b m) by (intros m (i & Hi & _)%Hlog; lia).
      exists b. split; [|split_and!; try done; [eauto|]].
      + unfold commit. erewrite kM_bind_run by reflexivity. cbn [lg]. destruct (Z.ltb_spec 0 l1.(lh_n)) as [Hp|_].
        * unfold l1 in Hp. simpl in Hp. lia.
        * assert (E : with_n l1 0 = l1) by (unfold l1, with_committing, with_n; cbn; f_equal; lia). by rewrite E.
      + intros m _. split; [|done]. symmetry. by eapply clean_on_disk. }
  destruct Hrun as (b' & Hr & [o' C'] & Hs' & Hd & Hv).
  exists (mk_lgst (with_n (with_committing (with_outstanding l 0) false) 0) b' (S w)). cbn [lg bc woken].
  split_and!; try done.
  - unfold end_op. erewrite kM_bind_run by reflexivity. erewrite kM_bind_run by reflexivity. cbn [lg bc woken].
    change (committing (with_outstanding l (outstanding l - 1))) with (committing l).
    change (outstanding (with_outstanding l (outstanding l - 1))) with (outstanding l - 1).
    rewrite Hc, Ho. change (1 - 1) with 0. cbn [Z.eqb]. cbn iota.
    erewrite kM_bind_run by reflexivity. cbn [lg bc woken].
    erewrite kM_bind_run by exact Hr. by erewrite kM_bind_run by reflexivity.
  - exists o'. split; [apply Lz|done|done| |].
    + intros i Hi. cbn in Hi. lia.
    + intros m Hm. by destruct (Hd m).
Qed.

(** ** log_write *)

Lemma absorb_index_spec bl bn i k :
  0 <= i -> let j := absorb_index bl bn i k in
  i <= j <= i + Z.of_nat k /\ (j < i + Z.of_nat k -> u32 (nth (Z.to_nat j) bl 0) = bn) /\
  (forall t, i <= t < j -> u32 (nth (Z.to_nat t) bl 0) <> bn).
Proof.
  revert i. induction k as [|k IH]; intros i Hi; simpl absorb_index.
  - split_and!; lia.
  - destruct (Z.eqb_spec (u32 (nth (Z.to_nat i) bl 0)) bn) as [E|E].
    + split_and!; try done; lia.
    + destruct (IH (i + 1)) as (H1 & H2 & H3); [lia|].
      split; [lia|split; [intros Hlt; apply H2; lia|]].
      intros t Ht. destruct (decide (t = i)) as [->|Hne]; [done|]. apply H3. lia.
Qed.

(** The log after [log_write] of block [m]. *)
Definition logged (l : log) (m : Z) : log :=
  let i := absorb_index l.(lh_block) m 0 (Z.to_nat l.(lh_n)) in
  let l' := with_block l (<[Z.to_nat i := s32 m]> l.(lh_block)) in
  if i =? l.(lh_n) then with_n l' (l.(lh_n) + 1) else l'.

Lemma logged_spec l ds m :
  log_ok l ds -> 0 <= m < ds -> outside l m -> l.(lh_n) < LOGSIZE -> l.(lh_n) < l.(size) - 1 ->
  log_ok (logged l m) ds /\
  (exists i, 0 <= i < (logged l m).(lh_n) /\ lblock (logged l m) i = m) /\
  (forall i, 0 <= i < l.(lh_n) -> lblock (logged l m) i = lblock l i) /\
  ((exists i, 0 <= i < l.(lh_n) /\ lblock l i = m) /\ (logged l m).(lh_n) = l.(lh_n) \/
   (forall i, 0 <= i < l.(lh_n) -> lblock l i <> m) /\ (logged l m).(lh_n) = l.(lh_n) + 1).
Proof.
  intros L Hm Hout Hn1 Hn2. pose proof (lo_end _ _ L) as He. pose proof (lo_n _ _ L) as [Hn _].
  destruct (absorb_index_spec l.(lh_block) m 0 (Z.to_nat l.(lh_n))) as (A1 & A2 & A3); [lia|].
  set (i := absorb_index _ _ _ _) in *. rewrite Z2Nat.id in * by lia. simpl in A1, A2.
  assert (Es : s32 m = m) by (apply s32_small; unfold is_s32; lia).
  assert (Eu : forall t, 0 <= t < l.(lh_n) -> u32 (nth (Z.to_nat t) l.(lh_block) 0) = lblock l t).
  { intros t Ht. by apply (home_u32 l ds L). }
  unfold LOGSIZE in *. pose proof (lo_len _ _ L) as Hlen.
  unfold logged. fold i. rewrite Es.
  destruct (Z.eqb_spec i l.(lh_n)) as [E|E].
  - assert (Hno : forall t, 0 <= t < l.(lh_n) -> lblock l t <> m).
    { intros t Ht. rewrite <- Eu by done. apply A3. lia. }
    set (l' := with_n _ _). assert (Hb : forall t, 0 <= t < l.(lh_n) -> lblock l' t = lblock l t).
    { intros t Ht. unfold lblock, l'. cbn. apply nth_insert_ne. lia. }
    assert (Hb' : lblock l' l.(lh_n) = m).
    { unfold lblock, l'. cbn. rewrite E. apply nth_insert_eq. lia. }
    split_and!; [|exists l.(lh_n); split; [cbn; lia|done]|done|right; by split].
    assert (En : l'.(lh_n) = l.(lh_n) + 1) by done.
    split; rewrite ?En; try apply L.
    + change l'.(size) with l.(size). unfold LOGSIZE. lia.
    + cbn. by rewrite length_insert.
    + intros t Ht. destruct (decide (t = l.(lh_n))) as [->|Hne]; [rewrite Hb'; exact (conj Hm Hout)|].
      rewrite Hb by lia. apply (lo_home _ _ L). lia.
    + intros t t' Ht Ht'. destruct (decide (t = l.(lh_n))) as [->|Hne], (decide (t' = l.(lh_n))) as [->|Hne']; try done.
      * rewrite Hb', (Hb t') by lia. intros E'. by destruct (Hno t'); [lia|].
      * rewrite Hb', (Hb t) by lia. intros E'. by destruct (Hno t); [lia|].
      * rewrite !Hb by lia. apply (lo_inj _ _ L); lia.
  - assert (Hi : lblock l i = m) by (rewrite <- Eu by lia; apply A2; lia).
    assert (El : with_block l (<[Z.to_nat i := m]> l.(lh_block)) = l).
    { destruct l as [a1 a2 a3 a4 a5 a6 a7]. unfold with_block. cbn in *. f_equal.
      apply list_insert_id. unfold lblock in Hi. cbn in Hi. rewrite <- Hi.
      rewrite nth_lookup. destruct (lookup_lt_is_Some_2 a7 (Z.to_nat i)) as [y Hy]; [lia|]. by rewrite Hy. }
    rewrite El. split_and!; try done; [exists i; split; [lia|done]|left; split; [exists i; split; [lia|done]|done]].
Qed.

Definition set_dirty (x : buf) : buf := with_flags x (Z.lor x.(flags) B_DIRTY).

Lemma log_write_run ds s order H b x :
  tx ds s order H -> b ∈ H -> s.(bc).(bufs) !! b = Some x -> 1 <= s.(lg).(outstanding) ->
  s.(lg).(lh_n) < LOGSIZE -> s.(lg).(lh_n) < s.(lg).(size) - 1 -> outside s.(lg) x.(blockno) ->
  exists s', s' = mk_lgst (logged s.(lg) x.(blockno)) (upd_buf b set_dirty s.(bc)) s.(woken) /\
    log_write b s = Ok (tt, s') /\ tx ds s' order H /\
    (exists i, 0 <= i < s'.(lg).(lh_n) /\ lblock s'.(lg) i = x.(blockno)) /\
    (forall i, 0 <= i < s.(lg).(lh_n) -> lblock s'.(lg) i = lblock s.(lg) i) /\
    ((exists i, 0 <= i < s.(lg).(lh_n) /\ lblock s.(lg) i = x.(blockno)) /\ s'.(lg).(lh_n) = s.(lg).(lh_n) \/
     (forall i, 0 <= i < s.(lg).(lh_n) -> lblock s.(lg) i <> x.(blockno)) /\ s'.(lg).(lh_n) = s.(lg).(lh_n) + 1) /\
    dirtyn s'.(bc) x.(blockno) /\ s'.(bc).(disk) = s.(bc).(disk) /\ (forall m, vw s'.(bc) m = vw s.(bc) m).
Proof.
  intros [L Cl Hds Hpin Hlog] Hb Hx Ho Hn1 Hn2 Hout. destruct s as [l c w]. cbn [lg bc woken] in *.
  destruct (held me c order H b x Cl Hb Hx) as (Hbn & Hr & Hlk & Hdev).
  destruct (bi_buf _ _ (cl_inv _ _ _ _ Cl) b x Hbn Hx) as (_ & _ & G3 & _).
  destruct G3 as [(? & _)|(_ & Hm & Hfl)]; [congruence|]. rewrite Hds in Hm.
  destruct (logged_spec l ds x.(blockno) L Hm Hout Hn1 Hn2) as (L' & Hin & Hkeep & Hcnt).
  set (f := set_dirty).
  assert (Hf6 : (f x).(flags) = 6) by (cbn; destruct Hfl as [-> | ->]; done).
  destruct (client_upd me c order H b x f Cl Hb Hx) as (Cl' & Hc' & Hv' & Hd' & Ho'); [done|by right|].
  assert (Hdx : dirtyn (upd_buf b f c) x.(blockno)) by (by exists b, (f x)).
  exists (mk_lgst (logged l x.(blockno)) (upd_buf b f c) w). cbn [lg bc woken]. split_and!; try done.
  - unfold log_write. erewrite kM_bind_run by reflexivity. cbn [lg].
    destruct (Z.leb_spec LOGSIZE l.(lh_n)); [lia|]. destruct (Z.leb_spec (l.(size) - 1) l.(lh_n)); [lia|]. cbn [orb].
    destruct (Z.ltb_spec l.(outstanding) 1); [lia|].
    rewrite (kM_bind_run _ _ _ _ _ (onbio_Ok _ (mk_lgst l c w) _ _ (getb_run c b x Hx))). cbn [lg woken].
    erewrite kM_bind_run by reflexivity. cbn [lg bc woken]. unfold logged.
    by destruct (Z.eqb_spec (absorb_index l.(lh_block) x.(blockno) 0 (Z.to_nat l.(lh_n))) l.(lh_n)).
  - split; cbn [lg bc]; try done.
    + intros i Hi. destruct (decide (lblock (logged l x.(blockno)) i = x.(blockno))) as [->|Hne]; [done|].
      assert (Hi' : 0 <= i < l.(lh_n)).
      { destruct Hcnt as [[_ E]|[Hno E]]; [lia|]. destruct Hin as (j & Hj & Ej).
        destruct (decide (i = l.(lh_n))) as [->|]; [|lia]. destruct (decide (j = l.(lh_n))) as [->|]; [done|].
        destruct (Hno j); [lia|]. rewrite <- Hkeep by lia. done. }
      rewrite Hkeep in * by done. apply Hd'; [done|]. by apply Hpin.
    + intros m Hm'. destruct (decide (m = x.(blockno))) as [->|Hne]; [destruct Hin as (i & ? & ?); eauto|].
      apply Hd', Hlog in Hm' as (i & Hi & ->); [|done]. exists i. rewrite Hkeep by done. split; [|done].
      destruct Hcnt as [[_ ->]|[_ ->]]; lia.
  - intros m. destruct (decide (m = x.(blockno))) as [->|Hne]; [|by apply Hv'].
    rewrite (vw_cached _ order _ b (f x) (cl_inv _ _ _ _ Cl') Hc').
    symmetry. apply (vw_cached c order _ b x (cl_inv _ _ _ _ Cl)). by split_and!.
Qed.

(** [log_write] of a buffer the caller holds, inside a transaction and with
    room in the log: it returns, the block is now logged exactly once
    (absorption: the count grows only for a block that was not logged), the
    buffer is pinned by its dirty flag, the blocks logged before stay in place,
    and neither the contents of any block nor the disk change. *)
Theorem log_write_spec ds s order H b x :
  tx ds s order H -> b ∈ H -> s.(bc).(bufs) !! b = Some x -> 1 <= s.(lg).(outstanding) ->
  s.(lg).(lh_n) < LOGSIZE -> s.(lg).(lh_n) < s.(lg).(size) - 1 -> outside s.(lg) x.(blockno) ->
  exists s', log_write b s = Ok (tt, s') /\ tx ds s' order H /\
    (exists i, 0 <= i < s'.(lg).(lh_n) /\ lblock s'.(lg) i = x.(blockno)) /\
    (forall i, 0 <= i < s.(lg).(lh_n) -> lblock s'.(lg) i = lblock s.(lg) i) /\
    ((exists i, 0 <= i < s.(lg).(lh_n) /\ lblock s.(lg) i = x.(blockno)) /\ s'.(lg).(lh_n) = s.(lg).(lh_n) \/
     (forall i, 0 <= i < s.(lg).(lh_n) -> lblock s.(lg) i <> x.(blockno)) /\ s'.(lg).(lh_n) = s.(lg).(lh_n) + 1) /\
    dirtyn s'.(bc) x.(blockno) /\ s'.(bc).(disk) = s.(bc).(disk) /\ (forall m, vw s'.(bc) m = vw s.(bc) m).
Proof.
  intros T Hb Hx Ho Hn1 Hn2 Hout.
  destruct (log_write_run ds s order H b x T Hb Hx Ho Hn1 Hn2 Hout) as (s' & _ & H'). by exists s'.
Qed.

(** The log promises more than it holds: with the log mkfs makes (30 blocks)
    three operations of [MAXOPBLOCKS] blocks are admitted to an empty log, but
    the 30th distinct block any of them logs is a panic. *)
Theorem log_over_reserved s b :
  s.(lg).(size) = LOGSIZE -> s.(lg).(lh_n) = LOGSIZE - 1 ->
  log_write b s = Panic "too big a transaction" /\
  (exists s3, (_ ← begin_op; _ ← begin_op; begin_op)
                (mk_lgst (with_outstanding (with_committing (with_n s.(lg) 0) false) 0) s.(bc) s.(woken)) = Ok (Begun, s3) /\
     3 * MAXOPBLOCKS = LOGSIZE).
Proof.
  intros Hs Hn. split.
  - unfold log_write. erewrite kM_bind_run by reflexivity. by rewrite Hs, Hn.
  - eexists. split; [|done]. reflexivity.
Qed.

(** Reading and releasing inside a transaction. *)
Lemma bread_tx ds l c w order H n b c' :
  tx ds (mk_lgst l c w) order H -> 0 <= n < ds -> (forall i x, cached c n i x -> i ∉ H) ->
  (length H + ndirty c < NBUF)%nat -> bread me 1 n c = Ok (b, c') ->
  tx ds (mk_lgst l c' w) order (b :: H) /\ exists x, cached c' n b x /\ x.(data) = vw c n.
Proof.
  intros [L Cl Hds Hpin Hlog] Hn HnH Hroom Hr. cbn [lg bc] in *. rewrite <- Hds in Hn.
  destruct (bread_client me c order H n Cl Hn HnH (or_intror Hroom)) as
    (b1 & c1 & x & R1 & Cl1 & _ & Hc1 & Hx1 & Ed1 & Es1 & Ew1 & Hv1 & Hd1 & _).
  rewrite R1 in Hr. injection Hr as <- <-. split; [|eauto]. split; cbn [lg bc]; try done; [congruence|..].
  - intros i Hi. by apply Hd1, Hpin.
  - intros m Hm. by apply Hlog, Hd1.
Qed.

Lemma brelse_tx ds l c w order H b x c' :
  tx ds (mk_lgst l c w) order (b :: H) -> c.(bufs) !! b = Some x ->
  (x.(flags) = 2 -> x.(data) = c.(disk) x.(blockno)) -> brelse me b c = Ok (tt, c') ->
  (exists order', tx ds (mk_lgst l c' w) order' H) /\ c'.(disk) = c.(disk) /\ forall m, vw c' m = vw c m.
Proof.
  intros [L Cl Hds Hpin Hlog] Hx Hcl Hr. cbn [lg bc] in *.
  destruct (brelse_client me c order H b x Cl Hx Hcl) as (c1 & o1 & R1 & Cl1 & Ed1 & Es1 & Ew1 & Hv1 & Hd1 & _).
  rewrite R1 in Hr. injection Hr as <-. split; [|done]. exists o1. split; cbn [lg bc]; try done; [congruence|..].
  - intros i Hi. by apply Hd1, Hpin.
  - intros m Hm. by apply Hlog, Hd1.
Qed.

(** Writing to the data of a held buffer. *)
Lemma data_tx ds l c w order H b x v :
  tx ds (mk_lgst l c w) order H -> b ∈ H -> c.(bufs) !! b = Some x ->
  tx ds (mk_lgst l (upd_buf b (fun y => with_data y v) c) w) order H.
Proof.
  intros [L Cl Hds Hpin Hlog] Hb Hx. cbn [lg bc] in *.
  destruct (held me c order H b x Cl Hb Hx) as (Hbn & Hr & Hlk & Hdev).
  destruct (bi_buf _ _ (cl_inv _ _ _ _ Cl) b x Hbn Hx) as (_ & _ & G3 & _).
  destruct G3 as [(? & _)|(_ & Hm & Hfl)]; [congruence|].
  destruct (client_upd me c order H b x (fun y => with_data y v) Cl Hb Hx) as (Cl' & Hc' & _ & Hd' & Ho'); [done|done|].
  assert (Hdb : forall m, dirtyn (upd_buf b (fun y => with_data y v) c) m <-> dirtyn c m).
  { intros m. destruct (decide (m = x.(blockno))) as [->|Hne]; [|by apply Hd'].
    assert (Hc : cached c x.(blockno) b x) by by split_and!.
    split; intros (i & y & Hy & Hf).
    - exists b, x. split; [done|]. assert (i = b) as -> by (by eapply (bi_uniq _ _ (cl_inv _ _ _ _ Cl'))).
      destruct Hy as (Hy & _), Hc' as (Hz & _). rewrite Hz in Hy. by injection Hy as <-.
    - exists b. eexists. split; [exact Hc'|]. assert (i = b) as -> by (by eapply (bi_uniq _ _ (cl_inv _ _ _ _ Cl))).
      destruct Hy as (Hy & _). rewrite Hx in Hy. by injection Hy as <-. }
  split; cbn [lg bc]; try done.
  - intros i Hi. by apply Hdb, Hpin.
  - intros m Hdm. by apply Hlog, Hdb.
Qed.

End Tx.

(** ** A transaction on a small disk *)

Module LogDemo.

Definition zeros : block := replicate BSIZE 0.
Definition sb : superblock := mk_superblock 0 100 0 0 30 2 0 0 200 32 1.
Definition dd (n : Z) : block := if n =? 1 then encode_sb sb zeros else zeros.
Definition l0 : log := mk_log 2 30 1 false 1 0 (replicate 30 0).
Definition c0 : bio := mk_bio booted_bufs dd 100 [].

Lemma dd_sb : decode_sb (dd 1) = sb.
Proof. vm_compute. reflexivity. Qed.

Lemma l0_ok : log_ok l0 100.
Proof. split; cbn; unfold LOGSIZE; try lia; reflexivity. Qed.

Lemma c0_client : client 1 c0 boot_order [] /\ ndirty c0 = 0%nat /\ (forall n, vw c0 n = dd n) /\ (forall n, ~ dirtyn c0 n).
Proof. apply (fresh_client 1 booted_bufs boot_order dd 100 [] booted_ring booted_buf). Qed.

Lemma tx0 : tx 1 100 (mk_lgst l0 c0 0) boot_order [].
Proof.
  destruct c0_client as (H1 & H2 & H3 & H4). split; [exact l0_ok|exact H1|reflexivity|..].
  - intros i Hi. cbn in Hi. lia.
  - intros m Hm. by destruct (H4 m).
Qed.

(** Block 50 is read into buffer 0 and filled with ones. *)
Definition filled (x : buf) : buf := with_data x (replicate BSIZE 1).
Definition x50 : buf := filled (fresh_buf 1 50 zeros (nth 0 booted_bufs buf0)).
Definition c1 : bio := upd_buf 0 filled (upd_buf 0 (fresh_buf 1 50 zeros) c0).

Lemma read50 : bread 1 1 50 c0 = Ok (0%nat, upd_buf 0 (fresh_buf 1 50 zeros) c0).
Proof. vm_compute. reflexivity. Qed.

Lemma x50_at : c1.(bufs) !! 0%nat = Some x50.
Proof. vm_compute. reflexivity. Qed.

Lemma tx1 : tx 1 100 (mk_lgst l0 c1 0) boot_order [0%nat].
Proof.
  edestruct (bread_tx 1 100 l0 c0 0 boot_order [] 50 0) as [T (x & (Hx & _) & _)]; [exact tx0|lia| | |exact read50|].
  { intros i x _. apply not_in_nil. } { destruct c0_client as (_ & -> & _). unfold NBUF. simpl. lia. }
  assert (Hin : 0%nat ∈ [0%nat]) by by left.
  exact (data_tx 1 100 l0 _ 0 boot_order [0%nat] 0 x (replicate BSIZE 1) T Hin Hx).
Qed.

Lemma log_write_spec_witness :
  exists s', log_write 0 (mk_lgst l0 c1 0) = Ok (tt, s') /\ s'.(lg).(lh_n) = 1 /\ dirtyn s'.(bc) 50.
Proof.
  destruct (log_write_spec 1 100 (mk_lgst l0 c1 0) boot_order [0%nat] 0 x50 tx1)
    as (s' & Hr & _ & _ & _ & Hc & Hd & _); [by left|exact x50_at|cbn; lia|reflexivity|reflexivity|unfold outside; cbn; lia|].
  exists s'. split; [exact Hr|]. split; [|exact Hd].
  destruct Hc as [[(i & Hi & _) _]|[_ E]]; [cbn in Hi; lia|exact E].
Defined.

(** Block 50 is logged and released. *)
Definition l1 : log := mk_log 2 30 1 false 1 1 (50 :: replicate 29 0).
Definition dirtied (x : buf) : buf := with_flags x (Z.lor x.(flags) B_DIRTY).
Definition c2 : bio := match brelse 1 0 (upd_buf 0 dirtied c1) with Ok (_, c) => c | Panic _ => c1 end.

Lemma tx2 : (exists order, tx 1 100 (mk_lgst l1 c2 0) order []) /\ c2.(disk) = dd /\
  (forall m, vw c2 m = vw c1 m) /\ dirtyn c2 50.
Proof.
  destruct (log_write_run 1 100 (mk_lgst l0 c1 0) boot_order [0%nat] 0 x50 tx1)
    as (s' & _ & Hr & T & _ & _ & _ & Hd & _ & Hv); [by left|exact x50_at|cbn; lia|reflexivity|reflexivity|unfold outside; cbn; lia|].
  assert (Hr' : log_write 0 (mk_lgst l0 c1 0) = Ok (tt, mk_lgst l1 (upd_buf 0 dirtied c1) 0)) by (vm_compute; reflexivity).
  assert (Es : s' = mk_lgst l1 (upd_buf 0 dirtied c1) 0) by congruence. rewrite Es in T, Hd, Hv. clear Es Hr Hr'. cbn [bc] in Hd, Hv.
  assert (Hb : brelse 1 0 (upd_buf 0 dirtied c1) = Ok (tt, c2)) by (vm_compute; reflexivity).
  assert (Hx : (upd_buf 0 dirtied c1).(bufs) !! 0%nat = Some (dirtied x50)) by (by apply upd_lookup, x50_at).
  destruct (brelse_tx 1 100 l1 _ 0 boot_order [] 0 (dirtied x50) c2 T Hx ltac:(discriminate) Hb) as ([o T'] & E & Hv').
  split; [by exists o|]. split; [exact E|]. split; [intros m; rewrite Hv'; apply Hv|].
  apply (tx_pinned _ _ _ _ _ T' 0). cbn. lia.
Qed.

Lemma end_op_commits_witness :
  exists s', end_op 1 (mk_lgst l1 c2 0) = Ok (tt, s') /\ s'.(bc).(disk) 50 = replicate BSIZE 1.
Proof.
  destruct tx2 as ([order T] & _ & Hv & _).
  destruct (end_op_commits 1 100 (mk_lgst l1 c2 0) order T) as (s' & Hr & _ & _ & _ & _ & _ & Hd);
    [unfold LOGSIZE; cbn; lia|reflexivity|reflexivity|].
  exists s'. split; [exact Hr|]. destruct (Hd 50) as [-> _]; [unfold outside; cbn; lia|]. cbn [bc]. rewrite Hv.
  vm_compute. reflexivity.
Defined.

Lemma log_over_reserved_witness :
  log_write 0 (mk_lgst (with_n l0 29) c0 0) = Panic "too big a transaction".
Proof. apply (log_over_reserved (mk_lgst (with_n l0 29) c0 0) 0); reflexivity. Defined.

Lemma l1_ok : log_ok l1 100.
Proof.
  split; cbn; unfold LOGSIZE; try lia; try reflexivity.
  intros i Hi. assert (i = 0) as -> by lia. change (Z.to_nat 0) with 0%nat. lia.
Qed.

(** A crash right after the header was written: the new contents win. *)
Lemma commit_crash_safe_witness :
  exists b' ws, commit 1 (mk_lgst l1 c2 0) = Ok (tt, mk_lgst (with_n l1 0) b' 0) /\
    exists s, reboot 1 (apply_writes (take 2 ws) c2.(disk)) 100 = Ok s /\ s.(bc).(disk) 50 = b'.(disk) 50.
Proof.
  destruct tx2 as ([order T] & Ed & Hv & Hd).
  destruct (commit_crash_safe 1 l1 100 c2 order 0 l1_ok) as (b' & ws & Hr & _ & Hk).
  - cbn. lia.
  - exact (tx_client _ _ _ _ _ T).
  - exact (tx_size _ _ _ _ _ T).
  - pose proof (tx_ndirty _ _ _ _ _ T) as Hn. cbn [bc lg] in Hn. change (lh_n l1) with 1 in Hn.
    unfold NBUF. lia.
  - exact (tx_pinned _ _ _ _ _ T).
  - cbn. lia.
  - intros i Hi. cbn in Hi. assert (i = 0) as -> by lia. discriminate.
  - rewrite Ed. vm_compute. split; reflexivity.
  - rewrite Ed. reflexivity.
  - rewrite Ed. reflexivity.
  - rewrite Hv. vm_compute. reflexivity.
  - exists b', ws. split; [exact Hr|]. destruct (Hk 2%nat) as (s & Hs & _ & _ & Hm).
    exists s. split; [exact Hs|]. rewrite (Hm 50); [reflexivity|]. unfold outside. cbn. lia.
Defined.

(** A disk whose log holds one committed block, number 50. *)
Definition dc (n : Z) : block :=
  if n =? 1 then encode_sb sb zeros else if n =? 2 then put32 (put32 zeros 0 1) 4 50
  else if n =? 3 then replicate BSIZE 1 else zeros.

Definition lc : log := mk_log 2 30 0 false 1 1 (50 :: replicate 29 0).

Lemma recovery_restartable_witness :
  exists s, reboot 1 dc 100 = Ok s /\ exists s',
    reboot 1 (apply_writes (take 1 s.(bc).(writes)) dc) 100 = Ok s' /\ s'.(bc).(disk) 50 = s.(bc).(disk) 50.
Proof.
  assert (El : header_log (sb_log (dc 1)) (dc (sb_log (dc 1)).(start)) = lc) by (vm_compute; reflexivity).
  pose proof (recovery_restartable 1 dc 100) as R. cbv zeta in R. rewrite El in R.
  destruct R as (s & Hs & Hj).
  - split; cbn; unfold LOGSIZE; try lia; try reflexivity.
    intros i Hi. assert (i = 0) as -> by lia. change (Z.to_nat 0) with 0%nat. lia.
  - vm_compute. reflexivity.
  - cbn. lia.
  - intros i Hi. cbn in Hi. assert (i = 0) as -> by lia. discriminate.
  - exists s. split; [exact Hs|]. destruct (Hj 1%nat) as (s' & Hs' & _ & Hm). exists s'. split; [exact Hs'|].
    apply Hm. unfold outside. cbn. lia.
Defined.

End LogDemo.
