(* ===== verification/Fs.v ===== *)
(** * The file system (fs.c)

    Block groups, inodes, file contents, directories and path names, over the
    log and the buffer cache.  Pointers to cached inodes are indices into
    [icache]; a null pointer is [None].  The buffers a caller passes in are
    lists of bytes, and what a function copies out is part of its result.
    Waiting for an inode's lock is the outcome [Panic "sleep"]. *)

From S2P Require Import Prelude CString Locks Bio Layout Log.

Definition NINODE : nat := 50.
Definition ROOTDEV : Z := 1.
Definition ROOTINO : Z := 1.
Definition NDIRECT : Z := 12.
Definition NINDIRECT : Z := 128.    (* BSIZE / sizeof(uint) *)
Definition MAXFILE : Z := NDIRECT + NINDIRECT.
Definition DIRSIZ : nat := 14.
Definition NDEV : Z := 10.
Definition T_DIR : Z := 1.
Definition T_FILE : Z := 2.
Definition T_DEV : Z := 3.

(** A [short]. *)
Definition s16 (z : Z) : Z := let v := z mod 2 ^ 16 in if v <? 2 ^ 15 then v else v - 2 ^ 16.

(** ** Inodes *)

(** [struct dinode]: 64 bytes. *)
Record dinode := mk_dinode {
  d_type : Z; d_major : Z; d_minor : Z; d_nlink : Z; d_size : Z; d_addrs : list Z
}.

Definition decode_dinode (b : block) (off : nat) : dinode :=
  mk_dinode (s16 (get16 b off)) (s16 (get16 b (off + 2))) (s16 (get16 b (off + 4)))
    (s16 (get16 b (off + 6))) (get32 b (off + 8)) (map (fun i => get32 b (off + 12 + 4 * i)) (seq 0 13)).

Fixpoint put_addrs (b : block) (off : nat) (a : list Z) : block :=
  match a with
  | [] => b
  | x :: a => put_addrs (put32 b off x) (off + 4) a
  end.

Definition encode_dinode (b : block) (off : nat) (d : dinode) : block :=
  put_addrs (put32 (put16 (put16 (put16 (put16 b off d.(d_type)) (off + 2) d.(d_major))
    (off + 4) d.(d_minor)) (off + 6) d.(d_nlink)) (off + 8) d.(d_size)) (off + 12) d.(d_addrs).

(** [struct inode]. *)
Record inode := mk_inode {
  i_dev : Z; i_inum : Z; i_ref : Z; i_lock : sleeplock; i_valid : bool; i_d : dinode
}.

Definition with_ref (p : inode) (r : Z) : inode :=
  mk_inode p.(i_dev) p.(i_inum) r p.(i_lock) p.(i_valid) p.(i_d).
Definition with_ilock (p : inode) (k : sleeplock) : inode :=
  mk_inode p.(i_dev) p.(i_inum) p.(i_ref) k p.(i_valid) p.(i_d).
Definition with_valid (p : inode) (v : bool) : inode :=
  mk_inode p.(i_dev) p.(i_inum) p.(i_ref) p.(i_lock) v p.(i_d).
Definition with_d (p : inode) (d : dinode) : inode :=
  mk_inode p.(i_dev) p.(i_inum) p.(i_ref) p.(i_lock) p.(i_valid) d.

Definition set_type (d : dinode) (v : Z) : dinode :=
  mk_dinode v d.(d_major) d.(d_minor) d.(d_nlink) d.(d_size) d.(d_addrs).
Definition set_dev (d : dinode) (ma mi : Z) : dinode :=
  mk_dinode d.(d_type) ma mi d.(d_nlink) d.(d_size) d.(d_addrs).
Definition set_nlink (d : dinode) (v : Z) : dinode :=
  mk_dinode d.(d_type) d.(d_major) d.(d_minor) v d.(d_size) d.(d_addrs).
Definition set_size (d : dinode) (v : Z) : dinode :=
  mk_dinode d.(d_type) d.(d_major) d.(d_minor) d.(d_nlink) v d.(d_addrs).
Definition set_addr (d : dinode) (i : nat) (v : Z) : dinode :=
  mk_dinode d.(d_type) d.(d_major) d.(d_minor) d.(d_nlink) d.(d_size) (<[i := v]> d.(d_addrs)).

Definition dinode0 : dinode := mk_dinode 0 0 0 0 0 (replicate 13 0).
Definition inode0 : inode := mk_inode 0 0 0 initsleeplock false dinode0.

(** The log and cache, the inode cache, and the global super block. *)
Record fsst := mk_fsst { lst : lgst; icache : list inode; fsb : superblock }.

Definition onlog {A} (m : kM lgst A) : kM fsst A :=
  fun s => match m s.(lst) with
           | Ok (a, l) => Ok (a, mk_fsst l s.(icache) s.(fsb))
           | Panic msg => Panic msg
           end.
Definition onb {A} (m : kM bio A) : kM fsst A := onlog (onbio m).

Definition geti (i : nat) : kM fsst inode :=
  fun s => match s.(icache) !! i with Some p => Ok (p, s) | None => Panic "bad inode" end.
Definition upd_inode (i : nat) (f : inode -> inode) (s : fsst) : fsst :=
  mk_fsst s.(lst) (alter f i s.(icache)) s.(fsb).
Definition seti (i : nat) (f : inode -> inode) : kM fsst unit := kmodify (upd_inode i f).
Definition getsb : kM fsst superblock := fun s => Ok (s.(fsb), s).

Section Fs.

(** The running process. *)
Variable me : Z.

(** Entries of [devsw]: the functions, or null. *)
Variable devread : Z -> option (nat -> Z -> kM fsst (Z * list Z)).
Variable devwrite : Z -> option (nat -> list Z -> Z -> kM fsst Z).

(** ** Blocks *)

Definition bzero (dv bno : Z) : kM fsst unit :=
  bp ← onb (bread me dv (u32 bno));
  _ ← onb (setb bp (fun x => with_data x (replicate BSIZE 0)));
  _ ← onlog (log_write bp);
  onb (brelse me bp).

(** Bit [bi] of a bitmap block, and setting and clearing it. *)
Definition bit_set (d : block) (bi : Z) : bool :=
  negb (Z.land (nth (Z.to_nat (bi / 8)) d 0) (Z.shiftl 1 (bi mod 8)) =? 0).
Definition mark (d : block) (bi : Z) : block :=
  <[Z.to_nat (bi / 8) := u8 (Z.lor (nth (Z.to_nat (bi / 8)) d 0) (Z.shiftl 1 (bi mod 8)))]> d.
Definition unmark (d : block) (bi : Z) : block :=
  <[Z.to_nat (bi / 8) := u8 (Z.land (nth (Z.to_nat (bi / 8)) d 0) (Z.lnot (Z.shiftl 1 (bi mod 8))))]> d.

(** The inner loop of [balloc]: the first clear bit from [bi] on. *)
Fixpoint free_bit (d : block) (bi : Z) (k : nat) : option Z :=
  match k with
  | O => None
  | S k => if bit_set d bi then free_bit d (bi + 1) k else Some bi
  end.

(** The loop of [balloc] over [k] groups from [g]. *)
Fixpoint balloc_groups (dv : Z) (sb : superblock) (g : Z) (k : nat) : kM fsst Z :=
  match k with
  | O => mret 0
  | S k =>
      let group_start := u32 (global_start sb + u32 (g * sb.(sb_bpg))) in
      let bmap_block := u32 (group_start + sb.(sb_ipg) / IPB) in
      bp ← onb (bread me dv bmap_block);
      x ← onb (getb bp);
      match free_bit x.(data) 0 (Z.to_nat (Z.min BPB sb.(sb_bpg))) with
      | Some bi =>
          _ ← onb (setb bp (fun x => with_data x (mark x.(data) bi)));
          _ ← onlog (log_write bp);
          _ ← onb (brelse me bp);
          let abs_block := u32 (group_start + bi) in
          bp ← onb (bread me dv abs_block);
          _ ← onb (setb bp (fun x => with_data x (replicate BSIZE 0)));
          _ ← onlog (log_write bp);
          _ ← onb (brelse me bp);
          mret abs_block
      | None =>
          _ ← onb (brelse me bp);
          balloc_groups dv sb (g + 1) k
      end
  end.

Definition balloc (dv : Z) : kM fsst Z :=
  sb ← onlog (readsb me dv);
  balloc_groups dv sb 0 (Z.to_nat sb.(sb_ngroups)).

Definition bfree (dv b : Z) : kM fsst unit :=
  sb ← onlog (readsb me dv);
  bp ← onb (bread me dv (BBLOCK b sb));
  let bi := u32 (b - global_start sb) mod sb.(sb_bpg) in
  x ← onb (getb bp);
  if negb (bit_set x.(data) bi) then kpanic "freeing free block"
  else
    _ ← onb (setb bp (fun x => with_data x (unmark x.(data) bi)));
    _ ← onlog (log_write bp);
    onb (brelse me bp).

(** ** Inodes *)

Definition iinit (dv : Z) : kM fsst unit :=
  _ ← kmodify (fun s => mk_fsst s.(lst) (map (fun p => with_ilock p initsleeplock) s.(icache)) s.(fsb));
  sb ← onlog (readsb me dv);
  kmodify (fun s => mk_fsst s.(lst) s.(icache) sb).

(** [iget]: the entry of the inode, or else the first free entry. *)
Fixpoint iget_scan (l : list inode) (i : nat) (empty : option nat) (dv inum : Z) : nat + option nat :=
  match l with
  | [] => inr empty
  | p :: l =>
      if (0 <? p.(i_ref)) && (p.(i_dev) =? dv) && (p.(i_inum) =? inum) then inl i
      else
        iget_scan l (S i) (match empty with
                           | None => if p.(i_ref) =? 0 then Some i else None
                           | Some e => Some e
                           end) dv inum
  end.

Definition iget (dv inum : Z) : kM fsst nat :=
  s ← kget;
  match iget_scan s.(icache) 0 None dv inum with
  | inl i =>
      _ ← seti i (fun p => with_ref p (s32 (p.(i_ref) + 1)));
      mret i
  | inr (Some i) =>
      _ ← seti i (fun p => mk_inode dv inum 1 p.(i_lock) false p.(i_d));
      mret i
  | inr None => kpanic "iget: no inodes"
  end.

(** The byte offset of inode [inum] in its block. *)
Definition ioff (inum : Z) : nat := 64 * Z.to_nat (inum mod IPB).

(** The loop of [ialloc]: [k] inodes from [inum] on. *)
Fixpoint ialloc_loop (dv ty : Z) (inum : Z) (k : nat) : kM fsst nat :=
  match k with
  | O => kpanic "ialloc: no inodes"
  | S k =>
      sb ← getsb;
      bp ← onb (bread me dv (IBLOCK inum sb));
      x ← onb (getb bp);
      if s16 (get16 x.(data) (ioff inum)) =? 0 then
        _ ← onb (setb bp (fun x => with_data x (encode_dinode x.(data) (ioff inum) (set_type dinode0 ty))));
        _ ← onlog (log_write bp);
        _ ← onb (brelse me bp);
        iget dv inum
      else
        _ ← onb (brelse me bp);
        ialloc_loop dv ty (inum + 1) k
  end.

Definition ialloc (dv ty : Z) : kM fsst nat :=
  sb ← getsb;
  ialloc_loop dv ty 1 (Z.to_nat (sb.(sb_ninodes) - 1)).

Definition iupdate (ip : nat) : kM fsst unit :=
  p ← geti ip;
  sb ← getsb;
  bp ← onb (bread me p.(i_dev) (IBLOCK p.(i_inum) sb));
  _ ← onb (setb bp (fun x => with_data x (encode_dinode x.(data) (ioff p.(i_inum)) p.(i_d))));
  _ ← onlog (log_write bp);
  onb (brelse me bp).

Definition idup (ip : nat) : kM fsst nat :=
  _ ← seti ip (fun p => with_ref p (s32 (p.(i_ref) + 1)));
  mret ip.

Definition ilock (ip : nat) : kM fsst unit :=
  p ← geti ip;
  if p.(i_ref) <? 1 then kpanic "ilock"
  else
    match acquiresleep me p.(i_lock) with
    | None => kpanic "sleep"
    | Some lk =>
        _ ← seti ip (fun p => with_ilock p lk);
        if negb p.(i_valid) then
          sb ← getsb;
          bp ← onb (bread me p.(i_dev) (IBLOCK p.(i_inum) sb));
          x ← onb (getb bp);
          _ ← seti ip (fun q => with_d q (decode_dinode x.(data) (ioff p.(i_inum))));
          _ ← onb (brelse me bp);
          _ ← seti ip (fun q => with_valid q true);
          q ← geti ip;
          if q.(i_d).(d_type) =? 0 then kpanic "ilock: no type" else mret tt
        else mret tt
    end.

Definition iunlock (ip : nat) : kM fsst unit :=
  p ← geti ip;
  if negb (holdingsleep me p.(i_lock)) || (p.(i_ref) <? 1) then kpanic "iunlock"
  else seti ip (fun p => with_ilock p (releasesleep p.(i_lock))).

(** ** Contents *)

Definition bmap (ip : nat) (bn : Z) : kM fsst Z :=
  p ← geti ip;
  if bn <? NDIRECT then
    let addr := nth (Z.to_nat bn) p.(i_d).(d_addrs) 0 in
    if addr =? 0 then
      addr ← balloc p.(i_dev);
      _ ← seti ip (fun p => with_d p (set_addr p.(i_d) (Z.to_nat bn) addr));
      mret addr
    else mret addr
  else
    let bn := bn - NDIRECT in
    if bn <? NINDIRECT then
      let addr := nth 12 p.(i_d).(d_addrs) 0 in
      addr ← (if addr =? 0 then
                addr ← balloc p.(i_dev);
                _ ← seti ip (fun p => with_d p (set_addr p.(i_d) 12 addr));
                mret addr
              else mret addr);
      bp ← onb (bread me p.(i_dev) addr);
      x ← onb (getb bp);
      let addr := get32 x.(data) (4 * Z.to_nat bn) in
      addr ← (if addr =? 0 then
                addr ← balloc p.(i_dev);
                _ ← onb (setb bp (fun x => with_data x (put32 x.(data) (4 * Z.to_nat bn) addr)));
                _ ← onlog (log_write bp);
                mret addr
              else mret addr);
      _ ← onb (brelse me bp);
      mret addr
    else mret 0.

(** The loops of [itrunc]. *)
Fixpoint itrunc_direct (ip : nat) (i k : nat) : kM fsst unit :=
  match k with
  | O => mret tt
  | S k =>
      p ← geti ip;
      _ ← (if nth i p.(i_d).(d_addrs) 0 =? 0 then mret tt
           else
             _ ← bfree p.(i_dev) (nth i p.(i_d).(d_addrs) 0);
             seti ip (fun p => with_d p (set_addr p.(i_d) i 0)));
      itrunc_direct ip (S i) k
  end.

Fixpoint itrunc_indirect (dv : Z) (bp : nat) (j k : nat) : kM fsst unit :=
  match k with
  | O => mret tt
  | S k =>
      x ← onb (getb bp);
      _ ← (if get32 x.(data) (4 * j) =? 0 then mret tt else bfree dv (get32 x.(data) (4 * j)));
      itrunc_indirect dv bp (S j) k
  end.

Definition itrunc (ip : nat) : kM fsst unit :=
  _ ← itrunc_direct ip 0 12;
  p ← geti ip;
  _ ← (if nth 12 p.(i_d).(d_addrs) 0 =? 0 then mret tt
       else
         bp ← onb (bread me p.(i_dev) (nth 12 p.(i_d).(d_addrs) 0));
         _ ← itrunc_indirect p.(i_dev) bp 0 128;
         _ ← onb (brelse me bp);
         _ ← bfree p.(i_dev) (nth 12 p.(i_d).(d_addrs) 0);
         seti ip (fun p => with_d p (set_addr p.(i_d) 12 0)));
  _ ← seti ip (fun p => with_d p (set_size p.(i_d) 0));
  iupdate ip.

Definition iput (ip : nat) : kM fsst unit :=
  p ← geti ip;
  match acquiresleep me p.(i_lock) with
  | None => kpanic "sleep"
  | Some lk =>
      _ ← seti ip (fun p => with_ilock p lk);
      _ ← (if p.(i_valid) && (p.(i_d).(d_nlink) =? 0) && (p.(i_ref) =? 1) then
             _ ← itrunc ip;
             _ ← seti ip (fun p => with_d p (set_type p.(i_d) 0));
             _ ← iupdate ip;
             seti ip (fun p => with_valid p false)
           else mret tt);
      _ ← seti ip (fun p => with_ilock p (releasesleep p.(i_lock)));
      seti ip (fun p => with_ref p (s32 (p.(i_ref) - 1)))
  end.

Definition iunlockput (ip : nat) : kM fsst unit :=
  _ ← iunlock ip;
  iput ip.

Record stat := mk_stat { st_type : Z; st_dev : Z; st_ino : Z; st_nlink : Z; st_size : Z }.

Definition stati (ip : nat) : kM fsst stat :=
  p ← geti ip;
  mret (mk_stat p.(i_d).(d_type) (s32 p.(i_dev)) p.(i_inum) p.(i_d).(d_nlink) p.(i_d).(d_size)).

(** [n] bytes of a block from [off], and writing bytes over a block. *)
Definition get_bytes (d : block) (off n : Z) : list Z := take (Z.to_nat n) (drop (Z.to_nat off) d).
Definition put_bytes (d : block) (off : Z) (bs : list Z) : block :=
  take (Z.to_nat off) d ++ bs ++ drop (Z.to_nat off + length bs) d.

Fixpoint readi_loop (fuel : nat) (ip : nat) (off n tot : Z) : kM fsst (list Z) :=
  match fuel with
  | O => kpanic "out of fuel"
  | S fuel =>
      if tot <? n then
        p ← geti ip;
        addr ← bmap ip (off / 512);
        bp ← onb (bread me p.(i_dev) addr);
        let m := Z.min (n - tot) (512 - off mod 512) in
        x ← onb (getb bp);
        _ ← onb (brelse me bp);
        rest ← readi_loop fuel ip (off + m) n (tot + m);
        mret (get_bytes x.(data) (off mod 512) m ++ rest)
      else mret []
  end.

(** The turns of the loops of [readi] and [writei] for [n] bytes. *)
Definition turns_for (n : Z) : nat := (Z.to_nat (n / 512) + 3)%nat.

Definition readi (ip : nat) (off n : Z) : kM fsst (Z * list Z) :=
  p ← geti ip;
  if p.(i_d).(d_type) =? T_DEV then
    if (p.(i_d).(d_major) <? 0) || (NDEV <=? p.(i_d).(d_major)) then mret (-1, [])
    else match devread p.(i_d).(d_major) with
         | None => mret (-1, [])
         | Some f => f ip n
         end
  else if (p.(i_d).(d_size) <? off) || (u32 (off + n) <? off) then mret (-1, [])
  else
    let n := if p.(i_d).(d_size) <? off + n then p.(i_d).(d_size) - off else n in
    bs ← readi_loop (turns_for n) ip off n 0;
    mret (s32 n, bs).

(** The loop of [writei]; the result is the final [off]. *)
Fixpoint writei_loop (fuel : nat) (ip : nat) (src : list Z) (off n tot : Z) : kM fsst Z :=
  match fuel with
  | O => kpanic "out of fuel"
  | S fuel =>
      if tot <? n then
        addr ← bmap ip (off / 512);
        if addr =? 0 then mret off
        else
          p ← geti ip;
          bp ← onb (bread me p.(i_dev) addr);
          let m := Z.min (n - tot) (512 - off mod 512) in
          _ ← onb (setb bp (fun x => with_data x (put_bytes x.(data) (off mod 512)
                                                    (get_bytes src tot m))));
          _ ← onlog (log_write bp);
          _ ← onb (brelse me bp);
          writei_loop fuel ip src (off + m) n (tot + m)
      else mret off
  end.

Definition writei (ip : nat) (src : list Z) (off n : Z) : kM fsst Z :=
  p ← geti ip;
  if p.(i_d).(d_type) =? T_DEV then
    if (p.(i_d).(d_major) <? 0) || (NDEV <=? p.(i_d).(d_major)) then mret (-1)
    else match devwrite p.(i_d).(d_major) with
         | None => mret (-1)
         | Some f => f ip src n
         end
  else if (p.(i_d).(d_size) <? off) || (u32 (off + n) <? off) then mret (-1)
  else if MAXFILE * Z.of_nat BSIZE <? off + n then mret (-1)
  else
    off' ← writei_loop (turns_for n) ip src off n 0;
    p ← geti ip;
    _ ← (if (0 <? n) && (p.(i_d).(d_size) <? off') then
           _ ← seti ip (fun p => with_d p (set_size p.(i_d) off'));
           iupdate ip
         else mret tt);
    mret (s32 n).

(** ** Directories *)

(** A field of [DIRSIZ] bytes against another, and [strncpy] into one. *)
Definition namecmp (s t : list Z) : Z := CString.strncmp (mem_of s t) 0 65536 DIRSIZ.
Definition strncpy_field (dst src : list Z) (n : Z) : list Z :=
  bytes_at (strncpy (mem_of dst src) 0 65536 n) 0 (length dst).

Definition sizeof_de : Z := 16.
Definition de_inum (de : list Z) : Z := get16 de 0.
Definition de_name (de : list Z) : list Z := drop 2 de.

(** The loop of [dirlookup], [k] entries from [off] on: offset and inode
    number of the entry. *)
Fixpoint dirlookup_loop (dp : nat) (name : list Z) (off : Z) (k : nat) : kM fsst (option (Z * Z)) :=
  match k with
  | O => kpanic "out of fuel"
  | S k =>
      p ← geti dp;
      if off <? p.(i_d).(d_size) then
        r ← readi dp off sizeof_de;
        if negb (r.1 =? sizeof_de) then kpanic "dirlookup read"
        else if de_inum r.2 =? 0 then dirlookup_loop dp name (u32 (off + sizeof_de)) k
        else if namecmp name (de_name r.2) =? 0 then mret (Some (off, de_inum r.2))
        else dirlookup_loop dp name (u32 (off + sizeof_de)) k
      else mret None
  end.

(** The turns of a loop over a directory of [size] bytes. *)
Definition dir_turns (size : Z) : nat := S (S (Z.to_nat (size / 16))).

Definition dirlookup (dp : nat) (name : list Z) : kM fsst (option (nat * Z)) :=
  p ← geti dp;
  if negb (p.(i_d).(d_type) =? T_DIR) then kpanic "dirlookup not DIR"
  else
    r ← dirlookup_loop dp name 0 (dir_turns p.(i_d).(d_size));
    match r with
    | None => mret None
    | Some (off, inum) => ip ← iget p.(i_dev) inum; mret (Some (ip, off))
    end.

(** The loop of [dirlink]: the offset of the first empty entry, or the end. *)
Fixpoint dirlink_loop (dp : nat) (off : Z) (k : nat) : kM fsst Z :=
  match k with
  | O => kpanic "out of fuel"
  | S k =>
      p ← geti dp;
      if off <? p.(i_d).(d_size) then
        r ← readi dp off sizeof_de;
        if negb (r.1 =? sizeof_de) then kpanic "dirlink read"
        else if de_inum r.2 =? 0 then mret off
        else dirlink_loop dp (u32 (off + sizeof_de)) k
      else mret off
  end.

(** The bytes of the [struct dirent] that [dirlink] writes. *)
Definition mk_dirent (name : list Z) (inum : Z) : list Z :=
  put16 (replicate 2 0) 0 inum ++ strncpy_field (replicate DIRSIZ 0) name (Z.of_nat DIRSIZ).

Definition dirlink (dp : nat) (name : list Z) (inum : Z) : kM fsst Z :=
  r ← dirlookup dp name;
  match r with
  | Some (ip, _) => _ ← iput ip; mret (-1)
  | None =>
      p ← geti dp;
      off ← dirlink_loop dp 0 (dir_turns p.(i_d).(d_size));
      w ← writei dp (mk_dirent name inum) off sizeof_de;
      if negb (w =? sizeof_de) then kpanic "dirlink" else mret 0
  end.

(** ** Paths *)

Definition slash : Z := 47.

Fixpoint skip_slashes (path : list Z) : list Z :=
  match path with
  | c :: rest => if c =? slash then skip_slashes rest else path
  | [] => []
  end.

(** The bytes up to the next slash, and the rest from it on. *)
Fixpoint path_elem (path : list Z) : list Z * list Z :=
  match path with
  | c :: rest => if c =? slash then ([], path) else let (e, r) := path_elem rest in (c :: e, r)
  | [] => ([], [])
  end.

(** [path] is the string without its NUL; [name] the caller's [DIRSIZ] bytes. *)
Definition skipelem (path name : list Z) : option (list Z * list Z) :=
  match skip_slashes path with
  | [] => None
  | p =>
      let (e, r) := path_elem p in
      let name' := if (DIRSIZ <=? length e)%nat then take DIRSIZ e
                   else e ++ 0 :: drop (S (length e)) name in
      Some (name', skip_slashes r)
  end.

(** The loop of [namex]: the inode, and [name] as it was left. *)
Fixpoint namex_loop (fuel : nat) (ip : nat) (path : list Z) (parent : bool) (name : list Z)
  : kM fsst (option nat * list Z) :=
  match fuel with
  | O => kpanic "out of fuel"
  | S fuel =>
      match skipelem path name with
      | None =>
          if parent then _ ← iput ip; mret (None, name) else mret (Some ip, name)
      | Some (name, path) =>
          _ ← ilock ip;
          p ← geti ip;
          if negb (p.(i_d).(d_type) =? T_DIR) then _ ← iunlockput ip; mret (None, name)
          else if parent && (length path =? 0)%nat then _ ← iunlock ip; mret (Some ip, name)
          else
            r ← dirlookup ip name;
            match r with
            | None => _ ← iunlockput ip; mret (None, name)
            | Some (next, _) => _ ← iunlockput ip; namex_loop fuel next path parent name
            end
      end
  end.

(** [cwd] is the current directory of the running process. *)
Definition namex (cwd : nat) (path : list Z) (parent : bool) (name : list Z) : kM fsst (option nat * list Z) :=
  ip ← (if match path with c :: _ => c =? slash | [] => false end
        then iget ROOTDEV ROOTINO else idup cwd);
  namex_loop (S (length path)) ip path parent name.

(** The bytes [name] starts with are never looked at. *)
Definition namei (cwd : nat) (path : list Z) : kM fsst (option nat) :=
  r ← namex cwd path false (replicate DIRSIZ 0);
  mret r.1.

Definition nameiparent (cwd : nat) (path name : list Z) : kM fsst (option nat * list Z) :=
  namex cwd path true name.

End Fs.
