(* ===== verification/FsBits.v ===== *)
(** * Bitmap blocks

    A bitmap block as a set of bit numbers, and the search for a clear bit. *)

From S2P Require Import Prelude Locks Bio Layout Log Fs.

Lemma bit_set_testbit d bi : 0 <= bi ->
  bit_set d bi = Z.testbit (nth (Z.to_nat (bi / 8)) d 0) (bi mod 8).
Proof.
  intros Hb. unfold bit_set. set (x := nth _ _ _). assert (Hm : 0 <= bi mod 8 < 8) by (apply Z.mod_pos_bound; lia).
  set (k := bi mod 8) in *. rewrite Z.shiftl_1_l.
  destruct (Z.testbit x k) eqn:E.
  - destruct (Z.eqb_spec (Z.land x (2 ^ k)) 0) as [H|]; [|done].
    assert (Hf : Z.testbit (Z.land x (2 ^ k)) k = false) by (rewrite H; apply Z.testbit_0_l).
    rewrite Z.land_spec, E, Z.pow2_bits_true in Hf by lia. done.
  - destruct (Z.eqb_spec (Z.land x (2 ^ k)) 0) as [|H]; [done|]. exfalso. apply H.
    apply Z.bits_inj'. intros j Hj. rewrite Z.land_spec, Z.testbit_0_l.
    destruct (decide (j = k)) as [->|Hne]; [by rewrite E|]. rewrite Z.pow2_bits_false by done. apply andb_false_r.
Qed.

Lemma u8_testbit x j : 0 <= j < 8 -> Z.testbit (u8 x) j = Z.testbit x j.
Proof. intros Hj. unfold u8. rewrite Z.mod_pow2_bits_low by lia. done. Qed.

Lemma bit_index bi bj : 0 <= bi -> 0 <= bj -> bi <> bj ->
  bi / 8 = bj / 8 -> bi mod 8 <> bj mod 8.
Proof. intros H1 H2 Hne E1 E2. apply Hne. rewrite (Z.div_mod bi 8), (Z.div_mod bj 8) by lia. lia. Qed.

Lemma byte_in (d : block) bi : 0 <= bi < 8 * Z.of_nat (length d) -> (Z.to_nat (bi / 8) < length d)%nat.
Proof. intros H. assert (bi / 8 < Z.of_nat (length d)) by (apply Z.div_lt_upper_bound; lia). pose proof (Z.div_pos bi 8). lia. Qed.

(** Changing bit [bi] through its byte. *)
Lemma bit_set_insert (d : block) bi bj x : 0 <= bi < 8 * Z.of_nat (length d) -> 0 <= bj ->
  bit_set (<[Z.to_nat (bi / 8) := u8 x]> d) bj =
  if bj / 8 =? bi / 8 then Z.testbit x (bj mod 8) else bit_set d bj.
Proof.
  intros Hi Hj. rewrite !bit_set_testbit by done. pose proof (byte_in d bi Hi).
  assert (Hm : 0 <= bj mod 8 < 8) by (apply Z.mod_pos_bound; lia).
  pose proof (Z.div_pos bi 8). pose proof (Z.div_pos bj 8).
  destruct (Z.eqb_spec (bj / 8) (bi / 8)) as [->|Hne].
  - rewrite nth_insert_eq by done. by apply u8_testbit.
  - rewrite nth_insert_ne by lia. done.
Qed.

Lemma bit_set_mark d bi bj : 0 <= bi < 8 * Z.of_nat (length d) -> 0 <= bj ->
  bit_set (mark d bi) bj = (bj =? bi) || bit_set d bj.
Proof.
  intros Hi Hj. unfold mark. rewrite bit_set_insert by done.
  assert (Hm : 0 <= bj mod 8 < 8) by (apply Z.mod_pos_bound; lia).
  assert (Hm' : 0 <= bi mod 8 < 8) by (apply Z.mod_pos_bound; lia).
  destruct (Z.eqb_spec (bj / 8) (bi / 8)) as [E|E], (Z.eqb_spec bj bi) as [->|Hne]; try done.
  - rewrite Z.lor_spec, Z.shiftl_1_l, Z.pow2_bits_true by lia. apply orb_true_r.
  - assert (Hk : bi mod 8 <> bj mod 8) by (apply bit_index; [lia|lia|congruence|congruence]).
    rewrite Z.lor_spec, Z.shiftl_1_l, Z.pow2_bits_false, orb_false_r, bit_set_testbit by lia. by rewrite E.
Qed.

Lemma bit_set_unmark d bi bj : 0 <= bi < 8 * Z.of_nat (length d) -> 0 <= bj ->
  bit_set (unmark d bi) bj = negb (bj =? bi) && bit_set d bj.
Proof.
  intros Hi Hj. unfold unmark. rewrite bit_set_insert by done.
  assert (Hm : 0 <= bj mod 8 < 8) by (apply Z.mod_pos_bound; lia).
  assert (Hm' : 0 <= bi mod 8 < 8) by (apply Z.mod_pos_bound; lia).
  destruct (Z.eqb_spec (bj / 8) (bi / 8)) as [E|E], (Z.eqb_spec bj bi) as [->|Hne]; try done.
  - rewrite Z.land_spec, Z.lnot_spec, Z.shiftl_1_l, Z.pow2_bits_true by lia. apply andb_false_r.
  - assert (Hk : bi mod 8 <> bj mod 8) by (apply bit_index; [lia|lia|congruence|congruence]).
    rewrite Z.land_spec, Z.lnot_spec, Z.shiftl_1_l, Z.pow2_bits_false by lia.
    rewrite andb_true_r, bit_set_testbit by lia. by rewrite E.
Qed.

(** Byte blocks. *)
Definition bytes512 (d : block) : Prop := length d = BSIZE /\ Forall is_u8 d.

Lemma bytes512_insert d i x : bytes512 d -> bytes512 (<[i := u8 x]> d).
Proof. intros [H1 H2]. split; [by rewrite length_insert|]. apply Forall_insert; [done|apply u8_range]. Qed.

Lemma bytes512_zero : bytes512 (replicate BSIZE 0).
Proof. split; [apply length_replicate|]. apply Forall_replicate. unfold is_u8. lia. Qed.

Lemma mark_unmark d bi : bytes512 d -> 0 <= bi < 4096 -> bit_set d bi = false -> unmark (mark d bi) bi = d.
Proof.
  intros [Hl Hu] Hi Hc. assert (Hd : 0 <= bi < 8 * Z.of_nat (length d)) by (rewrite Hl; unfold BSIZE; lia).
  pose proof (byte_in d bi Hd) as Hb. unfold unmark, mark. rewrite nth_insert_eq by done. rewrite list_insert_insert_eq.
  destruct (lookup_lt_is_Some_2 d (Z.to_nat (bi / 8)) Hb) as [y Hy].
  apply list_insert_id. rewrite Hy. f_equal. rewrite (nth_lookup_Some _ _ _ _ Hy).
  rewrite bit_set_testbit, (nth_lookup_Some _ _ _ _ Hy) in Hc by lia.
  assert (Hm : 0 <= bi mod 8 < 8) by (apply Z.mod_pos_bound; lia).
  assert (Hy8 : is_u8 y) by (eapply Forall_lookup_1 in Hu; [exact Hu|exact Hy]).
  apply Z.bits_inj'. intros j Hj. destruct (decide (j < 8)) as [Hj8|Hj8].
  - rewrite u8_testbit by lia. rewrite Z.land_spec, u8_testbit, Z.lor_spec, Z.lnot_spec, Z.shiftl_1_l by lia.
    destruct (decide (j = bi mod 8)) as [->|Hne].
    + rewrite Z.pow2_bits_true by lia. rewrite Hc. done.
    + rewrite Z.pow2_bits_false by lia. by rewrite orb_false_r, andb_true_r.
  - assert (Hhi : forall z, is_u8 z -> Z.testbit z j = false).
    { intros z [? ?]. destruct (decide (z = 0)) as [->|]; [apply Z.testbit_0_l|]. apply Z.bits_above_log2; [lia|].
      apply Z.lt_le_trans with 8; [|lia]. apply Z.log2_lt_pow2; lia. }
    by rewrite (Hhi _ (u8_range _)), (Hhi y Hy8).
Qed.

(** The search finds the first clear bit. *)
Lemma free_bit_Some d bi k r : 0 <= bi -> free_bit d bi k = Some r <->
  bi <= r < bi + Z.of_nat k /\ bit_set d r = false /\ forall j, bi <= j < r -> bit_set d j = true.
Proof.
  revert bi. induction k as [|k IH]; intros bi Hb; simpl.
  - split; [done|]. intros (? & _). lia.
  - destruct (bit_set d bi) eqn:E.
    + rewrite IH by lia. split; intros (H1 & H2 & H3).
      * split_and!; [lia|lia|done|]. intros j Hj. destruct (decide (j = bi)) as [->|]; [done|]. apply H3. lia.
      * assert (r <> bi) by (intros ->; congruence). split_and!; [lia|lia|done|]. intros j Hj. apply H3. lia.
    + split.
      * intros [= <-]. split_and!; [lia|lia|done|]. intros j Hj. lia.
      * intros (H1 & H2 & H3). f_equal. destruct (decide (r = bi)) as [->|]; [done|].
        rewrite H3 in E by lia. done.
Qed.

Lemma free_bit_None d bi k : 0 <= bi -> free_bit d bi k = None <->
  forall j, bi <= j < bi + Z.of_nat k -> bit_set d j = true.
Proof.
  revert bi. induction k as [|k IH]; intros bi Hb; simpl.
  - split; [|done]. intros _ j Hj. lia.
  - destruct (bit_set d bi) eqn:E.
    + rewrite IH by lia. split; intros H j Hj; [|apply H; lia].
      destruct (decide (j = bi)) as [->|]; [done|]. apply H. lia.
    + split; [done|]. intros H. rewrite H in E by lia. done.
Qed.
