(* ===== verification/FsInode.v ===== *)
(** * Inodes in blocks, and the addresses in them

    Reading back an inode that was written into a block; the block addresses
    that an inode holds itself and in its indirect block, as numbered slots;
    and writing bytes over a block. *)

From S2P Require Import Prelude CString Locks Bio Layout Log Fs FsBits.

(** ** Inodes in a block *)

Lemma length_put_addrs a b off : length (put_addrs b off a) = length b.
Proof. revert b off. induction a as [|x a IH]; intros b off; [done|]. cbn [put_addrs]. by rewrite IH, length_put32. Qed.

Lemma get32_put_addrs_ne a b off o :
  (o + 4 <= off \/ off + 4 * length a <= o)%nat -> get32 (put_addrs b off a) o = get32 b o.
Proof.
  revert b off. induction a as [|x a IH]; intros b off H; [done|]. cbn [put_addrs length] in *.
  rewrite IH by lia. apply get32_put32_ne. lia.
Qed.

Lemma get32_put_addrs a b off i x :
  a !! i = Some x -> is_u32 x -> (off + 4 * length a <= length b)%nat -> get32 (put_addrs b off a) (off + 4 * i) = x.
Proof.
  revert b off i. induction a as [|y a IH]; intros b off i Hi Hx Hl; [done|]. cbn [put_addrs length] in *.
  destruct i as [|i]; simpl in Hi.
  - injection Hi as ->. rewrite get32_put_addrs_ne by lia. rewrite Nat.mul_0_r, Nat.add_0_r. apply get32_put32_eq; [done|lia].
  - replace (off + 4 * S i)%nat with (off + 4 + 4 * i)%nat by lia. apply IH; [done|done|]. rewrite length_put32. lia.
Qed.

Lemma get16_put32_ne b off v o : (o + 2 <= off \/ off + 4 <= o)%nat -> get16 (put32 b off v) o = get16 b o.
Proof. intros H. unfold get16, put32. by rewrite !nth_insert_ne by lia. Qed.

Lemma get32_put16_ne b off v o : (o + 4 <= off \/ off + 2 <= o)%nat -> get32 (put16 b off v) o = get32 b o.
Proof. intros H. unfold get32, put16. by rewrite !nth_insert_ne by lia. Qed.

Lemma get16_put_addrs_ne a b off o :
  (o + 2 <= off \/ off + 4 * length a <= o)%nat -> get16 (put_addrs b off a) o = get16 b o.
Proof.
  revert b off. induction a as [|x a IH]; intros b off H; [done|]. cbn [put_addrs length] in *.
  rewrite IH by lia. apply get16_put32_ne. lia.
Qed.

(** A [short]. *)
Definition is_s16 (z : Z) : Prop := - 2 ^ 15 <= z < 2 ^ 15.

Record dinode_ok (d : dinode) : Prop := {
  do_type : is_s16 d.(d_type); do_major : is_s16 d.(d_major); do_minor : is_s16 d.(d_minor);
  do_nlink : is_s16 d.(d_nlink); do_size : is_u32 d.(d_size);
  do_len : length d.(d_addrs) = 13%nat; do_addrs : Forall is_u32 d.(d_addrs)
}.

Lemma s16_get_put b off v : is_s16 v -> (off + 2 <= length b)%nat -> s16 (get16 (put16 b off v) off) = v.
Proof.
  intros Hv Hl. unfold get16, put16. rewrite nth_insert_ne by lia. rewrite nth_insert_eq by lia.
  rewrite nth_insert_eq by (rewrite length_insert; lia).
  assert (E : u8 v + 2 ^ 8 * u8 (Z.shiftr v 8) = v mod 65536).
  { unfold u8. rewrite Z.shiftr_div_pow2 by lia. change (2 ^ 8) with 256. Z.to_euclidean_division_equations. lia. }
  unfold s16. rewrite E. change (2 ^ 16) with 65536. rewrite Z.mod_mod by lia.
  unfold is_s16 in Hv. change (2 ^ 15) with 32768 in *. case_bool; Z.to_euclidean_division_equations; lia.
Qed.

(** Writing an inode and reading it back, or reading another one. *)
Lemma decode_encode_dinode b off d :
  dinode_ok d -> (off + 64 <= length b)%nat -> decode_dinode (encode_dinode b off d) off = d.
Proof.
  intros [H1 H2 H3 H4 H5 H6 H7] Hl. unfold decode_dinode, encode_dinode.
  rewrite !get16_put_addrs_ne, !get16_put32_ne by lia.
  rewrite (get16_put16_ne _ (off + 6) off), (get16_put16_ne _ (off + 4) off), (get16_put16_ne _ (off + 2) off) by lia.
  rewrite (get16_put16_ne _ (off + 6) (off + 2)), (get16_put16_ne _ (off + 4) (off + 2)) by lia.
  rewrite (get16_put16_ne _ (off + 6) (off + 4)) by lia.
  rewrite !s16_get_put by (done || (rewrite ?length_put16; lia)).
  rewrite get32_put_addrs_ne by lia. rewrite get32_put32_eq by (done || (rewrite ?length_put16; lia)).
  destruct d as [ty ma mi nl sz a]. cbn [d_addrs d_type d_major d_minor d_nlink d_size] in *. f_equal.
  apply list_eq. intros i. change (map ?f (seq 0 13)) with (f <$> seq 0 13). rewrite list_lookup_fmap.
  destruct (decide (i < 13)%nat) as [Hi|Hi].
  - rewrite lookup_seq_lt by lia. cbn [fmap option_fmap option_map]. destruct (lookup_lt_is_Some_2 a i ltac:(lia)) as [x Hx].
    rewrite Hx. f_equal. rewrite Nat.add_0_l. apply get32_put_addrs; [done| |rewrite ?length_put32, ?length_put16; lia].
    by eapply Forall_lookup_1.
  - rewrite lookup_seq_ge by lia. symmetry. apply lookup_ge_None_2. lia.
Qed.

Lemma decode_encode_other b off off' d :
  length d.(d_addrs) = 13%nat -> (off + 64 <= off' \/ off' + 64 <= off)%nat ->
  decode_dinode (encode_dinode b off d) off' = decode_dinode b off'.
Proof.
  intros Hd H. unfold decode_dinode, encode_dinode.
  rewrite !get16_put_addrs_ne, !get16_put32_ne, !get16_put16_ne by lia.
  rewrite get32_put_addrs_ne, get32_put32_ne, !get32_put16_ne by lia. f_equal.
  apply map_ext_in. intros i Hi. apply in_seq in Hi.
  by rewrite get32_put_addrs_ne, get32_put32_ne, !get32_put16_ne by lia.
Qed.

Lemma put32_bytes b off v : bytes512 b -> bytes512 (put32 b off v).
Proof. intros H. unfold put32. by repeat apply bytes512_insert. Qed.

Lemma put16_bytes b off v : bytes512 b -> bytes512 (put16 b off v).
Proof. intros H. unfold put16. by repeat apply bytes512_insert. Qed.

Lemma put_addrs_bytes a b off : bytes512 b -> bytes512 (put_addrs b off a).
Proof. revert b off. induction a as [|x a IH]; intros b off H; [done|]. cbn [put_addrs]. by apply IH, put32_bytes. Qed.

Lemma encode_bytes b off d : bytes512 b -> bytes512 (encode_dinode b off d).
Proof. intros H. unfold encode_dinode. by apply put_addrs_bytes, put32_bytes, put16_bytes, put16_bytes, put16_bytes, put16_bytes. Qed.

Lemma s16_range z : is_s16 (s16 z).
Proof. unfold is_s16, s16. pose proof (Z.mod_pos_bound z (2 ^ 16)). case_bool; lia. Qed.

Lemma decode_ok b off : bytes512 b -> dinode_ok (decode_dinode b off).
Proof.
  intros [_ Hb]. split; cbn; try apply s16_range; try (by apply get32_range); [done|].
  repeat constructor; by apply get32_range.
Qed.

Lemma ioff_fits i : (ioff i + 64 <= 512)%nat.
Proof. unfold ioff, IPB. pose proof (Z.mod_pos_bound i 8). lia. Qed.

Lemma nth_replicate_zero k n : nth k (replicate n 0) 0 = 0.
Proof.
  rewrite nth_lookup. destruct (replicate n 0 !! k) eqn:E; [|done]. by apply lookup_replicate in E as [-> _].
Qed.

(** The addresses of an inode with one replaced. *)
Lemma set_addr_nth d k x l : length d.(d_addrs) = 13%nat -> (k < 13)%nat ->
  nth l (set_addr d k x).(d_addrs) 0 = if (l =? k)%nat then x else nth l d.(d_addrs) 0.
Proof.
  intros Hd Hk. cbn. destruct (Nat.eqb_spec l k) as [->|Hne]; [apply nth_insert_eq; lia|by apply nth_insert_ne].
Qed.

Lemma set_addr_ok d k x : dinode_ok d -> is_u32 x -> dinode_ok (set_addr d k x).
Proof.
  intros [H1 H2 H3 H4 H5 H6 H7] Hx. split; cbn; try done; [by rewrite length_insert|by apply Forall_insert].
Qed.

Lemma zero_word n : get32 (replicate BSIZE 0) n = 0.
Proof.
  unfold get32. by rewrite !nth_replicate_zero.
Qed.

(** ** Slots *)

(** Slot [k] of an inode: a direct address, the indirect block (12), or an
    entry of the indirect block (13 and up). *)
Definition slot (V : Z -> block) (d : dinode) (k : nat) : Z :=
  if (k <=? 12)%nat then nth k d.(d_addrs) 0
  else if nth 12 d.(d_addrs) 0 =? 0 then 0
  else get32 (V (nth 12 d.(d_addrs) 0)) (4 * (k - 13)).

(** The slot of block [fbn] of a file. *)
Definition cslot (fbn : Z) : nat := if fbn <? 12 then Z.to_nat fbn else S (Z.to_nat fbn).

Lemma slot_low V d k : (k <= 12)%nat -> slot V d k = nth k d.(d_addrs) 0.
Proof. intros H. unfold slot. destruct (Nat.leb_spec k 12); [done|lia]. Qed.

Lemma slot_high V d k : (13 <= k)%nat ->
  slot V d k = if slot V d 12 =? 0 then 0 else get32 (V (slot V d 12)) (4 * (k - 13)).
Proof. intros H. rewrite (slot_low V d 12) by lia. unfold slot. destruct (Nat.leb_spec k 12); [lia|done]. Qed.

(** Slots depend on the addresses of the inode and on its indirect block only. *)
Lemma slot_ext V V' d d' k :
  d'.(d_addrs) = d.(d_addrs) -> (slot V d 12 <> 0 -> V' (slot V d 12) = V (slot V d 12)) -> slot V' d' k = slot V d k.
Proof.
  intros Ed Ev. unfold slot in *. rewrite Ed. destruct (k <=? 12)%nat; [done|]. simpl in Ev.
  destruct (Z.eqb_spec (nth 12 d.(d_addrs) 0) 0) as [|E]; [done|]. by rewrite Ev.
Qed.

(** The two inodes differ in their addresses only. *)
Definition same_meta (d d' : dinode) : Prop :=
  d'.(d_type) = d.(d_type) /\ d'.(d_major) = d.(d_major) /\ d'.(d_minor) = d.(d_minor) /\
  d'.(d_nlink) = d.(d_nlink) /\ d'.(d_size) = d.(d_size).

(** A file of at most [MAXFILE] blocks. *)
Definition fits (dat : list Z) : Prop := Z.of_nat (length dat) <= 71680.

Lemma cslot_data fbn : 0 <= fbn < 140 -> (cslot fbn < 141)%nat /\ cslot fbn <> 12%nat.
Proof. intros H. unfold cslot. case_bool; lia. Qed.

Lemma cslot_inj a b : 0 <= a -> 0 <= b -> cslot a = cslot b -> a = b.
Proof. intros Ha Hb. unfold cslot. repeat case_bool; lia. Qed.

Lemma fbn_range (dat : list Z) q c : fits dat -> dat !! q = Some c -> 0 <= Z.of_nat (q / 512) < 140.
Proof. intros Hf Hq%lookup_lt_Some. unfold fits in Hf. rewrite Nat2Z.inj_div. change (Z.of_nat 512) with 512.
  pose proof (Z.div_lt_upper_bound (Z.of_nat q) 512 140). pose proof (Z.div_pos (Z.of_nat q) 512). lia. Qed.

Lemma lookup_put_bytes d off bs k : (Z.to_nat off + length bs <= length d)%nat ->
  put_bytes d off bs !! k =
    if decide (k < Z.to_nat off \/ Z.to_nat off + length bs <= k)%nat then d !! k else bs !! (k - Z.to_nat off)%nat.
Proof.
  intros Hl. unfold put_bytes. set (o := Z.to_nat off) in *.
  assert (Ho : length (take o d) = o) by (rewrite length_take; lia). destruct (decide _) as [[H|H]|H].
  - rewrite lookup_app_l by lia. by apply lookup_take_lt.
  - rewrite lookup_app_r, lookup_app_r by lia. rewrite lookup_drop. f_equal. lia.
  - rewrite lookup_app_r, lookup_app_l by lia. f_equal. lia.
Qed.

Lemma put_bytes_bytes d off bs : bytes512 d -> Forall is_u8 bs -> (Z.to_nat off + length bs <= 512)%nat ->
  bytes512 (put_bytes d off bs).
Proof.
  intros [Hl Hd] Hb Ho. unfold BSIZE in Hl. split.
  - unfold put_bytes, BSIZE. rewrite !length_app, length_take, length_drop. lia.
  - unfold put_bytes. rewrite !Forall_app. split; [by apply Forall_take|]. split; [done|by apply Forall_drop].
Qed.

(** ** Going through a file block by block *)

(** The turns that [n] bytes from [off] on take. *)
Definition turns (off n : Z) : Z := if n =? 0 then 0 else (off mod 512 + n - 1) / 512 + 1.

Lemma turns_step off n n1 :
  0 <= off -> 0 < n -> n1 = Z.min n ((off / 512 + 1) * 512 - off) ->
  0 < n1 <= n /\ turns (off + n1) (n - n1) + 1 <= turns off n.
Proof.
  intros Ho Hn ->. unfold turns. pose proof (Z.div_mod off 512 ltac:(lia)) as E. pose proof (Z.mod_pos_bound off 512 ltac:(lia)) as B.
  destruct (Z.eqb_spec n 0) as [|_]; [lia|].
  destruct (Z.min_spec n ((off / 512 + 1) * 512 - off)) as [[H ->]|[H ->]].
  - split; [lia|]. rewrite Z.sub_diag. simpl. pose proof (Z.div_pos (off mod 512 + n - 1) 512). lia.
  - split; [lia|]. replace (off + ((off / 512 + 1) * 512 - off)) with (0 + (off / 512 + 1) * 512) by lia.
    rewrite Z.mod_add by lia. change (0 mod 512) with 0.
    replace (off mod 512 + n - 1) with (0 + (n - ((off / 512 + 1) * 512 - off)) - 1 + 1 * 512) by lia.
    rewrite Z.div_add by lia. case_bool; [|lia].
    replace (n - ((off / 512 + 1) * 512 - off)) with 0 by lia. change ((0 + 0 - 1) / 512) with (-1). lia.
Qed.

Lemma turns_bound off n : 0 <= off -> 0 <= n -> 0 <= turns off n <= n / 512 + 2.
Proof.
  intros Ho Hn. unfold turns. pose proof (Z.mod_pos_bound off 512 ltac:(lia)). pose proof (Z.div_pos n 512). case_bool; [lia|].
  pose proof (Z.div_pos (off mod 512 + n - 1) 512).
  pose proof (Z.div_le_mono (off mod 512 + n - 1) (n + 1 * 512) 512). rewrite Z.div_add in * by lia. lia.
Qed.
