(* ===== verification/FsSpec.v ===== *)
(** * File system code over the log

    Inside a transaction the file system code opens a block ([bread]), may
    change and log it ([log_write]), and closes it ([brelse]).  Three lemmas
    describe these steps by what they do to the contents of the blocks, so
    that the functions of fs.c are verified against contents only. *)

From S2P Require Import Prelude Locks Bio BioSpec BioView Layout Log LogSpec LogCrash LogTx Fs FsBits.

(** A layout of block groups after the log. *)
Record geo (sb : superblock) (ds : Z) : Prop := {
  ge_log : 1 < sb.(sb_logstart) /\ 0 < sb.(sb_nlog) <= LOGSIZE;
  ge_bpg : 0 < sb.(sb_bpg) <= BPB;
  ge_ipg : 0 <= sb.(sb_ipg) /\ sb.(sb_ipg) / IPB < sb.(sb_bpg);
  ge_ng : 0 <= sb.(sb_ngroups) /\
    sb.(sb_logstart) + sb.(sb_nlog) + sb.(sb_ngroups) * sb.(sb_bpg) <= ds < 2 ^ 31
}.

(** Project from a state written out. *)
Ltac proj := cbn [lst icache fsb lg bc woken] in *.

Section Steps.
Context (me ds : Z) (sb : superblock).
Hypothesis G : geo sb ds.

(** The first block after the log. *)
Definition gs : Z := sb.(sb_logstart) + sb.(sb_nlog).

Definition contents (s : fsst) : Z -> block := vw s.(lst).(bc).
Definition logged_n (s : fsst) : Z := s.(lst).(lg).(lh_n).

(** Inside a transaction, with the buffers [H] held. *)
Record fok (s : fsst) (order H : list nat) : Prop := {
  fk_tx : tx me ds s.(lst) order H;
  fk_sb : s.(fsb) = sb /\ decode_sb (contents s 1) = sb;
  fk_log : s.(lst).(lg).(start) = sb.(sb_logstart) /\ s.(lst).(lg).(size) = sb.(sb_nlog) /\
    1 <= s.(lst).(lg).(outstanding);
  fk_bytes : forall m, 0 <= m < ds -> bytes512 (contents s m)
}.

(** From [s] to [s'] the contents become [V], at most [k] more blocks are
    logged, and the held buffers [H] keep what they hold. *)
Record vstep (s s' : fsst) (H : list nat) (V : Z -> block) (k : Z) : Prop := {
  vs_vw : forall m, contents s' m = V m;
  vs_disk : s'.(lst).(bc).(disk) = s.(lst).(bc).(disk);
  vs_n : logged_n s <= logged_n s' <= logged_n s + k;
  vs_held : forall i x, i ∈ H -> s.(lst).(bc).(bufs) !! i = Some x ->
    exists x', s'.(lst).(bc).(bufs) !! i = Some x' /\ strip x' = strip x;
  vs_rest : s'.(icache) = s.(icache) /\ s'.(fsb) = s.(fsb)
}.

Lemma vstep_refl s H : vstep s s H (contents s) 0.
Proof. split; try done; [lia|]. intros i x _ Hx. by exists x. Qed.

Lemma vstep_trans s s1 s2 H V1 V2 k1 k2 :
  vstep s s1 H V1 k1 -> vstep s1 s2 H V2 k2 -> vstep s s2 H V2 (k1 + k2).
Proof.
  intros [A1 A2 A3 A4 [A5 A6]] [B1 B2 B3 B4 [B5 B6]]. split; [exact B1|congruence|lia| |split; congruence].
  intros i x Hi Hx. destruct (A4 i x Hi Hx) as (y & Hy & Ey). destruct (B4 i y Hi Hy) as (z & Hz & Ez).
  exists z. split; [done|congruence].
Qed.

Lemma vstep_weaken s s' H H' V V' k k' :
  vstep s s' H V k -> (forall i, i ∈ H' -> i ∈ H) -> (forall m, V m = V' m) -> k <= k' -> vstep s s' H' V' k'.
Proof.
  intros [A1 A2 A3 A4 A5] Hs HV Hk. split; try done; [intros m; by rewrite A1|lia|]. intros i x Hi. apply A4. by apply Hs.
Qed.

(** Block [n] is not held. *)
Definition unheld (s : fsst) (H : list nat) (n : Z) : Prop :=
  forall i x, cached s.(lst).(bc) n i x -> i ∉ H.

(** Buffer [bp], holding [x], is open on block [n]. *)
Record opened (s : fsst) (order H : list nat) (bp : nat) (n : Z) (x : buf) : Prop := {
  op_fok : fok s order (bp :: H);
  op_cached : cached s.(lst).(bc) n bp x;
  op_clean : x.(flags) = 2 -> x.(data) = s.(lst).(bc).(disk) n
}.

Lemma opened_data s order H bp n x : opened s order H bp n x -> x.(data) = contents s n.
Proof.
  intros [F C _]. symmetry. eapply vw_cached; [|exact C]. exact (cl_inv _ _ _ _ (tx_client _ _ _ _ _ (fk_tx _ _ _ F))).
Qed.

(** *** Opening *)

Lemma read_fs s order H n :
  fok s order H -> 0 <= n < ds -> unheld s H n -> Z.of_nat (length H) + logged_n s < 30 ->
  exists bp s1 x, onb (bread me 1 n) s = Ok (bp, s1) /\ opened s1 order H bp n x /\
    vstep s s1 H (contents s) 0 /\ (bp ∉ H).
Proof.
  intros [T [S1 S2] [L1 [L2 L3]] HB] Hn Hu Hroom. pose proof (tx_ndirty _ _ _ _ _ T) as Hnd.
  destruct T as [Lo Cl Hds Hpin Hlog]. pose proof (lo_n _ _ Lo) as [Hn0 _]. unfold logged_n, contents, unheld in *.
  rewrite <- Hds in Hn.
  destruct (bread_client me s.(lst).(bc) order H n Cl Hn Hu) as
    (bp & c1 & x & R1 & Cl1 & Hbp & Hc1 & Hx1 & Ed1 & Es1 & Ew1 & Hv1 & Hd1 & Hn1 & Ho1 & Hf1).
  { right. unfold NBUF. lia. }
  exists bp, (mk_fsst (mk_lgst s.(lst).(lg) c1 s.(lst).(woken)) s.(icache) s.(fsb)), x. split_and!; try done.
  - unfold onb, onlog. by erewrite onbio_Ok by exact R1.
  - split; [|done|intros Ef; proj; rewrite Ed1; by apply Hf1]. split; unfold contents; proj; try done.
    + split; proj; try done; [congruence|..].
      * intros i Hi. by apply Hd1, Hpin.
      * intros m Hm. by apply Hlog, Hd1.
    + by rewrite Hv1.
    + intros m Hm. rewrite Hv1. by apply HB.
  - unfold contents. split; unfold contents, logged_n; proj; try done; [lia|].
    intros i y Hi Hy. exists y. split; [|done]. rewrite Ho1; [done|]. intros ->. done.
Qed.

(** *** Closing without a change *)

Lemma drop_fs s order H bp n x :
  opened s order H bp n x ->
  exists s' order', onb (brelse me bp) s = Ok (tt, s') /\ fok s' order' H /\ vstep s s' H (contents s) 0.
Proof.
  intros [[T [S1 S2] [L1 [L2 L3]] HB] Hc Hcl]. destruct s as [[l c w] ic f]. proj.
  pose proof Hc as (Hx & Hb & Hdev & Hbn). pose proof (tx_client _ _ _ _ _ T) as Cl. proj.
  destruct (brelse_client me c order H bp x Cl Hx) as (c1 & o1 & R1 & Cl1 & E1 & E2 & E3 & Hv & Hd & Hn & Hk).
  { intros Ef. rewrite Hbn. by apply Hcl. }
  pose proof (cl_nodup _ _ _ _ Cl) as HbpH. apply NoDup_cons in HbpH as [HbpH _].
  exists (mk_fsst (mk_lgst l c1 w) ic f), o1. split; [unfold onb, onlog; by erewrite onbio_Ok by exact R1|].
  destruct T as [Lo _ Hds Hpin Hlog]. proj. split.
  - split; unfold contents in *; proj; try done.
    + split; proj; try done; [congruence|..].
      * intros i Hi. by apply Hd, Hpin.
      * intros m Hm. by apply Hlog, Hd.
    + by rewrite Hv.
    + intros m Hm. rewrite Hv. by apply HB.
  - split; unfold contents, logged_n; proj; try done; [lia|].
    intros i y Hi Hy. apply Hk; [intros ->; done|done].
Qed.

(** *** Changing, logging and closing *)

Definition set_block (bp : nat) (g : block -> block) : kM fsst unit :=
  _ ← onb (setb bp (fun x => with_data x (g x.(data))));
  _ ← onlog (log_write bp);
  onb (brelse me bp).

Lemma log_fs s order H bp n x g :
  opened s order H bp n x -> gs <= n < ds -> logged_n s + 1 < sb.(sb_nlog) ->
  bytes512 (g x.(data)) ->
  exists s1 x', (_ ← onb (setb bp (fun x => with_data x (g x.(data)))); onlog (log_write bp)) s = Ok (tt, s1) /\
    opened s1 order H bp n x' /\ x'.(flags) = 6 /\ vstep s s1 H (dupd (contents s) n (g x.(data))) 1.
Proof.
  intros [[T [S1 S2] [L1 [L2 L3]] HB] Hc Hcl] Hn Hroom Hg. destruct s as [[l c w] ic f]. unfold contents, logged_n in *. proj.
  pose proof Hc as (Hx & Hb & Hdev & Hbn). pose proof G as [[GL1 GL2] _ _ _].
  assert (Hin : bp ∈ bp :: H) by by left.
  pose proof (tx_client _ _ _ _ _ T) as Cl. proj.
  set (f1 := fun y => with_data y (g x.(data))).
  destruct (held me c order (bp :: H) bp x Cl Hin Hx) as (_ & Hr & Hlk & _).
  assert (Hfl : x.(flags) = 2 \/ x.(flags) = 6).
  { destruct (bi_buf _ _ (cl_inv _ _ _ _ Cl) bp x Hb Hx) as (_ & _ & G3 & _).
    destruct G3 as [(? & _)|(_ & _ & ?)]; [congruence|done]. }
  pose proof (data_tx me ds l c w order (bp :: H) bp x (g x.(data)) T Hin Hx) as T1.
  destruct (client_upd me c order (bp :: H) bp x f1 Cl Hin Hx) as (Cl1 & Hc1 & Hv1 & _ & Ho1); [done|done|].
  rewrite Hbn in *.
  destruct (log_write_run me ds _ order (bp :: H) bp (f1 x) T1 Hin) as (s2 & E2 & Hw & T2 & _ & _ & Hcnt & Hdn & Ed2 & Hv2);
    cbn [lg bc]; try done.
  { by apply upd_lookup. } { unfold LOGSIZE in *. lia. } { lia. }
  { unfold outside. rewrite L1, L2. unfold gs in Hn. cbn. lia. }
  set (f2 := fun y => with_data y (g x.(data))) in *. proj. subst s2. proj.
  change (blockno (f1 x)) with (blockno x) in *. rewrite Hbn in *.
  assert (Hx2 : (upd_buf bp set_dirty (upd_buf bp f2 c)).(bufs) !! bp = Some (set_dirty (f2 x))).
  { by apply upd_lookup, upd_lookup. }
  assert (Hvw : forall m, vw (upd_buf bp set_dirty (upd_buf bp f2 c)) m = dupd (vw c) n (g x.(data)) m).
  { intros m. rewrite Hv2. unfold dupd. destruct (Z.eqb_spec m n) as [->|Hne]; [|by apply Hv1].
    apply (vw_cached _ order n bp (f1 x) (cl_inv _ _ _ _ Cl1) Hc1). }
  exists (mk_fsst (mk_lgst (logged l n) (upd_buf bp set_dirty (upd_buf bp f2 c)) w) ic f), (set_dirty (f2 x)).
  assert (H6 : (set_dirty (f2 x)).(flags) = 6) by (cbn; destruct Hfl as [-> | ->]; done).
  split_and!; [|split; proj|done|split; unfold contents, logged_n; proj].
  - erewrite kM_bind_run by reflexivity. proj. unfold onb, onlog, setb, kmodify, onbio. proj.
    rewrite (upd_ext bp (fun x0 => with_data x0 (g x0.(data))) f2 c x Hx eq_refl).
    by rewrite Hw.
  - split; unfold contents; proj; try done.
    + rewrite Hvw. split; [done|]. unfold dupd. destruct (Z.eqb_spec 1 n) as [E|]; [|done]. unfold gs in Hn. lia.
    + unfold logged. destruct (_ =? _); done.
    + intros m Hm. rewrite Hvw. unfold dupd. destruct (m =? n); [done|]. by apply HB.
  - by split_and!.
  - intros Ef. congruence.
  - done.
  - done.
  - destruct Hcnt as [[_ ->]|[_ ->]]; lia.
  - pose proof (cl_nodup _ _ _ _ Cl) as HbpH. apply NoDup_cons in HbpH as [HbpH _].
    intros i y Hi Hy. exists y. split; [|done]. assert (i <> bp) by (by intros ->).
    rewrite !upd_lookup_ne by done. done.
  - done.
Qed.

Lemma write_fs s order H bp n x g :
  opened s order H bp n x -> gs <= n < ds -> logged_n s + 1 < sb.(sb_nlog) -> bytes512 (g x.(data)) ->
  exists s' order', set_block bp g s = Ok (tt, s') /\ fok s' order' H /\
    vstep s s' H (dupd (contents s) n (g x.(data))) 1.
Proof.
  intros O Hn Hroom Hg. destruct (log_fs s order H bp n x g O Hn Hroom Hg) as (s1 & x' & R1 & O1 & _ & V1).
  destruct (drop_fs s1 order H bp n x' O1) as (s' & o' & R2 & F2 & V2).
  exists s', o'. split_and!; [|done|].
  - unfold set_block. apply kM_bind_Ok in R1 as (u & s0 & Ra & Rb). destruct u.
    by rewrite (kM_bind_run _ _ _ _ _ Ra), (kM_bind_run _ _ _ _ _ Rb).
  - eapply vstep_weaken; [exact (vstep_trans _ _ _ _ _ _ _ _ V1 V2)|done|apply V1|lia].
Qed.

Lemma set_block_then {A} bp g s s' (k : kM fsst A) :
  set_block bp g s = Ok (tt, s') ->
  (_ ← onb (setb bp (fun x => with_data x (g x.(data)))); _ ← onlog (log_write bp); _ ← onb (brelse me bp); k) s = k s'.
Proof.
  unfold set_block. intros R. apply kM_bind_Ok in R as (u1 & t1 & Ra & R). apply kM_bind_Ok in R as (u2 & t2 & Rb & Rc).
  by rewrite (kM_bind_run _ _ _ _ _ Ra), (kM_bind_run _ _ _ _ _ Rb), (kM_bind_run _ _ _ _ _ Rc).
Qed.

Lemma getb_fs s order H bp n x : opened s order H bp n x -> onb (getb bp) s = Ok (x, s).
Proof.
  intros O. destruct (op_cached _ _ _ _ _ _ O) as (Hb & _). unfold onb, onlog. destruct s as [[l c w] ic f].
  by erewrite onbio_Ok by (apply getb_run; exact Hb).
Qed.

(** [readsb] reads the super block the kernel keeps. *)
Lemma readsb_fs s order H :
  fok s order H -> unheld s H 1 -> Z.of_nat (length H) + logged_n s < 30 ->
  exists s' order', onlog (readsb me 1) s = Ok (sb, s') /\ fok s' order' H /\ vstep s s' H (contents s) 0.
Proof.
  intros F Hu Hroom. pose proof G as [[G1 G2] [G3 G4] _ [G5 G6]].
  destruct (read_fs s order H 1 F) as (bp & s1 & x & R1 & O1 & V1 & _); try done. { nia. }
  pose proof (opened_data _ _ _ _ _ _ O1) as Hx. rewrite (vs_vw _ _ _ _ _ V1) in Hx.
  destruct (drop_fs s1 order H bp 1 x O1) as (s' & o' & R2 & F2 & V2).
  exists s', o'. split_and!; [|done|].
  - destruct s as [[l c w] ic f], s1 as [[l1 c1 w1] ic1 f1], s' as [[l2 c2 w2] ic2 f2].
    unfold onb, onlog, onbio in R1, R2. proj. unfold onlog, readsb. proj.
    destruct (bread me 1 1 c) as [[b' c']|] eqn:Eb; [|done]. injection R1 as -> <- <- <- <- <-.
    destruct (brelse me bp c') as [[u c'']|] eqn:Er; [|done]. injection R2 as _ <- <- <- <- <-.
    rewrite (kM_bind_run _ _ _ _ _ (onbio_Ok _ (mk_lgst l c w) _ _ Eb)). proj.
    destruct (op_cached _ _ _ _ _ _ O1) as (Hb & _). proj.
    rewrite (kM_bind_run _ _ _ _ _ (onbio_Ok _ (mk_lgst l c' w) _ _ (getb_run c' bp x Hb))). proj.
    rewrite (kM_bind_run _ _ _ _ _ (onbio_Ok _ (mk_lgst l c' w) _ _ Er)). proj. unfold mret, kM_ret.
    rewrite Hx. destruct (fk_sb _ _ _ F) as [_ ->]. done.
  - eapply vstep_weaken; [exact (vstep_trans _ _ _ _ _ _ _ _ V1 V2)|done|apply V1|lia].
Qed.

End Steps.
