(* ===== verification/FsAlloc.v ===== *)
(** * The block allocator

    The bitmaps of the block groups describe one set of used blocks; [balloc]
    adds its least missing element and [bfree] removes one. *)

From S2P Require Import Prelude Locks Bio BioSpec BioView Layout Log LogSpec LogCrash LogTx Fs FsBits FsSpec.

Section Alloc.
Context (me ds : Z) (sb : superblock).
Hypothesis G : geo sb ds.

Abbreviation gs := (gs sb).
Abbreviation bpg := (sb.(sb_bpg)).
Abbreviation fok := (fok me ds sb).

(** One past the last block of the groups. *)
Definition gend : Z := gs + sb.(sb_ngroups) * bpg.

(** The bitmap block of group [g]. *)
Definition bmapblk (g : Z) : Z := gs + g * bpg + sb.(sb_ipg) / IPB.

(** Block [b] is in use, by the bitmap of its group. *)
Definition used (V : Z -> block) (b : Z) : bool := bit_set (V (BBLOCK b sb)) ((b - gs) mod bpg).

Lemma ipg_div : 0 <= sb.(sb_ipg) / IPB < bpg.
Proof. pose proof (ge_ipg _ _ G). split; [apply Z.div_pos; unfold IPB; lia|lia]. Qed.

Lemma gs_range : 1 < gs /\ gend <= ds < 2 ^ 31.
Proof. pose proof (ge_log _ _ G). pose proof (ge_ng _ _ G). unfold gend, FsSpec.gs. lia. Qed.

Lemma group_range g : 0 <= g < sb.(sb_ngroups) -> gs <= gs + g * bpg /\ gs + g * bpg + bpg <= gend.
Proof. intros Hg. pose proof (ge_bpg _ _ G). unfold gend. nia. Qed.

(** Where a block of the groups is. *)
Lemma block_group b : gs <= b < gend ->
  exists g bi, b = gs + g * bpg + bi /\ 0 <= g < sb.(sb_ngroups) /\ 0 <= bi < bpg /\
    (b - gs) / bpg = g /\ (b - gs) mod bpg = bi.
Proof.
  intros Hb. pose proof (ge_bpg _ _ G) as [Hp _]. exists ((b - gs) / bpg), ((b - gs) mod bpg).
  pose proof (Z.div_mod (b - gs) bpg). pose proof (Z.mod_pos_bound (b - gs) bpg).
  split_and!; try done; try lia.
  - apply Z.div_pos; lia.
  - apply Z.div_lt_upper_bound; [done|]. unfold gend in Hb. lia.
Qed.

Lemma group_block g bi : 0 <= bi < bpg -> (gs + g * bpg + bi - gs) / bpg = g /\ (gs + g * bpg + bi - gs) mod bpg = bi.
Proof.
  intros Hbi. replace (gs + g * bpg + bi - gs) with (bi + g * bpg) by lia.
  rewrite Z.div_add, Z.mod_add, Z.div_small, Z.mod_small by lia. lia.
Qed.

Lemma BBLOCK_group b : gs <= b < gend -> BBLOCK b sb = bmapblk ((b - gs) / bpg).
Proof.
  intros Hb. pose proof gs_range as [Hg1 Hg2]. unfold BBLOCK, bmapblk. change (sb.(sb_logstart) + sb.(sb_nlog)) with gs.
  rewrite (u32_small (b - gs)) by (unfold is_u32; lia). apply u32_small.
  destruct (block_group b Hb) as (g & bi & -> & Hg & Hbi & -> & _).
  pose proof (group_range g Hg). pose proof ipg_div. unfold is_u32. lia.
Qed.

Lemma BBLOCK_at g bi : 0 <= g < sb.(sb_ngroups) -> 0 <= bi < bpg -> BBLOCK (gs + g * bpg + bi) sb = bmapblk g.
Proof.
  intros Hg Hbi. pose proof (group_range g Hg). rewrite BBLOCK_group by lia. by destruct (group_block g bi Hbi) as [-> _].
Qed.

Lemma used_at V g bi : 0 <= g < sb.(sb_ngroups) -> 0 <= bi < bpg ->
  used V (gs + g * bpg + bi) = bit_set (V (bmapblk g)) bi.
Proof. intros Hg Hbi. unfold used. rewrite BBLOCK_at by done. by destruct (group_block g bi Hbi) as [_ ->]. Qed.

Lemma bmapblk_range g : 0 <= g < sb.(sb_ngroups) -> gs <= bmapblk g < gend.
Proof. intros Hg. pose proof (group_range g Hg). pose proof ipg_div. unfold bmapblk. lia. Qed.

Lemma bmapblk_inj g g' : bmapblk g = bmapblk g' -> g = g'.
Proof. unfold bmapblk. pose proof (ge_bpg _ _ G). intros E. nia. Qed.

(** The bitmap blocks themselves are in use. *)
Definition meta_used (V : Z -> block) : Prop := forall g, 0 <= g < sb.(sb_ngroups) -> used V (bmapblk g) = true.

(** The contents after block [r] was allocated. *)
Definition alloc_view (V : Z -> block) (r : Z) : Z -> block :=
  dupd (dupd V (BBLOCK r sb) (mark (V (BBLOCK r sb)) ((r - gs) mod bpg))) r (replicate BSIZE 0).

(** What the caller holds does not get in the allocator's way. *)
Record clear_of (s : fsst) (H : list nat) : Prop := {
  co_sb : unheld s H 1;
  co_meta : forall g, 0 <= g < sb.(sb_ngroups) -> unheld s H (bmapblk g);
  co_free : forall b, gs <= b < gend -> used (contents s) b = false -> unheld s H b
}.

Lemma unheld_step s s' order H V k n :
  fok s order H -> vstep s s' H V k -> unheld s H n -> unheld s' H n.
Proof.
  intros F S Hu i x (Hx & Hi & Hd & Hn) Hin.
  pose proof (cl_inv _ _ _ _ (tx_client _ _ _ _ _ (fk_tx _ _ _ _ _ _ F))) as B.
  destruct (lookup_lt_is_Some_2 s.(lst).(bc).(bufs) i) as [y Hy].
  { rewrite (ring_len _ _ (bi_ring _ _ B)). lia. }
  destruct (vs_held _ _ _ _ _ S i y Hin Hy) as (x' & Hx' & E). assert (x' = x) as -> by congruence.
  apply strip_fields in E as (_ & E1 & E2 & _). apply (Hu i y); [|done]. split_and!; try done; congruence.
Qed.

Lemma clear_of_step s s' order H V k :
  fok s order H -> vstep s s' H V k -> (forall b, gs <= b < gend -> used V b = false -> used (contents s) b = false) ->
  clear_of s H -> clear_of s' H.
Proof.
  intros F S HV [C1 C2 C3]. split.
  - by eapply unheld_step.
  - intros g Hg. eapply unheld_step; [done|done|]. by apply C2.
  - intros b Hb Hub. eapply unheld_step; [done|done|]. apply C3; [done|]. apply HV; [done|].
    rewrite <- Hub. unfold used. by rewrite (vs_vw _ _ _ _ _ S).
Qed.

Lemma bit_512 (d : block) bi : bytes512 d -> 0 <= bi < bpg -> 0 <= bi < 8 * Z.of_nat (length d).
Proof. intros [-> _] Hbi. pose proof (ge_bpg _ _ G). unfold BPB, BSIZE in *. lia. Qed.

(** The loop over the groups. *)
Lemma group_addr g : 0 <= g < sb.(sb_ngroups) ->
  u32 (global_start sb + u32 (g * bpg)) = gs + g * bpg /\ u32 (gs + g * bpg + sb.(sb_ipg) / IPB) = bmapblk g.
Proof.
  intros Hg. pose proof (group_range g Hg) as [Hr1 Hr2]. pose proof gs_range as [Hs1 Hs2]. pose proof ipg_div as Hip.
  pose proof (bmapblk_range g Hg) as Hbm. pose proof (ge_bpg _ _ G) as Hbpg. pose proof (ge_log _ _ G) as [_ Hnlog].
  split; [|apply u32_small; unfold bmapblk, is_u32 in *; lia].
  unfold global_start. change (sb.(sb_logstart) + sb.(sb_nlog)) with gs.
  rewrite (u32_small gs), (u32_small (g * bpg)) by (unfold is_u32; nia). apply u32_small. unfold is_u32. lia.
Qed.

(** The free bit [bi] of group [g] is set and its block zeroed. *)
Lemma take_run g bi s s1 order H bp x :
  0 <= g < sb.(sb_ngroups) -> 0 <= bi < bpg -> fok s order H -> clear_of s H -> meta_used (contents s) ->
  used (contents s) (gs + g * bpg + bi) = false ->
  logged_n s + 3 <= sb.(sb_nlog) -> Z.of_nat (length H) + logged_n s + 1 < 30 ->
  vstep s s1 H (contents s) 0 -> opened me ds sb s1 order H bp (bmapblk g) x -> x.(data) = contents s (bmapblk g) ->
  exists s' order', (
    _ ← onb (setb bp (fun x => with_data x (mark x.(data) bi)));
    _ ← onlog (log_write bp);
    _ ← onb (brelse me bp);
    let abs_block := u32 (gs + g * bpg + bi) in
    bp ← onb (bread me 1 abs_block);
    _ ← onb (setb bp (fun x => with_data x (replicate BSIZE 0)));
    _ ← onlog (log_write bp);
    _ ← onb (brelse me bp);
    mret abs_block) s1 = Ok (gs + g * bpg + bi, s') /\ fok s' order' H /\
    vstep s s' H (alloc_view (contents s) (gs + g * bpg + bi)) 2.
Proof.
  intros Hg Hbi F C M Hur Hlog Hroom V1 O1 Hx. pose proof (group_range g Hg) as [Hr1 Hr2].
  pose proof gs_range as [Hs1 Hs2]. pose proof (bmapblk_range g Hg) as Hbm.
  pose proof (fk_bytes _ _ _ _ _ _ F (bmapblk g) ltac:(lia)) as HB.
  pose proof (BBLOCK_at g bi Hg Hbi) as EB. pose proof (group_block g bi Hbi) as [_ Emod].
  set (r := gs + g * bpg + bi) in *. assert (Hrr : gs <= r < ds) by (unfold r; lia).
  assert (Hne : r <> bmapblk g) by (intros E; rewrite E, M in Hur; done).
  pose proof (vs_n _ _ _ _ _ V1) as Hn1.
  destruct (write_fs me ds sb G s1 order H bp (bmapblk g) x (fun d => mark d bi) O1) as (s2 & o2 & R2 & F2 & V2).
  { lia. } { lia. } { rewrite Hx. by apply bytes512_insert. }
  pose proof (vstep_trans _ _ _ _ _ _ _ _ V1 V2) as V12. rewrite Z.add_0_l in V12.
  pose proof (vs_n _ _ _ _ _ V12) as Hn2.
  destruct (read_fs me ds sb s2 o2 H r F2) as (bp2 & s3 & x3 & R3 & O3 & V3 & _).
  { lia. } { eapply unheld_step; [exact F|exact V12|]. by apply C; [unfold r; lia|]. } { lia. }
  pose proof (vs_n _ _ _ _ _ V3) as Hn3.
  destruct (write_fs me ds sb G s3 o2 H bp2 r x3 (fun _ => replicate BSIZE 0) O3) as (s4 & o4 & R4 & F4 & V4).
  { lia. } { lia. } { apply bytes512_zero. }
  exists s4, o4. split; [|split; [done|]].
  - rewrite (set_block_then me _ _ _ _ _ R2). cbv zeta. rewrite (u32_small r) by (unfold is_u32; lia).
    rewrite (kM_bind_run _ _ _ _ _ R3). by rewrite (set_block_then me _ _ _ _ _ R4).
  - eapply vstep_weaken; [exact (vstep_trans _ _ _ _ _ _ _ _ (vstep_trans _ _ _ _ _ _ _ _ V12 V3) V4)|done| |lia].
    intros m. unfold alloc_view. rewrite EB, Emod. unfold dupd.
    destruct (m =? r); [done|]. rewrite (vs_vw _ _ _ _ _ V3), (vs_vw _ _ _ _ _ V2). unfold dupd.
    rewrite Hx, (vs_vw _ _ _ _ _ V1). done.
Qed.

(** How the scan of the groups from block [lo] on can end: nothing is free,
    or the first free block is taken. *)
Definition scanned (s s' : fsst) (H : list nat) (lo r : Z) : Prop :=
  (r = 0 /\ vstep s s' H (contents s) 0 /\ (forall b, lo <= b < gend -> used (contents s) b = true)) \/
  (lo <= r < gend /\ used (contents s) r = false /\ (forall b, lo <= b < r -> used (contents s) b = true) /\
   vstep s s' H (alloc_view (contents s) r) 2).

Lemma scanned_skip s s1 s' H lo mid r :
  vstep s s1 H (contents s) 0 -> lo <= mid -> (forall b, lo <= b < mid -> used (contents s) b = true) ->
  scanned s1 s' H mid r -> scanned s s' H lo r.
Proof.
  intros V1 Hlm Hthis Hcase.
  assert (EV : forall m, contents s1 m = contents s m) by apply V1.
  assert (EU : forall b, used (contents s1) b = used (contents s) b) by (intros b; unfold used; by rewrite EV).
  assert (EA : forall b m, alloc_view (contents s1) b m = alloc_view (contents s) b m).
  { intros b m. unfold alloc_view, dupd. by rewrite !EV. }
  destruct Hcase as [(-> & V3 & Hall)|(H1 & H2 & H3 & V3)]; [left|right].
  - split; [done|]. split.
    + eapply vstep_weaken; [exact (vstep_trans _ _ _ _ _ _ _ _ V1 V3)|done|done|lia].
    + intros b Hb. destruct (decide (b < mid)); [apply Hthis; lia|]. rewrite <- EU. apply Hall. lia.
  - split; [lia|]. split; [by rewrite <- EU|]. split.
    + intros b Hb. destruct (decide (b < mid)); [apply Hthis; lia|]. rewrite <- EU. apply H3. lia.
    + eapply vstep_weaken; [exact (vstep_trans _ _ _ _ _ _ _ _ V1 V3)|done|apply EA|lia].
Qed.

Lemma balloc_groups_run k g s order H :
  fok s order H -> clear_of s H -> meta_used (contents s) -> 0 <= g -> g + Z.of_nat k = sb.(sb_ngroups) ->
  logged_n s + 3 <= sb.(sb_nlog) -> Z.of_nat (length H) + logged_n s + 1 < 30 ->
  exists r s' order', balloc_groups me 1 sb g k s = Ok (r, s') /\ fok s' order' H /\ scanned s s' H (gs + g * bpg) r.
Proof.
  revert g s order. induction k as [|k IH]; intros g s order F C M Hg0 Hgk Hlog Hroom.
  { exists 0, s, order. split; [done|]. split; [done|]. left. split; [done|]. split; [apply vstep_refl|].
    intros b Hb. unfold gend in Hb. assert (g = sb.(sb_ngroups)) as -> by lia. lia. }
  assert (Hg : 0 <= g < sb.(sb_ngroups)) by lia. pose proof (group_range g Hg) as [Hr1 Hr2].
  pose proof gs_range as [Hs1 Hs2]. pose proof (bmapblk_range g Hg) as Hbm. pose proof (ge_bpg _ _ G) as Hbpg.
  destruct (group_addr g Hg) as [Egs Ebm]. cbn [balloc_groups]. rewrite Egs, Ebm.
  destruct (read_fs me ds sb s order H (bmapblk g) F) as (bp & s1 & x & R1 & O1 & V1 & _).
  { lia. } { by apply C. } { lia. }
  rewrite (kM_bind_run _ _ _ _ _ R1), (kM_bind_run _ _ _ _ _ (getb_fs _ _ _ _ _ _ _ _ _ O1)).
  pose proof (opened_data _ _ _ _ _ _ _ _ _ O1) as Hx. rewrite (vs_vw _ _ _ _ _ V1) in Hx. rewrite Hx.
  assert (Emin : Z.of_nat (Z.to_nat (Z.min BPB bpg)) = bpg) by lia.
  destruct (free_bit (contents s (bmapblk g)) 0 (Z.to_nat (Z.min BPB bpg))) as [bi|] eqn:Ef.
  - apply free_bit_Some in Ef as (Hbi & Hclr & Hbelow); [|lia]. rewrite Emin in Hbi.
    assert (Hur : used (contents s) (gs + g * bpg + bi) = false) by (rewrite used_at; done || lia).
    destruct (take_run g bi s s1 order H bp x) as (s' & o' & R & F' & V'); try done; try lia.
    exists (gs + g * bpg + bi), s', o'. split; [exact R|]. split; [done|]. right.
    split; [lia|]. split; [done|]. split; [|done].
    intros b Hb. replace b with (gs + g * bpg + (b - gs - g * bpg)) by lia. rewrite used_at by lia. apply Hbelow. lia.
  - rewrite free_bit_None in Ef by lia. rewrite Emin in Ef.
    destruct (drop_fs me ds sb s1 order H bp (bmapblk g) x O1) as (s2 & o2 & R2 & F2 & V2).
    rewrite (kM_bind_run _ _ _ _ _ R2).
    assert (V12 : vstep s s2 H (contents s) 0).
    { eapply vstep_weaken; [exact (vstep_trans _ _ _ _ _ _ _ _ V1 V2)|done|apply V1|lia]. }
    assert (EU : forall b, used (contents s2) b = used (contents s) b).
    { intros b. unfold used. by rewrite (vs_vw _ _ _ _ _ V12). }
    pose proof (vs_n _ _ _ _ _ V12) as Hn2.
    destruct (IH (g + 1) s2 o2 F2) as (r & s' & o' & Hrun & F' & Hcase); try lia.
    { eapply clear_of_step; [exact F|exact V12| |done]. done. } { intros g' Hg'. rewrite EU. by apply M. }
    exists r, s', o'. split; [done|]. split; [done|]. eapply scanned_skip; [exact V12| | |exact Hcase]; [lia|].
    intros b Hb. replace b with (gs + g * bpg + (b - gs - g * bpg)) by lia. rewrite used_at by lia. apply Ef. lia.
Qed.

(** ** The used set *)

(** Changing one bit of the bitmap block of [r] changes [used] of [r] only. *)
Lemma used_change V V' r c :
  gs <= r < gend ->
  (forall g, 0 <= g < sb.(sb_ngroups) -> V' (bmapblk g) = if bmapblk g =? BBLOCK r sb then c else V (bmapblk g)) ->
  forall b, gs <= b < gend ->
  used V' b = if BBLOCK b sb =? BBLOCK r sb then bit_set c ((b - gs) mod bpg) else used V b.
Proof.
  intros Hr HV b Hb. destruct (block_group b Hb) as (g & bi & -> & Hg & Hbi & _ & ->).
  rewrite !used_at, BBLOCK_at, HV by done. by destruct (bmapblk g =? BBLOCK r sb).
Qed.

Lemma same_group_ne b r : gs <= b < gend -> gs <= r < gend -> BBLOCK b sb = BBLOCK r sb -> b <> r ->
  (b - gs) mod bpg <> (r - gs) mod bpg.
Proof.
  intros Hb Hr E Hne Em. destruct (block_group b Hb) as (g & bi & -> & Hg & Hbi & _ & E1).
  destruct (block_group r Hr) as (g' & bi' & -> & Hg' & Hbi' & _ & E2).
  rewrite !BBLOCK_at in E by done. apply bmapblk_inj in E. subst g'. congruence.
Qed.

Lemma mod_range b : 0 <= (b - gs) mod bpg < bpg.
Proof. pose proof (ge_bpg _ _ G). apply Z.mod_pos_bound. lia. Qed.

Lemma used_alloc V r :
  gs <= r < gend -> used V r = false -> meta_used V -> bytes512 (V (BBLOCK r sb)) ->
  forall b, gs <= b < gend -> used (alloc_view V r) b = (b =? r) || used V b.
Proof.
  intros Hr Hur M HB b Hb.
  rewrite (used_change V (alloc_view V r) r (mark (V (BBLOCK r sb)) ((r - gs) mod bpg)) Hr); [| |exact Hb].
  2:{ intros g Hg. unfold alloc_view, dupd. destruct (Z.eqb_spec (bmapblk g) r) as [E|]; [|done].
      rewrite <- E, M in Hur by done. done. }
  destruct (Z.eqb_spec (BBLOCK b sb) (BBLOCK r sb)) as [E|E].
  - rewrite bit_set_mark by (first [by apply bit_512, mod_range|apply mod_range]).
    unfold used. rewrite E. destruct (Z.eqb_spec b r) as [->|Hne]; [by rewrite Z.eqb_refl|].
    destruct (Z.eqb_spec ((b - gs) mod bpg) ((r - gs) mod bpg)) as [Em|]; [|done].
    by destruct (same_group_ne b r Hb Hr E Hne).
  - destruct (Z.eqb_spec b r) as [->|]; done.
Qed.

Lemma meta_alloc V r :
  gs <= r < gend -> used V r = false -> meta_used V -> bytes512 (V (BBLOCK r sb)) -> meta_used (alloc_view V r).
Proof.
  intros Hr Hur M HB g Hg. rewrite used_alloc by (try done; by apply bmapblk_range). rewrite M by done. apply orb_true_r.
Qed.

Lemma used_ext V V' b : (forall m, V m = V' m) -> used V b = used V' b.
Proof. intros E. unfold used. by rewrite E. Qed.

(** [balloc], as a step. *)
Lemma balloc_run s order H :
  fok s order H -> clear_of s H -> meta_used (contents s) ->
  logged_n s + 3 <= sb.(sb_nlog) -> Z.of_nat (length H) + logged_n s + 1 < 30 ->
  exists r s' order', balloc me 1 s = Ok (r, s') /\ fok s' order' H /\ meta_used (contents s') /\
    (r = 0 /\ vstep s s' H (contents s) 0 /\ (forall b, gs <= b < gend -> used (contents s) b = true) \/
     gs <= r < gend /\ used (contents s) r = false /\
     (forall b, gs <= b < r -> used (contents s) b = true) /\
     (forall b, gs <= b < gend -> used (contents s') b = (b =? r) || used (contents s) b) /\
     vstep s s' H (alloc_view (contents s) r) 2).
Proof.
  intros F C M Hlog Hroom. destruct (readsb_fs me ds sb G s order H F) as (s1 & o1 & R1 & F1 & V1).
  { apply C. } { lia. }
  unfold balloc. rewrite (kM_bind_run _ _ _ _ _ R1). pose proof (ge_ng _ _ G) as [Hng _].
  assert (EV : forall m, contents s1 m = contents s m) by apply V1.
  assert (EU : forall b, used (contents s1) b = used (contents s) b) by (intros b; by apply used_ext).
  pose proof (vs_n _ _ _ _ _ V1).
  destruct (balloc_groups_run (Z.to_nat sb.(sb_ngroups)) 0 s1 o1 H F1) as (r & s' & o' & R & F' & Hc).
  { eapply clear_of_step; [exact F|exact V1|done|done]. } { intros g Hg. rewrite EU. by apply M. }
  { lia. } { lia. } { lia. } { lia. }
  rewrite Z.mul_0_l, Z.add_0_r in Hc. exists r, s', o'. split; [done|]. split; [done|].
  destruct Hc as [(-> & V2 & Hall)|(Hr & Hur & Hlow & V2)].
  - split.
    + intros g Hg. rewrite (used_ext _ (contents s)) by (intros m; by rewrite (vs_vw _ _ _ _ _ V2)). by apply M.
    + left. split; [done|]. split; [|intros b Hb; rewrite <- EU; by apply Hall].
      eapply vstep_weaken; [exact (vstep_trans _ _ _ _ _ _ _ _ V1 V2)|done|done|lia].
  - rewrite EU in Hur. pose proof gs_range as [Hs1 Hs2].
    assert (HB : bytes512 (contents s (BBLOCK r sb))).
    { apply (fk_bytes _ _ _ _ _ _ F). rewrite BBLOCK_group by done.
      destruct (block_group r Hr) as (g & bi & _ & Hg & _ & -> & _). pose proof (bmapblk_range g Hg). lia. }
    assert (EA : forall m, contents s' m = alloc_view (contents s) r m).
    { intros m. rewrite (vs_vw _ _ _ _ _ V2). unfold alloc_view, dupd. by rewrite !EV. }
    split.
    + intros g Hg. rewrite (used_ext _ (alloc_view (contents s) r)) by done. by apply meta_alloc.
    + right. split; [done|]. split; [done|]. split; [intros b Hb; rewrite <- EU; by apply Hlow|]. split.
      * intros b Hb. rewrite (used_ext _ (alloc_view (contents s) r)) by done. by apply used_alloc.
      * eapply vstep_weaken; [exact (vstep_trans _ _ _ _ _ _ _ _ V1 V2)|done| |lia].
        intros m. rewrite <- EA. symmetry. apply V2.
Qed.

(** C6. [balloc] inside a transaction with room in the log: it returns 0 and
    changes nothing exactly when every block of the groups is in use;
    otherwise it returns the least block not in use, which is then in use and
    zeroed, no other block becomes used or free, no block other than it and its
    group's bitmap changes, and the disk waits for the commit. *)
Theorem balloc_spec s order H :
  fok s order H -> clear_of s H -> meta_used (contents s) ->
  logged_n s + 3 <= sb.(sb_nlog) -> Z.of_nat (length H) + logged_n s + 1 < 30 ->
  exists r s' order', balloc me 1 s = Ok (r, s') /\ fok s' order' H /\ meta_used (contents s') /\
    s'.(lst).(bc).(disk) = s.(lst).(bc).(disk) /\ logged_n s' <= logged_n s + 2 /\
    (r = 0 /\ (forall m, contents s' m = contents s m) /\ (forall b, gs <= b < gend -> used (contents s) b = true) \/
     gs <= r < gend /\ used (contents s) r = false /\ (forall b, gs <= b < r -> used (contents s) b = true) /\
     (forall b, gs <= b < gend -> used (contents s') b = (b =? r) || used (contents s) b) /\
     contents s' r = replicate BSIZE 0 /\
     (forall m, m <> r -> m <> BBLOCK r sb -> contents s' m = contents s m)).
Proof.
  intros F C M Hlog Hroom. destruct (balloc_run s order H F C M Hlog Hroom) as (r & s' & o' & R & F' & M' & Hc).
  exists r, s', o'. split; [done|]. split; [done|]. split; [done|].
  destruct Hc as [(-> & V & Hall)|(Hr & Hur & Hlow & Hused & V)].
  - split; [apply V|]. split; [pose proof (vs_n _ _ _ _ _ V); lia|]. left. split_and!; try done. apply V.
  - split; [apply V|]. split; [pose proof (vs_n _ _ _ _ _ V); lia|]. right. split_and!; try lia; try done.
    + rewrite (vs_vw _ _ _ _ _ V). apply dupd_eq.
    + intros m H1 H2. rewrite (vs_vw _ _ _ _ _ V). unfold alloc_view. by rewrite !dupd_ne.
Qed.

(** ** bfree *)

Definition free_view (V : Z -> block) (b : Z) : Z -> block :=
  dupd V (BBLOCK b sb) (unmark (V (BBLOCK b sb)) ((b - gs) mod bpg)).

Lemma used_free V r :
  gs <= r < gend -> bytes512 (V (BBLOCK r sb)) ->
  forall b, gs <= b < gend -> used (free_view V r) b = negb (b =? r) && used V b.
Proof.
  intros Hr HB b Hb. rewrite (used_change V _ r (unmark (V (BBLOCK r sb)) ((r - gs) mod bpg)) Hr) by done.
  destruct (Z.eqb_spec (BBLOCK b sb) (BBLOCK r sb)) as [E|E].
  - rewrite bit_set_unmark by (first [by apply bit_512, mod_range|apply mod_range]).
    unfold used. rewrite E. destruct (Z.eqb_spec b r) as [->|Hne]; [by rewrite Z.eqb_refl|].
    destruct (Z.eqb_spec ((b - gs) mod bpg) ((r - gs) mod bpg)) as [Em|]; [|done].
    by destruct (same_group_ne b r Hb Hr E Hne).
  - destruct (Z.eqb_spec b r) as [->|]; done.
Qed.

Lemma bfree_run s order H b :
  fok s order H -> gs <= b < gend -> unheld s H 1 -> unheld s H (BBLOCK b sb) ->
  logged_n s + 2 <= sb.(sb_nlog) -> Z.of_nat (length H) + logged_n s < 30 ->
  if used (contents s) b then
    exists s' order', bfree me 1 b s = Ok (tt, s') /\ fok s' order' H /\
      (forall m, gs <= m < gend -> used (contents s') m = negb (m =? b) && used (contents s) m) /\
      vstep s s' H (free_view (contents s) b) 1
  else bfree me 1 b s = Panic "freeing free block".
Proof.
  intros F Hb Hu1 HuB Hlog Hroom. destruct (readsb_fs me ds sb G s order H F Hu1) as (s1 & o1 & R1 & F1 & V1); [lia|].
  pose proof (vs_n _ _ _ _ _ V1) as Hn1. pose proof gs_range as [Hs1 Hs2].
  assert (HBr : gs <= BBLOCK b sb < gend).
  { rewrite BBLOCK_group by done. destruct (block_group b Hb) as (g & bi & _ & Hg & _ & -> & _). by apply bmapblk_range. }
  destruct (read_fs me ds sb s1 o1 H (BBLOCK b sb) F1) as (bp & s2 & x & R2 & O2 & V2 & _).
  { lia. } { exact (unheld_step _ _ _ _ _ _ _ F V1 HuB). } { lia. }
  pose proof (opened_data _ _ _ _ _ _ _ _ _ O2) as Hx. rewrite (vs_vw _ _ _ _ _ V2), (vs_vw _ _ _ _ _ V1) in Hx.
  assert (Ebi : u32 (b - global_start sb) mod bpg = (b - gs) mod bpg).
  { unfold global_start. change (sb.(sb_logstart) + sb.(sb_nlog)) with gs.
    rewrite (u32_small gs), u32_small by (unfold is_u32; lia). done. }
  unfold bfree. rewrite (kM_bind_run _ _ _ _ _ R1), (kM_bind_run _ _ _ _ _ R2), (kM_bind_run _ _ _ _ _ (getb_fs _ _ _ _ _ _ _ _ _ O2)), Ebi, Hx.
  fold (used (contents s) b). destruct (used (contents s) b); [|done]. cbn [negb].
  destruct (write_fs me ds sb G s2 o1 H bp (BBLOCK b sb) x (fun d => unmark d ((b - gs) mod bpg)) O2) as (s3 & o3 & R3 & F3 & V3).
  { lia. } { pose proof (vs_n _ _ _ _ _ V2). lia. }
  { rewrite Hx. apply bytes512_insert. apply (fk_bytes _ _ _ _ _ _ F). lia. }
  exists s3, o3. split; [exact R3|]. split; [done|].
  assert (V : vstep s s3 H (free_view (contents s) b) 1).
  { eapply vstep_weaken; [exact (vstep_trans _ _ _ _ _ _ _ _ (vstep_trans _ _ _ _ _ _ _ _ V1 V2) V3)|done| |lia].
    intros m. unfold free_view, dupd. by rewrite Hx, (vs_vw _ _ _ _ _ V2), (vs_vw _ _ _ _ _ V1). }
  split; [|done]. intros m Hm. rewrite (used_ext _ (free_view (contents s) b)) by apply V.
  apply used_free; [done| |done]. apply (fk_bytes _ _ _ _ _ _ F). lia.
Qed.

(** C39. [bfree] of a block of the groups: a block in use becomes free, and no
    other block changes its state; a block that is free already is the panic. *)
Theorem bfree_spec s order H b :
  fok s order H -> gs <= b < gend -> unheld s H 1 -> unheld s H (BBLOCK b sb) ->
  logged_n s + 2 <= sb.(sb_nlog) -> Z.of_nat (length H) + logged_n s < 30 ->
  if used (contents s) b then
    exists s' order', bfree me 1 b s = Ok (tt, s') /\ fok s' order' H /\
      (forall m, gs <= m < gend -> used (contents s') m = negb (m =? b) && used (contents s) m) /\
      (forall m, m <> BBLOCK b sb -> contents s' m = contents s m)
  else bfree me 1 b s = Panic "freeing free block".
Proof.
  intros F Hb Hu1 HuB Hlog Hroom. pose proof (bfree_run s order H b F Hb Hu1 HuB Hlog Hroom) as R.
  destruct (used (contents s) b); [|done]. destruct R as (s' & o' & R & F' & Hu & V).
  exists s', o'. split_and!; try done. intros m Hm. rewrite (vs_vw _ _ _ _ _ V). by apply dupd_ne.
Qed.

(** Allocating a block and freeing it again restores its bitmap. *)
Lemma alloc_free_bitmap V r :
  gs <= r < gend -> used V r = false -> meta_used V -> bytes512 (V (BBLOCK r sb)) ->
  forall m, m <> r -> free_view (alloc_view V r) r m = V m.
Proof.
  intros Hr Hur M HB m Hm. unfold free_view.
  assert (Hne : BBLOCK r sb <> r).
  { rewrite BBLOCK_group by done. destruct (block_group r Hr) as (g & bi & _ & Hg & _ & Eg & _). rewrite Eg. intros E.
    specialize (M g Hg). rewrite E in M. congruence. }
  destruct (decide (m = BBLOCK r sb)) as [->|Hm2].
  - rewrite dupd_eq. unfold alloc_view. rewrite dupd_ne, dupd_eq by done. apply mark_unmark; [done| |done].
    pose proof (mod_range r). pose proof (ge_bpg _ _ G). unfold BPB in *. lia.
  - rewrite dupd_ne by done. unfold alloc_view. by rewrite !dupd_ne.
Qed.

End Alloc.

(** ** A small file system *)

Module AllocDemo.

Definition zeros : block := replicate BSIZE 0.

(** One group of 200 blocks from block 32 on; its bitmap is block 36, and
    blocks 32 to 36 are in use. *)
Definition sb : superblock := mk_superblock 0 300 0 32 30 2 0 0 200 32 1.
Definition dd (n : Z) : block :=
  if n =? 1 then encode_sb sb zeros else if n =? 36 then 31 :: replicate 511 0 else zeros.

Lemma sb_geo : geo sb 300.
Proof. repeat split; vm_compute; congruence. Qed.

Lemma dd_bytes n : bytes512 (dd n).
Proof.
  assert (Hb : forall d : block, length d = BSIZE -> forallb (fun z => (0 <=? z) && (z <? 256)) d = true -> bytes512 d).
  { intros d Hl Hf. split; [done|]. rewrite forallb_forall in Hf. apply Forall_forall. intros z Hz.
    apply list_elem_of_In in Hz. apply Hf, andb_true_iff in Hz as [?%Z.leb_le ?%Z.ltb_lt]. unfold is_u8. lia. }
  unfold dd. destruct (n =? 1); [apply Hb; vm_compute; reflexivity|].
  destruct (n =? 36); [apply Hb; vm_compute; reflexivity|]. apply bytes512_zero.
Qed.

Definition c0 : bio := mk_bio booted_bufs dd 300 [].
Definition l0 : log := mk_log 2 30 1 false 1 0 (replicate 30 0).
Definition s0 : fsst := mk_fsst (mk_lgst l0 c0 0) (replicate NINODE inode0) sb.

Lemma alloc0_client me : client me c0 boot_order [] /\ (forall n, vw c0 n = dd n) /\ (forall n, ~ dirtyn c0 n).
Proof. destruct (fresh_client me booted_bufs boot_order dd 300 [] booted_ring booted_buf) as (H1 & _ & H3 & H4). by split_and!. Qed.

Lemma s0_ok : fok 1 300 sb s0 boot_order [].
Proof.
  destruct (alloc0_client 1) as (H1 & H2 & H3). split.
  - split; [split; cbn; unfold LOGSIZE; try lia; reflexivity|exact H1|reflexivity|..].
    + intros i Hi. cbn in Hi. lia.
    + intros m Hm. by destruct (H3 m).
  - split; [reflexivity|]. unfold contents. cbn [s0 lst bc]. rewrite H2. vm_compute. reflexivity.
  - cbn. lia.
  - intros m _. unfold contents. cbn [s0 lst bc]. rewrite H2. apply dd_bytes.
Qed.

Lemma unheld_nil s n : unheld s [] n.
Proof. intros i x _. apply not_in_nil. Qed.

Lemma used0 b : used sb (contents s0) b = used sb dd b.
Proof. apply used_ext. apply (alloc0_client 1). Qed.

Lemma s0_meta : meta_used sb (contents s0).
Proof.
  intros g Hg. cbn in Hg. assert (g = 0) as -> by lia. rewrite used0. vm_compute. reflexivity.
Qed.

Ltac geom := change (FsSpec.gs sb) with 32 in *; change (gend sb) with 232 in *; cbn; lia.

Lemma balloc_spec_witness :
  exists s', balloc 1 1 s0 = Ok (37, s') /\ contents s' 37 = zeros /\ used sb (contents s') 37 = true.
Proof.
  destruct (balloc_spec 1 300 sb sb_geo s0 boot_order [] s0_ok) as (r & s' & o' & R & _ & _ & _ & _ & Hc).
  - split; intros; apply unheld_nil.
  - exact s0_meta.
  - cbn. lia.
  - cbn. lia.
  - assert (H37 : used sb (contents s0) 37 = false) by (rewrite used0; vm_compute; reflexivity).
    destruct Hc as [(_ & _ & Hall)|(Hr & Hur & Hlow & Hu & Hz & _)].
    { rewrite Hall in H37 by geom. discriminate H37. }
    assert (r = 37) as ->.
    { destruct (decide (r < 37)) as [Hlt|]; [|destruct (decide (37 < r)); [|lia]].
      - change (FsSpec.gs sb) with 32 in Hr. rewrite used0 in Hur. assert (r = 32 \/ r = 33 \/ r = 34 \/ r = 35 \/ r = 36) as Hcases by lia.
        destruct Hcases as [->|[->|[->|[->| ->]]]]; vm_compute in Hur; discriminate Hur.
      - rewrite Hlow in H37 by geom. discriminate H37. }
    exists s'. split; [exact R|]. split; [exact Hz|]. rewrite Hu by geom. reflexivity.
Defined.

Lemma bfree_spec_witness :
  bfree 1 1 37 s0 = Panic "freeing free block" /\ exists s', bfree 1 1 33 s0 = Ok (tt, s').
Proof.
  assert (H37 : used sb (contents s0) 37 = false) by (rewrite used0; vm_compute; reflexivity).
  assert (H33 : used sb (contents s0) 33 = true) by (rewrite used0; vm_compute; reflexivity).
  pose proof (bfree_spec 1 300 sb sb_geo s0 boot_order [] 37 s0_ok) as A. rewrite H37 in A.
  pose proof (bfree_spec 1 300 sb sb_geo s0 boot_order [] 33 s0_ok) as B. rewrite H33 in B.
  split.
  - apply A; try apply unheld_nil; geom.
  - destruct B as (s' & o' & R & _); try apply unheld_nil; try geom. exists s'. exact R.
Defined.

End AllocDemo.
