(* ===== verification/FsPath.v ===== *)
(** * Path names

    Repeated [skipelem] takes a path apart into its components, whatever the
    slashes, keeping at most [DIRSIZ] bytes of each; this is the order in
    which [namex] looks names up. *)

From S2P Require Import Prelude CString Locks Bio Layout Log Fs.

(** The components of a path, by scanning it once: [cur] is the component
    being read. *)
Definition emit (cur : list Z) : list (list Z) := match cur with [] => [] | _ => [cur] end.

Fixpoint components_from (cur path : list Z) : list (list Z) :=
  match path with
  | [] => emit cur
  | c :: rest => if c =? slash then emit cur ++ components_from [] rest else components_from (cur ++ [c]) rest
  end.

Definition components (path : list Z) : list (list Z) := components_from [] path.

(** The names that the loop of [namex] gets from [skipelem]; [None] if [fuel]
    calls do not reach the end of the path. *)
Fixpoint walk (fuel : nat) (path name : list Z) : option (list (list Z)) :=
  match fuel with
  | O => None
  | S fuel =>
      match skipelem path name with
      | None => Some []
      | Some (name', path') => cons (field_str name') <$> walk fuel path' name'
      end
  end.

Lemma components_skip path : components (skip_slashes path) = components path.
Proof.
  induction path as [|c path IH]; simpl; [done|]. unfold components. simpl.
  destruct (c =? slash) eqn:E; [|simpl; by rewrite E]. simpl. exact IH.
Qed.

Lemma components_elem path cur e r :
  path_elem path = (e, r) -> components_from cur path = emit (cur ++ e) ++ components r /\
  path = e ++ r /\ (r = [] \/ exists r', r = slash :: r') /\ Forall (fun c => c <> slash) e.
Proof.
  revert cur e r. induction path as [|c path IH]; intros cur e r; simpl.
  - intros [= <- <-]. rewrite app_nil_r. by split_and!; [rewrite app_nil_r| |left|].
  - destruct (Z.eqb_spec c slash) as [->|Hne].
    + intros [= <- <-]. rewrite app_nil_r. split_and!; [|done|right; eauto|done].
      unfold components. simpl. by destruct cur.
    + destruct (path_elem path) as [e0 r0] eqn:E. intros [= <- <-].
      destruct (IH (cur ++ [c]) e0 r0 eq_refl) as (H1 & H2 & H3 & H4).
      split_and!; [by rewrite H1, <- app_assoc|by rewrite H2|done|by constructor].
Qed.

Lemma skip_slashes_spec path :
  (length (skip_slashes path) <= length path)%nat /\
  (skip_slashes path = [] \/ exists c r, skip_slashes path = c :: r /\ c <> slash) /\
  (forall P : Z -> Prop, Forall P path -> Forall P (skip_slashes path)).
Proof.
  induction path as [|c path (IH1 & IH2 & IH3)]; simpl; [by split_and!; [|left|]|].
  destruct (Z.eqb_spec c slash) as [->|Hne].
  - split_and!; [lia|done|]. intros P HP. inversion HP; subst. by apply IH3.
  - split_and!; [done|right; eauto|done].
Qed.

(** The string a field holds. *)
Lemma field_str_stop (e r : list Z) :
  Forall (fun c => c <> 0) e -> Z.of_nat (length (e ++ 0 :: r)) <= 65536 -> field_str (e ++ 0 :: r) = e.
Proof.
  intros He Hl. unfold field_str. rewrite (cstr_cname _ _ e).
  - apply take_ge. rewrite length_app. simpl. lia.
  - rewrite length_app in Hl. simpl in Hl. split.
    + intros i c Hi. pose proof (lookup_lt_Some _ _ _ Hi). rewrite Forall_lookup in He. split; [|by eapply He].
      unfold mem_of. rewrite (proj2 (Z.ltb_lt _ _)) by lia. rewrite Z.add_0_l, Nat2Z.id.
      apply nth_lookup_Some. by apply lookup_app_l_Some.
    + unfold mem_of. rewrite (proj2 (Z.ltb_lt _ _)) by lia. rewrite Z.add_0_l, Nat2Z.id.
      apply nth_lookup_Some. rewrite lookup_app_r, Nat.sub_diag by lia. done.
Qed.

Lemma field_str_full (e : list Z) :
  Forall (fun c => c <> 0) e -> Z.of_nat (length e) <= 65536 -> field_str e = e.
Proof.
  intros He Hl. unfold field_str. rewrite (cname_of_nth _ _ _ e); [by apply take_ge| |done].
  intros i Hi. unfold mem_of. rewrite (proj2 (Z.ltb_lt _ _)) by lia. by rewrite Z.add_0_l, Nat2Z.id.
Qed.

(** One call. *)
Lemma skipelem_run path name :
  Forall (fun c => c <> 0) path -> length name = DIRSIZ ->
  match skipelem path name with
  | None => components path = []
  | Some (name', path') => exists e, components path = e :: components path' /\
      field_str name' = take DIRSIZ e /\ length name' = DIRSIZ /\
      (length path' < length path)%nat /\ Forall (fun c => c <> 0) path'
  end.
Proof.
  intros Hp Hn. unfold skipelem. destruct (skip_slashes_spec path) as (S1 & S2 & S3). rewrite <- components_skip.
  specialize (S3 _ Hp). destruct (skip_slashes path) as [|c p]; [done|].
  destruct S2 as [?|(c' & r & [= -> ->] & Hc)]; [done|].
  destruct (path_elem (c' :: r)) as [e q] eqn:E.
  destruct (components_elem (c' :: r) [] e q E) as (C1 & C2 & C3 & C4).
  assert (Hne : exists e', e = c' :: e').
  { simpl in E. destruct (Z.eqb_spec c' slash); [done|]. destruct (path_elem r) as [e0 r0]. injection E as <- <-. eauto. }
  assert (He : Forall (fun c => c <> 0) e) by (rewrite C2 in S3; by apply Forall_app in S3 as [? _]).
  assert (Hq : Forall (fun c => c <> 0) q) by (rewrite C2 in S3; by apply Forall_app in S3 as [_ ?]).
  destruct (skip_slashes_spec q) as (Q1 & _ & Q3).
  assert (Hlen : (length (c' :: r) = length e + length q)%nat) by (by rewrite C2, length_app).
  exists e. split_and!.
  - rewrite components_skip. unfold components at 1. rewrite C1. simpl. destruct Hne as [e' ->]. done.
  - destruct (Nat.leb_spec DIRSIZ (length e)) as [Hle|Hlt].
    + rewrite field_str_full; [done|by apply Forall_take|rewrite length_take; unfold DIRSIZ; lia].
    + rewrite field_str_stop; [by rewrite take_ge by lia|done|].
      rewrite length_app. simpl. rewrite length_drop, Hn. unfold DIRSIZ in *. lia.
  - destruct (Nat.leb_spec DIRSIZ (length e)) as [Hle|Hlt].
    + rewrite length_take. lia.
    + rewrite length_app. simpl. rewrite length_drop, Hn. lia.
  - destruct Hne as [e' ->]. simpl in *. lia.
  - by apply Q3.
Qed.

(** Taking a path apart with [skipelem], as [namex] does, ends, and gives
    exactly the components of the path in order (runs of slashes, leading and
    trailing ones included, separate but name nothing), each cut to its first
    [DIRSIZ] bytes. *)
Theorem skipelem_walk path name :
  Forall (fun c => c <> 0) path -> length name = DIRSIZ ->
  walk (S (length path)) path name = Some (map (take DIRSIZ) (components path)).
Proof.
  intros Hp Hn. remember (S (length path)) as fuel eqn:Hf.
  assert (Hlt : (length path < fuel)%nat) by lia. clear Hf. revert path name Hp Hn Hlt.
  induction fuel as [|fuel IH]; intros path name Hp Hn Hlt; [lia|]. simpl.
  pose proof (skipelem_run path name Hp Hn) as H. destruct (skipelem path name) as [[name' path']|]; [|by rewrite H].
  destruct H as (e & -> & He & Hl & Hs & Hp'). rewrite IH by (try done; lia). simpl. by rewrite He.
Qed.

(** "//usr//a_long_file_name/" *)
Lemma skipelem_walk_witness :
  walk 25 (removelast (lit "//usr//a_long_file_name/")) (replicate DIRSIZ 7) =
  Some [removelast (lit "usr"); removelast (lit "a_long_file_na")].
Proof.
  transitivity (Some (map (take DIRSIZ) (components (removelast (lit "//usr//a_long_file_name/"))))).
  - apply (skipelem_walk (removelast (lit "//usr//a_long_file_name/")) (replicate DIRSIZ 7)); [|reflexivity].
    vm_compute. repeat constructor; discriminate.
  - vm_compute. reflexivity.
Defined.
