(* ===== verification/FsFile.v ===== *)
(** * The contents of files

    [bmap], [readi] and [writei] of fs.c against a file as a list of bytes.
    The blocks of a file are the slots of its inode; they are distinct blocks
    of the groups that the bitmaps mark.  A write changes the bytes of this
    file and no block that belongs to anything else. *)

From S2P Require Import Prelude Locks Bio BioSpec BioView Layout Log LogSpec LogCrash LogTx Fs FsBits FsInode FsSpec FsAlloc.

Lemma alter_insert {A} (f : A -> A) (i : nat) (x : A) (l : list A) : alter f i (<[i := x]> l) = <[i := f x]> l.
Proof. revert i. induction l as [|y l IH]; intros [|i]; csimpl; [done|done|done|]. f_equal. apply IH. Qed.

Section File.
Context (me ds : Z) (sb : superblock).
Hypothesis G : geo sb ds.

Abbreviation gs := (FsSpec.gs sb).
Abbreviation gend := (FsAlloc.gend sb).
Abbreviation used := (FsAlloc.used sb).
Abbreviation bpg := (sb.(sb_bpg)).
Abbreviation ipb := (sb.(sb_ipg) / IPB).
Abbreviation bmapblk := (FsAlloc.bmapblk sb).
Abbreviation alloc_view := (FsAlloc.alloc_view sb).

(** A block of the groups after the inodes and the bitmap of its group. *)
Definition isfile (b : Z) : Prop := gs <= b < gend /\ ipb < (b - gs) mod bpg.

(** The inode blocks and the bitmaps are marked. *)
Definition meta_all (V : Z -> block) : Prop :=
  forall b, gs <= b < gend -> (b - gs) mod bpg <= ipb -> used V b = true.

(** The addresses of an inode are distinct marked blocks. *)
Record finv (V : Z -> block) (d : dinode) : Prop := {
  fi_ok : dinode_ok d;
  fi_slot : forall k, (k < 141)%nat -> slot V d k <> 0 -> isfile (slot V d k) /\ used V (slot V d k) = true;
  fi_inj : forall k l, (k < 141)%nat -> (l < 141)%nat -> slot V d k <> 0 -> slot V d k = slot V d l -> k = l
}.

(** There are [k] free blocks. *)
Definition free_room (V : Z -> block) (k : Z) : Prop :=
  exists l, NoDup l /\ k <= Z.of_nat (length l) /\ forall b, b ∈ l -> gs <= b < gend /\ used V b = false.

Lemma bmapblk_at g : 0 <= g < sb.(sb_ngroups) -> gs <= bmapblk g < gend /\ (bmapblk g - gs) mod bpg = ipb.
Proof.
  intros Hg. split; [by apply (bmapblk_range ds)|]. unfold FsAlloc.bmapblk.
  destruct (group_block sb g ipb) as [_ E]; [apply (ipg_div ds sb G)|]. exact E.
Qed.

Lemma isfile_not_bmap b g : isfile b -> 0 <= g < sb.(sb_ngroups) -> b <> bmapblk g.
Proof. intros [_ Hb] Hg ->. destruct (bmapblk_at g Hg) as [_ E]. lia. Qed.

Lemma isfile_not_BBLOCK b r : isfile b -> gs <= r < gend -> b <> BBLOCK r sb.
Proof.
  intros Hb Hr E. rewrite (BBLOCK_group ds sb G) in E by done.
  destruct (block_group ds sb G r Hr) as (g & bi & _ & Hg & _ & Eg & _). rewrite Eg in E.
  by apply (isfile_not_bmap b g).
Qed.

Lemma meta_all_meta V : meta_all V -> meta_used sb V.
Proof. intros M g Hg. destruct (bmapblk_at g Hg) as [Hr E]. apply M; [done|lia]. Qed.

Lemma free_isfile V r : meta_all V -> gs <= r < gend -> used V r = false -> isfile r.
Proof.
  intros M Hr Hu. split; [done|]. destruct (decide ((r - gs) mod bpg <= ipb)) as [Hle|]; [|lia].
  rewrite M in Hu by done. done.
Qed.

(** The bits depend on the bitmap blocks only. *)
Lemma used_frame V V' b :
  gs <= b < gend -> (forall g, 0 <= g < sb.(sb_ngroups) -> V' (bmapblk g) = V (bmapblk g)) -> used V' b = used V b.
Proof.
  intros Hb HV. unfold FsAlloc.used. rewrite (BBLOCK_group ds sb G) by done.
  destruct (block_group ds sb G b Hb) as (g & bi & _ & Hg & _ & -> & _). by rewrite HV.
Qed.

(** ** A new block *)

(** What [balloc] does to the contents when it finds block [r]. *)
Record taken (V V1 : Z -> block) (r : Z) : Prop := {
  tk_range : gs <= r < gend;
  tk_free : used V r = false;
  tk_used : forall b, gs <= b < gend -> used V1 b = (b =? r) || used V b;
  tk_zero : V1 r = replicate BSIZE 0;
  tk_same : forall b, b <> r -> b <> BBLOCK r sb -> V1 b = V b
}.

Lemma taken_meta V V1 r : meta_all V -> taken V V1 r -> meta_all V1.
Proof. intros M [T1 T2 T3 T4 T5] b Hb Hm. rewrite T3 by done. rewrite M by done. apply orb_true_r. Qed.

Lemma taken_file V V1 r b : taken V V1 r -> isfile b -> used V b = true -> V1 b = V b.
Proof.
  intros T Hb Hu. apply (tk_same _ _ _ T); [|apply isfile_not_BBLOCK; [done|apply T]].
  intros ->. rewrite (tk_free _ _ _ T) in Hu. done.
Qed.

Lemma taken_room V V1 r k : taken V V1 r -> free_room V (k + 1) -> free_room V1 k.
Proof.
  intros T (l & Hn & Hk & Hl). exists (filter (fun b => b <> r) l). split; [by apply NoDup_filter|]. split.
  - assert (Hc : (length l <= S (length (filter (fun b => b <> r) l)))%nat); [|lia].
    clear Hk Hl. induction l as [|b l IH]; [simpl; lia|]. apply NoDup_cons in Hn as [Hb Hn]. rewrite filter_cons.
    destruct (decide (b <> r)) as [Hne|He]; cbn [length]; [specialize (IH Hn); lia|]. apply dec_stable in He. subst b.
    assert (E : filter (fun b => b <> r) l = l); [|rewrite E; lia]. clear IH Hn. induction l as [|c l IH]; [done|].
    rewrite filter_cons. apply not_elem_of_cons in Hb as [Hc Hb]. rewrite decide_True by congruence. by rewrite IH.
  - intros b Hb. apply list_elem_of_filter in Hb as [Hne Hb]. destruct (Hl b Hb) as [Hr Hu]. split; [done|].
    rewrite (tk_used _ _ _ T) by done. destruct (Z.eqb_spec b r); done.
Qed.

(** The slots of an inode after a block was taken, before it is put in. *)
Lemma taken_slot V V1 r d k : taken V V1 r -> finv V d -> slot V1 d k = slot V d k.
Proof.
  intros T F. apply slot_ext; [done|]. intros H12. destruct (fi_slot _ _ F 12 ltac:(lia) H12). by apply (taken_file V V1 r).
Qed.

Lemma taken_finv V V1 r d : taken V V1 r -> finv V d -> finv V1 d.
Proof.
  intros T F. assert (E : forall k, slot V1 d k = slot V d k) by (intros; by apply (taken_slot V V1 r)).
  destruct F as [F1 F2 F3]. split; [done| |].
  - intros k Hk. rewrite E. intros Hnz. destruct (F2 k Hk Hnz) as [Hf Hu]. split; [done|].
    rewrite (tk_used _ _ _ T) by apply Hf. rewrite Hu. apply orb_true_r.
  - intros k l Hk Hl. rewrite !E. by apply F3.
Qed.

(** A free block is in no slot. *)
Lemma taken_new V V1 r d k : taken V V1 r -> finv V d -> (k < 141)%nat -> slot V d k <> r.
Proof.
  intros T F Hk E. destruct (decide (slot V d k = 0)) as [E0|E0].
  - pose proof (tk_range _ _ _ T). pose proof (gs_range ds sb G). lia.
  - destruct (fi_slot _ _ F k Hk E0) as [_ Hu]. rewrite E, (tk_free _ _ _ T) in Hu. done.
Qed.

(** A taken block put into slot [k]: the other slots stay. *)
Lemma put_finv V1 V2 d d2 k r :
  finv V1 d -> (k < 141)%nat -> dinode_ok d2 -> isfile r -> used V2 r = true ->
  (forall l, (l < 141)%nat -> slot V1 d l <> r) ->
  slot V2 d2 k = r -> (forall l, (l < 141)%nat -> l <> k -> slot V2 d2 l = slot V1 d l) ->
  (forall b, gs <= b < gend -> used V1 b = true -> used V2 b = true) -> finv V2 d2.
Proof.
  intros [F1 F2 F3] Hk Hd Hr Hu Hnew Ek El Hmono. split; [done| |].
  - intros l Hl Hnz. destruct (decide (l = k)) as [->|Hne]; [by rewrite Ek|]. rewrite El in * by done.
    destruct (F2 l Hl Hnz) as [Hf Hul]. split; [done|]. apply Hmono; [apply Hf|done].
  - intros l m Hl Hm Hnz E. destruct (decide (l = k)) as [->|Hlk], (decide (m = k)) as [->|Hmk]; [done| | |].
    + rewrite Ek, El in E by done. by destruct (Hnew m Hm).
    + rewrite Ek, El in E by done. by destruct (Hnew l Hl).
    + rewrite !El in * by done. by apply F3.
Qed.

Lemma isfile_u32 b : isfile b -> is_u32 b /\ b <> 0.
Proof. intros [Hb _]. pose proof (gs_range ds sb G). unfold is_u32. lia. Qed.

(** Into the inode itself. *)
Lemma put_low V V1 d k r :
  taken V V1 r -> meta_all V -> finv V d -> (k <= 12)%nat -> slot V d k = 0 ->
  let d1 := set_addr d k r in
  finv V1 d1 /\ slot V1 d1 k = r /\ (forall l, (l < 141)%nat -> l <> k -> slot V1 d1 l = slot V d l).
Proof.
  intros T M F Hk H0 d1. pose proof (free_isfile V r M (tk_range _ _ _ T) (tk_free _ _ _ T)) as Hr.
  destruct (isfile_u32 r Hr) as [Hr32 Hrnz]. pose proof (do_len _ (fi_ok _ _ F)) as Hlen.
  assert (Ek : slot V1 d1 k = r).
  { rewrite slot_low by done. unfold d1. by rewrite set_addr_nth, Nat.eqb_refl by (done || lia). }
  assert (Elow : forall l, (l <= 12)%nat -> l <> k -> slot V1 d1 l = slot V d l).
  { intros l Hl Hne. rewrite !slot_low by done. unfold d1. rewrite set_addr_nth by (done || lia). by destruct (Nat.eqb_spec l k). }
  assert (El : forall l, (l < 141)%nat -> l <> k -> slot V1 d1 l = slot V d l).
  { intros l Hl Hne. destruct (decide (l <= 12)%nat) as [Hl12|Hl12]; [by apply Elow|].
    rewrite (slot_high V1), (slot_high V) by lia. destruct (decide (k = 12%nat)) as [->|Hk12].
    - rewrite Ek, H0. cbn [Z.eqb]. destruct (Z.eqb_spec r 0); [done|]. rewrite (tk_zero _ _ _ T). apply zero_word.
    - rewrite Elow by (lia || congruence). destruct (Z.eqb_spec (slot V d 12) 0) as [|E12]; [done|].
      destruct (fi_slot _ _ F 12 ltac:(lia) E12). by rewrite (taken_file V V1 r). }
  split; [|done]. apply (put_finv V1 V1 d d1 k r); try done.
  - by apply (taken_finv V V1 r).
  - lia.
  - by apply set_addr_ok; [apply F|].
  - rewrite (tk_used _ _ _ T) by apply T. by rewrite Z.eqb_refl.
  - intros l Hl. rewrite (taken_slot V V1 r) by done. by apply (taken_new V V1 r).
  - intros l Hl Hne. rewrite El by done. symmetry. by apply (taken_slot V V1 r).
Qed.

(** Into the indirect block. *)
Lemma put_high V V1 d k r :
  taken V V1 r -> meta_all V -> finv V d -> (13 <= k < 141)%nat -> slot V d 12 <> 0 -> slot V d k = 0 ->
  bytes512 (V (slot V d 12)) ->
  let ia := slot V d 12 in
  let V2 := dupd V1 ia (put32 (V1 ia) (4 * (k - 13)) r) in
  finv V2 d /\ slot V2 d k = r /\ (forall l, (l < 141)%nat -> l <> k -> slot V2 d l = slot V d l) /\
  (forall b, gs <= b < gend -> used V2 b = used V1 b).
Proof.
  intros T M F Hk H12 H0 HB ia V2. pose proof (free_isfile V r M (tk_range _ _ _ T) (tk_free _ _ _ T)) as Hr.
  destruct (isfile_u32 r Hr) as [Hr32 Hrnz]. destruct (fi_slot _ _ F 12 ltac:(lia) H12) as [Hia Hiau].
  assert (EV1 : V1 ia = V ia) by (by apply (taken_file V V1 r)).
  assert (E12 : slot V2 d 12 = ia) by (by rewrite slot_low by lia; unfold ia; rewrite slot_low by lia).
  assert (Hu : forall b, gs <= b < gend -> used V2 b = used V1 b).
  { intros b Hb. apply used_frame; [done|]. intros g Hg. unfold V2. apply dupd_ne. intros E. by apply (isfile_not_bmap ia g). }
  assert (Ek : slot V2 d k = r).
  { rewrite slot_high, E12 by lia. destruct (Z.eqb_spec ia 0); [done|]. unfold V2. rewrite dupd_eq, EV1.
    apply get32_put32_eq; [done|]. destruct HB as [HB _]; fold ia in HB; rewrite HB. unfold BSIZE. lia. }
  assert (El : forall l, (l < 141)%nat -> l <> k -> slot V2 d l = slot V d l).
  { intros l Hl Hne. destruct (decide (l <= 12)%nat) as [Hl12|Hl12]; [by rewrite !slot_low by done|].
    rewrite (slot_high V2), (slot_high V) by lia. rewrite E12. fold ia. destruct (Z.eqb_spec ia 0); [done|].
    unfold V2. rewrite dupd_eq, EV1. apply get32_put32_ne. lia. }
  split; [|done]. apply (put_finv V1 V2 d d k r); try done.
  - by apply (taken_finv V V1 r).
  - lia.
  - apply F.
  - rewrite Hu by apply T. rewrite (tk_used _ _ _ T) by apply T. by rewrite Z.eqb_refl.
  - intros l Hl. rewrite (taken_slot V V1 r) by done. by apply (taken_new V V1 r).
  - intros l Hl Hne. rewrite El by done. symmetry. by apply (taken_slot V V1 r).
  - intros b Hb. by rewrite Hu.
Qed.

(** ** Steps that give an inode new blocks *)

(** From [V] and [d] to [V'] and [d'], with [c] blocks taken: slots are only
    filled, a new data block is zero, and nothing else changes but bitmaps and
    the indirect block. *)
Record mstep (V : Z -> block) (d : dinode) (V' : Z -> block) (d' : dinode) (c : Z) : Prop := {
  ms_inv : finv V' d';
  ms_same : same_meta d d';
  ms_all : meta_all V';
  ms_kept : forall l, (l < 141)%nat -> slot V d l <> 0 -> slot V' d' l = slot V d l;
  ms_fresh : forall l, (l < 141)%nat -> slot V d l = 0 -> slot V' d' l <> 0 -> used V (slot V' d' l) = false;
  ms_zero : forall l, (l < 141)%nat -> l <> 12%nat -> slot V d l = 0 -> slot V' d' l <> 0 ->
    V' (slot V' d' l) = replicate BSIZE 0;
  ms_blocks : forall b, isfile b -> used V b = true -> b <> slot V d 12 -> V' b = V b;
  ms_low : forall b, b < gs \/ gs <= b < gend /\ (b - gs) mod bpg < ipb -> V' b = V b;
  ms_used : forall b, gs <= b < gend -> used V b = true -> used V' b = true;
  ms_room : forall k, free_room V (k + c) -> free_room V' k
}.

Lemma mstep_refl V d : finv V d -> meta_all V -> mstep V d V d 0.
Proof.
  intros F M. split; try done.
  intros k. by rewrite Z.add_0_r.
Qed.

Lemma mstep_trans V d V1 d1 V2 d2 c1 c2 :
  finv V d -> mstep V d V1 d1 c1 -> mstep V1 d1 V2 d2 c2 -> mstep V d V2 d2 (c1 + c2).
Proof.
  intros F A B.
  assert (H12 : forall b, gs <= b < gend -> used V b = true -> b <> slot V d 12 -> b <> slot V1 d1 12).
  { intros b Hb Hu Hne ->. destruct (decide (slot V d 12 = 0)) as [E0|E0].
    - rewrite (ms_fresh _ _ _ _ _ A 12) in Hu by (lia || done || (pose proof (gs_range ds sb G); lia)). done.
    - by rewrite (ms_kept _ _ _ _ _ A) in Hne by (lia || done). }
  split.
  - apply B.
  - destruct (ms_same _ _ _ _ _ A) as (? & ? & ? & ? & ?), (ms_same _ _ _ _ _ B) as (? & ? & ? & ? & ?).
    repeat split; congruence.
  - apply B.
  - intros l Hl Hnz. pose proof (ms_kept _ _ _ _ _ A l Hl Hnz) as E. rewrite <- E. apply B; [done|]. by rewrite E.
  - intros l Hl E0 Hnz. destruct (decide (slot V1 d1 l = 0)) as [E1|E1].
    + destruct (used V (slot V2 d2 l)) eqn:Hu; [|done]. rewrite <- (ms_fresh _ _ _ _ _ B l Hl E1 Hnz). symmetry.
      apply (ms_used _ _ _ _ _ A); [|done]. by apply (fi_slot _ _ (ms_inv _ _ _ _ _ B)).
    + rewrite (ms_kept _ _ _ _ _ B) by done. by apply A.
  - intros l Hl Hl12 E0 Hnz. destruct (decide (slot V1 d1 l = 0)) as [E1|E1]; [by apply B|].
    rewrite (ms_kept _ _ _ _ _ B) by done. destruct (fi_slot _ _ (ms_inv _ _ _ _ _ A) l Hl E1) as [Hf Hu].
    rewrite (ms_blocks _ _ _ _ _ B) by (done || (intros E; apply Hl12; apply (fi_inj _ _ (ms_inv _ _ _ _ _ A)); done || lia)).
    by apply A.
  - intros b Hb Hu Hne. rewrite (ms_blocks _ _ _ _ _ B); [by apply A|done| |].
    + apply (ms_used _ _ _ _ _ A); [apply Hb|done].
    + apply H12; [apply Hb|done|done].
  - intros b Hb. rewrite (ms_low _ _ _ _ _ B) by done. by apply (ms_low _ _ _ _ _ A).
  - intros b Hb Hu. apply (ms_used _ _ _ _ _ B); [done|]. by apply (ms_used _ _ _ _ _ A).
  - intros k Hk. apply (ms_room _ _ _ _ _ B), (ms_room _ _ _ _ _ A). by replace (k + c2 + c1) with (k + (c1 + c2)) by lia.
Qed.

(** Contents matter up to pointwise equality. *)
Lemma slot_eq V V' d l : (forall m, V' m = V m) -> slot V' d l = slot V d l.
Proof. intros E. by apply slot_ext. Qed.

Lemma free_room_eq V V' k : (forall m, V' m = V m) -> free_room V k -> free_room V' k.
Proof.
  intros E (l & L1 & L2 & L3). exists l. split; [done|]. split; [done|]. intros b Hb.
  rewrite (used_ext sb V' V) by done. by apply L3.
Qed.

Lemma meta_all_eq V V' : (forall m, V' m = V m) -> meta_all V -> meta_all V'.
Proof. intros E M b Hb Hm. rewrite (used_ext sb V' V) by done. by apply M. Qed.

Lemma finv_eq V V' d : (forall m, V' m = V m) -> finv V d -> finv V' d.
Proof.
  intros E [F1 F2 F3]. split; [done| |].
  - intros k Hk. rewrite (slot_eq V V') by done. rewrite (used_ext sb V' V) by done. by apply F2.
  - intros k l Hk Hl. rewrite !(slot_eq V V') by done. by apply F3.
Qed.

Lemma mstep_eq V d V1 V2 d' c : (forall m, V2 m = V1 m) -> mstep V d V1 d' c -> mstep V d V2 d' c.
Proof.
  intros E [M1 M2 M3 M4 M5 M6 M7 M8 M9 M10].
  assert (Es : forall l, slot V2 d' l = slot V1 d' l) by (intros; by apply slot_eq).
  split; [by apply (finv_eq V1)|done|by apply (meta_all_eq V1)| | | | | | |].
  - intros l Hl Hnz. rewrite Es. by apply M4.
  - intros l Hl. rewrite Es. by apply M5.
  - intros l Hl. rewrite Es, E. by apply M6.
  - intros b Hb Hu Hne. rewrite E. by apply M7.
  - intros b Hb. rewrite E. by apply M8.
  - intros b Hb Hu. rewrite (used_ext sb V2 V1) by done. by apply M9.
  - intros k Hk. apply (free_room_eq V1); [done|]. by apply M10.
Qed.

Lemma taken_low V V1 r b : taken V V1 r -> isfile r -> b < gs \/ gs <= b < gend /\ (b - gs) mod bpg < ipb -> V1 b = V b.
Proof.
  intros T Hr Hb. apply (tk_same _ _ _ T).
  - intros ->. destruct Hr as [Hr1 Hr2]. destruct Hb as [?|[_ ?]]; lia.
  - intros ->. rewrite (BBLOCK_group ds sb G) in Hb by apply T.
    destruct (block_group ds sb G r (tk_range _ _ _ T)) as (g & bi & _ & Hg & _ & Eg & _). rewrite Eg in Hb.
    destruct (bmapblk_at g Hg) as [Hr1 Hr2]. destruct Hb as [?|[_ ?]]; lia.
Qed.

Lemma mstep_low V V1 d k r :
  taken V V1 r -> meta_all V -> finv V d -> (k <= 12)%nat -> slot V d k = 0 ->
  mstep V d V1 (set_addr d k r) 1 /\ slot V1 (set_addr d k r) k = r.
Proof.
  intros T M F Hk H0. pose proof (free_isfile V r M (tk_range _ _ _ T) (tk_free _ _ _ T)) as Hr.
  destruct (put_low V V1 d k r T M F Hk H0) as (F1 & Ek & El). split; [|done]. split; try done.
  - by apply (taken_meta V V1 r).
  - intros l Hl Hnz. apply El; [done|]. by intros ->.
  - intros l Hl E Hnz. destruct (decide (l = k)) as [->|Hne]; [rewrite Ek; apply T|]. by rewrite El, E in Hnz.
  - intros l Hl _ E Hnz. destruct (decide (l = k)) as [->|Hne]; [rewrite Ek; apply T|]. by rewrite El, E in Hnz.
  - intros b Hb Hu _. by apply (taken_file V V1 r).
  - intros b. by apply (taken_low V V1 r).
  - intros b Hb Hu. rewrite (tk_used _ _ _ T) by done. rewrite Hu. apply orb_true_r.
  - intros j. by apply (taken_room V V1 r).
Qed.

Lemma mstep_high V V1 d k r :
  taken V V1 r -> meta_all V -> finv V d -> (13 <= k < 141)%nat -> slot V d 12 <> 0 -> slot V d k = 0 ->
  bytes512 (V (slot V d 12)) ->
  let V2 := dupd V1 (slot V d 12) (put32 (V (slot V d 12)) (4 * (k - 13)) r) in
  mstep V d V2 d 1 /\ slot V2 d k = r.
Proof.
  intros T M F Hk H12 H0 HB V2. pose proof (free_isfile V r M (tk_range _ _ _ T) (tk_free _ _ _ T)) as Hr.
  destruct (fi_slot _ _ F 12 ltac:(lia) H12) as [Hia Hiau].
  assert (EV1 : V1 (slot V d 12) = V (slot V d 12)) by (by apply (taken_file V V1 r)).
  destruct (put_high V V1 d k r T M F Hk H12 H0 HB) as (F2 & Ek & El & Hu). rewrite EV1 in *. fold V2 in F2, Ek, El, Hu.
  split; [|done]. assert (HrV : V2 r = replicate BSIZE 0).
  { unfold V2. rewrite dupd_ne; [apply T|]. intros E. by apply (taken_new V V1 r d 12 T F ltac:(lia)). }
  split; try done.
  - intros b Hb Hm. rewrite Hu by done. by apply (taken_meta V V1 r M T).
  - intros l Hl Hnz. apply El; [done|]. by intros ->.
  - intros l Hl E Hnz. destruct (decide (l = k)) as [->|Hne]; [rewrite Ek; apply T|]. by rewrite El, E in Hnz.
  - intros l Hl _ E Hnz. destruct (decide (l = k)) as [->|Hne]; [by rewrite Ek|]. by rewrite El, E in Hnz.
  - intros b Hb Hub Hne. unfold V2. rewrite dupd_ne by congruence. by apply (taken_file V V1 r).
  - intros b Hb. unfold V2. rewrite dupd_ne; [by apply (taken_low V V1 r)|]. intros E. subst b.
    destruct Hia as [? ?]. destruct Hb as [?|[_ ?]]; lia.
  - intros b Hb Hub. rewrite Hu, (tk_used _ _ _ T) by done. rewrite Hub. apply orb_true_r.
  - intros j Hj. destruct (taken_room V V1 r j T Hj) as (l & L1 & L2 & L3). exists l. split; [done|]. split; [done|].
    intros b Hb. destruct (L3 b Hb) as [Hbr Hbu]. split; [done|]. by rewrite Hu.
Qed.

(** ** bmap *)

Abbreviation fok := (FsSpec.fok me ds sb).
Abbreviation nlog := (sb.(sb_nlog)).

Lemma fok_icache s order H ic : fok s order H -> fok (mk_fsst s.(lst) ic s.(fsb)) order H.
Proof. intros [F1 F2 F3 F4]. by split. Qed.

Lemma clear_nil s : clear_of sb s [].
Proof. split; intros; intros i x _ Hi; by apply elem_of_nil in Hi. Qed.

(** A file block that is open is not in the way of the allocator. *)
Lemma clear_opened s order bp n x :
  opened me ds sb s order [] bp n x -> isfile n -> used (contents s) n = true -> clear_of sb s [bp].
Proof.
  intros O Hn Hu. pose proof (gs_range ds sb G) as [Hg _].
  assert (H : forall m, m <> n -> unheld s [bp] m).
  { intros m Hm i y (Hy & _ & _ & Eb) Hi. apply list_elem_of_singleton in Hi. subst i.
    destruct (op_cached _ _ _ _ _ _ _ _ _ O) as (Hx & _ & _ & Exn). congruence. }
  split.
  - apply H. destruct Hn as [? _]. lia.
  - intros g Hgr. apply H. intros <-. by apply (isfile_not_bmap (bmapblk g) g).
  - intros b Hb Hfree. apply H. intros ->. congruence.
Qed.

Lemma keep_open s s' order order' bp n x V k :
  opened me ds sb s order [] bp n x -> fok s' order' [bp] -> vstep s s' [bp] V k ->
  exists x', opened me ds sb s' order' [] bp n x' /\ x'.(data) = x.(data).
Proof.
  intros [O1 (Hx & Hi & Hd & Hn) O3] F' S. destruct (vs_held _ _ _ _ _ S bp x) as (x' & Hx' & E); [by left|done|].
  apply strip_fields in E as (E1 & E2 & E3 & _ & _ & E6). exists x'. split; [|done]. split; [done| |].
  - split_and!; [done|done|congruence|congruence].
  - intros Ef. rewrite E6, (vs_disk _ _ _ _ _ S). apply O3. congruence.
Qed.

Lemma balloc_taken s order H :
  fok s order H -> clear_of sb s H -> meta_all (contents s) -> free_room (contents s) 1 ->
  logged_n s + 3 <= nlog -> Z.of_nat (length H) + logged_n s + 1 < 30 ->
  exists r s' order', balloc me 1 s = Ok (r, s') /\ fok s' order' H /\ taken (contents s) (contents s') r /\
    vstep s s' H (contents s') 2.
Proof.
  intros F C M (l & _ & Hl & Hfree) Hlog Hroom.
  destruct (balloc_run me ds sb G s order H F C (meta_all_meta _ M) Hlog Hroom) as (r & s' & o' & R & F' & M' & Hc).
  exists r, s', o'. split; [done|]. split; [done|]. destruct l as [|b l]; [simpl in Hl; lia|].
  destruct (Hfree b ltac:(by left)) as [Hb Hbu].
  destruct Hc as [(_ & _ & Hall)|(Hr & Hur & _ & Hus & V)]; [rewrite Hall in Hbu by done; done|].
  split; [|eapply vstep_weaken; [exact V|done|intros m; symmetry; apply V|lia]].
  split; try done.
  - rewrite (vs_vw _ _ _ _ _ V). apply dupd_eq.
  - intros m H1 H2. rewrite (vs_vw _ _ _ _ _ V). unfold FsAlloc.alloc_view. by rewrite !dupd_ne.
Qed.

(** 1 if the slot is empty. *)
Definition vacant (V : Z -> block) (d : dinode) (k : nat) : Z := if slot V d k =? 0 then 1 else 0.

(** The blocks that block [bn] of a file still needs. *)
Definition need (V : Z -> block) (d : dinode) (bn : Z) : Z :=
  (if bn <? 12 then 0 else vacant V d 12) + vacant V d (cslot bn).

Lemma vacant_range V d k : 0 <= vacant V d k <= 1.
Proof. unfold vacant. case_bool; lia. Qed.

(** The inode in the cache entry [ip], and the invariant of its file. *)
Record at_file (s : fsst) (order : list nat) (ip : nat) (p : inode) : Prop := {
  af_fok : fok s order [];
  af_ip : s.(icache) !! ip = Some p;
  af_dev : p.(i_dev) = 1;
  af_inv : finv (contents s) p.(i_d);
  af_meta : meta_all (contents s)
}.

(** What changed from [s] to [s'] beside the contents. *)
Record fstep (s s' : fsst) (ip : nat) (p : inode) (d' : dinode) (k : Z) : Prop := {
  fs_ip : s'.(icache) = <[ip := with_d p d']> s.(icache);
  fs_sb : s'.(fsb) = s.(fsb);
  fs_disk : s'.(lst).(bc).(disk) = s.(lst).(bc).(disk);
  fs_log : logged_n s <= logged_n s' <= logged_n s + k
}.

Lemma fstep_vstep s s' ip p H V k :
  s.(icache) !! ip = Some p -> vstep s s' H V k -> fstep s s' ip p p.(i_d) k.
Proof.
  intros Hp [V1 V2 V3 V4 [V5 V6]]. split; [|done|done|done]. rewrite V5. destruct p. symmetry. by apply list_insert_id.
Qed.

Lemma at_file_step s s' order order' ip p d' k :
  at_file s order ip p -> fstep s s' ip p d' k -> fok s' order' [] -> finv (contents s') d' -> meta_all (contents s') ->
  at_file s' order' ip (with_d p d').
Proof.
  intros [A1 A2 A3 A4 A5] [S1 S2 S3 S4] F FI M. split; try done. rewrite S1. apply list_lookup_insert_eq. by eapply lookup_lt_Some.
Qed.

(** A slot of the inode itself, filled if it is empty. *)
Lemma low_run s order ip p k :
  at_file s order ip p -> (k <= 12)%nat -> logged_n s + 3 <= nlog -> free_room (contents s) (vacant (contents s) p.(i_d) k) ->
  exists s' order' d', (if nth k p.(i_d).(d_addrs) 0 =? 0 then
      addr ← balloc me p.(i_dev); _ ← seti ip (fun p => with_d p (set_addr p.(i_d) k addr)); mret addr
      else mret (nth k p.(i_d).(d_addrs) 0)) s = Ok (slot (contents s') d' k, s') /\
    fok s' order' [] /\ fstep s s' ip p d' 2 /\ slot (contents s') d' k <> 0 /\
    mstep (contents s) p.(i_d) (contents s') d' (vacant (contents s) p.(i_d) k) /\
    (forall l, (l < 141)%nat -> l <> k -> slot (contents s') d' l = slot (contents s) p.(i_d) l).
Proof.
  intros A Hk Hlog Hroom. destruct A as [A1 A2 A3 A4 A5]. rewrite A3. pose proof G as [[G1 G2] _ _ _]. unfold LOGSIZE in G2.
  unfold vacant in *. rewrite slot_low in * by done. destruct (Z.eqb_spec (nth k p.(i_d).(d_addrs) 0) 0) as [E|E].
  - destruct (balloc_taken s order [] A1 (clear_nil s) A5 Hroom Hlog) as (r & s1 & o1 & R & F1 & T & V1); [simpl; lia|].
    rewrite (kM_bind_run _ _ _ _ _ R). erewrite kM_bind_run by reflexivity. rewrite kM_ret_run.
    assert (E0 : slot (contents s) (i_d p) k = 0) by (by rewrite slot_low).
    destruct (mstep_low (contents s) (contents s1) p.(i_d) k r T A5 A4 Hk E0) as [MS Ek].
    destruct (put_low (contents s) (contents s1) p.(i_d) k r T A5 A4 Hk E0) as (_ & _ & El).
    destruct (fstep_vstep s s1 ip p [] _ 2 A2 V1) as [S1 S2 S3 S4].
    assert (Hp1 : s1.(icache) !! ip = Some p) by (rewrite S1, list_lookup_insert_eq; [by destruct p|by eapply lookup_lt_Some]).
    set (f := fun p0 => with_d p0 (set_addr p0.(i_d) k r)).
    exists (upd_inode ip f s1), o1, (set_addr p.(i_d) k r). change (contents (upd_inode ip f s1)) with (contents s1).
    rewrite Ek. split; [done|]. split; [by apply fok_icache|]. split; [|split; [|split; done]].
    + split; [|done|done|done]. cbn [upd_inode icache]. rewrite S1, alter_insert. by destruct p.
    + destruct (isfile_u32 r); [|done]. apply (free_isfile (contents s)); [done|apply T|apply T].
  - exists s, order, p.(i_d). rewrite slot_low by done. split; [done|]. split; [done|]. split; [|split; [done|split; [|done]]].
    + split; try done; [|lia]. destruct p. symmetry. by apply list_insert_id.
    + by apply mstep_refl.
Qed.

(** The part of [bmap] that looks into the indirect block [ia]. *)
Definition bmap_entry (dv ia : Z) (j : nat) : kM fsst Z :=
  bp ← onb (bread me dv ia);
  x ← onb (getb bp);
  let addr := get32 x.(data) (4 * j) in
  addr ← (if addr =? 0 then
            addr ← balloc me dv;
            _ ← onb (setb bp (fun x => with_data x (put32 x.(data) (4 * j) addr)));
            _ ← onlog (log_write bp);
            mret addr
          else mret addr);
  _ ← onb (brelse me bp);
  mret addr.

Lemma isfile_ds b : isfile b -> 0 <= b < ds /\ gs <= b < ds.
Proof. intros [Hb _]. pose proof (gs_range ds sb G). lia. Qed.

Lemma vstep_self s s' H V k : vstep s s' H V k -> vstep s s' H (contents s') k.
Proof. intros S. eapply vstep_weaken; [exact S|done|intros m; symmetry; apply S|done]. Qed.

Lemma entry_run s order ip p k :
  at_file s order ip p -> (13 <= k < 141)%nat -> slot (contents s) p.(i_d) 12 <> 0 -> logged_n s + 4 <= nlog ->
  free_room (contents s) (vacant (contents s) p.(i_d) k) ->
  exists s' order', bmap_entry 1 (slot (contents s) p.(i_d) 12) (k - 13) s = Ok (slot (contents s') p.(i_d) k, s') /\
    fok s' order' [] /\ vstep s s' [] (contents s') 3 /\ slot (contents s') p.(i_d) k <> 0 /\
    mstep (contents s) p.(i_d) (contents s') p.(i_d) (vacant (contents s) p.(i_d) k) /\
    (forall l, (l < 141)%nat -> l <> k -> slot (contents s') p.(i_d) l = slot (contents s) p.(i_d) l).
Proof.
  intros [A1 A2 A3 A4 A5] Hk H12 Hlog Hroom. set (d := p.(i_d)) in *. set (ia := slot (contents s) d 12) in *.
  destruct (fi_slot _ _ A4 12 ltac:(lia) H12) as [Hia Hiau]. destruct (isfile_ds ia Hia) as [Hds Hds2].
  pose proof G as [[G1 G2] _ _ _]. unfold LOGSIZE in G2.
  destruct (read_fs me ds sb s order [] ia A1 Hds) as (bp & s1 & x & R1 & O1 & V1 & _).
  { intros i y _ Hi. by apply elem_of_nil in Hi. } { simpl. lia. }
  assert (EV : forall m, contents s1 m = contents s m) by apply V1. pose proof (vs_n _ _ _ _ _ V1) as Hn1.
  pose proof (opened_data _ _ _ _ _ _ _ _ _ O1) as Hx. rewrite EV in Hx.
  unfold bmap_entry. rewrite (kM_bind_run _ _ _ _ _ R1), (kM_bind_run _ _ _ _ _ (getb_fs me ds sb _ _ _ _ _ _ O1)), Hx.
  assert (Es : forall l, slot (contents s1) d l = slot (contents s) d l) by (intros l; by apply slot_ext).
  assert (Eg : get32 (contents s ia) (4 * (k - 13)) = slot (contents s) d k).
  { rewrite (slot_high _ d k) by lia. fold ia. by destruct (Z.eqb_spec ia 0). }
  rewrite Eg. unfold vacant in *. destruct (Z.eqb_spec (slot (contents s) d k) 0) as [E|E].
  - assert (Hu1 : forall b, used (contents s1) b = used (contents s) b) by (intros b; by apply used_ext).
    assert (M1 : meta_all (contents s1)) by (intros b Hb Hm; rewrite Hu1; by apply A5).
    assert (Hr1 : free_room (contents s1) 1).
    { destruct Hroom as (l & L1 & L2 & L3). exists l. split; [done|]. split; [done|]. intros b Hb. rewrite Hu1. by apply L3. }
    destruct (balloc_taken s1 order [bp] (op_fok _ _ _ _ _ _ _ _ _ O1)
      (clear_opened s1 order bp ia x O1 Hia ltac:(by rewrite Hu1)) M1 Hr1) as (r & s2 & o2 & R2 & F2 & T2 & V2).
    { lia. } { simpl. lia. }
    destruct (keep_open s1 s2 order o2 bp ia x _ 2 O1 F2 V2) as (x2 & O2 & Ex2). pose proof (vs_n _ _ _ _ _ V2) as Hn2.
    set (g := fun b : block => put32 b (4 * (k - 13)) r).
    assert (HB : bytes512 (contents s ia)) by (apply (fk_bytes _ _ _ _ _ _ A1); lia).
    destruct (log_fs me ds sb G s2 o2 [] bp ia x2 g O2 Hds2) as (s3 & x3 & R3 & O3 & _ & V3).
    { lia. } { rewrite Ex2, Hx. by apply put32_bytes. }
    destruct (drop_fs me ds sb s3 o2 [] bp ia x3 O3) as (s4 & o4 & R4 & F4 & V4).
    assert (T : taken (contents s) (contents s2) r).
    { destruct T2 as [T21 T22 T23 T24 T25]. split; [done|by rewrite <- Hu1| |done|].
      - intros b Hb. rewrite T23 by done. by rewrite Hu1.
      - intros b H1 H2. rewrite T25 by done. apply EV. }
    assert (E4 : forall m, contents s4 m = dupd (contents s2) ia (put32 (contents s ia) (4 * (k - 13)) r) m).
    { intros m. rewrite (vs_vw _ _ _ _ _ V4), (vs_vw _ _ _ _ _ V3). unfold g. by rewrite Ex2, Hx. }
    destruct (mstep_high (contents s) (contents s2) d k r T A5 A4 Hk H12 E HB) as [MS Ek].
    destruct (put_high (contents s) (contents s2) d k r T A5 A4 Hk H12 E HB) as (_ & _ & El & _).
    cbv zeta in El, Ek, MS. fold ia in El, Ek, MS. rewrite (taken_file (contents s) (contents s2) r ia T Hia Hiau) in El.
    exists s4, o4. rewrite (slot_eq _ (contents s4) d k E4), Ek. split.
    { apply kM_bind_Ok in R3 as (u & s0 & Ra & Rb). destruct u.
      erewrite kM_bind_run; [erewrite kM_bind_run by exact R4; by rewrite kM_ret_run|].
      rewrite (kM_bind_run _ _ _ _ _ R2), (kM_bind_run _ _ _ _ _ Ra), (kM_bind_run _ _ _ _ _ Rb). by rewrite kM_ret_run. }
    split; [done|]. split; [|split; [|split]].
    + eapply vstep_weaken; [exact (vstep_trans _ _ _ _ _ _ _ _ V1 (vstep_trans _ _ _ _ _ _ _ _ (vstep_weaken _ _ _ [] _ _ _ _ V2
        ltac:(intros i Hi; by apply elem_of_nil in Hi) ltac:(done) ltac:(reflexivity)) (vstep_trans _ _ _ _ _ _ _ _ V3 V4)))|done| |lia].
      intros m. symmetry. apply V4.
    + destruct (isfile_u32 r); [|done]. apply (free_isfile (contents s)); [done|apply T|apply T].
    + by apply (mstep_eq _ _ _ _ _ _ E4).
    + intros l Hl Hne. rewrite (slot_eq _ (contents s4) d l E4). by apply El.
  - destruct (drop_fs me ds sb s1 order [] bp ia x O1) as (s4 & o4 & R4 & F4 & V4).
    assert (E4 : forall m, contents s4 m = contents s m) by (intros m; rewrite (vs_vw _ _ _ _ _ V4); apply EV).
    exists s4, o4. rewrite (slot_eq _ (contents s4) d k E4). split.
    { erewrite kM_bind_run by reflexivity. erewrite kM_bind_run by exact R4. by rewrite kM_ret_run. }
    split; [done|]. split; [|split; [done|split]].
    + eapply vstep_weaken; [exact (vstep_trans _ _ _ _ _ _ _ _ V1 V4)|done| |lia]. intros m. symmetry. apply V4.
    + apply (mstep_eq _ _ (contents s)); [done|]. by apply mstep_refl.
    + intros l Hl Hne. by apply slot_eq.
Qed.

Lemma geti_run s ip p : s.(icache) !! ip = Some p -> geti ip s = Ok (p, s).
Proof. intros H. unfold geti. by rewrite H. Qed.

Lemma fstep_trans s s1 s2 ip p d1 d2 k1 k2 :
  fstep s s1 ip p d1 k1 -> fstep s1 s2 ip (with_d p d1) d2 k2 -> fstep s s2 ip p d2 (k1 + k2).
Proof.
  intros [A1 A2 A3 A4] [B1 B2 B3 B4]. split; [|congruence|congruence|lia]. rewrite B1, A1, list_insert_insert_eq. done.
Qed.

Lemma free_room_less V k k' : free_room V k -> k' <= k -> free_room V k'.
Proof. intros (l & L1 & L2 & L3) Hk. exists l. split; [done|]. split; [lia|done]. Qed.

(** Block [bn] of the file, found or added. *)
Lemma bmap_run s order ip p bn :
  at_file s order ip p -> 0 <= bn < 140 -> logged_n s + 6 <= nlog ->
  free_room (contents s) (need (contents s) p.(i_d) bn) ->
  exists s' order' d', bmap me ip bn s = Ok (slot (contents s') d' (cslot bn), s') /\ at_file s' order' ip (with_d p d') /\
    fstep s s' ip p d' 5 /\ slot (contents s') d' (cslot bn) <> 0 /\
    mstep (contents s) p.(i_d) (contents s') d' (need (contents s) p.(i_d) bn) /\
    (forall l, (l < 141)%nat -> l <> cslot bn -> l <> 12%nat \/ bn < 12 -> slot (contents s') d' l = slot (contents s) p.(i_d) l).
Proof.
  intros A Hbn Hlog Hroom. unfold bmap. rewrite (kM_bind_run _ _ _ _ _ (geti_run s ip p (af_ip _ _ _ _ A))).
  change NDIRECT with 12. change NINDIRECT with 128. unfold need, cslot in *. destruct (Z.ltb_spec bn 12) as [Hlow|Hhigh].
  - rewrite Z.add_0_l in *.
    destruct (low_run s order ip p (Z.to_nat bn) A ltac:(lia) ltac:(lia) Hroom) as (s' & o' & d' & R & F' & S & Hnz & MS & El).
    exists s', o', d'. split; [done|]. split; [|split; [|split; [done|split; [done|]]]].
    + eapply at_file_step; [exact A|exact S|done|apply MS|apply MS].
    + destruct S as [S1 S2 S3 S4]. split; try done. lia.
    + intros l Hl Hne _. by apply El.
  - destruct (Z.ltb_spec (bn - 12) 128) as [_|]; [|lia].
    set (k := S (Z.to_nat bn)) in *. assert (Hk : (13 <= k < 141)%nat) by lia.
    pose proof (vacant_range (contents s) p.(i_d) k) as Hvk. pose proof (vacant_range (contents s) p.(i_d) 12) as Hv12.
    destruct (low_run s order ip p 12 A ltac:(lia) ltac:(lia)) as (s1 & o1 & d1 & R1 & F1 & S1 & Hnz1 & MS1 & El1).
    { eapply free_room_less; [exact Hroom|lia]. }
    rewrite (kM_bind_run _ _ _ _ _ R1).
    assert (A1 : at_file s1 o1 ip (with_d p d1)) by (eapply at_file_step; [exact A|exact S1|done|apply MS1|apply MS1]).
    pose proof (fs_log _ _ _ _ _ _ S1) as Hl1.
    assert (Evk : vacant (contents s1) d1 k = vacant (contents s) p.(i_d) k) by (unfold vacant; by rewrite El1 by lia).
    destruct (entry_run s1 o1 ip (with_d p d1) k A1 Hk Hnz1) as (s2 & o2 & R2 & F2 & V2 & Hnz2 & MS2 & El2).
    { lia. }
    { cbn [i_d with_d]. rewrite Evk. apply (ms_room _ _ _ _ _ MS1). eapply free_room_less; [exact Hroom|lia]. }
    cbn [i_d with_d] in *. rewrite Evk in MS2.
    pose proof (fstep_vstep s1 s2 ip (with_d p d1) [] _ 3 (af_ip _ _ _ _ A1) V2) as S2. cbn [i_d with_d] in S2.
    exists s2, o2, d1. split; [|split; [|split; [|split; [done|split]]]].
    + rewrite (af_dev _ _ _ _ A). replace (Z.to_nat (bn - 12)) with (k - 13)%nat by lia. exact R2.
    + apply (at_file_step s1 s2 o1 o2 ip (with_d p d1) d1 3 A1 S2 F2); apply MS2.
    + apply (fstep_trans s s1 s2 ip p d1 d1 2 3 S1 S2).
    + apply (mstep_trans _ _ (contents s1) d1); [apply A|done|done].
    + intros l Hl Hne [H12|?]; [|lia]. rewrite El2, El1 by done. done.
Qed.

(** A block that is there is found and nothing changes. *)
Lemma bmap_hit s order ip p bn :
  at_file s order ip p -> 0 <= bn < 140 -> logged_n s < 30 -> slot (contents s) p.(i_d) (cslot bn) <> 0 ->
  exists s' order', bmap me ip bn s = Ok (slot (contents s) p.(i_d) (cslot bn), s') /\ at_file s' order' ip p /\
    vstep s s' [] (contents s) 0.
Proof.
  intros A Hbn Hlog Hnz. destruct A as [A1 A2 A3 A4 A5]. unfold bmap. rewrite (kM_bind_run _ _ _ _ _ (geti_run s ip p A2)), A3.
  change NDIRECT with 12. change NINDIRECT with 128. unfold cslot in *. destruct (Z.ltb_spec bn 12) as [Hlow|Hhigh].
  - rewrite slot_low in * by lia. destruct (Z.eqb_spec (nth (Z.to_nat bn) (d_addrs (i_d p)) 0) 0); [done|].
    exists s, order. split; [done|]. split; [done|]. apply vstep_refl.
  - destruct (Z.ltb_spec (bn - 12) 128) as [_|]; [|lia]. set (k := S (Z.to_nat bn)) in *.
    pose proof (slot_high (contents s) p.(i_d) k ltac:(lia)) as Ek.
    destruct (Z.eqb_spec (slot (contents s) p.(i_d) 12) 0) as [E12|E12]; [done|].
    rewrite <- (slot_low (contents s) p.(i_d) 12) by lia. destruct (Z.eqb_spec (slot (contents s) p.(i_d) 12) 0); [done|].
    destruct (fi_slot _ _ A4 12 ltac:(lia) E12) as [Hia _]. destruct (isfile_ds _ Hia) as [Hds _].
    destruct (read_fs me ds sb s order [] _ A1 Hds) as (bp & s1 & x & R1 & O1 & V1 & _).
    { intros i y _ Hi. by apply elem_of_nil in Hi. } { simpl. lia. }
    pose proof (opened_data _ _ _ _ _ _ _ _ _ O1) as Hx. rewrite (vs_vw _ _ _ _ _ V1) in Hx.
    destruct (drop_fs me ds sb s1 order [] bp _ x O1) as (s4 & o4 & R4 & F4 & V4).
    assert (E4 : forall m, contents s4 m = contents s m) by (intros m; rewrite (vs_vw _ _ _ _ _ V4); apply V1).
    exists s4, o4. split; [|split].
    + erewrite kM_bind_run by reflexivity. rewrite (kM_bind_run _ _ _ _ _ R1), (kM_bind_run _ _ _ _ _ (getb_fs me ds sb _ _ _ _ _ _ O1)), Hx.
      replace (Z.to_nat (bn - 12)) with (k - 13)%nat by lia. rewrite <- Ek.
      destruct (Z.eqb_spec (slot (contents s) p.(i_d) k) 0); [done|]. erewrite kM_bind_run by reflexivity.
      rewrite (kM_bind_run _ _ _ _ _ R4). by rewrite kM_ret_run.
    + split; [done| |done|by apply (finv_eq (contents s))|by apply (meta_all_eq (contents s))].
      destruct (vs_rest _ _ _ _ _ V4) as [-> _], (vs_rest _ _ _ _ _ V1) as [-> _]. done.
    + eapply vstep_weaken; [exact (vstep_trans _ _ _ _ _ _ _ _ V1 V4)|done|apply V1|lia].
Qed.

End File.
