(* ===== verification/FsContent.v ===== *)
(** * Reading and writing files

    [readi] and [writei] of fs.c, block by block, against the file as a list
    of bytes. *)

From S2P Require Import Prelude Locks Bio BioSpec BioView Layout Log LogSpec LogCrash LogTx Fs FsBits FsInode FsSpec FsAlloc FsFile.

(** The blocks of the file begin with the bytes [dat]. *)
Definition fholds (V : Z -> block) (d : dinode) (dat : list Z) : Prop :=
  forall q c, dat !! q = Some c ->
    slot V d (cslot (Z.of_nat (q / 512))) <> 0 /\
    V (slot V d (cslot (Z.of_nat (q / 512)))) !! (q mod 512)%nat = Some c.

(** The bytes [bs] written over [dat] from [off] on. *)
Definition splice (dat : list Z) (off : Z) (bs : list Z) : list Z :=
  take (Z.to_nat off) dat ++ bs ++ drop (Z.to_nat off + length bs) dat.

Lemma splice_nil dat off : splice dat off [] = dat.
Proof. unfold splice. cbn [app length]. rewrite Nat.add_0_r. apply take_drop. Qed.

Lemma splice_length dat off bs : 0 <= off <= Z.of_nat (length dat) ->
  Z.of_nat (length (splice dat off bs)) = Z.max (Z.of_nat (length dat)) (off + Z.of_nat (length bs)).
Proof. intros H. unfold splice. rewrite !length_app, length_take, length_drop. lia. Qed.

Lemma splice_lookup dat off bs q : 0 <= off <= Z.of_nat (length dat) ->
  splice dat off bs !! q =
    if decide (Z.of_nat q < off \/ off + Z.of_nat (length bs) <= Z.of_nat q) then dat !! q else bs !! (q - Z.to_nat off)%nat.
Proof.
  intros H. unfold splice. assert (Ho : length (take (Z.to_nat off) dat) = Z.to_nat off) by (rewrite length_take; lia).
  destruct (decide _) as [[H1|H1]|H1].
  - rewrite lookup_app_l by lia. apply lookup_take_lt. lia.
  - rewrite lookup_app_r, lookup_app_r by lia. rewrite lookup_drop. f_equal. lia.
  - rewrite lookup_app_r, lookup_app_l by lia. f_equal. lia.
Qed.

Lemma splice_app dat off a b : 0 <= off <= Z.of_nat (length dat) ->
  splice (splice dat off a) (off + Z.of_nat (length a)) b = splice dat off (a ++ b).
Proof.
  intros H. apply list_eq. intros q. rewrite (splice_lookup (splice dat off a)) by (rewrite splice_length by done; lia).
  rewrite !splice_lookup by done. rewrite length_app.
  destruct (decide (Z.of_nat q < off)) as [H1|H1].
  { rewrite !decide_True by lia. done. }
  destruct (decide (Z.of_nat q < off + Z.of_nat (length a))) as [H2|H2].
  { rewrite decide_True by lia. rewrite !decide_False by lia. by rewrite lookup_app_l by lia. }
  destruct (decide (Z.of_nat q < off + Z.of_nat (length a) + Z.of_nat (length b))) as [H3|H3].
  { rewrite !decide_False by lia. rewrite lookup_app_r by lia. f_equal. lia. }
  rewrite !decide_True by lia. done.
Qed.

Section Content.
Context (me ds : Z) (sb : superblock).
Hypothesis G : geo sb ds.
Context (devread : Z -> option (nat -> Z -> kM fsst (Z * list Z))).
Context (devwrite : Z -> option (nat -> list Z -> Z -> kM fsst Z)).

Abbreviation gs := (FsSpec.gs sb).
Abbreviation gend := (FsAlloc.gend sb).
Abbreviation used := (FsAlloc.used sb).
Abbreviation isfile := (FsFile.isfile sb).
Abbreviation finv := (FsFile.finv sb).
Abbreviation meta_all := (FsFile.meta_all sb).
Abbreviation free_room := (FsFile.free_room sb).
Abbreviation mstep := (FsFile.mstep sb).
Abbreviation at_file := (FsFile.at_file me ds sb).
Abbreviation nlog := (sb.(sb_nlog)).
Abbreviation ipb := (sb.(sb_ipg) / IPB).

(** ** Bytes and steps *)

Lemma fholds_eq V V' d dat : (forall m, V' m = V m) -> fholds V d dat -> fholds V' d dat.
Proof. intros E H q c Hq. rewrite (slot_eq V V') by done. rewrite E. by apply H. Qed.

(** New blocks change no bytes. *)
Lemma fholds_mstep V d V' d' c dat :
  finv V d -> mstep V d V' d' c -> fits dat -> fholds V d dat -> fholds V' d' dat.
Proof.
  intros F MS Hf H q b Hq. destruct (H q b Hq) as [Hnz Hb]. destruct (cslot_data _ (fbn_range _ _ _ Hf Hq)) as [Hs1 Hs2].
  rewrite (ms_kept _ _ _ _ _ _ MS) by done. split; [done|]. destruct (fi_slot _ _ _ F _ Hs1 Hnz) as [Hi Hu].
  rewrite (ms_blocks _ _ _ _ _ _ MS); [done|done|done|]. intros E. apply Hs2. apply (fi_inj _ _ _ F); done || lia.
Qed.

(** Writing a data block of the file. *)
Lemma slot_write V d k b l : finv V d -> (k < 141)%nat -> k <> 12%nat -> slot V d k <> 0 ->
  slot (dupd V (slot V d k) b) d l = slot V d l.
Proof.
  intros F Hk H12 Hnz. apply slot_ext; [done|]. intros H0. apply dupd_ne. intros E. apply H12.
  apply (fi_inj _ _ _ F); done || lia.
Qed.

Lemma used_write V d k b c : finv V d -> (k < 141)%nat -> slot V d k <> 0 -> gs <= c < gend ->
  used (dupd V (slot V d k) b) c = used V c.
Proof.
  intros F Hk Hnz Hc. destruct (fi_slot _ _ _ F k Hk Hnz) as [Hi _]. apply (used_frame ds sb G); [done|].
  intros g Hg. apply dupd_ne. intros E. by apply (isfile_not_bmap ds sb G (slot V d k) g Hi Hg).
Qed.

Lemma finv_write V d k b : finv V d -> (k < 141)%nat -> k <> 12%nat -> slot V d k <> 0 -> finv (dupd V (slot V d k) b) d.
Proof.
  intros F Hk H12 Hnz. assert (E : forall l, slot (dupd V (slot V d k) b) d l = slot V d l) by (intros; by apply slot_write).
  split; [apply F| |].
  - intros l Hl. rewrite E. intros H0. destruct (fi_slot _ _ _ F l Hl H0) as [Hi Hu]. split; [done|].
    rewrite used_write by (done || apply Hi). done.
  - intros l m Hl Hm. rewrite !E. by apply F.
Qed.

Lemma fholds_write V d dat off bs bn :
  finv V d -> fholds V d dat -> fits (splice dat off bs) -> 0 <= off <= Z.of_nat (length dat) -> bn = off / 512 ->
  off + Z.of_nat (length bs) <= (bn + 1) * 512 -> 0 < Z.of_nat (length bs) ->
  slot V d (cslot bn) <> 0 -> bytes512 (V (slot V d (cslot bn))) ->
  fholds (dupd V (slot V d (cslot bn)) (put_bytes (V (slot V d (cslot bn))) (off mod 512) bs)) d (splice dat off bs).
Proof.
  intros F H Hfit Hoff Ebn Hend Hlen Hnz [HBl _]. unfold BSIZE in HBl.
  pose proof (Z.div_mod off 512 ltac:(lia)) as Hdm. pose proof (Z.mod_pos_bound off 512 ltac:(lia)) as Hmb. rewrite <- Ebn in Hdm.
  pose proof (splice_length dat off bs Hoff) as Hsl. unfold fits in Hfit.
  assert (Hbn : 0 <= bn < 140) by lia. destruct (cslot_data _ Hbn) as [Ht1 Ht2].
  intros q c Hq. pose proof (fbn_range _ _ _ Hfit Hq) as Hqr. destruct (cslot_data _ Hqr) as [Hs1 Hs2].
  rewrite slot_write by done. set (a := slot V d (cslot bn)) in *.
  assert (Hqd : (q = 512 * (q / 512) + q mod 512)%nat) by (apply Nat.div_mod; lia).
  assert (Hqm : (q mod 512 < 512)%nat) by (apply Nat.mod_upper_bound; lia).
  rewrite splice_lookup in Hq by done. destruct (decide (Z.of_nat q < off \/ off + Z.of_nat (length bs) <= Z.of_nat q)) as [Hout|Hin].
  - destruct (H q c Hq) as [Hqnz Hqc]. split; [done|].
    destruct (decide (Z.of_nat (q / 512) = bn)) as [Eq|Eq].
    + rewrite Eq in *. fold a in Hqc |- *. rewrite dupd_eq, lookup_put_bytes by lia. rewrite decide_True by lia. done.
    + rewrite dupd_ne; [done|]. intros Ea. apply Eq, cslot_inj; [lia|lia|]. apply (fi_inj _ _ _ F); done.
  - apply lookup_lt_Some in Hq as Hlt. assert (Eq : Z.of_nat (q / 512) = bn) by lia. rewrite Eq. fold a. split; [done|].
    rewrite dupd_eq, lookup_put_bytes by lia. rewrite decide_False by lia. rewrite <- Hq. f_equal. lia.
Qed.

(** ** Reading *)

Lemma unheld_none s n : unheld s [] n.
Proof. intros i x _ Hi. by apply elem_of_nil in Hi. Qed.

Lemma at_file_same s s' order' ip p order k :
  at_file s order ip p -> FsSpec.fok me ds sb s' order' [] -> vstep s s' [] (contents s) k -> at_file s' order' ip p.
Proof.
  intros [A1 A2 A3 A4 A5] F V. assert (E : forall m, contents s' m = contents s m) by apply V.
  split; [done| |done|by apply (finv_eq sb (contents s))|by apply (meta_all_eq sb (contents s))].
  by destruct (vs_rest _ _ _ _ _ V) as [-> _].
Qed.

(** The bytes of a block that the file holds. *)
Lemma get_block V d dat off m :
  fholds V d dat -> 0 <= off -> 0 < m -> off + m <= Z.of_nat (length dat) -> off mod 512 + m <= 512 ->
  get_bytes (V (slot V d (cslot (off / 512)))) (off mod 512) m = take (Z.to_nat m) (drop (Z.to_nat off) dat).
Proof.
  intros H Hoff Hm Hlen Hblk. pose proof (Z.div_mod off 512 ltac:(lia)) as Hdm. pose proof (Z.mod_pos_bound off 512 ltac:(lia)) as Hmb.
  assert (Hd : 0 <= off / 512) by (apply Z.div_pos; lia).
  apply list_eq. intros j. unfold get_bytes. destruct (decide (j < Z.to_nat m)%nat) as [Hj|Hj].
  - rewrite !lookup_take_lt by done. rewrite !lookup_drop.
    destruct (lookup_lt_is_Some_2 dat (Z.to_nat off + j) ltac:(lia)) as [c Hc]. rewrite Hc.
    destruct (H _ _ Hc) as [_ Hb].
    assert (Eq : Z.of_nat ((Z.to_nat off + j) / 512) = off / 512).
    { rewrite Nat2Z.inj_div. change (Z.of_nat 512) with 512. symmetry. apply (Z.div_unique _ _ _ (off mod 512 + Z.of_nat j)); lia. }
    rewrite Eq in Hb. rewrite <- Hb. f_equal.
    assert (Hqd : (Z.to_nat off + j = 512 * ((Z.to_nat off + j) / 512) + (Z.to_nat off + j) mod 512)%nat) by (apply Nat.div_mod; lia).
    lia.
  - rewrite !lookup_take_ge by lia. done.
Qed.

Lemma readi_loop_run fuel : forall s order ip p dat off n tot,
  at_file s order ip p -> fholds (contents s) p.(i_d) dat -> fits dat -> logged_n s < 30 ->
  0 <= off -> 0 <= tot <= n -> off + (n - tot) <= Z.of_nat (length dat) -> turns off (n - tot) < Z.of_nat fuel ->
  exists s' order', readi_loop me fuel ip off n tot s = Ok (take (Z.to_nat (n - tot)) (drop (Z.to_nat off) dat), s') /\
    at_file s' order' ip p /\ vstep s s' [] (contents s) 0.
Proof.
  induction fuel as [|fuel IH]; intros s order ip p dat off n tot A H Hf Hlog Hoff Htot Hlen Ht.
  { pose proof (turns_bound off (n - tot) ltac:(lia) ltac:(lia)). lia. }
  cbn [readi_loop]. destruct (Z.ltb_spec tot n) as [Hlt|Hge].
  2: { replace (n - tot) with 0 by lia. exists s, order. split; [done|]. split; [done|]. apply vstep_refl. }
  rewrite (kM_bind_run _ _ _ _ _ (geti_run s ip p (af_ip _ _ _ _ _ _ _ A))).
  pose proof (Z.div_mod off 512 ltac:(lia)) as Hdm. pose proof (Z.mod_pos_bound off 512 ltac:(lia)) as Hmb. unfold fits in Hf.
  assert (Hbn : 0 <= off / 512 < 140) by (split; [apply Z.div_pos|apply Z.div_lt_upper_bound]; lia).
  set (m := Z.min (n - tot) (512 - off mod 512)).
  assert (Em : m = Z.min (n - tot) ((off / 512 + 1) * 512 - off)) by (unfold m; f_equal; lia).
  destruct (turns_step off (n - tot) m Hoff ltac:(lia) Em) as [Hm Hts].
  destruct (lookup_lt_is_Some_2 dat (Z.to_nat off) ltac:(lia)) as [c Hc]. destruct (H _ _ Hc) as [Hnz _].
  assert (Eq : Z.of_nat (Z.to_nat off / 512) = off / 512) by (rewrite Nat2Z.inj_div, Z2Nat.id by lia; done).
  rewrite Eq in Hnz. destruct (cslot_data _ Hbn) as [Hs1 Hs2].
  destruct (bmap_hit me ds sb G s order ip p (off / 512) A Hbn Hlog Hnz) as (s1 & o1 & R1 & A1 & V1).
  rewrite (kM_bind_run _ _ _ _ _ R1), (af_dev _ _ _ _ _ _ _ A). pose proof (vs_n _ _ _ _ _ V1) as Hn1.
  set (a := slot (contents s) (i_d p) (cslot (off / 512))) in *.
  destruct (fi_slot _ _ _ (af_inv _ _ _ _ _ _ _ A) _ Hs1 Hnz) as [Hi _]. destruct (isfile_ds ds sb G a Hi) as [Hds _].
  destruct (read_fs me ds sb s1 o1 [] a (af_fok _ _ _ _ _ _ _ A1) Hds (unheld_none s1 a) ltac:(simpl; lia))
    as (bp & s2 & x & R2 & O2 & V2 & _).
  rewrite (kM_bind_run _ _ _ _ _ R2), (kM_bind_run _ _ _ _ _ (getb_fs me ds sb _ _ _ _ _ _ O2)).
  pose proof (opened_data _ _ _ _ _ _ _ _ _ O2) as Hx. rewrite (vs_vw _ _ _ _ _ V2), (vs_vw _ _ _ _ _ V1) in Hx.
  destruct (drop_fs me ds sb s2 o1 [] bp a x O2) as (s3 & o3 & R3 & F3 & V3). rewrite (kM_bind_run _ _ _ _ _ R3).
  assert (V : vstep s s3 [] (contents s) 0).
  { eapply vstep_weaken; [exact (vstep_trans _ _ _ _ _ _ _ _ V1 (vstep_trans _ _ _ _ _ _ _ _ V2 V3))|done| |lia].
    intros y. by rewrite (vs_vw _ _ _ _ _ V2), (vs_vw _ _ _ _ _ V1). }
  pose proof (vs_n _ _ _ _ _ V) as Hn3. pose proof (at_file_same s s3 o3 ip p order 0 A F3 V) as A3.
  assert (E3 : forall y, contents s3 y = contents s y) by apply V.
  destruct (IH s3 o3 ip p dat (off + m) n (tot + m) A3) as (s4 & o4 & R4 & A4 & V4); try lia.
  { by apply (fholds_eq (contents s)). }
  { by unfold fits. }
  { replace (n - (tot + m)) with (n - tot - m) by lia. lia. }
  rewrite (kM_bind_run _ _ _ _ _ R4), kM_ret_run. exists s4, o4. split; [|split; [done|]].
  - do 2 f_equal. rewrite Hx. unfold a. rewrite (get_block _ _ dat) by (done || lia).
    replace (Z.to_nat (off + m)) with (Z.to_nat off + Z.to_nat m)%nat by lia.
    replace (Z.to_nat (n - (tot + m))) with (Z.to_nat (n - tot) - Z.to_nat m)%nat by lia.
    rewrite <- drop_drop. rewrite <- (take_drop (Z.to_nat m) (drop (Z.to_nat off) dat)) at 3.
    rewrite take_app_ge; rewrite length_take, length_drop; [|lia]. do 2 f_equal. lia.
  - eapply vstep_weaken; [exact (vstep_trans _ _ _ _ _ _ _ _ V V4)|done|done|lia].
Qed.

Lemma readi_run s order ip p dat off n :
  at_file s order ip p -> fholds (contents s) p.(i_d) dat -> fits dat -> logged_n s < 30 ->
  p.(i_d).(d_type) <> T_DEV -> p.(i_d).(d_size) = Z.of_nat (length dat) -> 0 <= off < 2 ^ 31 -> 0 <= n < 2 ^ 31 ->
  exists s' order', at_file s' order' ip p /\ vstep s s' [] (contents s) 0 /\
    readi me devread ip off n s =
      Ok (if Z.of_nat (length dat) <? off then (-1, [])
          else (Z.min n (Z.of_nat (length dat) - off), take (Z.to_nat n) (drop (Z.to_nat off) dat)), s').
Proof.
  intros A H Hf Hlog Hty Hsz Hoff Hn. unfold readi. unfold fits in Hf.
  rewrite (kM_bind_run _ _ _ _ _ (geti_run s ip p (af_ip _ _ _ _ _ _ _ A))).
  destruct (Z.eqb_spec p.(i_d).(d_type) T_DEV) as [|_]; [done|]. rewrite Hsz.
  rewrite (u32_small (off + n)) by (unfold is_u32; lia). destruct (Z.ltb_spec (off + n) off) as [|_]; [lia|]. rewrite orb_false_r.
  destruct (Z.ltb_spec (Z.of_nat (length dat)) off) as [Hout|Hin].
  { exists s, order. split; [done|]. split; [apply vstep_refl|done]. }
  set (n' := if Z.of_nat (length dat) <? off + n then Z.of_nat (length dat) - off else n).
  assert (En : n' = Z.min n (Z.of_nat (length dat) - off)) by (unfold n'; case_bool; lia).
  pose proof (turns_bound off n' ltac:(lia) ltac:(lia)) as Htb.
  destruct (readi_loop_run (turns_for n') s order ip p dat off n' 0 A H) as (s' & o' & R & A' & V'); try lia; try done.
  { rewrite Z.sub_0_r. unfold turns_for. pose proof (Z.div_pos n' 512). lia. }
  exists s', o'. split; [done|]. split; [done|]. rewrite (kM_bind_run _ _ _ _ _ R), kM_ret_run.
  rewrite s32_small by (unfold is_s32; lia). rewrite Z.sub_0_r, <- En. do 3 f_equal.
  destruct (decide (n' = n)) as [->|Hne]; [done|]. rewrite !take_ge; [done|..]; rewrite length_drop; lia.
Qed.

(** ** Writing *)

(** From [V] and [d] to [V'] and [d'] blocks that belong to something else
    keep their contents and stay outside the file. *)
Record wstep (V : Z -> block) (d : dinode) (V' : Z -> block) (d' : dinode) : Prop := {
  ws_same : same_meta d d';
  ws_own : forall b, isfile b -> used V b = true -> (forall l, (l < 141)%nat -> slot V d l <> b) ->
    V' b = V b /\ used V' b = true /\ (forall l, (l < 141)%nat -> slot V' d' l <> b);
  ws_low : forall b, b < gs \/ gs <= b < gend /\ (b - gs) mod sb.(sb_bpg) < ipb -> V' b = V b
}.

Lemma wstep_refl V d : wstep V d V d.
Proof. split; [done| |done]. intros b Hb Hu Hl. done. Qed.

Lemma wstep_trans V d V1 d1 V2 d2 : wstep V d V1 d1 -> wstep V1 d1 V2 d2 -> wstep V d V2 d2.
Proof.
  intros [(?&?&?&?&?) A2 A3] [(?&?&?&?&?) B2 B3]. split; [repeat split; congruence| |].
  - intros b Hb Hu Hl. destruct (A2 b Hb Hu Hl) as (E1 & U1 & L1). destruct (B2 b Hb U1 L1) as (E2 & U2 & L2).
    split; [congruence|done].
  - intros b Hb. rewrite B3 by done. by apply A3.
Qed.

Lemma wstep_mstep V d V' d' c : finv V d -> mstep V d V' d' c -> wstep V d V' d'.
Proof.
  intros F MS. split; [apply MS| |apply (ms_low _ _ _ _ _ _ MS)]. intros b Hb Hu Hl. split; [|split].
  - apply (ms_blocks _ _ _ _ _ _ MS); [done|done|]. intros E. by apply (Hl 12%nat ltac:(lia)).
  - apply (ms_used _ _ _ _ _ _ MS); [apply Hb|done].
  - intros l Hlt E. destruct (decide (slot V d l = 0)) as [E0|E0].
    + rewrite <- E, (ms_fresh _ _ _ _ _ _ MS l Hlt E0) in Hu; [done|]. rewrite E. by apply (isfile_u32 ds sb G b Hb).
    + apply (Hl l Hlt). by rewrite <- (ms_kept _ _ _ _ _ _ MS l Hlt E0).
Qed.

Lemma wstep_data V d k b : finv V d -> (k < 141)%nat -> k <> 12%nat -> slot V d k <> 0 -> wstep V d (dupd V (slot V d k) b) d.
Proof.
  intros F Hk H12 Hnz. destruct (fi_slot _ _ _ F k Hk Hnz) as [Hi _]. split; [done| |].
  - intros c Hc Hu Hl. split; [apply dupd_ne; intros E; by apply (Hl k)|]. split; [by rewrite used_write by (done || apply Hc)|].
    intros l Hlt. rewrite slot_write by done. by apply Hl.
  - intros c Hc. apply dupd_ne. intros E. subst c. destruct Hi as [? ?]. destruct Hc as [?|[_ ?]]; lia.
Qed.

Lemma wstep_eq V d V1 V2 d' : (forall m, V2 m = V1 m) -> wstep V d V1 d' -> wstep V d V2 d'.
Proof.
  intros E [A1 A2 A3]. split; [done| |].
  - intros b Hb Hu Hl. destruct (A2 b Hb Hu Hl) as (E1 & U1 & L1). rewrite E. split; [done|].
    split; [by rewrite (used_ext sb V2 V1)|]. intros l Hlt. rewrite (slot_eq V1 V2) by done. by apply L1.
  - intros b Hb. rewrite E. by apply A3.
Qed.

(** An inode whose addresses stay is the same inode. *)
Lemma same_inode V d V' d' : finv V d -> finv V' d' -> same_meta d d' ->
  (forall l, (l <= 12)%nat -> slot V' d' l = slot V d l) -> d' = d.
Proof.
  intros F F' (?&?&?&?&?) Hl. destruct d as [ty ma mi nl sz a], d' as [ty' ma' mi' nl' sz' a']. cbn in *. subst. f_equal.
  pose proof (do_len _ (fi_ok _ _ _ F)) as L1. pose proof (do_len _ (fi_ok _ _ _ F')) as L2. cbn in L1, L2.
  apply (List.nth_ext _ _ 0 0); [congruence|]. intros i Hi. specialize (Hl i ltac:(lia)). by rewrite !slot_low in Hl by lia.
Qed.

(** One turn of the loop: the block, and the bytes put into it. *)
Lemma write_turn s order ip p dat off bs bn T :
  at_file s order ip p -> fholds (contents s) p.(i_d) dat -> fits (splice dat off bs) -> 0 <= off <= Z.of_nat (length dat) ->
  bn = off / 512 -> off + Z.of_nat (length bs) <= (bn + 1) * 512 -> 0 < Z.of_nat (length bs) -> Forall is_u8 bs ->
  logged_n s + 7 <= nlog -> 0 <= T -> free_room (contents s) (T + 1 + vacant (contents s) p.(i_d) 12) ->
  exists s1 s2 order2 d' bp s3, bmap me ip bn s = Ok (slot (contents s1) d' (cslot bn), s1) /\
    slot (contents s1) d' (cslot bn) <> 0 /\ s1.(icache) !! ip = Some (with_d p d') /\
    onb (bread me 1 (slot (contents s1) d' (cslot bn))) s1 = Ok (bp, s3) /\
    set_block me bp (fun b => put_bytes b (off mod 512) bs) s3 = Ok (tt, s2) /\
    at_file s2 order2 ip (with_d p d') /\ fstep s s2 ip p d' 6 /\ wstep (contents s) p.(i_d) (contents s2) d' /\
    fholds (contents s2) d' (splice dat off bs) /\ free_room (contents s2) (T + vacant (contents s2) d' 12) /\
    (off < Z.of_nat (length dat) -> d' = p.(i_d)).
Proof.
  intros A H Hfit Hoff Ebn Hend Hlen Hbs Hlog HT Hroom. pose proof (splice_length dat off bs Hoff) as Hsl. unfold fits in Hfit.
  pose proof (Z.div_mod off 512 ltac:(lia)) as Hdm. pose proof (Z.mod_pos_bound off 512 ltac:(lia)) as Hmb. rewrite <- Ebn in Hdm.
  assert (Hbn : 0 <= bn < 140) by lia. destruct (cslot_data _ Hbn) as [Ht1 Ht2]. set (d := p.(i_d)) in *. set (V := contents s) in *.
  pose proof (vacant_range V d 12) as Hv12. pose proof (vacant_range V d (cslot bn)) as Hvb.
  destruct (bmap_run me ds sb G s order ip p bn A Hbn ltac:(lia)) as (s1 & o1 & d' & R1 & A1 & S1 & Hnz & MS & El).
  { eapply free_room_less; [exact Hroom|]. unfold need. fold V d. case_bool; lia. }
  fold V d in MS, El. set (a := slot (contents s1) d' (cslot bn)) in *. pose proof (fs_log _ _ _ _ _ _ S1) as Hl1.
  pose proof (af_inv _ _ _ _ _ _ _ A1) as F1. cbn [i_d with_d] in F1.
  destruct (fi_slot _ _ _ F1 _ Ht1 Hnz) as [Hi _]. fold a in Hi. destruct (isfile_ds ds sb G a Hi) as [Hds Hds2].
  destruct (read_fs me ds sb s1 o1 [] a (af_fok _ _ _ _ _ _ _ A1) Hds (unheld_none s1 a)) as (bp & s3 & x & R3 & O3 & V3 & _).
  { pose proof G as [[G1 G2] _ _ _]. unfold LOGSIZE in G2. simpl. lia. }
  pose proof (opened_data _ _ _ _ _ _ _ _ _ O3) as Hx. rewrite (vs_vw _ _ _ _ _ V3) in Hx. pose proof (vs_n _ _ _ _ _ V3) as Hn3.
  assert (HB : bytes512 (contents s1 a)) by (apply (fk_bytes _ _ _ _ _ _ (af_fok _ _ _ _ _ _ _ A1)); lia).
  set (b := put_bytes (contents s1 a) (off mod 512) bs).
  assert (Hb : bytes512 b) by (apply put_bytes_bytes; [done|done|lia]).
  destruct (write_fs me ds sb G s3 o1 [] bp a x (fun b => put_bytes b (off mod 512) bs) O3 Hds2) as (s2 & o2 & R2 & F2 & V2).
  { lia. } { by rewrite Hx. }
  assert (E2 : forall m, contents s2 m = dupd (contents s1) a b m).
  { intros m. rewrite (vs_vw _ _ _ _ _ V2), Hx. unfold dupd. destruct (m =? a); [done|]. apply V3. }
  pose proof (vstep_trans _ _ _ _ _ _ _ _ V3 V2) as V32. cbn [Z.add] in V32.
  pose proof (fstep_vstep s1 s2 ip (with_d p d') [] _ _ (af_ip _ _ _ _ _ _ _ A1) V32) as S2. cbn [i_d with_d] in S2.
  assert (FW : finv (contents s2) d') by (apply (finv_eq sb _ _ _ E2); by apply finv_write).
  assert (MW : meta_all (contents s2)).
  { apply (meta_all_eq sb _ _ E2). intros c Hc Hm. unfold a. rewrite used_write by done. by apply (ms_all _ _ _ _ _ _ MS). }
  assert (Hf0 : fits dat) by (unfold fits; lia).
  exists s1, s2, o2, d', bp, s3. split; [done|]. split; [done|]. split; [apply A1|]. split; [done|]. split; [done|]. split; [|split; [|split; [|split; [|split]]]].
  - eapply (at_file_step me ds sb s1 s2 o1 o2 ip (with_d p d') d' 1 A1 S2 F2 FW MW).
  - apply (fstep_trans s s1 s2 ip p d' d' 5 1 S1 S2).
  - eapply wstep_trans; [exact (wstep_mstep _ _ _ _ _ (af_inv _ _ _ _ _ _ _ A) MS)|]. apply (wstep_eq _ _ _ _ _ E2).
    by apply wstep_data.
  - apply (fholds_eq _ _ _ _ E2). apply fholds_write; try done.
    by apply (fholds_mstep V d _ _ _ dat (af_inv _ _ _ _ _ _ _ A) MS).
  - apply (free_room_eq sb _ _ _ E2).
    assert (Ev : vacant (contents s2) d' 12 = vacant (contents s1) d' 12).
    { unfold vacant. rewrite (slot_eq _ _ _ _ E2). unfold a. by rewrite slot_write. }
    rewrite Ev. destruct (ms_room _ _ _ _ _ _ MS (T + vacant (contents s1) d' 12)) as (l & L1 & L2 & L3).
    { eapply free_room_less; [exact Hroom|]. unfold need, vacant. destruct (Z.ltb_spec bn 12).
      - destruct (Z.eqb_spec (slot V d 12) 0) as [E0|E0]; [repeat case_bool; lia|].
        rewrite (ms_kept _ _ _ _ _ _ MS 12 ltac:(lia) E0). repeat case_bool; lia.
      - assert (Hs12 : slot (contents s1) d' 12 <> 0).
        { intros E0. apply Hnz. unfold a. rewrite slot_high by (unfold cslot; case_bool; lia). by rewrite E0. }
        destruct (Z.eqb_spec (slot (contents s1) d' 12) 0); [done|]. repeat case_bool; lia. }
    exists l. split; [done|]. split; [done|]. intros c Hc. destruct (L3 c Hc) as [Hcr Hcu]. split; [done|].
    unfold a. by rewrite used_write.
  - intros Hlt. destruct (lookup_lt_is_Some_2 dat (Z.to_nat off) ltac:(lia)) as [c Hc]. destruct (H _ _ Hc) as [Hs _].
    assert (Eq : Z.of_nat (Z.to_nat off / 512) = bn) by (rewrite Nat2Z.inj_div, Z2Nat.id by lia; done). rewrite Eq in Hs.
    apply (same_inode V _ (contents s1)); [apply A|done|apply MS|]. intros l Hl.
    destruct (decide (l = cslot bn)) as [->|Hne]; [by apply (ms_kept _ _ _ _ _ _ MS)|].
    destruct (decide (l = 12%nat)) as [->|Hl12]; [|apply El; [lia|done|by left]].
    destruct (decide (bn < 12)) as [Hb12|Hb12]; [apply El; [lia|done|by right]|].
    apply (ms_kept _ _ _ _ _ _ MS); [lia|]. intros E0. apply Hs. rewrite slot_high by (unfold cslot; case_bool; lia). by rewrite E0.
Qed.

Lemma writei_loop_run fuel : forall s order ip p dat off n tot src,
  at_file s order ip p -> fholds (contents s) p.(i_d) dat -> n = Z.of_nat (length src) -> 0 <= tot <= n ->
  0 <= off <= Z.of_nat (length dat) -> Forall is_u8 src -> fits (splice dat off (drop (Z.to_nat tot) src)) ->
  turns off (n - tot) < Z.of_nat fuel -> logged_n s + 6 * turns off (n - tot) + 1 <= nlog ->
  free_room (contents s) (turns off (n - tot) + vacant (contents s) p.(i_d) 12) ->
  exists s' order' d', writei_loop me fuel ip src off n tot s = Ok (off + (n - tot), s') /\
    at_file s' order' ip (with_d p d') /\ fstep s s' ip p d' (6 * turns off (n - tot)) /\
    wstep (contents s) p.(i_d) (contents s') d' /\ fholds (contents s') d' (splice dat off (drop (Z.to_nat tot) src)) /\
    (off + (n - tot) <= Z.of_nat (length dat) -> d' = p.(i_d)).
Proof.
  induction fuel as [|fuel IH]; intros s order ip p dat off n tot src A H En Htot Hoff Hsrc Hfit Ht Hlog Hroom.
  { pose proof (turns_bound off (n - tot) ltac:(lia) ltac:(lia)). lia. }
  cbn [writei_loop]. destruct (Z.ltb_spec tot n) as [Hlt|Hge].
  2: { replace (n - tot) with 0 by lia. exists s, order, p.(i_d). rewrite drop_ge by lia. rewrite splice_nil, Z.add_0_r.
       split; [done|]. destruct p; split; [done|]. split; [|split; [apply wstep_refl|done]].
       split; [|done|done|unfold turns; simpl; lia]. symmetry. apply list_insert_id. apply A. }
  pose proof (Z.div_mod off 512 ltac:(lia)) as Hdm. pose proof (Z.mod_pos_bound off 512 ltac:(lia)) as Hmb.
  set (m := Z.min (n - tot) (512 - off mod 512)).
  assert (Em : m = Z.min (n - tot) ((off / 512 + 1) * 512 - off)) by (unfold m; f_equal; lia).
  destruct (turns_step off (n - tot) m ltac:(lia) ltac:(lia) Em) as [Hm Hts].
  pose proof (turns_bound (off + m) (n - tot - m) ltac:(lia) ltac:(lia)) as Htb.
  set (T := turns off (n - tot)) in *. set (T1 := turns (off + m) (n - tot - m)) in *.
  set (bs := get_bytes src tot m). assert (Hbl : Z.of_nat (length bs) = m) by (unfold bs, get_bytes; rewrite length_take, length_drop; lia).
  assert (Edr : drop (Z.to_nat tot) src = bs ++ drop (Z.to_nat (tot + m)) src).
  { unfold bs, get_bytes. replace (Z.to_nat (tot + m)) with (Z.to_nat tot + Z.to_nat m)%nat by lia. rewrite <- drop_drop. by rewrite take_drop. }
  pose proof (splice_length dat off (drop (Z.to_nat tot) src) Hoff) as Hsl. unfold fits in Hfit.
  assert (Hdl : Z.of_nat (length (drop (Z.to_nat tot) src)) = n - tot) by (rewrite length_drop; lia).
  destruct (write_turn s order ip p dat off bs (off / 512) T1 A H) as
    (s1 & s2 & o2 & d1 & bp & s3 & R1 & Hnz & Hip1 & R3 & R2 & A2 & S2 & W2 & H2 & Hroom2 & Hsame); try done; try lia.
  { unfold fits. rewrite splice_length by done. lia. }
  { unfold bs, get_bytes. by apply Forall_take, Forall_drop. }
  { eapply free_room_less; [exact Hroom|]. lia. }
  pose proof (fs_log _ _ _ _ _ _ S2) as Hl2. pose proof (splice_length dat off bs Hoff) as Hsl1.
  rewrite Hbl in *.
  destruct (IH s2 o2 ip (with_d p d1) (splice dat off bs) (off + m) n (tot + m) src A2 H2) as (s' & o' & d' & R & A' & S' & W' & H' & Hs'); try done; try lia.
  { unfold fits. rewrite <- Hbl at 1. rewrite splice_app by done. rewrite <- Edr. lia. }
  { replace (n - (tot + m)) with (n - tot - m) by lia. fold T1. lia. }
  { replace (n - (tot + m)) with (n - tot - m) by lia. fold T1. lia. }
  { replace (n - (tot + m)) with (n - tot - m) by lia. done. }
  replace (n - (tot + m)) with (n - tot - m) in * by lia. fold T1 in S'. cbn [i_d with_d] in *.
  exists s', o', d'. split; [|split; [done|split; [|split; [|split]]]].
  - rewrite (kM_bind_run _ _ _ _ _ R1). destruct (Z.eqb_spec (slot (contents s1) d1 (cslot (off / 512))) 0); [done|].
    rewrite (kM_bind_run _ _ _ _ _ (geti_run s1 ip _ Hip1)). cbn [i_dev with_d]. rewrite (af_dev _ _ _ _ _ _ _ A).
    rewrite (kM_bind_run _ _ _ _ _ R3). fold m. fold bs.
    apply kM_bind_Ok in R2 as (u & sa & Ra & R2). apply kM_bind_Ok in R2 as (u2 & sc & Rb & Rc). destruct u, u2.
    rewrite (kM_bind_run _ _ _ _ _ Ra), (kM_bind_run _ _ _ _ _ Rb), (kM_bind_run _ _ _ _ _ Rc), R. do 2 f_equal. lia.
  - destruct (fstep_trans s s2 s' ip p d1 d' 6 (6 * T1) S2 S') as [Q1 Q2 Q3 Q4]. split; try done. lia.
  - by eapply wstep_trans.
  - rewrite Edr. rewrite <- splice_app by done. by rewrite Hbl.
  - intros Hle. rewrite Hs' by lia. apply Hsame. lia.
Qed.

(** ** The inode *)

(** The block of an inode is an inode block of the groups. *)
Definition iblock_ok (i : Z) : Prop :=
  gs <= IBLOCK i sb < gend /\ (IBLOCK i sb - gs) mod sb.(sb_bpg) < ipb.

(** The cached inode is the one of its block. *)
Definition synced (V : Z -> block) (p : inode) : Prop :=
  decode_dinode (V (IBLOCK p.(i_inum) sb)) (ioff p.(i_inum)) = p.(i_d).

(** The contents with inode [p] written back. *)
Definition upd_view (V : Z -> block) (p : inode) : Z -> block :=
  dupd V (IBLOCK p.(i_inum) sb) (encode_dinode (V (IBLOCK p.(i_inum) sb)) (ioff p.(i_inum)) p.(i_d)).

Lemma iblock_not_file i b : iblock_ok i -> isfile b -> b <> IBLOCK i sb.
Proof. intros [_ Hi] [_ Hb] ->. lia. Qed.

Lemma upd_view_file V p b : iblock_ok p.(i_inum) -> isfile b -> upd_view V p b = V b.
Proof. intros Hi Hb. apply dupd_ne. by apply iblock_not_file. Qed.

Lemma upd_view_used V p b : iblock_ok p.(i_inum) -> gs <= b < gend -> used (upd_view V p) b = used V b.
Proof.
  intros Hi Hb. apply (used_frame ds sb G); [done|]. intros g Hg. apply dupd_ne. intros E.
  destruct Hi as [_ Hi]. destruct (bmapblk_at ds sb G g Hg) as [_ Hm]. rewrite E in Hm. lia.
Qed.

Lemma upd_view_slot V p d l : iblock_ok p.(i_inum) -> finv V d -> slot (upd_view V p) d l = slot V d l.
Proof.
  intros Hi F. apply slot_ext; [done|]. intros H0. apply upd_view_file; [done|]. by apply (fi_slot _ _ _ F 12 ltac:(lia)).
Qed.

Lemma upd_view_finv V p : iblock_ok p.(i_inum) -> finv V p.(i_d) -> finv (upd_view V p) p.(i_d).
Proof.
  intros Hi F. split; [apply F| |].
  - intros k Hk. rewrite upd_view_slot by done. intros H0. destruct (fi_slot _ _ _ F k Hk H0) as [Hf Hu]. split; [done|].
    rewrite upd_view_used by (done || apply Hf). done.
  - intros k l Hk Hl. rewrite !upd_view_slot by done. by apply F.
Qed.

Lemma iupdate_run s order ip p :
  at_file s order ip p -> iblock_ok p.(i_inum) -> logged_n s + 2 <= nlog ->
  exists s' order', iupdate me ip s = Ok (tt, s') /\ at_file s' order' ip p /\
    (forall m, contents s' m = upd_view (contents s) p m) /\ fstep s s' ip p p.(i_d) 1.
Proof.
  intros A Hi Hlog. unfold iupdate. rewrite (kM_bind_run _ _ _ _ _ (geti_run s ip p (af_ip _ _ _ _ _ _ _ A))).
  destruct (fk_sb _ _ _ _ _ _ (af_fok _ _ _ _ _ _ _ A)) as [Esb _].
  assert (Rsb : getsb s = Ok (sb, s)) by (unfold getsb; by rewrite Esb). rewrite (kM_bind_run _ _ _ _ _ Rsb), (af_dev _ _ _ _ _ _ _ A).
  pose proof (gs_range ds sb G) as [Hg1 Hg2]. set (ib := IBLOCK p.(i_inum) sb). assert (Hib : gs <= ib < gend) by apply Hi.
  pose proof G as [[G1 G2] _ _ _]. unfold LOGSIZE in G2.
  destruct (read_fs me ds sb s order [] ib (af_fok _ _ _ _ _ _ _ A) ltac:(lia) (unheld_none s ib) ltac:(simpl; lia))
    as (bp & s1 & x & R1 & O1 & V1 & _).
  pose proof (opened_data _ _ _ _ _ _ _ _ _ O1) as Hx. rewrite (vs_vw _ _ _ _ _ V1) in Hx. pose proof (vs_n _ _ _ _ _ V1) as Hn1.
  assert (HB : bytes512 (contents s ib)) by (apply (fk_bytes _ _ _ _ _ _ (af_fok _ _ _ _ _ _ _ A)); lia).
  destruct (write_fs me ds sb G s1 order [] bp ib x (fun b => encode_dinode b (ioff p.(i_inum)) p.(i_d)) O1) as (s2 & o2 & R2 & F2 & V2).
  { lia. } { lia. } { rewrite Hx. by apply encode_bytes. }
  assert (E2 : forall m, contents s2 m = upd_view (contents s) p m).
  { intros m. rewrite (vs_vw _ _ _ _ _ V2), Hx. unfold upd_view, dupd. fold ib. destruct (m =? ib); [done|]. apply V1. }
  pose proof (vstep_trans _ _ _ _ _ _ _ _ V1 V2) as V. cbn [Z.add] in V.
  pose proof (fstep_vstep s s2 ip p [] _ _ (af_ip _ _ _ _ _ _ _ A) V) as S2.
  exists s2, o2. split; [|split; [|done]].
  - rewrite (kM_bind_run _ _ _ _ _ R1). exact R2.
  - split; [done| |exact (af_dev _ _ _ _ _ _ _ A)| |].
    + rewrite (fs_ip _ _ _ _ _ _ S2). pose proof (af_ip _ _ _ _ _ _ _ A) as Hp. rewrite list_lookup_insert_eq by (by eapply lookup_lt_Some).
      by destruct p.
    + apply (finv_eq sb _ _ _ E2). apply upd_view_finv; [done|exact (af_inv _ _ _ _ _ _ _ A)].
    + apply (meta_all_eq sb _ _ E2). intros b Hb Hm. rewrite upd_view_used by done. by apply (af_meta _ _ _ _ _ _ _ A).
Qed.

(** What a write leaves behind: the file has the bytes [dat'], the inode block
    agrees with the cached inode, and neither the blocks of other files nor
    other inodes have changed. *)
Record written (s s' : fsst) (order' : list nat) (ip : nat) (p : inode) (d' : dinode) (dat' : list Z) : Prop := {
  wr_file : at_file s' order' ip (with_d p d');
  wr_size : d'.(d_size) = Z.of_nat (length dat');
  wr_type : d'.(d_type) = p.(i_d).(d_type) /\ d'.(d_nlink) = p.(i_d).(d_nlink);
  wr_bytes : fholds (contents s') d' dat';
  wr_sync : synced (contents s') (with_d p d');
  wr_files : forall b, isfile b -> used (contents s) b = true ->
    (forall l, (l < 141)%nat -> slot (contents s) p.(i_d) l <> b) ->
    contents s' b = contents s b /\ used (contents s') b = true;
  wr_inodes : forall i, iblock_ok i ->
    (IBLOCK i sb = IBLOCK p.(i_inum) sb -> ioff i + 64 <= ioff p.(i_inum) \/ ioff p.(i_inum) + 64 <= ioff i)%nat ->
    decode_dinode (contents s' (IBLOCK i sb)) (ioff i) = decode_dinode (contents s (IBLOCK i sb)) (ioff i);
  wr_disk : s'.(lst).(bc).(disk) = s.(lst).(bc).(disk)
}.

(** The end of [writei]: the new size, if the file has grown. *)
Definition writei_end (ip : nat) (n off' : Z) : kM fsst unit :=
  p ← geti ip;
  if (0 <? n) && (p.(i_d).(d_size) <? off') then
    _ ← seti ip (fun p => with_d p (set_size p.(i_d) off'));
    iupdate me ip
  else mret tt.

Lemma writei_end_grow s s1 order1 ip p d1 dat off src :
  at_file s1 order1 ip (with_d p d1) -> iblock_ok p.(i_inum) -> logged_n s1 + 2 <= nlog ->
  wstep (contents s) p.(i_d) (contents s1) d1 -> s1.(lst).(bc).(disk) = s.(lst).(bc).(disk) ->
  fholds (contents s1) d1 (splice dat off src) -> fits (splice dat off src) -> p.(i_d).(d_size) = Z.of_nat (length dat) ->
  0 <= off <= Z.of_nat (length dat) -> Z.of_nat (length dat) < off + Z.of_nat (length src) ->
  exists s' order' d', writei_end ip (Z.of_nat (length src)) (off + Z.of_nat (length src)) s1 = Ok (tt, s') /\
    written s s' order' ip p d' (splice dat off src).
Proof.
  intros A Hi Hlog W Hdk H Hf Hsz Hoff Hgrow. set (off' := off + Z.of_nat (length src)) in *.
  destruct (ws_same _ _ _ _ W) as (E1 & E2 & E3 & E4 & E5). pose proof (splice_length dat off src Hoff) as Hsl. unfold fits in Hf.
  unfold writei_end. rewrite (kM_bind_run _ _ _ _ _ (geti_run s1 ip _ (af_ip _ _ _ _ _ _ _ A))). cbn [i_d with_d].
  rewrite E5, Hsz. destruct (Z.ltb_spec 0 (Z.of_nat (length src))); [|lia].
  destruct (Z.ltb_spec (Z.of_nat (length dat)) off'); [|lia]. cbn [andb].
  set (d2 := set_size d1 off'). set (f := fun q : inode => with_d q (set_size q.(i_d) off')).
  assert (Es : forall V l, slot V d2 l = slot V d1 l) by (intros; by apply slot_ext).
  assert (F2 : finv (contents s1) d2).
  { destruct (af_inv _ _ _ _ _ _ _ A) as [Q1 Q2 Q3]. cbn [i_d with_d] in *. split.
    - destruct Q1. split; try done. cbn. unfold is_u32. lia.
    - intros k Hk. rewrite Es. by apply Q2.
    - intros k l Hk Hl. rewrite !Es. by apply Q3. }
  assert (A2 : at_file (upd_inode ip f s1) order1 ip (with_d p d2)).
  { destruct A as [Q1 Q2 Q3 Q4 Q5]. split; [by apply fok_icache| |done|done|done]. cbn [upd_inode icache].
    rewrite list_lookup_alter_eq, Q2. done. }
  erewrite kM_bind_run by reflexivity. destruct (iupdate_run _ order1 ip (with_d p d2) A2 Hi Hlog) as (s' & o' & R & A' & EV & S').
  change (contents (upd_inode ip f s1)) with (contents s1) in EV. set (p2 := with_d p d2) in *.
  exists s', o', d2. split; [done|]. split.
  - done.
  - cbn. lia.
  - done.
  - apply (fholds_eq _ _ _ _ EV). intros q c Hq. rewrite upd_view_slot by (done || apply A2).
    rewrite Es. destruct (H q c Hq) as [Hnz Hc]. split; [done|]. rewrite upd_view_file; [done|done|].
    apply (fi_slot _ _ _ (af_inv _ _ _ _ _ _ _ A)); [|done]. by apply (cslot_data _ (fbn_range _ _ _ Hf Hq)).
  - unfold synced. rewrite EV. unfold upd_view. cbn [i_inum i_d with_d p2]. rewrite dupd_eq. apply decode_encode_dinode; [apply F2|].
    assert (HB : bytes512 (contents s1 (IBLOCK (i_inum p) sb))).
    { apply (fk_bytes _ _ _ _ _ _ (af_fok _ _ _ _ _ _ _ A)). pose proof (gs_range ds sb G). destruct Hi as [? _]. lia. }
    destruct HB as [-> _]. apply ioff_fits.
  - intros b Hb Hu Hl. destruct (ws_own _ _ _ _ W b Hb Hu Hl) as (Q1 & Q2 & _). rewrite EV, upd_view_file by done.
    split; [done|]. rewrite (used_ext sb _ _ b EV), upd_view_used by (done || apply Hb). done.
  - intros i Hib Hap. rewrite EV. unfold upd_view. cbn [i_inum p2 with_d].
    assert (El : contents s1 (IBLOCK i sb) = contents s (IBLOCK i sb)).
    { apply (ws_low _ _ _ _ W). right. exact Hib. }
    destruct (decide (IBLOCK i sb = IBLOCK (i_inum p) sb)) as [E|E].
    + rewrite <- E, dupd_eq. rewrite decode_encode_other; [by rewrite El|apply F2|]. destruct (Hap E); [by right|by left].
    + rewrite dupd_ne by congruence. by rewrite El.
  - by rewrite (fs_disk _ _ _ _ _ _ S').
Qed.

Lemma writei_end_stay s s1 order1 ip p dat off src :
  at_file s1 order1 ip p -> wstep (contents s) p.(i_d) (contents s1) p.(i_d) -> iblock_ok p.(i_inum) ->
  s1.(lst).(bc).(disk) = s.(lst).(bc).(disk) -> synced (contents s) p ->
  fholds (contents s1) p.(i_d) (splice dat off src) -> p.(i_d).(d_size) = Z.of_nat (length dat) ->
  0 <= off <= Z.of_nat (length dat) -> off + Z.of_nat (length src) <= Z.of_nat (length dat) ->
  writei_end ip (Z.of_nat (length src)) (off + Z.of_nat (length src)) s1 = Ok (tt, s1) /\
    written s s1 order1 ip p p.(i_d) (splice dat off src).
Proof.
  intros A W Hi Hdk Hsy H Hsz Hoff Hle. pose proof (splice_length dat off src Hoff) as Hsl. split.
  - unfold writei_end. rewrite (kM_bind_run _ _ _ _ _ (geti_run s1 ip _ (af_ip _ _ _ _ _ _ _ A))), Hsz.
    destruct (Z.ltb_spec (Z.of_nat (length dat)) (off + Z.of_nat (length src))); [lia|]. by rewrite andb_false_r.
  - assert (Ep : with_d p p.(i_d) = p) by (by destruct p).
    assert (El : forall i, iblock_ok i -> contents s1 (IBLOCK i sb) = contents s (IBLOCK i sb)).
    { intros i Hib. apply (ws_low _ _ _ _ W). right. exact Hib. }
    split; rewrite ?Ep; try done.
    + lia.
    + unfold synced. by rewrite El.
    + intros b Hb Hu Hl. destruct (ws_own _ _ _ _ W b Hb Hu Hl) as (Q1 & Q2 & _). done.
    + intros i Hib _. by rewrite El.
Qed.

Lemma writei_run s order ip p dat src off :
  at_file s order ip p -> p.(i_d).(d_type) <> T_DEV -> p.(i_d).(d_size) = Z.of_nat (length dat) ->
  fholds (contents s) p.(i_d) dat -> synced (contents s) p -> iblock_ok p.(i_inum) -> fits dat ->
  Forall is_u8 src -> Z.of_nat (length src) < 2 ^ 31 -> 0 <= off < 2 ^ 31 ->
  if (off <=? Z.of_nat (length dat)) && (off + Z.of_nat (length src) <=? 71680) then
    logged_n s + 6 * turns off (Z.of_nat (length src)) + 2 <= nlog ->
    free_room (contents s) (turns off (Z.of_nat (length src)) + 1) ->
    exists s' order' d', writei me devwrite ip src off (Z.of_nat (length src)) s = Ok (Z.of_nat (length src), s') /\
      written s s' order' ip p d' (splice dat off src)
  else writei me devwrite ip src off (Z.of_nat (length src)) s = Ok (-1, s).
Proof.
  intros A Hty Hsz H Hsy Hi Hf Hsrc Hn Hoff. set (n := Z.of_nat (length src)) in *.
  assert (E : writei me devwrite ip src off n s =
    if (off <=? Z.of_nat (length dat)) && (off + n <=? 71680) then
      (off' ← writei_loop me (turns_for n) ip src off n 0; _ ← writei_end ip n off'; mret (s32 n)) s
    else Ok (-1, s)).
  { unfold writei. rewrite (kM_bind_run _ _ _ _ _ (geti_run s ip p (af_ip _ _ _ _ _ _ _ A))).
    destruct (Z.eqb_spec p.(i_d).(d_type) T_DEV) as [|_]; [done|]. rewrite Hsz, (u32_small (off + n)) by (unfold is_u32; lia).
    destruct (Z.ltb_spec (off + n) off); [lia|]. rewrite orb_false_r. change (MAXFILE * Z.of_nat BSIZE) with 71680.
    destruct (Z.ltb_spec (Z.of_nat (length dat)) off), (Z.leb_spec off (Z.of_nat (length dat))); try lia; [done|].
    destruct (Z.ltb_spec 71680 (off + n)), (Z.leb_spec (off + n) 71680); try lia; [done|]. cbn [andb].
    unfold mbind, kM_bind. destruct (writei_loop _ _ _ _ _ _ _ _) as [[off' s1]|]; [|done].
    unfold writei_end, mbind, kM_bind. destruct (geti ip s1) as [[q s2]|]; done. }
  rewrite E. destruct (Z.leb_spec off (Z.of_nat (length dat))) as [Hle|]; [|done].
  destruct (Z.leb_spec (off + n) 71680) as [Hmax|]; [|done]. cbn [andb]. intros Hlog Hroom.
  pose proof (splice_length dat off src ltac:(lia)) as Hsl. pose proof (turns_bound off n ltac:(lia) ltac:(lia)) as Htb.
  unfold fits in Hf. assert (Hfit : fits (splice dat off src)) by (unfold fits; lia).
  destruct (writei_loop_run (turns_for n) s order ip p dat off n 0 src A H) as (s1 & o1 & d1 & R1 & A1 & S1 & W1 & H1 & Hsame);
    rewrite ?Z.sub_0_r in *; try done; try lia.
  { unfold turns_for. pose proof (Z.div_pos n 512). lia. }
  { eapply free_room_less; [exact Hroom|]. pose proof (vacant_range (contents s) p.(i_d) 12). lia. }
  rewrite (kM_bind_run _ _ _ _ _ R1). pose proof (fs_log _ _ _ _ _ _ S1) as Hl1. cbn [drop] in H1.
  rewrite s32_small by (unfold is_s32; lia). destruct (decide (off + n <= Z.of_nat (length dat))) as [Hst|Hgr].
  - assert (d1 = p.(i_d)) as -> by (by apply Hsame). assert (Ep : with_d p p.(i_d) = p) by (by destruct p). rewrite Ep in A1.
    destruct (writei_end_stay s s1 o1 ip p dat off src A1 W1 Hi (fs_disk _ _ _ _ _ _ S1) Hsy H1 Hsz ltac:(lia) Hst) as [R2 W2].
    exists s1, o1, p.(i_d). by rewrite (kM_bind_run _ _ _ _ _ R2).
  - destruct (writei_end_grow s s1 o1 ip p d1 dat off src A1 Hi ltac:(lia) W1 (fs_disk _ _ _ _ _ _ S1) H1 Hfit Hsz ltac:(lia) ltac:(lia))
      as (s' & o' & d' & R2 & W2).
    exists s', o', d'. by rewrite (kM_bind_run _ _ _ _ _ R2).
Qed.

(** C4. A file is a list of bytes to [writei].  Inside a transaction with room
    in the log and enough free blocks, a write that starts within the file and
    stays below the largest size returns the number of bytes; the file then
    holds the old bytes with the new ones written over them, its size is the
    old one or the end of the write, whichever is larger, the inode block
    agrees with the cached inode, and no block of another file and no other
    inode has changed.  A write that starts behind the end, or would pass the
    largest size, returns -1 and changes nothing. *)
Theorem writei_spec s order ip p dat src off :
  at_file s order ip p -> p.(i_d).(d_type) <> T_DEV -> p.(i_d).(d_size) = Z.of_nat (length dat) ->
  fholds (contents s) p.(i_d) dat -> synced (contents s) p -> iblock_ok p.(i_inum) -> fits dat ->
  Forall is_u8 src -> Z.of_nat (length src) < 2 ^ 31 -> 0 <= off < 2 ^ 31 ->
  if (off <=? Z.of_nat (length dat)) && (off + Z.of_nat (length src) <=? 71680) then
    logged_n s + 6 * turns off (Z.of_nat (length src)) + 2 <= nlog ->
    free_room (contents s) (turns off (Z.of_nat (length src)) + 1) ->
    exists s' order' d', writei me devwrite ip src off (Z.of_nat (length src)) s = Ok (Z.of_nat (length src), s') /\
      written s s' order' ip p d' (splice dat off src)
  else writei me devwrite ip src off (Z.of_nat (length src)) s = Ok (-1, s).
Proof. apply writei_run. Qed.

(** C29. [readi] returns the bytes of the file from [off] on, at most [n] of
    them and none behind the end, with their number; an offset behind the end
    is -1.  Neither contents nor log change. *)
Theorem readi_spec s order ip p dat off n :
  at_file s order ip p -> fholds (contents s) p.(i_d) dat -> fits dat -> logged_n s < 30 ->
  p.(i_d).(d_type) <> T_DEV -> p.(i_d).(d_size) = Z.of_nat (length dat) -> 0 <= off < 2 ^ 31 -> 0 <= n < 2 ^ 31 ->
  exists s' order', at_file s' order' ip p /\ (forall m, contents s' m = contents s m) /\ logged_n s' = logged_n s /\
    readi me devread ip off n s =
      Ok (if Z.of_nat (length dat) <? off then (-1, [])
          else (Z.min n (Z.of_nat (length dat) - off), take (Z.to_nat n) (drop (Z.to_nat off) dat)), s').
Proof.
  intros A H Hf Hlog Hty Hsz Hoff Hn. destruct (readi_run s order ip p dat off n A H Hf Hlog Hty Hsz Hoff Hn) as (s' & o' & A' & V & R).
  exists s', o'. split; [done|]. split; [apply V|]. split; [|done]. pose proof (vs_n _ _ _ _ _ V). lia.
Qed.

End Content.

(** ** A small file system with one file *)

Module ContentDemo.
Import AllocDemo.

(** The file holds "abc", in block 37. *)
Definition d0 : dinode := mk_dinode T_FILE 0 0 1 3 (37 :: replicate 12 0).
Definition p0 : inode := mk_inode 1 2 1 initsleeplock true d0.

(** Inode 2 is at byte 128 of block 32; blocks 32 to 37 are marked. *)
Definition df (n : Z) : block :=
  if n =? 32 then encode_dinode zeros 128 d0
  else if n =? 36 then 63 :: replicate 511 0
  else if n =? 37 then put_bytes zeros 0 [97; 98; 99]
  else dd n.
Definition cf : bio := mk_bio booted_bufs df 300 [].
Definition sf : fsst := mk_fsst (mk_lgst l0 cf 0) [p0] sb.

Lemma bytes_abc (l : list Z) : forallb (fun z => (0 <=? z) && (z <? 256)) l = true -> Forall is_u8 l.
Proof.
  intros H. rewrite forallb_forall in H. apply Forall_forall. intros z Hz. apply list_elem_of_In, H, andb_true_iff in Hz.
  unfold is_u8. lia.
Qed.

Lemma df_bytes n : bytes512 (df n).
Proof.
  unfold df. destruct (n =? 32); [apply encode_bytes, bytes512_zero|].
  destruct (n =? 36); [split; [reflexivity|by apply bytes_abc; vm_compute]|].
  destruct (n =? 37); [apply put_bytes_bytes; [apply bytes512_zero|by apply bytes_abc|simpl; lia]|apply dd_bytes].
Qed.

Lemma sf_client : client 1 cf boot_order [] /\ (forall n, vw cf n = df n) /\ (forall n, ~ dirtyn cf n).
Proof. destruct (fresh_client 1 booted_bufs boot_order df 300 [] booted_ring booted_buf) as (H1 & _ & H3 & H4). by split_and!. Qed.

Lemma sf_contents n : contents sf n = df n.
Proof. apply sf_client. Qed.

Lemma sf_ok : FsSpec.fok 1 300 sb sf boot_order [].
Proof.
  destruct sf_client as (H1 & H2 & H3). split.
  - split; [split; cbn; unfold LOGSIZE; try lia; reflexivity|exact H1|reflexivity|..].
    + intros i Hi. cbn in Hi. lia.
    + intros m Hm. by destruct (H3 m).
  - split; [reflexivity|]. rewrite sf_contents. vm_compute. reflexivity.
  - cbn. lia.
  - intros m _. rewrite sf_contents. apply df_bytes.
Qed.

Lemma sf_used b : FsAlloc.used sb (contents sf) b = FsAlloc.used sb df b.
Proof. apply used_ext, sf_contents. Qed.

Lemma sf_slot k : slot (contents sf) d0 k = if (k =? 0)%nat then 37 else 0.
Proof.
  unfold slot. cbn [d0 d_addrs nth]. destruct k as [|k]; [done|]. rewrite !nth_replicate_zero. by destruct (S k <=? 12)%nat.
Qed.

Lemma sf_file : at_file 1 300 sb sf boot_order 0 p0.
Proof.
  split; [exact sf_ok|done|done| |].
  - split.
    + split; cbn; unfold is_s16, is_u32; try lia; try done. repeat (apply Forall_cons; split; [lia|]). apply Forall_nil_2.
    + intros [|k] _ Hk; rewrite sf_slot in Hk |- *; [|done]. simpl.
      split; [repeat split; vm_compute; congruence|rewrite sf_used; vm_compute; reflexivity].
    + intros [|k] [|l] _ _ Hk E; rewrite !sf_slot in *; done.
  - intros b Hb Hm. change (FsSpec.gs sb) with 32 in *. change (gend sb) with 232 in Hb. change (sb_bpg sb) with 200 in Hm.
    change (sb_ipg sb / IPB) with 4 in Hm. rewrite Z.mod_small in Hm by lia. rewrite sf_used.
    assert (b = 32 \/ b = 33 \/ b = 34 \/ b = 35 \/ b = 36) as [->|[->|[->|[->| ->]]]] by lia; vm_compute; reflexivity.
Qed.

Lemma sf_room : free_room sb (contents sf) 2.
Proof.
  exists [38; 39]. split; [apply NoDup_cons; split; [intros H; apply list_elem_of_singleton in H; lia|apply NoDup_singleton]|].
  split; [simpl; lia|]. intros b Hb. rewrite sf_used. apply elem_of_cons in Hb as [->|Hb]; [split; [vm_compute; split; congruence|vm_compute; reflexivity]|].
  apply list_elem_of_singleton in Hb as ->. split; [vm_compute; split; congruence|vm_compute; reflexivity].
Qed.

Lemma sf_synced : synced sb (contents sf) p0.
Proof. unfold synced. rewrite sf_contents. vm_compute. reflexivity. Qed.

Lemma sf_holds : fholds (contents sf) d0 [97; 98; 99].
Proof.
  intros q c Hq. assert (Hq3 : (q < 3)%nat) by (by apply lookup_lt_Some in Hq).
  rewrite Nat.div_small, Nat.mod_small by lia. rewrite sf_slot. simpl. split; [done|]. rewrite sf_contents.
  destruct q as [|[|[|q]]]; [..|lia]; simpl in Hq; injection Hq as <-; reflexivity.
Qed.

(** Writing "XYZ" from the second byte on. *)
Lemma writei_spec_witness :
  exists s' order' d', writei 1 (fun _ => None) 0 [88; 89; 90] 1 3 sf = Ok (3, s') /\
    written 1 300 sb sf s' order' 0 p0 d' [97; 88; 89; 90].
Proof.
  apply (writei_spec 1 300 sb sb_geo (fun _ => None) sf boot_order 0 p0 [97; 98; 99] [88; 89; 90] 1 sf_file).
  - done.
  - reflexivity.
  - exact sf_holds.
  - exact sf_synced.
  - split; [vm_compute; split; congruence|vm_compute; reflexivity].
  - unfold fits. simpl. lia.
  - by apply bytes_abc.
  - simpl. lia.
  - lia.
  - vm_compute. congruence.
  - exact sf_room.
Defined.

(** Reading ten bytes from the second on. *)
Lemma readi_spec_witness : exists s', readi 1 (fun _ => None) 0 1 10 sf = Ok ((2, [98; 99]), s').
Proof.
  destruct (readi_spec 1 300 sb sb_geo (fun _ => None) sf boot_order 0 p0 [97; 98; 99] 1 10 sf_file) as (s' & o' & _ & _ & _ & R).
  - exact sf_holds.
  - unfold fits. simpl. lia.
  - vm_compute. reflexivity.
  - done.
  - reflexivity.
  - lia.
  - lia.
  - exists s'. exact R.
Defined.

End ContentDemo.
