(* ===== verification/FsDir.v ===== *)
(** * Directories

    [dirlookup] and [dirlink] of fs.c.  The bytes of a directory are read as a
    list of entries, an inode number and a name, and that list as a map from
    names to inode numbers: [dirlookup] finds in the map, and [dirlink] adds
    to it. *)

From S2P Require Import Prelude CString Locks Bio BioSpec BioView Layout Log LogSpec LogCrash LogTx Fs FsBits FsInode FsSpec FsAlloc FsFile FsContent.

(** ** Names *)

(** The name that a field of [DIRSIZ] bytes holds. *)
Definition dname (l : list Z) : list Z := cname (fun x => nth (Z.to_nat x) l 0) 0 DIRSIZ.

Lemma cname_shift m m' a b n : (forall i, (i < n)%nat -> m' (b + Z.of_nat i) = m (a + Z.of_nat i)) -> cname m' b n = cname m a n.
Proof.
  revert a b. induction n as [|n IH]; intros a b E; cbn [cname]; [done|].
  pose proof (E 0%nat ltac:(lia)) as E0. rewrite !Z.add_0_r in E0. rewrite E0. destruct (c_true (m a)); [|done]. f_equal.
  apply IH. intros i Hi. replace (b + 1 + Z.of_nat i) with (b + Z.of_nat (S i)) by lia.
  replace (a + 1 + Z.of_nat i) with (a + Z.of_nat (S i)) by lia. apply E. lia.
Qed.

Lemma nth_u8 l i : Forall is_u8 l -> is_u8 (nth i l 0).
Proof.
  intros Hl. rewrite nth_lookup. destruct (l !! i) as [x|] eqn:E; cbn; [|unfold is_u8; lia].
  by apply (Forall_lookup_1 _ _ _ _ Hl E).
Qed.

Lemma mem_of_u8 s t x : Forall is_u8 s -> Forall is_u8 t -> is_u8 (mem_of s t x).
Proof. intros Hs Ht. unfold mem_of. case_bool; by apply nth_u8. Qed.

Lemma mem_of_dst s t : cname (mem_of s t) 0 DIRSIZ = dname s.
Proof. apply cname_shift. intros i Hi. unfold mem_of, DIRSIZ in *. case_bool; [done|lia]. Qed.

Lemma mem_of_src s t : cname (mem_of s t) 65536 DIRSIZ = dname t.
Proof. apply cname_shift. intros i Hi. unfold mem_of, DIRSIZ in *. case_bool; [lia|]. f_equal. lia. Qed.

Lemma namecmp_eq s t : Forall is_u8 s -> Forall is_u8 t -> namecmp s t = 0 <-> dname s = dname t.
Proof.
  intros Hs Ht. unfold namecmp. rewrite strncmp_eq by (intros x; by apply mem_of_u8). by rewrite mem_of_dst, mem_of_src.
Qed.

(** ** Entries *)

Definition chunk (dat : list Z) (k : nat) : list Z := take 16 (drop (16 * k) dat).

Definition ent (dat : list Z) (k : nat) : Z * list Z := (de_inum (chunk dat k), dname (de_name (chunk dat k))).

Definition dents (dat : list Z) : list (Z * list Z) := ent dat <$> seq 0 (length dat / 16).

Definition live (nm : list Z) (e : Z * list Z) : Prop := e.1 <> 0 /\ e.2 = nm.
Definition vacant_ent (e : Z * list Z) : Prop := e.1 = 0.

#[export] Instance live_dec nm e : Decision (live nm e).
Proof. unfold live. apply _. Defined.
#[export] Instance vacant_ent_dec e : Decision (vacant_ent e).
Proof. unfold vacant_ent. apply _. Defined.

(** The map of a list of entries, and of a directory. *)
Definition assoc (nm : list Z) (es : list (Z * list Z)) : option Z := (fun r => r.2.1) <$> list_find (live nm) es.

Definition dmap (dat : list Z) (nm : list Z) : option Z := assoc nm (dents dat).

Lemma assoc_cons nm e es : assoc nm (e :: es) = if decide (live nm e) then Some e.1 else assoc nm es.
Proof. unfold assoc. cbn [list_find]. destruct (decide (live nm e)); [done|]. by destruct (list_find (live nm) es) as [[]|]. Qed.

Lemma assoc_app nm es e : assoc nm (es ++ [e]) = match assoc nm es with Some i => Some i | None => if decide (live nm e) then Some e.1 else None end.
Proof.
  induction es as [|x es IH]; cbn [app]; rewrite ?assoc_cons; [done|]. rewrite IH. by destruct (decide (live nm x)).
Qed.

(** An entry put in an empty place. *)
Lemma assoc_insert nm es k e i n :
  es !! k = Some e -> vacant_ent e -> i <> 0 -> assoc n es = None ->
  assoc nm (<[k := (i, n)]> es) = if decide (nm = n) then Some i else assoc nm es.
Proof.
  intros Hk He Hi. revert k Hk. induction es as [|x es IH]; intros k Hk Hn; [done|]. rewrite assoc_cons in Hn |- *.
  destruct (decide (live n x)) as [|Hx]; [done|]. destruct k as [|k]; cbn in Hk.
  - injection Hk as ->. cbn [insert list_insert]. rewrite assoc_cons. cbn [fst].
    rewrite (decide_False (P := live nm e)) by (intros [HH _]; done). destruct (decide (nm = n)) as [->|Hne].
    + by rewrite decide_True.
    + rewrite decide_False; [done|]. intros [_ HH]. done.
  - change (<[S k := (i, n)]> (x :: es)) with (x :: <[k := (i, n)]> es). rewrite assoc_cons, (IH k Hk Hn). destruct (decide (live nm x)) as [Hl|]; [|done].
    rewrite decide_False; [done|]. by intros ->.
Qed.

Lemma dents_length dat : length (dents dat) = (length dat / 16)%nat.
Proof. unfold dents. by rewrite length_fmap, length_seq. Qed.

Lemma dents_lookup dat k : (k < length dat / 16)%nat -> dents dat !! k = Some (ent dat k).
Proof. intros Hk. unfold dents. rewrite list_lookup_fmap, lookup_seq_lt by done. done. Qed.

Lemma dents_drop dat k : (k < length dat / 16)%nat -> drop k (dents dat) = ent dat k :: drop (S k) (dents dat).
Proof. intros Hk. by apply drop_S, dents_lookup. Qed.

Lemma chunk_u8 dat k : Forall is_u8 dat -> Forall is_u8 (chunk dat k).
Proof. intros H. by apply Forall_take, Forall_drop. Qed.

(** ** A new entry *)

Lemma mk_dirent_length name inum : length (mk_dirent name inum) = 16%nat.
Proof. unfold mk_dirent, strncpy_field. by rewrite length_app, length_put16, bytes_at_length, !length_replicate. Qed.

Lemma mk_dirent_u8 name inum : Forall is_u8 name -> Forall is_u8 (mk_dirent name inum).
Proof.
  intros Hn. unfold mk_dirent. apply Forall_app. split.
  - unfold put16. cbn. repeat (apply Forall_cons; split; [apply u8_range|]). apply Forall_nil_2.
  - unfold strncpy_field, bytes_at. apply Forall_map, Forall_forall. intros k _.
    apply strncpy_bytes; [unfold DIRSIZ; lia|unfold DIRSIZ; lia|]. intros x. apply mem_of_u8; [|done]. by apply Forall_replicate.
Qed.

Lemma mk_dirent_inum name inum : 0 <= inum < 65536 -> de_inum (mk_dirent name inum) = inum.
Proof.
  intros Hi. unfold de_inum, mk_dirent. transitivity (get16 (put16 (replicate 2 0) 0 inum) 0); [reflexivity|].
  apply get16_put16_eq; [lia|cbn; lia].
Qed.

Lemma mk_dirent_name name inum : dname (de_name (mk_dirent name inum)) = dname name.
Proof.
  change (de_name (mk_dirent name inum)) with (strncpy_field (replicate DIRSIZ 0) name (Z.of_nat DIRSIZ)).
  rewrite <- (mem_of_src (replicate DIRSIZ 0) name). unfold strncpy_field. rewrite length_replicate.
  transitivity (cname (strncpy (mem_of (replicate DIRSIZ 0) name) 0 65536 (Z.of_nat DIRSIZ)) 0 DIRSIZ).
  - apply cname_shift. intros i Hi. rewrite Z.add_0_l, Nat2Z.id. by apply nth_bytes_at.
  - apply (strncpy_cname _ 0 65536 (Z.of_nat DIRSIZ)); unfold DIRSIZ; lia.
Qed.

Lemma chunk_lookup dat k q : chunk dat k !! q = if decide (q < 16)%nat then dat !! (16 * k + q)%nat else None.
Proof.
  unfold chunk. destruct (decide (q < 16)%nat).
  - by rewrite lookup_take_lt, lookup_drop.
  - apply lookup_take_ge. lia.
Qed.

(** An entry written over a directory, or at its end. *)
Lemma chunk_splice dat k bs i :
  length bs = 16%nat -> (16 * k <= length dat)%nat ->
  chunk (splice dat (16 * Z.of_nat k) bs) i = if decide (i = k) then bs else chunk dat i.
Proof.
  intros Hb Hk. apply list_eq. intros q. rewrite chunk_lookup, splice_lookup by lia.
  destruct (decide (i = k)) as [->|Hne].
  - destruct (decide (q < 16)%nat); [|symmetry; apply lookup_ge_None_2; lia]. rewrite decide_False by lia. f_equal. lia.
  - rewrite chunk_lookup. destruct (decide (q < 16)%nat); [|done]. rewrite decide_True by lia. done.
Qed.

Lemma dents_splice dat k bs :
  length bs = 16%nat -> (length dat mod 16 = 0)%nat -> (k <= length dat / 16)%nat ->
  dents (splice dat (16 * Z.of_nat k) bs) =
    let e := (de_inum bs, dname (de_name bs)) in
    if decide (k < length dat / 16)%nat then <[k := e]> (dents dat) else dents dat ++ [e].
Proof.
  intros Hb Hm Hk. pose proof (Nat.div_mod_eq (length dat) 16) as Hdm.
  pose proof (splice_length dat (16 * Z.of_nat k) bs ltac:(lia)) as Hl. rewrite Hb in Hl.
  assert (Hn : (length (splice dat (16 * Z.of_nat k) bs) / 16 = if decide (k < length dat / 16) then length dat / 16 else S (length dat / 16))%nat).
  { destruct (decide _).
    - f_equal. lia.
    - replace (length (splice dat (16 * Z.of_nat k) bs)) with (S (length dat / 16) * 16)%nat by lia. by apply Nat.div_mul. }
  assert (He : forall i, ent (splice dat (16 * Z.of_nat k) bs) i = if decide (i = k) then (de_inum bs, dname (de_name bs)) else ent dat i).
  { intros i. unfold ent. rewrite chunk_splice by lia. by destruct (decide (i = k)). }
  apply list_eq. intros i. cbv zeta. destruct (decide (i < length (splice dat (16 * Z.of_nat k) bs) / 16)%nat) as [Hi|Hi].
  - rewrite dents_lookup, He by done. rewrite Hn in Hi. destruct (decide (k < length dat / 16)%nat).
    + rewrite list_lookup_insert. destruct (decide (i = k)) as [->|]; [by rewrite decide_True by (rewrite dents_length; lia)|].
      rewrite decide_False by lia. by rewrite dents_lookup.
    + destruct (decide (i = k)) as [->|]; [rewrite lookup_app_r by (rewrite dents_length; lia); by replace (k - length (dents dat))%nat with 0%nat by (rewrite dents_length; lia)|].
      rewrite lookup_app_l by (rewrite dents_length; lia). rewrite dents_lookup by lia. done.
  - rewrite (lookup_ge_None_2 (dents (splice _ _ _))) by (rewrite dents_length; lia). symmetry. apply lookup_ge_None_2. rewrite Hn in Hi.
    destruct (decide (k < length dat / 16)%nat); rewrite ?length_insert, ?length_app, dents_length; cbn [length]; lia.
Qed.

Lemma chunk_app a b k n : length a = (16 * n)%nat ->
  chunk (a ++ b) k = if decide (k < n)%nat then chunk a k else chunk b (k - n).
Proof.
  intros Hl. apply list_eq. intros q. rewrite chunk_lookup. destruct (decide (k < n)%nat); rewrite chunk_lookup; destruct (decide (q < 16)%nat); try done.
  - by rewrite lookup_app_l by lia.
  - rewrite lookup_app_r by lia. f_equal. lia.
Qed.

Lemma dents_app a b n : length a = (16 * n)%nat -> dents (a ++ b) = dents a ++ dents b.
Proof.
  intros Hl. assert (Ea : (length a / 16 = n)%nat) by (rewrite Hl, Nat.mul_comm; by apply Nat.div_mul).
  assert (El : (length (a ++ b) / 16 = n + length b / 16)%nat) by (rewrite length_app, Hl, Nat.mul_comm; by apply Nat.div_add_l).
  unfold dents. rewrite El, Ea, seq_app, fmap_app. apply (f_equal2 app).
  - apply list_fmap_ext. intros i k Hk. apply lookup_seq in Hk as [-> Hk]. unfold ent. by rewrite (chunk_app a b _ n), decide_True by (done || lia).
  - cbn [Nat.add]. rewrite <- (Nat.add_0_r n) at 1. rewrite <- fmap_add_seq, <- list_fmap_compose. apply list_fmap_ext. intros i k Hk.
    cbn. unfold ent. rewrite (chunk_app a b _ n), decide_False by (done || lia). by replace (n + k - n)%nat with k by lia.
Qed.

Lemma dents_one bs : length bs = 16%nat -> dents bs = [(de_inum bs, dname (de_name bs))].
Proof. intros H. unfold dents. rewrite H. cbn. unfold ent, chunk. cbn [Nat.mul]. rewrite drop_0, take_ge by lia. done. Qed.

(** Zeros are empty entries. *)
Lemma dents_zeros n nm : assoc nm (dents (replicate n 0)) = None.
Proof.
  unfold assoc. rewrite (proj2 (list_find_None _ _)); [done|]. apply Forall_forall. intros e He. apply list_elem_of_fmap in He as (k & -> & _).
  intros [H _]. apply H. unfold ent, chunk. cbn [fst]. rewrite drop_replicate, take_replicate. unfold de_inum, get16. by rewrite !nth_replicate_zero.
Qed.

Lemma assoc_app_None nm es fs : assoc nm fs = None -> assoc nm (es ++ fs) = assoc nm es.
Proof. intros H. induction es as [|x es IH]; cbn [app]; [done|]. rewrite !assoc_cons, IH. done. Qed.

Section Dir.
Context (me ds : Z) (sb : superblock).
Hypothesis G : geo sb ds.
Context (devread : Z -> option (nat -> Z -> kM fsst (Z * list Z))).
Context (devwrite : Z -> option (nat -> list Z -> Z -> kM fsst Z)).

Abbreviation at_file := (FsFile.at_file me ds sb).

(** The inode [p] in the cache entry [dp] is a directory with the bytes [dat]. *)
Record at_dir (s : fsst) (order : list nat) (dp : nat) (p : inode) (dat : list Z) : Prop := {
  ad_file : at_file s order dp p;
  ad_type : p.(i_d).(d_type) = T_DIR;
  ad_size : p.(i_d).(d_size) = Z.of_nat (length dat);
  ad_holds : fholds (contents s) p.(i_d) dat;
  ad_fits : fits dat;
  ad_whole : (length dat mod 16 = 0)%nat;
  ad_bytes : Forall is_u8 dat
}.

Lemma at_dir_step s s' order order' dp p dat :
  at_dir s order dp p dat -> at_file s' order' dp p -> (forall m, contents s' m = contents s m) -> at_dir s' order' dp p dat.
Proof. intros [A1 A2 A3 A4 A5 A6 A7] A E. split; try done. by apply (fholds_eq (contents s)). Qed.

Lemma not_dev : T_DIR <> T_DEV.
Proof. done. Qed.

(** One entry is read. *)
Lemma entry_read s order dp p dat k :
  at_dir s order dp p dat -> logged_n s < 30 -> (k < length dat / 16)%nat ->
  exists s' order', at_dir s' order' dp p dat /\ vstep s s' [] (contents s) 0 /\
    readi me devread dp (16 * Z.of_nat k) sizeof_de s = Ok ((16, chunk dat k), s').
Proof.
  intros A Hlog Hk. pose proof A as [A1 A2 A3 A4 A5 A6 A7]. unfold fits in A5.
  pose proof (Nat.div_mod_eq (length dat) 16) as Hdm.
  destruct (readi_run me ds sb G devread s order dp p dat (16 * Z.of_nat k) 16 A1 A4 A5 Hlog) as (s' & o' & A' & V & R);
    [by rewrite A2|done|lia|lia|].
  exists s', o'. split; [by apply (at_dir_step s s' order); [| |apply V]|]. split; [done|]. unfold sizeof_de. rewrite R.
  rewrite (proj2 (Z.ltb_ge _ _)) by lia. rewrite Z.min_l by lia. by replace (Z.to_nat (16 * Z.of_nat k)) with (16 * k)%nat by lia.
Qed.

Definition found (j : nat) (r : nat * (Z * list Z)) : Z * Z := (16 * Z.of_nat (j + r.1), r.2.1).

Lemma dirlookup_loop_run name fuel : forall s order dp p dat j,
  at_dir s order dp p dat -> logged_n s < 30 -> Forall is_u8 name -> (j <= length dat / 16)%nat -> (length dat / 16 - j < fuel)%nat ->
  exists s' order', at_dir s' order' dp p dat /\ vstep s s' [] (contents s) 0 /\
    dirlookup_loop me devread dp name (16 * Z.of_nat j) fuel s =
      Ok (found j <$> list_find (live (dname name)) (drop j (dents dat)), s').
Proof.
  induction fuel as [|fuel IH]; intros s order dp p dat j A Hlog Hn Hj Hf; [lia|]. cbn [dirlookup_loop].
  pose proof A as [A1 A2 A3 A4 A5 A6 A7]. unfold fits in A5. pose proof (Nat.div_mod_eq (length dat) 16) as Hdm.
  rewrite (kM_bind_run _ _ _ _ _ (geti_run s dp p (af_ip _ _ _ _ _ _ _ A1))), A3.
  destruct (decide (j = length dat / 16)%nat) as [->|Hne].
  { rewrite (proj2 (Z.ltb_ge _ _)) by lia. exists s, order. split; [done|]. split; [apply vstep_refl|].
    by rewrite drop_ge by (rewrite dents_length; lia). }
  rewrite (proj2 (Z.ltb_lt _ _)) by lia. destruct (entry_read s order dp p dat j A Hlog ltac:(lia)) as (s1 & o1 & Ad1 & V1 & R1).
  rewrite (kM_bind_run _ _ _ _ _ R1). cbn [fst snd]. change (negb (16 =? sizeof_de)) with false. cbv iota.
  rewrite dents_drop by lia. cbn [list_find]. unfold ent at 1.
  assert (Hu : u32 (16 * Z.of_nat j + sizeof_de) = 16 * Z.of_nat (S j)) by (unfold sizeof_de; rewrite u32_small; unfold is_u32; lia).
  assert (Hnext : ~ live (dname name) (ent dat j) -> exists s' order', at_dir s' order' dp p dat /\ vstep s s' [] (contents s) 0 /\
    dirlookup_loop me devread dp name (u32 (16 * Z.of_nat j + sizeof_de)) fuel s1 =
      Ok (found j <$> (prod_map S id <$> list_find (live (dname name)) (drop (S j) (dents dat))), s')).
  { intros Hd. destruct (IH s1 o1 dp p dat (S j) Ad1) as (s2 & o2 & A2' & V2 & R2); try done; try lia.
    { pose proof (vs_n _ _ _ _ _ V1). lia. }
    exists s2, o2. split; [done|]. split.
    - eapply vstep_weaken; [exact (vstep_trans _ _ _ _ _ _ _ _ V1 V2)|done| |lia]. intros m. apply V1.
    - rewrite Hu, R2. do 2 f_equal. destruct (list_find _ _) as [[i e]|]; [|done]. cbn. unfold found. cbn. do 3 f_equal. lia. }
  destruct (Z.eqb_spec (de_inum (chunk dat j)) 0) as [E0|E0].
  { rewrite decide_False by (intros [HH _]; done). apply Hnext. intros [HH _]. done. }
  assert (Hc : Forall is_u8 (de_name (chunk dat j))) by (by apply Forall_drop, chunk_u8).
  destruct (Z.eqb_spec (namecmp name (de_name (chunk dat j))) 0) as [E1|E1].
  - apply namecmp_eq in E1; [|done|done]. rewrite decide_True by (split; [done|by rewrite E1]).
    exists s1, o1. split; [done|]. split; [done|]. cbn. unfold found. cbn. by rewrite Nat.add_0_r.
  - assert (Hl : ~ live (dname name) (ent dat j)).
    { intros [_ HH]. apply E1. apply namecmp_eq; [done|done|]. symmetry. exact HH. }
    rewrite decide_False by done. by apply Hnext.
Qed.

Lemma dirlookup_run name s order dp p dat :
  at_dir s order dp p dat -> logged_n s < 30 -> Forall is_u8 name ->
  exists s' order', at_dir s' order' dp p dat /\ vstep s s' [] (contents s) 0 /\
    dirlookup me devread dp name s =
      match list_find (live (dname name)) (dents dat) with
      | None => Ok (None, s')
      | Some (k, e) => (ip ← iget 1 e.1; mret (Some (ip, 16 * Z.of_nat k))) s'
      end.
Proof.
  intros A Hlog Hn. pose proof (ad_fits _ _ _ _ _ A) as Hf. unfold fits in Hf.
  assert (Hz : Z.to_nat (Z.of_nat (length dat) / 16) = (length dat / 16)%nat) by (change 16 with (Z.of_nat 16) at 1; rewrite <- Nat2Z.inj_div; lia).
  destruct (dirlookup_loop_run name (dir_turns (Z.of_nat (length dat))) s order dp p dat 0 A Hlog Hn) as (s' & o' & A' & V & R).
  { lia. } { unfold dir_turns. rewrite Hz. lia. }
  exists s', o'. split; [done|]. split; [done|]. unfold dirlookup.
  rewrite (kM_bind_run _ _ _ _ _ (geti_run s dp p (af_ip _ _ _ _ _ _ _ (ad_file _ _ _ _ _ A)))).
  rewrite (ad_type _ _ _ _ _ A). change (negb (T_DIR =? T_DIR)) with false. cbv iota.
  rewrite (ad_size _ _ _ _ _ A). change (16 * Z.of_nat 0) with 0 in R. rewrite (kM_bind_run _ _ _ _ _ R), drop_0.
  rewrite (af_dev _ _ _ _ _ _ _ (ad_file _ _ _ _ _ A)). by destruct (list_find _ _) as [[k e]|].
Qed.

(** The place for a new entry. *)
Definition place (dat : list Z) : nat :=
  match list_find vacant_ent (dents dat) with Some (k, _) => k | None => (length dat / 16)%nat end.

Lemma dirlink_loop_run fuel : forall s order dp p dat j,
  at_dir s order dp p dat -> logged_n s < 30 -> (j <= length dat / 16)%nat -> (length dat / 16 - j < fuel)%nat ->
  exists s' order', at_dir s' order' dp p dat /\ vstep s s' [] (contents s) 0 /\
    dirlink_loop me devread dp (16 * Z.of_nat j) fuel s =
      Ok (16 * Z.of_nat (match list_find vacant_ent (drop j (dents dat)) with Some (k, _) => j + k | None => length dat / 16 end)%nat, s').
Proof.
  induction fuel as [|fuel IH]; intros s order dp p dat j A Hlog Hj Hf; [lia|]. cbn [dirlink_loop].
  pose proof A as [A1 A2 A3 A4 A5 A6 A7]. unfold fits in A5. pose proof (Nat.div_mod_eq (length dat) 16) as Hdm.
  rewrite (kM_bind_run _ _ _ _ _ (geti_run s dp p (af_ip _ _ _ _ _ _ _ A1))), A3.
  destruct (decide (j = length dat / 16)%nat) as [->|Hne].
  { rewrite (proj2 (Z.ltb_ge _ _)) by lia. exists s, order. split; [done|]. split; [apply vstep_refl|].
    by rewrite drop_ge by (rewrite dents_length; lia). }
  rewrite (proj2 (Z.ltb_lt _ _)) by lia. destruct (entry_read s order dp p dat j A Hlog ltac:(lia)) as (s1 & o1 & Ad1 & V1 & R1).
  rewrite (kM_bind_run _ _ _ _ _ R1). cbn [fst snd]. change (negb (16 =? sizeof_de)) with false. cbv iota.
  rewrite dents_drop by lia. cbn [list_find]. unfold ent at 1, vacant_ent at 1. cbn [fst].
  destruct (Z.eqb_spec (de_inum (chunk dat j)) 0) as [E0|E0].
  - rewrite decide_True by done. exists s1, o1. by rewrite Nat.add_0_r.
  - rewrite decide_False by done. destruct (IH s1 o1 dp p dat (S j) Ad1) as (s2 & o2 & A2' & V2 & R2); try lia.
    { pose proof (vs_n _ _ _ _ _ V1). lia. }
    exists s2, o2. split; [done|]. split.
    + eapply vstep_weaken; [exact (vstep_trans _ _ _ _ _ _ _ _ V1 V2)|done| |lia]. intros m. apply V1.
    + replace (u32 (16 * Z.of_nat j + sizeof_de)) with (16 * Z.of_nat (S j)) by (unfold sizeof_de; rewrite u32_small; unfold is_u32; lia).
      rewrite R2. do 2 f_equal. destruct (list_find _ _) as [[i e]|]; [|done]. cbn. f_equal. lia.
Qed.

Lemma place_range dat : (place dat <= length dat / 16)%nat.
Proof.
  unfold place. destruct (list_find vacant_ent (dents dat)) as [[k e]|] eqn:E; [|done].
  apply list_find_Some in E as (H & _). apply lookup_lt_Some in H. rewrite dents_length in H. lia.
Qed.

(** The map after [dirlink]. *)
Lemma dmap_linked dat name inum nm :
  (length dat mod 16 = 0)%nat -> 0 < inum < 65536 -> dmap dat (dname name) = None ->
  dmap (splice dat (16 * Z.of_nat (place dat)) (mk_dirent name inum)) nm = if decide (nm = dname name) then Some inum else dmap dat nm.
Proof.
  intros Hm Hi Hn. unfold dmap. rewrite dents_splice; [|apply mk_dirent_length|done|apply place_range].
  rewrite mk_dirent_inum, mk_dirent_name by lia. cbv zeta. unfold dmap in Hn. unfold place.
  destruct (list_find vacant_ent (dents dat)) as [[k e]|] eqn:E.
  - apply list_find_Some in E as (Hk & He & _). pose proof (lookup_lt_Some _ _ _ Hk) as Hlt. rewrite dents_length in Hlt.
    rewrite decide_True by done. by apply assoc_insert with e; [| |lia|].
  - rewrite decide_False by lia. rewrite assoc_app. cbn [fst]. destruct (decide (nm = dname name)) as [->|Hne].
    + rewrite Hn. rewrite decide_True; [done|]. split; [cbn; lia|done].
    + destruct (assoc nm (dents dat)) as [i|]; [done|]. rewrite decide_False; [done|]. intros [_ HH]. done.
Qed.

Abbreviation written := (FsContent.written me ds sb).

Lemma turns_entry k : turns (16 * Z.of_nat k) 16 = 1.
Proof. unfold turns. change (16 =? 0) with false. cbv iota. Z.to_euclidean_division_equations. lia. Qed.

Lemma dirlink_run name inum s order dp p dat :
  at_dir s order dp p dat -> FsContent.synced sb (contents s) p -> iblock_ok sb p.(i_inum) ->
  Forall is_u8 name -> 0 < inum < 65536 -> dmap dat (dname name) = None ->
  Z.of_nat (16 * place dat + 16) <= 71680 -> logged_n s + 8 <= sb.(sb_nlog) -> FsFile.free_room sb (contents s) 2 ->
  exists s1 s' order' d', (forall m, contents s1 m = contents s m) /\ dirlink me devread devwrite dp name inum s = Ok (0, s') /\
    let dat' := splice dat (16 * Z.of_nat (place dat)) (mk_dirent name inum) in
    written s1 s' order' dp p d' dat' /\ at_dir s' order' dp (with_d p d') dat'.
Proof.
  intros A Hsy Hib Hn Hi Hnone Hfit Hlog Hroom. pose proof G as [[G1 G2] _ _ _]. unfold LOGSIZE in G2.
  destruct (dirlookup_run name s order dp p dat A ltac:(lia) Hn) as (s1 & o1 & A1 & V1 & R1).
  unfold dmap, assoc in Hnone. destruct (list_find _ _) as [[? ?]|] eqn:El in Hnone; [done|]. rewrite El in R1.
  pose proof (vs_n _ _ _ _ _ V1) as N1.
  assert (Hz : Z.to_nat (Z.of_nat (length dat) / 16) = (length dat / 16)%nat) by (change 16 with (Z.of_nat 16) at 1; rewrite <- Nat2Z.inj_div; lia).
  destruct (dirlink_loop_run (dir_turns (Z.of_nat (length dat))) s1 o1 dp p dat 0 A1) as (s2 & o2 & A2 & V2 & R2); try lia.
  { unfold dir_turns. rewrite Hz. lia. }
  change (16 * Z.of_nat 0) with 0 in R2. rewrite drop_0 in R2. fold (place dat) in R2. pose proof (vs_n _ _ _ _ _ V2) as N2.
  assert (E2 : forall m, contents s2 m = contents s m) by (intros m; rewrite (vs_vw _ _ _ _ _ V2); apply V1).
  pose proof A2 as [B1 B2 B3 B4 B5 B6 B7]. pose proof (place_range dat) as Hp. pose proof (Nat.div_mod_eq (length dat) 16) as Hdm.
  pose proof (writei_run me ds sb G devwrite s2 o2 dp p dat (mk_dirent name inum) (16 * Z.of_nat (place dat)) B1) as W.
  rewrite mk_dirent_length, turns_entry in W.
  destruct (Z.leb_spec (16 * Z.of_nat (place dat)) (Z.of_nat (length dat))) as [_|]; [|lia].
  destruct (Z.leb_spec (16 * Z.of_nat (place dat) + Z.of_nat 16) 71680) as [_|]; [|lia].
  destruct W as (s' & o' & d' & R3 & W); try done; try lia.
  { by rewrite B2. } { unfold FsContent.synced in *. by rewrite E2. } { by apply mk_dirent_u8. }
  { by apply (free_room_eq sb (contents s)). }
  exists s2, s', o', d'. split; [done|]. split.
  - unfold dirlink. rewrite (kM_bind_run _ _ _ _ _ R1).
    rewrite (kM_bind_run _ _ _ _ _ (geti_run s1 dp p (af_ip _ _ _ _ _ _ _ (ad_file _ _ _ _ _ A1)))), (ad_size _ _ _ _ _ A1).
    rewrite (kM_bind_run _ _ _ _ _ R2). change sizeof_de with (Z.of_nat 16). by rewrite (kM_bind_run _ _ _ _ _ R3).
  - cbv zeta. split; [done|]. pose proof (splice_length dat (16 * Z.of_nat (place dat)) (mk_dirent name inum) ltac:(lia)) as Hl.
    rewrite mk_dirent_length in Hl. destruct W as [W1 W2 [W3 _] W4 _ _ _ _]. split; try done.
    + cbn [i_d with_d]. by rewrite W3.
    + unfold fits in *. lia.
    + destruct (Z.max_spec (Z.of_nat (length dat)) (16 * Z.of_nat (place dat) + Z.of_nat 16)) as [[_ Em]|[_ Em]]; rewrite Em in Hl.
      * replace (length (splice dat _ _)) with (S (place dat) * 16)%nat by lia. by apply Nat.Div0.mod_mul.
      * by replace (length (splice dat _ _)) with (length dat) by lia.
    + unfold splice. apply Forall_app. split; [by apply Forall_take|]. apply Forall_app. split; [by apply mk_dirent_u8|by apply Forall_drop].
Qed.

End Dir.
