(* ===== verification/FsName.v ===== *)
(** * Path names to inodes

    The inode cache under [iget], [ilock], [iunlock] and [iput], and on top of
    it [namex]: walking a path through the directories on disk ends at the
    inode that the path names, and takes exactly one reference, to it. *)

From S2P Require Import Prelude CString Locks Bio BioSpec BioView Layout Log LogSpec LogCrash LogTx Fs FsBits FsInode FsSpec FsAlloc FsFile FsContent FsPath FsDir.

Section Name.
Context (me ds : Z) (sb : superblock).
Hypothesis G : geo sb ds.
Context (devread : Z -> option (nat -> Z -> kM fsst (Z * list Z))).
Context (devwrite : Z -> option (nat -> list Z -> Z -> kM fsst Z)).

Abbreviation fok := (FsSpec.fok me ds sb).
Abbreviation iblock_ok := (FsContent.iblock_ok sb).

(** ** The inode cache *)

(** The inode [i] on a disk with the contents [V]. *)
Definition dino (V : Z -> block) (i : Z) : dinode := decode_dinode (V (IBLOCK i sb)) (ioff i).

(** An inode in use, with a link to it. *)
Record good (V : Z -> block) (i : Z) : Prop := {
  gd_block : iblock_ok i;
  gd_num : 0 < i < 65536;
  gd_type : (dino V i).(d_type) <> 0;
  gd_link : (dino V i).(d_nlink) <> 0
}.

(** An entry of the cache, locked by the running process or not locked. *)
Record entry_ok (V : Z -> block) (locked : bool) (p : inode) : Prop := {
  en_lock : p.(i_lock).(sl_locked) = locked /\ (locked = true -> p.(i_lock).(sl_pid) = me);
  en_ref : 0 <= p.(i_ref);
  en_use : 0 < p.(i_ref) -> p.(i_dev) = 1 /\ good V p.(i_inum) /\ (p.(i_valid) = true -> p.(i_d) = dino V p.(i_inum))
}.

Definition is_locked (lk : option nat) (i : nat) : bool := bool_decide (lk = Some i).

(** In a transaction, no buffer held, and only the entry [lk] locked. *)
Record idle (s : fsst) (order : list nat) (lk : option nat) : Prop := {
  id_fok : fok s order [];
  id_meta : FsFile.meta_all sb (contents s);
  id_cache : forall i p, s.(icache) !! i = Some p -> entry_ok (contents s) (is_locked lk i) p
}.

(** Neither the contents nor the log have changed. *)
Record calm (s s' : fsst) : Prop := {
  cm_vw : forall m, contents s' m = contents s m;
  cm_log : logged_n s' = logged_n s
}.

#[local] Instance calm_preorder : PreOrder calm.
Proof. split; [by intros s; split|]. intros s1 s2 s3 [A1 A2] [B1 B2]. split; [intros m; by rewrite B1|congruence]. Qed.

Lemma dino_eq V V' i : (forall m, V' m = V m) -> dino V' i = dino V i.
Proof. intros E. unfold dino. by rewrite E. Qed.

Lemma good_eq V V' i : (forall m, V' m = V m) -> good V i -> good V' i.
Proof. intros E [H1 H2 H3 H4]. split; rewrite ?(dino_eq V V') by done; done. Qed.

Lemma entry_eq V V' l p : (forall m, V' m = V m) -> entry_ok V l p -> entry_ok V' l p.
Proof.
  intros E [H1 H2 H3]. split; [done|done|]. intros Hr. destruct (H3 Hr) as (A & B & C). split_and!; [done|by apply (good_eq V)|].
  by rewrite (dino_eq V V').
Qed.

(** One entry of the cache changes, and perhaps the state of the buffers. *)
Lemma idle_set s s' order order' lk lk' ip p p' :
  idle s order lk -> calm s s' -> fok s' order' [] -> s.(icache) !! ip = Some p -> s'.(icache) = <[ip := p']> s.(icache) ->
  entry_ok (contents s) (is_locked lk' ip) p' -> (forall i, i <> ip -> is_locked lk' i = is_locked lk i) -> idle s' order' lk'.
Proof.
  intros [I1 I2 I3] [C1 C2] F Hp Hic He Hl. split; [done|by apply (meta_all_eq sb (contents s))|].
  intros i q Hq. apply (entry_eq (contents s)); [done|]. rewrite Hic in Hq. destruct (decide (i = ip)) as [->|Hne].
  - rewrite list_lookup_insert_eq in Hq by (by eapply lookup_lt_Some). by injection Hq as <-.
  - rewrite list_lookup_insert_ne in Hq by done. rewrite Hl by done. by apply I3.
Qed.

Lemma alter_is_insert {A} (f : A -> A) (l : list A) i x : l !! i = Some x -> alter f i l = <[i := f x]> l.
Proof.
  intros Hx. apply list_eq. intros j. rewrite list_lookup_alter, list_lookup_insert. destruct (decide (i = j)) as [<-|].
  - rewrite decide_True by (split; [done|by eapply lookup_lt_Some]). by rewrite Hx.
  - by rewrite decide_False by (intros [? _]; done).
Qed.

(** ** Taking a reference *)

Lemma iget_scan_spec l : forall j e dv inum,
  match iget_scan l j e dv inum with
  | inl i => exists k p, i = (j + k)%nat /\ l !! k = Some p /\ 0 < p.(i_ref) /\ p.(i_dev) = dv /\ p.(i_inum) = inum
  | inr (Some i) => e = Some i \/ exists k p, i = (j + k)%nat /\ l !! k = Some p /\ p.(i_ref) = 0
  | inr None => e = None /\ forall k p, l !! k = Some p -> p.(i_ref) <> 0
  end.
Proof.
  induction l as [|p l IH]; intros j e dv inum; cbn [iget_scan].
  - destruct e as [i|]; [by left|by split].
  - destruct ((0 <? p.(i_ref)) && (p.(i_dev) =? dv) && (p.(i_inum) =? inum)) eqn:E.
    + apply andb_true_iff in E as [[E1%Z.ltb_lt E2%Z.eqb_eq]%andb_true_iff E3%Z.eqb_eq]. exists 0%nat, p. rewrite Nat.add_0_r. done.
    + specialize (IH (S j) (match e with None => if p.(i_ref) =? 0 then Some j else None | Some e => Some e end) dv inum).
      destruct (iget_scan _ _ _ _ _) as [i|[i|]].
      * destruct IH as (k & q & -> & H). exists (S k), q. by rewrite Nat.add_succ_r.
      * destruct IH as [He|(k & q & -> & H)]; [|right; exists (S k), q; by rewrite Nat.add_succ_r].
        destruct e as [e|]; [by left|]. destruct (Z.eqb_spec p.(i_ref) 0); [|done]. injection He as <-. right. exists 0%nat, p.
        by rewrite Nat.add_0_r.
      * destruct IH as [He H]. destruct e as [e|]; [done|]. destruct (Z.eqb_spec p.(i_ref) 0); [done|]. split; [done|].
        intros [|k] q Hq; [by injection Hq as <-|by apply (H k)].
Qed.

Lemma iget_scan_first l : forall j e dv inum k p,
  l !! k = Some p -> 0 < p.(i_ref) -> p.(i_dev) = dv -> p.(i_inum) = inum -> exists i, iget_scan l j e dv inum = inl i.
Proof.
  induction l as [|x l IH]; intros j e dv inum k p Hk H1 H2 H3; [done|]. cbn [iget_scan].
  destruct ((0 <? x.(i_ref)) && (x.(i_dev) =? dv) && (x.(i_inum) =? inum)) eqn:E; [by exists j|].
  destruct k as [|k]; [|by eapply IH]. injection Hk as ->. rewrite H2, H3, !Z.eqb_refl, (proj2 (Z.ltb_lt 0 _) H1) in E. done.
Qed.

Lemma iget_run s order lk inum e q :
  idle s order lk -> good (contents s) inum -> s.(icache) !! e = Some q -> q.(i_ref) = 0 ->
  (forall i p, s.(icache) !! i = Some p -> p.(i_ref) < 2 ^ 31 - 1) ->
  exists ip p p' s', iget 1 inum s = Ok (ip, s') /\ idle s' order lk /\ calm s s' /\
    s.(icache) !! ip = Some p /\ s'.(icache) = <[ip := p']> s.(icache) /\
    p'.(i_ref) = p.(i_ref) + 1 /\ p'.(i_dev) = 1 /\ p'.(i_inum) = inum /\ (0 < p.(i_ref) -> p.(i_dev) = 1 /\ p.(i_inum) = inum).
Proof.
  intros I Hg He Hq Hb. unfold iget. erewrite kM_bind_run by reflexivity.
  pose proof (iget_scan_spec s.(icache) 0 None 1 inum) as Sc.
  destruct (iget_scan s.(icache) 0 None 1 inum) as [i|[i|]].
  - destruct Sc as (k & p & -> & Hp & H1 & H2 & H3). cbn [Nat.add]. pose proof (id_cache _ _ _ I k p Hp) as [E1 E2 E3].
    exists k, p, (with_ref p (p.(i_ref) + 1)), (upd_inode k (fun p => with_ref p (s32 (p.(i_ref) + 1))) s).
    assert (Ha : (upd_inode k (fun p => with_ref p (s32 (p.(i_ref) + 1))) s).(icache) = <[k := with_ref p (p.(i_ref) + 1)]> s.(icache)).
    { cbn [upd_inode icache]. rewrite (alter_is_insert _ _ _ _ Hp), s32_small; [done|]. specialize (Hb k p Hp). unfold is_s32. lia. }
    split_and!; try done. apply (idle_set s _ order order lk lk k p (with_ref p (p.(i_ref) + 1))); try done.
    { apply fok_icache, I. }
    split; cbn [with_ref i_lock i_ref i_dev i_inum i_valid i_d]; [done|lia|]. intros _. by apply E3.
  - destruct Sc as [?|(k & p & -> & Hp & H1)]; [done|]. cbn [Nat.add]. pose proof (id_cache _ _ _ I k p Hp) as [E1 E2 E3].
    set (p' := mk_inode 1 inum 1 p.(i_lock) false p.(i_d)).
    exists k, p, p', (upd_inode k (fun p => mk_inode 1 inum 1 p.(i_lock) false p.(i_d)) s).
    assert (Ha : (upd_inode k (fun p => mk_inode 1 inum 1 p.(i_lock) false p.(i_d)) s).(icache) = <[k := p']> s.(icache)).
    { cbn [upd_inode icache]. by rewrite (alter_is_insert _ _ _ _ Hp). }
    split_and!; try done; try (cbn; lia). apply (idle_set s _ order order lk lk k p p'); try done.
    apply fok_icache, I.
  - destruct Sc as [_ Sc]. by destruct (Sc e q He).
Qed.

(** ** Locking *)

(** [ilock] of an inode that is not in the cache reads it from its block. *)
Lemma ilock_load s order ip p :
  fok s order [] -> s.(icache) !! ip = Some p -> p.(i_dev) = 1 -> 1 <= p.(i_ref) ->
  p.(i_lock).(sl_locked) = false -> p.(i_valid) = false -> iblock_ok p.(i_inum) -> logged_n s < 30 ->
  (dino (contents s) p.(i_inum)).(d_type) <> 0 ->
  exists s' order', ilock me ip s = Ok (tt, s') /\ fok s' order' [] /\ calm s s' /\
    s'.(icache) = <[ip := mk_inode 1 p.(i_inum) p.(i_ref) (mk_sleeplock true me) true (dino (contents s) p.(i_inum))]> s.(icache).
Proof.
  intros F Hp Hdev Href Hlk Hval Hi Hlog Hty. set (d := dino (contents s) p.(i_inum)) in *.
  unfold ilock. rewrite (kM_bind_run _ _ _ _ _ (geti_run s ip p Hp)).
  destruct (Z.ltb_spec p.(i_ref) 1); [lia|]. unfold acquiresleep. rewrite Hlk, Hval. cbn [negb].
  erewrite kM_bind_run by reflexivity. set (f1 := fun q : inode => with_ilock q (mk_sleeplock true me)).
  assert (F1 : fok (upd_inode ip f1 s) order []) by by apply fok_icache.
  destruct (fk_sb _ _ _ _ _ _ F) as [Esb _].
  assert (Rsb : getsb (upd_inode ip f1 s) = Ok (sb, upd_inode ip f1 s)) by (unfold getsb; cbn; by rewrite Esb).
  rewrite (kM_bind_run _ _ _ _ _ Rsb), Hdev. set (ib := IBLOCK p.(i_inum) sb) in *. pose proof (gs_range ds sb G) as [Hg1 Hg2].
  assert (Hib : FsSpec.gs sb <= ib < FsAlloc.gend sb) by apply Hi.
  destruct (read_fs me ds sb _ order [] ib F1 ltac:(lia) (unheld_none _ ib)) as (bp & s2 & x & R2 & O2 & V2 & _).
  { change (logged_n (upd_inode ip f1 s)) with (logged_n s). simpl. lia. }
  rewrite (kM_bind_run _ _ _ _ _ R2), (kM_bind_run _ _ _ _ _ (getb_fs me ds sb _ _ _ _ _ _ O2)).
  pose proof (opened_data _ _ _ _ _ _ _ _ _ O2) as Hx. rewrite (vs_vw _ _ _ _ _ V2) in Hx. rewrite Hx.
  change (contents (upd_inode ip f1 s)) with (contents s) in *. change (decode_dinode (contents s ib) (ioff p.(i_inum))) with d.
  erewrite kM_bind_run by reflexivity. set (f2 := fun q : inode => with_d q d).
  assert (O3 : opened me ds sb (upd_inode ip f2 s2) order [] bp ib x).
  { destruct O2 as [Q1 Q2 Q3]. split; [by apply fok_icache|done|done]. }
  destruct (drop_fs me ds sb _ order [] bp ib x O3) as (s4 & o4 & R4 & F4 & V4).
  rewrite (kM_bind_run _ _ _ _ _ R4). erewrite kM_bind_run by reflexivity.
  set (f3 := fun q : inode => with_valid q true).
  assert (Ic : (upd_inode ip f3 s4).(icache) = <[ip := mk_inode 1 p.(i_inum) p.(i_ref) (mk_sleeplock true me) true d]> s.(icache)).
  { cbn [upd_inode icache]. rewrite (proj1 (vs_rest _ _ _ _ _ V4)). cbn [upd_inode icache].
    rewrite (proj1 (vs_rest _ _ _ _ _ V2)). cbn [upd_inode icache]. rewrite !list_alter_alter_eq, (alter_is_insert _ _ _ _ Hp).
    unfold compose, f1, f2, f3, with_valid, with_d, with_ilock. cbn [i_dev i_inum i_ref i_lock i_valid i_d]. by rewrite Hdev. }
  erewrite kM_bind_run; [|apply geti_run; rewrite Ic; apply list_lookup_insert_eq; by eapply lookup_lt_Some]. cbn [i_d].
  destruct (Z.eqb_spec d.(d_type) 0); [done|]. exists (upd_inode ip f3 s4), o4. split; [done|]. split; [by apply fok_icache|].
  split; [|done]. pose proof (vs_n _ _ _ _ _ V4) as N4. pose proof (vs_n _ _ _ _ _ V2) as N2. split.
  - intros m. change (contents (upd_inode ip f3 s4) m) with (contents s4 m). rewrite (vs_vw _ _ _ _ _ V4). apply V2.
  - unfold logged_n in *. cbn [upd_inode lst] in *. lia.
Qed.

Lemma is_locked_ne ip i : i <> ip -> is_locked (Some ip) i = is_locked None i.
Proof. intros Hne. unfold is_locked. rewrite !bool_decide_eq_false_2; congruence. Qed.

Lemma is_locked_eq ip : is_locked (Some ip) ip = true.
Proof. unfold is_locked. by apply bool_decide_eq_true_2. Qed.

(** The entry of a locked inode. *)
Definition locked (V : Z -> block) (p : inode) : inode :=
  mk_inode 1 p.(i_inum) p.(i_ref) (mk_sleeplock true me) true (dino V p.(i_inum)).

Lemma ilock_idle s order ip p :
  idle s order None -> s.(icache) !! ip = Some p -> 0 < p.(i_ref) -> logged_n s < 30 ->
  exists s' order', ilock me ip s = Ok (tt, s') /\ idle s' order' (Some ip) /\ calm s s' /\
    s'.(icache) = <[ip := locked (contents s) p]> s.(icache).
Proof.
  intros I Hp Hr Hlog. pose proof (id_cache _ _ _ I ip p Hp) as [[E1 _] E2 E3]. destruct (E3 Hr) as (Hdev & Hg & Hv).
  assert (He : entry_ok (contents s) (is_locked (Some ip) ip) (locked (contents s) p)) by (rewrite is_locked_eq; by split).
  destruct p.(i_valid) eqn:Ev.
  - exists (upd_inode ip (fun q => with_ilock q (mk_sleeplock true me)) s), order.
    assert (Ic : (upd_inode ip (fun q => with_ilock q (mk_sleeplock true me)) s).(icache) = <[ip := locked (contents s) p]> s.(icache)).
    { cbn [upd_inode icache]. rewrite (alter_is_insert _ _ _ _ Hp). unfold locked, with_ilock. by rewrite Hdev, Ev, (Hv eq_refl). }
    split_and!; try done.
    + unfold ilock. rewrite (kM_bind_run _ _ _ _ _ (geti_run s ip p Hp)). destruct (Z.ltb_spec p.(i_ref) 1); [lia|].
      unfold acquiresleep. by rewrite E1, Ev.
    + apply (idle_set s _ order order None (Some ip) ip p (locked (contents s) p)); try done; [apply fok_icache, I|apply is_locked_ne].
  - destruct (ilock_load s order ip p) as (s' & o' & R & F & C & Ic); try done; try lia; try apply I; try apply Hg.
    exists s', o'. split_and!; try done.
    apply (idle_set s s' order o' None (Some ip) ip p (locked (contents s) p)); try done. apply is_locked_ne.
Qed.

(** The entry of an inode that was unlocked and given back. *)
Definition released (p : inode) (c : Z) : inode :=
  mk_inode p.(i_dev) p.(i_inum) (p.(i_ref) - c) (mk_sleeplock false 0) p.(i_valid) p.(i_d).

Lemma released_ok V p c l : entry_ok V l p -> 0 <= p.(i_ref) - c -> 0 <= c -> entry_ok V false (released p c).
Proof.
  intros [E1 E2 E3] Hr Hc. split; cbn [released i_lock i_ref i_dev i_inum i_valid i_d]; [done|done|]. intros H. apply E3. lia.
Qed.

Lemma iunlock_idle s order ip p :
  idle s order (Some ip) -> s.(icache) !! ip = Some p -> 0 < p.(i_ref) ->
  exists s', iunlock me ip s = Ok (tt, s') /\ idle s' order None /\ calm s s' /\ s'.(icache) = <[ip := released p 0]> s.(icache).
Proof.
  intros I Hp Hr. pose proof (id_cache _ _ _ I ip p Hp) as He. rewrite is_locked_eq in He. pose proof He as [[E1 E2] _ _].
  exists (upd_inode ip (fun p => with_ilock p (releasesleep p.(i_lock))) s).
  assert (Ic : (upd_inode ip (fun p => with_ilock p (releasesleep p.(i_lock))) s).(icache) = <[ip := released p 0]> s.(icache)).
  { cbn [upd_inode icache]. rewrite (alter_is_insert _ _ _ _ Hp). unfold released. by rewrite Z.sub_0_r. }
  split_and!; try done.
  - unfold iunlock. rewrite (kM_bind_run _ _ _ _ _ (geti_run s ip p Hp)). unfold holdingsleep.
    rewrite E1, E2, Z.eqb_refl by done. destruct (Z.ltb_spec p.(i_ref) 1); [lia|done].
  - apply (idle_set s _ order order (Some ip) None ip p (released p 0)); try done; [apply fok_icache, I| |].
    + eapply released_ok; [exact He|lia|lia].
    + intros i Hne. symmetry. by apply is_locked_ne.
Qed.

Lemma iput_idle s order lk ip p :
  idle s order lk -> lk <> Some ip -> s.(icache) !! ip = Some p -> 0 < p.(i_ref) < 2 ^ 31 ->
  exists s', iput me ip s = Ok (tt, s') /\ idle s' order lk /\ calm s s' /\ s'.(icache) = <[ip := released p 1]> s.(icache).
Proof.
  intros I Hlk Hp Hr. pose proof (id_cache _ _ _ I ip p Hp) as He. assert (El : is_locked lk ip = false) by (by apply bool_decide_eq_false_2).
  rewrite El in He. pose proof He as [[E1 _] E2 E3]. destruct (E3 (proj1 Hr)) as (Hdev & Hg & Hv).
  assert (Hno : p.(i_valid) && (p.(i_d).(d_nlink) =? 0) && (p.(i_ref) =? 1) = false).
  { destruct p.(i_valid); [|done]. rewrite Hv by done. by rewrite (proj2 (Z.eqb_neq _ _) (gd_link _ _ Hg)). }
  eexists. unfold iput. rewrite (kM_bind_run _ _ _ _ _ (geti_run s ip p Hp)). unfold acquiresleep. rewrite E1, Hno.
  split; [reflexivity|]. match goal with |- idle ?t _ _ /\ _ => assert (Ic : t.(icache) = <[ip := released p 1]> s.(icache)) end.
  { cbn [upd_inode icache]. rewrite !list_alter_alter_eq, (alter_is_insert _ _ _ _ Hp). unfold compose, with_ref, with_ilock, released.
    cbn [i_dev i_inum i_ref i_lock i_valid i_d]. rewrite s32_small by (unfold is_s32; lia). done. }
  split_and!; try done. apply (idle_set s _ order order lk lk ip p (released p 1)); try done; [do 3 apply fok_icache; apply I|].
  rewrite El. eapply released_ok; [exact He|lia|lia].
Qed.

Lemma iunlockput_idle s order ip p :
  idle s order (Some ip) -> s.(icache) !! ip = Some p -> 0 < p.(i_ref) < 2 ^ 31 ->
  exists s', iunlockput me ip s = Ok (tt, s') /\ idle s' order None /\ calm s s' /\ s'.(icache) = <[ip := released p 1]> s.(icache).
Proof.
  intros I Hp Hr. destruct (iunlock_idle s order ip p I Hp ltac:(lia)) as (s1 & R1 & I1 & C1 & Ic1).
  pose proof (lookup_lt_Some _ _ _ Hp) as Hlt.
  destruct (iput_idle s1 order None ip (released p 0) I1 ltac:(done)) as (s2 & R2 & I2 & C2 & Ic2).
  { rewrite Ic1. by apply list_lookup_insert_eq. } { cbn [released i_ref]. lia. }
  exists s2. split_and!; [|done|by transitivity s1|].
  - unfold iunlockput. by rewrite (kM_bind_run _ _ _ _ _ R1).
  - rewrite Ic2, Ic1, list_insert_insert_eq. unfold released. cbn [i_dev i_inum i_ref i_valid i_d]. by rewrite Z.sub_0_r.
Qed.

(** ** References *)

Definition cnt (i : nat) (l : list nat) : Z := Z.of_nat (count_occ Nat.eq_dec l i).

(** The cache of [s] is that of [s0] with one more reference for each element
    of [l], and the entries in use are where they were. *)
Definition held (s0 s : fsst) (l : list nat) : Prop :=
  forall i p0, s0.(icache) !! i = Some p0 ->
    exists p, s.(icache) !! i = Some p /\ p.(i_ref) = p0.(i_ref) + cnt i l /\
      (0 < p0.(i_ref) -> p.(i_dev) = p0.(i_dev) /\ p.(i_inum) = p0.(i_inum)).

Lemma held_refl s : held s s [].
Proof. intros i p0 Hp. exists p0. split_and!; [done|unfold cnt; cbn [count_occ]; lia|done]. Qed.

Lemma held_same s0 s s' l : held s0 s l -> s'.(icache) = s.(icache) -> held s0 s' l.
Proof. intros H E i p0 Hp. rewrite E. by apply H. Qed.

Lemma held_set s0 s s' l l' ip p p' c :
  held s0 s l -> s.(icache) !! ip = Some p -> s'.(icache) = <[ip := p']> s.(icache) -> p'.(i_ref) = p.(i_ref) + c ->
  (0 < p.(i_ref) -> p'.(i_dev) = p.(i_dev) /\ p'.(i_inum) = p.(i_inum)) ->
  (forall i, cnt i l' = cnt i l + (if decide (i = ip) then c else 0)) -> held s0 s' l'.
Proof.
  intros H Hp E Hr Hk Hc i p0 Hp0. destruct (H i p0 Hp0) as (q & Hq & Rq & Kq). rewrite E, Hc. destruct (decide (i = ip)) as [->|Hne].
  - rewrite Hp in Hq. injection Hq as <-. exists p'. rewrite list_lookup_insert_eq by (by eapply lookup_lt_Some). split_and!; [done|lia|].
    intros H0. destruct (Kq H0) as [K1 K2]. assert (0 < p.(i_ref)) by (unfold cnt in Rq; lia). destruct (Hk ltac:(done)). split; congruence.
  - exists q. rewrite list_lookup_insert_ne by done. split_and!; [done|lia|done].
Qed.

Lemma cnt_cons i x l : cnt i (x :: l) = cnt i l + (if decide (i = x) then 1 else 0).
Proof.
  unfold cnt. destruct (decide (i = x)) as [->|Hne]; [rewrite count_occ_cons_eq by done|rewrite count_occ_cons_neq by congruence]; lia.
Qed.

(** There is room in the cache: two free entries, and counts that can grow. *)
Record roomy (s : fsst) : Prop := {
  ro_free : exists e1 e2 q1 q2, e1 <> e2 /\ s.(icache) !! e1 = Some q1 /\ q1.(i_ref) = 0 /\ s.(icache) !! e2 = Some q2 /\ q2.(i_ref) = 0;
  ro_count : forall i p, s.(icache) !! i = Some p -> 0 <= p.(i_ref) < 2 ^ 31 - 3
}.

Lemma roomy_free s0 s l : roomy s0 -> held s0 s l -> (length l <= 1)%nat -> exists e q, s.(icache) !! e = Some q /\ q.(i_ref) = 0.
Proof.
  intros [(e1 & e2 & q1 & q2 & Hne & H1 & R1 & H2 & R2) _] H Hl.
  assert (Hex : exists e q, s0.(icache) !! e = Some q /\ q.(i_ref) = 0 /\ cnt e l = 0).
  { destruct l as [|x [|y l]]; [by exists e1, q1| |cbn in Hl; lia]. destruct (decide (e1 = x)) as [->|].
    - exists e2, q2. rewrite cnt_cons, decide_False by done. done.
    - exists e1, q1. rewrite cnt_cons, decide_False by done. done. }
  destruct Hex as (e & q & Hq & Rq & Cq). destruct (H e q Hq) as (p & Hp & Rp & _). exists e, p. split; [done|]. lia.
Qed.

(** A state on the way, from [s0], with the references [l] taken. *)
Record stage (s0 s : fsst) (order : list nat) (lk : option nat) (l : list nat) : Prop := {
  sg_idle : idle s order lk;
  sg_calm : calm s0 s;
  sg_held : held s0 s l;
  sg_len : length s.(icache) = length s0.(icache)
}.

Lemma stage_ref s0 s order lk l i p :
  roomy s0 -> stage s0 s order lk l -> (length l <= 2)%nat -> s.(icache) !! i = Some p -> cnt i l <= p.(i_ref) < 2 ^ 31 - 1.
Proof.
  intros [_ Hb] [_ _ H Hlen] Hl Hp. pose proof (lookup_lt_Some _ _ _ Hp) as Hi. rewrite Hlen in Hi.
  apply lookup_lt_is_Some_2 in Hi as [p0 Hp0]. destruct (H i p0 Hp0) as (q & Hq & Rq & _). rewrite Hp in Hq. injection Hq as <-.
  specialize (Hb i p0 Hp0). pose proof (count_occ_bound Nat.eq_dec i l). unfold cnt in *. lia.
Qed.

Lemma stage_set s0 s s' order order' lk lk' l l' ip p p' c :
  stage s0 s order lk l -> idle s' order' lk' -> calm s s' -> s.(icache) !! ip = Some p -> s'.(icache) = <[ip := p']> s.(icache) ->
  p'.(i_ref) = p.(i_ref) + c -> (0 < p.(i_ref) -> p'.(i_dev) = p.(i_dev) /\ p'.(i_inum) = p.(i_inum)) ->
  (forall i, cnt i l' = cnt i l + (if decide (i = ip) then c else 0)) -> stage s0 s' order' lk' l'.
Proof.
  intros [S1 S2 S3 S4] I C Hp E Hr Hk Hc. split; [done|by transitivity s|by eapply held_set|]. by rewrite E, length_insert.
Qed.

Lemma stage_lock s0 s order ip p l :
  roomy s0 -> stage s0 s order None (ip :: l) -> (length l <= 1)%nat -> s.(icache) !! ip = Some p -> logged_n s0 < 30 ->
  exists s' order', ilock me ip s = Ok (tt, s') /\ stage s0 s' order' (Some ip) (ip :: l) /\
    s'.(icache) !! ip = Some (locked (contents s') p).
Proof.
  intros Hro S Hl Hp Hlog. pose proof (stage_ref _ _ _ _ _ _ _ Hro S ltac:(cbn; lia) Hp) as Hr. rewrite cnt_cons, decide_True in Hr by done.
  assert (Hc : 0 <= cnt ip l) by (unfold cnt; lia).
  destruct (ilock_idle s order ip p (sg_idle _ _ _ _ _ S) Hp) as (s' & o' & R & I & C & Ic).
  { lia. } { by rewrite (cm_log _ _ (sg_calm _ _ _ _ _ S)). }
  assert (Hu : 0 < p.(i_ref)) by lia. destruct (en_use _ _ _ (id_cache _ _ _ (sg_idle _ _ _ _ _ S) ip p Hp) Hu) as [Hdev _].
  exists s', o'. split_and!; [done| |].
  - apply (stage_set s0 s s' order o' None (Some ip) (ip :: l) (ip :: l) ip p (locked (contents s) p) 0); try done.
    + cbn [locked i_ref]. lia.
    + intros i. destruct (decide (i = ip)); lia.
  - rewrite Ic, list_lookup_insert_eq by (by eapply lookup_lt_Some). unfold locked. by rewrite (dino_eq (contents s) (contents s')) by apply C.
Qed.

Lemma stage_get s0 s order lk l inum :
  roomy s0 -> stage s0 s order lk l -> (length l <= 1)%nat -> good (contents s0) inum ->
  exists nx s' p, iget 1 inum s = Ok (nx, s') /\ stage s0 s' order lk (nx :: l) /\ s'.(icache) !! nx = Some p /\ p.(i_inum) = inum.
Proof.
  intros Hro S Hl Hg. pose proof S as [S1 S2 S3 S4]. destruct (roomy_free s0 s l Hro S3 Hl) as (e & q & He & Hq).
  destruct (iget_run s order lk inum e q S1) as (nx & p & p' & s' & R & I & C & Hp & Ic & Hr & Hd & Hn & Hk); try done.
  { by apply (good_eq (contents s0)); [apply S2|]. }
  { intros i p Hp. eapply (stage_ref s0 s order lk l); [done|done|lia|done]. }
  exists nx, s', p'. split_and!; [done| | |done].
  - apply (stage_set s0 s s' order order lk lk l (nx :: l) nx p p' 1); try done.
    + intros H0. destruct (Hk H0). split; congruence.
    + intros i. apply cnt_cons.
  - rewrite Ic. apply list_lookup_insert_eq. by eapply lookup_lt_Some.
Qed.

Lemma stage_put s0 s order ip l l' p :
  roomy s0 -> stage s0 s order (Some ip) l -> (length l <= 2)%nat -> s.(icache) !! ip = Some p ->
  (forall i, cnt i l' = cnt i l + (if decide (i = ip) then -1 else 0)) ->
  exists s', iunlockput me ip s = Ok (tt, s') /\ stage s0 s' order None l' /\ s'.(icache) = <[ip := released p 1]> s.(icache).
Proof.
  intros Hro S Hl Hp Hc. pose proof (stage_ref _ _ _ _ _ _ _ Hro S Hl Hp) as Hr. specialize (Hc ip) as Hip. rewrite decide_True in Hip by done.
  assert (0 <= cnt ip l') by (unfold cnt; lia).
  destruct (iunlockput_idle s order ip p (sg_idle _ _ _ _ _ S) Hp ltac:(lia)) as (s' & R & I & C & Ic).
  exists s'. split; [done|]. split; [|done]. by apply (stage_set s0 s s' order order (Some ip) None l l' ip p (released p 1) (-1)).
Qed.

(** ** Walking *)

(** The inode [i] is a directory with the bytes [dat]. *)
Record isdir (V : Z -> block) (i : Z) (dat : list Z) : Prop := {
  dr_type : (dino V i).(d_type) = T_DIR;
  dr_inv : FsFile.finv sb V (dino V i);
  dr_size : (dino V i).(d_size) = Z.of_nat (length dat);
  dr_holds : fholds V (dino V i) dat;
  dr_fits : fits dat;
  dr_whole : (length dat mod 16 = 0)%nat;
  dr_bytes : Forall is_u8 dat
}.

(** Where the names [cs] lead from the inode [i]; to the directory of the last
    name if [parent]. *)
Inductive walks (V : Z -> block) (parent : bool) : Z -> list (list Z) -> option Z -> Prop :=
| walks_end i : walks V parent i [] (if parent then None else Some i)
| walks_file i c cs : (dino V i).(d_type) <> T_DIR -> walks V parent i (c :: cs) None
| walks_parent i c : parent = true -> (dino V i).(d_type) = T_DIR -> walks V parent i [c] (Some i)
| walks_missing i dat c cs :
    parent = false \/ cs <> [] -> isdir V i dat -> dmap dat c = None -> walks V parent i (c :: cs) None
| walks_step i dat c cs j r :
    parent = false \/ cs <> [] -> isdir V i dat -> dmap dat c = Some j -> good V j -> walks V parent j cs r ->
    walks V parent i (c :: cs) r.

Lemma isdir_eq V V' i dat : (forall m, V' m = V m) -> isdir V i dat -> isdir V' i dat.
Proof.
  intros E [D1 D2 D3 D4 D5 D6 D7]. split; rewrite ?(dino_eq V V') by done; try done; [by apply (finv_eq sb V)|by apply (fholds_eq V)].
Qed.

Lemma walks_eq V V' parent i cs r : (forall m, V' m = V m) -> walks V parent i cs r -> walks V' parent i cs r.
Proof.
  intros E. induction 1; [constructor|..].
  - apply walks_file. by rewrite (dino_eq V V').
  - apply walks_parent; [done|]. by rewrite (dino_eq V V').
  - eapply walks_missing; [done|by eapply isdir_eq|done].
  - eapply walks_step; [done|by eapply isdir_eq|done|by eapply good_eq|done].
Qed.

Lemma isdir_at s order ip p dat V :
  idle s order (Some ip) -> s.(icache) !! ip = Some (locked (contents s) p) -> (forall m, contents s m = V m) ->
  isdir V p.(i_inum) dat -> at_dir me ds sb s order ip (locked (contents s) p) dat.
Proof.
  intros I Hp E [D1 D2 D3 D4 D5 D6 D7].
  assert (Ed : dino (contents s) p.(i_inum) = dino V p.(i_inum)) by (by apply dino_eq).
  assert (E' : forall m, V m = contents s m) by (intros m; by rewrite E).
  split; try done; cbn [locked i_d]; rewrite ?Ed; try done.
  - split; [apply I|done|done| |apply I]. cbn [locked i_d]. rewrite Ed. by apply (finv_eq sb V).
  - by apply (fholds_eq V).
Qed.

Lemma idle_vstep s s' order order' lk :
  idle s order lk -> vstep s s' [] (contents s) 0 -> fok s' order' [] -> idle s' order' lk /\ calm s s'.
Proof.
  intros [I1 I2 I3] [V1 V2 V3 V4 [V5 V6]] F. split; [|split; [done|lia]]. split; [done|by apply (meta_all_eq sb (contents s))|].
  intros i p Hp. rewrite V5 in Hp. apply (entry_eq (contents s)); [done|]. by apply I3.
Qed.

Lemma skipelem_u8 path name name' path' :
  skipelem path name = Some (name', path') -> Forall is_u8 path -> Forall is_u8 name -> Forall is_u8 name' /\ Forall is_u8 path'.
Proof.
  intros E Hp Hn. unfold skipelem in E. destruct (skip_slashes_spec path) as (_ & _ & S3). specialize (S3 _ Hp).
  destruct (skip_slashes path) as [|c q]; [done|]. destruct (path_elem (c :: q)) as [e r] eqn:Ee.
  destruct (components_elem (c :: q) [] e r Ee) as (_ & C2 & _ & _). rewrite C2 in S3. apply Forall_app in S3 as [He Hr].
  set (b := (DIRSIZ <=? length e)%nat) in E. injection E as <- <-. split; [|by apply (skip_slashes_spec r)]. destruct b; [by apply Forall_take|].
  apply Forall_app. split; [done|]. apply Forall_cons. split; [unfold is_u8; lia|by apply Forall_drop].
Qed.

Lemma components_from_ne cur path : cur <> [] -> components_from cur path <> [].
Proof.
  revert cur. induction path as [|c path IH]; intros cur Hc; cbn [components_from]; [by destruct cur|].
  destruct (c =? slash); [by destruct cur|]. apply IH. by destruct cur.
Qed.

(** What is left of a path is empty exactly if it has no more names. *)
Lemma skipelem_last path name name' path' :
  skipelem path name = Some (name', path') -> (length path' =? 0)%nat = bool_decide (map (take DIRSIZ) (components path') = []).
Proof.
  intros E. unfold skipelem in E. destruct (skip_slashes path) as [|c q]; [done|]. destruct (path_elem (c :: q)) as [e r].
  set (b := (DIRSIZ <=? length e)%nat) in E. injection E as _ <-. destruct (skip_slashes_spec r) as (_ & [->|(c' & r' & -> & Hc)] & _); [done|].
  symmetry. apply bool_decide_eq_false_2. unfold components. cbn [components_from]. rewrite (proj2 (Z.eqb_neq c' slash) Hc). cbn [app].
  intros H%map_eq_nil. by apply (components_from_ne [c'] r').
Qed.

Lemma field_dname name : length name = DIRSIZ -> field_str name = dname name.
Proof. intros Hl. unfold field_str. rewrite Hl. apply mem_of_dst. Qed.

(** What [dirlookup] finds in a locked directory. *)
Lemma stage_lookup s0 s order ip p dat name :
  roomy s0 -> stage s0 s order (Some ip) [ip] -> s.(icache) !! ip = Some (locked (contents s) p) -> logged_n s0 < 30 ->
  isdir (contents s0) p.(i_inum) dat -> Forall is_u8 name ->
  match dmap dat (dname name) with
  | None => exists s' order' q, dirlookup me devread ip name s = Ok (None, s') /\ stage s0 s' order' (Some ip) [ip] /\
      s'.(icache) !! ip = Some q
  | Some j => good (contents s0) j ->
      exists nx off s' order' q q', dirlookup me devread ip name s = Ok (Some (nx, off), s') /\ stage s0 s' order' (Some ip) [nx; ip] /\
      s'.(icache) !! ip = Some q /\ s'.(icache) !! nx = Some q' /\ q'.(i_inum) = j
  end.
Proof.
  intros Hro S Hp Hlog Hd Hn. pose proof S as [S1 S2 S3 S4].
  pose proof (isdir_at s order ip p dat (contents s0) S1 Hp (cm_vw _ _ S2) Hd) as A.
  destruct (dirlookup_run me ds sb G devread name s order ip (locked (contents s) p) dat A) as (s1 & o1 & A1 & V1 & R1).
  { by rewrite (cm_log _ _ S2). } { done. }
  destruct (idle_vstep s s1 order o1 (Some ip) S1 V1 (af_fok _ _ _ _ _ _ _ (ad_file _ _ _ _ _ _ _ _ A1))) as [I1 C1].
  pose proof (proj1 (vs_rest _ _ _ _ _ V1)) as Ic.
  assert (St1 : stage s0 s1 o1 (Some ip) [ip]).
  { split; [done|by transitivity s|by apply (held_same s0 s)|by rewrite Ic]. }
  unfold dmap, assoc. destruct (list_find _ _) as [[k e]|]; cbn [fmap option_fmap option_map snd].
  - intros Hg. destruct (stage_get s0 s1 o1 (Some ip) [ip] e.1 Hro St1 ltac:(cbn; lia) Hg) as (nx & s2 & q' & R2 & St2 & Hq' & Hi).
    assert (Hex : is_Some (s2.(icache) !! ip)).
    { apply lookup_lt_is_Some_2. rewrite (sg_len _ _ _ _ _ St2), <- S4. by eapply lookup_lt_Some. }
    destruct Hex as [q Hq]. exists nx, (16 * Z.of_nat k), s2, o1, q, q'. rewrite R1, (kM_bind_run _ _ _ _ _ R2). done.
  - exists s1, o1, (locked (contents s) p). rewrite Ic. done.
Qed.

(** The result of [namex]: the inode, with a reference, or none. *)
Definition arrived (s0 s : fsst) (order : list nat) (r : option Z) (o : option nat) : Prop :=
  match r with
  | None => o = None /\ stage s0 s order None []
  | Some k => exists ip p, o = Some ip /\ stage s0 s order None [ip] /\ s.(icache) !! ip = Some p /\ p.(i_inum) = k
  end.

Lemma cnt_minus ip l i : cnt i l = cnt i (ip :: l) + (if decide (i = ip) then -1 else 0).
Proof. rewrite cnt_cons. destruct (decide (i = ip)); lia. Qed.

Lemma cnt_swap x y i : cnt i [x] = cnt i [x; y] + (if decide (i = y) then -1 else 0).
Proof. rewrite !cnt_cons. destruct (decide (i = y)), (decide (i = x)); unfold cnt; cbn [count_occ]; lia. Qed.

(** From a locked directory to the inode of a name in it. *)
Lemma stage_down {A} s0 s order ip p dat name (k0 : kM fsst A) (k1 : nat -> kM fsst A) :
  roomy s0 -> stage s0 s order (Some ip) [ip] -> s.(icache) !! ip = Some (locked (contents s) p) -> logged_n s0 < 30 ->
  isdir (contents s0) p.(i_inum) dat -> Forall is_u8 name ->
  let m := r ← dirlookup me devread ip name;
           match r with None => _ ← iunlockput me ip; k0 | Some (next, _) => _ ← iunlockput me ip; k1 next end in
  match dmap dat (dname name) with
  | None => exists s' order', m s = k0 s' /\ stage s0 s' order' None []
  | Some j => good (contents s0) j ->
      exists nx s' order' q, m s = k1 nx s' /\ stage s0 s' order' None [nx] /\ s'.(icache) !! nx = Some q /\ q.(i_inum) = j
  end.
Proof.
  intros Hro S Hp Hlog D Hu m. pose proof (stage_lookup s0 s order ip p dat name Hro S Hp Hlog D Hu) as L.
  destruct (dmap dat (dname name)) as [j|].
  - intros Hg. destruct (L Hg) as (nx & off & s3 & o3 & q & q' & R3 & S3 & Hq & Hq' & Hj).
    destruct (stage_put s0 s3 o3 ip [nx; ip] [nx] _ Hro S3 ltac:(cbn; lia) Hq (cnt_swap nx ip)) as (s4 & R4 & S4 & Ic4).
    exists nx, s4, o3. destruct (decide (nx = ip)) as [->|Hne].
    + exists (released q 1). unfold m. rewrite (kM_bind_run _ _ _ _ _ R3), (kM_bind_run _ _ _ _ _ R4), Ic4.
      rewrite list_lookup_insert_eq by (by eapply lookup_lt_Some). rewrite Hq in Hq'. by injection Hq' as ->.
    + exists q'. unfold m. rewrite (kM_bind_run _ _ _ _ _ R3), (kM_bind_run _ _ _ _ _ R4), Ic4. by rewrite list_lookup_insert_ne.
  - destruct L as (s3 & o3 & q & R3 & S3 & Hq).
    destruct (stage_put s0 s3 o3 ip [ip] [] _ Hro S3 ltac:(cbn; lia) Hq (cnt_minus ip [])) as (s4 & R4 & S4 & _).
    exists s4, o3. unfold m. by rewrite (kM_bind_run _ _ _ _ _ R3), (kM_bind_run _ _ _ _ _ R4).
Qed.

Lemma stage_use s0 s order lk ip p :
  roomy s0 -> stage s0 s order lk [ip] -> s.(icache) !! ip = Some p -> 0 < p.(i_ref) < 2 ^ 31.
Proof.
  intros Hro S Hp. pose proof (stage_ref _ _ _ _ _ _ _ Hro S ltac:(cbn; lia) Hp) as Hr.
  rewrite cnt_cons, decide_True in Hr by done. unfold cnt in Hr. cbn [count_occ] in Hr. lia.
Qed.

(** The path ends: the inode, or for its directory nothing. *)
Lemma stage_end s0 s order ip p (parent : bool) (name : list Z) :
  roomy s0 -> stage s0 s order None [ip] -> s.(icache) !! ip = Some p ->
  exists o s', (if parent then _ ← iput me ip; mret (None, name) else mret (Some ip, name)) s = Ok ((o, name), s') /\
    arrived s0 s' order (if parent then None else Some p.(i_inum)) o.
Proof.
  intros Hro S Hp. destruct parent.
  - destruct (iput_idle s order None ip p (sg_idle _ _ _ _ _ S) ltac:(done) Hp (stage_use _ _ _ _ _ _ Hro S Hp)) as (s1 & R1 & I1 & C1 & Ic1).
    exists None, s1. rewrite (kM_bind_run _ _ _ _ _ R1). split; [done|]. split; [done|].
    apply (stage_set s0 s s1 order order None None [ip] [] ip p (released p 1) (-1)); try done. apply cnt_minus.
  - exists (Some ip), s. split; [done|]. by exists ip, p.
Qed.

(** The directory of the last name. *)
Lemma stage_parent s0 s order ip p (name : list Z) :
  roomy s0 -> stage s0 s order (Some ip) [ip] -> s.(icache) !! ip = Some p ->
  exists s', (_ ← iunlock me ip; mret (Some ip, name)) s = Ok ((Some ip, name), s') /\ arrived s0 s' order (Some p.(i_inum)) (Some ip).
Proof.
  intros Hro S Hp. destruct (iunlock_idle s order ip p (sg_idle _ _ _ _ _ S) Hp) as (s1 & R1 & I1 & C1 & Ic1).
  { by apply (stage_use _ _ _ _ _ _ Hro S Hp). }
  exists s1. rewrite (kM_bind_run _ _ _ _ _ R1). split; [done|]. exists ip, (released p 0). split; [done|].
  split; [|rewrite Ic1, list_lookup_insert_eq by (by eapply lookup_lt_Some); done].
  apply (stage_set s0 s s1 order order (Some ip) None [ip] [ip] ip p (released p 0) 0 S I1 C1 Hp Ic1); [cbn; lia|done|].
  intros i. destruct (decide (i = ip)); lia.
Qed.

Lemma not_last (parent : bool) (cs : list (list Z)) : parent = false \/ cs <> [] -> parent && bool_decide (cs = []) = false.
Proof. intros [->|Hne]; [done|]. rewrite bool_decide_eq_false_2 by done. apply andb_false_r. Qed.

Lemma namex_loop_run s0 parent fuel : roomy s0 -> logged_n s0 < 30 -> forall s order ip p path name r,
  stage s0 s order None [ip] -> s.(icache) !! ip = Some p -> (length path < fuel)%nat ->
  Forall (fun c => c <> 0) path -> Forall is_u8 path -> Forall is_u8 name -> length name = DIRSIZ ->
  walks (contents s0) parent p.(i_inum) (map (take DIRSIZ) (components path)) r ->
  exists o name' s' order', namex_loop me devread fuel ip path parent name s = Ok ((o, name'), s') /\ arrived s0 s' order' r o /\
    (parent = true -> r <> None -> last (map (take DIRSIZ) (components path)) = Some (dname name')).
Proof.
  intros Hro Hlog. induction fuel as [|fuel IH]; intros s order ip p path name r S Hp Hf Hnz Hu Hun Hln W; [lia|]. cbn [namex_loop].
  pose proof (skipelem_run path name Hnz Hln) as K. destruct (skipelem path name) as [[name1 path1]|] eqn:E.
  2:{ rewrite K in W |- *. cbn [map] in W |- *. inversion W; subst; clear W.
    destruct (stage_end s0 s order ip p parent name Hro S Hp) as (o & s1 & R1 & A1). exists o, name, s1, order. split_and!; [done|done|].
    by intros ->. }
  destruct K as (e & Ke & Kf & Kl & Ks & Kz). destruct (skipelem_u8 _ _ _ _ E Hu Hun) as [Hu1 Hup1].
  rewrite (field_dname _ Kl) in Kf. rewrite Ke in W |- *. cbn [map] in W |- *. rewrite <- Kf in W |- *.
  destruct (stage_lock s0 s order ip p [] Hro S ltac:(cbn; lia) Hp Hlog) as (s1 & o1 & R1 & S1 & Hp1).
  rewrite (kM_bind_run _ _ _ _ _ R1), (kM_bind_run _ _ _ _ _ (geti_run _ _ _ Hp1)). cbn [locked i_d].
  rewrite (dino_eq (contents s0)) by apply (sg_calm _ _ _ _ _ S1). rewrite (skipelem_last _ _ _ _ E).
  remember (map (take DIRSIZ) (components path1)) as cs eqn:Hcs.
  inversion W as [|? ? ? Hty|? ? Hpar Hty|? dat ? ? Hor D Hm|? dat ? ? j ? Hor D Hm Hg W']; clear W.
  - rewrite (proj2 (Z.eqb_neq _ _) Hty). cbn [negb].
    destruct (stage_put s0 s1 o1 ip [ip] [] _ Hro S1 ltac:(cbn; lia) Hp1 (cnt_minus ip [])) as (s2 & R2 & S2 & _).
    rewrite (kM_bind_run _ _ _ _ _ R2). by exists None, name1, s2, o1.
  - rewrite Hty. rewrite Hpar. change (negb (T_DIR =? T_DIR)) with false. cbv iota. cbn [andb]. rewrite bool_decide_eq_true_2 by done.
    destruct (stage_parent s0 s1 o1 ip _ name1 Hro S1 Hp1) as (s3 & R3 & A3). rewrite R3. by exists (Some ip), name1, s3, o1.
  - rewrite (dr_type _ _ _ D). change (negb (T_DIR =? T_DIR)) with false. cbv iota. rewrite not_last by done.
    pose proof (stage_down s0 s1 o1 ip p dat name1 (mret (None, name1)) (fun next => namex_loop me devread fuel next path1 parent name1) Hro S1 Hp1 Hlog D Hu1) as L.
    cbv zeta in L. rewrite Hm in L. destruct L as (s3 & o3 & R3 & S3). rewrite R3. by exists None, name1, s3, o3.
  - rewrite (dr_type _ _ _ D). change (negb (T_DIR =? T_DIR)) with false. cbv iota. rewrite not_last by done.
    pose proof (stage_down s0 s1 o1 ip p dat name1 (mret (None, name1)) (fun next => namex_loop me devread fuel next path1 parent name1) Hro S1 Hp1 Hlog D Hu1) as L.
    cbv zeta in L. rewrite Hm in L. destruct (L Hg) as (nx & s3 & o3 & q & R3 & S3 & Hq & Hj). rewrite R3.
    rewrite <- Hj, Hcs in W'. destruct (IH s3 o3 nx q path1 name1 r S3 Hq ltac:(lia) Kz Hup1 Hu1 Kl W') as (o & name2 & s4 & o4 & R4 & A4 & N4).
    exists o, name2, s4, o4. split_and!; [done|done|]. intros Hpar Hr. rewrite <- Hcs in N4. specialize (N4 Hpar Hr).
    destruct Hor as [?|Hne]; [congruence|]. by destruct cs.
Qed.

(** Where [namex] starts: at the root for a path with a slash in front, and at
    the current directory otherwise. *)
Definition starts (s : fsst) (cwd : nat) (path : list Z) (i : Z) : Prop :=
  if match path with c :: _ => c =? slash | [] => false end then i = ROOTINO /\ good (contents s) ROOTINO
  else exists p, s.(icache) !! cwd = Some p /\ 0 < p.(i_ref) /\ p.(i_inum) = i.

Lemma stage_start s order cwd path i :
  idle s order None -> roomy s -> starts s cwd path i ->
  exists ip p s', (if match path with c :: _ => c =? slash | [] => false end then iget ROOTDEV ROOTINO else idup cwd) s = Ok (ip, s') /\
    stage s s' order None [ip] /\ s'.(icache) !! ip = Some p /\ p.(i_inum) = i.
Proof.
  intros I Hro H. unfold starts in H. assert (S : stage s s order None []) by (split; [done|done|apply held_refl|done]).
  destruct (match path with c :: _ => c =? slash | [] => false end).
  - destruct H as [-> Hg]. destruct (stage_get s s order None [] ROOTINO Hro S ltac:(cbn; lia) Hg) as (nx & s' & p & R & S' & Hp & Hi).
    by exists nx, p, s'.
  - destruct H as (p & Hp & Hr & Hi). pose proof (ro_count _ Hro cwd p Hp) as Hb.
    exists cwd, (with_ref p (p.(i_ref) + 1)), (upd_inode cwd (fun p => with_ref p (s32 (p.(i_ref) + 1))) s).
    assert (Ic : (upd_inode cwd (fun p => with_ref p (s32 (p.(i_ref) + 1))) s).(icache) = <[cwd := with_ref p (p.(i_ref) + 1)]> s.(icache)).
    { cbn [upd_inode icache]. rewrite (alter_is_insert _ _ _ _ Hp), s32_small; [done|unfold is_s32; lia]. }
    split_and!; [done| |rewrite Ic; apply list_lookup_insert_eq; by eapply lookup_lt_Some|done].
    apply (stage_set s s _ order order None None [] [cwd] cwd p (with_ref p (p.(i_ref) + 1)) 1); try done; [|intros j; apply cnt_cons].
    apply (idle_set s _ order order None None cwd p (with_ref p (p.(i_ref) + 1))); try done; [apply fok_icache, I|].
    destruct (id_cache _ _ _ I cwd p Hp) as [E1 E2 E3]. split; [done|cbn; lia|]. intros _. by apply E3.
Qed.

Lemma namex_run s order cwd path parent name i r :
  idle s order None -> roomy s -> logged_n s < 30 -> starts s cwd path i ->
  Forall (fun c => c <> 0) path -> Forall is_u8 path -> Forall is_u8 name -> length name = DIRSIZ ->
  walks (contents s) parent i (map (take DIRSIZ) (components path)) r ->
  exists o name' s' order', namex me devread cwd path parent name s = Ok ((o, name'), s') /\ arrived s s' order' r o /\
    (parent = true -> r <> None -> last (map (take DIRSIZ) (components path)) = Some (dname name')).
Proof.
  intros I Hro Hlog Hs Hnz Hu Hun Hln W. destruct (stage_start s order cwd path i I Hro Hs) as (ip & p & s1 & R1 & S1 & Hp & <-).
  destruct (namex_loop_run s parent (S (length path)) Hro Hlog s1 order ip p path name r S1 Hp ltac:(lia) Hnz Hu Hun Hln W)
    as (o & name' & s' & o' & R2 & A & N).
  exists o, name', s', o'. split_and!; [|done|done]. unfold namex. by rewrite (kM_bind_run _ _ _ _ _ R1).
Qed.

(** C5. A path leads where its names say.  From the root, or from the current
    directory, [namex] follows the components of the path, each cut to
    [DIRSIZ] bytes, through the maps of the directories on the disk.  If they
    lead to an inode it returns the cache entry of that inode, with one
    reference more; if a name is missing or a directory is not one it returns
    none, and holds no reference.  With [parent] it stops before the last name
    and returns it.  Nothing is left locked, every other reference count is as
    before, and neither the contents of the disk nor the log have changed. *)
Theorem namex_spec s order cwd path parent name i r :
  idle s order None -> roomy s -> logged_n s < 30 -> starts s cwd path i ->
  Forall (fun c => c <> 0) path -> Forall is_u8 path -> Forall is_u8 name -> length name = DIRSIZ ->
  walks (contents s) parent i (map (take DIRSIZ) (components path)) r ->
  exists o name' s' order', namex me devread cwd path parent name s = Ok ((o, name'), s') /\ arrived s s' order' r o /\
    (parent = true -> r <> None -> last (map (take DIRSIZ) (components path)) = Some (dname name')).
Proof. apply namex_run. Qed.

(** ** Adding a name *)

Lemma stage_refl s order lk : idle s order lk -> stage s s order lk [].
Proof. intros I. split; [done|done|apply held_refl|done]. Qed.

Lemma locked_dir_run s order dp p dat name :
  idle s order (Some dp) -> s.(icache) !! dp = Some (locked (contents s) p) -> isdir (contents s) p.(i_inum) dat ->
  logged_n s < 30 -> Forall is_u8 name ->
  exists s' order', stage s s' order' (Some dp) [] /\ s'.(icache) = s.(icache) /\
    dirlookup me devread dp name s =
      match list_find (live (dname name)) (dents dat) with
      | None => Ok (None, s')
      | Some (k, e) => (ip ← iget 1 e.1; mret (Some (ip, 16 * Z.of_nat k))) s'
      end.
Proof.
  intros I Hp Hd Hlog Hn. pose proof (isdir_at s order dp p dat (contents s) I Hp (fun m => eq_refl) Hd) as A.
  destruct (dirlookup_run me ds sb G devread name s order dp (locked (contents s) p) dat A Hlog Hn) as (s1 & o1 & A1 & V1 & R1).
  destruct (idle_vstep s s1 order o1 (Some dp) I V1 (af_fok _ _ _ _ _ _ _ (ad_file _ _ _ _ _ _ _ _ A1))) as [I1 C1].
  pose proof (proj1 (vs_rest _ _ _ _ _ V1)) as Ic. exists s1, o1. split_and!; [|done|done].
  split; [done|done|by apply (held_same s s); [apply held_refl|]|by rewrite Ic].
Qed.

Lemma iput_sleeps s ip p : s.(icache) !! ip = Some p -> p.(i_lock).(sl_locked) = true -> iput me ip s = Panic "sleep".
Proof.
  intros Hp Hl. unfold iput. erewrite kM_bind_run; [|unfold geti; rewrite Hp; reflexivity].
  unfold acquiresleep. by rewrite Hl.
Qed.

(** [dirlink] with a name that the directory has for itself, such as ".",
    does not return: it drops the reference that [dirlookup] took while it
    holds the lock of the directory, and [iput] waits for that lock. *)
Theorem dirlink_self_deadlock s order dp p dat name inum :
  idle s order (Some dp) -> s.(icache) !! dp = Some (locked (contents s) p) -> 0 < p.(i_ref) ->
  (forall i q, s.(icache) !! i = Some q -> 0 < q.(i_ref) -> q.(i_inum) = p.(i_inum) -> i = dp) ->
  isdir (contents s) p.(i_inum) dat -> Forall is_u8 name -> logged_n s < 30 -> dmap dat (dname name) = Some p.(i_inum) ->
  dirlink me devread devwrite dp name inum s = Panic "sleep".
Proof.
  intros I Hp Hr Huniq Hd Hn Hlog Em. destruct (locked_dir_run s order dp p dat name I Hp Hd Hlog Hn) as (s1 & o1 & S1 & Ic & R1).
  unfold dmap, assoc in Em. destruct (list_find _ _) as [[k e]|]; [|done]. cbn in Em. injection Em as Ee.
  assert (Sc : iget_scan s1.(icache) 0 None 1 e.1 = inl dp).
  { rewrite Ic, Ee. pose proof (iget_scan_first s.(icache) 0 None 1 p.(i_inum)) as H. destruct (H dp (locked (contents s) p) Hp Hr eq_refl eq_refl) as (i & Hi).
    pose proof (iget_scan_spec s.(icache) 0 None 1 p.(i_inum)) as Hs. rewrite Hi in Hs |- *. destruct Hs as (k' & q & -> & Hq & Hqr & _ & Hqi).
    f_equal. cbn [Nat.add]. by apply (Huniq k' q). }
  unfold dirlink. unfold mbind at 1, kM_bind at 1. rewrite R1. unfold iget. erewrite kM_bind_run.
  2:{ erewrite kM_bind_run by reflexivity. rewrite Sc. reflexivity. }
  rewrite kM_ret_run. unfold mbind, kM_bind at 1. erewrite iput_sleeps; [done| |].
  - cbn. rewrite list_lookup_alter_eq, Ic, Hp. reflexivity.
  - done.
Qed.

(** C7. [dirlink] adds a name to a directory and nothing else.  The caller has
    locked the directory, in a transaction with room for eight more blocks; the
    directory can grow by an entry, two blocks are free, and the inode cache
    has a free entry.  If the name is new [dirlink] returns 0, the map of the
    directory has the new inode under that name and is otherwise as before, and
    only the directory was written.  If the name is there already, for another
    inode than the directory itself, it returns -1, and neither the disk, the
    log nor any reference count has changed.  If the directory has the name for
    itself, such as ., and one entry of the inode cache, the call does not
    return: it waits in [iput] for the lock that its caller holds. *)
Theorem dirlink_spec s order dp p dat name inum :
  idle s order (Some dp) -> roomy s -> s.(icache) !! dp = Some (locked (contents s) p) -> 0 < p.(i_ref) ->
  isdir (contents s) p.(i_inum) dat -> Forall is_u8 name -> 0 < inum < 65536 -> Z.of_nat (length dat) + 16 <= 71680 ->
  logged_n s + 8 <= sb.(sb_nlog) -> FsFile.free_room sb (contents s) 2 ->
  match dmap dat (dname name) with
  | Some j =>
      if decide (j = p.(i_inum)) then
        (forall i q, s.(icache) !! i = Some q -> 0 < q.(i_ref) -> q.(i_inum) = p.(i_inum) -> i = dp) ->
        dirlink me devread devwrite dp name inum s = Panic "sleep"
      else
        good (contents s) j ->
        exists s' order', dirlink me devread devwrite dp name inum s = Ok (-1, s') /\ stage s s' order' (Some dp) []
  | None =>
      exists s1 s' order' d' dat', (forall m, contents s1 m = contents s m) /\
        dirlink me devread devwrite dp name inum s = Ok (0, s') /\
        FsContent.written me ds sb s1 s' order' dp (locked (contents s) p) d' dat' /\
        forall nm, dmap dat' nm = if decide (nm = dname name) then Some inum else dmap dat nm
  end.
Proof.
  intros I Hro Hp Hr Hd Hn Hi Hfit Hlog Hroom. pose proof G as [[G1 G2] _ _ _]. unfold LOGSIZE in G2.
  destruct (dmap dat (dname name)) as [j|] eqn:Em.
  - destruct (decide (j = p.(i_inum))) as [->|Hj].
    { intros Hu. apply (dirlink_self_deadlock s order dp p dat name inum); try done. lia. }
    intros Hg. destruct (locked_dir_run s order dp p dat name I Hp Hd ltac:(lia) Hn) as (s1 & o1 & S1 & Ic & R1).
    unfold dmap, assoc in Em. destruct (list_find _ _) as [[k e]|]; [|done]. cbn in Em. injection Em as <-.
    destruct (stage_get s s1 o1 (Some dp) [] e.1 Hro S1 ltac:(cbn; lia) Hg) as (nx & s2 & q & R2 & S2 & Hq & Hin).
    assert (Hne : Some dp <> Some nx).
    { intros [= <-]. destruct (sg_held _ _ _ _ _ S2 dp _ Hp) as (q2 & Hq2 & _ & Hk). rewrite Hq in Hq2. injection Hq2 as <-.
      destruct (Hk Hr) as [_ Hk']. cbn in Hk'. congruence. }
    destruct (iput_idle s2 o1 (Some dp) nx q (sg_idle _ _ _ _ _ S2) Hne Hq (stage_use _ _ _ _ _ _ Hro S2 Hq)) as (s3 & R3 & I3 & C3 & Ic3).
    exists s3, o1. split.
    + unfold dirlink. erewrite kM_bind_run; [|rewrite R1, (kM_bind_run _ _ _ _ _ R2); reflexivity].
      cbv iota beta. by rewrite (kM_bind_run _ _ _ _ _ R3).
    + apply (stage_set s s2 s3 o1 o1 (Some dp) (Some dp) [nx] [] nx q (released q 1) (-1)); try done. apply cnt_minus.
  - pose proof (isdir_at s order dp p dat (contents s) I Hp (fun m => eq_refl) Hd) as A.
    destruct (id_cache _ _ _ I dp _ Hp) as [_ _ Hu]. destruct (Hu Hr) as (_ & Hg & _). cbn [locked i_inum] in Hg.
    pose proof (place_range dat) as Hpl. pose proof (Nat.div_mod_eq (length dat) 16) as Hdm.
    destruct (dirlink_run me ds sb G devread devwrite name inum s order dp (locked (contents s) p) dat A) as (s1 & s' & o' & d' & E1 & R & W & _);
      try done; try lia; [apply Hg|].
    exists s1, s', o', d', (splice dat (16 * Z.of_nat (place dat)) (mk_dirent name inum)). split_and!; [done|done|done|].
    intros nm. apply dmap_linked; [apply (dr_whole _ _ _ Hd)|done|done].
Qed.

End Name.
