(* ===== verification/Ring.v ===== *)
(** * Ring buffers

    An array of [N] elements with two 32-bit counters that are never reduced,
    as the pipes and the console use it: the unread elements are those at the
    indices, modulo [N], from [r] up to [e].  [N] divides 2^32, so that the
    counters may wrap around. *)

From S2P Require Import Prelude.

Class RingSize (N : Z) : Prop := {
  rs_range : 0 < N < 2 ^ 31;
  rs_div : (N | 2 ^ 32)
}.

Section Ring.
Context (N : Z) `{!RingSize N}.
Let HN : 0 < N < 2 ^ 31 := rs_range.

(** The array [d] holds the queue [q]. *)
Record ring (d : list Z) (r e : Z) (q : list Z) : Prop := {
  rg_len : Z.of_nat (length d) = N;
  rg_fit : Z.of_nat (length q) <= N;
  rg_r : is_u32 r;
  rg_e : e = u32 (r + Z.of_nat (length q));
  rg_bytes : forall i c, q !! i = Some c -> d !! Z.to_nat ((r + Z.of_nat i) mod N) = Some c
}.

Lemma ring_mod z : u32 z mod N = z mod N.
Proof. unfold u32. apply Z.mod_mod_divide, rs_div. Qed.

Lemma ring_idx a : (Z.to_nat (a mod N) < Z.to_nat N)%nat.
Proof. pose proof (Z.mod_pos_bound a N). lia. Qed.

Lemma ring_apart a i j : 0 <= i < N -> 0 <= j < N -> i <> j -> Z.to_nat ((a + i) mod N) <> Z.to_nat ((a + j) mod N).
Proof.
  intros Hi Hj Hne E. pose proof (Z.mod_pos_bound (a + i) N). pose proof (Z.mod_pos_bound (a + j) N).
  assert (E' : (a + i) mod N = (a + j) mod N) by lia. apply Hne.
  assert (Hd : (N | i - j)).
  { apply Z.mod_divide; [lia|]. replace (i - j) with ((a + i) - (a + j)) by lia. rewrite Zminus_mod, E', Z.sub_diag. apply Z.mod_0_l. lia. }
  destruct Hd as [k Hk]. assert (k = 0); nia.
Qed.

Lemma ring_nil d r : Z.of_nat (length d) = N -> is_u32 r -> ring d r r [].
Proof. intros Hd Hr. split; try done; cbn; [lia|]. by rewrite Z.add_0_r, u32_small. Qed.

Context {d : list Z} {r e : Z} {q : list Z} (R : ring d r e q).

(** The number of elements, also when the counters have wrapped. *)
Lemma ring_count : u32 (e - r) = Z.of_nat (length q).
Proof.
  destruct R as [H1 H2 H3 -> H5]. unfold u32. rewrite Zminus_mod_idemp_l.
  replace (r + Z.of_nat (length q) - r) with (Z.of_nat (length q)) by lia. apply Z.mod_small. lia.
Qed.

Lemma ring_empty : r = e <-> q = [].
Proof.
  destruct R as [H1 H2 H3 -> H5]. unfold is_u32, u32 in *. split.
  - intros E. destruct q as [|c q']; [done|]. exfalso. simpl length in *. Z.to_euclidean_division_equations; lia.
  - intros ->. cbn. by rewrite Z.add_0_r, Z.mod_small by lia.
Qed.

Lemma ring_full : e = u32 (r + N) <-> Z.of_nat (length q) = N.
Proof.
  destruct R as [H1 H2 H3 -> H5]. unfold is_u32, u32 in *. split; [|by intros ->].
  intros E. Z.to_euclidean_division_equations; lia.
Qed.

Lemma ring_push c :
  Z.of_nat (length q) < N -> ring (<[Z.to_nat (e mod N) := c]> d) r (u32 (e + 1)) (q ++ [c]).
Proof.
  intros Hlt. destruct R as [H1 H2 H3 -> H5]. split; try done.
  - by rewrite length_insert.
  - rewrite length_app. cbn. lia.
  - rewrite length_app. cbn. unfold u32. rewrite Z.add_mod_idemp_l by lia. f_equal. lia.
  - intros i x Hx. rewrite ring_mod. destruct (decide (i = length q)) as [->|Hne].
    + rewrite lookup_app_r, Nat.sub_diag in Hx by lia. injection Hx as <-. apply list_lookup_insert_eq.
      pose proof (ring_idx (r + Z.of_nat (length q))). lia.
    + pose proof (lookup_lt_Some _ _ _ Hx) as Hi. rewrite length_app in Hi. cbn in Hi.
      rewrite lookup_app_l in Hx by lia. rewrite list_lookup_insert_ne; [by apply H5|]. apply ring_apart; lia.
Qed.

Lemma ring_pop c q' :
  q = c :: q' -> d !! Z.to_nat (r mod N) = Some c /\ ring d (u32 (r + 1)) e q'.
Proof.
  destruct R as [H1 H2 H3 -> H5]. intros ->. cbn [length] in *. split.
  - specialize (H5 0%nat c eq_refl). by rewrite Z.add_0_r in H5.
  - split; try done; [lia|apply u32_range|..].
    + unfold u32. rewrite Z.add_mod_idemp_l by lia. f_equal. lia.
    + intros i x Hx. specialize (H5 (S i) x Hx).
      replace ((u32 (r + 1) + Z.of_nat i) mod N) with ((r + Z.of_nat (S i)) mod N); [done|].
      rewrite <- (Z.add_mod_idemp_l (u32 _)), ring_mod, Z.add_mod_idemp_l by lia. f_equal. lia.
Qed.

(** The newest element, and the queue without it. *)
Lemma ring_unpush c q' :
  q = q' ++ [c] -> d !! Z.to_nat (u32 (e - 1) mod N) = Some c /\ ring d r (u32 (e - 1)) q'.
Proof.
  destruct R as [H1 H2 H3 -> H5]. intros ->. rewrite length_app in *. cbn [length] in *.
  assert (E : u32 (u32 (r + Z.of_nat (length q' + 1)) - 1) = u32 (r + Z.of_nat (length q'))).
  { unfold u32. rewrite Zminus_mod_idemp_l. f_equal. lia. }
  rewrite E. split.
  - rewrite ring_mod. apply H5. by rewrite lookup_app_r, Nat.sub_diag by lia.
  - split; try done; [lia|]. intros i x Hx. apply H5. rewrite lookup_app_l; [done|]. by eapply lookup_lt_Some.
Qed.
End Ring.
