(* ===== verification/Pipe.v ===== *)
(** * Pipes (pipe.c)

    A ring of [PIPESIZE] bytes with two wrapping counters.  A call of
    [pipewrite] or [piperead] runs under the pipe's lock until it returns or
    goes to sleep; each such run is one function below, and a sleeping call
    resumes at the test it slept in.  Any number of readers and writers
    interleave these runs. *)

From S2P Require Import Prelude Ring.

Definition PIPESIZE : Z := 512.

Record pipe := mk_pipe {
  p_data : list Z;
  nread : Z;
  nwrite : Z;
  readopen : bool;
  writeopen : bool
}.

(** The pipe [pipealloc] sets up in a fresh page, whose bytes are [d]. *)
Definition pipeinit (d : list Z) : pipe := mk_pipe d 0 0 true true.

(** The outcome of a run: the call returned or sleeps, and [rest] are the
    bytes it has not written. *)
Inductive wres := WRet (r : Z) (rest : list Z) | WSleep (rest : list Z).
Inductive rres := RRet (r : Z) (bs : list Z) | RSleep.

Definition pfull (p : pipe) : bool := p.(nwrite) =? u32 (p.(nread) + PIPESIZE).
Definition pempty (p : pipe) : bool := p.(nread) =? p.(nwrite).

(** [p->data[p->nwrite++ % PIPESIZE] = c]. *)
Definition put (p : pipe) (c : Z) : pipe :=
  mk_pipe (<[Z.to_nat (p.(nwrite) mod PIPESIZE) := c]> p.(p_data)) p.(nread) (u32 (p.(nwrite) + 1))
    p.(readopen) p.(writeopen).

(** [p->data[p->nread++ % PIPESIZE]]. *)
Definition take1 (p : pipe) : Z * pipe :=
  (nth (Z.to_nat (p.(nread) mod PIPESIZE)) p.(p_data) 0,
   mk_pipe p.(p_data) (u32 (p.(nread) + 1)) p.(nwrite) p.(readopen) p.(writeopen)).

(** [pipewrite] with [rest] still to write of the [n] bytes it was given. *)
Fixpoint pipewrite (killed : bool) (n : Z) (rest : list Z) (p : pipe) : wres * pipe :=
  match rest with
  | [] => (WRet n [], p)
  | c :: rest' =>
      if pfull p then
        if negb p.(readopen) || killed then (WRet (-1) rest, p) else (WSleep rest, p)
      else pipewrite killed n rest' (put p c)
  end.

(** The copying loop of [piperead]: up to [k] bytes. *)
Fixpoint piperead_copy (k : nat) (p : pipe) : list Z * pipe :=
  match k with
  | O => ([], p)
  | S k =>
      if pempty p then ([], p)
      else
        let (c, p1) := take1 p in
        let (bs, p2) := piperead_copy k p1 in
        (c :: bs, p2)
  end.

Definition piperead (killed : bool) (n : Z) (p : pipe) : rres * pipe :=
  if pempty p && p.(writeopen) then
    if killed then (RRet (-1) [], p) else (RSleep, p)
  else
    let (bs, p') := piperead_copy (Z.to_nat n) p in
    (RRet (Z.of_nat (length bs)) bs, p').

(** [pipeclose]; the result tells whether the page is freed. *)
Definition pipeclose (writable : bool) (p : pipe) : bool * pipe :=
  let p' := if writable then mk_pipe p.(p_data) p.(nread) p.(nwrite) p.(readopen) false
            else mk_pipe p.(p_data) p.(nread) p.(nwrite) false p.(writeopen) in
  (negb p'.(readopen) && negb p'.(writeopen), p').

(** ** The queue a pipe holds *)

(** [q] is the unread part: the bytes at the indices from [nread] on. *)
Definition holds_queue (p : pipe) (q : list Z) : Prop := ring PIPESIZE p.(p_data) p.(nread) p.(nwrite) q.

#[export] Instance PIPESIZE_ring : RingSize PIPESIZE.
Proof. split; [done|by exists 8388608]. Qed.

Lemma hq_empty p q : holds_queue p q -> pempty p = true <-> q = [].
Proof. intros R. unfold pempty. rewrite Z.eqb_eq. by apply (ring_empty _ R). Qed.

Lemma hq_full p q : holds_queue p q -> pfull p = true <-> length q = 512%nat.
Proof.
  intros R. unfold pfull. rewrite Z.eqb_eq, (ring_full _ R). unfold PIPESIZE. lia.
Qed.

Lemma hq_fit p q : holds_queue p q -> (length q <= 512)%nat.
Proof. intros R. pose proof (rg_fit _ _ _ _ _ R) as H. unfold PIPESIZE in H. lia. Qed.

Lemma put_queue p q c : holds_queue p q -> pfull p = false -> holds_queue (put p c) (q ++ [c]).
Proof.
  intros R Hf. pose proof (hq_full p q R) as Hfull. apply (ring_push _ R).
  pose proof (rg_fit _ _ _ _ _ R) as Hfit. unfold PIPESIZE in *.
  destruct (decide (length q = 512%nat)) as [E|]; [|lia]. apply Hfull in E. congruence.
Qed.

Lemma take_queue p c q : holds_queue p (c :: q) -> (take1 p).1 = c /\ holds_queue (take1 p).2 q.
Proof.
  intros R. destruct (ring_pop _ R c q eq_refl) as [H1 H2].
  split; [|exact H2]. cbn. by apply nth_lookup_Some.
Qed.

Lemma fresh_queue d : length d = 512%nat -> holds_queue (pipeinit d) [].
Proof. intros Hd. apply (ring_nil PIPESIZE); [cbn; unfold PIPESIZE; lia|done]. Qed.

(** ** One run *)

(** A write run puts a prefix of its bytes in the queue, and stops early only
    when the queue is full. *)
Lemma pipewrite_run killed n rest p q :
  holds_queue p q ->
  exists done rest' q' p', q' = q ++ done /\ rest = done ++ rest' /\ holds_queue p' q' /\
    p'.(readopen) = p.(readopen) /\ p'.(writeopen) = p.(writeopen) /\
    (rest' = [] /\ pipewrite killed n rest p = (WRet n [], p') \/
     rest' <> [] /\ length q' = 512%nat /\
     pipewrite killed n rest p = (if negb p.(readopen) || killed then WRet (-1) rest' else WSleep rest', p')).
Proof.
  revert p q. induction rest as [|c rest IH]; intros p q Hq; simpl.
  - exists [], [], q, p. rewrite app_nil_r. split_and!; try done. by left.
  - destruct (pfull p) eqn:Hf.
    + exists [], (c :: rest), q, p. rewrite app_nil_r. split_and!; try done. right. split; [done|].
      split; [by apply (hq_full p q Hq)|]. by destruct (_ || _).
    + destruct (IH (put p c) (q ++ [c])) as (dn & rest' & q' & p' & E1 & E2 & Hq' & E3 & E4 & Hc); [by apply put_queue|].
      exists (c :: dn), rest', q', p'. split_and!; try done; [by rewrite E1, <- app_assoc|by rewrite E2].
Qed.

(** A read run takes the first [min n (length q)] bytes of the queue. *)
Lemma piperead_copy_run k p q :
  holds_queue p q ->
  exists p', piperead_copy k p = (take k q, p') /\ holds_queue p' (drop k q) /\
    p'.(readopen) = p.(readopen) /\ p'.(writeopen) = p.(writeopen).
Proof.
  revert p q. induction k as [|k IH]; intros p q Hq; cbn [piperead_copy]; [by exists p|].
  pose proof (hq_empty p q Hq) as He. destruct (pempty p) eqn:E.
  - assert (q = []) as -> by (by apply He). exists p. split_and!; done.
  - destruct q as [|c q]; [by discriminate (proj2 He eq_refl)|]. destruct (take_queue p c q Hq) as [E1 Hq1].
    destruct (take1 p) as [c' p1] eqn:Et. simpl in E1, Hq1. subst c'.
    destruct (IH p1 q Hq1) as (p' & -> & Hq' & E3 & E4). exists p'. split; [done|]. split; [done|].
    unfold take1 in Et. injection Et as _ <-. done.
Qed.

(** ** Readers and writers *)

Inductive pth :=
| TIdle
| TWrite (n : Z) (rest : list Z)       (* in pipewrite, not asleep *)
| TWSleep (n : Z) (rest : list Z)      (* asleep on &p->nwrite *)
| TRead (n : Z)                        (* in piperead, not asleep *)
| TRSleep (n : Z).                     (* asleep on &p->nread *)

(** [wakeup(&p->nread)] and [wakeup(&p->nwrite)]. *)
Definition wake_reader (t : pth) : pth := match t with TRSleep n => TRead n | _ => t end.
Definition wake_writer (t : pth) : pth := match t with TWSleep n rest => TWrite n rest | _ => t end.

(** The pipe, the calls in progress, and what was put in and taken out. *)
Record psys := mk_psys { pp : pipe; ths : list pth; sent : list Z; got : list Z }.

(** The bytes of [rest] before its suffix [rest']. *)
Definition written (rest rest' : list Z) : list Z := take (length rest - length rest') rest.

(** A call on the read end, and on the write end, that is in progress. *)
Definition reading (t : pth) : bool := match t with TRead _ | TRSleep _ => true | _ => false end.
Definition writing (t : pth) : bool := match t with TWrite _ _ | TWSleep _ _ => true | _ => false end.

(** One run of a call under the lock.  [kills] tells whether a process may
    have been killed by the time of its run.  The file table calls on an end
    that is open, and closes an end when no call on it is in progress. *)
Inductive pstep (kills : bool) : psys -> psys -> Prop :=
| ps_call_write s i bs :
    s.(ths) !! i = Some TIdle -> s.(pp).(writeopen) = true ->
    pstep kills s (mk_psys s.(pp) (<[i := TWrite (Z.of_nat (length bs)) bs]> s.(ths)) s.(sent) s.(got))
| ps_call_read s i n :
    s.(ths) !! i = Some TIdle -> s.(pp).(readopen) = true ->
    pstep kills s (mk_psys s.(pp) (<[i := TRead n]> s.(ths)) s.(sent) s.(got))
| ps_write_done s i n rest killed p' :       (* wakeup(&p->nread); return n *)
    s.(ths) !! i = Some (TWrite n rest) -> (killed = true -> kills = true) ->
    pipewrite killed n rest s.(pp) = (WRet n [], p') ->
    pstep kills s (mk_psys p' (<[i := TIdle]> (wake_reader <$> s.(ths))) (s.(sent) ++ rest) s.(got))
| ps_write_sleep s i n rest killed rest' p' : (* wakeup(&p->nread); sleep(&p->nwrite) *)
    s.(ths) !! i = Some (TWrite n rest) -> (killed = true -> kills = true) ->
    pipewrite killed n rest s.(pp) = (WSleep rest', p') ->
    pstep kills s (mk_psys p' (<[i := TWSleep n rest']> (wake_reader <$> s.(ths)))
                     (s.(sent) ++ written rest rest') s.(got))
| ps_write_fail s i n rest killed rest' p' :  (* return -1 *)
    s.(ths) !! i = Some (TWrite n rest) -> (killed = true -> kills = true) ->
    pipewrite killed n rest s.(pp) = (WRet (-1) rest', p') -> rest' <> [] ->
    pstep kills s (mk_psys p' (<[i := TIdle]> s.(ths)) (s.(sent) ++ written rest rest') s.(got))
| ps_read_done s i n killed r bs p' :         (* wakeup(&p->nwrite); return *)
    s.(ths) !! i = Some (TRead n) -> 0 <= r ->
    piperead killed n s.(pp) = (RRet r bs, p') ->
    pstep kills s (mk_psys p' (<[i := TIdle]> (wake_writer <$> s.(ths))) s.(sent) (s.(got) ++ bs))
| ps_read_sleep s i n killed p' :
    s.(ths) !! i = Some (TRead n) ->
    piperead killed n s.(pp) = (RSleep, p') ->
    pstep kills s (mk_psys p' (<[i := TRSleep n]> s.(ths)) s.(sent) s.(got))
| ps_read_fail s i n killed p' :
    s.(ths) !! i = Some (TRead n) ->
    piperead killed n s.(pp) = (RRet (-1) [], p') ->
    pstep kills s (mk_psys p' (<[i := TIdle]> s.(ths)) s.(sent) s.(got))
| ps_wake s i :                               (* kill() makes a sleeper runnable *)
    pstep kills s (mk_psys s.(pp) (alter (fun t => wake_reader (wake_writer t)) i s.(ths)) s.(sent) s.(got))
| ps_close_write s :
    Forall (fun t => writing t = false) s.(ths) ->
    pstep kills s (mk_psys (pipeclose true s.(pp)).2 (wake_reader <$> s.(ths)) s.(sent) s.(got))
| ps_close_read s :
    Forall (fun t => reading t = false) s.(ths) ->
    pstep kills s (mk_psys (pipeclose false s.(pp)).2 (wake_writer <$> s.(ths)) s.(sent) s.(got)).

Inductive preach (kills : bool) (d : list Z) (k : nat) : psys -> Prop :=
| pr_init : preach kills d k (mk_psys (pipeinit d) (replicate k TIdle) [] [])
| pr_step s s' : preach kills d k s -> pstep kills s s' -> preach kills d k s'.

(** *** First in, first out *)

Definition fifo (s : psys) (q : list Z) : Prop := holds_queue s.(pp) q /\ s.(sent) = s.(got) ++ q.

Lemma written_app dn rest' : written (dn ++ rest') rest' = dn.
Proof. unfold written. rewrite length_app, take_app_le by lia. apply take_ge. lia. Qed.

Lemma pipewrite_bytes killed n rest p q r p' :
  holds_queue p q -> pipewrite killed n rest p = (r, p') ->
  exists dn, holds_queue p' (q ++ dn) /\ p'.(readopen) = p.(readopen) /\ p'.(writeopen) = p.(writeopen) /\
    match r with
    | WRet z [] => dn = rest
    | WRet z rest' => rest = dn ++ rest' /\ length (q ++ dn) = 512%nat /\ (p.(readopen) = false \/ killed = true)
    | WSleep rest' => rest = dn ++ rest' /\ length (q ++ dn) = 512%nat /\ p.(readopen) = true
    end.
Proof.
  intros Hq H. destruct (pipewrite_run killed n rest p q Hq) as (dn & rest' & q' & p0 & E1 & E2 & Hq' & E3 & E4 & Hc).
  subst q'. exists dn. assert (p0 = p') as <-.
  { destruct Hc as [[_ E]|[_ [_ E]]]; rewrite E in H; by injection H. }
  split_and!; try done.
  destruct Hc as [[-> E]|[Hne [Hl E]]]; rewrite E in H; injection H as <-; [by rewrite E2, app_nil_r|].
  destruct p.(readopen), killed; simpl; (destruct rest'; [done|]); split_and!; auto.
Qed.

Lemma piperead_bytes killed n p q r bs p' :
  holds_queue p q -> piperead killed n p = (RRet r bs, p') ->
  exists q', q = bs ++ q' /\ holds_queue p' q' /\ p'.(readopen) = p.(readopen) /\ p'.(writeopen) = p.(writeopen) /\
    (r = -1 /\ bs = [] /\ killed = true \/ r = Z.of_nat (length bs)).
Proof.
  intros Hq H. unfold piperead in H. destruct (pempty p && p.(writeopen)).
  - destruct killed; [|done]. injection H as <- <- <-. exists q. split_and!; auto.
  - destruct (piperead_copy_run (Z.to_nat n) p q Hq) as (p0 & E & Hq' & E3 & E4). rewrite E in H.
    injection H as <- <- <-. exists (drop (Z.to_nat n) q). split_and!; auto. by rewrite take_drop.
Qed.

Lemma close_queue w p q : holds_queue p q -> holds_queue (pipeclose w p).2 q.
Proof. intros [H1 H2 H3 H4 H5]. by destruct w; split. Qed.

Lemma fifo_step kills s s' q : fifo s q -> pstep kills s s' -> exists q', fifo s' q'.
Proof.
  intros [Hq Hs] H. destruct H as [s i bs Hi Ho|s i n Hi Ho|s i n rest k p' Hi Hk Hw|s i n rest k rest' p' Hi Hk Hw
    |s i n rest k rest' p' Hi Hk Hw Hne|s i n k r bs p' Hi Hr Hw|s i n k p' Hi Hw|s i n k p' Hi Hw|s i|s Hno|s Hno].
  - by exists q.
  - by exists q.
  - destruct (pipewrite_bytes _ _ _ _ _ _ _ Hq Hw) as (dn & Hq' & _ & _ & ->). exists (q ++ rest).
    split; [done|]. cbn. by rewrite Hs, app_assoc.
  - destruct (pipewrite_bytes _ _ _ _ _ _ _ Hq Hw) as (dn & Hq' & _ & _ & -> & _). exists (q ++ dn).
    split; [done|]. cbn. by rewrite written_app, Hs, app_assoc.
  - destruct (pipewrite_bytes _ _ _ _ _ _ _ Hq Hw) as (dn & Hq' & _ & _ & Hd). destruct rest' as [|c rest']; [done|].
    destruct Hd as (-> & _). exists (q ++ dn). split; [done|]. cbn. by rewrite written_app, Hs, app_assoc.
  - destruct (piperead_bytes _ _ _ _ _ _ _ Hq Hw) as (q' & -> & Hq' & _). exists q'. split; [done|].
    cbn. by rewrite Hs, app_assoc.
  - unfold piperead in Hw. destruct (_ && _); [|by destruct (piperead_copy _ _)]. destruct k; [done|].
    injection Hw as <-. by exists q.
  - destruct (piperead_bytes _ _ _ _ _ _ _ Hq Hw) as (q' & -> & Hq' & _). exists q'. split; [done|]. cbn. by rewrite Hs.
  - by exists q.
  - exists q. split; [by apply close_queue|done].
  - exists q. split; [by apply close_queue|done].
Qed.

(** C10. A pipe is a bounded queue: whatever readers and writers do, in any
    interleaving, with calls that fail and ends that are closed, the bytes
    taken out followed by at most 512 bytes still in the ring are exactly the
    bytes put in, in order, for counters that wrap at 2^32. *)
Theorem pipe_fifo kills d k s :
  length d = 512%nat -> preach kills d k s ->
  exists q, s.(sent) = s.(got) ++ q /\ (length q <= 512)%nat /\ holds_queue s.(pp) q.
Proof.
  intros Hd H. assert (Hf : exists q, fifo s q).
  { induction H as [|s s' _ [q IH] Hs]; [|by eapply fifo_step].
    exists []. split; [|done]. apply fresh_queue, Hd. }
  destruct Hf as (q & Hq & Hs). exists q. split_and!; try done. by eapply hq_fit.
Qed.

(** *** Sleep and wakeup *)

(** A call in progress has its end open; a sleeping writer waits for room, a
    sleeping reader for bytes, and the other end is open. *)
Definition waits (p : pipe) (q : list Z) (t : pth) : Prop :=
  (reading t = true -> p.(readopen) = true) /\ (writing t = true -> p.(writeopen) = true) /\
  match t with
  | TWSleep _ _ => length q = 512%nat /\ p.(readopen) = true
  | TRSleep _ => q = [] /\ p.(writeopen) = true
  | _ => True
  end.

Definition pipe_inv (s : psys) (q : list Z) : Prop := fifo s q /\ Forall (waits s.(pp) q) s.(ths).

(** Updating one thread, and waking the others. *)
Lemma ths_update (P Q : pth -> Prop) (l : list pth) i t0 f :
  Forall P l -> Q t0 -> (forall t, P t -> Q (f t)) -> Forall Q (<[i := t0]> (f <$> l)).
Proof.
  intros HP H0 Hf. apply Forall_insert; [|done]. apply Forall_fmap. eapply Forall_impl; [exact HP|]. exact Hf.
Qed.

Lemma ths_update_id (P Q : pth -> Prop) (l : list pth) i t0 :
  Forall P l -> Q t0 -> (forall t, P t -> Q t) -> Forall Q (<[i := t0]> l).
Proof. intros HP H0 Hf. apply Forall_insert; [|done]. by eapply Forall_impl. Qed.

Lemma waits_at s q i t : pipe_inv s q -> s.(ths) !! i = Some t -> waits s.(pp) q t.
Proof. intros [_ H] Ht. by eapply Forall_lookup_1. Qed.

(** Writing and reading when no writer is killed. *)
Lemma pipe_inv_step s s' q : pipe_inv s q -> pstep false s s' -> exists q', pipe_inv s' q'.
Proof.
  intros I H. pose proof (waits_at s q) as Hat. destruct I as [[Hq Hs] Hw].
  destruct H as [s i bs Hi Ho|s i n Hi Ho|s i n rest k p' Hi Hk Hr|s i n rest k rest' p' Hi Hk Hr
    |s i n rest k rest' p' Hi Hk Hr Hne|s i n k r bs p' Hi Hr0 Hr|s i n k p' Hi Hr|s i n k p' Hi Hr|s i|s Hno|s Hno];
    try specialize (Hat i _ (conj (conj Hq Hs) Hw) Hi).
  - exists q. split; [done|]. by eapply ths_update_id; [exact Hw| |].
  - exists q. split; [done|]. by eapply ths_update_id; [exact Hw| |].
  - destruct (pipewrite_bytes _ _ _ _ _ _ _ Hq Hr) as (dn & Hq' & E1 & E2 & ->). exists (q ++ rest).
    split; [split; [done|cbn; by rewrite Hs, app_assoc]|]. pose proof (hq_fit _ _ Hq') as Hfit. rewrite length_app in Hfit.
    eapply ths_update; [exact Hw|done|]. intros t. unfold waits. cbn. rewrite E1, E2, length_app.
    destruct t; cbn; intuition lia.
  - destruct (pipewrite_bytes _ _ _ _ _ _ _ Hq Hr) as (dn & Hq' & E1 & E2 & -> & Hl' & Ho'). exists (q ++ dn).
    split; [split; [done|cbn; by rewrite written_app, Hs, app_assoc]|].
    eapply ths_update; [exact Hw| |].
    + destruct Hat as (_ & Hwo & _). unfold waits. cbn. rewrite E1, E2. by split_and!; auto.
    + intros t. unfold waits. cbn. rewrite E1, E2, Hl'. destruct t; cbn; intuition.
  - destruct (pipewrite_bytes _ _ _ _ _ _ _ Hq Hr) as (dn & Hq' & E1 & E2 & Hd). destruct rest' as [|c rest']; [done|].
    destruct Hd as (-> & Hl' & Ho'). destruct Ho' as [Ho'|Hkill]; [|by apply Hk in Hkill]. exists (q ++ dn).
    split; [split; [done|cbn; by rewrite written_app, Hs, app_assoc]|].
    eapply ths_update_id; [exact Hw|done|]. intros t. unfold waits. cbn. rewrite E1, E2, Hl', Ho'.
    destruct t; cbn; intuition congruence.
  - destruct (piperead_bytes _ _ _ _ _ _ _ Hq Hr) as (q' & -> & Hq' & E1 & E2 & _). exists q'.
    split; [split; [done|cbn; by rewrite Hs, app_assoc]|].
    eapply ths_update; [exact Hw|done|]. intros t. unfold waits. cbn. rewrite E1, E2.
    destruct t; cbn; try solve [intuition]. intros (H1 & H2 & H3 & H4). split_and!; try done. by apply app_eq_nil in H3 as [_ ->].
  - unfold piperead in Hr. pose proof (hq_empty _ _ Hq) as He. destruct (pempty s.(pp)); cbn in Hr;
      [|by destruct (piperead_copy _ _)]. destruct s.(pp).(writeopen) eqn:Ewo; [|by destruct (piperead_copy _ _)].
    destruct k; [done|]. injection Hr as <-. exists q. split; [done|].
    eapply ths_update_id; [exact Hw| |done]. destruct Hat as (Hro & _ & _). unfold waits. cbn. rewrite Ewo.
    split_and!; auto. by apply He.
  - destruct (piperead_bytes _ _ _ _ _ _ _ Hq Hr) as (q' & -> & Hq' & E1 & E2 & _). exists q'.
    split; [split; [done|cbn; by rewrite Hs]|].
    eapply ths_update_id; [exact Hw|done|]. intros t. unfold waits. cbn. by rewrite E1, E2.
  - exists q. split; [done|]. cbn. apply Forall_alter; [done|].
    intros t _. unfold waits. destruct t; cbn; intuition.
  - exists q. split; [split; [by apply close_queue|done]|]. cbn. apply Forall_fmap.
    eapply Forall_impl; [apply Forall_and; split; [exact Hw|exact Hno]|]. intros t [Ht Hn]. revert Ht Hn.
    unfold waits. destruct t; cbn; intuition congruence.
  - exists q. split; [split; [by apply close_queue|done]|]. cbn. apply Forall_fmap.
    eapply Forall_impl; [apply Forall_and; split; [exact Hw|exact Hno]|]. intros t [Ht Hn]. revert Ht Hn.
    unfold waits. destruct t; cbn; intuition congruence.
Qed.

(** C15. No wakeup is lost while no writer is killed: a writer sleeps only when
    the ring is full and can be read, a reader only when it is empty and can be
    written; so a reader and a writer never sleep at the same time. *)
Theorem pipe_no_lost_wakeup d k s i t :
  length d = 512%nat -> preach false d k s -> s.(ths) !! i = Some t ->
  match t with
  | TWSleep _ _ => pfull s.(pp) = true /\ s.(pp).(readopen) = true /\
      (forall j n, s.(ths) !! j <> Some (TRSleep n))
  | TRSleep _ => pempty s.(pp) = true /\ s.(pp).(writeopen) = true
  | _ => True
  end.
Proof.
  intros Hd H Ht. assert (Hi : exists q, pipe_inv s q).
  { clear Ht. induction H as [|s s' _ [q IH] Hs]; [|by eapply pipe_inv_step].
    exists []. split.
    - split; [|done]. apply fresh_queue, Hd.
    - cbn. by apply Forall_replicate. }
  destruct Hi as (q & I). pose proof (waits_at s q i t I Ht) as (_ & _ & Hw). destruct I as [[Hq _] Hall].
  destruct t; try done.
  - destruct Hw as [Hl Ho]. split_and!; [by apply (hq_full _ q)|done|].
    intros j m Hj. rewrite Forall_lookup in Hall. destruct (Hall j _ Hj) as (_ & _ & -> & _). done.
  - destruct Hw as [Hl Ho]. split; [by apply (hq_empty _ q)|done].
Qed.

(** ** Runs *)

Module PipeDemo.

Definition page0 : list Z := replicate 512 0.
Definition start (k : nat) : psys := mk_psys (pipeinit page0) (replicate k TIdle) [] [].

(** Thread 0 starts a read and sleeps on the empty pipe. *)
Definition asleep (kills : bool) : psys := mk_psys (pipeinit page0) [TRSleep 4; TIdle] [] [].

Lemma asleep_reached kills : preach kills page0 2 (asleep kills).
Proof.
  eapply pr_step; [eapply pr_step; [apply pr_init|]|].
  - by apply (ps_call_read kills _ 0%nat 4).
  - by apply (ps_read_sleep kills (mk_psys (pipeinit page0) [TRead 4; TIdle] [] []) 0%nat 4 false (pipeinit page0)).
Qed.

(** Thread 1 writes three bytes, which wakes the reader, which takes them. *)
Definition wrote : pipe := (pipewrite false 3 [7; 8; 9] (pipeinit page0)).2.
Definition readback : psys := mk_psys (piperead false 4 wrote).2 [TIdle; TIdle] [7; 8; 9] [7; 8; 9].

Lemma readback_reached : preach true page0 2 readback.
Proof.
  eapply pr_step; [eapply pr_step; [eapply pr_step; [apply (asleep_reached true)|]|]|].
  - by apply (ps_call_write true _ 1%nat [7; 8; 9]).
  - by eapply (ps_write_done true _ 1%nat 3 [7; 8; 9] false wrote).
  - by apply (ps_read_done true (mk_psys wrote [TRead 4; TIdle] [7; 8; 9] []) 0%nat 4 false 3 [7; 8; 9]).
Qed.

(** The claim at the state where the three bytes were read. *)
Lemma pipe_fifo_witness :
  preach true page0 2 readback /\
  exists q, readback.(sent) = readback.(got) ++ q /\ (length q <= 512)%nat /\ holds_queue readback.(pp) q.
Proof. split; [exact readback_reached|]. apply (pipe_fifo true page0 2); [reflexivity|exact readback_reached]. Defined.

(** The claim for the sleeping reader. *)
Lemma pipe_no_lost_wakeup_witness :
  pempty (asleep false).(pp) = true /\ (asleep false).(pp).(writeopen) = true.
Proof. apply (pipe_no_lost_wakeup page0 2 (asleep false) 0%nat (TRSleep 4)); [reflexivity|apply asleep_reached|reflexivity]. Defined.

(** Thread 1, killed while it writes 600 bytes, fills the ring and returns -1. *)
Definition bytes600 : list Z := replicate 600 1.
Definition filled : pipe := (pipewrite true 600 bytes600 (pipeinit page0)).2.
Definition called : psys :=
  mk_psys (pipeinit page0) [TRSleep 4; TWrite (Z.of_nat (length bytes600)) bytes600] [] [].
Definition stuck : psys := mk_psys filled [TRSleep 4; TIdle] (written bytes600 (replicate 88 1)) [].

(** With killed writers a wakeup can be lost: a writer that is killed
    before it sleeps on the full ring returns -1 at the test in the loop,
    without the [wakeup(&p->nread)] of the other exits, and a reader that
    slept on the empty pipe still sleeps beside 512 unread bytes. *)
Theorem pipewrite_killed_lost_wakeup :
  preach true page0 2 stuck /\ stuck.(ths) !! 0%nat = Some (TRSleep 4) /\
  stuck.(ths) !! 1%nat = Some TIdle /\ pfull stuck.(pp) = true.
Proof.
  split; [|by vm_compute].
  apply (pr_step true page0 2 called); [apply (pr_step true page0 2 (asleep true) called); [apply asleep_reached|]|].
  - unfold called, asleep. apply (ps_call_write true (asleep true) 1%nat bytes600); reflexivity.
  - apply (ps_write_fail true called 1%nat 600 bytes600 true (replicate 88 1) filled); [reflexivity|done|by vm_compute|done].
Qed.

End PipeDemo.
