(* ===== verification/World.v ===== *)
(** * The kernel below the system calls

    The state the process table, the file system, the pipes and the page
    allocator share, the accesses of the kernel to the memory of the running
    process, and the instance of [ProcSvc] that proc.c runs on. *)

From S2P Require Import Prelude CString Mmu Kalloc Vm VmSpec Proc Bio Layout Log Fs Pipe.

(** ** Open files (file.h) *)

Inductive fdtype := FD_NONE | FD_PIPE | FD_INODE.

#[export] Instance fdtype_eq : EqDecision fdtype.
Proof. solve_decision. Defined.

Definition NFILE : nat := 100.

(** [struct file]; [f_pipe] is the address of the page of the pipe. *)
Record file := mk_file {
  f_type : fdtype; f_ref : Z; f_readable : Z; f_writable : Z; f_pipe : Z; f_ip : nat; f_off : Z
}.

Definition file0 : file := mk_file FD_NONE 0 0 0 0 0 0.

Definition with_fref (f : file) (r : Z) : file :=
  mk_file f.(f_type) r f.(f_readable) f.(f_writable) f.(f_pipe) f.(f_ip) f.(f_off).
Definition with_foff (f : file) (o : Z) : file :=
  mk_file f.(f_type) f.(f_ref) f.(f_readable) f.(f_writable) f.(f_pipe) f.(f_ip) o.

(** ** State *)

(** The pages in use as pipes are kept as [pipe] records, by address. *)
Record world := mk_world {
  w_mem : kmem;
  w_fs : fsst;
  w_files : list file;
  w_pipes : gmap Z pipe;
  w_ticks : Z
}.

Definition onmem {A} (m : kM kmem A) : kM world A :=
  fun w => match m w.(w_mem) with
           | Ok (a, k) => Ok (a, mk_world k w.(w_fs) w.(w_files) w.(w_pipes) w.(w_ticks))
           | Panic msg => Panic msg
           end.

Definition onfs {A} (m : kM fsst A) : kM world A :=
  fun w => match m w.(w_fs) with
           | Ok (a, f) => Ok (a, mk_world w.(w_mem) f w.(w_files) w.(w_pipes) w.(w_ticks))
           | Panic msg => Panic msg
           end.

Definition set_files (l : list file) (w : world) : world :=
  mk_world w.(w_mem) w.(w_fs) l w.(w_pipes) w.(w_ticks).
Definition set_pipes (q : gmap Z pipe) (w : world) : world :=
  mk_world w.(w_mem) w.(w_fs) w.(w_files) q w.(w_ticks).

(** Pointers: 0 is null, [1 + i] is entry [i] of the table; what is no pointer
    goes to an index outside every table. *)
Definition ptr (i : nat) : Z := Z.of_nat i + 1.
Definition unptr (p : Z) : nat := if p <? 1 then 200 else Z.to_nat (p - 1).

Definition getf (f : Z) : kM world file :=
  fun w => match w.(w_files) !! unptr f with Some x => Ok (x, w) | None => Panic "trap" end.
Definition setf (f : Z) (g : file -> file) : kM world unit :=
  kmodify (fun w => set_files (alter g (unptr f) w.(w_files)) w).

Definition getpipe (a : Z) : kM world pipe :=
  fun w => match w.(w_pipes) !! a with Some p => Ok (p, w) | None => Panic "trap" end.
Definition setpipe (a : Z) (p : pipe) : kM world unit :=
  kmodify (fun w => set_pipes (<[a := p]> w.(w_pipes)) w).

(** ** User memory

    The kernel reads and writes the memory of the running process through its
    page table; a page that is not present is a fault in the kernel, which is
    a panic (trap.c). *)

Definition uaddr (m : mem) (pd va : Z) : option Z :=
  if present (lookup_pte m pd va) then Some (P2V (PTE_ADDR (lookup_pte m pd va)) + va mod PGSIZE) else None.

Definition uload8 (pd va : Z) : kM world Z :=
  fun w => match uaddr w.(w_mem).(kmem_mem) pd va with
           | Some a => Ok (w.(w_mem).(kmem_mem) a, w)
           | None => Panic "trap"
           end.

Definition ustore8 (pd va v : Z) : kM world unit :=
  fun w => match uaddr w.(w_mem).(kmem_mem) pd va with
           | Some a => onmem (kmodify (fun k => set_mem k (upd k.(kmem_mem) a (u8 v)))) w
           | None => Panic "trap"
           end.

Fixpoint uloads (pd va : Z) (n : nat) : kM world (list Z) :=
  match n with
  | O => mret []
  | S n =>
      c ← uload8 pd va;
      bs ← uloads pd (va + 1) n;
      mret (c :: bs)
  end.

Fixpoint ustores (pd va : Z) (bs : list Z) : kM world unit :=
  match bs with
  | [] => mret tt
  | c :: bs =>
      _ ← ustore8 pd va c;
      ustores pd (va + 1) bs
  end.

Definition uload32 (pd va : Z) : kM world Z :=
  bs ← uloads pd va 4;
  mret (get32 bs 0).
Definition ustore32 (pd va v : Z) : kM world unit := ustores pd va (put32 (replicate 4 0) 0 v).
Definition ustore16 (pd va v : Z) : kM world unit := ustores pd va (put16 (replicate 2 0) 0 v).
