(* ===== verification/File.v ===== *)
(** * Open files (file.c) and their pipes (pipealloc of pipe.c)

    The open-file table: reference counts, and reading, writing and closing
    what a file refers to.  A call that has to wait for a pipe, an inode or
    the log is the outcome [Panic "sleep"]; what happens to a pipe between
    the runs of such a call is the subject of [Pipe]. *)

From S2P Require Import Prelude CString Mmu Kalloc Vm Proc Bio Layout Log Fs Pipe World.

(** The offset of [data] in [struct pipe], after its spinlock. *)
Definition PIPEDATA : Z := 52.

Section File.

(** Linker symbols, the pid of the running process and the device table. *)
Variable kend kdata me : Z.
Variable devread : Z -> option (nat -> Z -> kM fsst (Z * list Z)).
Variable devwrite : Z -> option (nat -> list Z -> Z -> kM fsst Z).

Abbreviation readi := (readi me devread).
Abbreviation writei := (writei me devwrite).

Definition begin_tx : kM fsst unit :=
  r ← onlog begin_op;
  match r with Begun => mret tt | BeginSleep => kpanic "sleep" end.
Definition end_tx : kM fsst unit := onlog (end_op me).

Definition filealloc : kM world Z :=
  w ← kget;
  match fst <$> list_find (fun f => f.(f_ref) = 0) w.(w_files) with
  | Some i =>
      _ ← setf (ptr i) (fun f => with_fref f 1);
      mret (ptr i)
  | None => mret 0
  end.

Definition filedup (f : Z) : kM world Z :=
  x ← getf f;
  if x.(f_ref) <? 1 then kpanic "filedup"
  else
    _ ← setf f (fun x => with_fref x (s32 (x.(f_ref) + 1)));
    mret f.

(** [pipeclose] on the page at [a]. *)
Definition pipeclose_at (a : Z) (writable : bool) : kM world unit :=
  p ← getpipe a;
  let (gone, p') := pipeclose writable p in
  _ ← setpipe a p';
  if gone then
    _ ← kmodify (fun w => set_pipes (delete a w.(w_pipes)) w);
    onmem (kfree kend a)
  else mret tt.

(** [f->ref = 0; f->type = FD_NONE]. *)
Definition clear_file (x : file) : file :=
  mk_file FD_NONE 0 x.(f_readable) x.(f_writable) x.(f_pipe) x.(f_ip) x.(f_off).

(** [fileclose] under [ftable.lock]: what the file was, when the last
    reference went. *)
Definition fileclose_drop (f : Z) : kM world (option file) :=
  x ← getf f;
  if x.(f_ref) <? 1 then kpanic "fileclose"
  else if 0 <? s32 (x.(f_ref) - 1) then
    _ ← setf f (fun x => with_fref x (s32 (x.(f_ref) - 1)));
    mret None
  else
    _ ← setf f clear_file;
    mret (Some x).

(** [fileclose] after the lock is released, where it may sleep. *)
Definition fileclose_release (ff : file) : kM world unit :=
  match ff.(f_type) with
  | FD_PIPE => pipeclose_at ff.(f_pipe) (c_true ff.(f_writable))
  | FD_INODE =>
      _ ← onfs begin_tx;
      _ ← onfs (iput me ff.(f_ip));
      onfs end_tx
  | FD_NONE => mret tt
  end.

Definition fileclose (f : Z) : kM world unit :=
  o ← fileclose_drop f;
  match o with
  | None => mret tt
  | Some ff => fileclose_release ff
  end.

(** [pipealloc]: the two files, or [None] for -1.  The data bytes of the new
    pipe are what the page holds. *)
Definition pipealloc : kM world (option (Z * Z)) :=
  f0 ← filealloc;
  let bad (f0 f1 : Z) : kM world (option (Z * Z)) :=
    _ ← (if f0 =? 0 then mret tt else fileclose f0);
    _ ← (if f1 =? 0 then mret tt else fileclose f1);
    mret None in
  if f0 =? 0 then bad 0 0
  else
    f1 ← filealloc;
    if f1 =? 0 then bad f0 0
    else
      p ← onmem kalloc;
      if p =? 0 then bad f0 f1
      else
        w ← kget;
        _ ← setpipe p (pipeinit (bytes_at w.(w_mem).(kmem_mem) (p + PIPEDATA) (Z.to_nat PIPESIZE)));
        _ ← setf f0 (fun x => mk_file FD_PIPE x.(f_ref) 1 0 p x.(f_ip) x.(f_off));
        _ ← setf f1 (fun x => mk_file FD_PIPE x.(f_ref) 0 1 p x.(f_ip) x.(f_off));
        mret (Some (f0, f1)).

(** The fields of [struct stat] are stored one by one. *)
Definition store_stat (pd st : Z) (s : stat) : kM world unit :=
  _ ← ustore16 pd st s.(st_type);
  _ ← ustore32 pd (st + 4) s.(st_dev);
  _ ← ustore32 pd (st + 8) s.(st_ino);
  _ ← ustore16 pd (st + 12) s.(st_nlink);
  ustore32 pd (st + 16) s.(st_size).

Definition filestat (pd f st : Z) : kM world Z :=
  x ← getf f;
  match x.(f_type) with
  | FD_INODE =>
      _ ← onfs (ilock me x.(f_ip));
      s ← onfs (stati x.(f_ip));
      _ ← store_stat pd st s;
      _ ← onfs (iunlock me x.(f_ip));
      mret 0
  | _ => mret (-1)
  end.

(** [piperead] and [pipewrite] of the process with page directory [pd]. *)
Definition piperead_at (pd : Z) (killed : bool) (a addr n : Z) : kM world Z :=
  p ← getpipe a;
  match piperead killed n p with
  | (RSleep, _) => kpanic "sleep"
  | (RRet r bs, p') =>
      _ ← setpipe a p';
      _ ← ustores pd addr bs;
      mret r
  end.

Definition pipewrite_at (pd : Z) (killed : bool) (a addr n : Z) : kM world Z :=
  p ← getpipe a;
  bs ← uloads pd addr (Z.to_nat n);
  match pipewrite killed n bs p with
  | (WSleep _, _) => kpanic "sleep"
  | (WRet r _, p') => _ ← setpipe a p'; mret r
  end.

Definition fileread (pd : Z) (killed : bool) (f addr n : Z) : kM world Z :=
  x ← getf f;
  if x.(f_readable) =? 0 then mret (-1)
  else
    match x.(f_type) with
    | FD_PIPE => piperead_at pd killed x.(f_pipe) addr n
    | FD_INODE =>
        _ ← onfs (ilock me x.(f_ip));
        r ← onfs (readi x.(f_ip) x.(f_off) (u32 n));
        _ ← ustores pd addr r.2;
        _ ← (if 0 <? r.1 then setf f (fun x => with_foff x (u32 (x.(f_off) + r.1))) else mret tt);
        _ ← onfs (iunlock me x.(f_ip));
        mret r.1
    | FD_NONE => kpanic "fileread"
    end.

(** The largest write of one transaction. *)
Definition filewrite_max : Z := ((MAXOPBLOCKS - 1 - 1 - 2) / 2) * 512.

(** The loop of [filewrite]: the final [i]. *)
Fixpoint filewrite_loop (fuel : nat) (pd f : Z) (ip : nat) (addr n i : Z) : kM world Z :=
  match fuel with
  | O => kpanic "out of fuel"
  | S fuel =>
      if i <? n then
        let n1 := if filewrite_max <? n - i then filewrite_max else n - i in
        _ ← onfs begin_tx;
        _ ← onfs (ilock me ip);
        bs ← uloads pd (addr + i) (Z.to_nat n1);
        x ← getf f;
        r ← onfs (writei ip bs x.(f_off) n1);
        _ ← (if 0 <? r then setf f (fun x => with_foff x (u32 (x.(f_off) + r))) else mret tt);
        _ ← onfs (iunlock me ip);
        _ ← onfs end_tx;
        if r <? 0 then mret i
        else if negb (r =? n1) then kpanic "short filewrite"
        else filewrite_loop fuel pd f ip addr n (i + r)
      else mret i
  end.

Definition filewrite (pd : Z) (killed : bool) (f addr n : Z) : kM world Z :=
  x ← getf f;
  if x.(f_writable) =? 0 then mret (-1)
  else
    match x.(f_type) with
    | FD_PIPE => pipewrite_at pd killed x.(f_pipe) addr n
    | FD_INODE =>
        i ← filewrite_loop (S (Z.to_nat (n / filewrite_max + 1))) pd f x.(f_ip) addr n 0;
        mret (if i =? n then n else -1)
    | FD_NONE => kpanic "filewrite"
    end.

(** ** What proc.c calls *)

(** The address and the size of the initcode binary. *)
Variable initcode initcode_size : Z.

Definition kernel_svc : ProcSvc world := {|
  svc_kalloc := onmem kalloc;
  svc_kfree v := onmem (kfree kend v);
  svc_setupkvm := onmem (setupkvm kend kdata);
  svc_inituvm pd := onmem (inituvm pd initcode initcode_size);
  svc_copyuvm pd n := onmem (copyuvm kend kdata pd n);
  svc_freevm pd := onmem (freevm kend pd);
  svc_allocuvm pd o n := onmem (allocuvm kend pd o n);
  svc_deallocuvm pd o n := onmem (deallocuvm kend pd o n);
  svc_filedup f := _ ← filedup f; mret tt;
  svc_fileclose f := fileclose f;
  svc_idup ip := _ ← onfs (idup (unptr ip)); mret tt;
  svc_iput ip :=
    _ ← onfs begin_tx;
    _ ← onfs (iput me (unptr ip));
    onfs end_tx;
  svc_namei_root :=
    r ← onfs (namei me devread 0 (lit "/"));
    mret (match r with Some i => ptr i | None => 0 end)
|}.

End File.
