(* ===== verification/Syscall.v ===== *)
(** * System call arguments (syscall.c, and argfd and fdalloc of sysfile.c)

    How the kernel fetches the arguments of a system call from the memory of
    the running process, and the checks that keep it inside that memory. *)

From S2P Require Import Prelude CString Mmu Kalloc Vm VmSpec Proc Layout Pipe World.

Section Args.

(** The running process. *)
Variable cur : nat.

(** The int at [addr], [None] for a return value of -1. *)
Definition fetchint (addr : Z) : kM (kst world) (option Z) :=
  p ← getp cur;
  if (p.(sz) <=? addr) || (p.(sz) <? u32 (addr + 4)) then mret None
  else
    v ← svc (uload32 p.(pgdir) addr);
    mret (Some (s32 v)).

(** The loop of [fetchstr], with [k] bytes from [s] to the end [ep]. *)
Fixpoint fetchstr_loop (pd s : Z) (k : nat) : kM world (option (list Z)) :=
  match k with
  | O => mret None
  | S k =>
      c ← uload8 pd s;
      if c =? 0 then mret (Some [])
      else
        r ← fetchstr_loop pd (s + 1) k;
        mret (cons c <$> r)
  end.

(** The string at [addr], without its NUL; its length is the return value. *)
Definition fetchstr (addr : Z) : kM (kst world) (option (list Z)) :=
  p ← getp cur;
  if p.(sz) <=? addr then mret None
  else svc (fetchstr_loop p.(pgdir) addr (Z.to_nat (p.(sz) - addr))).

Definition argint (n : Z) : kM (kst world) (option Z) :=
  p ← getp cur;
  fetchint (u32 (p.(tfv).(tf_esp) + 4 + 4 * n)).

(** The pointer, when [size] bytes from it on are the process's. *)
Definition argptr (n size : Z) : kM (kst world) (option Z) :=
  p ← getp cur;
  o ← argint n;
  match o with
  | None => mret None
  | Some i =>
      if (size <? 0) || (p.(sz) <=? u32 i) || (p.(sz) <? u32 (u32 i + size)) then mret None
      else mret (Some (u32 i))
  end.

Definition argstr (n : Z) : kM (kst world) (option (list Z)) :=
  o ← argint n;
  match o with
  | None => mret None
  | Some addr => fetchstr (u32 addr)
  end.

(** The descriptor and the file. *)
Definition argfd (n : Z) : kM (kst world) (option (Z * Z)) :=
  o ← argint n;
  match o with
  | None => mret None
  | Some fd =>
      p ← getp cur;
      if (fd <? 0) || (Z.of_nat NOFILE <=? fd) then mret None
      else
        let f := nth (Z.to_nat fd) p.(ofile) 0 in
        if f =? 0 then mret None else mret (Some (fd, f))
  end.

Definition fdalloc (f : Z) : kM (kst world) Z :=
  p ← getp cur;
  match fst <$> list_find (fun g => g = 0) (take NOFILE p.(ofile)) with
  | Some fd =>
      _ ← setp cur (fun p => with_ofile p (<[fd := f]> p.(ofile)));
      mret (Z.of_nat fd)
  | None => mret (-1)
  end.

End Args.

(** ** Arguments stay inside the process *)

(** The byte at [va] of the process with page directory [pd]. *)
Definition ubyte (w : world) (pd va : Z) : Z :=
  match uaddr w.(w_mem).(kmem_mem) pd va with Some a => w.(w_mem).(kmem_mem) a | None => 0 end.

(** All addresses of the process are mapped. *)
Definition mapped_below (w : world) (p : proc) : Prop :=
  forall va, 0 <= va < p.(sz) -> present (lookup_pte w.(w_mem).(kmem_mem) p.(pgdir) va) = true.

Section ArgSpec.
Variable cur : nat.
Context (s : kst world) (p : proc).
Hypothesis Hp : s.(ptable) !! cur = Some p.
Hypothesis Hsz : 0 <= p.(sz) <= KERNBASE.
Hypothesis Hmap : mapped_below s.(Proc.world) p.

Lemma getp_here : getp cur s = Ok (p, s).
Proof. unfold getp. by rewrite Hp. Qed.

Lemma uload8_run va : 0 <= va < p.(sz) ->
  uload8 p.(pgdir) va s.(Proc.world) = Ok (ubyte s.(Proc.world) p.(pgdir) va, s.(Proc.world)).
Proof. intros H. unfold uload8, ubyte, uaddr. by rewrite (Hmap va H). Qed.

Lemma uloads_run n va : 0 <= va -> va + Z.of_nat n <= p.(sz) ->
  uloads p.(pgdir) va n s.(Proc.world) =
    Ok (map (fun i => ubyte s.(Proc.world) p.(pgdir) (va + Z.of_nat i)) (seq 0 n), s.(Proc.world)).
Proof.
  revert va. induction n as [|n IH]; intros va H0 H1; cbn [uloads]; [done|].
  rewrite (kM_bind_run _ _ _ _ _ (uload8_run va ltac:(lia))). rewrite (kM_bind_run _ _ _ _ _ (IH (va + 1) ltac:(lia) ltac:(lia))).
  rewrite kM_ret_run. do 2 f_equal. cbn [seq map]. f_equal; [f_equal; lia|]. rewrite <- seq_shift, map_map.
  apply map_ext. intros i. f_equal. lia.
Qed.

Lemma svc_ok {A} (m : kM world A) a : m s.(Proc.world) = Ok (a, s.(Proc.world)) -> svc m s = Ok (a, s).
Proof. intros H. unfold svc. rewrite H. by destruct s. Qed.

(** The word the process holds at [va]. *)
Definition uword (va : Z) : Z :=
  get32 (map (fun i => ubyte s.(Proc.world) p.(pgdir) (va + Z.of_nat i)) (seq 0 4)) 0.

Lemma fetchint_run addr : is_u32 addr ->
  fetchint cur addr s = Ok (if addr + 4 <=? p.(sz) then Some (s32 (uword addr)) else None, s).
Proof.
  intros Ha. unfold fetchint. rewrite (kM_bind_run _ _ _ _ _ getp_here). unfold is_u32, KERNBASE in *.
  destruct (Z.leb_spec (addr + 4) p.(sz)) as [H|H].
  - replace ((p.(sz) <=? addr) || (p.(sz) <? u32 (addr + 4))) with false.
    + erewrite kM_bind_run; [reflexivity|]. apply svc_ok. unfold uload32.
      by rewrite (kM_bind_run _ _ _ _ _ (uloads_run 4 addr ltac:(lia) ltac:(lia))).
    + rewrite u32_small by (unfold is_u32; lia). symmetry. apply orb_false_iff. lia.
  - destruct (Z.leb_spec p.(sz) addr); [done|]. rewrite u32_small by (unfold is_u32; lia).
    destruct (Z.ltb_spec p.(sz) (addr + 4)); [done|lia].
Qed.

(** The address of argument [n]. *)
Definition arg_at (n : Z) : Z := u32 (p.(tfv).(tf_esp) + 4 + 4 * n).

Lemma argint_run n : argint cur n s =
  Ok (if arg_at n + 4 <=? p.(sz) then Some (s32 (uword (arg_at n))) else None, s).
Proof. unfold argint. rewrite (kM_bind_run _ _ _ _ _ getp_here). apply fetchint_run, u32_range. Qed.

Lemma fetchstr_loop_run k va : 0 <= va -> va + Z.of_nat k <= p.(sz) ->
  exists o, fetchstr_loop p.(pgdir) va k s.(Proc.world) = Ok (o, s.(Proc.world)) /\
    match o with
    | Some str => (length str < k)%nat /\ ubyte s.(Proc.world) p.(pgdir) (va + Z.of_nat (length str)) = 0 /\
        (forall i c, str !! i = Some c -> c <> 0 /\ ubyte s.(Proc.world) p.(pgdir) (va + Z.of_nat i) = c)
    | None => forall i, 0 <= i < Z.of_nat k -> ubyte s.(Proc.world) p.(pgdir) (va + i) <> 0
    end.
Proof.
  revert va. induction k as [|k IH]; intros va H0 H1; cbn [fetchstr_loop]; [exists None; split; [done|lia]|].
  rewrite (kM_bind_run _ _ _ _ _ (uload8_run va ltac:(lia))). destruct (Z.eqb_spec (ubyte s.(Proc.world) p.(pgdir) va) 0) as [E|E].
  - exists (Some []). split; [done|]. split; [simpl; lia|]. split; [simpl; by rewrite Z.add_0_r|]. intros i c H. by rewrite lookup_nil in H.
  - destruct (IH (va + 1) ltac:(lia) ltac:(lia)) as (o & Ho & Hs). rewrite (kM_bind_run _ _ _ _ _ Ho).
    exists (cons (ubyte s.(Proc.world) p.(pgdir) va) <$> o). split; [done|]. destruct o as [str|]; cbn [fmap option_fmap option_map].
    + destruct Hs as (A & B & C). cbn [length]. split; [lia|]. split; [rewrite <- B; f_equal; lia|].
      intros [|i] c Hc; [injection Hc as <-; split; [done|f_equal; lia]|]. destruct (C i c Hc) as [C1 C2]. split; [done|].
      rewrite <- C2. f_equal. lia.
    + intros i Hi. destruct (decide (i = 0)) as [->|]; [by rewrite Z.add_0_r|].
      replace (va + i) with (va + 1 + (i - 1)) by lia. apply Hs. lia.
Qed.

(** The string of the process at [va]. *)
Definition ustring (va : Z) (str : list Z) : Prop :=
  ubyte s.(Proc.world) p.(pgdir) (va + Z.of_nat (length str)) = 0 /\
  (forall i c, str !! i = Some c -> c <> 0 /\ ubyte s.(Proc.world) p.(pgdir) (va + Z.of_nat i) = c).

Lemma argptr_run n size : is_s32 size ->
  exists o, argptr cur n size s = Ok (o, s) /\
    (o <> None <-> arg_at n + 4 <= p.(sz) /\ u32 (uword (arg_at n)) < p.(sz) /\ 0 <= size /\ u32 (uword (arg_at n)) + size <= p.(sz)) /\
    (forall a, o = Some a -> a = u32 (uword (arg_at n)) /\ 0 <= a /\ 0 <= size /\ a + size <= p.(sz)).
Proof.
  intros Hs. unfold argptr. rewrite (kM_bind_run _ _ _ _ _ getp_here), (kM_bind_run _ _ _ _ _ (argint_run n)).
  destruct (Z.leb_spec (arg_at n + 4) p.(sz)); [|eexists; split; [reflexivity|split; [|done]; intuition; lia]].
  rewrite u32_s32. pose proof (u32_range (uword (arg_at n))) as Hr. unfold is_u32, is_s32, KERNBASE in *.
  destruct ((size <? 0) || (p.(sz) <=? u32 (uword (arg_at n)))) eqn:E; cbn [orb].
  - exists None. split; [done|]. apply orb_true_iff in E. split; [|done]. intuition lia.
  - apply orb_false_iff in E as [E1 E2]. apply Z.ltb_ge in E1. apply Z.leb_gt in E2.
    rewrite (u32_small (_ + size)) by (unfold is_u32; lia).
    destruct (Z.ltb_spec p.(sz) (u32 (uword (arg_at n)) + size)).
    + exists None. split; [done|]. split; [|done]. intuition lia.
    + eexists. split; [reflexivity|]. split; [split; [intros _; lia|done]|]. intros a [= <-]. lia.
Qed.

Lemma argstr_run n :
  exists o, argstr cur n s = Ok (o, s) /\
    forall str, o = Some str -> exists a, 0 <= a /\ a + Z.of_nat (length str) < p.(sz) /\ ustring a str.
Proof.
  unfold argstr. rewrite (kM_bind_run _ _ _ _ _ (argint_run n)).
  destruct (Z.leb_spec (arg_at n + 4) p.(sz)); [|by exists None]. rewrite u32_s32. unfold fetchstr.
  rewrite (kM_bind_run _ _ _ _ _ getp_here). pose proof (u32_range (uword (arg_at n))) as Hr. unfold is_u32 in Hr.
  destruct (Z.leb_spec p.(sz) (u32 (uword (arg_at n)))); [by exists None|].
  destruct (fetchstr_loop_run (Z.to_nat (p.(sz) - u32 (uword (arg_at n)))) (u32 (uword (arg_at n)))) as (o & Ho & Hs); [lia|lia|].
  exists o. split; [by apply svc_ok|]. intros str ->. destruct Hs as (A & B & C).
  exists (u32 (uword (arg_at n))). split; [lia|]. split; [lia|]. by split.
Qed.

End ArgSpec.

(** C13. Fetching arguments never leaves the memory of the process, whatever
    its stack pointer and its arguments are: with all addresses below [sz]
    mapped no fetch faults, a word comes from inside, a pointer that passes
    [argptr] has all its [size] bytes inside, for any int [size], and a string
    that passes [argstr] has its NUL inside. *)
Theorem args_in_bounds cur s p n size :
  s.(ptable) !! cur = Some p -> 0 <= p.(sz) <= KERNBASE -> mapped_below s.(Proc.world) p -> is_s32 size ->
  argint cur n s = Ok (if arg_at p n + 4 <=? p.(sz) then Some (s32 (uword s p (arg_at p n))) else None, s) /\
  (exists o, argptr cur n size s = Ok (o, s) /\
     (o <> None <-> arg_at p n + 4 <= p.(sz) /\ u32 (uword s p (arg_at p n)) < p.(sz) /\ 0 <= size /\
                    u32 (uword s p (arg_at p n)) + size <= p.(sz)) /\
     (forall a, o = Some a -> a = u32 (uword s p (arg_at p n)) /\ 0 <= a /\ 0 <= size /\ a + size <= p.(sz))) /\
  (exists o, argstr cur n s = Ok (o, s) /\
     forall str, o = Some str -> exists a, 0 <= a /\ a + Z.of_nat (length str) < p.(sz) /\ ustring s p a str).
Proof.
  intros Hp Hsz Hm Hs. split; [by apply argint_run|]. split; [by apply argptr_run|by apply argstr_run].
Qed.
