(* ===== verification/Sysfile.v ===== *)
(** * File system calls (sysfile.c) and program loading (exec.c)

    Each system call in full: its argument checks, its transaction, and every
    path that gives up, with what it releases. *)

From S2P Require Import Prelude CString Mmu Kalloc Vm Proc Bio Layout Log Fs Pipe World File Syscall.

Definition O_RDONLY : Z := 0.
Definition O_WRONLY : Z := 1.
Definition O_RDWR : Z := 2.
Definition O_CREATE : Z := 512.
Definition MAXARG : nat := 32.
Definition ELF_MAGIC : Z := 1179403647.    (* 0x464C457F *)
Definition ELF_PROG_LOAD : Z := 1.

(** [if(... < 0) return -1]. *)
Definition need {S A} (o : option A) (k : A -> kM S Z) : kM S Z :=
  match o with Some a => k a | None => mret (-1) end.

Section Sysfile.

(** Linker symbols, the device table, and the running process: its index and
    its pid. *)
Variable kend kdata : Z.
Variable devread : Z -> option (nat -> Z -> kM fsst (Z * list Z)).
Variable devwrite : Z -> option (nat -> list Z -> Z -> kM fsst Z).
Variable cur : nat.
Variable me : Z.

Abbreviation readi := (readi me devread).
Abbreviation writei := (writei me devwrite).
Abbreviation fileclose := (fileclose kend me).

Definition fsc {A} (m : kM fsst A) : kM (kst world) A := svc (onfs m).

(** [end_op(); return -1]. *)
Definition fail_tx : kM (kst world) Z := _ ← fsc (end_tx me); mret (-1).

Definition sys_dup : kM (kst world) Z :=
  o ← argfd cur 0;
  need o (fun '(_, f) =>
  fd ← fdalloc cur f;
  if fd <? 0 then mret (-1)
  else
    _ ← svc (filedup f);
    mret fd).

Definition sys_read : kM (kst world) Z :=
  o ← argfd cur 0;
  need o (fun '(_, f) =>
  o ← argint cur 2;
  need o (fun n =>
  o ← argptr cur 1 n;
  need o (fun a =>
  p ← getp cur;
  svc (fileread me devread p.(pgdir) (c_true p.(killed)) f a n)))).

Definition sys_write : kM (kst world) Z :=
  o ← argfd cur 0;
  need o (fun '(_, f) =>
  o ← argint cur 2;
  need o (fun n =>
  o ← argptr cur 1 n;
  need o (fun a =>
  p ← getp cur;
  svc (filewrite me devwrite p.(pgdir) (c_true p.(killed)) f a n)))).

Definition sys_close : kM (kst world) Z :=
  o ← argfd cur 0;
  need o (fun '(fd, f) =>
  _ ← setp cur (fun p => with_ofile p (<[Z.to_nat fd := 0]> p.(ofile)));
  _ ← svc (fileclose f);
  mret 0).

Definition sys_fstat : kM (kst world) Z :=
  o ← argfd cur 0;
  need o (fun '(_, f) =>
  o ← argptr cur 1 20;
  need o (fun st =>
  p ← getp cur;
  svc (filestat me p.(pgdir) f st))).

(** The link count of inode [ip] plus [k], written through. *)
Definition add_nlink (ip : nat) (k : Z) : kM fsst unit :=
  _ ← seti ip (fun p => with_d p (set_nlink p.(i_d) (s16 (p.(i_d).(d_nlink) + k))));
  iupdate me ip.

(** The label [bad] of [sys_link]. *)
Definition link_bad (ip : nat) : kM (kst world) Z :=
  _ ← fsc (ilock me ip);
  _ ← fsc (add_nlink ip (-1));
  _ ← fsc (iunlockput me ip);
  fail_tx.

Definition sys_link : kM (kst world) Z :=
  o ← argstr cur 0;
  need o (fun old =>
  o ← argstr cur 1;
  need o (fun new =>
  _ ← fsc begin_tx;
  c ← getp cur;
  o ← fsc (namei me devread (unptr c.(cwd)) old);
  match o with
  | None => fail_tx
  | Some ip =>
      _ ← fsc (ilock me ip);
      x ← fsc (geti ip);
      if x.(i_d).(d_type) =? T_DIR then
        _ ← fsc (iunlockput me ip);
        fail_tx
      else
        _ ← fsc (add_nlink ip 1);
        _ ← fsc (iunlock me ip);
        r ← fsc (nameiparent me devread (unptr c.(cwd)) new (replicate DIRSIZ 0));
        match r with
        | (None, _) => link_bad ip
        | (Some dp, name) =>
            _ ← fsc (ilock me dp);
            d ← fsc (geti dp);
            x ← fsc (geti ip);
            r ← (if negb (d.(i_dev) =? x.(i_dev)) then mret (-1)
                 else fsc (dirlink me devread devwrite dp name x.(i_inum)));
            if r <? 0 then
              _ ← fsc (iunlockput me dp);
              link_bad ip
            else
              _ ← fsc (iunlockput me dp);
              _ ← fsc (iput me ip);
              _ ← fsc (end_tx me);
              mret 0
        end
  end)).

(** The loop of [isdirempty], [k] entries from [off] on. *)
Fixpoint isdirempty_loop (dp : nat) (off : Z) (k : nat) : kM fsst bool :=
  match k with
  | O => kpanic "out of fuel"
  | S k =>
      p ← geti dp;
      if off <? p.(i_d).(d_size) then
        r ← readi dp off sizeof_de;
        if negb (r.1 =? sizeof_de) then kpanic "isdirempty: readi"
        else if negb (de_inum r.2 =? 0) then mret false
        else isdirempty_loop dp (off + sizeof_de) k
      else mret true
  end.

Definition isdirempty (dp : nat) : kM fsst bool :=
  p ← geti dp;
  isdirempty_loop dp (2 * sizeof_de) (dir_turns p.(i_d).(d_size)).

(** The label [bad] of [sys_unlink]. *)
Definition unlink_bad (dp : nat) : kM (kst world) Z :=
  _ ← fsc (iunlockput me dp);
  fail_tx.

Definition sys_unlink : kM (kst world) Z :=
  o ← argstr cur 0;
  need o (fun path =>
  _ ← fsc begin_tx;
  c ← getp cur;
  r ← fsc (nameiparent me devread (unptr c.(cwd)) path (replicate DIRSIZ 0));
  match r with
  | (None, _) => fail_tx
  | (Some dp, name) =>
      _ ← fsc (ilock me dp);
      if (namecmp name (lit ".") =? 0) || (namecmp name (lit "..") =? 0) then unlink_bad dp
      else
        r ← fsc (dirlookup me devread dp name);
        match r with
        | None => unlink_bad dp
        | Some (ip, off) =>
            _ ← fsc (ilock me ip);
            x ← fsc (geti ip);
            if x.(i_d).(d_nlink) <? 1 then kpanic "unlink: nlink < 1"
            else
              full ← (if x.(i_d).(d_type) =? T_DIR then
                        e ← fsc (isdirempty ip); mret (negb e)
                      else mret false);
              if (full : bool) then
                _ ← fsc (iunlockput me ip);
                unlink_bad dp
              else
                w ← fsc (writei dp (replicate 16 0) off sizeof_de);
                if negb (w =? sizeof_de) then kpanic "unlink: writei"
                else
                  _ ← (if x.(i_d).(d_type) =? T_DIR then fsc (add_nlink dp (-1)) else mret tt);
                  _ ← fsc (iunlockput me dp);
                  _ ← fsc (add_nlink ip (-1));
                  _ ← fsc (iunlockput me ip);
                  _ ← fsc (end_tx me);
                  mret 0
        end
  end).

(** [create]: the locked inode, or null. *)
Definition create (path : list Z) (ty major minor : Z) : kM (kst world) (option nat) :=
  c ← getp cur;
  r ← fsc (nameiparent me devread (unptr c.(cwd)) path (replicate DIRSIZ 0));
  match r with
  | (None, _) => mret None
  | (Some dp, name) =>
      _ ← fsc (ilock me dp);
      r ← fsc (dirlookup me devread dp name);
      match r with
      | Some (ip, _) =>
          _ ← fsc (iunlockput me dp);
          _ ← fsc (ilock me ip);
          x ← fsc (geti ip);
          if (ty =? T_FILE) && (x.(i_d).(d_type) =? T_FILE) then mret (Some ip)
          else
            _ ← fsc (iunlockput me ip);
            mret None
      | None =>
          d ← fsc (geti dp);
          ip ← fsc (ialloc me d.(i_dev) ty);
          _ ← fsc (ilock me ip);
          _ ← fsc (seti ip (fun p => with_d p (set_nlink (set_dev p.(i_d) (s16 major) (s16 minor)) 1)));
          _ ← fsc (iupdate me ip);
          x ← fsc (geti ip);
          _ ← (if ty =? T_DIR then
                 _ ← fsc (add_nlink dp 1);
                 r ← fsc (dirlink me devread devwrite ip (lit ".") x.(i_inum));
                 if r <? 0 then kpanic "create dots"
                 else
                   r ← fsc (dirlink me devread devwrite ip (lit "..") d.(i_inum));
                   if r <? 0 then kpanic "create dots" else mret tt
               else mret tt);
          r ← fsc (dirlink me devread devwrite dp name x.(i_inum));
          if r <? 0 then kpanic "create: dirlink"
          else
            _ ← fsc (iunlockput me dp);
            mret (Some ip)
      end
  end.

(** The inode that [sys_open] opens, locked; [None] after an error. *)
Definition open_inode (path : list Z) (omode : Z) : kM (kst world) (option nat) :=
  if c_true (Z.land omode O_CREATE) then create path T_FILE 0 0
  else
    c ← getp cur;
    o ← fsc (namei me devread (unptr c.(cwd)) path);
    match o with
    | None => mret None
    | Some ip =>
        _ ← fsc (ilock me ip);
        x ← fsc (geti ip);
        if (x.(i_d).(d_type) =? T_DIR) && negb (omode =? O_RDONLY) then
          _ ← fsc (iunlockput me ip);
          mret None
        else mret (Some ip)
    end.

Definition sys_open : kM (kst world) Z :=
  o ← argstr cur 0;
  need o (fun path =>
  o ← argint cur 1;
  need o (fun omode =>
  _ ← fsc begin_tx;
  o ← open_inode path omode;
  match o with
  | None => fail_tx
  | Some ip =>
      f ← svc filealloc;
      fd ← (if f =? 0 then mret (-1) else fdalloc cur f);
      if fd <? 0 then
        _ ← (if f =? 0 then mret tt else svc (fileclose f));
        _ ← fsc (iunlockput me ip);
        fail_tx
      else
        _ ← fsc (iunlock me ip);
        _ ← fsc (end_tx me);
        _ ← svc (setf f (fun x => mk_file FD_INODE x.(f_ref)
              (if c_true (Z.land omode O_WRONLY) then 0 else 1)
              (if c_true (Z.land omode O_WRONLY) || c_true (Z.land omode O_RDWR) then 1 else 0)
              x.(f_pipe) ip 0));
        mret fd
  end)).

Definition sys_mkdir : kM (kst world) Z :=
  _ ← fsc begin_tx;
  o ← argstr cur 0;
  match o with
  | None => fail_tx
  | Some path =>
      o ← create path T_DIR 0 0;
      match o with
      | None => fail_tx
      | Some ip =>
          _ ← fsc (iunlockput me ip);
          _ ← fsc (end_tx me);
          mret 0
      end
  end.

(** The arguments of [sys_mknod]. *)
Definition mknod_args : kM (kst world) (option (list Z * Z * Z)) :=
  o ← argstr cur 0;
  match o with
  | None => mret None
  | Some path =>
      o ← argint cur 1;
      match o with
      | None => mret None
      | Some major =>
          o ← argint cur 2;
          mret ((fun minor => (path, major, minor)) <$> o)
      end
  end.

Definition sys_mknod : kM (kst world) Z :=
  _ ← fsc begin_tx;
  o ← mknod_args;
  match o with
  | None => fail_tx
  | Some (path, major, minor) =>
      o ← create path T_DEV (s16 major) (s16 minor);
      match o with
      | None => fail_tx
      | Some ip =>
          _ ← fsc (iunlockput me ip);
          _ ← fsc (end_tx me);
          mret 0
      end
  end.

Definition sys_chdir : kM (kst world) Z :=
  _ ← fsc begin_tx;
  o ← argstr cur 0;
  match o with
  | None => fail_tx
  | Some path =>
      c ← getp cur;
      o ← fsc (namei me devread (unptr c.(cwd)) path);
      match o with
      | None => fail_tx
      | Some ip =>
          _ ← fsc (ilock me ip);
          x ← fsc (geti ip);
          if negb (x.(i_d).(d_type) =? T_DIR) then
            _ ← fsc (iunlockput me ip);
            fail_tx
          else
            _ ← fsc (iunlock me ip);
            _ ← fsc (iput me (unptr c.(cwd)));
            _ ← fsc (end_tx me);
            _ ← setp cur (fun p => with_cwd p (ptr ip));
            mret 0
      end
  end.

Definition sys_pipe : kM (kst world) Z :=
  o ← argptr cur 0 8;
  need o (fun fd =>
  o ← svc (pipealloc kend me);
  need o (fun '(rf, wf) =>
  fd0 ← fdalloc cur rf;
  fd1 ← (if fd0 <? 0 then mret (-1) else fdalloc cur wf);
  if fd1 <? 0 then
    _ ← (if 0 <=? fd0 then setp cur (fun p => with_ofile p (<[Z.to_nat fd0 := 0]> p.(ofile))) else mret tt);
    _ ← svc (fileclose rf);
    _ ← svc (fileclose wf);
    mret (-1)
  else
    p ← getp cur;
    _ ← svc (ustore32 p.(pgdir) fd fd0);
    _ ← svc (ustore32 p.(pgdir) (fd + 4) fd1);
    mret 0)).

(** ** exec.c and loaduvm of vm.c *)

Fixpoint loaduvm_loop (fuel : nat) (ip : nat) (pgdir addr i offset sz : Z) : kM world Z :=
  match fuel with
  | O => kpanic "out of fuel"
  | S fuel =>
      if i <? sz then
        pte ← onmem (walkpgdir pgdir (u32 (addr + i)) false);
        if pte =? 0 then kpanic "loaduvm: address should exist"
        else
          e ← onmem (ld pte);
          let pa := PTE_ADDR e in
          let n := if u32 (sz - i) <? PGSIZE then u32 (sz - i) else PGSIZE in
          r ← onfs (readi ip (u32 (offset + i)) n);
          _ ← onmem (kmodify (fun k => set_mem k (store_bytes k.(kmem_mem) (P2V pa) r.2)));
          if negb (u32 r.1 =? n) then mret (-1)
          else loaduvm_loop fuel ip pgdir addr (u32 (i + PGSIZE)) offset sz
      else mret 0
  end.

Definition loaduvm (ip : nat) (pgdir addr offset sz : Z) : kM world Z :=
  if negb (addr mod PGSIZE =? 0) then kpanic "loaduvm: addr must be page aligned"
  else loaduvm_loop (S (Z.to_nat ((sz + PGSIZE - 1) / PGSIZE))) ip pgdir addr 0 offset sz.

(** The loop over the [k] program headers from [off] on: the new [sz], or
    [None] for [goto bad]. *)
Fixpoint exec_load (k : nat) (ip : nat) (pgdir off sz : Z) : kM world (option Z) :=
  match k with
  | O => mret (Some sz)
  | S k =>
      r ← onfs (readi ip off 32);
      if negb (r.1 =? 32) then mret None
      else
        let vaddr := get32 r.2 8 in
        let filesz := get32 r.2 16 in
        let memsz := get32 r.2 20 in
        if negb (get32 r.2 0 =? ELF_PROG_LOAD) then exec_load k ip pgdir (u32 (off + 32)) sz
        else if memsz <? filesz then mret None
        else if u32 (vaddr + memsz) <? vaddr then mret None
        else
          sz ← onmem (allocuvm kend pgdir sz (u32 (vaddr + memsz)));
          if sz =? 0 then mret None
          else if negb (vaddr mod PGSIZE =? 0) then mret None
          else
            l ← loaduvm ip pgdir vaddr (get32 r.2 4) filesz;
            if l <? 0 then mret None
            else exec_load k ip pgdir (u32 (off + 32)) sz
  end.

(** The loop that pushes the argument strings: [sp] and the pointers. *)
Fixpoint push_args (pgdir sp : Z) (argv : list (list Z)) (argc : nat) : kM world (option (Z * list Z)) :=
  match argv with
  | [] => mret (Some (sp, []))
  | a :: argv =>
      if (MAXARG <=? argc)%nat then mret None
      else
        let sp := Z.land (u32 (sp - (Z.of_nat (length a) + 1))) (u32 (Z.lnot 3)) in
        r ← onmem (copyout pgdir sp (a ++ [0]));
        if r <? 0 then mret None
        else
          o ← push_args pgdir sp argv (S argc);
          mret ((fun '(sp', us) => (sp', sp :: us)) <$> o)
  end.

(** The words of a list, little endian. *)
Definition words (l : list Z) : list Z := concat (map (fun v => put32 (replicate 4 0) 0 v) l).

(** From the page-aligned stack to the last [copyout]: the new [sz] and [sp]. *)
Definition exec_stack (pgdir sz : Z) (argv : list (list Z)) : kM world (option (Z * Z)) :=
  let sz := PGROUNDUP sz in
  sz ← onmem (allocuvm kend pgdir sz (u32 (sz + 2 * PGSIZE)));
  if sz =? 0 then mret None
  else
    _ ← onmem (clearpteu pgdir (u32 (sz - 2 * PGSIZE)));
    o ← push_args pgdir sz argv 0;
    match o with
    | None => mret None
    | Some (sp, us) =>
        let argc := Z.of_nat (length argv) in
        let ustack := 4294967295 :: argc :: u32 (sp - (argc + 1) * 4) :: us ++ [0] in
        let sp := u32 (sp - (3 + argc + 1) * 4) in
        r ← onmem (copyout pgdir sp (words ustack));
        if r <? 0 then mret None else mret (Some (sz, sp))
    end.

(** The name after the last slash. *)
Fixpoint last_elem (s last : list Z) : list Z :=
  match s with
  | [] => last
  | c :: s => last_elem s (if c =? slash then s else last)
  end.

Definition exec_commit (path : list Z) (pd n sp entry : Z) : kM (kst world) Z :=
  _ ← setp cur (fun p => with_name p (safestrcpy_field p.(name) (last_elem path path) 16));
  p ← getp cur;
  _ ← setp cur (fun p => with_sz (with_pgdir p pd) n);
  _ ← setp cur (fun p => let t := p.(tfv) in with_tfv p
        (mk_trapframe t.(tf_edi) t.(tf_esi) t.(tf_ebp) t.(tf_oesp) t.(tf_ebx) t.(tf_edx)
           t.(tf_ecx) t.(tf_eax) t.(tf_gs) t.(tf_fs) t.(tf_es) t.(tf_ds) t.(tf_trapno)
           t.(tf_err) entry t.(tf_cs) t.(tf_eflags) sp t.(tf_ss)));
  q ← getp cur;
  match switchuvm (mk_cpu (Some cur) 0 0) q with
  | Panic msg => kpanic msg
  | Ok _ =>
      _ ← svc (onmem (freevm kend p.(pgdir)));
      mret 0
  end.

(** [exec]; the label [bad] is passed the page table and, while the file is
    still open, its inode. *)
Definition exec_bad (pgdir : Z) (ip : option nat) : kM (kst world) Z :=
  _ ← (if pgdir =? 0 then mret tt else svc (onmem (freevm kend pgdir)));
  match ip with
  | Some ip =>
      _ ← fsc (iunlockput me ip);
      fail_tx
  | None => mret (-1)
  end.

Definition exec (path : list Z) (argv : list (list Z)) : kM (kst world) Z :=
  _ ← fsc begin_tx;
  c ← getp cur;
  o ← fsc (namei me devread (unptr c.(cwd)) path);
  match o with
  | None => fail_tx
  | Some ip =>
      _ ← fsc (ilock me ip);
      r ← fsc (readi ip 0 52);
      if negb (r.1 =? 52) then exec_bad 0 (Some ip)
      else if negb (get32 r.2 0 =? ELF_MAGIC) then exec_bad 0 (Some ip)
      else
        pgdir ← svc (onmem (setupkvm kend kdata));
        if pgdir =? 0 then exec_bad 0 (Some ip)
        else
          o ← svc (exec_load (Z.to_nat (get16 r.2 44)) ip pgdir (get32 r.2 28) 0);
          match o with
          | None => exec_bad pgdir (Some ip)
          | Some sz =>
              _ ← fsc (iunlockput me ip);
              _ ← fsc (end_tx me);
              o ← svc (exec_stack pgdir sz argv);
              match o with
              | None => exec_bad pgdir None
              | Some (sz, sp) => exec_commit path pgdir sz sp (get32 r.2 24)
              end
          end
  end.

(** The loop of [sys_exec] from entry [i] on, [k] entries of [argv] left. *)
Fixpoint exec_args (k : nat) (uargv i : Z) : kM (kst world) (option (list (list Z))) :=
  match k with
  | O => mret None
  | S k =>
      o ← fetchint cur (u32 (uargv + 4 * i));
      match o with
      | None => mret None
      | Some uarg =>
          if uarg =? 0 then mret (Some [])
          else
            o ← fetchstr cur (u32 uarg);
            match o with
            | None => mret None
            | Some a =>
                r ← exec_args k uargv (i + 1);
                mret (cons a <$> r)
            end
      end
  end.

Definition sys_exec : kM (kst world) Z :=
  o ← argstr cur 0;
  need o (fun path =>
  o ← argint cur 1;
  need o (fun uargv =>
  o ← exec_args MAXARG (u32 uargv) 0;
  need o (fun argv => exec path argv))).

End Sysfile.
