(* ===== verification/Trap.v ===== *)
(** * System calls and traps (sysproc.c, syscall.c, trap.c)

    The handlers of sysproc.c, the table of system calls, and the parts of
    [trap] that change processes: the system call, the clock tick and the
    fault.  A handler that gives up the processor for good, or sleeps on a
    channel, says so in its result. *)

From S2P Require Import Prelude CString Mmu Kalloc Vm Proc Layout Log Fs Pipe World File Syscall Sysfile.

(** A system call returned, ended the process, or left it asleep. *)
Inductive sysout := SRet (v : Z) | SExit | SSleep.

Section Trap.

Variable kend kdata : Z.
Variable devread : Z -> option (nat -> Z -> kM fsst (Z * list Z)).
Variable devwrite : Z -> option (nat -> list Z -> Z -> kM fsst Z).
Variable cur : nat.
Variable me : Z.

(** Linker symbols: the entry points of a new kernel stack, the first program,
    and the addresses of [ticks] and [tickslock]. *)
Variable forkret trapret initcode initcode_size ticks_at tickslock_at : Z.

#[local] Instance svc_here : ProcSvc world := kernel_svc kend kdata me devread initcode initcode_size.

Definition ret (m : kM (kst world) Z) : kM (kst world) sysout := v ← m; mret (SRet v).

Definition sys_fork : kM (kst world) sysout := ret (fork forkret trapret cur).

Definition sys_exit : kM (kst world) sysout := _ ← exit cur; mret SExit.

Definition sys_wait : kM (kst world) sysout :=
  r ← wait cur;
  mret (match r with WaitPid n => SRet n | WaitErr => SRet (-1) | WaitSleep => SSleep end).

Definition sys_kill : kM (kst world) sysout :=
  ret (o ← argint cur 0; need o kill).

Definition sys_getpid : kM (kst world) sysout :=
  ret (p ← getp cur; mret p.(pid)).

(** [struct procinfo] is 56 bytes; the two char arrays keep the bytes that
    [safestrcpy] does not write. *)
Definition load_procinfo (pd a : Z) : kM world procinfo :=
  bs ← uloads pd a 56;
  mret (mk_procinfo (get32 bs 0) (get32 bs 4) (take 16 (drop 8 bs)) (get32 bs 24) (get32 bs 28)
          (take 16 (drop 32 bs)) (get32 bs 48) (get32 bs 52)).

Definition store_procinfo (pd a : Z) (i : procinfo) : kM world unit :=
  _ ← ustore32 pd a i.(pi_pid);
  _ ← ustore32 pd (a + 4) i.(pi_ppid);
  _ ← ustores pd (a + 8) i.(pi_state);
  _ ← ustore32 pd (a + 24) i.(pi_sz);
  _ ← ustore32 pd (a + 28) i.(pi_cputicks);
  _ ← ustores pd (a + 32) i.(pi_name);
  _ ← ustore32 pd (a + 48) i.(pi_nice);
  ustore32 pd (a + 52) i.(pi_is_privileged).

(** The walk of [getprocinfo] up the process tree visits each process at most
    once; a null [info] does not pass the tests of [argptr] unless 0 is an
    address of the process. *)
Definition sys_getprocinfo : kM (kst world) sysout :=
  ret (
    o ← argint cur 0;
    need o (fun n =>
    o ← argptr cur 1 56;
    need o (fun a =>
    p ← getp cur;
    info ← svc (if a =? 0 then mret None else i ← load_procinfo p.(pgdir) a; mret (Some i));
    s ← kget;
    match getprocinfo (S NPROC) cur n info s with
    | None => kpanic "out of fuel"
    | Some (r, Some i) =>
        _ ← (if r =? 0 then svc (store_procinfo p.(pgdir) a i) else mret tt);
        mret r
    | Some (r, None) => mret r
    end))).

Definition sys_sbrk : kM (kst world) sysout :=
  ret (
    o ← argint cur 0;
    need o (fun n =>
    p ← getp cur;
    r ← growproc cur n;
    if r <? 0 then mret (-1) else mret (s32 p.(sz)))).

(** One turn of the loop of [sys_sleep], which started at [ticks0]. *)
Definition sleep_turn (ticks0 n : Z) : kM (kst world) sysout :=
  s ← kget;
  if u32 (s.(Proc.world).(w_ticks) - ticks0) <? u32 n then
    p ← getp cur;
    if c_true p.(killed) then mret (SRet (-1))
    else
      _ ← Proc.sleep (Some cur) (KObj ticks_at) (KObj tickslock_at);
      mret SSleep
  else mret (SRet 0).

Definition sys_sleep : kM (kst world) sysout :=
  o ← argint cur 0;
  match o with
  | None => mret (SRet (-1))
  | Some n => s ← kget; sleep_turn s.(Proc.world).(w_ticks) n
  end.

Definition sys_uptime : kM (kst world) sysout :=
  ret (s ← kget; mret (s32 s.(Proc.world).(w_ticks))).

Definition sys_nice : kM (kst world) sysout :=
  ret (
    o ← argint cur 0;
    need o (fun n =>
    o ← argint cur 1;
    need o (fun priority => set_nice n priority))).

(** [syscalls[]]: the handlers by number. *)
Definition syscalls : list (option (kM (kst world) sysout)) :=
  [None;
   Some sys_fork;
   Some sys_exit;
   Some sys_wait;
   Some (ret (sys_pipe kend cur me));
   Some (ret (sys_read devread cur me));
   Some sys_kill;
   Some (ret (sys_exec kend kdata devread cur me));
   Some (ret (sys_fstat cur me));
   Some (ret (sys_chdir devread cur me));
   Some (ret (sys_dup cur));
   Some sys_getpid;
   Some sys_sbrk;
   Some sys_sleep;
   Some sys_uptime;
   Some (ret (sys_open kend devread devwrite cur me));
   Some (ret (sys_write devwrite cur me));
   Some (ret (sys_mknod devread devwrite cur me));
   Some (ret (sys_unlink devread devwrite cur me));
   Some (ret (sys_link devread devwrite cur me));
   Some (ret (sys_mkdir devread devwrite cur me));
   Some (ret (sys_close kend cur me));
   Some sys_getprocinfo;
   Some sys_nice].

Definition set_eax (v : Z) : kM (kst world) unit :=
  setp cur (fun p => with_tfv p (with_tf_eax p.(tfv) (u32 v))).

(** The message about an unknown number goes to the console. *)
Definition syscall : kM (kst world) sysout :=
  p ← getp cur;
  let num := s32 p.(tfv).(tf_eax) in
  match (if (0 <? num) && (num <? Z.of_nat (length syscalls))
         then nth (Z.to_nat num) syscalls None else None) with
  | Some f =>
      r ← f;
      match r with
      | SRet v => _ ← set_eax v; mret r
      | _ => mret r
      end
  | None => _ ← set_eax (-1); mret (SRet (-1))
  end.

(** [forkret], where a new process comes out of the scheduler, after it
    released [ptable.lock]: [first] is the static variable, and the result its
    new value.  The first process reads the superblock and recovers the log. *)
Definition forkret_run (first : bool) : kM (kst world) bool :=
  if first then
    _ ← fsc (iinit me ROOTDEV);
    _ ← fsc (onlog (initlog me ROOTDEV));
    mret false
  else mret first.

(** ** trap.c *)

Definition T_SYSCALL : Z := 64.
Definition T_TIMER : Z := 32.       (* T_IRQ0 + IRQ_TIMER *)

(** [trap] for a system call; [SExit] when it ended the process. *)
Definition trap_syscall (t : trapframe) : kM (kst world) sysout :=
  p ← getp cur;
  if c_true p.(killed) then sys_exit
  else
    _ ← setp cur (fun p => with_tfv p t);
    r ← syscall;
    match r with
    | SRet _ =>
        p ← getp cur;
        if c_true p.(killed) then sys_exit else mret r
    | _ => mret r
    end.

(** The clock tick: [running] is [myproc()], [cpu0] whether this is CPU 0. *)
Definition trap_timer (running : option nat) (cpu0 : bool) : kM (kst world) unit :=
  _ ← match running with
      | Some i =>
          p ← getp i;
          if bool_decide (p.(state) = RUNNING)
          then setp i (fun p => with_cputicks p (u32 (p.(cputicks) + 1))) else mret tt
      | None => mret tt
      end;
  if cpu0 then
    _ ← svc (kmodify (fun w => mk_world w.(w_mem) w.(w_fs) w.(w_files) w.(w_pipes) (u32 (w.(w_ticks) + 1))));
    wakeup (KObj ticks_at)
  else mret tt.

(** The default case: a trap that is no interrupt. *)
Definition trap_fault (running : option nat) (t : trapframe) : kM (kst world) unit :=
  match running with
  | None => kpanic "trap"
  | Some i =>
      if Z.land t.(tf_cs) 3 =? 0 then kpanic "trap"
      else setp i (fun p => with_killed p 1)
  end.

(** The end of [trap] for the process [cur]: whether it exits, yields or
    returns to where it was. *)
Inductive trap_end := TExit | TYield | TReturn.

Definition trap_tail (t : trapframe) : kM (kst world) trap_end :=
  p ← getp cur;
  if c_true p.(killed) && (Z.land t.(tf_cs) 3 =? DPL_USER) then
    _ ← exit cur;
    mret TExit
  else if bool_decide (p.(state) = RUNNING) && (t.(tf_trapno) =? T_TIMER) then
    _ ← yield cur;
    mret TYield
  else mret TReturn.

(** The last test, once a process that yielded runs again. *)
Definition trap_resumed (t : trapframe) : kM (kst world) trap_end :=
  p ← getp cur;
  if c_true p.(killed) && (Z.land t.(tf_cs) 3 =? DPL_USER) then
    _ ← exit cur;
    mret TExit
  else mret TReturn.

End Trap.
