(* ===== verification/Refs.v ===== *)
(** * Reference counts of open files

    The count of an open file is the number of descriptors, in all processes,
    that name it.  The system calls that create and destroy descriptors keep
    this through states in which it is off by what the kernel holds in hand;
    all others leave counts and descriptors alone. *)

From S2P Require Import Prelude CString Mmu Kalloc Vm Proc ProcSpec Bio Layout Log Fs Pipe World File Syscall Sysfile Trap.

(** ** Counting *)

Definition cntl (l : list Z) (x : Z) : Z := Z.of_nat (count_occ Z.eq_dec l x).

Fixpoint fdcount (t : list proc) (x : Z) : Z :=
  match t with
  | [] => 0
  | p :: t => cntl p.(ofile) x + fdcount t x
  end.

(** One at [f]. *)
Definition one (f x : Z) : Z := if x =? f then 1 else 0.

Lemma cntl_cons a l x : cntl (a :: l) x = one a x + cntl l x.
Proof. unfold cntl, one. simpl. destruct (Z.eq_dec a x) as [->|]; case_bool; lia. Qed.

Lemma cntl_insert l i g f x :
  l !! i = Some g -> cntl (<[i := f]> l) x = cntl l x - one g x + one f x.
Proof.
  revert i. induction l as [|a l IH]; intros [|i] H; simpl in *; try done.
  - injection H as ->. rewrite !cntl_cons. lia.
  - rewrite !cntl_cons, (IH _ H). lia.
Qed.

Lemma cntl_elem l x : x ∈ l -> 1 <= cntl l x.
Proof. intros H. apply list_elem_of_In, (count_occ_In Z.eq_dec) in H. unfold cntl. lia. Qed.

Lemma cntl_bound l x : 0 <= cntl l x <= Z.of_nat (length l).
Proof. unfold cntl. pose proof (count_occ_bound Z.eq_dec x l). lia. Qed.

Lemma fdcount_alter t i p (f : proc -> proc) x :
  t !! i = Some p -> fdcount (alter f i t) x = fdcount t x - cntl p.(ofile) x + cntl (f p).(ofile) x.
Proof.
  revert i. induction t as [|q t IH]; intros [|i] H; simpl in *; try done.
  - injection H as ->. lia.
  - change (list_alter f i t) with (alter f i t). rewrite (IH _ H). lia.
Qed.

Lemma fdcount_ext t t' : map ofile t' = map ofile t -> fdcount t' = fdcount t.
Proof.
  revert t'. induction t as [|p t IH]; intros [|p' t'] H; try done. injection H as E H. simpl. by rewrite E, (IH _ H).
Qed.

Lemma fdcount_elem t i p x : t !! i = Some p -> x ∈ p.(ofile) -> 1 <= fdcount t x.
Proof.
  assert (Hn : forall l, 0 <= fdcount l x).
  { induction l as [|q l IH]; simpl; [done|]. pose proof (cntl_bound q.(ofile) x). lia. }
  revert i. induction t as [|q t IH]; intros [|i] H Hx; simpl in *; try done.
  - injection H as ->. pose proof (cntl_elem _ _ Hx). pose proof (Hn t). lia.
  - pose proof (cntl_bound q.(ofile) x). pose proof (IH _ H Hx). lia.
Qed.

Lemma fdcount_bound t x :
  Forall (fun p => length p.(ofile) = NOFILE) t -> fdcount t x <= 16 * Z.of_nat (length t).
Proof.
  induction 1 as [|p t Hp _ IH]; cbn [fdcount length]; [lia|]. pose proof (cntl_bound p.(ofile) x).
  rewrite Hp in H. unfold NOFILE in H. lia.
Qed.

(** ** The invariant *)

Definition is_dead (p : proc) : bool := match p.(state) with UNUSED | ZOMBIE => true | _ => false end.
Definition no_fds (p : proc) : Prop := Forall (fun f => f = 0) p.(ofile).

(** A pointer into the open-file table. *)
Definition fptr (f : Z) : Prop := exists i, (i < NFILE)%nat /\ f = ptr i.

(** Counts are right but for [D]: what the running code holds in hand, or owes. *)
Record rinv (s : kst world) (D : Z -> Z) : Prop := {
  ri_len : length s.(ptable) = NPROC;
  ri_ofile : Forall (fun p => length p.(ofile) = NOFILE) s.(ptable);
  ri_dead : forall i p, s.(ptable) !! i = Some p -> is_dead p = true -> no_fds p;
  ri_files : length s.(Proc.world).(w_files) = NFILE;
  ri_ref : forall i x, s.(Proc.world).(w_files) !! i = Some x ->
    x.(f_ref) = fdcount s.(ptable) (ptr i) + D (ptr i);
  ri_ptr : forall i p f, s.(ptable) !! i = Some p -> f ∈ p.(ofile) -> f = 0 \/ fptr f
}.

Lemma rinv_ext s D D' : (forall x, 0 < x -> D x = D' x) -> rinv s D -> rinv s D'.
Proof.
  intros H [H1 H2 H3 H4 H5 H6]. split; try done. intros i x Hx. rewrite <- H by (unfold ptr; lia). by apply H5.
Qed.

(** ** Code that touches neither counts nor descriptors *)

Definition wq (w w' : world) : Prop := map f_ref w'.(w_files) = map f_ref w.(w_files).

#[export] Instance wq_preorder : PreOrder wq.
Proof. split; [by intros w|]. intros w1 w2 w3 H1 H2. unfold wq in *. congruence. Qed.

#[export] Hint Resolve wq_preorder : pres.

(** A slot that keeps its descriptors, does not die, and is claimed by
    [allocproc] before as after. *)
Definition kept (p p' : proc) : Prop :=
  p'.(ofile) = p.(ofile) /\ (is_dead p' = true -> is_dead p = true) /\
  (p'.(state) = EMBRYO <-> p.(state) = EMBRYO).

#[export] Instance kept_preorder : PreOrder kept.
Proof.
  split; [by intros p|]. intros p q r (A1 & A2 & A3) (B1 & B2 & B3). split; [congruence|]. split; [auto|].
  by rewrite B3.
Qed.

(** Counts and descriptors stay. *)
Definition quiet (s s' : kst world) : Prop :=
  wq s.(Proc.world) s'.(Proc.world) /\ Forall2 kept s.(ptable) s'.(ptable).

#[export] Instance quiet_preorder : PreOrder quiet.
Proof.
  split; [by intros s|]. intros s1 s2 s3 [A1 A2] [B1 B2]. split; [by etransitivity|by transitivity s2.(ptable)].
Qed.

#[export] Hint Resolve quiet_preorder : pres.

Lemma kept_lookup (t t' : list proc) i p' :
  Forall2 kept t t' -> t' !! i = Some p' -> exists p, t !! i = Some p /\ kept p p'.
Proof. intros H Hp'. by eapply Forall2_lookup_r. Qed.

Lemma kept_map (t t' : list proc) : Forall2 kept t t' -> map ofile t' = map ofile t.
Proof. induction 1 as [|p p' t t' [E _] _ IH]; [done|]. simpl. by rewrite E, IH. Qed.

(** A change of one slot. *)
Lemma kept_alter (t : list proc) i g :
  (forall p, t !! i = Some p -> kept p (g p)) -> Forall2 kept t (alter g i t).
Proof.
  intros H. apply Forall2_same_length_lookup. split; [by rewrite length_alter|]. intros j p p' Hp Hp'.
  destruct (decide (i = j)) as [<-|Hne].
  - rewrite list_lookup_alter_eq, Hp in Hp'. injection Hp' as <-. by apply H.
  - rewrite list_lookup_alter_ne, Hp in Hp' by done. by injection Hp' as <-.
Qed.

Lemma rinv_quiet s s' D : rinv s D -> quiet s s' -> rinv s' D.
Proof.
  intros [H1 H2 H3 H4 H5 H6] [Q1 Q2]. unfold wq in Q1. split.
  - by rewrite <- (Forall2_length _ _ _ Q2).
  - apply Forall_lookup. intros i p' Hp'. destruct (kept_lookup _ _ _ _ Q2 Hp') as (p & Hp & -> & _).
    rewrite Forall_lookup in H2. by eapply H2.
  - intros i p' Hp' Hd. destruct (kept_lookup _ _ _ _ Q2 Hp') as (p & Hp & E & Hdd & _). unfold no_fds. rewrite E.
    eapply H3; [exact Hp|by apply Hdd].
  - by rewrite <- (length_map f_ref), Q1, length_map.
  - intros i x' Hx'. rewrite (fdcount_ext _ _ (kept_map _ _ Q2)).
    assert (E : (f_ref <$> s.(Proc.world).(w_files)) !! i = Some x'.(f_ref)).
    { change (map f_ref s.(Proc.world).(w_files) !! i = Some x'.(f_ref)). rewrite <- Q1.
      change (map f_ref s'.(Proc.world).(w_files)) with (f_ref <$> s'.(Proc.world).(w_files)).
      by rewrite list_lookup_fmap, Hx'. }
    rewrite list_lookup_fmap in E. destruct (s.(Proc.world).(w_files) !! i) as [x|] eqn:Hx; [|done].
    injection E as <-. by apply H5.
  - intros i p' f Hp' Hf. destruct (kept_lookup _ _ _ _ Q2 Hp') as (p & Hp & E & _). rewrite E in Hf. by eapply H6.
Qed.

(** The process table does not change at all. *)
Definition still (s s' : kst world) : Prop := wq s.(Proc.world) s'.(Proc.world) /\ s'.(ptable) = s.(ptable).

#[export] Instance still_preorder : PreOrder still.
Proof.
  split; [by intros s|]. intros s1 s2 s3 [A1 A2] [B1 B2]. split; [by etransitivity|congruence].
Qed.

Lemma still_quiet s s' : still s s' -> quiet s s'.
Proof. intros [H1 H2]. split; [done|]. by rewrite H2. Qed.

Lemma pres_still {A} (m : kM (kst world) A) : pres still m -> pres quiet m.
Proof. intros H s a s' E. eapply still_quiet, H, E. Qed.

#[export] Hint Resolve still_preorder pres_still : pres.

Lemma wq_onmem {A} (m : kM kmem A) : pres wq (onmem m).
Proof. intros w a w' H. unfold onmem in H. destruct (m _) as [[b k]|]; [|done]. by injection H as <- <-. Qed.

Lemma wq_onfs {A} (m : kM fsst A) : pres wq (onfs m).
Proof. intros w a w' H. unfold onfs in H. destruct (m _) as [[b k]|]; [|done]. by injection H as <- <-. Qed.

Lemma still_svc {A} (m : kM world A) : pres wq m -> pres still (svc m).
Proof.
  intros Hm s a s' H. unfold svc in H. destruct (m _) as [[b w]|] eqn:E; [|done]. injection H as <- <-.
  split; [by eapply Hm|done].
Qed.

Lemma still_getp i : pres still (@getp world i).
Proof. intros s a s' H. unfold getp in H. destruct (_ !! i); [|done]. injection H as <- <-. reflexivity. Qed.

Lemma wq_getf f : pres wq (getf f).
Proof. intros s a s' H. unfold getf in H. destruct (_ !! _); [|done]. injection H as <- <-. reflexivity. Qed.

Lemma wq_getpipe a : pres wq (getpipe a).
Proof. intros s b s' H. unfold getpipe in H. destruct (_ !! _); [|done]. injection H as <- <-. reflexivity. Qed.

Lemma wq_setpipe a p : pres wq (setpipe a p).
Proof. by apply pres_modify. Qed.

Lemma wq_setf f g : (forall x, (g x).(f_ref) = x.(f_ref)) -> pres wq (setf f g).
Proof.
  intros H. apply pres_modify. intros w. unfold wq. cbn. change (map f_ref) with (fmap f_ref (M := list)).
  apply list_eq. intros i. rewrite !list_lookup_fmap.
  destruct (decide (unptr f = i)) as [<-|Hne].
  - rewrite list_lookup_alter_eq. destruct (_ !! _); simpl; [by rewrite H|done].
  - by rewrite list_lookup_alter_ne.
Qed.

Lemma wq_uload8 pd va : pres wq (uload8 pd va).
Proof. intros s b s' H. unfold uload8 in H. destruct (uaddr _ _ _); [|done]. injection H as <- <-. reflexivity. Qed.

Lemma wq_ustore8 pd va v : pres wq (ustore8 pd va v).
Proof. intros s b s' H. unfold ustore8 in H. destruct (uaddr _ _ _); [|done]. by eapply wq_onmem. Qed.

#[export] Hint Resolve wq_onmem wq_onfs wq_getf wq_getpipe wq_setpipe wq_uload8 wq_ustore8 still_svc still_getp : pres.

Lemma wq_uloads pd va n : pres wq (uloads pd va n).
Proof. revert va. induction n as [|n IH]; intros va; cbn [uloads]; pres. Qed.

Lemma wq_ustores pd va bs : pres wq (ustores pd va bs).
Proof. revert va. induction bs as [|c bs IH]; intros va; cbn [ustores]; pres. Qed.

#[export] Hint Resolve wq_uloads wq_ustores : pres.

Lemma wq_uload32 pd va : pres wq (uload32 pd va).
Proof. unfold uload32. pres. Qed.
Lemma wq_ustore32 pd va v : pres wq (ustore32 pd va v).
Proof. apply wq_ustores. Qed.
Lemma wq_ustore16 pd va v : pres wq (ustore16 pd va v).
Proof. apply wq_ustores. Qed.

#[export] Hint Resolve wq_uload32 wq_ustore32 wq_ustore16 : pres.

Lemma quiet_setp i (g : proc -> proc) : (forall p, kept p (g p)) -> pres quiet (@setp world i g).
Proof. intros H. apply pres_modify. intros s. split; [reflexivity|]. apply kept_alter. auto. Qed.

(** An assignment to fields of a process other than [ofile] and [state]. *)
Lemma quiet_setp_field i (g : proc -> proc) :
  (forall p, (g p).(ofile) = p.(ofile)) -> (forall p, (g p).(state) = p.(state)) -> pres quiet (@setp world i g).
Proof. intros Ho Hs. apply quiet_setp. intros p. unfold kept, is_dead. by rewrite Ho, Hs. Qed.

#[export] Hint Extern 1 (pres quiet (setp _ _)) => apply quiet_setp_field; intros; reflexivity : pres.
#[export] Hint Extern 1 (pres wq (setf _ _)) => apply wq_setf; intros; reflexivity : pres.
#[export] Hint Extern 1 (pres wq (kmodify _)) => apply pres_modify; intros; reflexivity : pres.

(** ** The operations on counts and descriptors *)

Definition plus1 (D : Z -> Z) (f : Z) : Z -> Z := fun x => D x + one f x.
Definition minus1 (D : Z -> Z) (f : Z) : Z -> Z := fun x => D x - one f x.

Lemma unptr_ptr i : unptr (ptr i) = i.
Proof. unfold unptr, ptr. case_bool; lia. Qed.

Lemma ptr_unptr f : (unptr f < NFILE)%nat -> f = ptr (unptr f).
Proof. unfold unptr, ptr, NFILE. case_bool; lia. Qed.

Lemma one_ptr i j : one (ptr i) (ptr j) = if decide (j = i) then 1 else 0.
Proof. unfold one, ptr. case_bool; case_decide; lia. Qed.

(** A file whose count is set to [r]. *)
Lemma rinv_count s D i x g r :
  rinv s D -> s.(Proc.world).(w_files) !! i = Some x -> (g x).(f_ref) = r ->
  rinv (set_world s (set_files (alter g i s.(Proc.world).(w_files)) s.(Proc.world)))
       (fun z => D z + (r - x.(f_ref)) * one (ptr i) z).
Proof.
  intros [H1 H2 H3 H4 H5 H6] Hx Hg. split; try done.
  - cbn. by rewrite length_alter.
  - intros j y Hy. cbn in Hy |- *. rewrite one_ptr. destruct (decide (j = i)) as [->|Hne].
    + rewrite list_lookup_alter_eq, Hx in Hy. injection Hy as <-. rewrite Hg. pose proof (H5 _ _ Hx). lia.
    + rewrite list_lookup_alter_ne in Hy by done. pose proof (H5 _ _ Hy). lia.
Qed.

Lemma rinv_bound s D i x :
  rinv s D -> s.(Proc.world).(w_files) !! i = Some x -> -200 <= D (ptr i) <= 200 -> -200 <= x.(f_ref) <= 2000.
Proof.
  intros [H1 H2 H3 H4 H5 H6] Hx HD. pose proof (fdcount_bound _ (ptr i) H2) as Hb. rewrite H1 in Hb.
  rewrite (H5 _ _ Hx). assert (0 <= fdcount s.(ptable) (ptr i)).
  { clear. induction s.(ptable) as [|p t IH]; simpl; [done|]. pose proof (cntl_bound p.(ofile) (ptr i)). lia. }
  unfold NPROC in Hb. lia.
Qed.

Definition small (D : Z -> Z) : Prop := forall z, -200 <= D z <= 200.

Lemma getf_run f w x w' : getf f w = Ok (x, w') -> w' = w /\ w.(w_files) !! unptr f = Some x.
Proof. unfold getf. destruct (_ !! _) eqn:E; intros H; [|done]. by injection H as <- <-. Qed.

Lemma svc_run {A} (m : kM world A) s a s' :
  svc m s = Ok (a, s') -> exists w, m s.(Proc.world) = Ok (a, w) /\ s' = set_world s w.
Proof. unfold svc. destruct (m _) as [[b w]|]; intros H; [|done]. injection H as <- <-. eauto. Qed.

Lemma filedup_refs s D f g s' :
  rinv s D -> small D -> svc (filedup f) s = Ok (g, s') -> g = f /\ rinv s' (plus1 D f).
Proof.
  intros I HD H. apply svc_run in H as (w & H & ->). unfold filedup in H.
  kinv H. apply getf_run in Hr as [-> Hx]. case_bool; [done|]. kinv H. injection Hr as <- <-. injection H as <- <-.
  split; [done|]. assert (Hu : (unptr f < NFILE)%nat) by (rewrite <- (ri_files _ _ I); by eapply lookup_lt_Some).
  pose proof (rinv_bound _ _ _ _ I Hx (HD _)) as Hb.
  assert (E : s32 (a.(f_ref) + 1) = a.(f_ref) + 1) by (apply s32_small; unfold is_s32; lia).
  eapply rinv_ext; [|apply (rinv_count _ _ _ _ (fun x => with_fref x (s32 (x.(f_ref) + 1))) _ I Hx E)].
  intros z _. unfold plus1. rewrite <- (ptr_unptr f Hu). lia.
Qed.

Lemma wq_pipeclose kend a b : pres wq (pipeclose_at kend a b).
Proof. unfold pipeclose_at. pres. Qed.

#[export] Hint Resolve wq_pipeclose : pres.

Lemma fileclose_drop_refs s D f o s' :
  rinv s D -> small D -> svc (fileclose_drop f) s = Ok (o, s') -> rinv s' (minus1 D f).
Proof.
  intros I HD H. apply svc_run in H as (w & H & ->). unfold fileclose_drop in H.
  kinv H. apply getf_run in Hr as [-> Hx]. case_bool; [done|].
  assert (Hu : (unptr f < NFILE)%nat) by (rewrite <- (ri_files _ _ I); by eapply lookup_lt_Some).
  pose proof (rinv_bound _ _ _ _ I Hx (HD _)) as Hb.
  assert (E : s32 (a.(f_ref) - 1) = a.(f_ref) - 1) by (apply s32_small; unfold is_s32; lia).
  rewrite E in H. case_bool; kinv H; injection Hr as <- <-; injection H as <- <-.
  - eapply rinv_ext; [|apply (rinv_count _ _ _ _ (fun x => with_fref x (s32 (x.(f_ref) - 1))) _ I Hx E)].
    intros z _. unfold minus1. rewrite <- (ptr_unptr f Hu). lia.
  - eapply rinv_ext; [|exact (rinv_count _ _ _ _ clear_file 0 I Hx eq_refl)].
    intros z _. unfold minus1. rewrite <- (ptr_unptr f Hu). replace (0 - a.(f_ref)) with (-1) by lia. lia.
Qed.

Lemma wq_fileclose_release kend me ff : pres wq (fileclose_release kend me ff).
Proof. unfold fileclose_release. pres. Qed.

(** A fresh file has no descriptor. *)
Lemma filealloc_refs s D f s' :
  rinv s D -> svc filealloc s = Ok (f, s') ->
  if f =? 0 then s' = s else fptr f /\ rinv s' (plus1 D f).
Proof.
  intros I H. apply svc_run in H as (w & H & ->). unfold filealloc in H. kinv H. injection Hr as <- <-.
  destruct (fst <$> _) as [i|] eqn:Ef.
  - apply list_find_fst_Some in Ef as (x & Hx & H0 & _). kinv H. injection Hr as <- <-. injection H as <- <-.
    assert (Hi : (i < NFILE)%nat) by (rewrite <- (ri_files _ _ I); by eapply lookup_lt_Some).
    destruct (Z.eqb_spec (ptr i) 0); [unfold ptr in *; lia|]. split; [by exists i|].
    rewrite unptr_ptr. eapply rinv_ext; [|exact (rinv_count _ _ _ _ (fun f => with_fref f 1) 1 I Hx eq_refl)].
    intros z _. unfold plus1. rewrite H0. lia.
  - injection H as <- <-. simpl. by destruct s.
Qed.

(** Storing [f] over [g] in a descriptor of a process. *)
Lemma rinv_set_fd s D i p fd g f :
  rinv s D -> s.(ptable) !! i = Some p -> p.(ofile) !! fd = Some g -> f = 0 \/ fptr f ->
  (f <> 0 -> is_dead p = false) ->
  rinv (upd_proc i (fun p => with_ofile p (<[fd := f]> p.(ofile))) s) (minus1 (plus1 D g) f).
Proof.
  intros [H1 H2 H3 H4 H5 H6] Hp Hg Hf Hd. split; try done; cbn.
  - by rewrite length_alter.
  - apply Forall_alter; [done|]. intros q _ Hq. cbn. by rewrite length_insert.
  - intros j q Hq Hdead. destruct (decide (i = j)) as [<-|Hne].
    + rewrite list_lookup_alter_eq, Hp in Hq. injection Hq as <-. unfold no_fds. cbn.
      destruct (decide (f = 0)) as [->|Hf0]; [|by specialize (Hd Hf0); unfold is_dead in *; cbn in Hdead; congruence].
      apply Forall_insert; [|done]. by apply (H3 i p).
    + rewrite list_lookup_alter_ne in Hq by done. by eapply H3.
  - intros j x Hx. rewrite (H5 _ _ Hx), (fdcount_alter _ _ _ _ _ Hp). cbn. rewrite (cntl_insert _ _ _ _ _ Hg).
    unfold minus1, plus1. lia.
  - intros j q y Hq Hy. destruct (decide (i = j)) as [<-|Hne].
    + rewrite list_lookup_alter_eq, Hp in Hq. injection Hq as <-. cbn in Hy.
      apply list_elem_of_lookup in Hy as (k & Hk). destruct (decide (fd = k)) as [<-|Hk'].
      * rewrite list_lookup_insert_eq in Hk by (by eapply lookup_lt_Some). by injection Hk as <-.
      * rewrite list_lookup_insert_ne in Hk by done. eapply H6; [exact Hp|]. by eapply list_elem_of_lookup_2.
    + rewrite list_lookup_alter_ne in Hq by done. by eapply H6.
Qed.

(** ** System calls that leave them alone *)

Lemma pres_need {S A} (R : S -> S -> Prop) `{!PreOrder R} (o : option A) (k : A -> kM S Z) :
  (forall a, pres R (k a)) -> pres R (need o k).
Proof. intros H. unfold need. destruct o; [apply H|by apply pres_ret]. Qed.

(** Like [pres], through early returns. *)
Ltac presn := repeat (pres_step || (apply (pres_need _); intros ?)).

Section Quiet.
Variable kend kdata : Z.
Variable devread : Z -> option (nat -> Z -> kM fsst (Z * list Z)).
Variable devwrite : Z -> option (nat -> list Z -> Z -> kM fsst Z).
Variable cur : nat.
Variable me : Z.

Lemma still_fsc {A} (m : kM fsst A) : pres still (fsc m).
Proof. unfold fsc. auto with pres. Qed.

#[local] Hint Resolve still_fsc : pres.

Lemma still_fetchint a : pres still (fetchint cur a).
Proof. unfold fetchint. pres. Qed.

Lemma wq_fetchstr_loop pd a k : pres wq (fetchstr_loop pd a k).
Proof. revert a. induction k as [|k IH]; intros a; cbn [fetchstr_loop]; pres. Qed.

#[local] Hint Resolve still_fetchint wq_fetchstr_loop : pres.

Lemma still_fetchstr a : pres still (fetchstr cur a).
Proof. unfold fetchstr. pres. Qed.

Lemma still_argint n : pres still (argint cur n).
Proof. unfold argint. pres. Qed.

#[local] Hint Resolve still_fetchstr still_argint : pres.

Lemma still_argptr n k : pres still (argptr cur n k).
Proof. unfold argptr. pres. Qed.

Lemma still_argstr n : pres still (argstr cur n).
Proof. unfold argstr. pres. Qed.

Lemma still_argfd n : pres still (argfd cur n).
Proof. unfold argfd. pres. Qed.

#[local] Hint Resolve still_argptr still_argstr still_argfd : pres.

Lemma wq_store_stat pd st s : pres wq (store_stat pd st s).
Proof. unfold store_stat. pres. Qed.

#[local] Hint Resolve wq_store_stat : pres.

Lemma wq_filestat pd f st : pres wq (filestat me pd f st).
Proof. unfold filestat. pres. Qed.

Lemma wq_fileread pd k f a n : pres wq (fileread me devread pd k f a n).
Proof. unfold fileread, piperead_at. pres. Qed.

Lemma wq_filewrite_loop fuel pd f ip a n i : pres wq (filewrite_loop me devwrite fuel pd f ip a n i).
Proof. revert i. induction fuel as [|fuel IH]; intros i; cbn [filewrite_loop]; pres. Qed.

#[local] Hint Resolve wq_filewrite_loop : pres.

Lemma wq_filewrite pd k f a n : pres wq (filewrite me devwrite pd k f a n).
Proof. unfold filewrite, pipewrite_at. pres. Qed.

#[local] Hint Resolve wq_filestat wq_fileread wq_filewrite : pres.


Lemma still_sys_read : pres still (sys_read devread cur me).
Proof. unfold sys_read. presn. Qed.

Lemma still_sys_write : pres still (sys_write devwrite cur me).
Proof. unfold sys_write. presn. Qed.

Lemma still_sys_fstat : pres still (sys_fstat cur me).
Proof. unfold sys_fstat. presn. Qed.

Lemma still_fail_tx : pres still (fail_tx me).
Proof. unfold fail_tx. pres. Qed.

#[local] Hint Resolve still_fail_tx : pres.

Lemma still_sys_link : pres still (sys_link devread devwrite cur me).
Proof. unfold sys_link, link_bad. presn. Qed.

Lemma still_sys_unlink : pres still (sys_unlink devread devwrite cur me).
Proof. unfold sys_unlink, unlink_bad. presn. Qed.

Lemma still_create path ty ma mi : pres still (create devread devwrite cur me path ty ma mi).
Proof. unfold create. presn. Qed.

#[local] Hint Resolve still_create : pres.

Lemma still_open_inode path m : pres still (open_inode devread devwrite cur me path m).
Proof. unfold open_inode. presn. Qed.

Lemma still_sys_mkdir : pres still (sys_mkdir devread devwrite cur me).
Proof. unfold sys_mkdir. presn. Qed.

Lemma still_sys_mknod : pres still (sys_mknod devread devwrite cur me).
Proof. unfold sys_mknod, mknod_args. presn. Qed.

Lemma quiet_sys_chdir : pres quiet (sys_chdir devread cur me).
Proof. unfold sys_chdir. presn. Qed.

Lemma wq_loaduvm ip pd a off n : pres wq (loaduvm devread me ip pd a off n).
Proof.
  unfold loaduvm. destruct (negb _); [pres|]. generalize (S (Z.to_nat ((n + PGSIZE - 1) / PGSIZE))) as fuel.
  intros fuel. generalize 0 as i. induction fuel as [|fuel IH]; intros i; cbn [loaduvm_loop]; pres.
Qed.

#[local] Hint Resolve wq_loaduvm : pres.

Lemma wq_exec_load k ip pd off n : pres wq (exec_load kend devread me k ip pd off n).
Proof. revert off n. induction k as [|k IH]; intros off n; cbn [exec_load]; pres. Qed.

Lemma wq_push_args pd sp argv argc : pres wq (push_args pd sp argv argc).
Proof. revert sp argc. induction argv as [|a argv IH]; intros sp argc; cbn [push_args]; pres. Qed.

#[local] Hint Resolve wq_exec_load wq_push_args : pres.

Lemma wq_exec_stack pd n argv : pres wq (exec_stack kend pd n argv).
Proof. unfold exec_stack. pres. Qed.

#[local] Hint Resolve wq_exec_stack : pres.

Lemma quiet_exec path argv : pres quiet (exec kend kdata devread cur me path argv).
Proof. unfold exec, exec_bad, exec_commit. pres. Qed.

Lemma still_exec_args k a i : pres still (exec_args cur k a i).
Proof. revert i. induction k as [|k IH]; intros i; cbn [exec_args]; pres. Qed.

#[local] Hint Resolve quiet_exec still_exec_args : pres.

Lemma quiet_sys_exec : pres quiet (sys_exec kend kdata devread cur me).
Proof. unfold sys_exec. presn. Qed.

End Quiet.

#[export] Hint Resolve still_fsc still_fetchint still_fetchstr still_argint still_argptr still_argstr still_argfd
  still_fail_tx still_create still_open_inode still_exec_args : pres.
