(* ===== verification/RefsFine.v ===== *)
(** * Reference counts at every scheduling point

    The system calls that create and destroy descriptors, cut at the places
    where another process can run: between the critical sections under
    [ftable.lock] and [ptable.lock], and between these and the assignments to
    [ofile].  Each process has a phase, which says where in such a call it is
    and which references it holds in hand, or owes, there. *)

From S2P Require Import Prelude CString Mmu Kalloc Vm Proc ProcSpec Bio Layout Log Fs Pipe World File Syscall Sysfile Trap Refs.

(** ** Phases *)

Inductive phase :=
| Idle                                  (* in user mode, or in code that has no file in hand *)
| Using (f : Z)                         (* after [argfd], or after the [fdalloc] of [sys_open] *)
| DupGot (f : Z)                        (* [sys_dup] after [argfd] *)
| DupFd (f : Z)                         (* [sys_dup] between [fdalloc] and [filedup] *)
| CloseGot (fd f : Z)                   (* [sys_close] after [argfd] *)
| Closing (f : Z)                       (* about to call [fileclose(f)], no descriptor for it *)
| Releasing                             (* [fileclose] after [release], the last thing a call does *)
| ClosingTwo (f g : Z)                  (* about to call [fileclose(f)] and then [fileclose(g)] *)
| ReleasingThen (g : Z)                 (* [fileclose(f)] after [release], with [g] to be closed *)
| OpenFile (f : Z)                      (* [sys_open] after [filealloc] *)
| PipeOne (f0 : Z)                      (* [pipealloc] after its first [filealloc] *)
| PipeBoth (f0 f1 : Z)                  (* [pipealloc] after the second, to the first [fdalloc] *)
| PipeHalf (fd0 rf wf : Z)              (* [sys_pipe] after the first [fdalloc] *)
| Forking (np : nat)                    (* [fork] after slot [np] was taken *)
| Copying (np k : nat)                  (* the loop of [fork] at descriptor [k] *)
| Copied (np k : nat) (f : Z)           (* there, between [filedup] and the assignment *)
| Exiting (k : nat)                     (* the loop of [exit] at descriptor [k] *)
| ExitDropped (k : nat) (f : Z).        (* there, between the [release] of [fileclose] and the assignment *)

(** The references to [x] the process holds besides its descriptors; negative
    where it has more descriptors than references. *)
Definition hand (q : phase) (x : Z) : Z :=
  match q with
  | DupFd f | ExitDropped _ f => - one f x
  | Closing f | OpenFile f | PipeOne f | ReleasingThen f | PipeHalf _ _ f | Copied _ _ f => one f x
  | ClosingTwo f g | PipeBoth f g => one f x + one g x
  | _ => 0
  end.

Fixpoint hands (ph : list phase) (x : Z) : Z :=
  match ph with
  | [] => 0
  | q :: ph => hand q x + hands ph x
  end.

(** The slot of the child that [fork] is filling. *)
Definition child (q : phase) : option nat :=
  match q with Forking np | Copying np _ | Copied np _ _ => Some np | _ => None end.

(** What follows [fileclose_drop]. *)
Definition after_drop (o : option file) (q r : phase) : phase := match o with Some _ => q | None => r end.

(** ** The steps of process [i] *)

Inductive act (i : nat) : phase -> kst world -> phase -> kst world -> Prop :=
(* a call on an open file: read, write, fstat *)
| use_arg s fd f s' : argfd i 0 s = Ok (Some (fd, f), s') -> act i Idle s (Using f) s'
| use_done f s : act i (Using f) s Idle s
(* sys_dup *)
| dup_arg s fd f s' : argfd i 0 s = Ok (Some (fd, f), s') -> act i Idle s (DupGot f) s'
| dup_full f s fd s' : fdalloc i f s = Ok (fd, s') -> fd < 0 -> act i (DupGot f) s Idle s'
| dup_fd f s fd s' : fdalloc i f s = Ok (fd, s') -> 0 <= fd -> act i (DupGot f) s (DupFd f) s'
| dup_done f s g s' : svc (filedup f) s = Ok (g, s') -> act i (DupFd f) s Idle s'
(* sys_close *)
| close_arg s fd f s' : argfd i 0 s = Ok (Some (fd, f), s') -> act i Idle s (CloseGot fd f) s'
| close_fd fd f s u s' :
    setp i (fun p => with_ofile p (<[Z.to_nat fd := 0]> p.(ofile))) s = Ok (u, s') ->
    act i (CloseGot fd f) s (Closing f) s'
| close_drop f s o s' :
    svc (fileclose_drop f) s = Ok (o, s') -> act i (Closing f) s (after_drop o Releasing Idle) s'
| close_released s : act i Releasing s Idle s
| close_two f g s o s' :
    svc (fileclose_drop f) s = Ok (o, s') -> act i (ClosingTwo f g) s (after_drop o (ReleasingThen g) (Closing g)) s'
| close_next g s : act i (ReleasingThen g) s (Closing g) s
(* sys_open *)
| open_file s f s' : svc filealloc s = Ok (f, s') -> f <> 0 -> act i Idle s (OpenFile f) s'
| open_full f s fd s' : fdalloc i f s = Ok (fd, s') -> fd < 0 -> act i (OpenFile f) s (Closing f) s'
| open_fd f s fd s' : fdalloc i f s = Ok (fd, s') -> 0 <= fd -> act i (OpenFile f) s (Using f) s'
(* pipealloc *)
| pipe_one s f s' : svc filealloc s = Ok (f, s') -> f <> 0 -> act i Idle s (PipeOne f) s'
| pipe_nofile f0 s s' : svc filealloc s = Ok (0, s') -> act i (PipeOne f0) s (Closing f0) s'
| pipe_both f0 s f1 s' : svc filealloc s = Ok (f1, s') -> f1 <> 0 -> act i (PipeOne f0) s (PipeBoth f0 f1) s'
| pipe_nomem f0 f1 s : act i (PipeBoth f0 f1) s (ClosingTwo f0 f1) s
(* sys_pipe *)
| pipe_full f0 f1 s fd s' : fdalloc i f0 s = Ok (fd, s') -> fd < 0 -> act i (PipeBoth f0 f1) s (ClosingTwo f0 f1) s'
| pipe_fd0 f0 f1 s fd s' : fdalloc i f0 s = Ok (fd, s') -> 0 <= fd -> act i (PipeBoth f0 f1) s (PipeHalf fd f0 f1) s'
| pipe_half fd0 rf wf s fd s1 u s' :
    fdalloc i wf s = Ok (fd, s1) -> fd < 0 ->
    setp i (fun p => with_ofile p (<[Z.to_nat fd0 := 0]> p.(ofile))) s1 = Ok (u, s') ->
    act i (PipeHalf fd0 rf wf) s (ClosingTwo rf wf) s'
| pipe_fd1 fd0 rf wf s fd s' : fdalloc i wf s = Ok (fd, s') -> 0 <= fd -> act i (PipeHalf fd0 rf wf) s Idle s'
(* fork *)
| fork_slot s np s' : allocproc_slot s = Ok (Some np, s') -> act i Idle s (Forking np) s'
| fork_fails np s u s' : setp np (fun p => with_state p UNUSED) s = Ok (u, s') -> act i (Forking np) s Idle s'
| fork_copies np s : act i (Forking np) s (Copying np 0) s
| copy_none np k s p : s.(ptable) !! i = Some p -> p.(ofile) !! k = Some 0 -> act i (Copying np k) s (Copying np (S k)) s
| copy_dup np k s p f g s' :
    s.(ptable) !! i = Some p -> p.(ofile) !! k = Some f -> f <> 0 -> svc (filedup f) s = Ok (g, s') ->
    act i (Copying np k) s (Copied np k f) s'
| copy_set np k f s u s' :
    setp np (fun p => with_ofile p (<[k := f]> p.(ofile))) s = Ok (u, s') ->
    act i (Copied np k f) s (Copying np (S k)) s'
| fork_done np s r s' : fork_publish np s = Ok (r, s') -> act i (Copying np NOFILE) s Idle s'
(* exit *)
| exit_start s : s.(initproc) <> Some i -> act i Idle s (Exiting 0) s
| exit_none k s p : s.(ptable) !! i = Some p -> p.(ofile) !! k = Some 0 -> act i (Exiting k) s (Exiting (S k)) s
| exit_drop k s p f o s' :
    s.(ptable) !! i = Some p -> p.(ofile) !! k = Some f -> f <> 0 -> svc (fileclose_drop f) s = Ok (o, s') ->
    act i (Exiting k) s (ExitDropped k f) s'
| exit_clear k f s u s' :
    setp i (fun p => with_ofile p (<[k := 0]> p.(ofile))) s = Ok (u, s') ->
    act i (ExitDropped k f) s (Exiting (S k)) s'
| exit_done s u s' : exit_last i s = Ok (u, s') -> act i (Exiting NOFILE) s Idle s'.

(** Any running process makes its next step; or something happens that leaves
    counts and descriptors alone: a clock tick, a decision of the scheduler, a
    sleep or a wakeup in the file system, the log or a pipe, a [wait] that
    reaps a child, an [exec], and whatever user code does. *)
Inductive fstep : kst world * list phase -> kst world * list phase -> Prop :=
| f_act s ph i p q q' s' :
    s.(ptable) !! i = Some p -> p.(state) = RUNNING -> ph !! i = Some q -> act i q s q' s' ->
    fstep (s, ph) (s', <[i := q']> ph)
| f_quiet s ph s' : quiet s s' -> fstep (s, ph) (s', ph).

(** ** Arithmetic of the hands *)

Lemma hand_bound q x : -1 <= hand q x <= 2.
Proof. destruct q; simpl; unfold one; repeat case_bool; lia. Qed.

Lemma hands_bound ph x : - Z.of_nat (length ph) <= hands ph x <= 2 * Z.of_nat (length ph).
Proof.
  induction ph as [|q ph IH]; cbn [hands length]; [lia|]. pose proof (hand_bound q x). lia.
Qed.

Lemma hands_insert ph i q q' x :
  ph !! i = Some q -> hands (<[i := q']> ph) x = hands ph x - hand q x + hand q' x.
Proof.
  revert i. induction ph as [|r ph IH]; intros [|i] H; simpl in *; try done.
  - injection H as ->. lia.
  - rewrite (IH _ H). lia.
Qed.

Lemma hands_idle n x : hands (replicate n Idle) x = 0.
Proof. induction n as [|n IH]; simpl; [done|]. lia. Qed.

(** ** What a process knows in each phase *)

(** The child being filled: no descriptor at [k] or above. *)
Definition embryo_from (t : list proc) (np k : nat) : Prop :=
  exists n, t !! np = Some n /\ n.(state) = EMBRYO /\ forall j g, (k <= j)%nat -> n.(ofile) !! j = Some g -> g = 0.

Definition cleared (p : proc) (k : nat) : Prop := forall j g, (j < k)%nat -> p.(ofile) !! j = Some g -> g = 0.

Definition claim (t : list proc) (p : proc) (q : phase) : Prop :=
  match q with
  | Idle | Releasing => True
  | Using f | DupGot f => fptr f /\ 1 <= cntl p.(ofile) f
  | DupFd f => fptr f /\ 2 <= cntl p.(ofile) f
  | CloseGot fd f => fptr f /\ p.(ofile) !! Z.to_nat fd = Some f
  | Closing f | ReleasingThen f | OpenFile f | PipeOne f => fptr f
  | ClosingTwo f g | PipeBoth f g => fptr f /\ fptr g
  | PipeHalf fd f g => fptr f /\ fptr g /\ p.(ofile) !! Z.to_nat fd = Some f
  | Forking np => embryo_from t np 0
  | Copying np k => embryo_from t np k
  | Copied np k f => fptr f /\ embryo_from t np k /\ (k < NOFILE)%nat
  | Exiting k => cleared p k
  | ExitDropped k f => fptr f /\ p.(ofile) !! k = Some f /\ cleared p k
  end.

(** A process in the middle of a call is alive. *)
Definition engaged (p : proc) : Prop := is_dead p = false /\ p.(state) <> EMBRYO.

Record finv (s : kst world) (ph : list phase) : Prop := {
  fi_rinv : rinv s (hands ph);
  fi_len : length ph = NPROC;
  fi_claim : forall i p q, s.(ptable) !! i = Some p -> ph !! i = Some q ->
    claim s.(ptable) p q /\ (q = Idle \/ engaged p);
  fi_child : forall i j q r np, ph !! i = Some q -> ph !! j = Some r ->
    child q = Some np -> child r = Some np -> i = j
}.

(** ** The invariant is kept *)

Lemma finv_small s ph : finv s ph -> small (hands ph).
Proof. intros I z. pose proof (hands_bound ph z) as H. rewrite (fi_len _ _ I) in H. unfold NPROC in H. lia. Qed.

Lemma kept_engaged p p' : kept p p' -> engaged p -> engaged p'.
Proof.
  intros (_ & Hd & He) [A B]. split; [|by rewrite He]. destruct (is_dead p'); [|done]. by rewrite Hd in A.
Qed.

Lemma claim_child t p q np : claim t p q -> child q = Some np -> exists k, embryo_from t np k.
Proof. destruct q; simpl; intros H E; try done; injection E as <-; [eauto|eauto|destruct H as (_ & H & _); eauto]. Qed.

(** A claim is about the process and its child only. *)
Lemma claim_kept t t' p p' q :
  kept p p' ->
  (forall np, child q = Some np -> exists n n', t !! np = Some n /\ t' !! np = Some n' /\ kept n n') ->
  claim t p q -> claim t' p' q.
Proof.
  intros (E & _) Hc H.
  assert (He : forall np k, child q = Some np -> embryo_from t np k -> embryo_from t' np k).
  { intros np k Hq (m & Hm & Hs & Hz). destruct (Hc np Hq) as (n & n' & Hn & Hn' & E' & _ & Hs').
    rewrite Hm in Hn. injection Hn as <-. exists n'. split; [done|]. split; [by apply Hs'|]. by rewrite E'. }
  destruct q; cbn [claim child] in *; unfold cleared in *; rewrite ?E; try done; try (by apply He).
  destruct H as (H1 & H2 & H3). split_and!; [done|by apply He|done].
Qed.

(** Where the child of a step comes from. *)
Definition new_child (s : kst world) (q q' : phase) : Prop :=
  forall np, child q' = Some np ->
    child q = Some np \/ exists n, s.(ptable) !! np = Some n /\ is_dead n = true.

(** A step of process [i] moves it to [q'], and leaves everyone else but the
    child it is filling alone. *)
Record moves (i : nat) (q : phase) (s : kst world) (q' : phase) (s' : kst world) : Prop := {
  mv_self : exists p', s'.(ptable) !! i = Some p' /\ claim s'.(ptable) p' q' /\ (q' = Idle \/ engaged p');
  mv_other : forall k x, k <> i -> child q <> Some k -> child q' <> Some k -> s.(ptable) !! k = Some x ->
    exists x', s'.(ptable) !! k = Some x' /\ kept x x';
  mv_child : new_child s q q'
}.

Lemma moves_finv i q s q' s' ph p :
  finv s ph -> s.(ptable) !! i = Some p -> engaged p -> ph !! i = Some q ->
  rinv s' (hands (<[i := q']> ph)) -> moves i q s q' s' -> finv s' (<[i := q']> ph).
Proof.
  intros I Hp He Hq R [Hself Hother Hchild].
  assert (Hi : (i < length ph)%nat) by (by eapply lookup_lt_Some).
  (* the child of another process *)
  assert (Hsep : forall j r np, j <> i -> ph !! j = Some r -> child r = Some np ->
    np <> i /\ child q <> Some np /\ child q' <> Some np /\ exists n, s.(ptable) !! np = Some n).
  { intros j r np Hj Hr Hc. assert (exists x, s.(ptable) !! j = Some x) as [x Hx].
    { apply lookup_lt_is_Some_2. rewrite (ri_len _ _ (fi_rinv _ _ I)), <- (fi_len _ _ I). by eapply lookup_lt_Some. }
    destruct (fi_claim _ _ I j x r Hx Hr) as [Hcl _]. destruct (claim_child _ _ _ _ Hcl Hc) as (k & n & Hn & Hs & _).
    assert (Hno : child q <> Some np) by (intros E; apply Hj; by eapply (fi_child _ _ I)).
    split_and!; [|done| |by exists n].
    - intros ->. rewrite Hp in Hn. injection Hn as <-. by apply He.
    - intros E. destruct (Hchild _ E) as [E'|(m & Hm & Hd)]; [done|]. rewrite Hn in Hm. injection Hm as <-.
      unfold is_dead in Hd. by rewrite Hs in Hd. }
  split; [done|by rewrite length_insert, (fi_len _ _ I)| |].
  - intros j p' r Hp' Hr. destruct (decide (j = i)) as [->|Hj].
    + rewrite list_lookup_insert_eq in Hr by done. injection Hr as <-. destruct Hself as (p1 & Hp1 & H).
      rewrite Hp1 in Hp'. by injection Hp' as <-.
    + rewrite list_lookup_insert_ne in Hr by done.
      assert (exists x, s.(ptable) !! j = Some x) as [x Hx].
      { apply lookup_lt_is_Some_2. rewrite (ri_len _ _ (fi_rinv _ _ I)), <- (fi_len _ _ I). by eapply lookup_lt_Some. }
      destruct (fi_claim _ _ I j x r Hx Hr) as [Hcl [->|Hen]]; [split; [done|by left]|].
      assert (Hjq : child q <> Some j).
      { intros E. destruct (fi_claim _ _ I i p q Hp Hq) as [Hclq _].
        destruct (claim_child _ _ _ _ Hclq E) as (k & n & Hn & Hs & _). rewrite Hx in Hn. injection Hn as <-. by apply Hen. }
      assert (Hjq' : child q' <> Some j).
      { intros E. destruct (Hchild _ E) as [E'|(m & Hm & Hd)]; [done|]. rewrite Hx in Hm. injection Hm as <-.
        destruct Hen as [Hen _]. congruence. }
      destruct (Hother j x Hj Hjq Hjq' Hx) as (x' & Hx' & Hk). rewrite Hx' in Hp'. injection Hp' as <-.
      split; [|right; by eapply kept_engaged]. eapply claim_kept; [exact Hk| |exact Hcl]. intros np Hc.
      destruct (Hsep j r np Hj Hr Hc) as (A & B & C & n & Hn). destruct (Hother np n A B C Hn) as (n' & Hn' & Hkn).
      exists n, n'. done.
  - intros j k r1 r2 np H1 H2 C1 C2. destruct (decide (j = i)) as [->|Hj], (decide (k = i)) as [->|Hk]; [done| | |].
    + rewrite list_lookup_insert_eq in H1 by done. injection H1 as <-. rewrite list_lookup_insert_ne in H2 by done.
      destruct (Hsep k r2 np Hk H2 C2) as (_ & _ & A & _). done.
    + rewrite list_lookup_insert_eq in H2 by done. injection H2 as <-. rewrite list_lookup_insert_ne in H1 by done.
      destruct (Hsep j r1 np Hj H1 C1) as (_ & _ & A & _). done.
    + rewrite list_lookup_insert_ne in H1, H2 by done. by eapply (fi_child _ _ I).
Qed.

Lemma quiet_finv s s' ph : finv s ph -> quiet s s' -> finv s' ph.
Proof.
  intros I Q. pose proof (rinv_quiet _ _ _ (fi_rinv _ _ I) Q) as R. destruct Q as [_ Q].
  split; [done|apply I| |apply I]. intros i p' q Hp' Hq. destruct (kept_lookup _ _ _ _ Q Hp') as (p & Hp & Hk).
  destruct (fi_claim _ _ I i p q Hp Hq) as [Hcl He]. split.
  - eapply claim_kept; [exact Hk| |exact Hcl]. intros np Hc. destruct (claim_child _ _ _ _ Hcl Hc) as (k & n & Hn & _).
    destruct (Forall2_lookup_l _ _ _ _ _ Q Hn) as (n' & Hn' & Hkn). by exists n, n'.
  - destruct He as [->|He]; [by left|]. right. by eapply kept_engaged.
Qed.

(** ** The steps, one by one *)

Lemma ofile_len s D i p : rinv s D -> s.(ptable) !! i = Some p -> length p.(ofile) = 16%nat.
Proof. intros I Hp. exact (Forall_lookup_1 _ _ _ _ (ri_ofile _ _ I) Hp). Qed.

Lemma upd_proc_at (s : kst world) i g p :
  s.(ptable) !! i = Some p -> (upd_proc i g s).(ptable) !! i = Some (g p).
Proof. intros H. cbn [upd_proc set_ptable ptable]. by rewrite list_lookup_alter_eq, H. Qed.

Lemma upd_proc_ne (s : kst world) i g k : k <> i -> (upd_proc i g s).(ptable) !! k = s.(ptable) !! k.
Proof. intros H. cbn [upd_proc set_ptable ptable]. by rewrite list_lookup_alter_ne. Qed.

Lemma argfd_facts s D i n fd f s' :
  rinv s D -> argfd i n s = Ok (Some (fd, f), s') ->
  still s s' /\ 0 <= fd < 16 /\ fptr f /\ exists p, s.(ptable) !! i = Some p /\ p.(ofile) !! Z.to_nat fd = Some f.
Proof.
  intros I H. pose proof (still_argfd i n _ _ _ H) as Hst. split; [done|]. unfold argfd in H. kinv H.
  destruct a as [fd'|]; [|done]. pose proof (still_argint i n _ _ _ Hr) as [_ E0].
  kinv H. apply getp_Ok in Hr0 as [-> Hp]. destruct (_ || _) eqn:Eb; [done|].
  apply orb_false_iff in Eb as [E1 E2]. apply Z.ltb_ge in E1. apply Z.leb_gt in E2. unfold NOFILE in E2.
  destruct (Z.eqb_spec (nth (Z.to_nat fd') a.(ofile) 0) 0) as [Ez|Ez]; [done|]. injection H as <- <- <-.
  rewrite E0 in Hp. pose proof (ofile_len _ _ _ _ I Hp) as Hl.
  assert (Hf : a.(ofile) !! Z.to_nat fd' = Some (nth (Z.to_nat fd') a.(ofile) 0)).
  { destruct (nth_lookup_or_length a.(ofile) (Z.to_nat fd') 0); [done|lia]. }
  split; [lia|]. split; [|eauto].
  destruct (ri_ptr _ _ I _ _ _ Hp (list_elem_of_lookup_2 _ _ _ Hf)); [done|done].
Qed.

Definition set_fd (fd : nat) (f : Z) (p : proc) : proc := with_ofile p (<[fd := f]> p.(ofile)).

Lemma fdalloc_facts (s : kst world) i p f fd s' :
  s.(ptable) !! i = Some p -> length p.(ofile) = 16%nat -> fdalloc i f s = Ok (fd, s') ->
  (fd < 0 /\ s' = s) \/
  (0 <= fd < 16 /\ p.(ofile) !! Z.to_nat fd = Some 0 /\ s' = upd_proc i (set_fd (Z.to_nat fd) f) s).
Proof.
  intros Hp Hl H. unfold fdalloc in H. kinv H. apply getp_Ok in Hr as [-> Hq]. rewrite Hp in Hq. injection Hq as <-.
  rewrite take_ge in H by (unfold NOFILE; lia). destruct (fst <$> _) as [k|] eqn:Ef.
  - apply list_find_fst_Some in Ef as (g & Hg & -> & _). kinv H. apply setp_Ok in Hr. subst. injection H as <- <-.
    pose proof (lookup_lt_Some _ _ _ Hg) as Hk. right. rewrite Nat2Z.id. split_and!; [lia|lia|done|done].
  - injection H as <- <-. left. done.
Qed.

Lemma rinv_hand s D ph i q q' :
  ph !! i = Some q -> (forall x, 0 < x -> D x = hands ph x - hand q x + hand q' x) ->
  rinv s D -> rinv s (hands (<[i := q']> ph)).
Proof. intros Hq HD. apply rinv_ext. intros x Hx. by rewrite (hands_insert _ _ _ _ _ Hq), HD. Qed.

Lemma rinv_hand_same s ph i q q' :
  ph !! i = Some q -> (forall x, hand q' x = hand q x) -> rinv s (hands ph) -> rinv s (hands (<[i := q']> ph)).
Proof. intros Hq Hh. apply (rinv_hand s (hands ph) ph i q q' Hq). intros x _. rewrite Hh. lia. Qed.

Lemma cntl_lookup l k f : l !! k = Some f -> 1 <= cntl l f.
Proof. intros H. apply cntl_elem. by eapply list_elem_of_lookup_2. Qed.

Lemma one_self f : one f f = 1.
Proof. unfold one. by rewrite Z.eqb_refl. Qed.

Lemma one_0 x : 0 < x -> one 0 x = 0.
Proof. intros H. unfold one. case_bool; lia. Qed.

Section Step.
Variables (s s' : kst world) (ph : list phase) (i : nat) (p : proc) (q q' : phase).
Hypothesis I : finv s ph.
Hypothesis Hp : s.(ptable) !! i = Some p.
Hypothesis Hrun : p.(state) = RUNNING.
Hypothesis Hq : ph !! i = Some q.

Lemma running_engaged : engaged p.
Proof. unfold engaged, is_dead. by rewrite Hrun. Qed.

Lemma its_claim : claim s.(ptable) p q.
Proof. by eapply (fi_claim _ _ I). Qed.

(** The table stays as it is. *)
Lemma step_same :
  s'.(ptable) = s.(ptable) -> claim s.(ptable) p q' -> new_child s q q' ->
  rinv s' (hands (<[i := q']> ph)) -> finv s' (<[i := q']> ph).
Proof.
  intros E Hc Hn R. eapply moves_finv; [exact I|exact Hp|apply running_engaged|exact Hq|exact R|].
  split; [|intros k x _ _ _ Hx; exists x; by rewrite E|done].
  exists p. rewrite E. split_and!; [done|done|right; apply running_engaged].
Qed.

(** Nothing changes at all. *)
Lemma step_stutter :
  claim s.(ptable) p q' -> new_child s q q' -> (forall x, hand q' x = hand q x) -> finv s (<[i := q']> ph).
Proof.
  intros Hc Hn Hh. eapply moves_finv; [exact I|exact Hp|apply running_engaged|exact Hq| |].
  - eapply rinv_hand_same; [exact Hq|done|exact (fi_rinv _ _ I)].
  - split; [|intros k x _ _ _ Hx; by exists x|done]. exists p. split_and!; [done|done|right; apply running_engaged].
Qed.

(** The process stores [f] over [g] in a descriptor of its own. *)
Lemma step_fd fd f g :
  s' = upd_proc i (set_fd fd f) s -> p.(ofile) !! fd = Some g -> f = 0 \/ fptr f ->
  child q = None -> child q' = None -> claim s'.(ptable) (set_fd fd f p) q' ->
  (forall x, 0 < x -> hand q' x = hand q x + one g x - one f x) -> finv s' (<[i := q']> ph).
Proof.
  intros -> Hg Hf C C' Hc Hh. eapply moves_finv; [exact I|exact Hp|apply running_engaged|exact Hq| |].
  - eapply rinv_hand; [exact Hq| |eapply (rinv_set_fd s _ i p fd g f (fi_rinv _ _ I) Hp Hg Hf)].
    + intros x Hx. unfold minus1, plus1. rewrite (Hh x Hx). lia.
    + intros _. apply running_engaged.
  - split.
    + exists (set_fd fd f p). split; [by apply upd_proc_at|]. split; [done|]. right. exact running_engaged.
    + intros k x Hk _ _ Hx. exists x. by rewrite upd_proc_ne.
    + intros np E. congruence.
Qed.

(** [fdalloc] for a file in hand. *)
Lemma step_fdalloc f fd :
  fdalloc i f s = Ok (fd, s') -> 0 <= fd -> fptr f -> child q = None -> child q' = None ->
  (forall t p', p'.(ofile) !! Z.to_nat fd = Some f -> cntl p'.(ofile) f = cntl p.(ofile) f + 1 ->
    claim t p' q') ->
  (forall x, 0 < x -> hand q' x = hand q x - one f x) -> finv s' (<[i := q']> ph).
Proof.
  intros H Hfd Hf C C' Hc Hh. pose proof (ofile_len _ _ _ _ (fi_rinv _ _ I) Hp) as Hl.
  destruct (fdalloc_facts _ _ _ _ _ _ Hp Hl H) as [[A _]|(A & B & E)]; [lia|].
  eapply (step_fd _ f 0 E B); [by right|done|done| |].
  - apply Hc; cbn; [apply list_lookup_insert_eq; lia|]. rewrite (cntl_insert _ _ _ _ _ B), one_self.
    destruct Hf as (j & _ & ->). unfold one, ptr. case_bool; lia.
  - intros x Hx. rewrite (Hh x Hx), one_0 by done. lia.
Qed.

(** A full table of descriptors. *)
Lemma fdalloc_full f fd : fdalloc i f s = Ok (fd, s') -> fd < 0 -> s' = s.
Proof.
  intros H Hfd. pose proof (ofile_len _ _ _ _ (fi_rinv _ _ I) Hp) as Hl.
  destruct (fdalloc_facts _ _ _ _ _ _ Hp Hl H) as [[_ A]|(A & _)]; [done|lia].
Qed.

Lemma step_arg fd f :
  argfd i 0 s = Ok (Some (fd, f), s') -> q = Idle -> child q' = None -> (forall x, hand q' x = 0) ->
  (fptr f -> p.(ofile) !! Z.to_nat fd = Some f -> claim s.(ptable) p q') -> finv s' (<[i := q']> ph).
Proof.
  intros H Eq C Hh Hc. destruct (argfd_facts _ _ _ _ _ _ _ (fi_rinv _ _ I) H) as (Hst & _ & Hf & p' & Hp' & Ho).
  rewrite Hp in Hp'. injection Hp' as <-. apply step_same; [apply Hst|by apply Hc|intros np E; congruence|].
  eapply rinv_hand; [exact Hq| |eapply rinv_quiet; [exact (fi_rinv _ _ I)|by apply still_quiet]].
  intros x _. rewrite Hh, Eq. simpl. lia.
Qed.

Lemma step_filealloc f :
  svc filealloc s = Ok (f, s') -> f <> 0 -> child q' = None -> (forall x, hand q' x = hand q x + one f x) ->
  (fptr f -> claim s.(ptable) p q') -> finv s' (<[i := q']> ph).
Proof.
  intros H Hf C Hh Hc. pose proof (filealloc_refs _ _ _ _ (fi_rinv _ _ I) H) as Ha.
  destruct (Z.eqb_spec f 0); [done|]. destruct Ha as [Hfp R]. apply step_same; [|by apply Hc|intros np E; congruence|].
  - by apply svc_run in H as (w & _ & ->).
  - eapply rinv_hand; [exact Hq| |exact R]. intros x _. rewrite Hh. unfold plus1. lia.
Qed.

Lemma step_filedup f g :
  svc (filedup f) s = Ok (g, s') -> new_child s q q' -> (forall x, hand q' x = hand q x + one f x) ->
  claim s.(ptable) p q' -> finv s' (<[i := q']> ph).
Proof.
  intros H C Hh Hc. destruct (filedup_refs _ _ _ _ _ (fi_rinv _ _ I) (finv_small _ _ I) H) as [_ R].
  apply step_same; [by apply svc_run in H as (w & _ & ->)|done|done|].
  eapply rinv_hand; [exact Hq| |exact R]. intros x _. rewrite Hh. unfold plus1. lia.
Qed.

Lemma step_drop f o :
  svc (fileclose_drop f) s = Ok (o, s') -> child q' = None -> (forall x, hand q' x = hand q x - one f x) ->
  claim s.(ptable) p q' -> finv s' (<[i := q']> ph).
Proof.
  intros H C Hh Hc. pose proof (fileclose_drop_refs _ _ _ _ _ (fi_rinv _ _ I) (finv_small _ _ I) H) as R.
  apply step_same; [by apply svc_run in H as (w & _ & ->)|done|intros np E; congruence|].
  eapply rinv_hand; [exact Hq| |exact R]. intros x _. rewrite Hh. unfold minus1. lia.
Qed.

(** The process changes the child it fills. *)
Lemma step_child np n g :
  s' = upd_proc np g s -> child q = Some np -> s.(ptable) !! np = Some n -> n.(state) = EMBRYO ->
  child q' = child q \/ child q' = None -> claim s'.(ptable) p q' ->
  rinv s' (hands (<[i := q']> ph)) -> finv s' (<[i := q']> ph).
Proof.
  intros -> C Hn He C' Hc R.
  assert (Hne : np <> i). { intros ->. rewrite Hp in Hn. injection Hn as <-. by rewrite Hrun in He. }
  eapply moves_finv; [exact I|exact Hp|apply running_engaged|exact Hq|exact R|]. split.
  - exists p. rewrite upd_proc_ne by done. split_and!; [done|done|right; apply running_engaged].
  - intros k x Hk Hkc _ Hx. exists x. rewrite upd_proc_ne; [done|congruence].
  - intros m E. left. destruct C'; congruence.
Qed.

End Step.

(** Wakeups and the adoption of children by init. *)
Lemma kept_wakeup1 ch t : Forall2 kept t (wakeup1 ch t).
Proof.
  unfold wakeup1. induction t as [|p t IH]; constructor; [|exact IH]. case_decide as H; [|done].
  destruct H as [H _]. unfold kept, is_dead. cbn. rewrite H. done.
Qed.

Lemma kept_insert (t : list proc) i p p' : t !! i = Some p -> kept p p' -> Forall2 kept t (<[i := p']> t).
Proof.
  intros Hp Hk. rewrite <- (alter_const (fun _ => p') _ _ _ Hp). apply kept_alter. intros q Hq. rewrite Hp in Hq.
  by injection Hq as <-.
Qed.

Lemma kept_reparent cur init t : Forall2 kept t (reparent cur init t).
Proof.
  unfold reparent. generalize (seq 0 (length t)) as l. intros l.
  enough (H : forall t0, Forall2 kept t0 (fold_left (reparent1 cur init) l t0)) by apply H.
  induction l as [|i l IH]; intros t0; cbn [fold_left]; [done|].
  transitivity (reparent1 cur init t0 i); [|apply IH]. unfold reparent1. destruct (t0 !! i) as [p|] eqn:Hp; [|done].
  case_decide; [|done]. assert (Hw : Forall2 kept t0 (<[i := with_parent p init]> t0)) by (by eapply kept_insert).
  case_decide; [|done]. etransitivity; [exact Hw|apply kept_wakeup1].
Qed.

(** A change of one process that keeps its descriptors. *)
Lemma rinv_alter s s' D i p g :
  rinv s D -> s.(ptable) !! i = Some p -> s'.(ptable) = alter g i s.(ptable) -> s'.(Proc.world) = s.(Proc.world) ->
  (g p).(ofile) = p.(ofile) -> (is_dead (g p) = true -> no_fds p) -> rinv s' D.
Proof.
  intros [H1 H2 H3 H4 H5 H6] Hp Ht Hw Ho Hd. rewrite (alter_const _ _ _ _ Hp) in Ht.
  assert (Hm : map ofile s'.(ptable) = map ofile s.(ptable)).
  { rewrite Ht. change (map ofile) with (fmap ofile (M := list)). rewrite list_fmap_insert, Ho. apply list_insert_id.
    by rewrite list_lookup_fmap, Hp. }
  assert (Hl : forall j p', s'.(ptable) !! j = Some p' ->
    exists p0, s.(ptable) !! j = Some p0 /\ p'.(ofile) = p0.(ofile) /\ (is_dead p' = true -> no_fds p0)).
  { intros j p' Hp'. rewrite Ht in Hp'. destruct (decide (i = j)) as [<-|Hne].
    - rewrite list_lookup_insert_eq in Hp' by (by eapply lookup_lt_Some). injection Hp' as <-. by exists p.
    - rewrite list_lookup_insert_ne in Hp' by done. exists p'. split_and!; [done|done|]. by eapply H3. }
  split.
  - by rewrite Ht, length_insert.
  - apply Forall_lookup. intros j p' Hp'. destruct (Hl _ _ Hp') as (p0 & Hp0 & -> & _). by eapply (Forall_lookup_1 _ _ _ _ H2).
  - intros j p' Hp' Hdd. destruct (Hl _ _ Hp') as (p0 & Hp0 & E & Hn). unfold no_fds. rewrite E. by apply Hn.
  - by rewrite Hw.
  - intros j x Hx. rewrite Hw in Hx. rewrite (fdcount_ext _ _ Hm). by apply H5.
  - intros j p' f Hp' Hf. destruct (Hl _ _ Hp') as (p0 & Hp0 & E & _). rewrite E in Hf. by eapply H6.
Qed.

Lemma embryo_no_fds t np : embryo_from t np 0 -> exists n, t !! np = Some n /\ n.(state) = EMBRYO /\ no_fds n.
Proof.
  intros (n & Hn & He & Hz). exists n. split_and!; [done|done|]. apply Forall_lookup. intros j g. apply Hz. lia.
Qed.

Section Acts.
Variables (s s' : kst world) (ph : list phase) (i : nat) (p : proc).
Hypothesis I : finv s ph.
Hypothesis Hp : s.(ptable) !! i = Some p.
Hypothesis Hrun : p.(state) = RUNNING.

Lemma act_fork_slot np :
  ph !! i = Some Idle -> allocproc_slot s = Ok (Some np, s') -> finv s' (<[i := Forking np]> ph).
Proof.
  intros Hq H. unfold allocproc_slot in H. destruct (first_unused s.(ptable)) as [k|] eqn:Hu; [|done].
  injection H as -> <-. destruct (first_unused_lookup _ _ Hu) as (n & Hn & Hs).
  pose proof (ri_dead _ _ (fi_rinv _ _ I) np n Hn ltac:(unfold is_dead; by rewrite Hs)) as Hno.
  assert (Hne : np <> i). { intros ->. rewrite Hp in Hn. injection Hn as <-. by rewrite Hrun in Hs. }
  eapply moves_finv; [exact I|exact Hp|by apply running_engaged|exact Hq| |].
  - eapply rinv_hand_same; [exact Hq|done|].
    eapply (rinv_alter s _ _ np n _ (fi_rinv _ _ I) Hn); [|done| |].
    + cbn [upd_proc set_ptable ptable]. apply list_alter_alter_eq.
    + done.
    + done.
  - split.
    + exists p. cbn [upd_proc set_ptable ptable]. rewrite !list_lookup_alter_ne by done.
      split; [done|]. split; [|right; by apply running_engaged]. eexists. split; [by rewrite !list_lookup_alter_eq, Hn|].
      split; [done|]. intros j g _ Hg. exact (Forall_lookup_1 _ _ _ _ Hno Hg).
    + intros k x _ _ Hc Hx. exists x. cbn [upd_proc set_ptable ptable].
      rewrite !list_lookup_alter_ne by (intros ->; by apply Hc). done.
    + intros m E. injection E as <-. right. exists n. unfold is_dead. by rewrite Hs.
Qed.

Lemma act_fork_fails np :
  ph !! i = Some (Forking np) -> finv (upd_proc np (fun p => with_state p UNUSED) s) (<[i := Idle]> ph).
Proof.
  intros Hq. pose proof (its_claim _ _ _ _ _ I Hp Hq) as Hc. destruct (embryo_no_fds _ _ Hc) as (n & Hn & He & Hno).
  eapply (step_child s _ ph i p (Forking np) Idle I Hp Hrun Hq np n _ eq_refl); [done|done|done|by right|done|].
  eapply rinv_hand_same; [exact Hq|done|].
  by eapply (rinv_alter s _ _ np n _ (fi_rinv _ _ I) Hn).
Qed.

Lemma act_fork_done np r :
  ph !! i = Some (Copying np NOFILE) -> fork_publish np s = Ok (r, s') -> finv s' (<[i := Idle]> ph).
Proof.
  intros Hq H. pose proof (its_claim _ _ _ _ _ I Hp Hq) as (n & Hn & He & _). unfold fork_publish in H.
  kinv H. apply getp_Ok in Hr as [-> _]. kinv H. apply setp_Ok in Hr. subst. injection H as _ <-.
  eapply (step_child s _ ph i p _ Idle I Hp Hrun Hq np n _ eq_refl); [done|done|done|by right|done|].
  eapply rinv_hand_same; [exact Hq|done|].
  by eapply (rinv_alter s _ _ np n _ (fi_rinv _ _ I) Hn).
Qed.

Lemma act_copy_set np k f :
  ph !! i = Some (Copied np k f) -> finv (upd_proc np (set_fd k f) s) (<[i := Copying np (S k)]> ph).
Proof.
  intros Hq. pose proof (its_claim _ _ _ _ _ I Hp Hq) as (Hf & (n & Hn & He & Hz) & Hk).
  pose proof (ofile_len _ _ _ _ (fi_rinv _ _ I) Hn) as Hl. unfold NOFILE in Hk.
  destruct (lookup_lt_is_Some_2 n.(ofile) k) as [g Hg]; [lia|].
  assert (g = 0) as -> by (by apply (Hz k)).
  eapply (step_child s _ ph i p _ _ I Hp Hrun Hq np n _ eq_refl); [done|done|done|by left| |].
  - exists (set_fd k f n). split; [by apply upd_proc_at|]. split; [done|]. intros j g Hj Hg'. cbn in Hg'.
    rewrite list_lookup_insert_ne in Hg' by lia. apply (Hz j); [lia|done].
  - eapply rinv_hand; [exact Hq| |eapply (rinv_set_fd s _ np n k 0 f (fi_rinv _ _ I) Hn Hg)].
    + intros x Hx. cbn [hand]. unfold minus1, plus1. rewrite one_0 by done. lia.
    + by right.
    + intros _. unfold is_dead. by rewrite He.
Qed.

Lemma act_exit_done u :
  ph !! i = Some (Exiting NOFILE) -> exit_last i s = Ok (u, s') -> finv s' (<[i := Idle]> ph).
Proof.
  intros Hq H. pose proof (its_claim _ _ _ _ _ I Hp Hq) as Hc.
  assert (Hno : no_fds p).
  { apply Forall_lookup. intros j g Hg. apply (Hc j); [|done]. apply lookup_lt_Some in Hg.
    by rewrite (ofile_len _ _ _ _ (fi_rinv _ _ I) Hp) in Hg. }
  unfold exit_last in H. apply kM_bind_Ok in H as (p5 & s5 & H5 & H). apply getp_Ok in H5 as [-> Hp5].
  rewrite Hp in Hp5. injection Hp5 as <-. apply kM_bind_Ok in H as (u6 & s6 & H6 & H). injection H6 as _ <-.
  apply kM_bind_Ok in H as (u7 & s7 & H7 & H). injection H7 as _ <-.
  apply kM_bind_Ok in H as (u8 & s8 & H8 & H). apply setp_Ok in H8. apply sched_Ok in H. subst s8 s'.
  set (s1 := set_ptable _ _).
  assert (Q : quiet s s1).
  { split; [reflexivity|]. etransitivity; [apply kept_wakeup1|apply kept_reparent]. }
  destruct (Forall2_lookup_l _ _ _ _ _ (proj2 Q) Hp) as (p1 & Hp1 & Hk1).
  pose proof (quiet_finv _ _ _ I Q) as I1. assert (Hno1 : no_fds p1) by (unfold no_fds; by rewrite (proj1 Hk1)).
  eapply moves_finv; [exact I1|exact Hp1|eapply kept_engaged; [exact Hk1|by apply running_engaged]|exact Hq| |].
  - eapply rinv_hand_same; [exact Hq|done|].
    by eapply (rinv_alter s1 _ _ i p1 _ (fi_rinv _ _ I1) Hp1).
  - split; [|intros k x Hk _ _ Hx; exists x; by rewrite upd_proc_ne|by intros np].
    exists (with_state p1 ZOMBIE). split; [exact (upd_proc_at s1 i (fun p => with_state p ZOMBIE) p1 Hp1)|]. split; [done|by left].
Qed.

End Acts.

Lemma no_child s q q' : child q' = None -> new_child s q q'.
Proof. intros E np H. congruence. Qed.

Lemma same_child s q q' : child q' = child q -> new_child s q q'.
Proof. intros E np H. left. congruence. Qed.

Lemma cleared_S p k : cleared p k -> p.(ofile) !! k = Some 0 -> cleared p (S k).
Proof.
  intros H H0 j g Hj Hg. destruct (decide (j = k)) as [->|]; [congruence|]. apply (H j g); [lia|done].
Qed.

Ltac stutter := eapply step_stutter; eauto; try (by apply no_child); try (by apply same_child).
Ltac hands_lia := eauto; try (intros ? ?; cbn [hand]; rewrite ?one_0 by done; lia); try (intros ?; cbn [hand]; lia).

Lemma act_finv s ph i p q q' s' :
  finv s ph -> s.(ptable) !! i = Some p -> p.(state) = RUNNING -> ph !! i = Some q -> act i q s q' s' ->
  finv s' (<[i := q']> ph).
Proof.
  intros I Hp Hrun Hq H. pose proof (its_claim _ _ _ _ _ I Hp Hq) as Hc.
  pose proof (ofile_len _ _ _ _ (fi_rinv _ _ I) Hp) as Hl.
  assert (Hptr : forall k f, p.(ofile) !! k = Some f -> f <> 0 -> fptr f).
  { intros k f Hf Hne. by destruct (ri_ptr _ _ (fi_rinv _ _ I) _ _ _ Hp (list_elem_of_lookup_2 _ _ _ Hf)). }
  destruct H; cbn [claim] in Hc.
  - eapply step_arg; eauto. intros Hf Ho. split; [done|by eapply cntl_lookup].
  - by stutter.
  - eapply step_arg; eauto. intros Hf Ho. split; [done|by eapply cntl_lookup].
  - rewrite (fdalloc_full _ _ _ _ _ I Hp _ _ H H0). by stutter.
  - destruct Hc as [Hf Hc]. eapply step_fdalloc; hands_lia. intros t p' _ E. split; [done|lia].
  - eapply step_filedup; hands_lia; done.
  - eapply step_arg; eauto. intros Hf Ho. done.
  - apply setp_Ok in H. destruct Hc as [Hf Hc]. eapply step_fd; hands_lia; done.
  - destruct o; cbn [after_drop]; eapply step_drop; hands_lia; done.
  - by stutter.
  - destruct Hc as [Hf Hg]. destruct o; cbn [after_drop]; eapply step_drop; hands_lia.
  - by stutter.
  - eapply step_filealloc; hands_lia.
  - rewrite (fdalloc_full _ _ _ _ _ I Hp _ _ H H0). by stutter.
  - eapply step_fdalloc; hands_lia. intros t p' Ho _. split; [done|by eapply cntl_lookup].
  - eapply step_filealloc; hands_lia.
  - pose proof (filealloc_refs _ _ _ _ (fi_rinv _ _ I) H) as E. simpl in E. subst s'. by stutter.
  - eapply step_filealloc; hands_lia. by split.
  - by stutter.
  - rewrite (fdalloc_full _ _ _ _ _ I Hp _ _ H H0). by stutter.
  - destruct Hc as [Hf Hg]. eapply step_fdalloc; hands_lia. intros t p' Ho _. done.
  - rewrite (fdalloc_full _ _ _ _ _ I Hp _ _ H H0) in H1. apply setp_Ok in H1. destruct Hc as (Hf & Hg & Ho).
    eapply step_fd; hands_lia; done.
  - destruct Hc as (Hf & Hg & Ho). eapply step_fdalloc; hands_lia. done.
  - eapply act_fork_slot; eauto.
  - apply setp_Ok in H. subst s'. eapply act_fork_fails; eauto.
  - by stutter.
  - rewrite Hp in H. injection H as <-. stutter. destruct Hc as (n & Hn & He & Hz).
    exists n. split_and!; [done|done|]. intros j g Hj. apply Hz. lia.
  - rewrite Hp in H. injection H as <-. eapply step_filedup; hands_lia; [by apply same_child|].
    split_and!; [by eapply Hptr|done|]. change NOFILE with 16%nat. rewrite <- Hl. by eapply lookup_lt_Some.
  - apply setp_Ok in H. subst s'. eapply act_copy_set; eauto.
  - eapply act_fork_done; eauto.
  - stutter. intros j g Hj; lia.
  - rewrite Hp in H. injection H as <-. stutter. by apply cleared_S.
  - rewrite Hp in H. injection H as <-. eapply step_drop; hands_lia. split; [by eapply Hptr|done].
  - apply setp_Ok in H. destruct Hc as (Hf & Ho & Hcl). eapply step_fd; hands_lia.
    apply cleared_S; [|apply list_lookup_insert_eq; by eapply lookup_lt_Some].
    intros j g Hj Hg. cbn in Hg. rewrite list_lookup_insert_ne in Hg by lia. by apply (Hcl j g).
  - eapply act_exit_done; eauto.
Qed.

Lemma fstep_finv s ph s' ph' : finv s ph -> fstep (s, ph) (s', ph') -> finv s' ph'.
Proof.
  intros I H. inversion H; subst; [by eapply act_finv|by eapply quiet_finv].
Qed.

Lemma fsteps_finv c c' : finv c.1 c.2 -> rtc fstep c c' -> finv c'.1 c'.2.
Proof.
  intros I H. induction H as [|[s ph] [s1 ph1] c' H _ IH]; [done|]. apply IH. by eapply fstep_finv.
Qed.

(** ** What follows for the files *)

(** The files that the call of a process in phase [q] works on: those it holds
    and those it will pass to [filedup] or [fileclose]. *)
Definition works_on (p : proc) (q : phase) (f : Z) : Prop :=
  match q with
  | Using g | DupGot g | DupFd g | CloseGot _ g | Closing g | ReleasingThen g | OpenFile g | PipeOne g
  | Copied _ _ g => f = g
  | ClosingTwo g h | PipeBoth g h | PipeHalf _ g h => f = g \/ f = h
  | Copying _ k | Exiting k => p.(ofile) !! k = Some f /\ f <> 0
  | Idle | Releasing | Forking _ | ExitDropped _ _ => False
  end.

(** The share of one process in the count of a file. *)
Lemma share_nonneg t p q x : claim t p q -> 0 <= cntl p.(ofile) x + hand q x.
Proof.
  intros H. pose proof (cntl_bound p.(ofile) x) as [Hb _]. pose proof (hand_bound q x).
  destruct q; cbn [hand claim] in *; unfold one in *; repeat case_bool; try lia.
  - destruct H as [_ H]. subst. lia.
  - destruct H as (_ & H & _). subst. apply cntl_lookup in H. lia.
Qed.

Lemma share_fd t p q f :
  claim t p q -> f ∈ p.(ofile) -> (forall k, q <> ExitDropped k f) -> 1 <= cntl p.(ofile) f + hand q f.
Proof.
  intros H Hf Hx. apply cntl_elem in Hf.
  destruct q; cbn [hand claim] in *; unfold one in *; repeat case_bool; try lia.
  - destruct H as [_ H]. subst. lia.
  - subst. by destruct (Hx k).
Qed.

Lemma share_works t p q f : claim t p q -> works_on p q f -> fptr f -> 1 <= cntl p.(ofile) f + hand q f.
Proof.
  intros H Hw Hf. pose proof (cntl_bound p.(ofile) f) as [Hb _].
  destruct q; cbn [works_on hand claim] in *; try done; subst; rewrite ?one_self; try lia.
  - destruct H. apply cntl_lookup in H0. lia.
  - unfold one. repeat case_bool; lia.
  - unfold one. repeat case_bool; lia.
  - destruct H as (_ & _ & H). apply cntl_lookup in H. destruct Hw as [->| ->]; unfold one; repeat case_bool; lia.
  - destruct Hw as [Hw _]. apply cntl_lookup in Hw. lia.
  - destruct Hw as [Hw _]. apply cntl_lookup in Hw. lia.
Qed.

Lemma works_fptr s ph i p q f :
  finv s ph -> s.(ptable) !! i = Some p -> ph !! i = Some q -> works_on p q f -> fptr f.
Proof.
  intros I Hp Hq Hw. pose proof (its_claim _ _ _ _ _ I Hp Hq) as Hc.
  assert (Hptr : forall k, p.(ofile) !! k = Some f /\ f <> 0 -> fptr f).
  { intros k [Hf Hne]. by destruct (ri_ptr _ _ (fi_rinv _ _ I) _ _ _ Hp (list_elem_of_lookup_2 _ _ _ Hf)). }
  destruct q; cbn [works_on claim] in *; subst; try tauto; try (by eapply Hptr); destruct Hw as [->| ->]; tauto.
Qed.

(** One share is at most the whole. *)
Lemma share_le t ph x i p q :
  length t = length ph ->
  (forall j p q, t !! j = Some p -> ph !! j = Some q -> 0 <= cntl p.(ofile) x + hand q x) ->
  t !! i = Some p -> ph !! i = Some q -> cntl p.(ofile) x + hand q x <= fdcount t x + hands ph x.
Proof.
  assert (Hn : forall t ph, length t = length ph ->
    (forall j p q, t !! j = Some p -> ph !! j = Some q -> 0 <= cntl p.(ofile) x + hand q x) -> 0 <= fdcount t x + hands ph x).
  { intros t0. induction t0 as [|a t0 IH]; intros [|b ph0] Hl H; cbn [fdcount hands]; try done.
    pose proof (H 0%nat a b eq_refl eq_refl). pose proof (IH ph0 ltac:(simpl in Hl; lia) (fun j => H (S j))). lia. }
  revert ph i. induction t as [|a t IH]; intros [|b ph] [|i] Hl H Hp Hq; simpl in Hl; try done; cbn [fdcount hands].
  - injection Hp as ->. injection Hq as ->. pose proof (Hn t ph ltac:(lia) (fun j => H (S j))). lia.
  - pose proof (H 0%nat a b eq_refl eq_refl). pose proof (IH ph i ltac:(lia) (fun j => H (S j)) Hp Hq). lia.
Qed.

(** A file with a positive share is in use. *)
Lemma share_ref s ph i p q f :
  finv s ph -> s.(ptable) !! i = Some p -> ph !! i = Some q -> fptr f -> 1 <= cntl p.(ofile) f + hand q f ->
  exists x, s.(Proc.world).(w_files) !! unptr f = Some x /\ 1 <= x.(f_ref).
Proof.
  intros I Hp Hq (j & Hj & ->) H. rewrite unptr_ptr.
  destruct (lookup_lt_is_Some_2 s.(Proc.world).(w_files) j) as [x Hx]; [by rewrite (ri_files _ _ (fi_rinv _ _ I))|].
  exists x. split; [done|]. rewrite (ri_ref _ _ (fi_rinv _ _ I) j x Hx).
  pose proof (share_le s.(ptable) ph (ptr j) i p q) as Hs. rewrite (ri_len _ _ (fi_rinv _ _ I)), (fi_len _ _ I) in Hs.
  specialize (Hs eq_refl). enough (cntl p.(ofile) (ptr j) + hand q (ptr j) <= fdcount s.(ptable) (ptr j) + hands ph (ptr j)) by lia.
  apply Hs; [|done|done]. intros k p' q' Hp' Hq'. eapply share_nonneg. by eapply (fi_claim _ _ I).
Qed.

Lemma filedup_runs (s : kst world) f x :
  s.(Proc.world).(w_files) !! unptr f = Some x -> 1 <= x.(f_ref) -> exists r, svc (filedup f) s = Ok r.
Proof.
  intros Hx Hr. unfold svc, filedup. rewrite (kM_bind_run (getf f) _ _ x s.(Proc.world)) by (unfold getf; by rewrite Hx).
  destruct (Z.ltb_spec x.(f_ref) 1); [lia|]. erewrite kM_bind_run by reflexivity. rewrite kM_ret_run. eauto.
Qed.

Lemma fileclose_drop_runs (s : kst world) f x :
  s.(Proc.world).(w_files) !! unptr f = Some x -> 1 <= x.(f_ref) -> exists r, svc (fileclose_drop f) s = Ok r.
Proof.
  intros Hx Hr. unfold svc, fileclose_drop. rewrite (kM_bind_run (getf f) _ _ x s.(Proc.world)) by (unfold getf; by rewrite Hx).
  destruct (Z.ltb_spec x.(f_ref) 1); [lia|].
  destruct (0 <? _); erewrite kM_bind_run by reflexivity; rewrite kM_ret_run; eauto.
Qed.

(** Counts are right, with nothing in hand. *)
Definition settled (s : kst world) : Prop := rinv s (fun _ => 0).

Lemma settled_finv s : settled s <-> finv s (replicate NPROC Idle).
Proof.
  split.
  - intros R. split; [|apply length_replicate| |].
    + eapply rinv_ext; [|exact R]. intros x _. by rewrite hands_idle.
    + intros i p q _ Hq. apply lookup_replicate in Hq as [-> _]. split; [done|by left].
    + intros i j q r np Hq. apply lookup_replicate in Hq as [-> _]. done.
  - intros I. eapply rinv_ext; [|exact (fi_rinv _ _ I)]. intros x _. apply hands_idle.
Qed.

(** C2. At every point where the scheduler may switch, with any number of
    processes in the middle of dup, close, open, pipe, fork and exit, and with
    sleeps, wakeups and clock ticks anywhere in between: the reference count of
    every open file is the number of descriptors that name it, over all
    processes, plus the references that calls under way hold in hand, minus
    those they owe.  So a descriptor never names a free file, but for the one
    that [exit] is about to clear after [fileclose] gave its reference back;
    and neither [filedup] nor [fileclose] panics on a file that a call works
    on.  Counts must be right at the start, as they are when the kernel boots
    ([settled_boot]). *)
Theorem file_refs_exact s0 s ph :
  settled s0 -> rtc fstep (s0, replicate NPROC Idle) (s, ph) ->
  (forall i x, s.(Proc.world).(w_files) !! i = Some x -> x.(f_ref) = fdcount s.(ptable) (ptr i) + hands ph (ptr i)) /\
  (forall i p q f, s.(ptable) !! i = Some p -> ph !! i = Some q -> f ∈ p.(ofile) -> f <> 0 ->
     (forall k, q <> ExitDropped k f) ->
     exists x, s.(Proc.world).(w_files) !! unptr f = Some x /\ 1 <= x.(f_ref)) /\
  (forall i p q f, s.(ptable) !! i = Some p -> ph !! i = Some q -> works_on p q f ->
     (exists r, svc (filedup f) s = Ok r) /\ (exists r, svc (fileclose_drop f) s = Ok r)).
Proof.
  intros I0 H. apply settled_finv in I0. pose proof (fsteps_finv (s0, _) (s, ph) I0 H) as I. cbn [fst snd] in I. split_and!.
  - apply (ri_ref _ _ (fi_rinv _ _ I)).
  - intros i p q f Hp Hq Hf Hf0 Hx. eapply share_ref; [exact I|exact Hp|exact Hq| |].
    + by destruct (ri_ptr _ _ (fi_rinv _ _ I) _ _ _ Hp Hf).
    + eapply share_fd; [|done|done]. by eapply (fi_claim _ _ I).
  - intros i p q f Hp Hq Hw. pose proof (works_fptr _ _ _ _ _ _ I Hp Hq Hw) as Hf.
    destruct (share_ref s ph i p q f I Hp Hq Hf) as (x & Hx & Hr).
    + eapply share_works; [|done|done]. by eapply (fi_claim _ _ I).
    + split; [by eapply filedup_runs|by eapply fileclose_drop_runs].
Qed.
