(* ===== verification/RefsSys.v ===== *)
(** * System calls as runs of fine steps

    Each system call of [Sysfile], [Proc] and [Trap], run from start to end,
    is a run of the steps of [RefsFine] from the idle phase back to it: the
    phases are those of the code, and all the other code is quiet. *)

From S2P Require Import Prelude CString Mmu Kalloc Vm Proc ProcSpec Bio Layout Log Fs Pipe World File Syscall Sysfile Trap Refs RefsFine.

(** ** Steps of one process *)

Inductive turn (i : nat) : phase * kst world -> phase * kst world -> Prop :=
| t_act s p q q' s' :
    s.(ptable) !! i = Some p -> p.(state) = RUNNING -> act i q s q' s' -> turn i (q, s) (q', s')
| t_quiet q s s' : quiet s s' -> turn i (q, s) (q, s').

Definition run (i : nat) (q : phase) (s : kst world) (q' : phase) (s' : kst world) : Prop :=
  rtc (turn i) (q, s) (q', s').

Lemma run_fsteps i q s q' s' ph :
  run i q s q' s' -> ph !! i = Some q -> rtc fstep (s, ph) (s', <[i := q']> ph).
Proof.
  unfold run. remember (q, s) as c eqn:Ec. remember (q', s') as c' eqn:Ec'. intros H. revert q s ph Ec.
  induction H as [c|c [q1 s1] c' H _ IH]; intros q s ph -> Hq.
  - injection Ec' as -> ->. by rewrite list_insert_id.
  - specialize (IH Ec' q1 s1 (<[i := q1]> ph) eq_refl).
    rewrite list_lookup_insert_eq, list_insert_insert_eq in IH by (by eapply lookup_lt_Some). specialize (IH eq_refl).
    eapply rtc_l; [|exact IH]. inversion H; subst; [by eapply f_act|]. rewrite list_insert_id by done. by apply f_quiet.
Qed.

(** The process is running. *)
Definition on (cur : nat) (s : kst world) : Prop := exists p, s.(ptable) !! cur = Some p /\ p.(state) = RUNNING.

Lemma run_act cur q s q1 s1 q' s' : on cur s -> act cur q s q1 s1 -> run cur q1 s1 q' s' -> run cur q s q' s'.
Proof. intros (p & Hp & Hr) Ha H. eapply rtc_l; [by eapply t_act|exact H]. Qed.

Lemma run_quiet cur q s s1 q' s' : quiet s s1 -> run cur q s1 q' s' -> run cur q s q' s'.
Proof. intros Hs H. eapply rtc_l; [by apply t_quiet|exact H]. Qed.

Lemma run_trans cur q s q1 s1 q' s' : run cur q s q1 s1 -> run cur q1 s1 q' s' -> run cur q s q' s'.
Proof. unfold run. intros A B. by transitivity (q1, s1). Qed.

Lemma run_done cur q s : run cur q s q s.
Proof. apply rtc_refl. Qed.

Lemma run_last cur q s q' s' : on cur s -> act cur q s q' s' -> run cur q s q' s'.
Proof. intros H Ha. eapply run_act; [done|exact Ha|apply run_done]. Qed.

Lemma run_calm cur q s s' : quiet s s' -> run cur q s q s'.
Proof. intros H. eapply run_quiet; [exact H|apply run_done]. Qed.

Lemma on_table cur s s' : s'.(ptable) = s.(ptable) -> on cur s -> on cur s'.
Proof. unfold on. by intros ->. Qed.

Lemma on_still cur s s' : still s s' -> on cur s -> on cur s'.
Proof. intros [_ H]. by apply on_table. Qed.

Lemma on_svc {A} cur (m : kM world A) s a s' : svc m s = Ok (a, s') -> on cur s -> on cur s'.
Proof. intros H. apply svc_run in H as (w & _ & ->). by apply on_table. Qed.

(** An assignment to a process that leaves its state alone. *)
Lemma on_setp cur i g s (u : unit) s' :
  setp i g s = Ok (u, s') -> (forall p, (g p).(state) = p.(state)) -> on cur s -> on cur s'.
Proof.
  intros H Hg (p & Hp & Hr). apply setp_Ok in H. subst s'. destruct (decide (cur = i)) as [<-|Hne].
  - exists (g p). split; [by apply upd_proc_at|]. by rewrite Hg.
  - exists p. by rewrite upd_proc_ne.
Qed.

Lemma on_fdalloc cur f s fd s' : fdalloc cur f s = Ok (fd, s') -> on cur s -> on cur s'.
Proof.
  intros H Ho. unfold fdalloc in H. kinv H. apply getp_Ok in Hr as [-> _]. destruct (fst <$> _).
  - kinv H. injection H as _ <-. eapply on_setp; [exact Hr| |exact Ho]. done.
  - by injection H as _ <-.
Qed.

Lemma svc_split {A B} (m : kM world A) (f : A -> kM world B) s b s'' :
  svc (x ← m; f x) s = Ok (b, s'') -> exists a s', svc m s = Ok (a, s') /\ svc (f a) s' = Ok (b, s'').
Proof.
  intros H. apply svc_run in H as (w & H & ->). apply kM_bind_Ok in H as (a & w' & H1 & H2).
  exists a, (set_world s w'). unfold svc. rewrite H1. split; [done|]. cbn. by rewrite H2.
Qed.

Lemma svc_mret {A} (a b : A) (s s' : kst world) : svc (mret a) s = Ok (b, s') -> b = a /\ s' = s.
Proof. intros H. apply svc_run in H as (w & H & ->). injection H as <- <-. by destruct s. Qed.

Section Sys.
Variable kend kdata : Z.
Variable devread : Z -> option (nat -> Z -> kM fsst (Z * list Z)).
Variable devwrite : Z -> option (nat -> list Z -> Z -> kM fsst Z).
Variable cur : nat.
Variable me : Z.

(** ** Files *)

(** [fileclose]: the critical section, and what follows it. *)
Lemma fileclose_split f s u s' :
  svc (fileclose kend me f) s = Ok (u, s') ->
  exists o s1, svc (fileclose_drop f) s = Ok (o, s1) /\ still s1 s' /\ (o = None -> s' = s1).
Proof.
  intros H. unfold fileclose in H. apply svc_split in H as (o & s1 & H1 & H2). exists o, s1. split; [done|].
  destruct o as [ff|].
  - split; [|done]. eapply still_svc; [apply wq_fileclose_release|exact H2].
  - apply svc_mret in H2 as [_ ->]. done.
Qed.

Lemma run_close f s u s' : on cur s -> svc (fileclose kend me f) s = Ok (u, s') -> run cur (Closing f) s Idle s'.
Proof.
  intros Ho H. destruct (fileclose_split _ _ _ _ H) as (o & s1 & H1 & Hs & Hn). pose proof (on_svc _ _ _ _ _ H1 Ho) as Ho1.
  eapply run_act; [done|by eapply close_drop|]. destruct o as [ff|]; cbn [after_drop].
  - eapply run_quiet; [by apply still_quiet|]. apply run_last; [by eapply on_still|constructor].
  - rewrite Hn by done. apply run_done.
Qed.

Lemma run_close_two f g s u s1 u' s' :
  on cur s -> svc (fileclose kend me f) s = Ok (u, s1) -> svc (fileclose kend me g) s1 = Ok (u', s') ->
  run cur (ClosingTwo f g) s Idle s'.
Proof.
  intros Ho H H'. pose proof (run_close _ _ _ _ (on_svc _ _ _ _ _ H Ho) H') as Hg.
  destruct (fileclose_split _ _ _ _ H) as (o & s0 & H1 & Hs & Hn). pose proof (on_svc _ _ _ _ _ H1 Ho) as Ho1.
  eapply run_act; [done|by eapply close_two|]. destruct o as [ff|]; cbn [after_drop].
  - eapply run_quiet; [by apply still_quiet|]. eapply run_act; [by eapply on_still|constructor|done].
  - by rewrite <- Hn.
Qed.

(** A call of a running process that is a run from idle to idle. *)
Definition sim {A} (m : kM (kst world) A) : Prop :=
  forall s a s', settled s -> on cur s -> m s = Ok (a, s') -> run cur Idle s Idle s'.

Lemma sim_quiet {A} (m : kM (kst world) A) : pres quiet m -> sim m.
Proof. intros H s a s' _ _ E. apply run_calm. by eapply H. Qed.

(** Code that reads arguments, and then a call. *)
Lemma sim_args {A B} (m : kM (kst world) A) (k : A -> kM (kst world) B) :
  pres still m -> (forall a, sim (k a)) -> sim (x ← m; k x).
Proof.
  intros Hm Hk s b s'' I Ho H. apply kM_bind_Ok in H as (a & s' & H1 & H2). pose proof (Hm _ _ _ H1) as Hs.
  eapply run_quiet; [by apply still_quiet|]. eapply Hk; [|by eapply on_still|exact H2].
  eapply rinv_quiet; [exact I|by apply still_quiet].
Qed.

Lemma sim_need {A} (o : option A) (k : A -> kM (kst world) Z) : (forall a, sim (k a)) -> sim (need o k).
Proof. intros H. destruct o; [apply H|]. apply sim_quiet, pres_ret, _. Qed.

Lemma sim_ret m : sim m -> sim (ret m).
Proof. intros H s a s' I Ho E. unfold ret in E. kinv E. injection E as _ <-. by eapply H. Qed.

Lemma sys_dup_sim : sim (sys_dup cur).
Proof.
  intros s r s' I Ho H. unfold sys_dup in H. kinv H. pose proof (still_argfd cur 0 _ _ _ Hr) as Hs.
  pose proof (on_still _ _ _ Hs Ho) as Ho1. destruct a as [[fd0 f]|]; cbn [need] in H.
  - eapply run_act; [exact Ho|by eapply dup_arg|]. kinv H. pose proof (on_fdalloc _ _ _ _ _ Hr0 Ho1) as Ho2.
    destruct (Z.ltb_spec a 0).
    + injection H as _ <-. apply run_last; [done|by eapply dup_full].
    + eapply run_act; [exact Ho1|by eapply dup_fd|]. kinv H. injection H as _ <-.
      apply run_last; [done|by eapply dup_done].
  - injection H as _ <-. apply run_calm. by apply still_quiet.
Qed.

Lemma sys_close_sim : sim (sys_close kend cur me).
Proof.
  intros s r s' I Ho H. unfold sys_close in H. kinv H. pose proof (still_argfd cur 0 _ _ _ Hr) as Hs.
  pose proof (on_still _ _ _ Hs Ho) as Ho1. destruct a as [[fd f]|]; cbn [need] in H.
  - eapply run_act; [exact Ho|by eapply close_arg|]. kinv H. pose proof (on_setp _ _ _ _ _ _ Hr0 ltac:(done) Ho1) as Ho2.
    eapply run_act; [exact Ho1|by eapply close_fd|]. kinv H. injection H as _ <-. by eapply run_close.
  - injection H as _ <-. apply run_calm. by apply still_quiet.
Qed.

Lemma sys_open_sim : sim (sys_open kend devread devwrite cur me).
Proof.
  unfold sys_open. apply sim_args; [apply still_argstr|]. intros o. apply sim_need. intros path.
  apply sim_args; [apply still_argint|]. intros o1. apply sim_need. intros omode.
  apply sim_args; [apply still_fsc|]. intros _. apply sim_args; [apply still_open_inode|]. intros [ip|].
  2: { apply sim_quiet, pres_still, still_fail_tx. }
  intros s r s' I Ho H. kinv H. pose proof (on_svc _ _ _ _ _ Hr Ho) as Ho1.
  assert (Hfail : pres quiet (_ ← fsc (iunlockput me ip); fail_tx me)) by pres.
  kinv H. destruct (Z.eqb_spec a 0) as [->|Hne].
  - pose proof (filealloc_refs _ _ _ _ I Hr) as E. simpl in E. subst. injection Hr0 as <- <-. simpl in H. kinv H.
    injection Hr0 as _ <-. apply run_calm. by eapply Hfail.
  - pose proof (on_fdalloc _ _ _ _ _ Hr0 Ho1) as Ho2. eapply run_act; [exact Ho|by eapply open_file|].
    destruct (Z.ltb_spec a0 0).
    + eapply run_act; [exact Ho1|by eapply open_full|]. kinv H. eapply run_trans; [by eapply run_close|].
      apply run_calm. by eapply Hfail.
    + eapply run_act; [exact Ho1|by eapply open_fd|]. eapply run_act; [exact Ho2|constructor|].
      apply run_calm. revert H. match goal with |- ?m s1 = _ -> _ => assert (Hq : pres quiet m) by pres end.
      intros H. by eapply Hq.
Qed.

(** [pipealloc] ends with both files in hand, or idle. *)
Lemma run_pipealloc s o s' :
  settled s -> on cur s -> svc (pipealloc kend me) s = Ok (o, s') ->
  match o with
  | Some (f0, f1) => run cur Idle s (PipeBoth f0 f1) s'
  | None => run cur Idle s Idle s'
  end.
Proof.
  intros I Ho H. unfold pipealloc in H. apply svc_split in H as (f0 & s1 & H0 & H).
  pose proof (filealloc_refs _ _ _ _ I H0) as E0. pose proof (on_svc _ _ _ _ _ H0 Ho) as Ho1.
  destruct (Z.eqb_spec f0 0) as [->|Hne0].
  { subst. simpl in H. apply svc_mret in H as [-> ->]. apply run_done. }
  destruct E0 as [Hp0 I1]. apply svc_split in H as (f1 & s2 & H1 & H). pose proof (on_svc _ _ _ _ _ H1 Ho1) as Ho2.
  assert (Hrun : forall q s', run cur (PipeOne f0) s1 q s' -> run cur Idle s q s').
  { intros q s3 Hx. eapply run_act; [exact Ho|by eapply pipe_one|exact Hx]. }
  destruct (Z.eqb_spec f1 0) as [->|Hne1].
  { apply svc_split in H as (u1 & s3 & H2 & H). apply svc_mret in H as [-> ->]. apply Hrun.
    eapply run_act; [exact Ho1|by eapply pipe_nofile|by eapply run_close]. }
  apply svc_split in H as (pg & s3 & H2 & H). pose proof (still_svc _ (wq_onmem kalloc) _ _ _ H2) as Q2.
  pose proof (on_still _ _ _ Q2 Ho2) as Ho3.
  assert (Hboth : forall q s', run cur (PipeBoth f0 f1) s3 q s' -> run cur Idle s q s').
  { intros q s4 Hx. apply Hrun. eapply run_act; [exact Ho1|by eapply pipe_both|].
    eapply run_quiet; [by apply still_quiet|exact Hx]. }
  destruct (Z.eqb_spec pg 0) as [->|Hne2].
  - apply svc_split in H as (u1 & s4 & H3 & H). apply svc_split in H as (u2 & s5 & H4 & H). apply svc_mret in H as [-> ->].
    apply Hboth. eapply run_act; [exact Ho3|constructor|by eapply run_close_two].
  - revert H. match goal with |- svc ?m s3 = _ -> _ => assert (Hq : pres wq m) by pres end. intros H.
    pose proof (still_svc _ Hq _ _ _ H) as Q3. apply svc_run in H as (w & H & ->). repeat (kinv H). injection H as <- <-.
    apply Hboth, run_calm. by apply still_quiet.
Qed.

Lemma sys_pipe_sim : sim (sys_pipe kend cur me).
Proof.
  unfold sys_pipe. apply sim_args; [apply still_argptr|]. intros o. apply sim_need. intros fd.
  intros s r s' I Ho H. kinv H. pose proof (run_pipealloc _ _ _ I Ho Hr) as Hp. pose proof (on_svc _ _ _ _ _ Hr Ho) as Ho1.
  destruct a as [[rf wf]|]; cbn [need] in H; [|by injection H as _ <-].
  eapply run_trans; [exact Hp|]. kinv H. pose proof (on_fdalloc _ _ _ _ _ Hr0 Ho1) as Ho2.
  kinv H. destruct (Z.ltb_spec a 0) as [E0|E0].
  - injection Hr1 as <- <-. cbn in H. replace (0 <=? a) with false in H by (symmetry; lia).
    kinv H. injection Hr1 as _ <-. repeat (kinv H). injection H as _ <-.
    eapply run_act; [exact Ho1|by eapply pipe_full|by eapply run_close_two].
  - pose proof (on_fdalloc _ _ _ _ _ Hr1 Ho2) as Ho3. eapply run_act; [exact Ho1|by eapply pipe_fd0|].
    destruct (Z.ltb_spec a0 0) as [E1|E1].
    + replace (0 <=? a) with true in H by (symmetry; lia). kinv H.
      pose proof (on_setp _ _ _ _ _ _ Hr2 ltac:(done) Ho3) as Ho4. repeat (kinv H). injection H as _ <-.
      eapply run_act; [exact Ho2|by eapply pipe_half|by eapply run_close_two].
    + eapply run_act; [exact Ho2|by eapply pipe_fd1|]. apply run_calm.
      revert H. match goal with |- ?m s2 = _ -> _ => assert (Hq : pres quiet m) by pres end. intros H. by eapply Hq.
Qed.

(** ** Processes *)

Variable forkret trapret initcode initcode_size ticks_at tickslock_at : Z.

#[local] Instance svc_refs : ProcSvc world := kernel_svc kend kdata me devread initcode initcode_size.

Lemma wq_svc_idup ip : pres wq (svc_idup ip).
Proof. cbn. pres. Qed.
Lemma wq_svc_iput ip : pres wq (svc_iput ip).
Proof. cbn. pres. Qed.
Lemma wq_svc_namei : pres wq svc_namei_root.
Proof. cbn. pres. Qed.

#[local] Hint Resolve wq_svc_idup wq_svc_iput wq_svc_namei : pres.
#[local] Hint Extern 1 (pres wq (@svc_kalloc _ _)) => apply wq_onmem : pres.
#[local] Hint Extern 1 (pres wq (@svc_kfree _ _ _)) => apply wq_onmem : pres.
#[local] Hint Extern 1 (pres wq (@svc_freevm _ _ _)) => apply wq_onmem : pres.
#[local] Hint Extern 1 (pres wq (@svc_copyuvm _ _ _ _)) => apply wq_onmem : pres.
#[local] Hint Extern 1 (pres wq (@svc_setupkvm _ _)) => apply wq_onmem : pres.
#[local] Hint Extern 1 (pres wq (@svc_inituvm _ _ _)) => apply wq_onmem : pres.
#[local] Hint Extern 1 (pres wq (@svc_allocuvm _ _ _ _ _)) => apply wq_onmem : pres.
#[local] Hint Extern 1 (pres wq (@svc_deallocuvm _ _ _ _ _)) => apply wq_onmem : pres.

(** Slots other than [np] stay as they are. *)
Definition apart (np : nat) (s s' : kst world) : Prop :=
  forall k, k <> np -> s'.(ptable) !! k = s.(ptable) !! k.

#[local] Instance apart_preorder np : PreOrder (apart np).
Proof. split; [by intros s k|]. intros s1 s2 s3 A B k Hk. by rewrite B, A. Qed.

Lemma apart_svc {A} np (m : kM world A) : pres (apart np) (svc m).
Proof. intros s a s' H k _. by apply svc_run in H as (w & _ & ->). Qed.

Lemma apart_getp np i : pres (apart np) (@getp world i).
Proof. intros s a s' H. by apply getp_Ok in H as [-> _]. Qed.

Lemma apart_setp np g : pres (apart np) (@setp world np g).
Proof. apply pres_modify. intros s k Hk. by apply upd_proc_ne. Qed.

#[local] Hint Resolve apart_preorder apart_svc apart_getp apart_setp : pres.

Lemma on_apart np s s' : apart np s s' -> cur <> np -> on cur s -> on cur s'.
Proof. intros H Hne (p & Hp & Hr). exists p. by rewrite H. Qed.

Lemma quiet_set i g s (u : unit) s' :
  setp i g s = Ok (u, s') -> (forall p, (g p).(ofile) = p.(ofile)) -> (forall p, (g p).(state) = p.(state)) -> quiet s s'.
Proof. intros H Ho Hs. exact (quiet_setp_field i g Ho Hs _ _ _ H). Qed.

(** The loop of [fork]. *)
Lemma run_fork_dup np c fds : cur <> np -> forall k s u s',
  s.(ptable) !! cur = Some c -> c.(state) = RUNNING -> drop k c.(ofile) = fds ->
  fork_dup np fds k s = Ok (u, s') ->
  run cur (Copying np k) s (Copying np (k + length fds)) s' /\ s'.(ptable) !! cur = Some c.
Proof.
  intros Hne. induction fds as [|f fds IH]; intros k s u s' Hc Hrun Hd H; cbn [fork_dup] in H.
  { injection H as _ <-. cbn [length]. rewrite Nat.add_0_r. split; [apply run_done|done]. }
  assert (Hf : c.(ofile) !! k = Some f) by (rewrite <- (Nat.add_0_r k), <- lookup_drop, Hd; done).
  assert (Hd' : drop (S k) c.(ofile) = fds) by (rewrite <- Nat.add_1_r, <- drop_drop, Hd; done).
  assert (Ho : forall s0, s0.(ptable) !! cur = Some c -> on cur s0) by (intros s0 H0; by exists c).
  cbn [length]. rewrite Nat.add_succ_r, <- Nat.add_succ_l. apply kM_bind_Ok in H as (u1 & s1 & H1 & H).
  unfold c_true in H1. destruct (Z.eqb_spec f 0) as [->|Hf0]; cbn [negb] in H1.
  - injection H1 as _ <-. destruct (IH (S k) _ _ _ Hc Hrun Hd' H) as [R Hc']. split; [|done].
    eapply run_act; [by apply Ho|by eapply copy_none|exact R].
  - apply kM_bind_Ok in H1 as (u2 & s2 & H2 & H1). apply svc_split in H2 as (g & s3 & H2 & H3).
    apply svc_mret in H3 as [_ ->]. assert (Hc3 : s3.(ptable) !! cur = Some c) by (by apply svc_run in H2 as (w & _ & ->)).
    assert (Hc1 : s1.(ptable) !! cur = Some c) by (rewrite (apart_setp _ _ _ _ _ H1 cur Hne); done).
    destruct (IH (S k) _ _ _ Hc1 Hrun Hd' H) as [R Hc']. split; [|done].
    eapply run_act; [by apply Ho|by eapply copy_dup|]. eapply run_act; [by apply Ho|by eapply copy_set|exact R].
Qed.

Lemma run_fork_fill np c s o s' :
  cur <> np -> s.(ptable) !! cur = Some c -> c.(state) = RUNNING -> length c.(ofile) = NOFILE ->
  fork_fill cur np s = Ok (o, s') ->
  match o with
  | Some np' => np' = np /\ run cur (Forking np) s (Copying np NOFILE) s' /\ on cur s'
  | None => run cur (Forking np) s Idle s'
  end.
Proof.
  intros Hne Hc Hrun Hl H. unfold fork_fill in H.
  apply kM_bind_Ok in H as (c' & s1 & H1 & H). apply getp_Ok in H1 as [-> H1]. rewrite Hc in H1. injection H1 as <-.
  apply kM_bind_Ok in H as (pd & s1 & H1 & H).
  pose proof (still_svc _ (wq_onmem (copyuvm kend kdata c.(pgdir) c.(sz))) _ _ _ H1) as Q1.
  apply kM_bind_Ok in H as (u2 & s2 & H2 & H).
  pose proof (quiet_setp_field np (fun p => with_pgdir p pd) ltac:(done) ltac:(done) _ _ _ H2) as Q2.
  assert (Q : quiet s s2) by (etransitivity; [by apply still_quiet|done]).
  assert (Hc2 : s2.(ptable) !! cur = Some c) by (rewrite (apart_setp _ _ _ _ _ H2 cur Hne), (proj2 Q1); done).
  destruct (Z.eqb_spec pd 0) as [->|Hpd].
  - apply kM_bind_Ok in H as (n & s3 & H3 & H). apply getp_Ok in H3 as [-> _].
    apply kM_bind_Ok in H as (u4 & s4 & H4 & H). pose proof (still_svc _ (wq_onmem (kfree kend n.(kstack))) _ _ _ H4) as Q4.
    apply kM_bind_Ok in H as (u5 & s5 & H5 & H). apply setp_Ok in H5. injection H as <- <-.
    set (s6 := upd_proc np (fun p => with_kstack p 0) s4).
    assert (Q6 : quiet s4 s6) by (by eapply (quiet_setp_field np (fun p => with_kstack p 0))).
    eapply run_quiet; [exact Q|]. eapply run_quiet; [by apply still_quiet|]. eapply run_quiet; [exact Q6|].
    apply run_last.
    + exists c. split; [|done]. unfold s6. rewrite upd_proc_ne by done. by rewrite (proj2 Q4).
    + apply (fork_fails cur np s6 tt). unfold setp, kmodify. subst s5 s6. unfold upd_proc, set_ptable. cbn.
      by rewrite list_alter_alter_eq.
  - apply kM_bind_Ok in H as (u3 & s3 & H3 & H). apply kM_bind_Ok in H as (u4 & s4 & H4 & H).
    apply kM_bind_Ok in H as (u5 & s5 & H5 & H). apply kM_bind_Ok in H as (u6 & s6 & H6 & H).
    assert (Q6 : quiet s2 s6).
    { transitivity s3; [by eapply quiet_set|]. transitivity s4; [by eapply quiet_set|].
      transitivity s5; by eapply quiet_set. }
    assert (Hc6 : s6.(ptable) !! cur = Some c).
    { rewrite (apart_setp _ _ _ _ _ H6 cur Hne), (apart_setp _ _ _ _ _ H5 cur Hne), (apart_setp _ _ _ _ _ H4 cur Hne),
        (apart_setp _ _ _ _ _ H3 cur Hne). done. }
    apply kM_bind_Ok in H as (u7 & s7 & H7 & H). destruct (run_fork_dup np c _ Hne 0 _ _ _ Hc6 Hrun eq_refl H7) as [R7 Hc7].
    rewrite drop_0, Nat.add_0_l, Hl in R7.
    revert H. match goal with |- ?m s7 = _ -> _ => assert (Hq : pres quiet m) by pres; assert (Ha : pres (apart np) m) by pres end.
    intros H. pose proof (Hq _ _ _ H) as Q8. pose proof (Ha _ _ _ H) as A8. clear Hq Ha.
    assert (o = Some np) as ->. { repeat (kinv H). by injection H as <- _. }
    split; [done|]. split; [|by apply (on_apart np s7); [| |exists c]].
    eapply run_quiet; [etransitivity; [exact Q|exact Q6]|].
    eapply run_act; [by exists c|constructor|]. eapply run_trans; [exact R7|]. by apply run_calm.
Qed.

Lemma fork_sim : sim (fork forkret trapret cur).
Proof.
  intros s r s' I (c & Hc & Hrun) H. unfold fork, allocproc in H. apply kM_bind_Ok in H as (o & s2 & H1 & H).
  apply kM_bind_Ok in H1 as (o1 & s1 & H0 & H1). pose proof H0 as Hslot. unfold allocproc_slot in H0.
  destruct (first_unused s.(ptable)) as [np|] eqn:Hu.
  2: { injection H0 as <- <-. injection H1 as <- <-. injection H as _ <-. apply run_done. }
  destruct (first_unused_lookup _ _ Hu) as (n & Hn & Hs).
  assert (Hne : cur <> np). { intros ->. rewrite Hc in Hn. injection Hn as <-. congruence. }
  assert (Hc1 : s1.(ptable) !! cur = Some c).
  { injection H0 as _ <-. cbn [upd_proc set_ptable ptable]. by rewrite !list_lookup_alter_ne by done. }
  injection H0 as <- _. cbn iota in H1. eapply run_act; [by exists c|by eapply fork_slot|].
  unfold allocproc_stack in H1. apply kM_bind_Ok in H1 as (k & s3 & H3 & H1).
  pose proof (still_svc _ (wq_onmem kalloc) _ _ _ H3) as Q3. apply kM_bind_Ok in H1 as (u4 & s4 & H4 & H1).
  pose proof (quiet_setp_field np (fun p => with_kstack p k) ltac:(done) ltac:(done) _ _ _ H4) as Q4.
  eapply run_quiet; [by apply still_quiet|]. eapply run_quiet; [exact Q4|].
  assert (Hc4 : s4.(ptable) !! cur = Some c) by (rewrite (apart_setp _ _ _ _ _ H4 cur Hne), (proj2 Q3); done).
  destruct (Z.eqb_spec k 0) as [->|Hk].
  - apply kM_bind_Ok in H1 as (u5 & s5 & H5 & H1). injection H1 as <- <-. injection H as _ <-.
    apply run_last; [by exists c|by eapply fork_fails].
  - assert (o = Some np) as ->. { repeat (kinv H1). by injection H1 as <- _. }
    revert H1. match goal with |- ?m s4 = _ -> _ => assert (Hq : pres quiet m) by pres; assert (Ha : pres (apart np) m) by pres end.
    intros H1. pose proof (Hq _ _ _ H1) as Q5. pose proof (Ha _ _ _ H1 cur Hne) as Hc5. rewrite Hc4 in Hc5. clear Hq Ha.
    eapply run_quiet; [exact Q5|]. apply kM_bind_Ok in H as (o & s6 & H6 & H).
    pose proof (run_fork_fill np c _ _ _ Hne Hc5 Hrun (ofile_len _ _ _ _ I Hc) H6) as R6.
    destruct o as [np'|]; [|by injection H as _ <-]. destruct R6 as (-> & R6 & Ho6).
    eapply run_trans; [exact R6|]. apply run_last; [done|by eapply fork_done].
Qed.

(** ** Exit *)

Lemma run_exit_close fds : forall k s u s' p,
  s.(ptable) !! cur = Some p -> p.(state) = RUNNING -> drop k p.(ofile) = fds ->
  exit_close cur fds k s = Ok (u, s') ->
  run cur (Exiting k) s (Exiting (k + length fds)) s' /\ on cur s'.
Proof.
  induction fds as [|f fds IH]; intros k s u s' p Hp Hrun Hd H; cbn [exit_close] in H.
  { injection H as _ <-. cbn [length]. rewrite Nat.add_0_r. split; [apply run_done|by exists p]. }
  assert (Hf : p.(ofile) !! k = Some f) by (rewrite <- (Nat.add_0_r k), <- lookup_drop, Hd; done).
  assert (Hd' : drop (S k) p.(ofile) = fds) by (rewrite <- Nat.add_1_r, <- drop_drop, Hd; done).
  cbn [length]. rewrite Nat.add_succ_r, <- Nat.add_succ_l. apply kM_bind_Ok in H as (u1 & s1 & H1 & H).
  unfold c_true in H1. destruct (Z.eqb_spec f 0) as [->|Hf0]; cbn [negb] in H1.
  - injection H1 as _ <-. destruct (IH (S k) _ _ _ _ Hp Hrun Hd' H) as [R Ho]. split; [|done].
    eapply run_act; [by exists p|by eapply exit_none|exact R].
  - apply kM_bind_Ok in H1 as (u2 & s2 & H2 & H1). destruct (fileclose_split _ _ _ _ H2) as (o & s3 & H3 & Hst & _).
    assert (Hp3 : s3.(ptable) !! cur = Some p) by (by apply svc_run in H3 as (w & _ & ->)).
    assert (Hp2 : s2.(ptable) !! cur = Some p) by (by rewrite (proj2 Hst)).
    pose proof H1 as E1. apply setp_Ok in E1.
    assert (Hp1 : s1.(ptable) !! cur = Some (set_fd k 0 p)) by (subst s1; exact (upd_proc_at s2 cur (set_fd k 0) p Hp2)).
    assert (Hd1 : drop (S k) (set_fd k 0 p).(ofile) = fds) by (cbn; by rewrite drop_insert_lt by lia).
    destruct (IH (S k) _ _ _ _ Hp1 Hrun Hd1 H) as [R Ho].
    split; [|done]. eapply run_act; [by exists p|by eapply exit_drop|].
    eapply run_quiet; [by apply still_quiet|]. eapply run_act; [by exists p|by eapply exit_clear|exact R].
Qed.

Lemma exit_sim : sim (exit cur).
Proof.
  intros s u s' I (p & Hp & Hrun) H. unfold exit in H. kinv H. injection Hr as <- <-. case_bool_decide as Hi; [done|].
  apply kM_bind_Ok in H as (p' & s1 & H1 & H). apply getp_Ok in H1 as [-> Hp']. rewrite Hp in Hp'. injection Hp' as <-.
  apply kM_bind_Ok in H as (u2 & s2 & H2 & H). destruct (run_exit_close _ 0 _ _ _ p Hp Hrun eq_refl H2) as [R Ho].
  rewrite drop_0, Nat.add_0_l, (ofile_len _ _ _ _ I Hp) in R.
  apply kM_bind_Ok in H as (u3 & s3 & H3 & H). pose proof (still_svc _ (wq_svc_iput _) _ _ _ H3) as Q3.
  apply kM_bind_Ok in H as (u4 & s4 & H4 & H).
  pose proof (quiet_setp_field cur (fun p => with_cwd p 0) ltac:(done) ltac:(done) _ _ _ H4) as Q4.
  eapply run_act; [by exists p|by apply exit_start|]. eapply run_trans; [exact R|].
  eapply run_quiet; [by apply still_quiet|]. eapply run_quiet; [exact Q4|].
  apply run_last; [|by eapply exit_done]. eapply on_setp; [exact H4|done|]. by eapply on_still.
Qed.

(** ** The other calls of proc.c *)

Lemma still_sched h n fl : pres still (sched h n fl cur).
Proof. intros s u s' H. by apply sched_Ok in H as ->. Qed.

(** The running process goes to another state of the living. *)
Lemma quiet_state s st (u : unit) s' :
  on cur s -> setp cur (fun p => with_state p st) s = Ok (u, s') ->
  match st with SLEEPING | RUNNABLE | RUNNING => True | _ => False end -> quiet s s'.
Proof.
  intros (p & Hp & Hr) H Hst. apply setp_Ok in H. subst s'. split; [reflexivity|]. apply kept_alter. intros q Hq.
  rewrite Hp in Hq. injection Hq as <-. unfold kept, is_dead. cbn. rewrite Hr. by destruct st.
Qed.

Lemma quiet_sleep ch lk s u s' : on cur s -> Proc.sleep (Some cur) ch lk s = Ok (u, s') -> quiet s s'.
Proof.
  intros Ho H. unfold Proc.sleep in H. case_bool_decide; [done|]. kinv H. pose proof (on_setp _ _ _ _ _ _ Hr ltac:(done) Ho) as Ho1.
  kinv H. apply sched_Ok in H. subst. transitivity s0; [by eapply quiet_set|by eapply quiet_state].
Qed.

Lemma quiet_yield s u s' : on cur s -> yield cur s = Ok (u, s') -> quiet s s'.
Proof. intros Ho H. unfold yield in H. kinv H. apply sched_Ok in H. subst. by eapply quiet_state. Qed.

Lemma quiet_kill n : pres quiet (@kill world n).
Proof.
  unfold kill. apply pres_bind; [apply _|auto with pres|]. intros s. destruct (find_pid _ _) as [i|]; [|pres].
  apply pres_bind; [apply _|auto with pres|]. intros _. apply pres_bind; [apply _| |intros; pres].
  apply quiet_setp. intros p. case_decide as E; [|done]. unfold kept, is_dead. cbn. by rewrite E.
Qed.

Lemma quiet_set_nice n k : pres quiet (@set_nice world n k).
Proof. unfold set_nice. pres. Qed.

Lemma quiet_growproc n : pres quiet (growproc cur n).
Proof. unfold growproc. pres. Qed.

#[local] Hint Resolve quiet_kill quiet_set_nice quiet_growproc : pres.

(** The file table after code of proc.c. *)
Definition qw (s s' : kst world) : Prop := wq s.(Proc.world) s'.(Proc.world).

#[local] Instance qw_preorder : PreOrder qw.
Proof. split; [by intros s|]. intros s1 s2 s3 A B. unfold qw in *. by etransitivity. Qed.

Lemma qw_svc {A} (m : kM world A) : pres wq m -> pres qw (svc m).
Proof. intros Hm s a s' H. apply svc_run in H as (w & H & ->). by eapply Hm. Qed.

Lemma qw_getp i : pres qw (@getp world i).
Proof. intros s a s' H. by apply getp_Ok in H as [-> _]. Qed.

Lemma qw_setp i g : pres qw (@setp world i g).
Proof. by apply pres_modify. Qed.

#[local] Hint Resolve qw_preorder qw_svc qw_getp qw_setp : pres.

Lemma qw_slot : pres qw (@allocproc_slot world).
Proof. intros s o s' H. unfold allocproc_slot in H. destruct (first_unused _); by injection H as _ <-. Qed.

#[local] Hint Resolve qw_slot : pres.
#[local] Hint Extern 1 (pres qw (kmodify _)) => apply pres_modify; intros; reflexivity : pres.

Lemma qw_userinit : pres qw (userinit forkret trapret).
Proof. unfold userinit, allocproc, allocproc_stack. pres. Qed.

(** The first process comes from an unused slot, and holds no files. *)
Lemma quiet_userinit : pres quiet (userinit forkret trapret).
Proof.
  intros s u s' H. split; [by eapply qw_userinit|]. unfold userinit in H. kinv H. apply allocproc_Ok in Hr as [_ Ho].
  krun1 H. destruct a as [i|]; [|done]. destruct Ho as (Hu & _ & k & _ & Ht). destruct (first_unused_lookup _ _ Hu) as (p & Hp & Hs).
  krun1 H. krun1 H. case_bool; [done|]. krun H. rewrite Ht, !list_alter_alter_eq. apply kept_alter. intros q Hq.
  rewrite Hp in Hq. injection Hq as <-. unfold kept, is_dead. cbn. by rewrite Hs.
Qed.

Lemma qw_wait : pres qw (wait cur).
Proof. unfold wait, Proc.sleep, sched. pres. Qed.

Lemma quiet_wait s r s' : on cur s -> wait cur s = Ok (r, s') -> quiet s s'.
Proof.
  intros (c & Hc & Hrun) H. split; [by eapply qw_wait|]. apply (wait_Ok _ _ c) in H as (_ & _ & Hr); [|done].
  destruct r as [n| |].
  - destruct Hr as (i & p & Hp & [_ Hz] & ->). eapply kept_insert; [exact Hp|]. unfold kept, is_dead. cbn. by rewrite Hz.
  - by subst.
  - rewrite Hr. eapply kept_insert; [exact Hc|]. unfold kept, is_dead. cbn. by rewrite Hrun.
Qed.

Lemma wait_sim : sim (wait cur).
Proof. intros s r s' _ Ho H. apply run_calm. by eapply quiet_wait. Qed.

#[local] Hint Extern 1 (pres wq (load_procinfo _ _)) => unfold load_procinfo; pres : pres.
#[local] Hint Extern 1 (pres wq (store_procinfo _ _ _)) => unfold store_procinfo; pres : pres.

Lemma quiet_sleep_turn t0 n s r s' : on cur s -> sleep_turn cur ticks_at tickslock_at t0 n s = Ok (r, s') -> quiet s s'.
Proof.
  intros Ho H. unfold sleep_turn in H. kinv H. injection Hr as <- <-. destruct (_ <? _); [|by injection H as _ <-].
  kinv H. apply getp_Ok in Hr as [-> _]. destruct (c_true _); [by injection H as _ <-|]. kinv H. injection H as _ <-.
  by eapply quiet_sleep.
Qed.

Lemma sys_sleep_sim : sim (sys_sleep cur ticks_at tickslock_at).
Proof.
  unfold sys_sleep. apply sim_args; [apply still_argint|]. intros [n|]; [|apply sim_quiet; pres].
  apply sim_args; [auto with pres|]. intros s0 s r s' _ Ho H. apply run_calm. by eapply quiet_sleep_turn.
Qed.

(** ** The table of system calls *)

Lemma sys_exit_sim : sim (sys_exit kend kdata devread cur me initcode initcode_size).
Proof. intros s a s' I Ho H. unfold sys_exit in H. kinv H. injection H as _ <-. by eapply exit_sim. Qed.

Lemma sys_wait_sim : sim (sys_wait kend kdata devread cur me initcode initcode_size).
Proof. intros s a s' I Ho H. unfold sys_wait in H. kinv H. injection H as _ <-. by eapply wait_sim. Qed.

Lemma syscalls_sim k m :
  nth k (syscalls kend kdata devread devwrite cur me forkret trapret initcode initcode_size ticks_at tickslock_at) None = Some m ->
  sim m.
Proof.
  intros H. assert (Hall : Forall (fun o => forall m, o = Some m -> sim m)
    (syscalls kend kdata devread devwrite cur me forkret trapret initcode initcode_size ticks_at tickslock_at)).
  { unfold syscalls. repeat (apply Forall_cons_2; [intros ? Em; first [discriminate Em|injection Em as <-]; try apply sim_ret|]);
      [.. |apply Forall_nil_2].
    - exact fork_sim.
    - apply sys_exit_sim.
    - apply sys_wait_sim.
    - apply sys_pipe_sim.
    - apply sim_quiet, pres_still, still_sys_read.
    - apply sim_quiet. presn.
    - apply sim_quiet, quiet_sys_exec.
    - apply sim_quiet, pres_still, still_sys_fstat.
    - apply sim_quiet, quiet_sys_chdir.
    - apply sys_dup_sim.
    - apply sim_quiet. pres.
    - apply sim_quiet. presn.
    - apply sys_sleep_sim.
    - apply sim_quiet. pres.
    - apply sys_open_sim.
    - apply sim_quiet, pres_still, still_sys_write.
    - apply sim_quiet, pres_still, still_sys_mknod.
    - apply sim_quiet, pres_still, still_sys_unlink.
    - apply sim_quiet, pres_still, still_sys_link.
    - apply sim_quiet, pres_still, still_sys_mkdir.
    - apply sys_close_sim.
    - apply sim_quiet. presn. apply pres_still, still_svc. pres.
    - apply sim_quiet. presn. }
  destruct (nth_in_or_default k (syscalls kend kdata devread devwrite cur me forkret trapret initcode initcode_size
    ticks_at tickslock_at) None) as [Hin|E]; [|congruence].
  rewrite H in Hin. rewrite List.Forall_forall in Hall. by eapply Hall.
Qed.

(** ** After a call that returns, the process runs *)

Definition stays (s s' : kst world) : Prop := on cur s -> on cur s'.

#[local] Instance stays_preorder : PreOrder stays.
Proof. split; [intros s H; exact H|]. intros s1 s2 s3 A B H. by apply B, A. Qed.

Lemma stays_still {A} (m : kM (kst world) A) : pres still m -> pres stays m.
Proof. intros H s a s' E Ho. eapply on_still; [by eapply H|exact Ho]. Qed.

Lemma stays_svc {A} (m : kM world A) : pres stays (svc m).
Proof. intros s a s' E Ho. by eapply on_svc. Qed.

Lemma stays_setp i (g : proc -> proc) : (forall p, (g p).(state) = p.(state)) -> pres stays (@setp world i g).
Proof. intros Hg s a s' E Ho. by eapply on_setp. Qed.

#[local] Hint Resolve stays_preorder stays_still stays_svc : pres.
#[local] Hint Extern 1 (pres stays (setp _ _)) => apply stays_setp; intros; reflexivity : pres.

Lemma stays_kill n : pres stays (@kill world n).
Proof.
  intros s r s' H (p & Hp & Hr). unfold kill in H. kinv H. injection Hr0 as <- <-.
  destruct (find_pid _ _) as [i|]; [|injection H as _ <-; by exists p]. kinv H. pose proof (on_setp cur _ _ _ _ _ Hr0 ltac:(done) ltac:(by exists p)) as (q & Hq & Hs).
  kinv H. injection H as _ <-. apply setp_Ok in Hr1. subst s1. destruct (decide (cur = i)) as [<-|Hne].
  - eexists. split; [by apply upd_proc_at|]. rewrite decide_False by congruence. done.
  - exists q. by rewrite upd_proc_ne.
Qed.

Lemma stays_fork : pres stays (fork forkret trapret cur).
Proof.
  intros s r s' H (c & Hc & Hrun). unfold fork, allocproc in H. apply kM_bind_Ok in H as (o & s2 & H1 & H).
  apply kM_bind_Ok in H1 as (o1 & s1 & H0 & H1). unfold allocproc_slot in H0.
  destruct (first_unused s.(ptable)) as [np|] eqn:Hu.
  2: { injection H0 as <- <-. injection H1 as <- <-. injection H as _ <-. by exists c. }
  destruct (first_unused_lookup _ _ Hu) as (n & Hn & Hs).
  assert (Hne : cur <> np). { intros ->. rewrite Hc in Hn. injection Hn as <-. congruence. }
  assert (Hc1 : s1.(ptable) !! cur = Some c).
  { injection H0 as _ <-. cbn [upd_proc set_ptable ptable]. by rewrite !list_lookup_alter_ne by done. }
  injection H0 as <- _. assert (Ha : pres (apart np) (allocproc_stack forkret trapret np)) by (unfold allocproc_stack; pres).
  apply Ha in H1 as A1. assert (E : o = Some np \/ o = None).
  { unfold allocproc_stack in H1. kinv H1. kinv H1. destruct (a =? 0); repeat (kinv H1); injection H1 as <- _; auto. }
  exists c. split; [|done]. rewrite <- Hc1, <- (A1 cur Hne). destruct E as [->| ->]; [|by injection H as _ <-].
  assert (Hf : forall fds k, pres (apart np) (fork_dup np fds k)) by (induction fds as [|f fds IH]; intros k; cbn [fork_dup]; pres).
  assert (Ha2 : pres (apart np) (fork_fill cur np)) by (unfold fork_fill; pres).
  apply kM_bind_Ok in H as (o & s3 & H2 & H). assert (E : o = Some np \/ o = None).
  { unfold fork_fill in H2. kinv H2. kinv H2. kinv H2. destruct (a0 =? 0); repeat (kinv H2); injection H2 as <- _; auto. }
  rewrite <- (Ha2 _ _ _ H2 cur Hne). destruct E as [->| ->]; [|by injection H as _ <-].
  assert (Ha3 : pres (apart np) (fork_publish np)) by (unfold fork_publish; pres). by apply (Ha3 _ _ _ H cur Hne).
Qed.

Lemma wait_stays s r s' : on cur s -> wait cur s = Ok (r, s') -> r <> WaitSleep -> on cur s'.
Proof.
  intros (c & Hc & Hrun) H Hr. apply (wait_Ok _ _ c) in H as (_ & _ & Hw); [|done]. destruct r as [n| |]; [|subst; by exists c|done].
  destruct Hw as (i & p & Hp & [_ Hz] & Ht). exists c. split; [|done]. rewrite Ht, list_lookup_insert_ne; [done|].
  intros ->. rewrite Hc in Hp. injection Hp as <-. congruence.
Qed.

(** A call that returns a value. *)
Definition returns_on (m : kM (kst world) sysout) : Prop :=
  forall s v s', on cur s -> m s = Ok (SRet v, s') -> on cur s'.

Lemma returns_on_ret m : pres stays m -> returns_on (ret m).
Proof. intros H s v s' Ho E. unfold ret in E. kinv E. injection E as _ <-. by eapply H. Qed.

Lemma stays_fdalloc f : pres stays (fdalloc cur f).
Proof. intros s fd s' H Ho. by eapply on_fdalloc. Qed.

#[local] Hint Resolve stays_kill stays_fork stays_fdalloc : pres.

Lemma syscalls_on k m :
  nth k (syscalls kend kdata devread devwrite cur me forkret trapret initcode initcode_size ticks_at tickslock_at) None = Some m ->
  returns_on m.
Proof.
  intros H. assert (Hall : Forall (fun o => forall m, o = Some m -> returns_on m)
    (syscalls kend kdata devread devwrite cur me forkret trapret initcode initcode_size ticks_at tickslock_at)).
  { unfold syscalls. repeat (apply Forall_cons_2; [intros ? Em; first [discriminate Em|injection Em as <-]; try apply returns_on_ret|]);
      [.. |apply Forall_nil_2].
    - apply stays_fork.
    - intros s v s' _ E. unfold sys_exit in E. kinv E. done.
    - intros s v s' Ho E. unfold sys_wait in E. kinv E. eapply wait_stays; [exact Ho| |].
      + destruct a; injection E as _ <-; exact Hr.
      + by destruct a.
    - unfold sys_pipe. presn.
    - apply stays_still, still_sys_read.
    - presn.
    - unfold sys_exec, exec, exec_bad, exec_commit. presn.
    - apply stays_still, still_sys_fstat.
    - unfold sys_chdir. presn.
    - unfold sys_dup. presn.
    - pres.
    - unfold growproc. presn.
    - intros s v s' Ho E. unfold sys_sleep in E. kinv E. pose proof (on_still _ _ _ (still_argint cur 0 _ _ _ Hr) Ho) as Ho1.
      destruct a as [n|]; [|by injection E as _ <-]. unfold sleep_turn in E. kinv E. injection Hr0 as <- <-. kinv E.
      injection Hr0 as <- <-. destruct (_ <? _); [|by injection E as _ <-]. kinv E. apply getp_Ok in Hr0 as [-> _].
      destruct (c_true _); [by injection E as _ <-|]. kinv E. done.
    - pres.
    - unfold sys_open. presn.
    - apply stays_still, still_sys_write.
    - apply stays_still, still_sys_mknod.
    - apply stays_still, still_sys_unlink.
    - apply stays_still, still_sys_link.
    - apply stays_still, still_sys_mkdir.
    - unfold sys_close. presn.
    - presn.
    - unfold set_nice. presn. }
  destruct (nth_in_or_default k (syscalls kend kdata devread devwrite cur me forkret trapret initcode initcode_size
    ticks_at tickslock_at) None) as [Hin|E]; [|congruence].
  rewrite H in Hin. rewrite List.Forall_forall in Hall. by eapply Hall.
Qed.

(** Counts are exact again after a call. *)
Lemma run_settled s s' : settled s -> on cur s -> run cur Idle s Idle s' -> settled s'.
Proof.
  intros I (p & Hp & _) R. apply settled_finv in I. apply settled_finv.
  assert (Hi : (cur < NPROC)%nat) by (rewrite <- (ri_len _ _ (fi_rinv _ _ I)); by eapply lookup_lt_Some).
  pose proof (run_fsteps _ _ _ _ _ (replicate NPROC Idle) R (lookup_replicate_2 _ _ _ Hi)) as F.
  rewrite list_insert_id in F by (by apply lookup_replicate_2). exact (fsteps_finv (s, _) (s', _) I F).
Qed.

Lemma syscall_sim :
  sim (syscall kend kdata devread devwrite cur me forkret trapret initcode initcode_size ticks_at tickslock_at) /\
  returns_on (syscall kend kdata devread devwrite cur me forkret trapret initcode initcode_size ticks_at tickslock_at).
Proof.
  unfold syscall. split.
  - apply sim_args; [auto with pres|]. intros p. destruct (if _ && _ then nth _ _ None else None) as [m|] eqn:E.
    + assert (Hm : sim m). { destruct (_ && _) in E; [|done]. by eapply syscalls_sim. }
      intros s a s' I Ho H. apply kM_bind_Ok in H as (r & s1 & H1 & H). specialize (Hm _ _ _ I Ho H1).
      destruct r; [|by injection H as _ <-..]. unfold set_eax in H. kinv H. injection H as _ <-.
      eapply run_trans; [exact Hm|]. apply run_calm. by eapply quiet_set.
    + apply sim_quiet. unfold set_eax. pres.
  - intros s v s' Ho H. kinv H. apply getp_Ok in Hr as [-> _].
    destruct (if _ && _ then nth _ _ None else None) as [m|] eqn:E.
    + kinv H. destruct a0 as [v'| |]; [|by injection H as ? _..]. assert (Hm : returns_on m).
      { destruct (_ && _) in E; [|done]. by eapply syscalls_on. }
      pose proof (Hm _ _ _ Ho Hr) as Ho1. kinv H. injection H as _ <-. eapply on_setp; [exact Hr0|done|exact Ho1].
    + kinv H. injection H as _ <-. eapply on_setp; [exact Hr|done|exact Ho].
Qed.

(** ** Traps *)

Lemma trap_syscall_sim t :
  sim (trap_syscall kend kdata devread devwrite cur me forkret trapret initcode initcode_size ticks_at tickslock_at t).
Proof.
  unfold trap_syscall. apply sim_args; [auto with pres|]. intros p. destruct (c_true _); [apply sys_exit_sim|].
  intros s a s' I Ho H. apply kM_bind_Ok in H as (u & s1 & H1 & H).
  pose proof (on_setp _ _ _ _ _ _ H1 ltac:(done) Ho) as Ho1. assert (Q1 : quiet s s1) by (by eapply quiet_set).
  pose proof (rinv_quiet _ _ _ I Q1) as I1. eapply run_quiet; [exact Q1|].
  apply kM_bind_Ok in H as (r & s2 & H2 & H). pose proof (proj1 syscall_sim _ _ _ I1 Ho1 H2) as R2.
  eapply run_trans; [exact R2|]. destruct r as [v| |]; [|injection H as _ <-; apply run_done..].
  pose proof (proj2 syscall_sim _ _ _ Ho1 H2) as Ho2.
  apply kM_bind_Ok in H as (p' & s3 & H3 & H). apply getp_Ok in H3 as [-> _].
  destruct (c_true _); [|injection H as _ <-; apply run_done].
  eapply sys_exit_sim; [by eapply run_settled|exact Ho2|exact H].
Qed.

Lemma trap_tail_sim t : sim (trap_tail kend kdata devread cur me initcode initcode_size t).
Proof.
  unfold trap_tail. apply sim_args; [auto with pres|]. intros p. destruct (_ && _).
  - intros s r s' I Ho H. kinv H. injection H as _ <-. by eapply exit_sim.
  - destruct (_ && _); [|apply sim_quiet; pres]. intros s r s' I Ho H. kinv H. injection H as _ <-. apply run_calm. by eapply quiet_yield.
Qed.

Lemma trap_resumed_sim t : sim (trap_resumed kend kdata devread cur me initcode initcode_size t).
Proof.
  unfold trap_resumed. apply sim_args; [auto with pres|]. intros p. destruct (_ && _); [|apply sim_quiet; pres].
  intros s r s' I Ho H. kinv H. injection H as _ <-. by eapply exit_sim.
Qed.

End Sys.
