(* ===== verification/Kernel.v ===== *)
(** * The kernel as a whole

    The traps and scheduling decisions the kernel goes through, as steps on
    one state: the process table with the file system, the open files, the
    pipes and memory below it.  A step runs one system call from start to end;
    [ksteps_fine] relates it to the finer steps of [RefsFine], between which
    other processes run. *)

From S2P Require Import Prelude CString Mmu Kalloc Vm VmSpec Proc ProcSpec Locks Bio Layout Log Fs Pipe World File Syscall Sysfile Trap Refs RefsFine RefsSys.

Section Kernel.

Variable kend kdata : Z.
Variable devread : Z -> option (nat -> Z -> kM fsst (Z * list Z)).
Variable devwrite : Z -> option (nat -> list Z -> Z -> kM fsst Z).
Variable forkret trapret initcode initcode_size ticks_at tickslock_at : Z.

Abbreviation ksvc me := (kernel_svc kend kdata me devread initcode initcode_size).

(** What a running process does is done under its pid. *)
Inductive kstep : kst world -> kst world -> Prop :=
| k_userinit s s' :
    @userinit _ (ksvc 0) forkret trapret s = Ok (tt, s') -> kstep s s'
| k_syscall s cur p t r s' :
    s.(ptable) !! cur = Some p -> p.(state) = RUNNING ->
    trap_syscall kend kdata devread devwrite cur p.(pid) forkret trapret initcode initcode_size
      ticks_at tickslock_at t s = Ok (r, s') ->
    kstep s s'
| k_timer s running cpu0 s' :
    trap_timer ticks_at running cpu0 s = Ok (tt, s') -> kstep s s'
| k_fault s running t s' :
    trap_fault running t s = Ok (tt, s') -> kstep s s'
| k_tail s cur p t r s' :
    s.(ptable) !! cur = Some p -> p.(state) = RUNNING ->
    trap_tail kend kdata devread cur p.(pid) initcode initcode_size t s = Ok (r, s') -> kstep s s'
| k_resumed s cur p t r s' :
    s.(ptable) !! cur = Some p -> p.(state) = RUNNING ->
    trap_resumed kend kdata devread cur p.(pid) initcode initcode_size t s = Ok (r, s') -> kstep s s'
| k_dispatch s c c' s' :
    scheduler c s = Ok (c', s') -> kstep s s'
| k_forkret s cur p first r s' :
    s.(ptable) !! cur = Some p -> p.(state) = RUNNING ->
    forkret_run p.(pid) first s = Ok (r, s') -> kstep s s'
| k_wait_again s cur p r s' :
    s.(ptable) !! cur = Some p -> p.(state) = RUNNING ->
    (_ ← sleep_resume cur; sys_wait kend kdata devread cur p.(pid) initcode initcode_size) s = Ok (r, s') ->
    kstep s s'
| k_sleep_again s cur p ticks0 n r s' :
    s.(ptable) !! cur = Some p -> p.(state) = RUNNING ->
    (_ ← sleep_resume cur; sleep_turn cur ticks_at tickslock_at ticks0 n) s = Ok (r, s') ->
    kstep s s'.

Lemma trap_timer_quiet running cpu0 : pres quiet (trap_timer ticks_at running cpu0).
Proof.
  unfold trap_timer, wakeup. apply pres_bind; [apply _|pres|]. intros _. destruct cpu0; [|pres].
  apply pres_bind; [apply _|auto with pres|]. intros _. apply pres_modify. intros s. split; [reflexivity|apply kept_wakeup1].
Qed.

Lemma scheduler_quiet c : pres quiet (@scheduler world c).
Proof.
  intros s c' s' H. unfold scheduler in H. kinv H. injection Hr as <- <-.
  destruct (scheduler_pick _) as [i|] eqn:Hi; [|by injection H as _ <-]. destruct (pick_runnable _ _ Hi) as (p & Hp & Hs).
  kinv H. apply getp_Ok in Hr as [-> _]. destruct (switchuvm _ _); [|done]. kinv H. injection H as _ <-. apply setp_Ok in Hr.
  subst. split; [reflexivity|]. apply kept_alter. intros q Hq. rewrite Hp in Hq. injection Hq as <-.
  unfold kept, is_dead. cbn. by rewrite Hs.
Qed.

Lemma idle_at cur s p : settled s -> s.(ptable) !! cur = Some p -> replicate NPROC Idle !! cur = Some Idle.
Proof. intros I Hp. apply lookup_replicate_2. rewrite <- (ri_len _ _ I). by eapply lookup_lt_Some. Qed.

(** A call that runs from idle to idle. *)
Lemma sim_fine {A} (m : kM (kst world) A) cur p s a s' :
  settled s -> s.(ptable) !! cur = Some p -> p.(state) = RUNNING -> sim cur m -> m s = Ok (a, s') ->
  rtc fstep (s, replicate NPROC Idle) (s', replicate NPROC Idle).
Proof.
  intros I Hp Hs Hm H. pose proof (idle_at _ _ _ I Hp) as Hi.
  pose proof (run_fsteps _ _ _ _ _ _ (Hm _ _ _ I ltac:(by exists p) H) Hi) as F.
  by rewrite list_insert_id in F.
Qed.

Lemma quiet_fine s s' : quiet s s' -> rtc fstep (s, replicate NPROC Idle) (s', replicate NPROC Idle).
Proof. intros H. apply rtc_once. by apply f_quiet. Qed.

Lemma kstep_fine s s' : settled s -> kstep s s' -> rtc fstep (s, replicate NPROC Idle) (s', replicate NPROC Idle).
Proof.
  intros I H. destruct H as [s s' H|s cur p t r s' Hp Hs H|s rn c0 s' H|s rn t s' H|s cur p t r s' Hp Hs H
    |s cur p t r s' Hp Hs H|s c c' s' H|s cur p b r s' Hp Hs H|s cur p r s' Hp Hs H|s cur p t0 n r s' Hp Hs H].
  - apply quiet_fine. eapply quiet_userinit. exact H.
  - eapply sim_fine; [done|exact Hp|done| |exact H]. apply trap_syscall_sim.
  - apply quiet_fine. eapply trap_timer_quiet. exact H.
  - apply quiet_fine. unfold trap_fault in H. destruct rn as [i|]; [|done]. destruct (_ =? 0); [done|].
    by eapply (quiet_setp_field i (fun p => with_killed p 1)).
  - eapply sim_fine; [done|exact Hp|done| |exact H]. apply trap_tail_sim.
  - eapply sim_fine; [done|exact Hp|done| |exact H]. apply trap_resumed_sim.
  - apply quiet_fine. eapply scheduler_quiet. exact H.
  - apply quiet_fine, still_quiet. assert (Hq : pres still (forkret_run p.(pid) b)) by (unfold forkret_run; pres). by eapply Hq.
  - kinv H. pose proof (on_setp cur _ _ _ _ _ Hr ltac:(done) ltac:(by exists p)) as (q & Hq & Hqs).
    assert (Q : quiet s s0) by (by eapply quiet_set). eapply rtc_l; [by apply f_quiet|].
    eapply sim_fine; [by eapply rinv_quiet|exact Hq|done| |exact H]. apply sys_wait_sim.
  - kinv H. pose proof (on_setp cur _ _ _ _ _ Hr ltac:(done) ltac:(by exists p)) as Ho.
    apply quiet_fine. etransitivity; [by eapply quiet_set|by eapply quiet_sleep_turn].
Qed.

(** Runs of whole calls are runs of fine steps, with no call under way at
    their ends. *)
Theorem ksteps_fine s s' :
  settled s -> rtc kstep s s' -> rtc fstep (s, replicate NPROC Idle) (s', replicate NPROC Idle).
Proof.
  intros I H. induction H as [|s s1 s' H _ IH]; [done|]. pose proof (kstep_fine _ _ I H) as F.
  etransitivity; [exact F|]. apply IH. apply settled_finv in I. apply settled_finv. exact (fsteps_finv (s, _) (s1, _) I F).
Qed.

(** The tables of a kernel that starts. *)
Lemma settled_boot w : w.(w_files) = replicate NFILE file0 -> settled (pinit w).
Proof.
  intros Hw. assert (Hn : forall n x, fdcount (replicate n proc0) x = Z.of_nat n * cntl (replicate NOFILE 0) x).
  { induction n as [|n IH]; intros x; [done|]. cbn [replicate fdcount]. rewrite IH. cbn [proc0 ofile]. lia. }
  split; cbn [pinit ptable Proc.world].
  - apply length_replicate.
  - by apply Forall_replicate.
  - intros i p H _. apply lookup_replicate in H as [-> _]. by apply Forall_replicate.
  - by rewrite Hw.
  - intros i x H. rewrite Hw in H. apply lookup_replicate in H as [-> _]. cbn [f_ref file0].
    rewrite Hn. assert (E : cntl (replicate NOFILE 0) (ptr i) = 0).
    { unfold cntl. rewrite (proj1 (count_occ_not_In Z.eq_dec _ _)); [done|]. intros Hin.
      apply repeat_spec in Hin || apply list_elem_of_In, elem_of_replicate in Hin as [Hin _]. unfold ptr in Hin. lia. }
    rewrite E. lia.
  - intros i p f H Hf. apply lookup_replicate in H as [-> _]. apply elem_of_replicate in Hf as [-> _]. by left.
Qed.

End Kernel.

(** The invariant, decided. *)
Definition settled_b (s : kst world) : bool :=
  (length s.(ptable) =? NPROC)%nat && (length s.(Proc.world).(w_files) =? NFILE)%nat &&
  forallb (fun p => (length p.(ofile) =? NOFILE)%nat &&
                    (negb (is_dead p) || forallb (fun f => f =? 0) p.(ofile)) &&
                    forallb (fun f => (0 <=? f) && (f <=? Z.of_nat NFILE)) p.(ofile)) s.(ptable) &&
  forallb (fun i => match s.(Proc.world).(w_files) !! i with
                    | Some x => x.(f_ref) =? fdcount s.(ptable) (ptr i)
                    | None => true
                    end) (seq 0 NFILE).

Lemma settled_b_ok s : settled_b s = true -> settled s.
Proof.
  unfold settled_b. rewrite !andb_true_iff, !Nat.eqb_eq, !forallb_forall. intros [[[H1 H2] H3] H4].
  assert (Hp : forall i p, s.(ptable) !! i = Some p -> length p.(ofile) = NOFILE /\
    (is_dead p = true -> no_fds p) /\ (forall f, f ∈ p.(ofile) -> 0 <= f <= 100)).
  { intros i p Hp. specialize (H3 p (proj1 (list_elem_of_In _ _) (list_elem_of_lookup_2 _ _ _ Hp))).
    rewrite !andb_true_iff, Nat.eqb_eq, orb_true_iff, negb_true_iff, !forallb_forall in H3.
    destruct H3 as [[A B] C]. split; [done|]. split.
    - intros Hd. destruct B as [B|B]; [congruence|]. apply Forall_forall. intros f Hf.
      apply Z.eqb_eq, B. by apply list_elem_of_In.
    - intros f Hf. specialize (C f (proj1 (list_elem_of_In _ _) Hf)). unfold NFILE in C.
      apply andb_true_iff in C as [C1 C2]. apply Z.leb_le in C1, C2. lia. }
  split; try done.
  - apply Forall_lookup. intros i p Hi. by apply (Hp i).
  - intros i p Hi. by apply (Hp i).
  - intros i x Hx. assert (Hin : In i (seq 0 NFILE)).
    { apply in_seq. rewrite <- H2. pose proof (lookup_lt_Some _ _ _ Hx). lia. }
    specialize (H4 i Hin). rewrite Hx in H4. apply Z.eqb_eq in H4. lia.
  - intros i p f Hi Hf. destruct (Hp i p Hi) as (_ & _ & Hr). specialize (Hr f Hf).
    destruct (decide (f = 0)); [by left|]. right. exists (Z.to_nat (f - 1)). unfold NFILE, ptr. lia.
Qed.

(** ** A run *)

Module KernelDemo.

(** One process, with one page of memory and descriptor 0 open. *)
Definition pd1 : Z := 2149580800.       (* 0x80200000 *)
Definition tab1 : Z := pd1 + 4096.
Definition page1 : Z := pd1 + 8192.
Definition mem1 : mem := store32 (store32 (fun _ => 0) pd1 (Z.lor (V2P tab1) 7)) tab1 (Z.lor (V2P page1) 7).

Definition fs1 : fsst := mk_fsst (mk_lgst log0 (mk_bio [] (fun _ => []) 0 []) 0) [] (mk_superblock 0 0 0 0 0 0 0 0 0 0 0).
Definition file1 : file := mk_file FD_INODE 1 1 0 0 0 0.
Definition world1 : world := mk_world (mk_kmem mem1 true 0) fs1 (<[0%nat := file1]> (replicate NFILE file0)) ∅ 0.

(** The trap frame of [dup(0)]: number 10, and a stack with argument 0. *)
Definition tf1 : trapframe := mk_trapframe 0 0 0 0 0 0 0 10 0 0 0 0 64 0 0 35 512 256 35.
Definition proc1 : proc :=
  mk_proc 4096 pd1 pd1 RUNNING 1 None 0 tf1 0 (mk_kcontext 0 0 0 0 0) 0 KNull 0 0
    (<[0%nat := ptr 0]> (replicate NOFILE 0)) 0 (replicate 16 0) 0 0.
Definition k1 : kst world := mk_kst (<[0%nat := proc1]> (replicate NPROC proc0)) (Some 0%nat) 2 world1.

(** No devices. *)
Definition noread : Z -> option (nat -> Z -> kM fsst (Z * list Z)) := fun _ => None.
Definition nowrite : Z -> option (nat -> list Z -> Z -> kM fsst Z) := fun _ => None.

Definition dup1 : outcome (sysout * kst world) :=
  trap_syscall 0 0 noread nowrite 0 proc1.(pid) 0 0 0 0 0 0 tf1 k1.
Definition k2 : kst world := match dup1 with Ok (_, s) => s | Panic _ => k1 end.

Lemma dup1_run : trap_syscall 0 0 noread nowrite 0 proc1.(pid) 0 0 0 0 0 0 tf1 k1 = Ok (SRet 1, k2).
Proof. change (dup1 = Ok (SRet 1, k2)). reflexivity. Qed.

Lemma proc1_mapped : mapped_below world1 proc1.
Proof.
  intros va Hva. cbn [proc1 sz pgdir] in *.
  assert (E1 : PDX va = 0) by (rewrite PDX_val by (unfold is_u32; lia); Z.to_euclidean_division_equations; lia).
  assert (E2 : PTX va = 0) by (rewrite PTX_val by (unfold is_u32; lia); Z.to_euclidean_division_equations; lia).
  unfold lookup_pte. rewrite E1, E2. vm_compute. reflexivity.
Qed.

(** The claim for a pointer argument to eight bytes. *)
Lemma args_in_bounds_witness :
  argint 0 0 k1 = Ok (Some 0, k1) /\
  exists o, argptr 0 0 8 k1 = Ok (o, k1) /\ forall a, o = Some a -> a + 8 <= 4096.
Proof.
  destruct (args_in_bounds 0 k1 proc1 0 8) as (H1 & (o & H2 & _ & H3) & _);
    [reflexivity|cbn; unfold KERNBASE; lia|exact proc1_mapped|unfold is_s32; lia|].
  assert (E : (if arg_at proc1 0 + 4 <=? proc1.(sz) then Some (s32 (uword k1 proc1 (arg_at proc1 0))) else None) = Some 0)
    by (vm_compute; reflexivity).
  rewrite E in H1. split; [exact H1|]. exists o. split; [exact H2|]. intros a Ha.
  destruct (H3 a Ha) as (_ & _ & _ & H4). exact H4.
Defined.

(** ** A family

    init in slot 0, and its child in slot 1, with a page for its stack and an
    empty page directory.  They share an open file and the directory they work
    in. *)
Definition stack2 : Z := pd1 + 12288.
Definition pd2 : Z := pd1 + 16384.
Definition page3 : Z := pd1 + 20480.

Definition dir1 : inode := mk_inode 1 1 2 (mk_sleeplock false 0) true (mk_dinode 1 0 0 1 0 []).
Definition fs2 : fsst := mk_fsst (mk_lgst log0 (mk_bio [] (fun _ => []) 0 []) 0) [dir1] (mk_superblock 0 0 0 0 0 0 0 0 0 0 0).
Definition shared : file := mk_file FD_INODE 2 1 0 0 0 0.
Definition world2 (freelist : Z) : world :=
  mk_world (mk_kmem mem1 true freelist) fs2 (<[0%nat := shared]> (replicate NFILE file0)) ∅ 0.

Definition init2 : proc := with_cwd proc1 (ptr 0).
Definition kid2 (st : procstate) : proc :=
  with_parent (with_pid (with_state (with_kstack (with_pgdir init2 pd2) stack2) st) 2) (Some 0%nat).
Definition family (st : procstate) (freelist : Z) : kst world :=
  mk_kst (init2 :: kid2 st :: replicate 62 proc0) (Some 0%nat) 3 (world2 freelist).

(** The child exits while init opens a file.  [fileclose] frees the only open
    file and sleeps, with the descriptor still in place; [filealloc] gives init
    the same slot. *)
Definition init3 : proc := with_ofile init2 (replicate NOFILE 0).
Definition k3 : kst world := mk_kst (init3 :: kid2 RUNNING :: replicate 62 proc0) (Some 0%nat) 3 world1.
Definition k4 : kst world := match svc (fileclose_drop (ptr 0)) k3 with Ok (_, s) => s | Panic _ => k3 end.
Definition k5 : kst world := upd_proc 1 (fun p => with_state p SLEEPING) k4.
Definition k6 : kst world := match svc filealloc k5 with Ok (_, s) => s | Panic _ => k5 end.
Definition ph3 : list phase := <[1%nat := Exiting 0]> (replicate NPROC Idle).
Definition ph4 : list phase := <[1%nat := ExitDropped 0 (ptr 0)]> ph3.
Definition ph6 : list phase := <[0%nat := OpenFile (ptr 0)]> ph4.

Lemma k3_settled : settled k3.
Proof. apply settled_b_ok. vm_compute. reflexivity. Qed.

Lemma k3_steps : rtc fstep (k3, replicate NPROC Idle) (k6, ph6).
Proof.
  eapply rtc_l; [exact (f_act k3 (replicate NPROC Idle) 1 (kid2 RUNNING) Idle (Exiting 0) k3 eq_refl eq_refl eq_refl (exit_start 1 k3 ltac:(discriminate)))|].
  eapply rtc_l; [exact (f_act k3 ph3 1 (kid2 RUNNING) (Exiting 0) (ExitDropped 0 (ptr 0)) k4 eq_refl eq_refl eq_refl
    (exit_drop 1 0 k3 (kid2 RUNNING) (ptr 0) (Some file1) k4 eq_refl eq_refl ltac:(discriminate) eq_refl))|].
  eapply rtc_l; [apply (f_quiet k4 ph4 k5); split; [reflexivity|]; apply kept_alter; intros p Hp; injection Hp as <-; by unfold kept|].
  apply rtc_once. exact (f_act k5 ph4 0 init3 Idle (OpenFile (ptr 0)) k6 eq_refl eq_refl eq_refl
    (open_file 0 k5 (ptr 0) k6 eq_refl ltac:(discriminate))).
Qed.

(** The count is 1 for one descriptor, which is void, and one reference in
    the hands of init. *)
Lemma file_refs_exact_witness :
  settled k3 /\ rtc fstep (k3, replicate NPROC Idle) (k6, ph6) /\
  (forall i x, k6.(Proc.world).(w_files) !! i = Some x -> x.(f_ref) = fdcount k6.(ptable) (ptr i) + hands ph6 (ptr i)) /\
  (f_ref <$> k6.(Proc.world).(w_files) !! 0%nat = Some 1) /\ fdcount k6.(ptable) (ptr 0) = 1 /\
  exists r, svc (fileclose_drop (ptr 0)) k6 = Ok r.
Proof.
  destruct (file_refs_exact k3 k6 ph6 k3_settled k3_steps) as (H1 & _ & H3).
  split; [exact k3_settled|]. split; [exact k3_steps|]. split; [exact H1|]. split; [vm_compute; reflexivity|].
  split; [vm_compute; reflexivity|]. exact (proj2 (H3 0%nat init3 (OpenFile (ptr 0)) (ptr 0) eq_refl eq_refl eq_refl)).
Defined.

#[local] Instance svc1 : ProcSvc world := kernel_svc 0 0 1 noread 0 0.

(** With one page of memory left the child gets a stack and no memory, and
    init is told -1; in the world of [Demo], where there is always memory, the
    child has pid 3. *)
Lemma fork_spec_witness :
  (exists s', fork 0 0 0 (family RUNNING page3) = Ok (-1, s')) /\
  (exists s' n, @fork Z Demo.demo_svc 1 2 0 (Demo.demo RUNNING) = Ok (3, s') /\ s'.(ptable) !! 2%nat = Some n /\ n.(kstack) = KERNBASE).
Proof.
  split.
  - pose proof (fork_spec 0 0 (family RUNNING page3) 0 init2 eq_refl ltac:(discriminate)) as H.
    change (first_unused (family RUNNING page3).(ptable)) with (Some 2%nat) in H. cbv iota in H.
    assert (E : match fork_world init2 (family RUNNING page3).(Proc.world) with Ok ((k, pd), _) => (k =? 0) || (pd =? 0) = true | Panic _ => False end)
      by (vm_compute; reflexivity).
    destruct (fork_world init2 (family RUNNING page3).(Proc.world)) as [[[k pd] w]|]; [|destruct E].
    rewrite E in H. destruct H as (s' & n & H & _). exists s'. exact H.
  - destruct (@fork_spec Z Demo.demo_svc 1 2 (Demo.demo RUNNING) 0 Demo.init0 eq_refl ltac:(discriminate)) as (s' & n & H1 & _ & _ & _ & H2 & _ & _ & H3 & _).
    exists s', n. split; [exact H1|]. split; [exact H2|exact H3].
Defined.

(** The child exits: the file and the directory have one reference less. *)
Lemma exit_spec_witness :
  exists s', exit 1 (family RUNNING 0) = Ok (tt, s') /\
    (f_ref <$> s'.(Proc.world).(w_files) !! 0%nat = Some 1) /\ (i_ref <$> s'.(Proc.world).(w_fs).(icache) !! 0%nat = Some 1) /\
    forall i p', s'.(ptable) !! i = Some p' -> p'.(parent) <> Some 1%nat.
Proof.
  pose proof (exit_spec (family RUNNING 0) 1 (kid2 RUNNING) 0 eq_refl eq_refl eq_refl) as H.
  rewrite decide_False in H by discriminate.
  assert (E : match exit_world (kid2 RUNNING) (family RUNNING 0).(Proc.world) with
    | Ok (_, w) => (f_ref <$> w.(w_files) !! 0%nat = Some 1) /\ (i_ref <$> w.(w_fs).(icache) !! 0%nat = Some 1)
    | Panic _ => False end) by (vm_compute; split; reflexivity).
  destruct (exit_world (kid2 RUNNING) (family RUNNING 0).(Proc.world)) as [[u w]|]; [|destruct E].
  destruct H as (s' & H & Hw & _ & _ & _ & _ & Hp). exists s'. rewrite Hw. split; [exact H|]. split; [apply E|]. split; [apply E|exact Hp].
Defined.

(** init reaps it: its stack and its page directory are free again. *)
Lemma wait_spec_witness :
  exists s', wait 0 (family ZOMBIE 0) = Ok (WaitPid 2, s') /\ s'.(Proc.world).(w_mem).(freelist) = pd2.
Proof.
  destruct (wait_spec (family ZOMBIE 0) 0 init2 eq_refl) as [(i & p & Hp & Hz & _ & H)|[(Hn & _)|(Hn & _)]].
  2: { destruct (Hn 1%nat (kid2 ZOMBIE) eq_refl). split; reflexivity. }
  2: { destruct (Hn 1%nat (kid2 ZOMBIE) eq_refl). split; reflexivity. }
  assert (Ep : p = kid2 ZOMBIE).
  { destruct i as [|[|i]]; [injection Hp as <-; destruct Hz; discriminate|by injection Hp as <-|].
    change (replicate 62 proc0 !! i = Some p) in Hp. apply lookup_replicate in Hp as [-> _]. destruct Hz; discriminate. }
  subst p. assert (E : match wait_world (kid2 ZOMBIE) (family ZOMBIE 0).(Proc.world) with
    | Ok (_, w) => w.(w_mem).(freelist) = pd2 | Panic _ => False end) by (vm_compute; reflexivity).
  destruct (wait_world (kid2 ZOMBIE) (family ZOMBIE 0).(Proc.world)) as [[u w]|]; [|destruct E].
  destruct H as (s' & H & Hw & _). exists s'. rewrite Hw. split; [exact H|exact E].
Defined.

End KernelDemo.
