(* ===== verification/Grep.v ===== *)
(** * The regular expressions of grep, and its loop over lines (grep.c)

    Strings are lists of bytes without their NUL.  The matcher is compared
    with a specification of the four operators; the loop that reads a file
    through a buffer of 1024 bytes is compared with filtering its lines. *)

From S2P Require Import Prelude.

Definition caret : Z := 94.
Definition star : Z := 42.
Definition dollar : Z := 36.
Definition dot : Z := 46.
Definition newline : Z := 10.

(** [matchstar(c, re, text)]; [here] is [matchhere(re, .)]. *)
Fixpoint matchstar (here : list Z -> bool) (c : Z) (text : list Z) : bool :=
  if here text then true
  else
    match text with
    | [] => false
    | a :: text => if (a =? c) || (c =? dot) then matchstar here c text else false
    end.

Fixpoint matchhere (re text : list Z) : bool :=
  match re with
  | [] => true
  | c :: re1 =>
      match re1 with
      | s :: re2 =>
          if s =? star then matchstar (matchhere re2) c text
          else
            match text with
            | a :: text => if (c =? dot) || (c =? a) then matchhere re1 text else false
            | [] => false
            end
      | [] =>
          if c =? dollar then match text with [] => true | _ => false end
          else
            match text with
            | a :: text => if (c =? dot) || (c =? a) then matchhere re1 text else false
            | [] => false
            end
      end
  end.

(** The loop of [match]. *)
Fixpoint match_from (re text : list Z) : bool :=
  if matchhere re text then true
  else
    match text with
    | [] => false
    | _ :: text => match_from re text
    end.

Definition grep_match (re text : list Z) : bool :=
  match re with
  | c :: re1 => if c =? caret then matchhere re1 text else match_from re text
  | [] => match_from re text
  end.

(** ** What the operators mean *)

(** [c] matches the byte [a]. *)
Definition hits (c a : Z) : Prop := c = dot \/ c = a.

(** [re] matches a prefix of the text. *)
Inductive mh : list Z -> list Z -> Prop :=
| mh_nil t : mh [] t
| mh_star c re u v : Forall (hits c) u -> mh re v -> mh (c :: star :: re) (u ++ v)
| mh_end : mh [dollar] []
| mh_char c re a t : hits c a -> mh re t -> hd 0 re <> star -> ~ (c = dollar /\ re = []) -> mh (c :: re) (a :: t).

(** [re] matches somewhere; a leading caret ties it to the start. *)
Definition matches (re text : list Z) : Prop :=
  match re with
  | c :: re1 => if decide (c = caret) then mh re1 text else exists u v, text = u ++ v /\ mh re v
  | [] => True
  end.

Lemma matchstar_spec (here : list Z -> bool) c text :
  matchstar here c text = true <-> exists u v, text = u ++ v /\ Forall (hits c) u /\ here v = true.
Proof.
  induction text as [|a text IH]; cbn [matchstar].
  - destruct (here []) eqn:E.
    + split; [|done]. intros _. by exists [], [].
    + split; [done|]. intros (u & v & Huv & _ & Hv). symmetry in Huv. apply app_eq_nil in Huv as [-> ->]. congruence.
  - destruct (here (a :: text)) eqn:E.
    + split; [|done]. intros _. exists [], (a :: text). split_and!; [done|constructor|done].
    + assert (Hc : ((a =? c) || (c =? dot) = true) <-> hits c a).
      { unfold hits. rewrite orb_true_iff, !Z.eqb_eq. intuition congruence. }
      destruct ((a =? c) || (c =? dot)) eqn:Eb.
      * rewrite IH. split.
        -- intros (u & v & -> & Hu & Hv). exists (a :: u), v. split_and!; [done|constructor; [by apply Hc|done]|done].
        -- intros ([|b u] & v & Huv & Hu & Hv); [simpl in Huv; subst; congruence|].
           injection Huv as <- ->. apply Forall_cons in Hu as [_ Hu]. eauto.
      * split; [done|]. intros ([|b u] & v & Huv & Hu & Hv); [simpl in Huv; subst; congruence|].
        injection Huv as <- ->. apply Forall_cons in Hu as [Hh _]. by apply Hc in Hh.
Qed.

Lemma hits_b c a : (c =? dot) || (c =? a) = true <-> hits c a.
Proof. unfold hits. by rewrite orb_true_iff, !Z.eqb_eq. Qed.

(** The case of an ordinary character. *)
Lemma char_spec (b : bool) c re a t :
  hd 0 re <> star -> ~ (c = dollar /\ re = []) -> (b = true <-> mh re t) ->
  (if (c =? dot) || (c =? a) then b else false) = true <-> mh (c :: re) (a :: t).
Proof.
  intros Hs He Hb. destruct ((c =? dot) || (c =? a)) eqn:E.
  - rewrite Hb. split; [intros H; constructor; try done; by apply hits_b|]. intros H. by inversion H; subst.
  - split; [done|]. intros H. inversion H; subst; [done|]. assert (hits c a) as Hh by done. apply hits_b in Hh. congruence.
Qed.

Lemma char_nil c re : hd 0 re <> star -> ~ (c = dollar /\ re = []) -> ~ mh (c :: re) [].
Proof. intros Hs He H. inversion H; subst; [done|]. by apply He. Qed.

Lemma matchhere_spec re text : matchhere re text = true <-> mh re text.
Proof.
  assert (Hind : forall n re text, (length re <= n)%nat -> matchhere re text = true <-> mh re text).
  { clear. induction n as [|n IH]; intros re text Hn.
    { destruct re; [|simpl in Hn; lia]. split; [intros _; constructor|done]. }
    destruct re as [|c re]; [split; [intros _; constructor|done]|]. simpl in Hn.
    destruct re as [|s re2].
    - cbn [matchhere]. destruct (Z.eqb_spec c dollar) as [->|Hc].
      + destruct text; [split; [intros _; constructor|done]|]. split; [done|]. intros H. inversion H; subst; by try (exfalso; auto).
      + destruct text as [|a text].
        * split; [done|]. intros H. exfalso. eapply (char_nil c []); [done| |exact H]. by intros [].
        * apply char_spec; [done|by intros []|]. split; [intros _; constructor|done].
    - cbn [matchhere]. destruct (Z.eqb_spec s star) as [->|Hs].
      + rewrite matchstar_spec. split.
        * intros (u & v & -> & Hu & Hv). constructor; [done|]. apply IH; [simpl in Hn; lia|done].
        * intros H. inversion H as [|c' re' u v Hu Hv| |]; subst; [|done].
          exists u, v. split_and!; [done|done|]. apply IH; [simpl in Hn; lia|done].
      + destruct text as [|a text].
        * split; [done|]. intros H. exfalso. eapply (char_nil c (s :: re2)); [done| |exact H]. by intros [].
        * apply char_spec; [done|by intros []|]. apply (IH (s :: re2)). simpl in *. lia. }
  by apply (Hind (length re)).
Qed.

Lemma match_from_spec re text : match_from re text = true <-> exists u v, text = u ++ v /\ mh re v.
Proof.
  induction text as [|a text IH]; cbn [match_from]; destruct (matchhere re _) eqn:E.
  - split; [|done]. intros _. exists [], []. split; [done|]. by apply matchhere_spec.
  - split; [done|]. intros (u & v & Huv & Hv). symmetry in Huv. apply app_eq_nil in Huv as [-> ->].
    apply matchhere_spec in Hv. congruence.
  - split; [|done]. intros _. exists [], (a :: text). split; [done|]. by apply matchhere_spec.
  - rewrite IH. split.
    + intros (u & v & -> & Hv). by exists (a :: u), v.
    + intros ([|b u] & v & Huv & Hv); [simpl in Huv; subst; apply matchhere_spec in Hv; congruence|].
      injection Huv as <- ->. eauto.
Qed.

(** C32. The matcher decides the four operators: [.] is any byte, [c*] any
    number of [c], a final [$] the end of the text and a leading [^] its
    start; the search finds the pattern wherever it is, also when it matches
    the empty string. *)
Theorem grep_match_spec re text : grep_match re text = true <-> matches re text.
Proof.
  unfold grep_match, matches. destruct re as [|c re].
  - rewrite match_from_spec. split; [done|]. intros _. exists [], text. split; [done|constructor].
  - destruct (Z.eqb_spec c caret) as [->|Hc].
    + rewrite decide_True by done. apply matchhere_spec.
    + rewrite decide_False by done. apply match_from_spec.
Qed.

(** ** The loop over lines *)

(** [strchr(p, c)] for a newline: what comes before it and after it; a NUL
    ends the search. *)
Fixpoint split_nl (p : list Z) : option (list Z * list Z) :=
  match p with
  | [] => None
  | a :: p =>
      if a =? newline then Some ([], p)
      else if a =? 0 then None
      else (fun '(l, r) => (a :: l, r)) <$> split_nl p
  end.

(** The inner loop of [grep]: what it writes, and the final [p]. *)
Fixpoint grep_lines (fuel : nat) (re p : list Z) : list Z * list Z :=
  match fuel with
  | O => ([], p)
  | S fuel =>
      match split_nl p with
      | None => ([], p)
      | Some (l, r) =>
          let (out, rest) := grep_lines fuel re r in
          ((if grep_match re l then l ++ [newline] else []) ++ out, rest)
      end
  end.

(** Room for data in [buf], which keeps one byte for the NUL. *)
Definition BUFROOM : nat := 1023.

(** [grep] on the bytes [input]; [ns] bounds what the successive reads return.
    [buf] holds the [m] bytes kept so far. *)
Fixpoint grep_reads (re buf input : list Z) (ns : list nat) : list Z :=
  match ns with
  | [] => []
  | k :: ns =>
      let n := Nat.min (Nat.min k (BUFROOM - length buf)) (length input) in
      if (n =? 0)%nat then []
      else
        let buf1 := buf ++ take n input in
        let (out, p) := grep_lines (S (length buf1)) re buf1 in
        let buf2 := if (length p =? length buf1)%nat then [] else p in
        out ++ grep_reads re buf2 (drop n input) ns
  end.

Definition grep (re input : list Z) (ns : list nat) : list Z := grep_reads re [] input ns.

(** The lines of a text, each without its newline, and what follows the last
    newline. *)
Fixpoint lines (t : list Z) : list (list Z) * list Z :=
  match t with
  | [] => ([], [])
  | a :: t =>
      let (ls, r) := lines t in
      if a =? newline then ([] :: ls, r)
      else match ls with
           | [] => ([], a :: r)
           | l :: ls => ((a :: l) :: ls, r)
           end
  end.

(** The lines that match. *)
Definition selected (re : list Z) (ls : list (list Z)) : list Z :=
  concat (map (fun l => if grep_match re l then l ++ [newline] else []) ls).

Lemma split_nl_lines p :
  0 ∉ p ->
  match split_nl p with
  | Some (l, r) => lines p = (l :: (lines r).1, (lines r).2) /\ p = l ++ newline :: r
  | None => lines p = ([], p)
  end.
Proof.
  induction p as [|a p IH]; intros H0; [done|]. apply not_elem_of_cons in H0 as [Ha H0]. specialize (IH H0).
  cbn [split_nl lines]. destruct (Z.eqb_spec a newline) as [->|Hn].
  - by destruct (lines p).
  - destruct (Z.eqb_spec a 0) as [->|_]; [done|]. destruct (split_nl p) as [[l r]|]; simpl.
    + destruct IH as [-> ->]. done.
    + by rewrite IH.
Qed.

Lemma grep_lines_spec fuel re p :
  0 ∉ p -> (length p < fuel)%nat -> grep_lines fuel re p = (selected re (lines p).1, (lines p).2).
Proof.
  revert p. induction fuel as [|fuel IH]; intros p H0 Hf; [lia|]. cbn [grep_lines].
  pose proof (split_nl_lines p H0) as Hs. destruct (split_nl p) as [[l r]|].
  - destruct Hs as [El Ep]. rewrite (IH r).
    + by rewrite El.
    + intros Hr. apply H0. rewrite Ep. apply elem_of_app. right. by right.
    + apply (f_equal length) in Ep. rewrite length_app in Ep. simpl in Ep. lia.
  - by rewrite Hs.
Qed.

Lemma lines_app t u : lines (t ++ u) =
  match (lines u).1 with
  | [] => ((lines t).1, (lines t).2 ++ (lines u).2)
  | l :: ls => ((lines t).1 ++ ((lines t).2 ++ l) :: ls, (lines u).2)
  end.
Proof.
  induction t as [|a t IH]; simpl; [by destruct (lines u) as [[|l ls] r]|]. rewrite IH. clear IH.
  destruct (lines t) as [lt rt], (lines u) as [[|l ls] r]; simpl.
  - destruct (a =? newline); [done|]. by destruct lt.
  - destruct (a =? newline); [done|]. by destruct lt.
Qed.

Lemma lines_rest t : (lines (lines t).2) = ([], (lines t).2).
Proof.
  induction t as [|a t IH]; [done|]. simpl. destruct (lines t) as [[|l ls] r]; simpl in *; destruct (Z.eqb_spec a newline); simpl; try done.
  rewrite IH. simpl. destruct (Z.eqb_spec a newline); done.
Qed.

(** Lines that end, each of at most [L] bytes with its newline. *)
Definition all_short (L : nat) (t : list Z) : Prop :=
  (lines t).2 = [] /\ Forall (fun l => (length l < L)%nat) (lines t).1.

Lemma lines_none t : (lines t).1 = [] -> lines t = ([], t).
Proof.
  induction t as [|a t IH]; [done|]. simpl. destruct (lines t) as [[|l ls] r]; simpl in *; destruct (a =? newline); try done.
  intros _. specialize (IH eq_refl). injection IH as ->. done.
Qed.

Lemma lines_split t u :
  lines (t ++ u) = ((lines t).1 ++ (lines ((lines t).2 ++ u)).1, (lines ((lines t).2 ++ u)).2).
Proof.
  rewrite !lines_app, lines_rest. destruct (lines u).1; simpl; [by rewrite app_nil_r|done].
Qed.

Lemma lines_length t : length t = (sum_list_with (fun l => S (length l)) (lines t).1 + length (lines t).2)%nat.
Proof.
  induction t as [|a t IH]; [done|]. simpl. destruct (lines t) as [[|l ls] r]; destruct (a =? newline); simpl in *; lia.
Qed.

Lemma lines_sub t c : c ∈ (lines t).2 -> c ∈ t.
Proof.
  induction t as [|a t IH]; [done|]. simpl. destruct (lines t) as [[|l ls] r]; destruct (a =? newline); simpl in *;
    rewrite ?elem_of_cons; intuition.
Qed.

(** A started line is short, and is nothing when the text ends with it. *)
Lemma partial_short L b u : (0 < L)%nat -> lines b = ([], b) -> all_short L (b ++ u) ->
  (length b < L)%nat /\ (u = [] -> b = []).
Proof.
  intros HL Hb [H1 H2]. rewrite lines_app, Hb in H1, H2. simpl in H1, H2. split.
  - destruct (lines u).1 as [|l ls].
    + simpl in H1. apply app_eq_nil in H1 as [-> _]. done.
    + simpl in H2. apply Forall_cons in H2 as [H2 _]. rewrite length_app in H2. lia.
  - intros ->. simpl in H1. by rewrite app_nil_r in H1.
Qed.

Lemma grep_reads_spec re L ns : forall buf t,
  (0 < L <= BUFROOM)%nat -> Forall (fun k => (L <= k)%nat) ns -> (length t < length ns)%nat ->
  0 ∉ buf ++ t -> lines buf = ([], buf) -> all_short L (buf ++ t) ->
  grep_reads re buf t ns = selected re (lines (buf ++ t)).1.
Proof.
  induction ns as [|k ns IH]; intros buf t HL Hk Hlen H0 Hb Hs; [simpl in Hlen; lia|].
  destruct (partial_short L buf t ltac:(lia) Hb Hs) as [Hbl Hbe]. apply Forall_cons in Hk as [Hk Hks]. cbn [grep_reads].
  destruct (Nat.eqb_spec (Nat.min (Nat.min k (BUFROOM - length buf)) (length t)) 0) as [E|E].
  { assert (t = []) as -> by (destruct t; [done|simpl in E; lia]). by rewrite Hbe. }
  set (n := Nat.min (Nat.min k (BUFROOM - length buf)) (length t)) in *.
  assert (Et : buf ++ t = (buf ++ take n t) ++ drop n t) by (by rewrite <- app_assoc, take_drop).
  assert (H1 : 0 ∉ buf ++ take n t) by (rewrite Et in H0; intros Hin; apply H0; apply elem_of_app; by left).
  rewrite grep_lines_spec; [|done|lia]. rewrite Et in Hs.
  assert (Hne : (lines (buf ++ take n t)).1 <> []).
  { intros En. apply lines_none in En. destruct (partial_short L _ _ ltac:(lia) En Hs) as [Hl He].
    rewrite length_app, length_take in Hl. destruct (decide (n = length t)) as [Hn|Hn]; [|lia].
    rewrite drop_ge in He by lia. specialize (He eq_refl). apply (f_equal length) in He.
    rewrite length_app, length_take in He. simpl in He. lia. }
  assert (Hlen2 : length (lines (buf ++ take n t)).2 <> length (buf ++ take n t)).
  { intros El. apply Hne. pose proof (lines_length (buf ++ take n t)) as Hll. destruct (lines (buf ++ take n t)).1; [done|].
    simpl in Hll. lia. }
  destruct (Nat.eqb_spec (length (lines (buf ++ take n t)).2) (length (buf ++ take n t))); [done|].
  rewrite (IH (lines (buf ++ take n t)).2 (drop n t)); [|done|done| | | |].
  - rewrite Et. rewrite (lines_split (buf ++ take n t)). unfold selected. simpl. by rewrite map_app, concat_app.
  - rewrite length_drop. simpl in Hlen. lia.
  - intros Hin. apply elem_of_app in Hin as [Hin|Hin].
    + apply H1. by apply (lines_sub (buf ++ take n t)).
    + apply H0. rewrite Et. apply elem_of_app. by right.
  - apply lines_rest.
  - destruct Hs as [Hs1 Hs2]. rewrite lines_split in Hs1, Hs2. simpl in Hs1, Hs2. apply Forall_app in Hs2 as [_ Hs2]. by split.
Qed.

(** [grep] prints exactly the matching lines, in order, whatever the reads
    return, as long as no read stops short of [L] bytes, no line with its
    newline is longer than [L], and [L] fits in the buffer; a file without NUL
    bytes whose last line ends is read to its end. *)
Theorem grep_spec re L input ns :
  (0 < L <= BUFROOM)%nat -> Forall (fun k => (L <= k)%nat) ns -> (length input < length ns)%nat ->
  0 ∉ input -> all_short L input ->
  grep re input ns = selected re (lines input).1.
Proof. intros. by apply (grep_reads_spec re L ns [] input). Qed.

Module GrepDemo.

(** The lines "ab", "cab" and "x", searched for "ab$". *)
Definition text : list Z := [97; 98; 10; 99; 97; 98; 10; 120; 10].
Definition re : list Z := [97; 98; 36].

(** The claim for reads of four bytes. *)
Lemma grep_spec_witness :
  grep re text (replicate 10 4%nat) = selected re (lines text).1 /\
  selected re (lines text).1 = [97; 98; 10; 99; 97; 98; 10].
Proof.
  split; [|reflexivity]. apply (grep_spec re 4 text (replicate 10 4%nat)).
  - unfold BUFROOM. lia.
  - apply Forall_replicate. lia.
  - vm_compute. lia.
  - apply (bool_decide_eq_true_1 (0 ∉ text)). vm_compute. reflexivity.
  - split; [reflexivity|]. cbn. repeat constructor.
Defined.

(** With reads that stop inside a line the line is lost: when no newline
    has come yet [grep] resets [m] to 0 and forgets what it has read, so of
    "ab", newline, read in two steps, nothing is found. *)
Theorem grep_short_read_loses_line :
  grep [97; 98] [97; 98; 10] [2; 1; 1]%nat = [] /\
  selected [97; 98] (lines [97; 98; 10]).1 = [97; 98; 10].
Proof. by split. Qed.

End GrepDemo.
