(* ===== verification/Printf.v ===== *)
(** * Formatted output (printf.c, and printint and cprintf of console.c)

    What the formatting routines print, as a list of bytes.  The variable
    arguments are the words [ap 0], [ap 1], ... that follow the format on the
    stack; a string argument is read from memory through [str]. *)

From S2P Require Import Prelude.

(** The two digit tables. *)
Definition digits_upper : list Z := [48; 49; 50; 51; 52; 53; 54; 55; 56; 57; 65; 66; 67; 68; 69; 70].
Definition digits_lower : list Z := [48; 49; 50; 51; 52; 53; 54; 55; 56; 57; 97; 98; 99; 100; 101; 102].

Definition minus : Z := 45.
Definition percent : Z := 37.

(** The do loop: the digits of [x], least significant first.  A word has at
    most 32 of them in base 2. *)
Fixpoint digit_loop (fuel : nat) (digits : list Z) (x base : Z) : list Z :=
  match fuel with
  | O => []
  | S fuel =>
      nth (Z.to_nat (x mod base)) digits 0 ::
      (if x / base =? 0 then [] else digit_loop fuel digits (x / base) base)
  end.

(** [printint]: [buf] is filled from its start and printed from its end. *)
Definition printint (digits : list Z) (xx base : Z) (sgn : bool) : list Z :=
  let neg := sgn && (xx <? 0) in
  let x := if neg then u32 (- xx) else u32 xx in
  let buf := digit_loop 32 digits x base in
  rev (if neg then buf ++ [minus] else buf).

(** [printint] of console.c. *)
Definition cons_printint (xx base : Z) (sign : bool) : list Z := printint digits_lower xx base sign.

Section Printf.

(** The string at an address. *)
Variable str : Z -> list Z.

Definition null_text : list Z := [40; 110; 117; 108; 108; 41].     (* (null) *)

Definition str_arg (s : Z) : list Z := if s =? 0 then null_text else str s.

(** [printf]: the loop over the format, in state '%' or 0, with [k] arguments
    used up. *)
Fixpoint printf_loop (fmt : list Z) (pct : bool) (ap : nat -> Z) (k : nat) : list Z :=
  match fmt with
  | [] => []
  | c :: fmt =>
      if negb pct then
        if c =? percent then printf_loop fmt true ap k
        else c :: printf_loop fmt false ap k
      else if c =? 100 then printint digits_upper (s32 (ap k)) 10 true ++ printf_loop fmt false ap (S k)
      else if (c =? 120) || (c =? 112) then printint digits_upper (s32 (ap k)) 16 false ++ printf_loop fmt false ap (S k)
      else if c =? 115 then str_arg (ap k) ++ printf_loop fmt false ap (S k)
      else if c =? 99 then u8 (ap k) :: printf_loop fmt false ap (S k)
      else if c =? percent then c :: printf_loop fmt false ap k
      else percent :: c :: printf_loop fmt false ap k
  end.

Definition printf (fmt : list Z) (ap : nat -> Z) : list Z := printf_loop fmt false ap 0.

(** [cprintf], which looks one character ahead instead. *)
Fixpoint cprintf_loop (fmt : list Z) (ap : nat -> Z) (k : nat) : list Z :=
  match fmt with
  | [] => []
  | c :: fmt =>
      if negb (c =? percent) then c :: cprintf_loop fmt ap k
      else
        match fmt with
        | [] => []
        | c :: fmt =>
            if c =? 100 then cons_printint (s32 (ap k)) 10 true ++ cprintf_loop fmt ap (S k)
            else if (c =? 120) || (c =? 112) then cons_printint (s32 (ap k)) 16 false ++ cprintf_loop fmt ap (S k)
            else if c =? 115 then str_arg (ap k) ++ cprintf_loop fmt ap (S k)
            else if c =? percent then percent :: cprintf_loop fmt ap k
            else percent :: c :: cprintf_loop fmt ap k
        end
  end.

Definition cprintf (fmt : list Z) (ap : nat -> Z) : list Z := cprintf_loop fmt ap 0.

End Printf.

(** ** Numbers *)

(** The value of a digit, and of a number written in base [base]. *)
Definition digit_val (c : Z) : Z :=
  if c <? 58 then c - 48 else if c <? 71 then c - 55 else c - 87.
Definition number_val (base : Z) (l : list Z) : Z := fold_left (fun n c => n * base + digit_val c) l 0.

(** The value of a decimal number with an optional sign. *)
Definition decimal_val (l : list Z) : Z :=
  match l with
  | c :: l' => if c =? minus then - number_val 10 l' else number_val 10 l
  | [] => 0
  end.

Definition digit_table (d : list Z) : Prop := d = digits_upper \/ d = digits_lower.

Lemma digit_val_nth d k : digit_table d -> 0 <= k < 16 ->
  digit_val (nth (Z.to_nat k) d 0) = k /\ nth (Z.to_nat k) d 0 <> minus.
Proof.
  intros Hd Hk. assert (Hc : Forall (fun i => digit_val (nth (Z.to_nat i) d 0) = i /\ nth (Z.to_nat i) d 0 <> minus)
    [0; 1; 2; 3; 4; 5; 6; 7; 8; 9; 10; 11; 12; 13; 14; 15]).
  { destruct Hd as [->| ->]; by repeat constructor. }
  rewrite Forall_forall in Hc. apply Hc. rewrite !elem_of_cons, elem_of_nil. lia.
Qed.

Lemma number_val_app base l c : number_val base (l ++ [c]) = number_val base l * base + digit_val c.
Proof. unfold number_val. by rewrite fold_left_app. Qed.

(** The digits are those of [x]: there are as many as its size asks for, and
    they end with a leading digit that is not zero. *)
Lemma digit_loop_spec fuel d x base :
  digit_table d -> 2 <= base <= 16 -> 0 <= x < base ^ Z.of_nat fuel -> (0 < fuel)%nat ->
  let l := digit_loop fuel d x base in
  number_val base (rev l) = x /\ Forall (fun c => c <> minus) l /\
  l <> [] /\ (forall n, 0 < n -> x < base ^ n -> Z.of_nat (length l) <= n).
Proof.
  intros Hd Hb. revert x. induction fuel as [|fuel IH]; intros x Hx Hf; [lia|]. cbn [digit_loop].
  pose proof (Z.mod_pos_bound x base) as Hm. destruct (digit_val_nth d (x mod base) Hd ltac:(lia)) as [Hv Hn].
  pose proof (Z.div_mod x base) as Hdm. destruct (Z.eqb_spec (x / base) 0) as [E|E].
  - cbn [rev app]. split; [unfold number_val; simpl; lia|]. split; [by repeat constructor|]. split; [done|].
    intros n Hn0 _. simpl. lia.
  - assert (Hq : 0 <= x / base < base ^ Z.of_nat fuel).
    { split; [apply Z.div_pos; lia|]. apply Z.div_lt_upper_bound; [lia|]. rewrite Nat2Z.inj_succ, Z.pow_succ_r in Hx; lia. }
    assert (0 < fuel)%nat by (destruct fuel; [simpl in Hq; lia|lia]).
    destruct (IH (x / base) Hq ltac:(lia)) as (A & B & C & D). cbn [rev]. split.
    + rewrite number_val_app, A, Hv. lia.
    + split; [by constructor|]. split; [done|]. intros n Hn0 Hlt.
      destruct (decide (n = 1)) as [->|Hn1].
      * exfalso. apply E. apply Z.div_small. rewrite Z.pow_1_r in Hlt. lia.
      * cbn [length]. rewrite Nat2Z.inj_succ. specialize (D (n - 1) ltac:(lia)).
        assert (x / base < base ^ (n - 1)).
        { apply Z.div_lt_upper_bound; [lia|]. rewrite <- Z.pow_succ_r by lia. by replace (Z.succ (n - 1)) with n by lia. }
        lia.
Qed.

(** The word that is printed. *)
Lemma print_mag xx : is_s32 xx -> u32 (if xx <? 0 then - xx else xx) = Z.abs xx.
Proof. unfold is_s32. intros H. rewrite u32_small; [|unfold is_u32]; case_bools; lia. Qed.

Lemma digits_bound d x base n : digit_table d -> 2 <= base <= 16 -> is_u32 x -> 0 < n -> x < base ^ n ->
  let l := digit_loop 32 d x base in
  number_val base (rev l) = x /\ Forall (fun c => c <> minus) l /\ l <> [] /\ Z.of_nat (length l) <= n.
Proof.
  intros Hd Hb Hx Hn Hlt. destruct (digit_loop_spec 32 d x base Hd Hb) as (A & B & C & D).
  - unfold is_u32 in Hx. change (Z.of_nat 32) with 32. pose proof (Z.pow_le_mono_l 2 base 32). lia.
  - lia.
  - split_and!; try done. by apply D.
Qed.

(** Numbers print as what they are: reading the decimal output of a signed
    word gives it back, also for the smallest int, and the hexadecimal output
    reads as the unsigned word; neither overflows the 16 bytes of [buf]. *)
Theorem printint_value d xx :
  digit_table d -> is_s32 xx ->
  decimal_val (printint d xx 10 true) = xx /\ (length (printint d xx 10 true) <= 11)%nat /\
  number_val 16 (printint d xx 16 false) = u32 xx /\ (length (printint d xx 16 false) <= 8)%nat.
Proof.
  intros Hd Hx. unfold printint. cbn [andb]. split; [|split; [|split]].
  - destruct (Z.ltb_spec xx 0) as [Hn|Hn].
    + destruct (digits_bound d (u32 (- xx)) 10 10 Hd) as (A & _); [lia|apply u32_range|lia| |].
      { rewrite u32_small; unfold is_u32, is_s32 in *; lia. }
      rewrite rev_app_distr. cbn [rev app decimal_val]. rewrite Z.eqb_refl, A. rewrite u32_small; unfold is_u32, is_s32 in *; lia.
    + destruct (digits_bound d (u32 xx) 10 10 Hd) as (A & B & C & _); [lia|apply u32_range|lia| |].
      { rewrite u32_small; unfold is_u32, is_s32 in *; lia. }
      set (l := digit_loop 32 d (u32 xx) 10) in *. unfold decimal_val. destruct (rev l) as [|c l'] eqn:E.
      * apply (f_equal length) in E. rewrite length_rev in E. by destruct l.
      * assert (c <> minus) by (rewrite List.Forall_forall in B; apply B, in_rev; rewrite E; by left).
        destruct (Z.eqb_spec c minus); [done|]. rewrite A. apply u32_small. unfold is_u32, is_s32 in *. lia.
  - rewrite length_rev. destruct (Z.ltb_spec xx 0) as [Hn|Hn].
    + destruct (digits_bound d (u32 (- xx)) 10 10 Hd) as (_ & _ & _ & D); [lia|apply u32_range|lia| |].
      { rewrite u32_small; unfold is_u32, is_s32 in *; lia. }
      rewrite length_app. simpl length at 2. lia.
    + destruct (digits_bound d (u32 xx) 10 10 Hd) as (_ & _ & _ & D); [lia|apply u32_range|lia| |lia].
      rewrite u32_small; unfold is_u32, is_s32 in *; lia.
  - destruct (digits_bound d (u32 xx) 16 8 Hd) as (A & _); [lia|apply u32_range|lia|apply u32_range|exact A].
  - rewrite length_rev. destruct (digits_bound d (u32 xx) 16 8 Hd) as (_ & _ & _ & D); [lia|apply u32_range|lia|apply u32_range|lia].
Qed.

(** ** The two formatters *)

(** A format without [%c], which only [printf] knows, and without [%x] and
    [%p], whose digits differ in case. *)
Fixpoint common_fmt (fmt : list Z) (pct : bool) : bool :=
  match fmt with
  | [] => true
  | c :: fmt =>
      if pct then negb ((c =? 99) || (c =? 120) || (c =? 112)) && common_fmt fmt false
      else common_fmt fmt (c =? percent)
  end.

Lemma decimal_tables k : 0 <= k < 10 -> nth (Z.to_nat k) digits_upper 0 = nth (Z.to_nat k) digits_lower 0.
Proof.
  intros Hk. assert (Hc : Forall (fun i => nth (Z.to_nat i) digits_upper 0 = nth (Z.to_nat i) digits_lower 0)
    [0; 1; 2; 3; 4; 5; 6; 7; 8; 9]) by (by repeat constructor).
  rewrite Forall_forall in Hc. apply Hc. rewrite !elem_of_cons, elem_of_nil. lia.
Qed.

Lemma decimal_same xx : printint digits_upper xx 10 true = cons_printint xx 10 true.
Proof.
  assert (H : forall fuel x, digit_loop fuel digits_upper x 10 = digit_loop fuel digits_lower x 10).
  { induction fuel as [|fuel IH]; intros x; [done|]. cbn [digit_loop]. rewrite IH.
    by rewrite (decimal_tables (x mod 10)) by (apply Z.mod_pos_bound; lia). }
  unfold cons_printint, printint. by rewrite !H.
Qed.

(** The formatter of the library and that of the console print the same,
    for every format without [%c], which the console does not have, and
    without [%x] and [%p], whose digits they write in different case; a
    percent sign at the end prints nothing in both. *)
Theorem printf_cprintf str fmt ap :
  common_fmt fmt false = true -> printf str fmt ap = cprintf str fmt ap.
Proof.
  unfold printf, cprintf. generalize 0%nat as k.
  enough (H : forall n fmt k, (length fmt <= n)%nat -> common_fmt fmt false = true ->
    printf_loop str fmt false ap k = cprintf_loop str fmt ap k) by (intros k Hc; by apply (H (length fmt))).
  clear fmt. induction n as [|n IH]; intros fmt k Hn Hc; (destruct fmt as [|c fmt]; [done|]); [simpl in Hn; lia|].
  cbn [printf_loop cprintf_loop negb common_fmt length] in *. destruct (c =? percent); cbn [negb].
  - destruct fmt as [|e fmt]; [done|]. cbn [printf_loop negb common_fmt length] in *.
    apply andb_true_iff in Hc as [He Hc]. apply negb_true_iff in He. rewrite !orb_false_iff in He.
    destruct He as [[-> ->] ->]. cbn [orb].
    rewrite decimal_same, !(IH fmt) by (done || lia).
    destruct (e =? 100); [done|]. destruct (e =? 115); [done|]. destruct (Z.eqb_spec e percent) as [->|]; done.
  - f_equal. apply IH; [lia|done].
Qed.

Module PrintfDemo.

(** [printf("%d: %s\n", -12, "ab")]. *)
Definition fmt : list Z := [37; 100; 58; 32; 37; 115; 10].
Definition args (k : nat) : Z := match k with O => 4294967284 | _ => 4096 end.

Lemma printint_value_witness :
  decimal_val (printint digits_upper (-2147483648) 10 true) = -2147483648 /\
  printint digits_upper (-2147483648) 10 true = [45; 50; 49; 52; 55; 52; 56; 51; 54; 52; 56].
Proof.
  split; [|vm_compute; reflexivity].
  apply (printint_value digits_upper (-2147483648)); [by left|unfold is_s32; lia].
Defined.

Lemma printf_cprintf_witness :
  printf (fun _ => [97; 98]) fmt args = cprintf (fun _ => [97; 98]) fmt args /\
  printf (fun _ => [97; 98]) fmt args = [45; 49; 50; 58; 32; 97; 98; 10].
Proof. split; [|vm_compute; reflexivity]. apply (printf_cprintf (fun _ => [97; 98]) fmt args). reflexivity. Defined.

End PrintfDemo.
