(* ===== verification/Utils.v ===== *)
(** * Small user programs (cat.c, wc.c, ls.c, echo.c, and stat of ulib.c)

    The programs are functions over the calls of the kernel they use (the
    class [Sys]); a call returns its result and the next state of the system.
    What they rely on is the class [SysLaws]: an abstract system with the
    files by name, the open descriptors with the bytes still to be read, and
    what has been written, and how each call changes it.  A read of the
    console or of a pipe may be short; one of a file or directory is not. *)

From stdpp Require Import gmap.
From S2P Require Import Prelude CString Printf.

#[local] Abbreviation path := (list Z).
Definition slash : Z := 47.
Definition T_DIR : Z := 1.
Definition T_FILE : Z := 2.
Definition DIRSIZ : nat := 14.
Definition NOFILE : nat := 16.

(** The members of [struct stat] that [ls] prints. *)
Record stat := mk_stat { st_type : Z; st_ino : Z; st_size : Z }.

(** [read] returns its result with the bytes it has stored in the buffer. *)
Class Sys (W : Type) := {
  os_open : path -> Z -> W -> Z * W;
  os_close : Z -> W -> Z * W;
  os_read : Z -> nat -> W -> (Z * list Z) * W;
  os_write : Z -> list Z -> W -> Z * W;
  os_fstat : Z -> W -> (Z * stat) * W
}.

(** How a program, or a part of it, ends: it goes on with a value, or has
    called [exit]. *)
Inductive uval (A : Type) : Type :=
| Val (a : A)
| Exited
| NoFuel.
Arguments Val {A} a.
Arguments Exited {A}.
Arguments NoFuel {A}.

Definition uM (W A : Type) : Type := W -> uval A * W.

#[export] Instance uM_ret W : MRet (uM W) := fun A a w => (Val a, w).
#[export] Instance uM_bind W : MBind (uM W) := fun A B f m w =>
  match m w with
  | (Val a, w) => f a w
  | (Exited, w) => (Exited, w)
  | (NoFuel, w) => (NoFuel, w)
  end.

(** An argument of [printf]. *)
Inductive arg := AInt (z : Z) | AStr (s : list Z).

(** The words of the arguments, a string being where its number says. *)
Definition arg_word (args : list arg) (k : nat) : Z :=
  match args !! k with Some (AInt z) => z | Some (AStr _) => Z.of_nat (S k) | None => 0 end.
Definition arg_str (args : list arg) (p : Z) : list Z :=
  match args !! Z.to_nat (p - 1) with Some (AStr s) => s | _ => [] end.

Definition format (f : list Z) (args : list arg) : list Z := printf (arg_str args) f (arg_word args).

Definition txt (s : string) : list Z := map (fun a => Z.of_N (Ascii.N_of_ascii a)) (String.list_ascii_of_string s).
Definition ln (s : string) : list Z := txt s ++ [10].

Section Programs.

Context {W : Type} {sys : Sys W}.

(** A call, as a step of a program. *)
Definition call {A} (f : W -> A * W) : uM W A := fun w => let (a, w) := f w in (Val a, w).
Definition uexit {A} : uM W A := fun w => (Exited, w).
Definition starve {A} : uM W A := fun w => (NoFuel, w).

(** [printf(fd, ...)], which writes one byte at a time. *)
Fixpoint puts (fd : Z) (l : list Z) : uM W unit :=
  match l with
  | [] => mret tt
  | c :: l => _ ← call (os_write fd [c]); puts fd l
  end.

Definition fprintf (fd : Z) (f : list Z) (args : list arg) : uM W unit := puts fd (format f args).

(** ** cat.c *)

(** The loop, with the last result of [read]. *)
Fixpoint cat_loop (fuel : nat) (fd : Z) : uM W Z :=
  match fuel with
  | O => starve
  | S fuel =>
      r ← call (os_read fd 512);
      if 0 <? r.1 then
        k ← call (os_write 1 r.2);
        if negb (k =? r.1) then _ ← fprintf 1 (ln "cat: write error") []; uexit
        else cat_loop fuel fd
      else mret r.1
  end.

Definition cat (fuel : nat) (fd : Z) : uM W unit :=
  n ← cat_loop fuel fd;
  if n <? 0 then _ ← fprintf 1 (ln "cat: read error") []; uexit else mret tt.

Fixpoint cat_args (fuel : nat) (argv : list path) : uM W unit :=
  match argv with
  | [] => uexit
  | a :: argv =>
      fd ← call (os_open a 0);
      if fd <? 0 then _ ← fprintf 1 (ln "cat: cannot open %s") [AStr a]; uexit
      else
        _ ← cat fuel fd;
        _ ← call (os_close fd);
        cat_args fuel argv
  end.

(** [argv] without the name of the program. *)
Definition cat_main (fuel : nat) (argv : list path) : uM W unit :=
  match argv with
  | [] => _ ← cat fuel 0; uexit
  | _ => cat_args fuel argv
  end.

(** ** wc.c *)

Definition spaces : list Z := [32; 13; 9; 10; 11].

(** [strchr(" \r\t\n\v", c)] is not 0. *)
Definition is_space (c : Z) : bool :=
  match Ulib.strchr 6 (fun x => nth (Z.to_nat (x - 4096)) spaces 0) 4096 c with
  | Some p => negb (p =? 0)
  | None => false
  end.

(** [l], [w], [c] and [inword]. *)
Record wcst := mk_wcst { wl : Z; ww : Z; wch : Z; inword : bool }.

Definition wc_char (s : wcst) (b : Z) : wcst :=
  let c := u32 (s.(wch) + 1) in
  let l := if b =? 10 then u32 (s.(wl) + 1) else s.(wl) in
  if is_space b then mk_wcst l s.(ww) c false
  else if negb s.(inword) then mk_wcst l (u32 (s.(ww) + 1)) c true
  else mk_wcst l s.(ww) c s.(inword).

Fixpoint wc_loop (fuel : nat) (fd : Z) (s : wcst) : uM W (Z * wcst) :=
  match fuel with
  | O => starve
  | S fuel =>
      r ← call (os_read fd 512);
      if 0 <? r.1 then wc_loop fuel fd (fold_left wc_char r.2 s) else mret (r.1, s)
  end.

Definition wc (fuel : nat) (fd : Z) (name : list Z) : uM W unit :=
  r ← wc_loop fuel fd (mk_wcst 0 0 0 false);
  if r.1 <? 0 then _ ← fprintf 1 (ln "wc: read error") []; uexit
  else fprintf 1 (ln "%d %d %d %s") [AInt r.2.(wl); AInt r.2.(ww); AInt r.2.(wch); AStr name].

Fixpoint wc_args (fuel : nat) (argv : list path) : uM W unit :=
  match argv with
  | [] => uexit
  | a :: argv =>
      fd ← call (os_open a 0);
      if fd <? 0 then _ ← fprintf 1 (ln "wc: cannot open %s") [AStr a]; uexit
      else
        _ ← wc fuel fd a;
        _ ← call (os_close fd);
        wc_args fuel argv
  end.

Definition wc_main (fuel : nat) (argv : list path) : uM W unit :=
  match argv with
  | [] => _ ← wc fuel 0 []; uexit
  | _ => wc_args fuel argv
  end.

(** ** ls.c *)

(** The loop of [fmtname] from the end of the path, and the name after it. *)
Fixpoint last_slash (back : list Z) (p : list Z) : list Z :=
  match back with
  | [] => p
  | c :: back => if c =? slash then p else last_slash back (c :: p)
  end.

Definition fmtname (pa : path) : list Z :=
  let p := last_slash (rev pa) [] in
  if (DIRSIZ <=? length p)%nat then p else p ++ replicate (DIRSIZ - length p) 32.

(** [stat] of ulib.c. *)
Definition ustat (n : path) : uM W (Z * stat) :=
  fd ← call (os_open n 0);
  if fd <? 0 then mret (-1, mk_stat 0 0 0)
  else
    r ← call (os_fstat fd);
    _ ← call (os_close fd);
    mret r.

(** The line of a file. *)
Definition ls_line (name : list Z) (st : stat) : uM W unit :=
  fprintf 1 (ln "%s %d %d %d") [AStr name; AInt st.(st_type); AInt st.(st_ino); AInt st.(st_size)].

(** [de.inum] and the string that [de.name] gives in [buf]. *)
Definition de_inum (de : list Z) : Z := nth 0 de 0 + 256 * nth 1 de 0.
Definition de_name (de : list Z) : list Z := field_str (take DIRSIZ (drop 2 de)).

Fixpoint ls_loop (fuel : nat) (fd : Z) (pa : path) : uM W unit :=
  match fuel with
  | O => starve
  | S fuel =>
      r ← call (os_read fd 16);
      if r.1 =? 16 then
        if de_inum r.2 =? 0 then ls_loop fuel fd pa
        else
          let buf := pa ++ slash :: de_name r.2 in
          s ← ustat buf;
          _ ← (if s.1 <? 0 then fprintf 1 (ln "ls: cannot stat %s") [AStr buf] else ls_line (fmtname buf) s.2);
          ls_loop fuel fd pa
      else mret tt
  end.

Definition ls (fuel : nat) (pa : path) : uM W unit :=
  fd ← call (os_open pa 0);
  if fd <? 0 then fprintf 2 (ln "ls: cannot open %s") [AStr pa]
  else
    r ← call (os_fstat fd);
    if r.1 <? 0 then
      _ ← fprintf 2 (ln "ls: cannot stat %s") [AStr pa];
      _ ← call (os_close fd);
      mret tt
    else
      _ ← (if r.2.(st_type) =? T_FILE then ls_line (fmtname pa) r.2
           else if r.2.(st_type) =? T_DIR then
             if (512 <? length pa + 1 + DIRSIZ + 1)%nat then fprintf 1 (ln "ls: path too long") []
             else ls_loop fuel fd pa
           else mret tt);
      _ ← call (os_close fd);
      mret tt.

Fixpoint ls_args (fuel : nat) (argv : list path) : uM W unit :=
  match argv with
  | [] => uexit
  | a :: argv => _ ← ls fuel a; ls_args fuel argv
  end.

Definition ls_main (fuel : nat) (argv : list path) : uM W unit :=
  match argv with
  | [] => _ ← ls fuel (txt "."); uexit
  | _ => ls_args fuel argv
  end.

(** ** echo.c *)

Fixpoint echo_main (argv : list (list Z)) : uM W unit :=
  match argv with
  | [] => uexit
  | a :: argv =>
      _ ← fprintf 1 (txt "%s%s") [AStr a; AStr (match argv with [] => [10] | _ => [32] end)];
      echo_main argv
  end.

End Programs.

(** ** What the programs rely on *)

(** The system as the programs see it. *)
Record os := mk_os {
  nodes : gmap path (stat * list Z);      (* what a name leads to *)
  fds : gmap Z (stat * list Z);           (* the descriptors open for reading, with what is still unread *)
  outs : gmap Z (list Z)                  (* what has been written to the output descriptors *)
}.

Definition emit (fd : Z) (l : list Z) (a : os) : os := mk_os a.(nodes) a.(fds) (alter (fun o => o ++ l) fd a.(outs)).
Definition set_fd (fd : Z) (x : stat * list Z) (a : os) : os := mk_os a.(nodes) (<[fd := x]> a.(fds)) a.(outs).
Definition drop_fd (fd : Z) (a : os) : os := mk_os a.(nodes) (delete fd a.(fds)) a.(outs).

Class SysLaws (W : Type) {sys : Sys W} := {
  view : W -> os;
  read_law w fd st l n : (view w).(fds) !! fd = Some (st, l) -> (0 < n)%nat ->
    exists k w', os_read fd n w = ((Z.of_nat k, take k l), w') /\ view w' = set_fd fd (st, drop k l) (view w) /\
      (k <= n)%nat /\ (k <= length l)%nat /\ (l <> [] -> (0 < k)%nat) /\
      (st.(st_type) = T_FILE \/ st.(st_type) = T_DIR -> k = Nat.min n (length l));
  write_law w fd l : is_Some ((view w).(outs) !! fd) ->
    exists w', os_write fd l w = (Z.of_nat (length l), w') /\ view w' = emit fd l (view w);
  open_law w p x : (view w).(nodes) !! p = Some x -> (size (view w).(fds) + size (view w).(outs) < NOFILE)%nat ->
    exists fd w', os_open p 0 w = (fd, w') /\ 0 <= fd /\ (view w).(fds) !! fd = None /\ view w' = set_fd fd x (view w);
  open_fail_law w p : (view w).(nodes) !! p = None -> exists r w', os_open p 0 w = (r, w') /\ r < 0 /\ view w' = view w;
  close_law w fd : is_Some ((view w).(fds) !! fd) -> exists r w', os_close fd w = (r, w') /\ view w' = drop_fd fd (view w);
  fstat_law w fd st l : (view w).(fds) !! fd = Some (st, l) -> exists w', os_fstat fd w = ((0, st), w') /\ view w' = view w
}.

(** The pieces between the white space of a text; its words are those that
    are not empty. *)
Fixpoint pieces (l : list Z) : list (list Z) :=
  match l with
  | [] => [[]]
  | c :: l =>
      if is_space c then [] :: pieces l
      else match pieces l with p :: ps => (c :: p) :: ps | [] => [[c]] end
  end.

Definition full (p : list Z) : bool := match p with [] => false | _ => true end.
Definition words (l : list Z) : nat := length (List.filter full (pieces l)).
Definition newlines (l : list Z) : nat := length (List.filter (Z.eqb 10) l).

Lemma is_space_spec c : is_space c = true <-> c ∈ spaces.
Proof.
  assert (E : is_space c = existsb (fun x => x =? c) spaces).
  { unfold is_space. cbn [Ulib.strchr].
    repeat match goal with |- context [nth ?k spaces 0] => let v := eval vm_compute in (nth k spaces 0) in change (nth k spaces 0) with v end.
    unfold spaces. cbn [existsb]. repeat match goal with |- context [?x =? c] => destruct (x =? c); [reflexivity|] end. reflexivity. }
  rewrite E, existsb_exists. setoid_rewrite Z.eqb_eq. rewrite list_elem_of_In. split; [by intros (x & H & <-)|intros H; by exists c].
Qed.

(** The words that begin in [l], the first not counted if one is under way. *)
Definition begun (iw : bool) (l : list Z) : nat :=
  match pieces l with
  | p :: ps => (if iw then 0 else if full p then 1 else 0) + length (List.filter full ps)
  | [] => 0
  end.

Lemma begun_words l : begun false l = words l.
Proof. unfold begun, words. destruct (pieces l) as [|p ps]; [done|]. cbn. by destruct p. Qed.

Lemma begun_cons iw c l : begun iw (c :: l) =
  if is_space c then begun false l else ((if iw then 0 else 1) + begun true l)%nat.
Proof.
  unfold begun. cbn [pieces]. destruct (is_space c).
  - destruct (pieces l) as [|[|x p] ps]; cbn; destruct iw; done.
  - destruct (pieces l) as [|p ps]; cbn; by destruct iw.
Qed.

Lemma u32_succ a b : u32 (u32 (a + 1) + b) = u32 (a + (1 + b)).
Proof. unfold u32. rewrite Zplus_mod_idemp_l. f_equal. lia. Qed.

(** The text that has been read is counted as a whole. *)
Lemma wc_fold l : forall s, is_u32 s.(wl) -> is_u32 s.(ww) -> is_u32 s.(wch) -> exists iw, fold_left wc_char l s =
  mk_wcst (u32 (s.(wl) + Z.of_nat (newlines l))) (u32 (s.(ww) + Z.of_nat (begun s.(inword) l))) (u32 (s.(wch) + Z.of_nat (length l))) iw.
Proof.
  assert (Hu : forall x, is_u32 (u32 x)) by apply u32_range.
  induction l as [|c l IH]; intros [l0 w0 c0 iw] H1 H2 H3; cbn [wl ww wch inword] in *.
  - exists iw. replace (begun iw []) with 0%nat by (by destruct iw). cbn [fold_left newlines List.filter length Z.of_nat].
    unfold newlines. cbn. by rewrite !Z.add_0_r, !u32_small.
  - assert (Hl : is_u32 (if c =? 10 then u32 (l0 + 1) else l0)) by (destruct (c =? 10); auto).
    assert (El : u32 ((if c =? 10 then u32 (l0 + 1) else l0) + Z.of_nat (newlines l)) = u32 (l0 + Z.of_nat (newlines (c :: l)))).
    { unfold newlines. cbn [List.filter]. rewrite (Z.eqb_sym 10 c). destruct (c =? 10); [|done]. cbn [length]. rewrite u32_succ. do 2 f_equal. lia. }
    assert (Ec : u32 (u32 (c0 + 1) + Z.of_nat (length l)) = u32 (c0 + Z.of_nat (length (c :: l)))).
    { rewrite u32_succ. cbn [length]. do 2 f_equal. lia. }
    cbn [fold_left]. rewrite begun_cons. unfold wc_char at 2. cbn [wl ww wch inword].
    destruct (is_space c); [|destruct iw; cbn [negb]].
    + destruct (IH (mk_wcst (if c =? 10 then u32 (l0 + 1) else l0) w0 (u32 (c0 + 1)) false)) as (iw' & ->); [done|done|apply Hu|].
      exists iw'. cbn [wl ww wch inword]. by rewrite El, Ec.
    + destruct (IH (mk_wcst (if c =? 10 then u32 (l0 + 1) else l0) w0 (u32 (c0 + 1)) true)) as (iw' & ->); [done|done|apply Hu|].
      exists iw'. cbn [wl ww wch inword]. by rewrite El, Ec.
    + destruct (IH (mk_wcst (if c =? 10 then u32 (l0 + 1) else l0) (u32 (w0 + 1)) (u32 (c0 + 1)) true)) as (iw' & ->); [done|apply Hu|apply Hu|].
      exists iw'. cbn [wl ww wch inword]. rewrite El, Ec, u32_succ. do 3 f_equal. lia.
Qed.

(** The name in a column of its own: blanks up to the longest name. *)
Definition pad (name : list Z) : list Z := name ++ replicate (DIRSIZ - length name) 32.

Lemma last_slash_acc name : slash ∉ name -> forall back p, last_slash (rev name ++ back) p = last_slash back (name ++ p).
Proof.
  induction name as [|c name IH] using rev_ind; intros Hn back p; [done|]. rewrite rev_app_distr. cbn [rev app last_slash].
  destruct (Z.eqb_spec c slash) as [->|Hc]; [exfalso; apply Hn; rewrite elem_of_app; right; by left|].
  rewrite IH by (intros H; apply Hn; rewrite elem_of_app; by left). by rewrite <- app_assoc.
Qed.

Lemma fmtname_last pa name : slash ∉ name -> fmtname (pa ++ slash :: name) = pad name /\ fmtname name = pad name.
Proof.
  intros Hn. assert (E : forall p, p = name -> (if (DIRSIZ <=? length p)%nat then p else p ++ replicate (DIRSIZ - length p) 32) = pad name).
  { intros p ->. unfold pad. destruct (Nat.leb_spec DIRSIZ (length name)) as [H|H]; [|done].
    replace (DIRSIZ - length name)%nat with 0%nat by lia. cbn. by rewrite app_nil_r. }
  split; apply E.
  - rewrite rev_app_distr. cbn [rev]. rewrite <- app_assoc, last_slash_acc by done. cbn [app last_slash]. rewrite Z.eqb_refl. apply app_nil_r.
  - rewrite <- (app_nil_r (rev name)), last_slash_acc by done. cbn [last_slash]. apply app_nil_r.
Qed.

(** The whole entries of a directory. *)
Fixpoint entries (n : nat) (l : list Z) : list (list Z) :=
  match n with
  | O => []
  | S n => if (length l <? 16)%nat then [] else take 16 l :: entries n (drop 16 l)
  end.

Definition line_text (name : list Z) (st : stat) : list Z :=
  format (ln "%s %d %d %d") [AStr name; AInt st.(st_type); AInt st.(st_ino); AInt st.(st_size)].

Definition entry_text (files : gmap path (stat * list Z)) (pa : path) (de : list Z) : list Z :=
  if de_inum de =? 0 then []
  else
    match files !! (pa ++ slash :: de_name de) with
    | Some (st, _) => line_text (pad (de_name de)) st
    | None => format (ln "ls: cannot stat %s") [AStr (pa ++ slash :: de_name de)]
    end.

(** What [ls] does for a path. *)
Definition listed (pa : path) (a : os) : os :=
  match a.(nodes) !! pa with
  | None => emit 2 (format (ln "ls: cannot open %s") [AStr pa]) a
  | Some (st, l) =>
      if st.(st_type) =? T_FILE then emit 1 (line_text (fmtname pa) st) a
      else if st.(st_type) =? T_DIR then
        emit 1 (if (496 <? length pa)%nat then format (ln "ls: path too long") []
                else concat (map (entry_text a.(nodes) pa) (entries (length l) l))) a
      else a
  end.

(** No entry of the directory has a slash in its name. *)
Definition plain_names (pa : path) (a : os) : Prop :=
  forall st l de, a.(nodes) !! pa = Some (st, l) -> de ∈ entries (length l) l -> slash ∉ de_name de.

Lemma entries_more n : forall m l, (length l <= n)%nat -> (length l <= m)%nat -> entries n l = entries m l.
Proof.
  induction n as [|n IH]; intros [|m] l Hn Hm; cbn [entries]; try done.
  - by destruct (Nat.ltb_spec (length l) 16); [|lia].
  - by destruct (Nat.ltb_spec (length l) 16); [|lia].
  - destruct (Nat.ltb_spec (length l) 16); [done|]. f_equal. apply IH; rewrite length_drop; lia.
Qed.

(** The texts with [sep] between them. *)
Fixpoint joined (sep : Z) (ts : list (list Z)) : list Z :=
  match ts with
  | [] => []
  | t :: ts => t ++ match ts with [] => [] | _ => sep :: joined sep ts end
  end.

Section Laws.

Context {W : Type} {sys : Sys W} {laws : SysLaws W}.

(** The output descriptors are open. *)
Definition ready (a : os) : Prop := is_Some (a.(outs) !! 1) /\ is_Some (a.(outs) !! 2).

(** From [w] the program ends in [r] with the system as [a]. *)
Definition runs {A} (m : uM W A) (w : W) (r : uval A) (a : os) : Prop := exists w', m w = (r, w') /\ view w' = a.

Lemma emit_nil fd a : emit fd [] a = a.
Proof.
  destruct a as [n f o]. unfold emit. cbn. f_equal. apply map_eq. intros i. destruct (decide (i = fd)) as [->|H].
  - rewrite lookup_alter_eq. destruct (o !! fd); cbn; by rewrite ?app_nil_r.
  - by rewrite lookup_alter_ne.
Qed.

Lemma emit_app fd l1 l2 a : emit fd l2 (emit fd l1 a) = emit fd (l1 ++ l2) a.
Proof.
  destruct a as [n f o]. unfold emit. cbn. f_equal. apply map_eq. intros i. destruct (decide (i = fd)) as [->|H].
  - rewrite !lookup_alter_eq. destruct (o !! fd); cbn; by rewrite <- ?app_assoc.
  - by rewrite !lookup_alter_ne.
Qed.

Lemma emit_outs fd l a f : is_Some ((emit fd l a).(outs) !! f) <-> is_Some (a.(outs) !! f).
Proof. cbn. apply lookup_alter_is_Some. Qed.

Lemma ready_emit fd l a : ready a -> ready (emit fd l a).
Proof. intros [H1 H2]. split; by apply emit_outs. Qed.

Lemma emit_size fd l a : size (emit fd l a).(outs) = size a.(outs).
Proof. cbn. rewrite <- !size_dom. by rewrite dom_alter_L. Qed.

Lemma runs_bind {A B} (m : uM W A) (f : A -> uM W B) w x a r b :
  runs m w (Val x) a -> (forall w', view w' = a -> runs (f x) w' r b) -> runs (x ← m; f x) w r b.
Proof. intros (w' & E & V) K. destruct (K w' V) as (w'' & E' & V'). exists w''. split; [|done]. unfold mbind, uM_bind. by rewrite E. Qed.

Lemma runs_call {A B} (g : W -> A * W) (f : A -> uM W B) w x w' r b :
  g w = (x, w') -> runs (f x) w' r b -> runs (x ← call g; f x) w r b.
Proof. intros E (w'' & E' & V'). exists w''. split; [|done]. unfold mbind, uM_bind, call. by rewrite E. Qed.

Lemma runs_exited {A B} (m : uM W A) (f : A -> uM W B) w a : runs m w Exited a -> runs (x ← m; f x) w Exited a.
Proof. intros (w' & E & V). exists w'. split; [|done]. unfold mbind, uM_bind. by rewrite E. Qed.

Lemma runs_ret {A} (x : A) w : runs (mret x) w (Val x) (view w).
Proof. by exists w. Qed.

Lemma runs_exit {A} w : runs (uexit : uM W A) w Exited (view w).
Proof. by exists w. Qed.

Lemma puts_runs fd l : forall w, is_Some ((view w).(outs) !! fd) -> runs (puts fd l) w (Val tt) (emit fd l (view w)).
Proof.
  induction l as [|c l IH]; intros w H; cbn [puts].
  - rewrite emit_nil. apply runs_ret.
  - destruct (write_law w fd [c] H) as (w' & E & V). eapply runs_call; [exact E|]. specialize (IH w').
    rewrite V, emit_app in IH. apply IH. by apply emit_outs.
Qed.

Lemma fprintf_runs fd f args w : is_Some ((view w).(outs) !! fd) -> runs (fprintf fd f args) w (Val tt) (emit fd (format f args) (view w)).
Proof. apply puts_runs. Qed.

(** ** cat *)

(** A file that is read to its end: what [cat] has written, and that nothing
    is left. *)
Lemma cat_loop_runs st fd l : forall fuel w, (length l < fuel)%nat -> ready (view w) -> (view w).(fds) !! fd = Some (st, l) ->
  runs (cat_loop fuel fd) w (Val 0) (set_fd fd (st, []) (emit 1 l (view w))).
Proof.
  induction l as [l IH] using (induction_ltof1 _ (@length Z)). unfold ltof in IH. intros [|fuel] w Hf Hr Hl; [lia|]. cbn [cat_loop].
  destruct (read_law w fd st l 512 Hl ltac:(lia)) as (k & w1 & E & V & K1 & K2 & K3 & _). eapply runs_call; [exact E|]. cbn [fst snd].
  destruct k as [|k].
  - assert (l = []) as -> by (destruct l; [done|exfalso; enough (0 < 0)%nat by lia; by apply K3]).
    rewrite emit_nil. rewrite drop_nil in V. rewrite <- V. change (0 <? Z.of_nat 0) with false. apply runs_ret.
  - destruct (Z.ltb_spec 0 (Z.of_nat (S k))); [|lia].
    destruct (write_law w1 1 (take (S k) l)) as (w2 & E2 & V2); [rewrite V; apply Hr|].
    eapply runs_call; [exact E2|]. rewrite length_take, Nat.min_l by done. rewrite Z.eqb_refl. cbn [negb].
    assert (Hd : (length (drop (S k) l) < length l)%nat) by (rewrite length_drop; lia).
    pose proof (IH (drop (S k) l) Hd fuel w2 ltac:(lia)) as R. rewrite V2, V in R.
    replace (set_fd fd (st, []) (emit 1 l (view w)))
      with (set_fd fd (st, []) (emit 1 (drop (S k) l) (emit 1 (take (S k) l) (set_fd fd (st, drop (S k) l) (view w))))).
    + apply R; [by apply ready_emit|]. cbn. apply lookup_insert_eq.
    + rewrite emit_app, take_drop. unfold set_fd, emit. cbn. by rewrite insert_insert_eq.
Qed.

Lemma cat_runs st fd l fuel w : (length l < fuel)%nat -> ready (view w) -> (view w).(fds) !! fd = Some (st, l) ->
  runs (cat fuel fd) w (Val tt) (set_fd fd (st, []) (emit 1 l (view w))).
Proof.
  intros Hf Hr Hl. eapply runs_bind; [by apply cat_loop_runs|]. intros w' V. change (0 <? 0) with false. cbv iota. rewrite <- V. apply runs_ret.
Qed.

(** A program that opens its arguments one after the other and treats each
    file with [body], as the loops of [cat] and [wc] do.  What it prints: for
    each file what [shown] says, up to the first argument that cannot be
    opened. *)
Fixpoint shown_all (shown : path -> list Z -> list Z) (msg : path -> list Z) (files : gmap path (stat * list Z)) (argv : list path) : list Z :=
  match argv with
  | [] => []
  | a :: argv => match files !! a with Some (_, l) => shown a l ++ shown_all shown msg files argv | None => msg a end
  end.

Lemma close_opened fd x y a l : a.(fds) !! fd = None -> drop_fd fd (set_fd fd y (emit 1 l (set_fd fd x a))) = emit 1 l a.
Proof.
  destruct a as [n f o]. intros H. cbn in H. unfold drop_fd, set_fd, emit. cbn. by rewrite insert_insert_eq, delete_insert_id.
Qed.

Section EachFile.

Variable loop : list path -> uM W unit.
Variable body : Z -> path -> uM W unit.
Variable fmt : list Z.
Variable shown : path -> list Z -> list Z.
Variable fuel : nat.

Hypothesis loop_nil : loop [] = uexit.
Hypothesis loop_cons : forall a argv, loop (a :: argv) = (fd ← call (os_open a 0);
  if fd <? 0 then _ ← fprintf 1 fmt [AStr a]; uexit else _ ← body fd a; _ ← call (os_close fd); loop argv).
Hypothesis body_runs : forall fd st l a w, (length l < fuel)%nat -> ready (view w) -> (view w).(fds) !! fd = Some (st, l) ->
  runs (body fd a) w (Val tt) (set_fd fd (st, []) (emit 1 (shown a l) (view w))).

Lemma each_file_runs argv : forall w, ready (view w) -> (size (view w).(fds) + size (view w).(outs) < NOFILE)%nat ->
  (forall a st l, a ∈ argv -> (view w).(nodes) !! a = Some (st, l) -> (length l < fuel)%nat) ->
  runs (loop argv) w Exited (emit 1 (shown_all shown (fun a => format fmt [AStr a]) (view w).(nodes) argv) (view w)).
Proof.
  induction argv as [|a argv IH]; intros w Hr Hs Hf.
  { rewrite loop_nil. cbn [shown_all]. rewrite emit_nil. apply runs_exit. }
  rewrite loop_cons. cbn [shown_all]. destruct ((view w).(nodes) !! a) as [[st l]|] eqn:En.
  - destruct (open_law w a _ En Hs) as (fd & w1 & E1 & Hfd & Hn & V1). eapply runs_call; [exact E1|].
    destruct (Z.ltb_spec fd 0); [lia|].
    eapply runs_bind; [apply (body_runs fd st l); [apply (Hf a st l); [by left|done]|by rewrite V1|rewrite V1; apply lookup_insert_eq]|].
    intros w2 V2. rewrite V1 in V2. destruct (close_law w2 fd) as (r & w3 & E3 & V3); [rewrite V2; cbn; rewrite lookup_insert_eq; by eexists|].
    eapply runs_call; [exact E3|]. rewrite V2, close_opened in V3 by done. specialize (IH w3). rewrite V3 in IH.
    rewrite emit_app in IH. apply IH; [by apply ready_emit|by rewrite emit_size|]. intros b st' l' Hb. apply Hf. by right.
  - destruct (open_fail_law w a En) as (r & w1 & E1 & Hlt & V1). eapply runs_call; [exact E1|]. destruct (Z.ltb_spec r 0); [|lia].
    eapply runs_bind; [apply fprintf_runs; rewrite V1; apply Hr|]. intros w2 V2. rewrite V1 in V2. rewrite <- V2. apply runs_exit.
Qed.

End EachFile.

(** [cat] copies its arguments to its output.  Whatever short reads the
    kernel makes, what is written is the contents of the files in order, up to
    the first that cannot be opened, which is reported; without arguments it
    is all that can be read from descriptor 0.  No file and no other
    descriptor is changed, and every descriptor that was opened is closed. *)
Theorem cat_spec fuel argv w : ready (view w) -> (size (view w).(fds) + size (view w).(outs) < NOFILE)%nat ->
  (forall a st l, a ∈ argv -> (view w).(nodes) !! a = Some (st, l) -> (length l < fuel)%nat) ->
  (argv <> [] -> runs (cat_main fuel argv) w Exited
    (emit 1 (shown_all (fun _ l => l) (fun a => format (ln "cat: cannot open %s") [AStr a]) (view w).(nodes) argv) (view w))) /\
  (forall st l, argv = [] -> (view w).(fds) !! 0 = Some (st, l) -> (length l < fuel)%nat ->
    runs (cat_main fuel argv) w Exited (set_fd 0 (st, []) (emit 1 l (view w)))).
Proof.
  intros Hr Hs Hf. split.
  - intros Hne. destruct argv as [|a argv]; [done|]. apply (each_file_runs (cat_args fuel) (fun fd _ => cat fuel fd) (ln "cat: cannot open %s") (fun _ l => l) fuel); try done.
    intros fd st l b w'. apply cat_runs.
  - intros st l -> H0 Hl. eapply runs_bind; [by apply (cat_runs st)|]. intros w' V. rewrite <- V. apply runs_exit.
Qed.

(** ** wc *)

Lemma wc_loop_runs st fd l : forall fuel w s, (length l < fuel)%nat -> (view w).(fds) !! fd = Some (st, l) ->
  runs (wc_loop fuel fd s) w (Val (0, fold_left wc_char l s)) (set_fd fd (st, []) (view w)).
Proof.
  induction l as [l IH] using (induction_ltof1 _ (@length Z)). unfold ltof in IH. intros [|fuel] w s Hf Hl; [lia|]. cbn [wc_loop].
  destruct (read_law w fd st l 512 Hl ltac:(lia)) as (k & w1 & E & V & K1 & K2 & K3 & _). eapply runs_call; [exact E|]. cbn [fst snd].
  destruct k as [|k].
  - assert (l = []) as -> by (destruct l; [done|exfalso; enough (0 < 0)%nat by lia; by apply K3]).
    rewrite drop_nil in V. rewrite <- V. change (0 <? Z.of_nat 0) with false. apply runs_ret.
  - destruct (Z.ltb_spec 0 (Z.of_nat (S k))); [|lia].
    assert (Hd : (length (drop (S k) l) < length l)%nat) by (rewrite length_drop; lia).
    pose proof (IH (drop (S k) l) Hd fuel w1 (fold_left wc_char (take (S k) l) s) ltac:(lia)) as R. rewrite V in R.
    rewrite <- fold_left_app, take_drop in R. unfold set_fd in R |- *. cbn [nodes fds outs] in R. rewrite insert_insert_eq in R.
    apply R. apply lookup_insert_eq.
Qed.

(** The line that [wc] prints for a file. *)
Definition wc_line (name : path) (l : list Z) : list Z :=
  format (ln "%d %d %d %s") [AInt (u32 (Z.of_nat (newlines l))); AInt (u32 (Z.of_nat (words l))); AInt (u32 (Z.of_nat (length l))); AStr name].

Lemma wc_runs st fd l name fuel w : (length l < fuel)%nat -> ready (view w) -> (view w).(fds) !! fd = Some (st, l) ->
  runs (wc fuel fd name) w (Val tt) (set_fd fd (st, []) (emit 1 (wc_line name l) (view w))).
Proof.
  intros Hf Hr Hl. eapply runs_bind; [by apply (wc_loop_runs st fd l)|]. intros w' V. cbn [fst snd]. change (0 <? 0) with false. cbv iota.
  destruct (wc_fold l (mk_wcst 0 0 0 false)) as (iw & ->); [by vm_compute..|]. cbn [wl ww wch inword]. rewrite !Z.add_0_l, begun_words.
  change (set_fd fd (st, []) (emit 1 (wc_line name l) (view w))) with (emit 1 (wc_line name l) (set_fd fd (st, []) (view w))).
  rewrite <- V. unfold wc_line. apply fprintf_runs. rewrite V. apply Hr.
Qed.

(** [wc] counts the lines, the words and the bytes of each of its
    arguments, the words being the pieces between white space that are not
    empty, however the reads cut the file; it stops at the first argument that
    cannot be opened, which is reported. *)
Theorem wc_spec fuel argv w : ready (view w) -> (size (view w).(fds) + size (view w).(outs) < NOFILE)%nat ->
  (forall a st l, a ∈ argv -> (view w).(nodes) !! a = Some (st, l) -> (length l < fuel)%nat) ->
  (argv <> [] -> runs (wc_main fuel argv) w Exited
    (emit 1 (shown_all wc_line (fun a => format (ln "wc: cannot open %s") [AStr a]) (view w).(nodes) argv) (view w))) /\
  (forall st l, argv = [] -> (view w).(fds) !! 0 = Some (st, l) -> (length l < fuel)%nat ->
    runs (wc_main fuel argv) w Exited (set_fd 0 (st, []) (emit 1 (wc_line [] l) (view w)))).
Proof.
  intros Hr Hs Hf. split.
  - intros Hne. destruct argv as [|a argv]; [done|].
    apply (each_file_runs (wc_args fuel) (wc fuel) (ln "wc: cannot open %s") wc_line fuel); try done. intros fd st l b w'. apply wc_runs.
  - intros st l -> H0 Hl. eapply runs_bind; [by apply (wc_runs st)|]. intros w' V. rewrite <- V. apply runs_exit.
Qed.

(** ** ls *)

Lemma ustat_runs n w : (size (view w).(fds) + size (view w).(outs) < NOFILE)%nat ->
  runs (ustat n) w (Val (match (view w).(nodes) !! n with Some (st, _) => (0, st) | None => (-1, mk_stat 0 0 0) end)) (view w).
Proof.
  intros Hs. destruct ((view w).(nodes) !! n) as [[st l]|] eqn:En.
  - destruct (open_law w n _ En Hs) as (fd & w1 & E1 & Hfd & Hn & V1). eapply runs_call; [exact E1|]. destruct (Z.ltb_spec fd 0); [lia|].
    assert (Hl : (view w1).(fds) !! fd = Some (st, l)) by (rewrite V1; apply lookup_insert_eq).
    destruct (fstat_law w1 fd st l Hl) as (w2 & E2 & V2). eapply runs_call; [exact E2|].
    destruct (close_law w2 fd) as (r & w3 & E3 & V3); [rewrite V2, Hl; by eexists|]. eapply runs_call; [exact E3|].
    assert (V : view w3 = view w); [|rewrite <- V; apply runs_ret].
    rewrite V3, V2, V1. destruct (view w) as [no f o]. unfold drop_fd, set_fd. cbn in *. by rewrite delete_insert_id.
  - destruct (open_fail_law w n En) as (r & w1 & E1 & Hlt & V1). eapply runs_call; [exact E1|]. destruct (Z.ltb_spec r 0); [|lia].
    rewrite <- V1. apply runs_ret.
Qed.

Lemma entry_runs pa de w : ready (view w) -> (size (view w).(fds) + size (view w).(outs) < NOFILE)%nat -> slash ∉ de_name de -> de_inum de <> 0 ->
  let buf := pa ++ slash :: de_name de in
  forall (f : uM W unit) r b, (forall w', view w' = emit 1 (entry_text (view w).(nodes) pa de) (view w) -> runs f w' r b) ->
  runs (s ← ustat buf; _ ← (if s.1 <? 0 then fprintf 1 (ln "ls: cannot stat %s") [AStr buf] else ls_line (fmtname buf) s.2); f) w r b.
Proof.
  intros Hr Hs Hn Hi buf f r b K. pose proof (ustat_runs buf w Hs) as U. unfold entry_text in K.
  rewrite (proj2 (Z.eqb_neq _ _) Hi) in K. fold buf in K.
  destruct ((view w).(nodes) !! buf) as [[st l]|]; (eapply runs_bind; [exact U|]); intros w1 V1; cbn [fst snd]; rewrite <- V1 in K.
  - change (0 <? 0) with false. cbv iota. replace (fmtname buf) with (pad (de_name de)) by (symmetry; by apply fmtname_last).
    eapply runs_bind; [|exact K]. unfold line_text, ls_line. apply fprintf_runs. rewrite V1. apply Hr.
  - change (-1 <? 0) with true. cbv iota. eapply runs_bind; [|exact K]. apply fprintf_runs. rewrite V1. apply Hr.
Qed.

Lemma ls_loop_runs pa fd st l : st.(st_type) = T_DIR -> forall fuel w, (length l < fuel)%nat -> ready (view w) ->
  (size (view w).(fds) + size (view w).(outs) < NOFILE)%nat -> (view w).(fds) !! fd = Some (st, l) ->
  (forall de, de ∈ entries (length l) l -> slash ∉ de_name de) ->
  runs (ls_loop fuel fd pa) w (Val tt) (set_fd fd (st, []) (emit 1 (concat (map (entry_text (view w).(nodes) pa) (entries (length l) l))) (view w))).
Proof.
  intros Ht. induction l as [l IH] using (induction_ltof1 _ (@length Z)). unfold ltof in IH. intros [|fuel] w Hf Hr Hs Hl Hn; [lia|]. cbn [ls_loop].
  destruct (read_law w fd st l 16 Hl ltac:(lia)) as (k & w1 & E & V & _ & _ & _ & K4). specialize (K4 (or_intror Ht)).
  eapply runs_call; [exact E|]. cbn [fst snd]. destruct (decide (length l < 16)%nat) as [Hlt|Hge].
  - rewrite Nat.min_r in K4 by lia. subst k. destruct (Z.eqb_spec (Z.of_nat (length l)) 16); [lia|].
    replace (entries (length l) l) with (@nil (list Z)) by (destruct (length l) eqn:El; [done|]; cbn [entries]; rewrite El; by destruct (Nat.ltb_spec (S n0) 16); [|lia]).
    cbn [map concat]. rewrite emit_nil. rewrite drop_all in V. rewrite <- V. apply runs_ret.
  - rewrite Nat.min_l in K4 by lia. subst k. change (Z.of_nat 16 =? 16) with true. cbv iota.
    assert (El : entries (length l) l = take 16 l :: entries (length (drop 16 l)) (drop 16 l)).
    { destruct (length l) as [|n] eqn:En; [lia|]. cbn [entries]. rewrite En. destruct (Nat.ltb_spec (S n) 16); [lia|].
      f_equal. apply entries_more; rewrite length_drop; lia. }
    rewrite El in Hn |- *. assert (Hd : (length (drop 16 l) < length l)%nat) by (rewrite length_drop; lia).
    assert (Hz : size (view w1).(fds) = size (view w).(fds)).
    { rewrite V. cbn. rewrite <- !size_dom, dom_insert_lookup_L; [done|by eexists]. }
    assert (R : forall w2, view w2 = emit 1 (entry_text (view w).(nodes) pa (take 16 l)) (view w1) ->
      runs (ls_loop fuel fd pa) w2 (Val tt)
        (set_fd fd (st, []) (emit 1 (concat (map (entry_text (view w).(nodes) pa) (take 16 l :: entries (length (drop 16 l)) (drop 16 l)))) (view w)))).
    { intros w2 V2. pose proof (IH (drop 16 l) Hd fuel w2 ltac:(lia)) as R. rewrite V2 in R. rewrite emit_size in R.
      change (fds (emit 1 ?t ?v)) with (fds v) in R. change (nodes (emit 1 ?t ?v)) with (nodes v) in R. rewrite Hz, V in R.
      cbn [map concat]. rewrite emit_app in R. revert R. unfold set_fd, emit. cbn [nodes fds outs]. rewrite insert_insert_eq. intros R. apply R.
      - split; cbn; apply lookup_alter_is_Some; apply Hr.
      - exact Hs.
      - apply lookup_insert_eq.
      - intros de Hde. apply Hn. by right. }
    destruct (Z.eqb_spec (de_inum (take 16 l)) 0) as [Ez|Ez].
    + apply R. unfold entry_text. rewrite Ez. cbn [Z.eqb]. by rewrite emit_nil.
    + apply entry_runs; [by rewrite V|rewrite Hz, V; exact Hs|apply Hn; by left|done|]. replace (nodes (view w1)) with (nodes (view w)) by by rewrite V. exact R.
Qed.

Lemma ls_runs fuel pa w : ready (view w) -> (size (view w).(fds) + size (view w).(outs) + 1 < NOFILE)%nat -> plain_names pa (view w) ->
  (forall st l, (view w).(nodes) !! pa = Some (st, l) -> (length l < fuel)%nat) ->
  runs (ls fuel pa) w (Val tt) (listed pa (view w)).
Proof.
  intros Hr Hs Hn Hf. unfold ls, listed. destruct ((view w).(nodes) !! pa) as [[st l]|] eqn:En.
  2: { destruct (open_fail_law w pa En) as (r & w1 & E1 & Hlt & V1). eapply runs_call; [exact E1|]. destruct (Z.ltb_spec r 0); [|lia].
       rewrite <- V1. apply fprintf_runs. rewrite V1. apply Hr. }
  destruct (open_law w pa _ En ltac:(lia)) as (fd & w1 & E1 & Hfd & Ho & V1). eapply runs_call; [exact E1|]. destruct (Z.ltb_spec fd 0); [lia|].
  assert (Hl : (view w1).(fds) !! fd = Some (st, l)) by (rewrite V1; apply lookup_insert_eq).
  destruct (fstat_law w1 fd st l Hl) as (w2 & E2 & V2). eapply runs_call; [exact E2|]. cbn [fst snd]. change (0 <? 0) with false. cbv iota.
  assert (Hcl : forall t y w', view w' = set_fd fd y (emit 1 t (set_fd fd (st, l) (view w))) ->
    runs (_ ← call (os_close fd); mret tt) w' (Val tt) (emit 1 t (view w))).
  { intros t y w' V'. destruct (close_law w' fd) as (r & w3 & E3 & V3); [rewrite V'; cbn; rewrite lookup_insert_eq; by eexists|].
    eapply runs_call; [exact E3|]. rewrite V', close_opened in V3 by done. rewrite <- V3. apply runs_ret. }
  assert (Hsame : forall t, emit 1 t (view w1) = set_fd fd (st, l) (emit 1 t (set_fd fd (st, l) (view w)))).
  { intros t. rewrite V1. unfold emit, set_fd. cbn. by rewrite insert_insert_eq. }
  assert (Hr1 : is_Some (outs (view w2) !! 1)) by (rewrite V2, V1; apply Hr).
  rewrite <- V2 in Hsame. destruct (st_type st =? T_FILE).
  - eapply runs_bind; [by apply fprintf_runs|]. intros w3 V3. rewrite Hsame in V3. by eapply Hcl.
  - destruct (Z.eqb_spec (st_type st) T_DIR) as [Et|Et].
    + unfold DIRSIZ. replace (512 <? length pa + 1 + 14 + 1)%nat with (496 <? length pa)%nat
        by (destruct (Nat.ltb_spec 496 (length pa)), (Nat.ltb_spec 512 (length pa + 1 + 14 + 1)); lia || done).
      destruct (496 <? length pa)%nat.
      * eapply runs_bind; [by apply fprintf_runs|]. intros w3 V3. rewrite Hsame in V3. by eapply Hcl.
      * eapply runs_bind; [apply (ls_loop_runs pa fd st l Et)|].
        -- by apply (Hf st).
        -- rewrite V2, V1. exact Hr.
        -- rewrite V2, V1. cbn. rewrite map_size_insert_None by done. lia.
        -- by rewrite V2.
        -- intros de. by apply (Hn st l).
        -- rewrite V2, V1. intros w3 V3. by eapply Hcl.
    + eapply runs_bind; [apply runs_ret|]. intros w3 V3. rewrite <- (emit_nil 1 (view w)). eapply Hcl. rewrite <- Hsame, emit_nil. exact V3.
Qed.

Lemma listed_nodes pa a : (listed pa a).(nodes) = a.(nodes).
Proof. unfold listed. destruct (a.(nodes) !! pa) as [[st l]|]; [|done]. by repeat destruct (_ =? _). Qed.

Lemma listed_fds pa a : (listed pa a).(fds) = a.(fds).
Proof. unfold listed. destruct (a.(nodes) !! pa) as [[st l]|]; [|done]. by repeat destruct (_ =? _). Qed.

Lemma listed_outs pa a : (ready a -> ready (listed pa a)) /\ size (listed pa a).(outs) = size a.(outs).
Proof.
  unfold listed. destruct (a.(nodes) !! pa) as [[st l]|]; repeat destruct (_ =? _); split; try done; apply ready_emit || apply emit_size.
Qed.

Lemma ls_args_runs fuel argv : forall w, ready (view w) -> (size (view w).(fds) + size (view w).(outs) + 1 < NOFILE)%nat ->
  (forall a, a ∈ argv -> plain_names a (view w) /\ forall st l, (view w).(nodes) !! a = Some (st, l) -> (length l < fuel)%nat) ->
  runs (ls_args fuel argv) w Exited (fold_left (fun a pa => listed pa a) argv (view w)).
Proof.
  induction argv as [|a argv IH]; intros w Hr Hs Hp; cbn [ls_args fold_left]; [apply runs_exit|].
  destruct (Hp a ltac:(by left)) as [Hn Hf]. eapply runs_bind; [by apply ls_runs|]. intros w' V. rewrite <- V. destruct (listed_outs a (view w)) as [L1 L2].
  apply IH; rewrite V.
  - by apply L1.
  - rewrite L2, listed_fds. exact Hs.
  - intros b Hb. unfold plain_names. rewrite listed_nodes. apply Hp. by right.
Qed.

(** [ls] lists its arguments, or the current directory without any: the
    line of a file has its last name, in a column of its own, its type, its
    number and its size; for a directory there is such a line for each entry
    in use, with what the name in that directory leads to.  What cannot be
    opened is reported.  No file is changed and every descriptor is closed. *)
Theorem ls_spec fuel argv w : ready (view w) -> (size (view w).(fds) + size (view w).(outs) + 1 < NOFILE)%nat ->
  let ps := match argv with [] => [txt "."] | _ => argv end in
  (forall a, a ∈ ps -> plain_names a (view w) /\ forall st l, (view w).(nodes) !! a = Some (st, l) -> (length l < fuel)%nat) ->
  runs (ls_main fuel argv) w Exited (fold_left (fun a pa => listed pa a) ps (view w)).
Proof.
  intros Hr Hs ps Hp. destruct argv as [|a argv]; [|by apply ls_args_runs].
  destruct (Hp (txt ".") ltac:(by left)) as [Hn Hf]. eapply runs_bind; [by apply ls_runs|]. intros w' V. cbn [ps fold_left]. rewrite <- V. apply runs_exit.
Qed.

(** ** echo *)

Lemma format_ss a b : format (txt "%s%s") [AStr a; AStr b] = a ++ b.
Proof. transitivity (a ++ b ++ []); [reflexivity|]. by rewrite app_nil_r. Qed.

(** [echo] writes its arguments with a blank between them and a newline at
    the end, and nothing without arguments. *)
Theorem echo_spec argv w : ready (view w) ->
  runs (echo_main argv) w Exited (emit 1 (match argv with [] => [] | _ => joined 32 argv ++ [10] end) (view w)).
Proof.
  revert w. induction argv as [|a argv IH]; intros w Hr; cbn [echo_main].
  { rewrite emit_nil. apply runs_exit. }
  eapply runs_bind; [apply fprintf_runs, Hr|]. rewrite format_ss. intros w1 V1. specialize (IH w1). rewrite V1, emit_app in IH.
  specialize (IH (ready_emit _ _ _ Hr)). revert IH. destruct argv as [|b argv].
  - cbn [joined]. by rewrite !app_nil_r.
  - change (joined 32 (a :: b :: argv)) with (a ++ 32 :: joined 32 (b :: argv)). by rewrite <- !app_assoc.
Qed.

End Laws.

(** ** A system in memory *)

Module UtilsDemo.

(** The console gives at most three bytes at a time. *)
Definition demo_read (fd : Z) (n : nat) (a : os) : (Z * list Z) * os :=
  match a.(fds) !! fd with
  | None => ((-1, []), a)
  | Some (st, l) =>
      let k := Nat.min (if (st.(st_type) =? T_FILE) || (st.(st_type) =? T_DIR) then n else Nat.min n 3) (length l) in
      ((Z.of_nat k, take k l), set_fd fd (st, drop k l) a)
  end.

Definition demo_write (fd : Z) (l : list Z) (a : os) : Z * os :=
  match a.(outs) !! fd with None => (-1, a) | Some _ => (Z.of_nat (length l), emit fd l a) end.

Definition unused (a : os) (fd : Z) : bool := bool_decide (a.(fds) !! fd = None /\ a.(outs) !! fd = None).

Definition demo_open (p : list Z) (m : Z) (a : os) : Z * os :=
  match a.(nodes) !! p, List.filter (unused a) (seqZ 0 16) with
  | Some x, fd :: _ => (fd, set_fd fd x a)
  | _, _ => (-1, a)
  end.

Definition demo_close (fd : Z) (a : os) : Z * os :=
  match a.(fds) !! fd with None => (-1, a) | Some _ => (0, drop_fd fd a) end.

Definition demo_fstat (fd : Z) (a : os) : (Z * stat) * os :=
  match a.(fds) !! fd with None => ((-1, mk_stat 0 0 0), a) | Some (st, _) => ((0, st), a) end.

#[export] Instance demo_sys : Sys os := {|
  os_open := demo_open; os_close := demo_close; os_read := demo_read; os_write := demo_write; os_fstat := demo_fstat
|}.

Lemma unused_exists a : (size a.(fds) + size a.(outs) < 16)%nat -> List.filter (unused a) (seqZ 0 16) <> [].
Proof.
  intros Hs E. assert (Hall : (list_to_set (seqZ 0 16) : gset Z) ⊆ dom a.(fds) ∪ dom a.(outs)).
  { intros x Hx. apply elem_of_list_to_set, list_elem_of_In in Hx. apply elem_of_union. rewrite !elem_of_dom.
    destruct (a.(fds) !! x) eqn:E1; [left; by eexists|]. destruct (a.(outs) !! x) eqn:E2; [right; by eexists|].
    exfalso. assert (Hin : In x (List.filter (unused a) (seqZ 0 16))); [|by rewrite E in Hin].
    apply filter_In. split; [done|]. unfold unused. by apply bool_decide_eq_true. }
  apply subseteq_size in Hall. rewrite size_list_to_set in Hall by (apply NoDup_seqZ).
  pose proof (size_union_alt (dom a.(fds)) (dom a.(outs))) as U. assert (size (dom a.(outs) ∖ dom a.(fds)) <= size (dom a.(outs)))%nat by (apply subseteq_size, subseteq_difference_l; reflexivity).
  rewrite !size_dom in *. rewrite U in Hall. change (length (seqZ 0 16)) with 16%nat in Hall. lia.
Qed.

#[export] Instance demo_laws : SysLaws os.
Proof.
  refine {| view := fun a => a |}.
  - intros w fd st l n E Hn. cbn. unfold demo_read. rewrite E. do 2 eexists. split; [reflexivity|]. split_and!; [done| | | |].
    + destruct (_ || _); lia.
    + lia.
    + intros Hl. destruct l; [done|]. cbn [length]. destruct (_ || _); lia.
    + intros [-> | ->]; done.
  - intros w fd l [o E]. cbn. unfold demo_write. rewrite E. by eexists.
  - intros w p x E Hs. cbn. unfold demo_open. rewrite E. pose proof (unused_exists w Hs) as Hne.
    destruct (List.filter (unused w) (seqZ 0 16)) as [|fd r] eqn:Ef; [done|]. exists fd, (set_fd fd x w).
    assert (Hin : In fd (List.filter (unused w) (seqZ 0 16))) by (rewrite Ef; by left). apply filter_In in Hin as [H1 H2].
    unfold unused in H2. apply bool_decide_eq_true in H2 as [H2 _]. apply list_elem_of_In, elem_of_seqZ in H1. split_and!; done || lia.
  - intros w p E. cbn. unfold demo_open. rewrite E. by exists (-1), w.
  - intros w fd [x E]. cbn. unfold demo_close. rewrite E. by do 2 eexists.
  - intros w fd st l E. cbn. unfold demo_fstat. rewrite E. by eexists.
Defined.

Definition a_txt : list Z := txt "one two" ++ [10; 9] ++ txt "three" ++ [10].

Definition entry (n : Z) (name : list Z) : list Z := [n; 0] ++ name ++ replicate (14 - length name) 0.

Definition dir : list Z := entry 1 (txt ".") ++ entry 0 (txt "old") ++ entry 2 (txt "a") ++ entry 3 (txt "gone").

Definition w0 : os := mk_os
  (<[txt "a" := (mk_stat T_FILE 2 15, a_txt)]> (<[txt "." := (mk_stat T_DIR 1 64, dir)]>
    (<[txt "./a" := (mk_stat T_FILE 2 15, a_txt)]> (<[txt "./." := (mk_stat T_DIR 1 64, dir)]> ∅))))
  {[0 := (mk_stat 3 1 0, txt "typed in" ++ [10])]} (<[1 := []]> {[2 := []]}).

Lemma w0_ready : ready (view w0).
Proof. split; by eexists. Qed.

Lemma w0_room : (size (view w0).(fds) + size (view w0).(outs) + 1 < NOFILE)%nat.
Proof. vm_compute. lia. Qed.

Lemma w0_short a st l : (view w0).(nodes) !! a = Some (st, l) -> (length l < 100)%nat.
Proof.
  intros E. change (nodes (view w0)) with (nodes w0) in E. unfold w0 in E. cbn [nodes] in E.
  repeat (apply lookup_insert_Some in E as [[_ E] | [_ E]]; [injection E as _ <-; vm_compute; lia|]). by rewrite lookup_empty in E.
Qed.

Lemma cat_spec_witness :
  runs (cat_main 100 [txt "a"; txt "b"; txt "a"]) w0 Exited (emit 1 (a_txt ++ ln "cat: cannot open b") (view w0)).
Proof.
  assert (E : shown_all (fun _ l => l) (fun a => format (ln "cat: cannot open %s") [AStr a]) (view w0).(nodes) [txt "a"; txt "b"; txt "a"]
    = a_txt ++ ln "cat: cannot open b") by (vm_compute; reflexivity).
  rewrite <- E. apply (cat_spec 100 [txt "a"; txt "b"; txt "a"] w0 w0_ready); [pose proof w0_room; lia|intros a st l _; apply w0_short|done].
Defined.

Lemma wc_spec_witness :
  runs (wc_main 100 []) w0 Exited (set_fd 0 (mk_stat 3 1 0, []) (emit 1 (ln "1 2 9 ") (view w0))).
Proof.
  assert (E : wc_line [] (txt "typed in" ++ [10]) = ln "1 2 9 ") by (vm_compute; reflexivity).
  rewrite <- E. apply (wc_spec 100 [] w0 w0_ready); [pose proof w0_room; lia|intros a st l _; apply w0_short|done|vm_compute; reflexivity|vm_compute; lia].
Defined.

Lemma w0_plain : plain_names (txt ".") (view w0).
Proof.
  intros st l de E Hde. assert (E0 : (view w0).(nodes) !! txt "." = Some (mk_stat T_DIR 1 64, dir)) by (vm_compute; reflexivity).
  rewrite E0 in E. injection E as <- <-. apply list_elem_of_In in Hde.
  assert (F : forallb (fun de => negb (existsb (Z.eqb slash) (de_name de))) (entries (length dir) dir) = true) by (vm_compute; reflexivity).
  rewrite forallb_forall in F. specialize (F _ Hde). intros Hin. apply list_elem_of_In in Hin. apply negb_true_iff in F.
  rewrite (proj2 (existsb_exists _ _)) in F; [done|]. exists slash. split; [done|apply Z.eqb_refl].
Qed.

Lemma ls_spec_witness :
  runs (ls_main 100 []) w0 Exited
    (emit 1 (ln ".              1 1 64" ++ ln "a              2 2 15" ++ ln "ls: cannot stat ./gone") (view w0)).
Proof.
  assert (E : fold_left (fun a pa => listed pa a) [txt "."] (view w0)
    = emit 1 (ln ".              1 1 64" ++ ln "a              2 2 15" ++ ln "ls: cannot stat ./gone") (view w0)) by (vm_compute; reflexivity).
  rewrite <- E. apply (ls_spec 100 [] w0 w0_ready w0_room).
  intros a Ha. apply elem_of_cons in Ha as [-> | Ha]; [|by apply elem_of_nil in Ha]. split; [apply w0_plain|apply w0_short].
Defined.

End UtilsDemo.
