(* ===== verification/Console.v ===== *)
(** * The console (console.c, kbd.c, uart.c)

    Keys that the keyboard and the serial line deliver are edited in a ring
    of [INPUT_BUF] bytes and echoed to the screen; [consoleread] takes what
    was entered from the other end.  [console_refines] compares any sequence
    of interrupts and reads with a line editor on lists, in which the ring,
    its wrapping counters and the screen do not appear. *)

From S2P Require Import Prelude Ring.

Definition INPUT_BUF : Z := 128.
Definition BACKSPACE : Z := 256.

(** [C(x)], for the code [x] of a letter. *)
Definition Ctl (x : Z) : Z := x - 64.
Definition newline : Z := 10.

(** [input], the cells of the screen, the cursor register, the bytes sent on
    the serial line if there is one, and how often readers were woken. *)
Record cons := mk_cons {
  i_buf : list Z;
  i_r : Z;
  i_w : Z;
  i_e : Z;
  crt : list Z;
  cursor : Z;
  uart : bool;
  serial : list Z;
  wakes : nat
}.

Definition with_screen (s : cons) (cells : list Z) (pos : Z) : cons :=
  mk_cons s.(i_buf) s.(i_r) s.(i_w) s.(i_e) cells pos s.(uart) s.(serial) s.(wakes).
Definition with_serial (s : cons) (out : list Z) : cons :=
  mk_cons s.(i_buf) s.(i_r) s.(i_w) s.(i_e) s.(crt) s.(cursor) s.(uart) out s.(wakes).
Definition with_e (s : cons) (e : Z) : cons :=
  mk_cons s.(i_buf) s.(i_r) s.(i_w) e s.(crt) s.(cursor) s.(uart) s.(serial) s.(wakes).
Definition with_r (s : cons) (r : Z) : cons :=
  mk_cons s.(i_buf) r s.(i_w) s.(i_e) s.(crt) s.(cursor) s.(uart) s.(serial) s.(wakes).
Definition store_key (s : cons) (c : Z) : cons :=
  mk_cons (<[Z.to_nat (s.(i_e) mod INPUT_BUF) := u8 c]> s.(i_buf)) s.(i_r) s.(i_w) (u32 (s.(i_e) + 1))
    s.(crt) s.(cursor) s.(uart) s.(serial) s.(wakes).
Definition commit_line (s : cons) : cons :=
  mk_cons s.(i_buf) s.(i_r) s.(i_e) s.(i_e) s.(crt) s.(cursor) s.(uart) s.(serial) (S s.(wakes)).

(** ** Output *)

(** The cells of the screen memory that the code may touch; a store outside
    is an error. *)
Definition CELLS : Z := 2000.

Definition set_cell (cells : list Z) (pos v : Z) : outcome (list Z) :=
  if (0 <=? pos) && (pos <? CELLS) then Ok (<[Z.to_nat pos := v]> cells) else Panic "outside the screen".

(** [memmove(crt, crt+80, ..)] and [memset(crt+pos, 0, ..)]. *)
Definition scroll (cells : list Z) (pos : Z) : list Z :=
  let moved := take 1840 (drop 80 cells) ++ drop 1840 cells in
  take (Z.to_nat pos) moved ++ replicate (Z.to_nat (24 * 80 - pos)) 0 ++ drop 1920 moved.

Definition cgaputc (c : Z) : kM cons unit := fun s =>
  let pos := s.(cursor) in
  put ← (if c =? newline then Ok (s.(crt), pos + (80 - Z.rem pos 80))
         else if c =? BACKSPACE then Ok (s.(crt), if 0 <? pos then pos - 1 else pos)
         else cells ← set_cell s.(crt) pos (Z.lor (Z.land c 255) 1792); Ok (cells, pos + 1));
  let '(cells, pos) := put in
  if (pos <? 0) || (25 * 80 <? pos) then Panic "pos under/overflow"
  else
    let '(cells, pos) := if 24 <=? Z.quot pos 80 then (scroll cells (pos - 80), pos - 80) else (cells, pos) in
    cells ← set_cell cells pos (Z.lor 32 1792);
    Ok (tt, with_screen s cells (Z.lor (Z.shiftl (u8 (Z.shiftr pos 8)) 8) (u8 pos))).

Definition uartputc (c : Z) : kM cons unit :=
  kmodify (fun s => if s.(uart) then with_serial s (s.(serial) ++ [u8 c]) else s).

Definition consputc (c : Z) : kM cons unit :=
  _ ← (if c =? BACKSPACE then
         _ ← uartputc 8;
         _ ← uartputc 32;
         uartputc 8
       else uartputc c);
  cgaputc c.

Fixpoint consolewrite_loop (buf : list Z) : kM cons unit :=
  match buf with
  | [] => mret tt
  | c :: buf =>
      _ ← consputc (Z.land c 255);
      consolewrite_loop buf
  end.

Definition consolewrite (buf : list Z) : kM cons Z :=
  _ ← consolewrite_loop buf;
  mret (Z.of_nat (length buf)).

(** ** Input *)

(** The loop of control-U: rub out the line that is being edited. *)
Fixpoint kill_line (fuel : nat) : kM cons unit := fun s =>
  match fuel with
  | O => Panic "out of fuel"
  | S fuel =>
      if negb (s.(i_e) =? s.(i_w))
         && negb (nth (Z.to_nat (u32 (s.(i_e) - 1) mod INPUT_BUF)) s.(i_buf) 0 =? newline)
      then (_ ← kput (with_e s (u32 (s.(i_e) - 1))); _ ← consputc BACKSPACE; kill_line fuel) s
      else Ok (tt, s)
  end.

(** One key; the result tells whether the processes are to be listed. *)
Definition consoleintr_key (c : Z) : kM cons bool :=
  s ← kget;
  if c =? Ctl 80 then mret true
  else if c =? Ctl 85 then _ ← kill_line (S (Z.to_nat INPUT_BUF)); mret false
  else if (c =? Ctl 72) || (c =? 127) then
    if negb (s.(i_e) =? s.(i_w)) then
      _ ← kput (with_e s (u32 (s.(i_e) - 1)));
      _ ← consputc BACKSPACE;
      mret false
    else mret false
  else if negb (c =? 0) && (u32 (s.(i_e) - s.(i_r)) <? INPUT_BUF) then
    let c := if c =? 13 then newline else c in
    _ ← kmodify (fun s => store_key s c);
    _ ← consputc c;
    s ← kget;
    if (c =? newline) || (c =? Ctl 68) || (s.(i_e) =? u32 (s.(i_r) + INPUT_BUF)) then
      _ ← kmodify commit_line;
      mret false
    else mret false
  else mret false.

(** [consoleintr], where [getc] yields the keys [cs] and then -1. *)
Fixpoint consoleintr (cs : list Z) (doprocdump : bool) : kM cons bool :=
  match cs with
  | [] => mret doprocdump
  | c :: cs =>
      d ← consoleintr_key c;
      consoleintr cs (doprocdump || d)
  end.

(** A run of [consoleread] with [n] bytes still wanted of [target], after it
    has stored [acc]: it returns or sleeps. *)
Inductive cres := CRet (ret : Z) (bs : list Z) | CSleep (n : nat) (bs : list Z).

Fixpoint consoleread (killed : bool) (target : Z) (n : nat) (acc : list Z) (s : cons) : cres * cons :=
  match n with
  | O => (CRet target acc, s)
  | S n' =>
      if s.(i_r) =? s.(i_w) then
        if killed then (CRet (-1) acc, s) else (CSleep n acc, s)
      else
        let c := nth (Z.to_nat (s.(i_r) mod INPUT_BUF)) s.(i_buf) 0 in
        let s1 := with_r s (u32 (s.(i_r) + 1)) in
        if c =? Ctl 68 then
          (CRet (target - Z.of_nat n) acc,
           if Z.of_nat n <? target then with_r s1 (u32 (s1.(i_r) - 1)) else s1)
        else if c =? newline then (CRet (target - Z.of_nat n') (acc ++ [c]), s1)
        else consoleread killed target n' (acc ++ [c]) s1
  end.

(** The state at start, with or without a serial port. *)
Definition cons0 (u : bool) : cons := mk_cons (replicate 128 0) 0 0 0 (replicate 2000 0) 0 u [] 0.

(** ** The screen *)

(** The cursor is in the first 24 rows. *)
Definition screen_ok (s : cons) : Prop := length s.(crt) = 2000%nat /\ 0 <= s.(cursor) < 1920.

Definition same_input (s s' : cons) : Prop :=
  s'.(i_buf) = s.(i_buf) /\ s'.(i_r) = s.(i_r) /\ s'.(i_w) = s.(i_w) /\ s'.(i_e) = s.(i_e) /\
  s'.(uart) = s.(uart) /\ s'.(wakes) = s.(wakes).

#[export] Instance same_input_preorder : PreOrder same_input.
Proof.
  split; [by intros s|]. intros s1 s2 s3 (H1 & H2 & H3 & H4 & H5 & H6) (G1 & G2 & G3 & G4 & G5 & G6).
  unfold same_input. split_and!; congruence.
Qed.

Lemma scroll_length cells pos :
  length cells = 2000%nat -> 0 <= pos <= 1920 -> length (scroll cells pos) = 2000%nat.
Proof.
  intros Hl Hp. unfold scroll. rewrite !length_app, length_take, length_replicate, length_drop, !length_app, length_take,
    !length_drop, Hl. lia.
Qed.

(** The two bytes of the cursor register. *)
Lemma cursor_bytes pos : 0 <= pos < 65536 -> Z.lor (Z.shiftl (u8 (Z.shiftr pos 8)) 8) (u8 pos) = pos.
Proof.
  intros Hp. apply Z.bits_inj'. intros n Hn. rewrite Z.lor_spec. unfold u8. rewrite Z.shiftl_spec by lia.
  destruct (Z.ltb_spec n 8).
  - rewrite (Z.testbit_neg_r _ (n - 8)) by lia. rewrite Z.mod_pow2_bits_low by lia. done.
  - rewrite (Z.mod_pow2_bits_high pos) by lia. rewrite orb_false_r. destruct (Z.ltb_spec n 16).
    + rewrite Z.mod_pow2_bits_low, Z.shiftr_spec by lia. f_equal. lia.
    + rewrite Z.mod_pow2_bits_high by lia. symmetry. destruct (Z.eq_dec pos 0) as [->|]; [apply Z.bits_0|].
      apply Z.bits_above_log2; [lia|]. apply Z.log2_lt_pow2; [lia|]. eapply Z.lt_le_trans; [apply Hp|].
      change 65536 with (2 ^ 16). apply Z.pow_le_mono_r; lia.
Qed.

Lemma set_cell_run cells pos v :
  length cells = 2000%nat -> 0 <= pos < 2000 ->
  exists cells', set_cell cells pos v = Ok cells' /\ length cells' = 2000%nat.
Proof.
  intros Hl Hp. unfold set_cell, CELLS. destruct (Z.leb_spec 0 pos), (Z.ltb_spec pos 2000); try lia.
  eexists. split; [reflexivity|]. by rewrite length_insert.
Qed.

Lemma cgaputc_run c s :
  screen_ok s -> exists cells pos, cgaputc c s = Ok (tt, with_screen s cells pos) /\ length cells = 2000%nat /\ 0 <= pos < 1920.
Proof.
  intros [Hl Hp]. unfold cgaputc. set (put := if c =? newline then _ else _).
  assert (Hput : exists cells pos, put = Ok (cells, pos) /\ length cells = 2000%nat /\ 0 <= pos <= 1920).
  { unfold put. destruct (c =? newline).
    - eexists _, _. split; [reflexivity|]. split; [done|]. rewrite Z.rem_mod_nonneg by lia. Z.to_euclidean_division_equations. lia.
    - destruct (c =? BACKSPACE).
      + eexists _, _. split; [reflexivity|]. split; [done|]. destruct (Z.ltb_spec 0 s.(cursor)); lia.
      + destruct (set_cell_run s.(crt) s.(cursor) (Z.lor (Z.land c 255) 1792) Hl ltac:(lia)) as (cells & -> & Hc).
        eexists _, _. split; [reflexivity|]. split; [done|lia]. }
  destruct Hput as (cells & pos & -> & Hc & Hpos). cbn [mbind outcome_bind].
  destruct (Z.ltb_spec pos 0); [lia|]. destruct (Z.ltb_spec (25 * 80) pos); [lia|]. cbn [orb].
  rewrite Z.quot_div_nonneg by lia.
  set (pr := if 24 <=? pos / 80 then _ else _).
  assert (Hpr : length pr.1 = 2000%nat /\ 0 <= pr.2 < 1920).
  { unfold pr. destruct (Z.leb_spec 24 (pos / 80)) as [H24|H24]; cbn [fst snd].
    - assert (1920 <= pos) by (Z.to_euclidean_division_equations; lia). split; [apply scroll_length; [done|lia]|lia].
    - split; [done|]. Z.to_euclidean_division_equations. lia. }
  destruct pr as [cells1 pos1]. cbn [fst snd] in Hpr. destruct Hpr as [Hl1 Hp1].
  destruct (set_cell_run cells1 pos1 (Z.lor 32 1792) Hl1 ltac:(lia)) as (cells2 & -> & Hl2).
  cbn [mbind outcome_bind]. rewrite cursor_bytes by lia. eauto.
Qed.

(** The bytes that [consputc] sends on the serial line. *)
Definition sent (u : bool) (c : Z) : list Z := if u then (if c =? BACKSPACE then [8; 32; 8] else [u8 c]) else [].

Lemma consputc_run c s :
  screen_ok s -> exists s', consputc c s = Ok (tt, s') /\ screen_ok s' /\ same_input s s' /\
    s'.(serial) = s.(serial) ++ sent s.(uart) c.
Proof.
  intros Hs. set (s1 := if s.(uart) then with_serial s (s.(serial) ++ sent s.(uart) c) else s).
  assert (R : (if c =? BACKSPACE then _ ← uartputc 8; _ ← uartputc 32; uartputc 8 else uartputc c) s = Ok (tt, s1)).
  { unfold s1, sent. destruct (c =? BACKSPACE).
    - unfold uartputc, kmodify, mbind, kM_bind. destruct (uart s) eqn:Eu; [|by rewrite !Eu].
      cbn. rewrite Eu. cbn. rewrite Eu. cbn. by rewrite <- !app_assoc.
    - unfold uartputc, kmodify. by destruct (uart s). }
  assert (Hs1 : screen_ok s1) by (unfold s1; by destruct (uart s)).
  destruct (cgaputc_run c s1 Hs1) as (cells & pos & R1 & Hl & Hp). exists (with_screen s1 cells pos).
  unfold consputc. rewrite (kM_bind_run _ _ _ _ _ R). split; [done|]. split; [done|].
  unfold s1, sent, same_input. destruct (uart s) eqn:Eu; cbn; rewrite ?Eu, ?app_nil_r; done.
Qed.

(** [consolewrite] prints every byte: it returns their number, sends them
    in order on the serial line, and no byte, newline or scroll moves the
    cursor or a store out of the screen. *)
Theorem consolewrite_spec s buf :
  screen_ok s -> Forall is_u8 buf ->
  exists s', consolewrite buf s = Ok (Z.of_nat (length buf), s') /\ screen_ok s' /\ same_input s s' /\
    s'.(serial) = s.(serial) ++ (if s.(uart) then buf else []).
Proof.
  intros Hs HB. assert (H : exists s', consolewrite_loop buf s = Ok (tt, s') /\ screen_ok s' /\ same_input s s' /\
    s'.(serial) = s.(serial) ++ (if s.(uart) then buf else [])).
  { revert s Hs. induction HB as [|c buf Hc HB IH]; intros s Hs; cbn [consolewrite_loop].
    - exists s. split_and!; try done. destruct (uart s); by rewrite app_nil_r.
    - replace (Z.land c 255) with c.
      2: { change 255 with (Z.ones 8). rewrite Z.land_ones by lia. symmetry. by apply Z.mod_small. }
      destruct (consputc_run c s Hs) as (s1 & R1 & Hs1 & S1 & E1). rewrite (kM_bind_run _ _ _ _ _ R1).
      destruct (IH s1 Hs1) as (s' & R & Hs' & S' & E'). exists s'. split_and!; try done.
      + by transitivity s1.
      + rewrite E', E1. destruct S1 as (_ & _ & _ & _ & -> & _). unfold sent. destruct (uart s); [|by rewrite !app_nil_r].
        destruct (Z.eqb_spec c BACKSPACE) as [->|_]; [by destruct Hc|]. rewrite u8_small by done. by rewrite <- app_assoc. }
  destruct H as (s' & R & H). exists s'. split; [|done]. unfold consolewrite. by rewrite (kM_bind_run _ _ _ _ _ R).
Qed.

(** ** The line editor

    What has been entered and not yet read, the line being typed, and how
    many times something was entered. *)
Record line := mk_line { ready : list Z; edit : list Z; entered : nat }.

Definition akey (c : Z) (a : line) : line :=
  if c =? Ctl 80 then a
  else if c =? Ctl 85 then mk_line a.(ready) [] a.(entered)
  else if (c =? Ctl 72) || (c =? 127) then mk_line a.(ready) (removelast a.(edit)) a.(entered)
  else if negb (c =? 0) && (Z.of_nat (length (a.(ready) ++ a.(edit))) <? INPUT_BUF) then
    let c := if c =? 13 then newline else c in
    let l := a.(edit) ++ [c] in
    if (c =? newline) || (c =? Ctl 68) || (Z.of_nat (length (a.(ready) ++ l)) =? INPUT_BUF)
    then mk_line (a.(ready) ++ l) [] (S a.(entered))
    else mk_line a.(ready) l a.(entered)
  else a.

(** A read takes bytes up to the end of a line, an end of file or the number
    that is wanted; when they run out before it sleeps, or fails when the
    reader has been killed. *)
Fixpoint aread (killed : bool) (target : Z) (n : nat) (acc q : list Z) : cres * list Z :=
  match n with
  | O => (CRet target acc, q)
  | S n' =>
      match q with
      | [] => (if killed then CRet (-1) acc else CSleep n acc, [])
      | c :: q' =>
          if c =? Ctl 68 then (CRet (target - Z.of_nat n) acc, if Z.of_nat n <? target then q else q')
          else if c =? newline then (CRet (target - Z.of_nat n') (acc ++ [c]), q')
          else aread killed target n' (acc ++ [c]) q'
      end
  end.

(** Interrupts, and runs of reads, in any order. *)
Inductive cev := Keys (cs : list Z) | Read (killed : bool) (target : Z) (n : nat) (acc : list Z).

Fixpoint crun (evs : list cev) (s : cons) : outcome (list cres * cons) :=
  match evs with
  | [] => Ok ([], s)
  | Keys cs :: evs => x ← consoleintr cs false s; crun evs x.2
  | Read killed target n acc :: evs =>
      let '(r, s1) := consoleread killed target n acc s in
      x ← crun evs s1;
      Ok (r :: x.1, x.2)
  end.

Fixpoint arun (evs : list cev) (a : line) : list cres * line :=
  match evs with
  | [] => ([], a)
  | Keys cs :: evs => arun evs (foldl (fun a c => akey c a) a cs)
  | Read killed target n acc :: evs =>
      let '(r, q) := aread killed target n acc a.(ready) in
      let '(rs, a') := arun evs (mk_line q a.(edit) a.(entered)) in
      (r :: rs, a')
  end.

#[export] Instance INPUT_BUF_ring : RingSize INPUT_BUF.
Proof. split; [done|by exists 33554432]. Qed.

(** The ring holds what is ready and then the line being typed, in which no
    line ends. *)
Record crel (s : cons) (a : line) : Prop := {
  cr_ring : ring INPUT_BUF s.(i_buf) s.(i_r) s.(i_e) (a.(ready) ++ a.(edit));
  cr_w : s.(i_w) = u32 (s.(i_r) + Z.of_nat (length a.(ready)));
  cr_edit : Forall (fun c => c <> newline) a.(edit);
  cr_screen : screen_ok s;
  cr_wakes : s.(wakes) = a.(entered)
}.

Lemma crel_ext s s' a : same_input s s' -> screen_ok s' -> crel s a -> crel s' a.
Proof.
  intros (E1 & E2 & E3 & E4 & E5 & E6) Hs [H1 H2 H3 H4 H5]. split; try done; congruence.
Qed.

(** Nothing is being typed. *)
Lemma crel_edit_nil s a : crel s a -> s.(i_e) = s.(i_w) <-> a.(edit) = [].
Proof.
  intros [H1 H2 _ _ _]. rewrite (rg_e _ _ _ _ _ H1), H2, length_app. pose proof (rg_fit _ _ _ _ _ H1) as Hf.
  rewrite length_app in Hf. unfold INPUT_BUF, u32 in *. split.
  - intros E. destruct (edit a) as [|c l]; [done|]. exfalso. cbn [length] in *. Z.to_euclidean_division_equations. lia.
  - intros ->. cbn. f_equal. lia.
Qed.

(** Rubbing out the last key. *)
Lemma rub_out s a l c :
  crel s a -> a.(edit) = l ++ [c] ->
  nth (Z.to_nat (u32 (s.(i_e) - 1) mod INPUT_BUF)) s.(i_buf) 0 = c /\
  exists s', (_ ← kput (with_e s (u32 (s.(i_e) - 1))); consputc BACKSPACE) s = Ok (tt, s') /\
    crel s' (mk_line a.(ready) l a.(entered)).
Proof.
  intros C El. destruct C as [H1 H2 H3 H4 H5]. rewrite El in *.
  destruct (ring_unpush _ H1 c (a.(ready) ++ l)) as [Hc Hr]; [by rewrite app_assoc|].
  split; [by apply nth_lookup_Some|]. apply Forall_app in H3 as [H3 _].
  destruct (consputc_run BACKSPACE (with_e s (u32 (s.(i_e) - 1))) H4) as (s' & R & Hs' & S' & _).
  exists s'. split; [exact R|]. eapply crel_ext; [exact S'|done|]. by split.
Qed.

Lemma kill_line_run fuel s a :
  crel s a -> (length a.(edit) < fuel)%nat ->
  exists s', kill_line fuel s = Ok (tt, s') /\ crel s' (mk_line a.(ready) [] a.(entered)).
Proof.
  revert s a. induction fuel as [|fuel IH]; intros s a C Hf; [lia|]. cbn [kill_line].
  pose proof (crel_edit_nil s a C) as Hnil.
  destruct (edit a) as [|c l _] eqn:El using rev_ind.
  - destruct (Z.eqb_spec s.(i_e) s.(i_w)) as [_|Hne]; [|by destruct Hne; apply Hnil]. cbn. exists s. split; [done|].
    destruct a as [q l n]. cbn in *. by subst l.
  - destruct (Z.eqb_spec s.(i_e) s.(i_w)) as [E|_]; [apply Hnil in E; by destruct l|]. cbn [negb andb].
    destruct (rub_out s a l c C El) as (-> & s1 & R1 & C1). pose proof (cr_edit _ _ C) as He. rewrite El in He.
    apply Forall_app in He as [_ He]. apply Forall_cons in He as [He _]. destruct (Z.eqb_spec c newline); [done|]. cbn [negb].
    rewrite length_app in Hf. cbn in Hf. destruct (IH s1 _ C1) as (s' & R' & C'); [cbn; lia|].
    exists s'. split; [|done]. apply kM_bind_Ok in R1 as (u & s0 & Ra & Rb). 
    by rewrite (kM_bind_run _ _ _ _ _ Ra), (kM_bind_run _ _ _ _ _ Rb).
Qed.

Lemma key_run c s a :
  crel s a -> 0 <= c < 256 -> exists d s', consoleintr_key c s = Ok (d, s') /\ crel s' (akey c a).
Proof.
  intros C Hc. unfold consoleintr_key, akey. erewrite kM_bind_run by reflexivity.
  destruct (c =? Ctl 80); [by exists true, s|].
  pose proof (rg_fit _ _ _ _ _ (cr_ring _ _ C)) as Hfit. rewrite length_app in Hfit. unfold INPUT_BUF in Hfit.
  destruct (c =? Ctl 85).
  { destruct (kill_line_run (S (Z.to_nat INPUT_BUF)) s a C) as (s' & R & C'); [unfold INPUT_BUF; lia|].
    exists false, s'. by rewrite (kM_bind_run _ _ _ _ _ R). }
  destruct ((c =? Ctl 72) || (c =? 127)).
  { pose proof (crel_edit_nil s a C) as Hnil. destruct (edit a) as [|x l _] eqn:El using rev_ind.
    - destruct (Z.eqb_spec s.(i_e) s.(i_w)) as [_|Hne]; [|by destruct Hne; apply Hnil]. exists false, s. split; [done|].
      destruct a as [q l n]. cbn in *. by subst l.
    - destruct (Z.eqb_spec s.(i_e) s.(i_w)) as [E|_]; [apply Hnil in E; by destruct l|]. cbn [negb].
      destruct (rub_out s a l x C El) as (_ & s' & R & C'). exists false, s'. rewrite removelast_last. split; [|done].
      apply kM_bind_Ok in R as (u & s0 & Ra & Rb). by rewrite (kM_bind_run _ _ _ _ _ Ra), (kM_bind_run _ _ _ _ _ Rb). }
  rewrite (ring_count _ (cr_ring _ _ C)).
  destruct (negb (c =? 0) && (Z.of_nat (length (a.(ready) ++ a.(edit))) <? INPUT_BUF)) eqn:Eg; [|by exists false, s].
  apply andb_true_iff in Eg as [_ Hlt]. apply Z.ltb_lt in Hlt. set (k := if c =? 13 then newline else c).
  assert (Hk : is_u8 k) by (unfold k, is_u8, newline; destruct (c =? 13); lia). cbv zeta.
  erewrite kM_bind_run by reflexivity.
  destruct C as [H1 H2 H3 H4 H5]. pose proof (ring_push _ H1 k Hlt) as Hr.
  destruct (consputc_run k (store_key s k) H4) as (s1 & R1 & Hs1 & S1 & _).
  rewrite (kM_bind_run _ _ _ _ _ R1). erewrite kM_bind_run by reflexivity.
  destruct S1 as (E1 & E2 & E3 & E4 & _ & E6). cbn in E1, E2, E3, E4, E6. rewrite u8_small in E1 by done.
  rewrite <- app_assoc in Hr.
  assert (Hfull : (s1.(i_e) =? u32 (s1.(i_r) + INPUT_BUF)) = (Z.of_nat (length (a.(ready) ++ a.(edit) ++ [k])) =? INPUT_BUF)).
  { rewrite E2, E4. pose proof (ring_full _ Hr) as Hf.
    destruct (Z.eqb_spec (u32 (s.(i_e) + 1)) (u32 (s.(i_r) + INPUT_BUF))), (Z.eqb_spec (Z.of_nat (length (a.(ready) ++ a.(edit) ++ [k]))) INPUT_BUF); tauto. }
  rewrite Hfull. destruct ((k =? newline) || (k =? Ctl 68) || _) eqn:Ec.
  - exists false, (commit_line s1). split; [done|]. split; cbn; try done.
    + by rewrite app_nil_r, E1, E2, E4.
    + rewrite E4, E2. apply (rg_e _ _ _ _ _ Hr).
    + by rewrite E6, H5.
  - exists false, s1. split; [done|]. apply orb_false_iff in Ec as [Ec _]. apply orb_false_iff in Ec as [Ec _].
    apply Z.eqb_neq in Ec. split; cbn; try done.
    + by rewrite E1, E2, E4.
    + by rewrite E3, E2.
    + apply Forall_app. split; [done|]. by constructor.
    + by rewrite E6.
Qed.

Lemma consoleintr_run cs d s a :
  crel s a -> Forall (fun c => 0 <= c < 256) cs ->
  exists d' s', consoleintr cs d s = Ok (d', s') /\ crel s' (foldl (fun a c => akey c a) a cs).
Proof.
  intros C H. revert d s a C. induction H as [|c cs Hc H IH]; intros d s a C; cbn [consoleintr foldl]; [eauto|].
  destruct (key_run c s a C Hc) as (d1 & s1 & R1 & C1). rewrite (kM_bind_run _ _ _ _ _ R1). by apply IH.
Qed.

Lemma consoleread_run killed target n acc s a :
  crel s a -> exists s', consoleread killed target n acc s = ((aread killed target n acc a.(ready)).1, s') /\
    crel s' (mk_line (aread killed target n acc a.(ready)).2 a.(edit) a.(entered)).
Proof.
  revert acc s a. induction n as [|n IH]; intros acc s a C; [exists s; split; [done|]; by destruct a|].
  cbn [consoleread aread]. pose proof C as [H1 H2 H3 H4 H5].
  assert (Hq : s.(i_r) = s.(i_w) <-> a.(ready) = []).
  { rewrite H2. pose proof (rg_fit _ _ _ _ _ H1) as Hf. pose proof (rg_r _ _ _ _ _ H1) as Hr. rewrite length_app in Hf.
    unfold INPUT_BUF, is_u32, u32 in *. split.
    - intros E. destruct (ready a) as [|c q]; [done|]. exfalso. cbn [length] in *. Z.to_euclidean_division_equations. lia.
    - intros ->. cbn. rewrite Z.mod_small; lia. }
  destruct (ready a) as [|c q] eqn:Eq.
  { destruct (Z.eqb_spec s.(i_r) s.(i_w)) as [_|Hne]; [|by destruct Hne; apply Hq]. exists s. split; [by destruct killed|].
    destruct a. cbn in *. by subst. }
  destruct (Z.eqb_spec s.(i_r) s.(i_w)) as [E|_]; [by apply Hq in E|].
  destruct (ring_pop _ H1 c (q ++ a.(edit)) eq_refl) as [Hc Hr]. rewrite (nth_lookup_Some _ _ 0 _ Hc).
  assert (C1 : crel (with_r s (u32 (s.(i_r) + 1))) (mk_line q a.(edit) a.(entered))).
  { split; cbn; try done. rewrite H2. cbn [length]. unfold u32. rewrite Z.add_mod_idemp_l by lia. f_equal. lia. }
  destruct (c =? Ctl 68).
  - destruct (Z.of_nat (S n) <? target); cbn [fst snd]; eexists; (split; [reflexivity|]); [|exact C1].
    cbn. assert (Er : u32 (u32 (s.(i_r) + 1) - 1) = s.(i_r)).
    { unfold u32. rewrite Zminus_mod_idemp_l. replace (s.(i_r) + 1 - 1) with s.(i_r) by lia.
      apply Z.mod_small, (rg_r _ _ _ _ _ H1). }
    rewrite Er, <- Eq. destruct s, a. exact C.
  - destruct (c =? newline); [eexists; split; [reflexivity|exact C1]|]. exact (IH (acc ++ [c]) _ _ C1).
Qed.

Definition ev_ok (v : cev) : Prop := match v with Keys cs => Forall (fun c => 0 <= c < 256) cs | Read _ _ _ _ => True end.

Lemma console_run evs s a :
  crel s a -> Forall ev_ok evs ->
  exists s', crun evs s = Ok ((arun evs a).1, s') /\ crel s' (arun evs a).2.
Proof.
  intros C H. revert s a C. induction H as [|v evs Hv H IH]; intros s a C; [by exists s|].
  destruct v as [cs|killed target n acc]; cbn [crun arun].
  - destruct (consoleintr_run cs false s a C Hv) as (d & s1 & -> & C1). cbn. by apply IH.
  - destruct (consoleread_run killed target n acc s a C) as (s1 & -> & C1).
    destruct (aread killed target n acc a.(ready)) as [r q]. cbn [fst snd] in C1. cbv zeta.
    destruct (IH _ _ C1) as (s' & R & C'). rewrite R. destruct (arun evs _) as [rs a']. cbn. by exists s'.
Qed.

(** C25. Any sequence of interrupts and reads on the console has the outcome
    that the line editor on lists gives: the same reads return, with the same
    bytes, or sleep, or fail when their process was killed; nothing is lost
    when a counter wraps around or the ring is full; the screen stays intact;
    and readers are woken each time that something is entered. *)
Theorem console_refines evs s a :
  crel s a -> Forall ev_ok evs ->
  exists s', crun evs s = Ok ((arun evs a).1, s') /\ crel s' (arun evs a).2.
Proof. apply console_run. Qed.

Lemma akey_plain l a :
  Forall (fun c => 32 <= c < 127) l -> (Z.of_nat (length (a.(ready) ++ a.(edit)) + length l) < INPUT_BUF)%Z ->
  foldl (fun a c => akey c a) a l = mk_line a.(ready) (a.(edit) ++ l) a.(entered).
Proof.
  intros Hl. revert a. induction Hl as [|c l Hc Hl IH]; intros a Hlen; cbn [foldl length] in *.
  - rewrite app_nil_r. by destruct a.
  - assert (E : akey c a = mk_line a.(ready) (a.(edit) ++ [c]) a.(entered)).
    { unfold akey, Ctl, newline. rewrite !length_app in *. cbn [length] in *. unfold INPUT_BUF in *. case_bools; try lia; done. }
    rewrite E, IH; [|cbn [ready edit]; rewrite !length_app in *; cbn [length]; lia].
    cbn [ready edit entered]. by rewrite <- app_assoc.
Qed.

Lemma aread_line l n acc killed target :
  Forall (fun c => 32 <= c < 127) l -> (length l < n)%nat ->
  aread killed target n acc (l ++ [newline]) = (CRet (target - Z.of_nat (n - length l - 1)) (acc ++ l ++ [newline]), []).
Proof.
  intros Hl. revert n acc. induction Hl as [|c l Hc Hl IH]; intros n acc Hn; (destruct n as [|n]; [cbn in Hn; lia|]).
  - cbn. by rewrite Nat.sub_0_r.
  - cbn [app aread length] in *. unfold Ctl. destruct (Z.eqb_spec c (68 - 64)); [lia|].
    destruct (Z.eqb_spec c newline); [unfold newline in *; lia|]. rewrite IH by lia. by rewrite <- app_assoc.
Qed.

(** A line of printable characters typed on an empty console, ended by
    return, is what the next read returns, with a newline at its end. *)
Theorem typed_line_read l n s killed k :
  crel s (mk_line [] [] k) -> Forall (fun c => 32 <= c < 127) l -> (length l < 127)%nat -> (length l < n)%nat ->
  exists s', crun [Keys (l ++ [13]); Read killed (Z.of_nat n) n []] s =
    Ok ([CRet (Z.of_nat (length l) + 1) (l ++ [newline])], s') /\ crel s' (mk_line [] [] (S k)).
Proof.
  intros C Hl Hlen Hn. set (evs := [_; _]).
  assert (E : arun evs (mk_line [] [] k) = ([CRet (Z.of_nat (length l) + 1) (l ++ [newline])], mk_line [] [] (S k))).
  { unfold evs. cbn [arun]. rewrite foldl_app, (akey_plain l _ Hl) by (cbn [ready edit app length]; unfold INPUT_BUF; lia). cbn [foldl].
    assert (Ek : akey 13 (mk_line [] l k) = mk_line (l ++ [newline]) [] (S k)).
    { unfold akey. cbn -[Z.of_nat]. unfold INPUT_BUF. destruct (Z.ltb_spec (Z.of_nat (length l)) 128); [done|lia]. }
    cbn [ready edit entered app]. rewrite Ek. cbn [ready]. rewrite aread_line by done. cbn. do 4 f_equal. lia. }
  assert (Hev : Forall ev_ok evs).
  { constructor; [|by constructor]. cbn. apply Forall_app. split; [|constructor; [lia|constructor]].
    eapply Forall_impl; [exact Hl|]. cbn. lia. }
  destruct (console_run evs s _ C Hev) as (s' & R & C'). rewrite E in R, C'. by exists s'.
Qed.

(** ** The keyboard *)

Definition SHIFT : Z := 1.
Definition CTL : Z := 2.
Definition ALT : Z := 4.
Definition CAPSLOCK : Z := 8.
Definition NUMLOCK : Z := 16.
Definition SCROLLLOCK : Z := 32.
Definition E0ESC : Z := 64.

(** A table of 256 entries: the first ones, those given by their index, and 0. *)
Fixpoint entry (more : list (Z * Z)) (i : Z) : option Z :=
  match more with
  | [] => None
  | (j, v) :: more => if i =? j then Some v else entry more i
  end.

Definition table (first : list Z) (more : list (Z * Z)) (i : Z) : Z :=
  match entry more i with Some v => v | None => nth (Z.to_nat i) first 0 end.

Definition shiftcode : Z -> Z :=
  table [] [(0x1D, CTL); (0x2A, SHIFT); (0x36, SHIFT); (0x38, ALT); (0x9D, CTL); (0xB8, ALT)].

Definition togglecode : Z -> Z := table [] [(0x3A, CAPSLOCK); (0x45, NUMLOCK); (0x46, SCROLLLOCK)].

(** The keys of the keypad and the cursor block, which the maps share. *)
Definition keypad (enter div : Z) : list (Z * Z) :=
  [(0x9C, enter); (0xB5, div); (0xC8, 0xE2); (0xD0, 0xE3); (0xC9, 0xE6); (0xD1, 0xE7); (0xCB, 0xE4); (0xCD, 0xE5);
   (0x97, 0xE0); (0xCF, 0xE1); (0xD2, 0xE8); (0xD3, 0xE9)].

Definition normalmap : Z -> Z := table
  [0; 27; 49; 50; 51; 52; 53; 54;
   55; 56; 57; 48; 45; 61; 8; 9;
   113; 119; 101; 114; 116; 121; 117; 105;
   111; 112; 91; 93; 10; 0; 97; 115;
   100; 102; 103; 104; 106; 107; 108; 59;
   39; 96; 0; 92; 122; 120; 99; 118;
   98; 110; 109; 44; 46; 47; 0; 42;
   0; 32; 0; 0; 0; 0; 0; 0;
   0; 0; 0; 0; 0; 0; 0; 55;
   56; 57; 45; 52; 53; 54; 43; 49;
   50; 51; 48; 46; 0; 0; 0; 0] (keypad 10 47).

Definition shiftmap : Z -> Z := table
  [0; 27; 33; 64; 35; 36; 37; 94;
   38; 42; 40; 41; 95; 43; 8; 9;
   81; 87; 69; 82; 84; 89; 85; 73;
   79; 80; 123; 125; 10; 0; 65; 83;
   68; 70; 71; 72; 74; 75; 76; 58;
   34; 126; 0; 124; 90; 88; 67; 86;
   66; 78; 77; 60; 62; 63; 0; 42;
   0; 32; 0; 0; 0; 0; 0; 0;
   0; 0; 0; 0; 0; 0; 0; 55;
   56; 57; 45; 52; 53; 54; 43; 49;
   50; 51; 48; 46; 0; 0; 0; 0] (keypad 10 47).

(** An entry is an unsigned char: [C('/')] is stored modulo 256. *)
Definition ctlmap : Z -> Z := table
  [0; 0; 0; 0; 0; 0; 0; 0;
   0; 0; 0; 0; 0; 0; 0; 0;
   Ctl 81; Ctl 87; Ctl 69; Ctl 82; Ctl 84; Ctl 89; Ctl 85; Ctl 73;
   Ctl 79; Ctl 80; 0; 0; 13; 0; Ctl 65; Ctl 83;
   Ctl 68; Ctl 70; Ctl 71; Ctl 72; Ctl 74; Ctl 75; Ctl 76; 0;
   0; 0; 0; Ctl 92; Ctl 90; Ctl 88; Ctl 67; Ctl 86;
   Ctl 66; Ctl 78; Ctl 77; 0; 0; u8 (Ctl 47); 0; 0] (keypad 13 (u8 (Ctl 47))).

Definition charcode (i : Z) : Z -> Z := if i =? 0 then normalmap else if i =? 1 then shiftmap else ctlmap.

(** [kbdgetc], with what the status and the data port hold; the static
    [shift] is passed along. *)
Definition kbdgetc (st data shift : Z) : Z * Z :=
  if Z.land st 1 =? 0 then (-1, shift)
  else if data =? 0xE0 then (0, Z.lor shift E0ESC)
  else if c_true (Z.land data 0x80) then
    let data := if c_true (Z.land shift E0ESC) then data else Z.land data 0x7F in
    (0, Z.land shift (u32 (Z.lnot (Z.lor (shiftcode data) E0ESC))))
  else
    let '(data, shift) := if c_true (Z.land shift E0ESC)
                          then (Z.lor data 0x80, Z.land shift (u32 (Z.lnot E0ESC))) else (data, shift) in
    let shift := Z.lor shift (shiftcode data) in
    let shift := Z.lxor shift (togglecode data) in
    let c := charcode (Z.land shift (Z.lor CTL SHIFT)) data in
    let c := if c_true (Z.land shift CAPSLOCK) then
               if (97 <=? c) && (c <=? 122) then u32 (c + (65 - 97))
               else if (65 <=? c) && (c <=? 90) then u32 (c + (97 - 65)) else c
             else c in
    (c, shift).

(** [consoleintr(kbdgetc)]: the keys for the scan codes that wait. *)
Fixpoint kbd_keys (codes : list Z) (shift : Z) : list Z * Z :=
  match codes with
  | [] => ([], shift)
  | data :: codes =>
      let '(c, shift) := kbdgetc 1 data shift in
      let '(cs, shift) := kbd_keys codes shift in
      (c :: cs, shift)
  end.

(** *** The keyboard as it is meant

    Which modifiers are held, which locks are on, and whether the last code
    was the escape E0. *)
Record keyboard := mk_keyboard {
  k_shift : bool; k_ctl : bool; k_alt : bool; k_caps : bool; k_num : bool; k_scroll : bool; k_esc : bool
}.

Definition shift_bits (k : keyboard) : Z :=
  Z.b2z k.(k_shift) + 2 * Z.b2z k.(k_ctl) + 4 * Z.b2z k.(k_alt) + 8 * Z.b2z k.(k_caps) +
  16 * Z.b2z k.(k_num) + 32 * Z.b2z k.(k_scroll) + 64 * Z.b2z k.(k_esc).

(** A key goes down or up; keys with the escape have codes from 128 on. *)
Inductive event := Nothing | Down (key : Z) | Up (key : Z).

Definition decode (data : Z) (esc : bool) : event :=
  if data =? 0xE0 then Nothing
  else if data <? 128 then Down (if esc then data + 128 else data)
  else Up (if esc then data else data - 128).

Definition is_key (keys : list Z) (key : Z) : bool := existsb (Z.eqb key) keys.

Definition hold (down : bool) (key : Z) (k : keyboard) : keyboard :=
  mk_keyboard
    (if is_key [0x2A; 0x36] key then down else k.(k_shift))
    (if is_key [0x1D; 0x9D] key then down else k.(k_ctl))
    (if is_key [0x38; 0xB8] key then down else k.(k_alt))
    k.(k_caps) k.(k_num) k.(k_scroll) false.

Definition toggle (key : Z) (k : keyboard) : keyboard :=
  mk_keyboard k.(k_shift) k.(k_ctl) k.(k_alt) (xorb k.(k_caps) (key =? 0x3A)) (xorb k.(k_num) (key =? 0x45))
    (xorb k.(k_scroll) (key =? 0x46)) k.(k_esc).

Definition swap_case (c : Z) : Z :=
  if (97 <=? c) && (c <=? 122) then c - 32 else if (65 <=? c) && (c <=? 90) then c + 32 else c.

(** Control outranks shift; caps lock swaps the case of letters. *)
Definition glyph (k : keyboard) (key : Z) : Z :=
  let c := if k.(k_ctl) then ctlmap key else if k.(k_shift) then shiftmap key else normalmap key in
  if k.(k_caps) then swap_case c else c.

Definition kstep (data : Z) (k : keyboard) : Z * keyboard :=
  match decode data k.(k_esc) with
  | Nothing => (0, mk_keyboard k.(k_shift) k.(k_ctl) k.(k_alt) k.(k_caps) k.(k_num) k.(k_scroll) true)
  | Up key => (0, hold false key k)
  | Down key => let k := toggle key (hold true key k) in (glyph k key, k)
  end.

Definition bools : list bool := [false; true].
Definition keyboards : list keyboard :=
  b1 ← bools; b2 ← bools; b3 ← bools; b4 ← bools; b5 ← bools; b6 ← bools; b7 ← bools;
  [mk_keyboard b1 b2 b3 b4 b5 b6 b7].

Lemma keyboards_all k : k ∈ keyboards.
Proof.
  assert (Hb : forall b, b ∈ bools) by (intros []; [right; by left|by left]). destruct k as [b1 b2 b3 b4 b5 b6 b7].
  unfold keyboards. repeat (apply list_elem_of_bind; eexists; split; [|apply Hb]). by left.
Qed.

Definition agree_at (k : keyboard) (data : Z) : bool :=
  let '(c, sh) := kbdgetc 1 data (shift_bits k) in
  let '(c', k') := kstep data k in
  (c =? c') && (sh =? shift_bits k') && (0 <=? c) && (c <? 256).

(** Every state of the keyboard, with every code. *)
Lemma kbd_agree : forallb (fun k => forallb (fun i => agree_at k (Z.of_nat i)) (seq 0 256)) keyboards = true.
Proof. vm_compute. reflexivity. Qed.

Lemma kbd_agree_at k data : 0 <= data < 256 -> agree_at k data = true.
Proof.
  intros Hd. pose proof (proj1 (forallb_forall _ _) kbd_agree k (proj1 (list_elem_of_In _ _) (keyboards_all k))) as H.
  pose proof (proj1 (forallb_forall _ _) H (Z.to_nat data) ltac:(apply in_seq; lia)) as H1. cbv beta in H1.
  by rewrite Z2Nat.id in H1 by lia.
Qed.

Lemma kbdgetc_run data k :
  0 <= data < 256 -> kbdgetc 1 data (shift_bits k) = ((kstep data k).1, shift_bits (kstep data k).2) /\
  0 <= (kstep data k).1 < 256.
Proof.
  intros Hd. pose proof (kbd_agree_at k data Hd) as H. unfold agree_at in H.
  destruct (kbdgetc 1 data (shift_bits k)) as [c sh]. destruct (kstep data k) as [c' k'].
  apply andb_true_iff in H as [H H4]. apply andb_true_iff in H as [H H3]. apply andb_true_iff in H as [H1 H2].
  apply Z.eqb_eq in H1 as ->. apply Z.eqb_eq in H2 as ->. cbn. split; [done|]. lia.
Qed.

Fixpoint ksteps (codes : list Z) (k : keyboard) : list Z * keyboard :=
  match codes with
  | [] => ([], k)
  | data :: codes =>
      let '(c, k) := kstep data k in
      let '(cs, k) := ksteps codes k in
      (c :: cs, k)
  end.

Lemma kbd_keys_run codes k :
  Forall is_u8 codes -> kbd_keys codes (shift_bits k) = ((ksteps codes k).1, shift_bits (ksteps codes k).2) /\
  Forall (fun c => 0 <= c < 256) (ksteps codes k).1.
Proof.
  intros H. revert k. induction H as [|data codes Hd H IH]; intros k; cbn [kbd_keys ksteps]; [by split|].
  destruct (kbdgetc_run data k Hd) as [-> Hr]. destruct (kstep data k) as [c k1]. cbn [fst snd] in Hr |- *.
  destruct (IH k1) as [-> Hcs]. destruct (ksteps codes k1) as [cs k2]. cbn in *. split; [done|]. by constructor.
Qed.

(** Whatever codes the keyboard sends, [kbdgetc] follows the modifiers
    held, the locks and the escapes as a keyboard does, every index it uses
    lies in its tables, and the keys it yields are bytes, which the console
    then edits as the line editor on lists does. *)
Theorem kbdintr_refines codes k s a :
  crel s a -> Forall is_u8 codes ->
  kbd_keys codes (shift_bits k) = ((ksteps codes k).1, shift_bits (ksteps codes k).2) /\
  exists d s', consoleintr (kbd_keys codes (shift_bits k)).1 false s = Ok (d, s') /\
    crel s' (foldl (fun a c => akey c a) a (ksteps codes k).1).
Proof.
  intros C H. destruct (kbd_keys_run codes k H) as [E Hr]. split; [done|]. rewrite E. cbn [fst].
  destruct (consoleintr_run _ false s a C Hr) as (d & s' & R & C'). eauto.
Qed.

(** ** A session *)

Module ConsoleDemo.

(** Conditions on the elements of a list that is given. *)
Ltac each := repeat first [apply Forall_nil_2 | apply Forall_cons; split; cbn [ev_ok]; [first [done | unfold is_u8; lia | idtac]|]].

Lemma start_rel u : crel (cons0 u) (mk_line [] [] 0).
Proof. split; [by apply (ring_nil INPUT_BUF)|done|constructor|done|done]. Qed.

Lemma consolewrite_spec_witness :
  exists s', consolewrite [104; 105; 10] (cons0 true) = Ok (3, s') /\ screen_ok s' /\ same_input (cons0 true) s' /\
    s'.(serial) = [] ++ [104; 105; 10].
Proof. apply (consolewrite_spec (cons0 true) [104; 105; 10]); [done|]. each. Defined.

(** "ab", rubbed out to "a", and return; three reads, of which the second
    sleeps and the third, of a killed process, fails. *)
Definition session : list cev := [Keys [97; 98; 8; 13]; Read false 10 10 []; Read false 10 10 []; Read true 10 10 []].

Lemma console_refines_witness :
  exists s', crun session (cons0 true) = Ok ([CRet 2 [97; 10]; CSleep 10 []; CRet (-1) []], s') /\ crel s' (mk_line [] [] 1).
Proof. apply (console_refines session (cons0 true) (mk_line [] [] 0)); [apply start_rel|]. each. Defined.

Lemma typed_line_read_witness :
  exists s', crun [Keys ([108; 115] ++ [13]); Read false 10 10 []] (cons0 true) = Ok ([CRet 3 [108; 115; 10]], s') /\
    crel s' (mk_line [] [] 1).
Proof. apply (typed_line_read [108; 115] 10 (cons0 true) false 0); [apply start_rel|each|cbn; lia|cbn; lia]. Defined.

(** Shift down, a, shift up, a: "Aa". *)
Definition released : keyboard := mk_keyboard false false false false false false false.

Lemma kbdintr_refines_witness :
  kbd_keys [0x2A; 0x1E; 0xAA; 0x1E] 0 = ([0; 65; 0; 97], 0) /\
  exists d s', consoleintr (kbd_keys [0x2A; 0x1E; 0xAA; 0x1E] 0).1 false (cons0 true) = Ok (d, s') /\
    crel s' (mk_line [] [65; 97] 0).
Proof. apply (kbdintr_refines [0x2A; 0x1E; 0xAA; 0x1E] released (cons0 true) (mk_line [] [] 0)); [apply start_rel|]. each. Defined.

End ConsoleDemo.
