(* ===== verification/Shell.v ===== *)
(** * The shell (sh.c)

    The parser of the command line, the NULs it writes into the line when it
    is done, and [runcmd].  A pointer into the line is the text from there to
    the end of the line; the parsing position [*ps] is such a pointer and the
    state of the parser.  The calls of [malloc] are taken to succeed, as the
    code takes them to.

    [parsecmd_strings] shows that the parser ends on every line and that the
    strings of the commands it builds are the words of the line;
    [parse_print] that it inverts printing; [runcmd_fds] that the programs
    that are run see the descriptors that the command line asks for. *)

From S2P Require Import Prelude.

Definition MAXARGS : nat := 10.

Definition O_RDONLY : Z := 0.
Definition O_WRONLY : Z := 1.
Definition O_CREATE : Z := 512.

(** A pointer into the line. *)
Abbreviation ptr := (list Z) (only parsing).

(** [struct cmd] and what it is cast to; [argv] and [eargv] together. *)
Inductive cmd :=
| EXEC (argv : list (ptr * ptr))
| REDIR (c : cmd) (file efile : ptr) (mode fd : Z)
| PIPE (left right : cmd)
| LIST (left right : cmd)
| BACK (c : cmd).

(** ** Tokens *)

Definition whitespace : list Z := [32; 9; 13; 10; 11].
Definition symbols : list Z := [60; 124; 62; 38; 59; 40; 41].

(** [strchr(l, c) != 0]. *)
Definition strchr (l : list Z) (c : Z) : bool := existsb (Z.eqb c) l.

(** [while(s < es && strchr(whitespace, *s)) s++]. *)
Fixpoint skip_white (s : ptr) : ptr :=
  match s with
  | c :: s' => if strchr whitespace c then skip_white s' else s
  | [] => []
  end.

Fixpoint skip_word (s : ptr) : ptr :=
  match s with
  | c :: s' => if negb (strchr whitespace c) && negb (strchr symbols c) then skip_word s' else s
  | [] => []
  end.

(** The results of [gettoken] are the token, [*q] and [*eq]. *)
Definition gettoken : kM ptr (Z * ptr * ptr) := fun ps =>
  let q := skip_white ps in
  let '(ret, eq) :=
    match q with
    | [] => (0, q)
    | c :: s =>
        if strchr [124; 40; 41; 59; 38; 60] c then (c, s)
        else if c =? 62 then
          match s with
          | d :: s' => if d =? 62 then (43, s') else (62, s)
          | [] => (62, s)
          end
        else (97, skip_word q)
    end in
  Ok ((ret, q, eq), skip_white eq).

Definition peek (toks : list Z) : kM ptr bool := fun ps =>
  let s := skip_white ps in
  Ok (match s with [] => false | c :: _ => strchr toks c end, s).

(** ** Parsing *)

Fixpoint parseredirs_loop (fuel : nat) (c : cmd) : kM ptr cmd :=
  match fuel with
  | O => kpanic "out of fuel"
  | S fuel =>
      b ← peek [60; 62];
      if negb b then mret c
      else
        t ← gettoken;
        w ← gettoken;
        let '(tok, q, eq) := w in
        if negb (tok =? 97) then kpanic "missing file for redirection"
        else
          let tok := t.1.1 in
          let c := if tok =? 60 then REDIR c q eq O_RDONLY 0
                   else if tok =? 62 then REDIR c q eq (Z.lor O_WRONLY O_CREATE) 1
                   else if tok =? 43 then REDIR c q eq (Z.lor O_WRONLY O_CREATE) 1
                   else c in
          parseredirs_loop fuel c
  end.

(** Each turn takes a character at least. *)
Definition parseredirs (c : cmd) : kM ptr cmd :=
  s ← kget;
  parseredirs_loop (S (length s)) c.

(** The loop of [parseexec].  The execcmd that is being filled lies inside the
    redirections [ret] around it; its arguments are kept apart in [args] and
    [fill] puts them where they belong. *)
Fixpoint fill (ret : cmd) (args : list (ptr * ptr)) : cmd :=
  match ret with
  | REDIR c q eq mode fd => REDIR (fill c args) q eq mode fd
  | _ => EXEC args
  end.

Fixpoint parseexec_loop (fuel : nat) (ret : cmd) (args : list (ptr * ptr)) : kM ptr cmd :=
  match fuel with
  | O => kpanic "out of fuel"
  | S fuel =>
      b ← peek [124; 41; 38; 59];
      if (b : bool) then mret (fill ret args)
      else
        w ← gettoken;
        let '(tok, q, eq) := w in
        if tok =? 0 then mret (fill ret args)
        else if negb (tok =? 97) then kpanic "syntax"
        else
          let args := args ++ [(q, eq)] in
          if (MAXARGS <=? length args)%nat then kpanic "too many args"
          else
            ret ← parseredirs ret;
            parseexec_loop fuel ret args
  end.

Fixpoint back_loop (fuel : nat) (c : cmd) : kM ptr cmd :=
  match fuel with
  | O => kpanic "out of fuel"
  | S fuel =>
      b ← peek [38];
      if (b : bool) then
        _ ← gettoken;
        back_loop fuel (BACK c)
      else mret c
  end.

Fixpoint parseline (fuel : nat) : kM ptr cmd :=
  match fuel with
  | O => kpanic "out of fuel"
  | S fuel =>
      c ← parsepipe fuel;
      s ← kget;
      c ← back_loop (S (length s)) c;
      b ← peek [59];
      if (b : bool) then
        _ ← gettoken;
        r ← parseline fuel;
        mret (LIST c r)
      else mret c
  end
with parsepipe (fuel : nat) : kM ptr cmd :=
  match fuel with
  | O => kpanic "out of fuel"
  | S fuel =>
      c ← parseexec fuel;
      b ← peek [124];
      if (b : bool) then
        _ ← gettoken;
        r ← parsepipe fuel;
        mret (PIPE c r)
      else mret c
  end
with parseexec (fuel : nat) : kM ptr cmd :=
  match fuel with
  | O => kpanic "out of fuel"
  | S fuel =>
      b ← peek [40];
      if (b : bool) then parseblock fuel
      else
        ret ← parseredirs (EXEC []);
        s ← kget;
        parseexec_loop (S (length s)) ret []
  end
with parseblock (fuel : nat) : kM ptr cmd :=
  match fuel with
  | O => kpanic "out of fuel"
  | S fuel =>
      b ← peek [40];
      if negb b then kpanic "parseblock"
      else
        _ ← gettoken;
        c ← parseline fuel;
        b ← peek [41];
        if negb b then kpanic "syntax - missing )"
        else
          _ ← gettoken;
          parseredirs c
  end.

(** The line as [gets] leaves it, without its NUL. *)
Definition parse (s : ptr) : outcome cmd :=
  x ← parseline (4 * length s + 4) s;
  let '(c, s) := x in
  y ← peek [] s;
  if (length y.2 =? 0)%nat then Ok c else Panic "syntax".

(** ** NULs

    The memory of the line: its characters and a NUL.  The address of a
    pointer is what comes before it. *)
Definition addr (line : list Z) (p : ptr) : nat := length line - length p.

Definition put_nul (line : list Z) (m : list Z) (p : ptr) : list Z := <[addr line p := 0]> m.

Fixpoint nulterminate (line : list Z) (c : cmd) (m : list Z) : list Z :=
  match c with
  | EXEC argv => foldl (fun m a => put_nul line m a.2) m argv
  | REDIR c _ eq _ _ => put_nul line (nulterminate line c m) eq
  | PIPE l r | LIST l r => nulterminate line r (nulterminate line l m)
  | BACK c => nulterminate line c m
  end.

Definition parsecmd (line : list Z) : outcome (cmd * list Z) :=
  c ← parse line;
  Ok (c, nulterminate line c (line ++ [0])).

(** The C string at a pointer. *)
Fixpoint cstr (m : list Z) : list Z :=
  match m with
  | [] => []
  | c :: m => if c =? 0 then [] else c :: cstr m
  end.

Definition str_at (line m : list Z) (p : ptr) : list Z := cstr (drop (addr line p) m).

(** ** Running

    The system calls that [runcmd] makes, in order: [PFork] has the child and
    what the parent goes on with, and the calls whose failure the shell looks
    at have a branch for it. *)

Inductive prog :=
| PExit
| PExec (argv : list (list Z)) (failed : prog)
| PPrint (k : prog)
| PClose (fd : Z) (k : prog)
| POpen (file : list Z) (mode : Z) (k failed : prog)
| PDup (fd : Z) (k : prog)
| PPipe (k : Z -> Z -> prog) (failed : prog)
| PFork (child parent failed : prog)
| PWait (k : prog).

Definition panic : prog := PPrint PExit.

Definition fork1 (child parent : prog) : prog := PFork child parent panic.

(** [runcmd], where [str] reads the string at a pointer. *)
Fixpoint runcmd (str : ptr -> list Z) (c : cmd) : prog :=
  match c with
  | EXEC argv =>
      match argv with
      | [] => PExit
      | _ => PExec ((fun a => str a.1) <$> argv) (PPrint PExit)
      end
  | REDIR c file _ mode fd => PClose fd (POpen (str file) mode (runcmd str c) (PPrint PExit))
  | LIST l r => fork1 (runcmd str l) (PWait (runcmd str r))
  | PIPE l r =>
      PPipe (fun p0 p1 =>
        fork1 (PClose 1 (PDup p1 (PClose p0 (PClose p1 (runcmd str l)))))
          (fork1 (PClose 0 (PDup p0 (PClose p0 (PClose p1 (runcmd str r)))))
             (PClose p0 (PClose p1 (PWait (PWait PExit))))))
        panic
  | BACK c => fork1 (runcmd str c) PExit
  end.

(** ** The main loop

    The input is what [read] still has to deliver, and 0 afterwards. *)

Definition BUFSZ : nat := 100.

Fixpoint gets_loop (room : nat) (input : list Z) : list Z * list Z :=
  match room, input with
  | O, _ => ([], input)
  | S _, [] => ([], [])
  | S room, c :: input =>
      if (c =? 10) || (c =? 13) then ([c], input)
      else let '(l, input) := gets_loop room input in (c :: l, input)
  end.

(** [gets] into a buffer: the bytes, a NUL, and what was there before. *)
Definition gets (buf : list Z) (input : list Z) : list Z * list Z :=
  let '(l, input) := gets_loop (length buf - 1) input in
  (l ++ [0] ++ drop (S (length l)) buf, input).

Definition getcmd (nbuf : nat) (input : list Z) : option (list Z) * list Z :=
  let '(buf, input) := gets (replicate nbuf 0) input in
  (if nth 0 buf 0 =? 0 then None else Some buf, input).

(** What the loop does with a line: [chdir], or a child that runs it. *)
Inductive act := AChdir (dir : list Z) | ARun (line : list Z).

Definition command (buf : list Z) : act :=
  if (nth 0 buf 0 =? 99) && (nth 1 buf 0 =? 100) && (nth 2 buf 0 =? 32) then
    AChdir (cstr (drop 3 (<[(length (cstr buf) - 1)%nat := 0]> buf)))
  else ARun (cstr buf).

Fixpoint main_loop (fuel : nat) (input : list Z) : option (list act) :=
  match fuel with
  | O => None
  | S fuel =>
      match getcmd BUFSZ input with
      | (Some buf, input) => (command buf ::.) <$> main_loop fuel input
      | (None, _) => Some []
      end
  end.

(** A turn takes a byte at least. *)
Definition sh_main (input : list Z) : option (list act) := main_loop (S (length input)) input.

(** ** Words *)

Definition word_char (c : Z) : bool := negb (strchr whitespace c) && negb (strchr symbols c).

(** [q] and [eq] delimit a word of the line. *)
Record word (line : list Z) (a : ptr * ptr) : Prop := {
  wd_in : a.1 `suffix_of` line;
  wd_text : exists w, a.1 = w ++ a.2 /\ w <> [] /\ Forall (fun c => word_char c = true) w;
  wd_end : match a.2 with [] => True | c :: _ => word_char c = false end
}.

Definition text (a : ptr * ptr) : list Z := take (length a.1 - length a.2) a.1.

(** The pointers of a command. *)
Fixpoint ptrs (c : cmd) : list (ptr * ptr) :=
  match c with
  | EXEC argv => argv
  | REDIR c q eq _ _ => ptrs c ++ [(q, eq)]
  | PIPE l r | LIST l r => ptrs l ++ ptrs r
  | BACK c => ptrs c
  end.

(** The arguments and their end fit in [argv]; redirections are of the
    standard input for reading or of the standard output for writing. *)
Definition redir_ok (mode fd : Z) : Prop :=
  (mode = O_RDONLY /\ fd = 0) \/ (mode = Z.lor O_WRONLY O_CREATE /\ fd = 1).

Fixpoint cmd_ok (c : cmd) : Prop :=
  match c with
  | EXEC argv => (length argv < MAXARGS)%nat
  | REDIR c _ _ mode fd => cmd_ok c /\ redir_ok mode fd
  | PIPE l r | LIST l r => cmd_ok l /\ cmd_ok r
  | BACK c => cmd_ok c
  end.

Definition words (line : list Z) (c : cmd) : Prop := Forall (word line) (ptrs c) /\ cmd_ok c.

Lemma skip_white_suffix s : skip_white s `suffix_of` s.
Proof.
  induction s as [|c s IH]; cbn [skip_white]; [done|]. destruct (strchr whitespace c); [apply suffix_cons_r, IH|done].
Qed.

Lemma skip_white_idem s : skip_white (skip_white s) = skip_white s.
Proof. induction s as [|c s IH]; cbn [skip_white]; [done|]. destruct (strchr whitespace c) eqn:E; [exact IH|]. cbn [skip_white]. by rewrite E. Qed.

Lemma skip_white_head s c r : skip_white s = c :: r -> strchr whitespace c = false.
Proof.
  induction s as [|d s IH]; cbn [skip_white]; [done|]. destruct (strchr whitespace d) eqn:E; [exact IH|]. by intros [= <- <-].
Qed.

Lemma skip_word_spec s :
  exists w, s = w ++ skip_word s /\ Forall (fun c => word_char c = true) w /\
    match skip_word s with [] => True | c :: _ => word_char c = false end.
Proof.
  induction s as [|c s (w & E & Hw & He)]; cbn [skip_word]; [by exists []|]. fold (word_char c). destruct (word_char c) eqn:Ec.
  - exists (c :: w). cbn. split; [by f_equal|]. split; [by constructor|done].
  - by exists [].
Qed.

Lemma suffix_len (s t : list Z) : s `suffix_of` t -> (length s <= length t)%nat.
Proof. apply suffix_length. Qed.

(** A token: where it lies, that it takes characters, and the words. *)
Lemma gettoken_spec line s :
  s `suffix_of` line ->
  exists tok q eq s', gettoken s = Ok ((tok, q, eq), s') /\ s' `suffix_of` s /\
    (skip_white s <> [] -> (length s' < length s)%nat) /\ (tok = 97 -> word line (q, eq)).
Proof.
  intros Hl. unfold gettoken. pose proof (skip_white_suffix s) as Hs. destruct (skip_white s) as [|c r] eqn:E.
  { exists 0, [], [], []. split; [done|]. split; [apply suffix_nil|]. split; [done|]. intros [=]. }
  pose proof (suffix_len _ _ Hs) as Hlen. cbn in Hlen.
  assert (Hsub : forall e, e `suffix_of` r -> skip_white e `suffix_of` s /\ (length (skip_white e) < length s)%nat).
  { intros e He. assert (H1 : skip_white e `suffix_of` r) by (etransitivity; [apply skip_white_suffix|done]).
    split; [|pose proof (suffix_len _ _ H1); lia]. etransitivity; [by apply suffix_cons_r|exact Hs]. }
  destruct (strchr [124; 40; 41; 59; 38; 60] c) eqn:E1.
  { eexists c, _, _, _. split; [reflexivity|]. destruct (Hsub r) as [H1 H2]; [done|].
    split; [done|]. split; [done|]. intros ->. discriminate E1. }
  destruct (Z.eqb_spec c 62) as [->|Hne].
  { destruct r as [|d r'].
    - eexists 62, _, _, _. split; [reflexivity|]. destruct (Hsub []) as [H1 H2]; [done|]. split; [done|]. split; [done|]. intros [=].
    - destruct (d =? 62).
      + eexists 43, _, _, _. split; [reflexivity|]. destruct (Hsub r') as [H1 H2]; [by apply suffix_cons_r|].
        split; [done|]. split; [done|]. intros [=].
      + eexists 62, _, _, _. split; [reflexivity|]. destruct (Hsub (d :: r')) as [H1 H2]; [done|].
        split; [done|]. split; [done|]. intros [=]. }
  assert (Hc : word_char c = true).
  { unfold word_char. rewrite (skip_white_head s c r E). cbn in E1 |- *. apply orb_false_iff in E1 as [E0 E1].
    repeat (apply orb_false_iff in E1 as [?E E1]). rewrite E0, E2, E3, E4, E5, E6. by destruct (Z.eqb_spec c 62). }
  eexists 97, _, _, _. split; [reflexivity|]. cbn [skip_word]. fold (word_char c). rewrite Hc.
  destruct (skip_word_spec r) as (w & Er & Hw & He).
  destruct (Hsub (skip_word r)) as [H1 H2]; [by exists w|]. split; [done|]. split; [done|]. intros _. split; cbn [fst snd].
  - by etransitivity.
  - exists (c :: w). cbn. split; [by f_equal|]. split; [done|by constructor].
  - done.
Qed.

Lemma peek_spec toks s :
  exists b, peek toks s = Ok (b, skip_white s) /\ (b = true -> skip_white s <> []).
Proof. unfold peek. eexists. split; [reflexivity|]. by destruct (skip_white s). Qed.

(** ** The parser ends *)

Section Sound.
Context (line : list Z).

(** A run from [s] ends, with the position further on and words only. *)
Definition sound (o : outcome (cmd * ptr)) (s : ptr) : Prop :=
  match o with
  | Ok (c, s') => s' `suffix_of` s /\ words line c
  | Panic msg => msg <> "out of fuel"%string
  end.

Lemma sound_weaken o s t : sound o s -> s `suffix_of` t -> sound o t.
Proof. destruct o as [[c s']|]; cbn; [|done]. intros [H1 H2] H. split; [by etransitivity|done]. Qed.

(** Running one part after another. *)
Lemma sound_bind (m : kM ptr cmd) (k : cmd -> kM ptr cmd) s :
  sound (m s) s -> (forall c s', s' `suffix_of` s -> words line c -> sound (k c s') s') -> sound ((c ← m; k c) s) s.
Proof.
  intros Hm Hk. unfold mbind, kM_bind. destruct (m s) as [[c s']|msg]; [|done]. destruct Hm as [H1 H2].
  eapply sound_weaken; [|exact H1]. by apply Hk.
Qed.

(** A token in front of the rest. *)
Lemma sound_token (k : Z * ptr * ptr -> kM ptr cmd) s :
  s `suffix_of` line ->
  (forall tok q eq s', s' `suffix_of` s -> (skip_white s <> [] -> (length s' < length s)%nat) ->
     (tok = 97 -> word line (q, eq)) -> sound (k (tok, q, eq) s') s') ->
  sound ((w ← gettoken; k w) s) s.
Proof.
  intros Hs Hk. destruct (gettoken_spec line s Hs) as (tok & q & eq & s' & R & H1 & H2 & H3).
  rewrite (kM_bind_run _ _ _ _ _ R). eapply sound_weaken; [|exact H1]. by apply Hk.
Qed.

Lemma sound_peek toks (k : bool -> kM ptr cmd) s :
  (forall b, (b = true -> skip_white s <> []) -> sound (k b (skip_white s)) (skip_white s)) ->
  sound ((b ← peek toks; k b) s) s.
Proof.
  intros Hk. destruct (peek_spec toks s) as (b & R & Hb). rewrite (kM_bind_run _ _ _ _ _ R).
  eapply sound_weaken; [by apply Hk|apply skip_white_suffix].
Qed.

Lemma white_len s : (length (skip_white s) <= length s)%nat.
Proof. apply suffix_len, skip_white_suffix. Qed.

Lemma redirs_loop_sound fuel c s :
  s `suffix_of` line -> words line c -> (length s < fuel)%nat -> sound (parseredirs_loop fuel c s) s.
Proof.
  revert c s. induction fuel as [|fuel IH]; intros c s Hs Hc Hf; [lia|]. cbn [parseredirs_loop].
  pose proof (white_len s) as Hlen. apply sound_peek. intros b Hb. destruct b; cbn [negb]; [|by split].
  assert (Hw : skip_white s `suffix_of` line) by (etransitivity; [apply skip_white_suffix|done]).
  apply sound_token; [done|]. intros t q0 e0 s1 H1 L1 _. rewrite skip_white_idem in L1. specialize (L1 (Hb eq_refl)).
  apply sound_token; [by etransitivity|]. intros tok q eq s2 H2 _ Hword. cbv beta zeta. cbn [fst snd].
  destruct (Z.eqb_spec tok 97) as [->|]; cbn [negb]; [|done].
  pose proof (suffix_len _ _ H2) as L2. apply IH; [by do 2 (etransitivity; [eassumption|])| |lia].
  specialize (Hword eq_refl). destruct Hc as [Hc Hfd]. assert (Hcq : Forall (word line) (ptrs c ++ [(q, eq)])).
  { apply Forall_app. split; [done|by constructor]. }
  destruct (t =? 60); [|destruct (t =? 62); [|destruct (t =? 43); [|done]]]; 
    (split; [done|split; [done|unfold redir_ok; auto]]).
Qed.

Lemma parseredirs_sound c s : s `suffix_of` line -> words line c -> sound (parseredirs c s) s.
Proof.
  intros Hs Hc. unfold parseredirs. erewrite kM_bind_run by reflexivity. apply redirs_loop_sound; [done|done|lia].
Qed.

Lemma fill_words ret args :
  words line ret -> Forall (word line) args -> (length args < MAXARGS)%nat -> words line (fill ret args).
Proof.
  intros [Hr Hfd] Ha Hl. induction ret as [argv|c IH q eq mode fd|l _ r _|l _ r _|c _]; cbn [fill]; try done.
  cbn [ptrs cmd_ok] in *. apply Forall_app in Hr as [H1 H2]. destruct Hfd as [Hfd Hfd0]. destruct (IH H1 Hfd) as [I1 I2].
  split; [apply Forall_app; auto|done].
Qed.

Lemma exec_loop_sound fuel ret args s :
  s `suffix_of` line -> words line ret -> Forall (word line) args -> (length args < MAXARGS)%nat -> (length s < fuel)%nat ->
  sound (parseexec_loop fuel ret args s) s.
Proof.
  revert ret args s. induction fuel as [|fuel IH]; intros ret args s Hs Hr Ha Hm Hf; [lia|]. cbn [parseexec_loop].
  pose proof (white_len s) as Hlen. apply sound_peek. intros b Hb.
  destruct b; [split; [done|by apply fill_words]|].
  assert (Hw : skip_white s `suffix_of` line) by (etransitivity; [apply skip_white_suffix|done]).
  destruct (gettoken_spec line (skip_white s) Hw) as (tok & q & eq & s1 & R & H1 & L1 & Hword).
  rewrite (kM_bind_run _ _ _ _ _ R). rewrite skip_white_idem in L1.
  destruct (Z.eqb_spec tok 0) as [->|Hne]; [split; [done|by apply fill_words]|].
  destruct (Z.eqb_spec tok 97) as [->|]; cbn [negb]; [|done].
  destruct (Nat.leb_spec MAXARGS (length (args ++ [(q, eq)]))) as [|Hm']; [done|]. specialize (Hword eq_refl).
  assert (L : (length s1 < length s)%nat).
  { destruct (skip_white s) as [|c r] eqn:E; [|specialize (L1 ltac:(done)); lia].
    unfold gettoken in R. cbn in R. injection R as R _. discriminate R. }
  eapply sound_weaken; [|exact H1]. apply sound_bind; [apply parseredirs_sound; [by etransitivity|done]|].
  intros c s2 H2 Hc. pose proof (suffix_len _ _ H2). apply IH; try done.
  - by do 2 (etransitivity; [eassumption|]).
  - apply Forall_app. split; [done|by constructor].
  - lia.
Qed.

Lemma back_loop_sound fuel c s :
  s `suffix_of` line -> words line c -> (length s < fuel)%nat -> sound (back_loop fuel c s) s.
Proof.
  revert c s. induction fuel as [|fuel IH]; intros c s Hs Hc Hf; [lia|]. cbn [back_loop].
  pose proof (white_len s) as Hlen. apply sound_peek. intros b Hb. destruct b; [|by split].
  assert (Hw : skip_white s `suffix_of` line) by (etransitivity; [apply skip_white_suffix|done]).
  apply sound_token; [done|]. intros t q0 e0 s1 H1 L1 _. rewrite skip_white_idem in L1. specialize (L1 (Hb eq_refl)).
  apply IH; [by etransitivity|done|lia].
Qed.

Lemma words_app l r : words line l -> words line r -> words line (PIPE l r) /\ words line (LIST l r).
Proof. intros [H1 H2] [H3 H4]. split; (split; [by apply Forall_app|done]). Qed.

Lemma parse_sound fuel :
  (forall s, s `suffix_of` line -> (4 * length s + 4 <= fuel)%nat -> sound (parseline fuel s) s) /\
  (forall s, s `suffix_of` line -> (4 * length s + 3 <= fuel)%nat -> sound (parsepipe fuel s) s) /\
  (forall s, s `suffix_of` line -> (4 * length s + 2 <= fuel)%nat -> sound (parseexec fuel s) s) /\
  (forall s, s `suffix_of` line -> (4 * length s + 1 <= fuel)%nat -> sound (parseblock fuel s) s).
Proof.
  induction fuel as [|fuel (IHl & IHp & IHe & IHb)]; [split_and!; intros; lia|].
  assert (Hsub : forall s, s `suffix_of` line -> skip_white s `suffix_of` line)
    by (intros s Hs; etransitivity; [apply skip_white_suffix|done]).
  split_and!; intros s Hs Hf; cbn [parseline parsepipe parseexec parseblock].
  - apply sound_bind; [apply IHp; [done|lia]|]. intros c s1 H1 Hc. pose proof (suffix_len _ _ H1) as W0.
    erewrite kM_bind_run by reflexivity. assert (Hs1 : s1 `suffix_of` line) by (by etransitivity).
    apply sound_bind; [apply back_loop_sound; [done|done|lia]|]. intros c2 s2 H2 Hc2. pose proof (suffix_len _ _ H2) as W1.
    assert (Hs2 : s2 `suffix_of` line) by (by etransitivity). pose proof (white_len s2) as W2.
    apply sound_peek. intros b Hb. destruct b; [|by split].
    apply sound_token; [by apply Hsub|]. intros t q0 e0 s3 H3 L3 _. rewrite skip_white_idem in L3. specialize (L3 (Hb eq_refl)).
    apply sound_bind; [apply IHl; [etransitivity; [exact H3|by apply Hsub]|lia]|]. intros r s4 H4 Hr.
    split; [done|]. by apply words_app.
  - apply sound_bind; [apply IHe; [done|lia]|]. intros c s1 H1 Hc. pose proof (suffix_len _ _ H1) as W3.
    assert (Hs1 : s1 `suffix_of` line) by (by etransitivity). pose proof (white_len s1) as W4.
    apply sound_peek. intros b Hb. destruct b; [|by split].
    apply sound_token; [by apply Hsub|]. intros t q0 e0 s3 H3 L3 _. rewrite skip_white_idem in L3. specialize (L3 (Hb eq_refl)).
    apply sound_bind; [apply IHp; [etransitivity; [exact H3|by apply Hsub]|lia]|]. intros r s4 H4 Hr.
    split; [done|]. by apply words_app.
  - pose proof (white_len s) as W5. apply sound_peek. intros b Hb. destruct b; [apply IHb; [by apply Hsub|lia]|].
    apply sound_bind; [apply parseredirs_sound; [by apply Hsub|split; [constructor|cbn; unfold MAXARGS; lia]]|]. intros c s1 H1 Hc.
    erewrite kM_bind_run by reflexivity. apply exec_loop_sound; [etransitivity; [exact H1|by apply Hsub]|done|constructor|cbn; unfold MAXARGS; lia|lia].
  - pose proof (white_len s) as W6. apply sound_peek. intros b Hb. destruct b; cbn [negb]; [|done].
    apply sound_token; [by apply Hsub|]. intros t q0 e0 s1 H1 L1 _. rewrite skip_white_idem in L1. specialize (L1 (Hb eq_refl)).
    assert (Hs1 : s1 `suffix_of` line) by (etransitivity; [exact H1|by apply Hsub]).
    apply sound_bind; [apply IHl; [done|lia]|]. intros c s2 H2 Hc. assert (Hs2 : s2 `suffix_of` line) by (by etransitivity).
    apply sound_peek. intros b2 Hb2. destruct b2; cbn [negb]; [|done].
    apply sound_token; [by apply Hsub|]. intros t2 q2 e2 s3 H3 L3 _.
    apply parseredirs_sound; [etransitivity; [exact H3|by apply Hsub]|done].
Qed.
End Sound.

(** ** The strings *)

Lemma nulterminate_fold line c m :
  nulterminate line c m = foldl (fun m a => put_nul line m a.2) m (ptrs c).
Proof.
  revert m. induction c as [argv|c IH q eq mode fd|l IHl r IHr|l IHl r IHr|c IH]; intros m; cbn [nulterminate ptrs].
  - done.
  - rewrite foldl_app. cbn. by rewrite IH.
  - by rewrite foldl_app, IHl, IHr.
  - by rewrite foldl_app, IHl, IHr.
  - apply IH.
Qed.

Definition ends (line : list Z) (l : list (ptr * ptr)) : list nat := (fun a => addr line a.2) <$> l.

(** The NULs are at the ends of words and nowhere else. *)
Lemma nuls_lookup line (l : list (ptr * ptr)) m i :
  (i < length m)%nat ->
  foldl (fun m a => put_nul line m a.2) m l !! i =
  if bool_decide (i ∈ ends line l) then Some 0 else m !! i.
Proof.
  revert m. induction l as [|a l IH]; intros m Hi; cbn [foldl]; [by rewrite bool_decide_eq_false_2 by (by intros ?%elem_of_nil)|].
  rewrite IH by (unfold put_nul; by rewrite length_insert). cbn [ends fmap list_fmap].
  change ((fun a => addr line a.2) <$> l) with (ends line l).
  destruct (decide (i ∈ ends line l)) as [Hin|Hin].
  - rewrite !bool_decide_eq_true_2; [done|by right|done].
  - rewrite (bool_decide_eq_false_2 (i ∈ ends line l)) by done. unfold put_nul.
    destruct (decide (i = addr line a.2)) as [->|Hne].
    + rewrite bool_decide_eq_true_2 by (by left). by apply list_lookup_insert_eq.
    + rewrite bool_decide_eq_false_2 by (intros [?|?]%elem_of_cons; done). by rewrite list_lookup_insert_ne.
Qed.

Lemma suffix_lookup (line p : list Z) i : p `suffix_of` line -> line !! (addr line p + i)%nat = p !! i.
Proof.
  intros [k ->]. unfold addr. rewrite length_app. replace (length k + length p - length p + i)%nat with (length k + i)%nat by lia.
  rewrite lookup_app_r by lia. f_equal. lia.
Qed.

Lemma front_lookup (p w e : list Z) i c : p = w ++ e -> w !! i = Some c -> p !! i = Some c.
Proof. intros ->. apply lookup_app_l_Some. Qed.

(** No end of a word lies inside a word. *)
Lemma word_safe line a b i :
  word line a -> word line b -> (addr line a.1 <= i < addr line a.2)%nat -> i <> addr line b.2.
Proof.
  intros [A1 (w & Ea & Hw & Hf) _] [B1 (v & Eb & _ & _) B3] Hi E.
  assert (Hb2 : b.2 `suffix_of` line) by (etransitivity; [|exact B1]; rewrite Eb; by exists v).
  assert (Ha2 : a.2 `suffix_of` line) by (etransitivity; [|exact A1]; rewrite Ea; by exists w).
  pose proof (suffix_len _ _ A1) as L1. pose proof (suffix_len _ _ Hb2) as L2. pose proof (suffix_len _ _ Ha2) as L3.
  assert (Hlen : length a.1 = (length w + length a.2)%nat) by (rewrite Ea, length_app; done).
  assert (Hc : exists c, line !! i = Some c /\ word_char c = true).
  { assert (Hk : (i - addr line a.1 < length w)%nat) by (unfold addr in *; lia).
    destruct (lookup_lt_is_Some_2 w _ Hk) as [c Hc]. exists c. split; [|by eapply (Forall_lookup_1 _ _ _ _ Hf)].
    replace i with (addr line a.1 + (i - addr line a.1))%nat by lia. rewrite suffix_lookup by done.
    by eapply front_lookup. }
  destruct Hc as (c & Hc & Hcw). rewrite E, <- (Nat.add_0_r (addr line b.2)), suffix_lookup in Hc by done.
  destruct b.2 as [|d r]; [done|]. cbn in Hc. injection Hc as ->. congruence.
Qed.

Lemma cstr_at m a w :
  (forall i c, w !! i = Some c -> m !! (a + i)%nat = Some c) -> m !! (a + length w)%nat = Some 0 ->
  Forall (fun c => c <> 0) w -> cstr (drop a m) = w.
Proof.
  revert a. induction w as [|c w IH]; intros a Hw H0 Hnz.
  - cbn in H0. rewrite Nat.add_0_r in H0. by rewrite (drop_S _ _ _ H0).
  - apply Forall_cons in Hnz as [Hc Hnz]. pose proof (Hw 0%nat c eq_refl) as E. rewrite Nat.add_0_r in E.
    rewrite (drop_S _ _ _ E). cbn. destruct (Z.eqb_spec c 0); [done|]. f_equal. apply IH; [|cbn in H0; by rewrite Nat.add_succ_comm|done].
    intros i d Hd. rewrite Nat.add_succ_comm. by apply Hw.
Qed.

Lemma text_word line a w : word line a -> a.1 = w ++ a.2 -> text a = w.
Proof. intros _ E. unfold text. rewrite E, length_app, Nat.add_sub. apply take_app_length. Qed.

Lemma parsecmd_run line :
  Forall (fun c => c <> 0) line ->
  match parsecmd line with
  | Ok (c, m) => Forall (fun a => str_at line m a.1 = text a /\ text a <> [] /\ Forall (fun x => word_char x = true) (text a)) (ptrs c) /\ cmd_ok c
  | Panic msg => msg <> "out of fuel"%string
  end.
Proof.
  intros Hnz. destruct (parse_sound line (4 * length line + 4)) as [H _]. specialize (H line ltac:(done) ltac:(lia)).
  unfold parsecmd, parse. destruct (parseline (4 * length line + 4) line) as [[c s]|msg]; [|done]. cbn [mbind outcome_bind].
  unfold peek at 1. cbn [mbind outcome_bind snd]. destruct (length (skip_white s) =? 0)%nat; cbn; [|done].
  destruct H as [_ [Hc Hfd]]. split; [|done]. apply Forall_forall. intros a Ha. rewrite Forall_forall in Hc.
  pose proof (Hc a Ha) as Wa. destruct Wa as [A1 (w & Ea & Hw & Hf) A3].
  assert (Et : text a = w) by (by eapply text_word; [apply Hc|]). rewrite Et. split; [|done].
  assert (Ha2 : a.2 `suffix_of` line) by (etransitivity; [|exact A1]; rewrite Ea; by exists w).
  pose proof (suffix_len _ _ A1) as L1. pose proof (suffix_len _ _ Ha2) as L2.
  assert (Hlen : length a.1 = (length w + length a.2)%nat) by (rewrite Ea, length_app; done).
  unfold str_at. rewrite nulterminate_fold. apply cstr_at.
  - intros i x Hx. pose proof (lookup_lt_Some _ _ _ Hx) as Hi.
    rewrite nuls_lookup by (rewrite length_app; cbn; unfold addr; lia). rewrite bool_decide_eq_false_2.
    + rewrite lookup_app_l by (unfold addr; lia). rewrite suffix_lookup by done. by eapply front_lookup.
    + intros (b & E & Hb)%list_elem_of_fmap. revert E. eapply (word_safe line a b); [by apply Hc|by apply Hc|unfold addr in *; lia].
  - rewrite nuls_lookup by (rewrite length_app; cbn; unfold addr; lia). rewrite bool_decide_eq_true_2; [done|].
    apply list_elem_of_fmap. exists a. split; [|done]. unfold addr. lia.
  - rewrite Forall_forall in Hnz |- *. intros x Hx. apply Hnz. destruct A1 as [k ->]. rewrite Ea. set_solver.
Qed.

(** On every line the parser ends: it returns a command or calls [panic].
    When it returns, every string of the command, as the program that is run
    will see it after the NULs are written, is the word of the line that the
    parser delimited, complete and in one piece. *)
Theorem parsecmd_strings line :
  Forall (fun c => c <> 0) line ->
  match parsecmd line with
  | Ok (c, m) => Forall (fun a => str_at line m a.1 = text a /\ text a <> [] /\ Forall (fun x => word_char x = true) (text a)) (ptrs c)
  | Panic msg => msg <> "out of fuel"%string
  end.
Proof.
  intros Hnz. pose proof (parsecmd_run line Hnz) as H. destruct (parsecmd line) as [[c m]|]; [|done]. by destruct H.
Qed.

(** ** Printing and parsing again

    A command with the strings in place of the pointers, and how it is
    written: with parentheses where the grammar needs them and a blank after
    every token. *)

Inductive tree :=
| TExec (args : list (list Z))
| TRedir (t : tree) (file : list Z) (mode fd : Z)
| TPipe (l r : tree)
| TList (l r : tree)
| TBack (t : tree).

Fixpoint erase (c : cmd) : tree :=
  match c with
  | EXEC argv => TExec (text <$> argv)
  | REDIR c q eq mode fd => TRedir (erase c) (text (q, eq)) mode fd
  | PIPE l r => TPipe (erase l) (erase r)
  | LIST l r => TList (erase l) (erase r)
  | BACK c => TBack (erase c)
  end.

Definition ok_word (w : list Z) : Prop := w <> [] /\ Forall (fun c => word_char c = true) w.

(** What can be written: words, fewer arguments than [MAXARGS], and the two
    modes of redirection. *)
Fixpoint ok_tree (t : tree) : Prop :=
  match t with
  | TExec args => Forall ok_word args /\ (length args < MAXARGS)%nat
  | TRedir t file mode fd =>
      ok_tree t /\ ok_word file /\ redir_ok mode fd
  | TPipe l r | TList l r => ok_tree l /\ ok_tree r
  | TBack t => ok_tree t
  end.

(** Where a command stands: as a line, before an ampersand, in a pipeline, or
    between its bars. *)
Inductive level := LLine | LBack | LPipe | LExec.

Definition within (v : level) (ls : list level) : bool :=
  existsb (fun w => match v, w with LLine, LLine | LBack, LBack | LPipe, LPipe | LExec, LExec => true | _, _ => false end) ls.

Definition paren (b : bool) (ts : list (list Z)) : list (list Z) := if b then [40] :: ts ++ [[41]] else ts.

Fixpoint pr (v : level) (t : tree) : list (list Z) :=
  match t with
  | TExec args => args
  | TRedir t file mode fd => pr LExec t ++ [[if fd =? 0 then 60 else 62]; file]
  | TPipe l r => paren (within v [LExec]) (pr LExec l ++ [124] :: pr LPipe r)
  | TList l r => paren (within v [LBack; LPipe; LExec]) (pr LBack l ++ [59] :: pr LLine r)
  | TBack t => paren (within v [LPipe; LExec]) (pr LBack t ++ [[38]])
  end.

Fixpoint render (ts : list (list Z)) : list Z :=
  match ts with
  | [] => []
  | t :: ts => t ++ 32 :: render ts
  end.

Definition print (t : tree) : list Z := render (pr LLine t).

(** *** Tokens *)

(** A symbol other than the one that opens a block stands alone. *)
Definition is_sym (t : list Z) : Prop := exists c, t = [c] /\ strchr symbols c = true.
Definition tok_ok (t : list Z) : Prop := is_sym t \/ ok_word t.

Lemma sym_cases c : strchr symbols c = true -> c ∈ symbols.
Proof.
  unfold strchr. intros (x & Hx & E)%existsb_exists. apply Z.eqb_eq in E as ->. by apply list_elem_of_In.
Qed.

Lemma sym_not_white c : strchr symbols c = true -> strchr whitespace c = false.
Proof.
  intros H%sym_cases. unfold symbols in H. repeat (apply elem_of_cons in H as [->|H]; [done|]). by apply elem_of_nil in H.
Qed.

Lemma tok_head t : tok_ok t -> exists c r, t = c :: r /\ strchr whitespace c = false.
Proof.
  intros [(c & -> & Hc)|[Hne Hf]]; [exists c, []; split; [done|by apply sym_not_white]|].
  destruct t as [|c r]; [done|]. exists c, r. split; [done|]. apply Forall_cons in Hf as [Hc _].
  unfold word_char in Hc. apply andb_true_iff in Hc as [Hc _]. by apply negb_true_iff in Hc.
Qed.

Lemma skip_white_render ts : Forall tok_ok ts -> skip_white (render ts) = render ts.
Proof.
  intros H. destruct H as [|t ts Ht _]; [done|]. destruct (tok_head t Ht) as (c & r & -> & Hc).
  cbn [render app skip_white]. by rewrite Hc.
Qed.

Lemma skip_blank ts : Forall tok_ok ts -> skip_white (32 :: render ts) = render ts.
Proof. intros H. cbn [skip_white]. change (strchr whitespace 32) with true. cbv iota. by apply skip_white_render. Qed.

Lemma skip_word_app w s : Forall (fun c => word_char c = true) w -> skip_word (w ++ 32 :: s) = 32 :: s.
Proof.
  induction 1 as [|c w Hc _ IH]; [done|]. cbn [app skip_word]. fold (word_char c). by rewrite Hc.
Qed.

Lemma gettoken_word w ts :
  ok_word w -> Forall tok_ok ts ->
  exists q eq, gettoken (render (w :: ts)) = Ok ((97, q, eq), render ts) /\ text (q, eq) = w.
Proof.
  intros [Hne Hf] Hts. unfold gettoken. rewrite skip_white_render by (constructor; [by right|done]). cbn [render].
  destruct w as [|c w]; [done|]. pose proof Hf as Hf'. apply Forall_cons in Hf' as [Hc _]. cbn [app].
  assert (Hs : strchr symbols c = false).
  { unfold word_char in Hc. apply andb_true_iff in Hc as [_ Hc]. by apply negb_true_iff in Hc. }
  unfold symbols, strchr in Hs. cbn in Hs. repeat (apply orb_false_iff in Hs as [?E Hs]).
  unfold strchr at 1. cbn [existsb]. rewrite E, E0, E1, E2, E3, E4, E5. cbn [orb].
  eexists _, _. change (c :: w ++ 32 :: render ts) with ((c :: w) ++ 32 :: render ts). rewrite skip_word_app by done.
  rewrite skip_blank by done. split; [reflexivity|]. unfold text. cbn [fst snd].
  rewrite length_app, Nat.add_sub. apply take_app_length.
Qed.

Lemma gettoken_sym c ts :
  strchr symbols c = true -> Forall tok_ok ts ->
  exists q eq, gettoken (render ([c] :: ts)) = Ok ((c, q, eq), render ts).
Proof.
  intros Hc Hts. unfold gettoken. rewrite skip_white_render by (constructor; [left; by exists c|done]).
  cbn [render app]. apply sym_cases in Hc. unfold symbols in Hc.
  repeat (apply elem_of_cons in Hc as [->|Hc]; [eexists _, _; cbn -[skip_white]; by rewrite skip_blank by done|]).
  by apply elem_of_nil in Hc.
Qed.

(** The first character of what follows. *)
Definition starts (toks : list Z) (ts : list (list Z)) : bool :=
  match ts with (c :: _) :: _ => strchr toks c | _ => false end.

Lemma peek_render toks ts : Forall tok_ok ts -> peek toks (render ts) = Ok (starts toks ts, render ts).
Proof.
  intros H. unfold peek. rewrite skip_white_render by done. destruct H as [|t ts Ht _]; [done|].
  by destruct (tok_head t Ht) as (c & r & -> & _).
Qed.

(** What may follow: the end or one of these symbols. *)
Definition follow (l : list Z) (k : list (list Z)) : Prop := k = [] \/ exists c k', k = [c] :: k' /\ strchr l c = true.

Lemma follow_mono l l' k : (forall c, strchr l c = true -> strchr l' c = true) -> follow l k -> follow l' k.
Proof. intros H [->|(c & k' & -> & Hc)]; [by left|right]. eauto. Qed.

Lemma follow_starts l toks k :
  follow l k -> forallb (fun c => negb (strchr toks c)) l = true -> starts toks k = false.
Proof.
  intros [->|(c & k' & -> & Hc)] H; [done|]. cbn. unfold strchr in Hc. apply existsb_exists in Hc as (x & Hx & E).
  apply Z.eqb_eq in E as ->. rewrite forallb_forall in H. specialize (H x Hx). by apply negb_true_iff in H.
Qed.

Lemma word_starts w ts toks : ok_word w -> forallb (strchr symbols) toks = true -> starts toks (w :: ts) = false.
Proof.
  intros [Hne Hf] Ht. destruct w as [|c w]; [done|]. cbn. apply Forall_cons in Hf as [Hc _]. unfold word_char in Hc.
  apply andb_true_iff in Hc as [_ Hc]. apply negb_true_iff in Hc.
  destruct (strchr toks c) eqn:E; [|done]. exfalso. unfold strchr in E. apply existsb_exists in E as (x & Hx & E).
  apply Z.eqb_eq in E as ->. rewrite forallb_forall in Ht. rewrite (Ht x Hx) in Hc. done.
Qed.

Lemma render_app a b : render (a ++ b) = render a ++ render b.
Proof. induction a as [|t a IH]; cbn; [done|]. by rewrite IH, <- app_assoc. Qed.

Lemma render_length ts : (length ts <= length (render ts))%nat.
Proof. induction ts as [|t ts IH]; cbn [render length]; [lia|]. rewrite length_app. cbn [length]. lia. Qed.

(** *** The parser on printed tokens *)

(** The parser [m] reads the tree [t] off the tokens and leaves [k]. *)
Definition gives (m : kM ptr cmd) (ts : list (list Z)) (t : tree) (k : list (list Z)) : Prop :=
  exists c, m (render ts) = Ok (c, render k) /\ erase c = t.

Definition redir := (list Z * Z * Z)%type.
Definition rwrap (t : tree) (r : redir) : tree := TRedir t r.1.1 r.1.2 r.2.
Definition rtoks (rs : list redir) : list (list Z) :=
  r ← rs; [[if r.2 =? 0 then 60 else 62]; r.1.1].
Definition ok_redir (r : redir) : Prop :=
  ok_word r.1.1 /\ ((r.1.2 = O_RDONLY /\ r.2 = 0) \/ (r.1.2 = Z.lor O_WRONLY O_CREATE /\ r.2 = 1)).

Lemma rtoks_ok rs : Forall ok_redir rs -> Forall tok_ok (rtoks rs).
Proof.
  induction 1 as [|r rs [Hw Hm] _ IH]; [constructor|]. unfold rtoks in *. cbn. constructor; [left; eexists; split; [done|]|constructor; [by right|done]].
  by destruct (r.2 =? 0).
Qed.

Lemma redirs_loop_print fuel c rs k :
  Forall ok_redir rs -> Forall tok_ok k -> starts [60; 62] k = false -> (length rs < fuel)%nat ->
  exists c', parseredirs_loop fuel c (render (rtoks rs ++ k)) = Ok (c', render k) /\ erase c' = foldl rwrap (erase c) rs.
Proof.
  intros Hrs Hk Hs. revert fuel c. induction Hrs as [|[[file mode] fd] rs [Hw Hm] Hrs IH]; intros fuel c Hf;
    (destruct fuel as [|fuel]; [cbn in Hf; lia|]).
  - cbn [parseredirs_loop rtoks app]. change (rtoks []) with (@nil (list Z)). cbn [app].
    rewrite (kM_bind_run _ _ _ _ _ (peek_render _ _ Hk)), Hs. cbn. by exists c.
  - assert (Hok : Forall tok_ok (rtoks rs ++ k)) by (apply Forall_app; split; [by apply rtoks_ok|done]).
    cbn [fst snd] in *. set (sy := if fd =? 0 then 60 else 62).
    assert (Hsy : strchr symbols sy = true /\ strchr [60; 62] sy = true) by (unfold sy; by destruct (fd =? 0)).
    change (rtoks ((file, mode, fd) :: rs) ++ k) with ([sy] :: file :: rtoks rs ++ k).
    assert (Hok1 : Forall tok_ok (file :: rtoks rs ++ k)) by (constructor; [by right|done]).
    assert (Hok2 : Forall tok_ok ([sy] :: file :: rtoks rs ++ k)) by (constructor; [left; exists sy; by destruct Hsy|done]).
    cbn [parseredirs_loop]. rewrite (kM_bind_run _ _ _ _ _ (peek_render _ _ Hok2)). cbn [starts]. rewrite (proj2 Hsy). cbn [negb].
    destruct (gettoken_sym sy _ (proj1 Hsy) Hok1) as (q0 & e0 & R0). rewrite (kM_bind_run _ _ _ _ _ R0).
    destruct (gettoken_word file _ Hw Hok) as (q & eq & R & Et). rewrite (kM_bind_run _ _ _ _ _ R).
    cbn [fst snd]. change (97 =? 97) with true. cbn [negb].
    set (c1 := if sy =? 60 then _ else _).
    assert (Ec : erase c1 = rwrap (erase c) (file, mode, fd)).
    { unfold c1, sy, rwrap. destruct Hm as [[-> ->]|[-> ->]]; cbn -[text Z.lor]; by rewrite Et. }
    destruct (IH fuel c1) as (c' & R' & E'); [cbn in Hf; lia|]. exists c'. split; [exact R'|]. cbn [foldl]. by rewrite E', Ec.
Qed.

Lemma parseredirs_print c rs k :
  Forall ok_redir rs -> Forall tok_ok k -> starts [60; 62] k = false ->
  exists c', parseredirs c (render (rtoks rs ++ k)) = Ok (c', render k) /\ erase c' = foldl rwrap (erase c) rs.
Proof.
  intros Hrs Hk Hs. unfold parseredirs. erewrite kM_bind_run by reflexivity. apply redirs_loop_print; try done.
  pose proof (render_length (rtoks rs ++ k)) as H. rewrite length_app in H.
  assert (Hl : (length rs <= length (rtoks rs))%nat).
  { clear. induction rs as [|r rs IH]; [done|]. unfold rtoks in *. cbn. lia. }
  lia.
Qed.

(** Filling in the arguments. *)
Fixpoint tfill (t : tree) (args : list (list Z)) : tree :=
  match t with
  | TRedir t file mode fd => TRedir (tfill t args) file mode fd
  | _ => TExec args
  end.

Lemma erase_fill ret args : erase (fill ret args) = tfill (erase ret) (text <$> args).
Proof. induction ret; cbn; try done. by f_equal. Qed.

Lemma tfill_wrap rs args : tfill (foldl rwrap (TExec []) rs) args = foldl rwrap (TExec args) rs.
Proof. induction rs as [|r rs IH] using rev_ind; [done|]. rewrite !foldl_app. cbn. by rewrite IH. Qed.

Lemma exec_end fuel ret args k :
  Forall tok_ok k -> follow [41; 38; 59; 124] k -> (0 < fuel)%nat ->
  parseexec_loop fuel ret args (render k) = Ok (fill ret args, render k).
Proof.
  intros Hk Hf Hfuel. destruct fuel as [|fuel]; [lia|]. cbn [parseexec_loop].
  rewrite (kM_bind_run _ _ _ _ _ (peek_render _ _ Hk)). destruct Hf as [->|(c & k' & -> & Hc)]; [done|]. cbn [starts].
  assert (E : strchr [124; 41; 38; 59] c = true).
  { unfold strchr in *. cbn in *. destruct (c =? 41), (c =? 38), (c =? 59), (c =? 124); done. }
  by rewrite E.
Qed.

Lemma exec_args_print ws fuel ret args rs k :
  Forall ok_word ws -> Forall ok_redir rs -> Forall tok_ok k -> follow [41; 38; 59; 124] k ->
  (length args + length ws < MAXARGS)%nat -> (length ws < fuel)%nat -> ws <> [] -> erase ret = TExec [] ->
  exists c, parseexec_loop fuel ret args (render (ws ++ rtoks rs ++ k)) = Ok (c, render k) /\
    erase c = foldl rwrap (TExec ((text <$> args) ++ ws)) rs.
Proof.
  intros Hws Hrs Hk Hfo. pose proof (follow_starts _ [60; 62] _ Hfo eq_refl) as Hnr.
  assert (Hok : Forall tok_ok (rtoks rs ++ k)) by (apply Forall_app; split; [by apply rtoks_ok|done]).
  revert fuel ret args. induction Hws as [|w ws Hw Hws IH]; intros fuel ret args Hlen Hf Hne Er; [done|].
  destruct fuel as [|fuel]; [cbn in Hf; lia|]. cbn [app length] in *.
  assert (Hokw : Forall tok_ok (ws ++ rtoks rs ++ k)).
  { apply Forall_app. split; [|done]. eapply Forall_impl; [exact Hws|]. intros x Hx. by right. }
  cbn [parseexec_loop].
  rewrite (kM_bind_run _ _ _ _ _ (peek_render _ _ (Forall_cons_2 _ _ _ (or_intror Hw) Hokw))).
  rewrite (word_starts w _ [124; 41; 38; 59] Hw eq_refl).
  destruct (gettoken_word w _ Hw Hokw) as (q & eq & R & Et). rewrite (kM_bind_run _ _ _ _ _ R).
  change (97 =? 0) with false. change (97 =? 97) with true. cbn [negb].
  destruct (Nat.leb_spec MAXARGS (length (args ++ [(q, eq)]))) as [Hbad|_]; [rewrite length_app in Hbad; cbn in Hbad; lia|].
  destruct ws as [|w' ws].
  - destruct (parseredirs_print ret rs k Hrs Hk Hnr) as (c' & R' & E'). cbn [app]. rewrite (kM_bind_run _ _ _ _ _ R').
    rewrite exec_end by (done || (cbn in Hf; lia)). eexists. split; [reflexivity|].
    rewrite erase_fill, E', Er, tfill_wrap, fmap_app. cbn [fmap list_fmap]. by rewrite Et.
  - destruct (parseredirs_print ret [] (w' :: ws ++ rtoks rs ++ k)) as (c' & R' & E'); [constructor|done| |].
    { apply Forall_cons in Hws as [Hw' _]. by apply word_starts. }
    change (rtoks [] ++ w' :: ws ++ rtoks rs ++ k) with ((w' :: ws) ++ rtoks rs ++ k) in R'. rewrite (kM_bind_run _ _ _ _ _ R').
    destruct (IH fuel c' (args ++ [(q, eq)])) as (c & Rc & Ec);
      [rewrite length_app; cbn in *; lia|cbn in *; lia|done|by rewrite E', Er|].
    exists c. split; [exact Rc|]. rewrite Ec, fmap_app. cbn [fmap list_fmap]. by rewrite Et, <- app_assoc.
Qed.

(** *** Levels *)

Lemma paren_ok b ts : Forall tok_ok ts -> Forall tok_ok (paren b ts).
Proof.
  intros H. destruct b; [|done]. cbn. constructor; [left; by exists 40|]. apply Forall_app. split; [done|].
  constructor; [left; by exists 41|constructor].
Qed.

Lemma pr_ok v t : ok_tree t -> Forall tok_ok (pr v t).
Proof.
  revert v. induction t as [args|t IH file mode fd|l IHl r IHr|l IHl r IHr|t IH]; intros v Hok; cbn [pr ok_tree] in *.
  - destruct Hok as [Hok _]. eapply Forall_impl; [exact Hok|]. intros x Hx. by right.
  - destruct Hok as (H1 & H2 & _). apply Forall_app. split; [by apply IH|].
    constructor; [left; eexists; split; [done|]; by destruct (fd =? 0)|]. constructor; [by right|constructor].
  - destruct Hok as [H1 H2]. apply paren_ok, Forall_app. split; [by apply IHl|]. constructor; [left; by exists 124|by apply IHr].
  - destruct Hok as [H1 H2]. apply paren_ok, Forall_app. split; [by apply IHl|]. constructor; [left; by exists 59|by apply IHr].
  - apply paren_ok, Forall_app. split; [by apply IH|]. constructor; [left; by exists 38|constructor].
Qed.

Fixpoint size (t : tree) : nat :=
  match t with
  | TExec _ => 1
  | TRedir t _ _ _ | TBack t => S (size t)
  | TPipe l r | TList l r => S (size l + size r)
  end.

Definition is_redir (t : tree) : bool := match t with TRedir _ _ _ _ => true | _ => false end.
Definition is_back (t : tree) : bool := match t with TBack _ => true | _ => false end.

(** The redirections around a command, and the ampersands after one. *)
Lemma redir_core t :
  ok_tree t -> exists t0 rs, t = foldl rwrap t0 rs /\ is_redir t0 = false /\ pr LExec t = pr LExec t0 ++ rtoks rs /\
    (size t0 + length rs = size t)%nat /\ ok_tree t0 /\ Forall ok_redir rs.
Proof.
  induction t as [args|t IH file mode fd|l _ r _|l _ r _|t _]; intros Hok;
    try (eexists _, []; cbn [foldl rtoks]; rewrite app_nil_r, Nat.add_0_r; split_and!; try done; constructor).
  destruct Hok as (H1 & H2 & H3). destruct (IH H1) as (t0 & rs & -> & Hr & Hp & Hs & Hok & Hrs).
  exists t0, (rs ++ [(file, mode, fd)]). rewrite foldl_app, length_app. cbn [length]. split_and!; try done.
  - cbn [pr]. rewrite Hp, <- app_assoc. f_equal. unfold rtoks. by rewrite bind_app.
  - cbn [size]. lia.
  - apply Forall_app. split; [done|]. by constructor.
Qed.

Lemma back_core t :
  ok_tree t -> exists t0 n, t = Nat.iter n TBack t0 /\ is_back t0 = false /\
    pr LBack t = pr LPipe t0 ++ replicate n [38] /\ (size t0 + n = size t)%nat /\ ok_tree t0.
Proof.
  induction t as [args|t _ file mode fd|l _ r _|l _ r _|t IH]; intros Hok;
    try (eexists _, 0%nat; cbn [Nat.iter replicate]; rewrite app_nil_r, Nat.add_0_r; by split_and!).
  destruct (IH Hok) as (t0 & n & -> & Hb & Hp & Hs & Hok0). exists t0, (S n). split_and!; try done.
  - cbn [pr paren within existsb orb]. rewrite Hp, <- app_assoc. f_equal. by rewrite <- replicate_cons_app.
  - cbn [size]. lia.
Qed.

Definition reads_exec (t : tree) : Prop := forall k fuel,
  Forall tok_ok k -> follow [41; 38; 59; 124] k -> (4 * length (render (pr LExec t ++ k)) + 2 <= fuel)%nat ->
  gives (parseexec fuel) (pr LExec t ++ k) t k.
Definition reads_pipe (t : tree) : Prop := forall k fuel,
  Forall tok_ok k -> follow [41; 38; 59] k -> (4 * length (render (pr LPipe t ++ k)) + 3 <= fuel)%nat ->
  gives (parsepipe fuel) (pr LPipe t ++ k) t k.
Definition reads_line (t : tree) : Prop := forall k fuel,
  Forall tok_ok k -> follow [41] k -> (4 * length (render (pr LLine t ++ k)) + 4 <= fuel)%nat ->
  gives (parseline fuel) (pr LLine t ++ k) t k.

Lemma strchr_mono l l' c : forallb (strchr l') l = true -> strchr l c = true -> strchr l' c = true.
Proof.
  intros H Hc. unfold strchr in Hc. apply existsb_exists in Hc as (x & Hx & E). apply Z.eqb_eq in E as ->.
  rewrite forallb_forall in H. by apply H.
Qed.

Lemma reads_exec_exec args rs :
  ok_tree (TExec args) -> Forall ok_redir rs -> pr LExec (foldl rwrap (TExec args) rs) = args ++ rtoks rs ->
  reads_exec (foldl rwrap (TExec args) rs).
Proof.
  intros [Hw Hn] Hrs Hp k fuel Hk Hfo Hf. rewrite Hp in *. rewrite <- app_assoc in *. destruct fuel as [|fuel]; [lia|].
  pose proof (follow_starts _ [60; 62] _ Hfo eq_refl) as Hnr.
  assert (Hok : Forall tok_ok (args ++ rtoks rs ++ k)).
  { repeat (apply Forall_app; split); [|by apply rtoks_ok|done]. eapply Forall_impl; [exact Hw|]. intros x Hx. by right. }
  assert (Hnb : starts [40] (args ++ rtoks rs ++ k) = false).
  { destruct args as [|w args]; [|apply Forall_cons in Hw as [Hw _]; by apply word_starts]. destruct rs as [|r rs]; cbn.
    - by apply (follow_starts _ _ _ Hfo).
    - by destruct (r.2 =? 0). }
  unfold gives. cbn [parseexec]. rewrite (kM_bind_run _ _ _ _ _ (peek_render _ _ Hok)), Hnb.
  destruct args as [|w args].
  - destruct (parseredirs_print (EXEC []) rs k Hrs Hk Hnr) as (c & R & E). cbn [app]. rewrite (kM_bind_run _ _ _ _ _ R).
    erewrite kM_bind_run by reflexivity. rewrite exec_end by (done || lia). eexists. split; [reflexivity|].
    rewrite erase_fill, E. apply tfill_wrap.
  - destruct (parseredirs_print (EXEC []) [] ((w :: args) ++ rtoks rs ++ k)) as (c & R & E); [constructor|done| |].
    { apply Forall_cons in Hw as [Hw _]. by apply word_starts. }
    cbn [rtoks mbind list_bind app] in R. rewrite (kM_bind_run _ _ _ _ _ R). erewrite kM_bind_run by reflexivity.
    destruct (exec_args_print (w :: args) (S (length (render ((w :: args) ++ rtoks rs ++ k)))) c [] rs k) as (c' & R' & E'); try done.
    + pose proof (render_length ((w :: args) ++ rtoks rs ++ k)) as Hl. rewrite length_app in Hl. lia.
    + exists c'. split; [exact R'|done].
Qed.

Lemma reads_exec_block t rs :
  ok_tree t -> Forall ok_redir rs -> pr LExec t = [40] :: pr LLine t ++ [[41]] ->
  pr LExec (foldl rwrap t rs) = pr LExec t ++ rtoks rs -> reads_line t -> reads_exec (foldl rwrap t rs).
Proof.
  intros Hok Hrs Ht Hp HL k fuel Hk Hfo Hf. rewrite Hp, Ht in *. pose proof (follow_starts _ [60; 62] _ Hfo eq_refl) as Hnr.
  destruct fuel as [|[|fuel]]; [lia..|]. pose proof (rtoks_ok rs Hrs) as Hro. pose proof (pr_ok LLine t Hok) as Hlo.
  cbn [app] in *. rewrite <- !app_assoc in *. cbn [app] in *.
  assert (Hok2 : Forall tok_ok ([41] :: rtoks rs ++ k)) by (constructor; [left; by exists 41|by apply Forall_app]).
  assert (Hok1 : Forall tok_ok (pr LLine t ++ [41] :: rtoks rs ++ k)) by (by apply Forall_app).
  assert (Hok0 : Forall tok_ok ([40] :: pr LLine t ++ [41] :: rtoks rs ++ k)) by (constructor; [left; by exists 40|done]).
  unfold gives. cbn [parseexec]. rewrite (kM_bind_run _ _ _ _ _ (peek_render _ _ Hok0)). cbn [starts].
  change (strchr [40] 40) with true. cbv iota. cbn [parseblock].
  rewrite (kM_bind_run _ _ _ _ _ (peek_render _ _ Hok0)). cbn [starts]. change (strchr [40] 40) with true. cbn [negb].
  destruct (gettoken_sym 40 _ eq_refl Hok1) as (q & eq & R). rewrite (kM_bind_run _ _ _ _ _ R).
  destruct (HL ([41] :: rtoks rs ++ k) fuel) as (c & Rc & Ec); [done|right; by exists 41, (rtoks rs ++ k)| |].
  { cbn [render length] in Hf. rewrite length_app in Hf. cbn [length] in Hf. lia. }
  rewrite (kM_bind_run _ _ _ _ _ Rc), (kM_bind_run _ _ _ _ _ (peek_render _ _ Hok2)). cbn [starts].
  change (strchr [41] 41) with true. cbn [negb].
  destruct (gettoken_sym 41 (rtoks rs ++ k) eq_refl ltac:(by apply Forall_app)) as (q' & eq' & R'). rewrite (kM_bind_run _ _ _ _ _ R').
  destruct (parseredirs_print c rs k Hrs Hk Hnr) as (c' & R2 & E2). exists c'. split; [exact R2|]. by rewrite E2, Ec.
Qed.

Lemma reads_pipe_exec t : ok_tree t -> pr LPipe t = pr LExec t -> reads_exec t -> reads_pipe t.
Proof.
  intros Hok Hp HE k fuel Hk Hfo Hf. rewrite Hp in *. destruct fuel as [|fuel]; [lia|].
  destruct (HE k fuel Hk) as (c & R & E); [by apply (follow_mono [41; 38; 59]); [intros x; by apply strchr_mono|]|lia|].
  unfold gives. cbn [parsepipe]. rewrite (kM_bind_run _ _ _ _ _ R), (kM_bind_run _ _ _ _ _ (peek_render _ _ Hk)).
  rewrite (follow_starts _ _ _ Hfo) by done. by exists c.
Qed.

Lemma reads_pipe_pipe l r : ok_tree (TPipe l r) -> reads_exec l -> reads_pipe r -> reads_pipe (TPipe l r).
Proof.
  intros [Hl Hr] HE HP k fuel Hk Hfo Hf. cbn [pr within existsb orb paren] in *. rewrite <- app_assoc in *. cbn [app] in *.
  assert (Hok1 : Forall tok_ok (pr LPipe r ++ k)) by (apply Forall_app; split; [by apply pr_ok|done]).
  assert (Hok : Forall tok_ok ([124] :: pr LPipe r ++ k)) by (constructor; [left; by exists 124|done]).
  destruct fuel as [|fuel]; [lia|]. unfold gives. cbn [parsepipe].
  destruct (HE ([124] :: pr LPipe r ++ k) fuel) as (c & R & E); [done|right; by exists 124, (pr LPipe r ++ k)|lia|].
  rewrite (kM_bind_run _ _ _ _ _ R), (kM_bind_run _ _ _ _ _ (peek_render _ _ Hok)). cbn [starts].
  change (strchr [124] 124) with true. cbv iota.
  destruct (gettoken_sym 124 _ eq_refl Hok1) as (q & eq & Rt). rewrite (kM_bind_run _ _ _ _ _ Rt).
  destruct (HP k fuel) as (c' & R' & E'); [done|done| |].
  { rewrite render_app in Hf. cbn [render app] in Hf. rewrite length_app in Hf. cbn [length] in Hf. lia. }
  rewrite (kM_bind_run _ _ _ _ _ R'). exists (PIPE c c'). split; [done|]. cbn. by rewrite E, E'.
Qed.

Lemma back_loop_print n fuel c k :
  Forall tok_ok k -> starts [38] k = false -> (n < fuel)%nat ->
  back_loop fuel c (render (replicate n [38] ++ k)) = Ok (Nat.iter n BACK c, render k).
Proof.
  intros Hk Hs. revert fuel c. induction n as [|n IH]; intros fuel c Hf; (destruct fuel as [|fuel]; [lia|]); cbn [back_loop].
  - cbn [replicate app]. rewrite (kM_bind_run _ _ _ _ _ (peek_render _ _ Hk)), Hs. done.
  - assert (Hr : Forall tok_ok (replicate n [38] ++ k)).
    { apply Forall_app. split; [|done]. apply Forall_replicate. left. by exists 38. }
    cbn [replicate app]. rewrite (kM_bind_run _ _ _ _ _ (peek_render _ ([38] :: replicate n [38] ++ k) ltac:(constructor; [left; by exists 38|done]))).
    cbn [starts]. change (strchr [38] 38) with true. cbv iota.
    destruct (gettoken_sym 38 _ eq_refl Hr) as (q & eq & R). rewrite (kM_bind_run _ _ _ _ _ R).
    rewrite IH by lia. by rewrite <- Nat.iter_succ_r.
Qed.

Lemma erase_back n c : erase (Nat.iter n BACK c) = Nat.iter n TBack (erase c).
Proof.
  induction n as [|n IH]; [done|]. change (Nat.iter (S n) BACK c) with (BACK (Nat.iter n BACK c)). cbn [erase]. by rewrite IH.
Qed.

(** A command with its ampersands. *)
Lemma backs_print t0 n fuel k :
  ok_tree t0 -> reads_pipe t0 -> Forall tok_ok k -> follow [41; 59] k ->
  (4 * length (render (pr LPipe t0 ++ replicate n [38%Z] ++ k)) + 3 <= fuel)%nat ->
  exists c s, parsepipe fuel (render (pr LPipe t0 ++ replicate n [38] ++ k)) = Ok (c, s) /\
    exists c', back_loop (S (length s)) c s = Ok (c', render k) /\ erase c' = Nat.iter n TBack t0.
Proof.
  intros Hok HP Hk Hfo Hf.
  assert (Hr : Forall tok_ok (replicate n [38] ++ k)).
  { apply Forall_app. split; [|done]. apply Forall_replicate. left. by exists 38. }
  destruct (HP (replicate n [38] ++ k) fuel Hr) as (c & R & E); [|done|].
  { destruct n; [by apply (follow_mono [41; 59]); [intros x; by apply strchr_mono|]|]. right. by exists 38, (replicate n [38] ++ k). }
  exists c, (render (replicate n [38] ++ k)). split; [done|]. exists (Nat.iter n BACK c). split; [|by rewrite erase_back, E].
  apply back_loop_print; [done|by apply (follow_starts _ _ _ Hfo)|].
  pose proof (render_length (replicate n [38] ++ k)) as Hl. rewrite length_app, length_replicate in Hl. lia.
Qed.

Lemma reads_line_back t t0 n :
  pr LLine t = pr LPipe t0 ++ replicate n [38] -> t = Nat.iter n TBack t0 -> ok_tree t0 -> reads_pipe t0 -> reads_line t.
Proof.
  intros Hp Ht Hok HP k fuel Hk Hfo Hf. rewrite Hp in *. rewrite <- app_assoc in *. destruct fuel as [|fuel]; [lia|].
  assert (Hfo2 : follow [41; 59] k) by (apply (follow_mono [41]); [intros x; by apply strchr_mono|done]).
  destruct (backs_print t0 n fuel k Hok HP Hk Hfo2 ltac:(lia)) as (c & s & R & c' & R' & E'). unfold gives. cbn [parseline].
  rewrite (kM_bind_run _ _ _ _ _ R). erewrite kM_bind_run by reflexivity. rewrite (kM_bind_run _ _ _ _ _ R').
  rewrite (kM_bind_run _ _ _ _ _ (peek_render _ _ Hk)), (follow_starts _ _ _ Hfo) by done. exists c'. by rewrite Ht.
Qed.

Lemma reads_line_list l l0 n r :
  pr LBack l = pr LPipe l0 ++ replicate n [38] -> l = Nat.iter n TBack l0 -> ok_tree l0 -> ok_tree r ->
  reads_pipe l0 -> reads_line r -> reads_line (TList l r).
Proof.
  intros Hp Hl Hok Hr HP HL k fuel Hk Hfo Hf. cbn [pr within existsb orb paren] in *. rewrite Hp in *. rewrite <- !app_assoc in *.
  cbn [app] in *. destruct fuel as [|fuel]; [lia|].
  assert (Hok1 : Forall tok_ok (pr LLine r ++ k)) by (apply Forall_app; split; [by apply pr_ok|done]).
  assert (Hok2 : Forall tok_ok ([59] :: pr LLine r ++ k)) by (constructor; [left; by exists 59|done]).
  destruct (backs_print l0 n fuel ([59] :: pr LLine r ++ k) Hok HP Hok2) as (c & s & R & c' & R' & E');
    [right; by exists 59, (pr LLine r ++ k)|lia|].
  unfold gives. cbn [parseline]. rewrite (kM_bind_run _ _ _ _ _ R). erewrite kM_bind_run by reflexivity.
  rewrite (kM_bind_run _ _ _ _ _ R'), (kM_bind_run _ _ _ _ _ (peek_render _ _ Hok2)). cbn [starts].
  change (strchr [59] 59) with true. cbv iota.
  destruct (gettoken_sym 59 _ eq_refl Hok1) as (q & eq & Rt). rewrite (kM_bind_run _ _ _ _ _ Rt).
  destruct (HL k fuel) as (d & Rd & Ed); [done|done| |].
  { rewrite !render_app in Hf. cbn [render app] in Hf. rewrite !length_app in Hf. cbn [length] in Hf.
    rewrite render_app, length_app. rewrite render_app, length_app in Hf. lia. }
  rewrite (kM_bind_run _ _ _ _ _ Rd). exists (LIST c' d). split; [done|]. cbn. by rewrite E', Ed, Hl.
Qed.

Lemma reads_block t : ok_tree t -> pr LExec t = [40] :: pr LLine t ++ [[41]] -> reads_line t -> reads_exec t.
Proof. intros Hok Hp HL. apply (reads_exec_block t []); try done. by rewrite app_nil_r. Qed.

Lemma reads_line_pipe t : ok_tree t -> pr LLine t = pr LPipe t -> reads_pipe t -> reads_line t.
Proof. intros Hok Hp HP. apply (reads_line_back t t 0); try done. by rewrite app_nil_r. Qed.

(** Every command is read back, at every level. *)
Lemma reads_all n t : (size t <= n)%nat -> ok_tree t -> reads_exec t /\ reads_pipe t /\ reads_line t.
Proof.
  revert t. induction n as [|n IH]; intros t Hs Hok; [destruct t; cbn in Hs; lia|].
  assert (Hexec : reads_exec t -> pr LPipe t = pr LExec t -> pr LLine t = pr LPipe t ->
            reads_exec t /\ reads_pipe t /\ reads_line t).
  { intros HE H1 H2. assert (HP : reads_pipe t) by (by apply reads_pipe_exec). split_and!; try done. by apply reads_line_pipe. }
  assert (Hblock : reads_line t -> pr LExec t = [40] :: pr LLine t ++ [[41]] -> pr LPipe t = pr LExec t ->
            reads_exec t /\ reads_pipe t /\ reads_line t).
  { intros HL H1 H2. assert (HE : reads_exec t) by (by apply reads_block). split_and!; try done. by apply reads_pipe_exec. }
  destruct t as [args|t file mode fd|l r|l r|t].
  - apply Hexec; [|done|done]. apply (reads_exec_exec args []); [done|constructor|]. by rewrite app_nil_r.
  - apply Hexec; [|done|done]. destruct (redir_core _ Hok) as (t0 & rs & E & Hr & Hp & Hz & Hok0 & Hrs).
    assert (Hlt : (size t0 <= n)%nat) by (destruct rs; [cbn in E; by subst t0|cbn in *; lia]).
    destruct (IH t0 Hlt Hok0) as (_ & _ & HL). rewrite E in Hp |- *.
    destruct t0; try done; [by apply reads_exec_exec|..]; apply reads_exec_block; done.
  - destruct Hok as [Hl Hr]. cbn [size] in Hs. destruct (IH l ltac:(lia) Hl) as (HE & _ & _).
    destruct (IH r ltac:(lia) Hr) as (_ & HP & _). assert (HPP : reads_pipe (TPipe l r)) by (by apply reads_pipe_pipe).
    assert (HL : reads_line (TPipe l r)) by (by apply reads_line_pipe). split_and!; try done. by apply reads_block.
  - destruct Hok as [Hl Hr]. cbn [size] in Hs. destruct (IH r ltac:(lia) Hr) as (_ & _ & HL).
    destruct (back_core l Hl) as (l0 & k & E & Hb & Hp & Hz & Hok0). destruct (IH l0 ltac:(lia) Hok0) as (_ & HP & _).
    apply Hblock; [by apply (reads_line_list l l0 k r)|done|done].
  - destruct (back_core (TBack t) Hok) as (t0 & k & E & Hb & Hp & Hz & Hok0).
    assert (Hlt : (size t0 <= n)%nat) by (destruct k; [cbn in E; by subst t0|cbn in *; lia]).
    destruct (IH t0 Hlt Hok0) as (_ & HP & _). apply Hblock; [by apply (reads_line_back (TBack t) t0 k)|done|done].
Qed.

Lemma parse_printed t : ok_tree t -> exists c, parse (print t) = Ok c /\ erase c = t.
Proof.
  intros Hok. destruct (reads_all (size t) t (le_n _) Hok) as (_ & _ & HL).
  destruct (HL [] (4 * length (print t) + 4)%nat) as (c & R & E); [constructor|by left|by rewrite app_nil_r|].
  rewrite app_nil_r in R. exists c. split; [|done]. unfold parse. fold (print t) in R. rewrite R. reflexivity.
Qed.

Lemma erase_ok c : Forall (fun a => ok_word (text a)) (ptrs c) -> cmd_ok c -> ok_tree (erase c).
Proof.
  induction c as [argv|c IH q eq mode fd|l IHl r IHr|l IHl r IHr|c IH]; cbn [ptrs cmd_ok erase ok_tree].
  - intros Hw Hl. rewrite length_fmap. split; [by apply Forall_fmap|done].
  - rewrite Forall_app, Forall_singleton. intros [Hc Hf] [Ho Hr]. auto.
  - rewrite Forall_app. intros [Hl Hr] [Cl Cr]. auto.
  - rewrite Forall_app. intros [Hl Hr] [Cl Cr]. auto.
  - done.
Qed.

(** C28. Every command that the parser returns is well formed: its strings are
    words, a program has fewer arguments than [argv] has places, and a
    redirection opens the standard input for reading or the standard output
    for writing.  So printing it gives a line that reads as the same command:
    printing and parsing are inverse on everything the parser accepts. *)
Theorem parsecmd_typed line :
  Forall (fun c => c <> 0) line ->
  match parsecmd line with
  | Ok (c, _) => ok_tree (erase c) /\ exists c', parse (print (erase c)) = Ok c' /\ erase c' = erase c
  | Panic _ => True
  end.
Proof.
  intros Hnz. pose proof (parsecmd_run line Hnz) as H. destruct (parsecmd line) as [[c m]|]; [|done]. destruct H as [Hp Hc].
  assert (Hok : ok_tree (erase c)).
  { apply erase_ok; [|done]. eapply Forall_impl; [exact Hp|]. by intros a [_ Ha]. }
  split; [done|by apply parse_printed].
Qed.

(** C27. Parsing inverts printing: every command whose strings are words, with
    at most nine arguments to a program, is what the parser reads from its
    printed form, whatever the nesting of pipes, lists, background commands,
    blocks and redirections. *)
Theorem parse_print t : ok_tree t -> exists c, parse (print t) = Ok c /\ erase c = t.
Proof. apply parse_printed. Qed.

(** ** Lines *)

Lemma gets_loop_len room input : let '(l, rest) := gets_loop room input in l ++ rest = input /\ (length l <= room)%nat.
Proof.
  revert input. induction room as [|room IH]; intros [|c input]; cbn [gets_loop length app]; try (split; [done|lia]).
  destruct ((c =? 10) || (c =? 13)); [split; [done|cbn; lia]|]. specialize (IH input). destruct (gets_loop room input) as [l rest].
  destruct IH as [<- IH]. split; [done|cbn; lia].
Qed.

Lemma getcmd_some nbuf input buf rest :
  getcmd nbuf input = (Some buf, rest) -> (length rest < length input)%nat.
Proof.
  unfold getcmd, gets. pose proof (gets_loop_len (length (replicate nbuf 0) - 1) input) as H.
  destruct (gets_loop _ input) as [l rest']. destruct H as [<- _].
  destruct l as [|c l]; cbn [nth app]; [done|]. destruct (c =? 0); intros E; simplify_eq. cbn [app length]. rewrite length_app. lia.
Qed.

(** The shell reads its input to the end. *)
Lemma main_loop_total fuel input : (length input < fuel)%nat -> is_Some (main_loop fuel input).
Proof.
  revert input. induction fuel as [|fuel IH]; intros input Hf; [lia|]. cbn [main_loop].
  destruct (getcmd BUFSZ input) as [[buf|] rest] eqn:E; [|done]. apply getcmd_some in E.
  apply fmap_is_Some, IH. lia.
Qed.

(** A line as it can be typed. *)
Definition line_ok (l : list Z) : Prop := Forall (fun c => c <> 0 /\ c <> 10 /\ c <> 13) l /\ (length l + 1 < BUFSZ)%nat.

(** What is asked for: [cd] is for the shell itself. *)
Definition meant (l : list Z) : act :=
  match l with
  | c :: d :: e :: dir => if (c =? 99) && (d =? 100) && (e =? 32) then AChdir dir else ARun (l ++ [10])
  | _ => ARun (l ++ [10])
  end.

Lemma gets_loop_line l rest room :
  Forall (fun c => c <> 0 /\ c <> 10 /\ c <> 13) l -> (length l < room)%nat -> gets_loop room (l ++ 10 :: rest) = (l ++ [10], rest).
Proof.
  intros Hl. revert room. induction Hl as [|c l (H0 & H1 & H2) _ IH]; intros [|room] Hr; cbn [length] in Hr; try lia; [done|].
  cbn [gets_loop app]. rewrite (proj2 (Z.eqb_neq c 10)), (proj2 (Z.eqb_neq c 13)) by done. cbn [orb]. by rewrite IH by lia.
Qed.

Lemma cstr_app l rest : Forall (fun c => c <> 0) l -> cstr (l ++ 0 :: rest) = l.
Proof.
  induction 1 as [|c l Hc _ IH]; [done|]. cbn [app cstr]. rewrite (proj2 (Z.eqb_neq c 0)) by done. by rewrite IH.
Qed.

Lemma command_line l rest : Forall (fun c => c <> 0) l -> command (l ++ [10] ++ [0] ++ rest) = meant l.
Proof.
  intros Hl. assert (E : cstr (l ++ [10] ++ [0] ++ rest) = l ++ [10]).
  { rewrite app_assoc. apply (cstr_app (l ++ [10])). apply Forall_app. split; [done|by constructor]. }
  unfold command. rewrite E. destruct l as [|c [|d [|e dir]]]; cbn [app nth meant].
  1-3: by rewrite ?andb_false_r.
  destruct ((c =? 99) && (d =? 100) && (e =? 32)); [|done]. do 3 apply Forall_cons_1 in Hl as [_ Hl].
  f_equal. cbn [length]. rewrite length_app, Nat.add_1_r. cbn [Nat.sub].
  change (cstr (<[length dir := 0]> (dir ++ 10 :: 0 :: rest)) = dir).
  rewrite insert_app_r_alt by lia. rewrite Nat.sub_diag. by apply (cstr_app dir).
Qed.

Lemma getcmd_line l input :
  line_ok l -> exists old, getcmd BUFSZ (l ++ 10 :: input) = (Some (l ++ [10] ++ [0] ++ old), input).
Proof.
  intros [Hl Hn]. unfold getcmd, gets. rewrite gets_loop_line by (rewrite ?length_replicate; done || lia).
  exists (drop (S (length (l ++ [10]))) (replicate BUFSZ 0)). rewrite <- app_assoc.
  destruct Hl as [|c l (Hc & _)]; [done|]. cbn [app nth]. by rewrite (proj2 (Z.eqb_neq c 0)).
Qed.

(** The main loop does what each line asks for, in order, and ends with the
    input, whatever the bytes of the lines. *)
Theorem sh_main_lines ls :
  Forall line_ok ls -> sh_main (concat ((.++ [10]) <$> ls)) = Some (meant <$> ls).
Proof.
  intros Hls. unfold sh_main. set (input := concat _). assert (Hf : (length input < S (length input))%nat) by lia.
  revert Hf. generalize (S (length input)). subst input.
  induction Hls as [|l ls Hl _ IH]; intros [|fuel] Hf; try lia; [done|].
  rewrite fmap_cons in Hf |- *. cbn [concat main_loop] in *. rewrite <- app_assoc in Hf |- *. cbn [app] in *.
  rewrite length_app in Hf. cbn [length] in Hf. destruct (getcmd_line l (concat ((.++ [10]) <$> ls)) Hl) as [old ->].
  rewrite IH by lia. rewrite command_line; [done|]. eapply Forall_impl; [apply Hl|]. by intros c (? & _).
Qed.

(** ** Descriptors

    What a descriptor stands for: what the shell was started with, a file
    opened in some mode, or an end of a pipe. *)
Inductive obj := Inherited (k : nat) | Opened (file : list Z) (mode : Z) | PipeEnd (id : nat) (wr : bool).

(** The descriptors of a process, and the least free one. *)
Definition fds := list (option obj).

Definition is_free (x : option obj) : bool := match x with None => true | Some _ => false end.

Fixpoint least_free (T : fds) : option nat :=
  match T with
  | [] => None
  | x :: T => if is_free x then Some 0%nat else S <$> least_free T
  end.

Definition place (T : fds) (x : obj) : option (nat * fds) := i ← least_free T; Some (i, <[i := Some x]> T).

Section Run.
(** Which files can be opened. *)
Context (opens : list Z -> Z -> bool).

(** The programs that are executed and their descriptors when every [fork] and
    [exec] succeeds: the branches of [runcmd] for their failure, the panic of
    [fork1] and the message [exec failed], are not followed here.  Pipes are
    numbered. *)
Fixpoint execs (p : prog) (T : fds) (n : nat) : list (list (list Z) * fds) * nat :=
  match p with
  | PExit => ([], n)
  | PExec argv _ => ([(argv, T)], n)
  | PPrint k | PWait k => execs k T n
  | PClose fd k => execs k (<[Z.to_nat fd := None]> T) n
  | POpen file mode k failed =>
      if opens file mode then
        match place T (Opened file mode) with Some (_, T) => execs k T n | None => execs failed T n end
      else execs failed T n
  | PDup fd k =>
      match T !! Z.to_nat fd with
      | Some (Some x) => match place T x with Some (_, T) => execs k T n | None => execs k T n end
      | _ => execs k T n
      end
  | PPipe k failed =>
      match place T (PipeEnd n false) with
      | Some (i, T1) =>
          match place T1 (PipeEnd n true) with
          | Some (j, T2) => execs (k (Z.of_nat i) (Z.of_nat j)) T2 (S n)
          | None => execs failed T n
          end
      | None => execs failed T n
      end
  | PFork child parent _ =>
      let '(a, n) := execs child T n in
      let '(b, n) := execs parent T n in
      (a ++ b, n)
  end.

(** Standard input, output and error and nothing else, of at most [NOFILE]. *)
Definition table (i o e : obj) : fds := [Some i; Some o; Some e] ++ replicate 13 None.

(** What the command line asks for. *)
Fixpoint wants (t : tree) (i o e : obj) (n : nat) : list (list (list Z) * fds) * nat :=
  match t with
  | TExec args => (match args with [] => [] | _ => [(args, table i o e)] end, n)
  | TRedir t file mode fd =>
      if opens file mode then
        if fd =? 0 then wants t (Opened file mode) o e n else wants t i (Opened file mode) e n
      else ([], n)
  | TPipe l r =>
      let '(a, n1) := wants l i (PipeEnd n true) e (S n) in
      let '(b, n2) := wants r (PipeEnd n false) o e n1 in
      (a ++ b, n2)
  | TList l r =>
      let '(a, n1) := wants l i o e n in
      let '(b, n2) := wants r i o e n1 in
      (a ++ b, n2)
  | TBack t => wants t i o e n
  end.

Lemma execs_fork child parent T n a n1 b n2 :
  execs child T n = (a, n1) -> execs parent T n1 = (b, n2) -> execs (fork1 child parent) T n = (a ++ b, n2).
Proof. intros H1 H2. cbn [fork1 execs]. by rewrite H1, H2. Qed.

Lemma execs_pipe k f i o e n :
  execs (PPipe k f) (table i o e) n =
  execs (k 3 4) ([Some i; Some o; Some e; Some (PipeEnd n false); Some (PipeEnd n true)] ++ replicate 11 None) (S n).
Proof. reflexivity. Qed.

Lemma runcmd_execs str c i o e n :
  Forall (fun a => str a.1 = text a) (ptrs c) -> cmd_ok c ->
  execs (runcmd str c) (table i o e) n = wants (erase c) i o e n.
Proof.
  revert i o e n. induction c as [argv|c IH q eq mode fd|l IHl r IHr|l IHl r IHr|c IH]; intros i o e n Hp Hf;
    cbn [runcmd erase wants ptrs cmd_ok] in *.
  - assert (E : (fun a => str a.1) <$> argv = text <$> argv).
    { clear Hf. induction Hp as [|a argv Ha _ IH]; [done|]. cbn. by rewrite Ha, <- IH. }
    destruct argv as [|a argv]; [done|]. rewrite E. done.
  - apply Forall_app in Hp as [Hp Hq]. apply Forall_cons in Hq as [Hq _]. cbn [fst] in Hq. rewrite Hq.
    destruct Hf as [Hf Hfd]. cbn [execs]. destruct (opens (text (q, eq)) mode); [|done].
    destruct Hfd as [[-> ->]|[-> ->]]; [exact (IH (Opened _ _) o e n Hp Hf)|exact (IH i (Opened _ _) e n Hp Hf)].
  - apply Forall_app in Hp as [Hl Hr]. destruct Hf as [Fl Fr].
    pose proof (IHl i (PipeEnd n true) e (S n) Hl Fl) as El. destruct (wants (erase l) i (PipeEnd n true) e (S n)) as [a n1].
    pose proof (IHr (PipeEnd n false) o e n1 Hr Fr) as Er. destruct (wants (erase r) (PipeEnd n false) o e n1) as [b n2].
    rewrite execs_pipe. apply execs_fork with n1; [exact El|].
    rewrite <- (app_nil_r b). apply execs_fork with n2; [exact Er|done].
  - apply Forall_app in Hp as [Hl Hr]. destruct Hf as [Fl Fr]. pose proof (IHl i o e n Hl Fl) as El.
    destruct (wants (erase l) i o e n) as [a n1]. pose proof (IHr i o e n1 Hr Fr) as Er. destruct (wants (erase r) i o e n1) as [b n2].
    by apply execs_fork with n1.
  - pose proof (IH i o e n Hp Hf) as E. destruct (wants (erase c) i o e n) as [a n1].
    rewrite <- (app_nil_r a). apply execs_fork with n1; [exact E|done].
Qed.
End Run.

(** C26. From a line to the programs: as long as every [fork] and [exec]
    succeeds, [runcmd] of the parsed line executes the programs that the line
    names, with its words as their arguments, and each one has exactly the
    descriptors 0, 1 and 2 that the redirections and pipes around it ask for;
    no end of a pipe is left open in it.  Opening a file may fail. *)
Theorem runcmd_fds opens line c m i o e n :
  Forall (fun c => c <> 0) line -> parsecmd line = Ok (c, m) ->
  execs opens (runcmd (str_at line m) c) (table i o e) n = wants opens (erase c) i o e n.
Proof.
  intros Hnz H. pose proof (parsecmd_run line Hnz) as Hr. rewrite H in Hr. destruct Hr as [Hp Hf].
  apply runcmd_execs; [|done]. eapply Forall_impl; [exact Hp|]. by intros a [? _].
Qed.

Module ShellDemo.

(** [ls -l | (wc; cat) > out &] *)
Definition line : list Z :=
  [108; 115; 32; 45; 108; 32; 124; 32; 40; 119; 99; 59; 32; 99; 97; 116; 41; 32; 62; 32; 111; 117; 116; 32; 38; 10].

Lemma line_nz : Forall (fun c => c <> 0) line.
Proof. unfold line. repeat (apply Forall_cons; split; [done|]). apply Forall_nil_2. Qed.

Definition ls : list Z := [108; 115].
Definition opt : list Z := [45; 108].
Definition wc : list Z := [119; 99].
Definition cat : list Z := [99; 97; 116].
Definition out : list Z := [111; 117; 116].
Definition tree_of_line : tree := TBack (TPipe (TExec [ls; opt]) (TRedir (TList (TExec [wc]) (TExec [cat])) out 513 1)).

Definition parsed : cmd * list Z := match parsecmd line with Ok x => x | Panic _ => (EXEC [], []) end.

Lemma parsed_ok : parsecmd line = Ok parsed /\ erase parsed.1 = tree_of_line.
Proof. vm_compute. split; reflexivity. Qed.

Lemma parsecmd_strings_witness :
  match parsecmd line with
  | Ok (c, m) => Forall (fun a => str_at line m a.1 = text a /\ text a <> [] /\ Forall (fun x => word_char x = true) (text a)) (ptrs c)
  | Panic msg => msg <> "out of fuel"%string
  end.
Proof. exact (parsecmd_strings line line_nz). Defined.

Lemma parsecmd_typed_witness :
  match parsecmd line with
  | Ok (c, _) => ok_tree (erase c) /\ exists c', parse (print (erase c)) = Ok c' /\ erase c' = erase c
  | Panic _ => True
  end.
Proof. exact (parsecmd_typed line line_nz). Defined.

Lemma ok_words : Forall ok_word [ls; opt; wc; cat; out].
Proof.
  unfold ls, opt, wc, cat, out. repeat (apply Forall_cons; split); try apply Forall_nil_2;
    (split; [done|]); repeat (apply Forall_cons; split; [done|]); apply Forall_nil_2.
Qed.

Lemma parse_print_witness : exists c, parse (print tree_of_line) = Ok c /\ erase c = tree_of_line.
Proof.
  apply (parse_print tree_of_line). pose proof ok_words as H. rewrite !Forall_cons in H. destruct_and! H.
  cbn [ok_tree tree_of_line]. unfold MAXARGS. rewrite !Forall_cons. cbn [length].
  split_and!; try apply Forall_nil_2; try done; try lia. by right.
Defined.

Lemma runcmd_fds_witness :
  execs (fun _ _ => true) (runcmd (str_at line parsed.2) parsed.1) (table (Inherited 0) (Inherited 1) (Inherited 2)) 0 =
  wants (fun _ _ => true) (erase parsed.1) (Inherited 0) (Inherited 1) (Inherited 2) 0.
Proof.
  apply (runcmd_fds (fun _ _ => true) line parsed.1 parsed.2); [exact line_nz|]. rewrite <- surjective_pairing. apply parsed_ok.
Defined.

(** [cat>>out] opens [out] as [cat>out] does, from its start. *)
Theorem append_overwrites :
  (erase <$> match parse (cat ++ [62; 62] ++ out) with Ok c => Some c | Panic _ => None end) =
    Some (TRedir (TExec [cat]) out (Z.lor O_WRONLY O_CREATE) 1) /\
  (erase <$> match parse (cat ++ [62] ++ out) with Ok c => Some c | Panic _ => None end) =
    Some (TRedir (TExec [cat]) out (Z.lor O_WRONLY O_CREATE) 1).
Proof. split; reflexivity. Qed.

(** [cd out] at the end of the input, without a newline, changes to [ou]. *)
Theorem cd_chops_name : sh_main ([99; 100; 32] ++ out) = Some [AChdir [111; 117]].
Proof. reflexivity. Qed.

Lemma sh_main_lines_example : sh_main (concat ((.++ [10]) <$> [[99; 100; 32] ++ out; ls])) = Some [AChdir out; ARun (ls ++ [10])].
Proof.
  apply (sh_main_lines [[99; 100; 32] ++ out; ls]). unfold line_ok, ls, out, BUFSZ.
  repeat (apply Forall_cons; split); try apply Forall_nil_2; (split; [|cbn; lia]);
    repeat (apply Forall_cons; split; [done|]); apply Forall_nil_2.
Qed.

End ShellDemo.
