(* ===== verification/Umalloc.v ===== *)
(** * The allocator of user programs (umalloc.c)

    The free blocks form a circular list through memory, in ascending order,
    that starts at the static header [base].  The state is the memory of the
    process, [freep] and the end of the process's memory, which [sbrk] moves.
    An access past the last mapped page is [Panic "page fault"].

    [malloc_spec] and [free_spec] describe the two calls on a list [F] of free
    and a list [A] of allocated blocks that tile the heap between them; they
    also say that the loops end and that no access faults.
    [umalloc_client_safe] draws the consequence for a client. *)

From S2P Require Import Prelude Mmu.

Record ust := mk_ust { umem : mem; freep : Z; brk : Z }.

(** ** Headers *)

(** [p + n] and [p - n] on [Header *]. *)
Definition hadd (p n : Z) : Z := u32 (p + 8 * n).

Definition mapped (s : ust) (p : Z) : bool := (0 <=? p) && (p + 8 <=? PGROUNDUP s.(brk)).

Definition get_ptr (p : Z) : kM ust Z :=
  fun s => if mapped s p then Ok (load32 s.(umem) p, s) else Panic "page fault".

Definition get_size (p : Z) : kM ust Z :=
  fun s => if mapped s p then Ok (load32 s.(umem) (p + 4), s) else Panic "page fault".

Definition set_ptr (p v : Z) : kM ust unit :=
  fun s => if mapped s p then Ok (tt, mk_ust (store32 s.(umem) p v) s.(freep) s.(brk)) else Panic "page fault".

Definition set_size (p v : Z) : kM ust unit :=
  fun s => if mapped s p then Ok (tt, mk_ust (store32 s.(umem) (p + 4) v) s.(freep) s.(brk)) else Panic "page fault".

Definition set_freep (p : Z) : kM ust unit := kmodify (fun s => mk_ust s.(umem) p s.(brk)).

Section Umalloc.
(** The address of the static header. *)
Context (base : Z).
(** Whether the kernel has the pages to grow a process from one size to
    another. *)
Context (pages : Z -> Z -> bool).

(** ** The operations *)

(** [sbrk] as sys_sbrk and growproc do it; the pages that are added are
    zero. *)
Definition sbrk (n : Z) : kM ust Z := fun s =>
  let sz := s.(brk) in
  let newsz := u32 (sz + n) in
  if 0 <? n then
    if KERNBASE <? newsz then Ok (u32 (-1), s)
    else if KERNBASE <=? newsz then Ok (u32 (-1), s)
    else if newsz <? sz then Ok (sz, s)
    else if pages sz newsz then
      Ok (sz, mk_ust (fun x => if (PGROUNDUP sz <=? x) && (x <? PGROUNDUP newsz) then 0 else s.(umem) x) s.(freep) newsz)
    else Ok (u32 (-1), s)
  else if n <? 0 then
    let sz1 := if sz <=? newsz then sz else newsz in
    if sz1 =? 0 then Ok (u32 (-1), s) else Ok (sz, mk_ust s.(umem) s.(freep) sz1)
  else Ok (sz, s).

(** The loop of [free]: the free block after which [bp] belongs. *)
Fixpoint free_find (fuel : nat) (bp p : Z) : kM ust Z :=
  match fuel with
  | O => kpanic "out of fuel"
  | S fuel =>
      nx ← get_ptr p;
      if (p <? bp) && (bp <? nx) then mret p
      else if (nx <=? p) && ((p <? bp) || (bp <? nx)) then mret p
      else free_find fuel bp nx
  end.

(** Put [b] before [nx], as one block if they touch. *)
Definition link (b nx : Z) : kM ust unit :=
  bs ← get_size b;
  if hadd b bs =? nx then
    ns ← get_size nx;
    _ ← set_size b (u32 (bs + ns));
    nn ← get_ptr nx;
    set_ptr b nn
  else set_ptr b nx.

Definition free (fuel : nat) (ap : Z) : kM ust unit :=
  let bp := hadd ap (-1) in
  s ← kget;
  p ← free_find fuel bp s.(freep);
  nx ← get_ptr p;
  _ ← link bp nx;
  _ ← link p bp;
  set_freep p.

Definition morecore (fuel : nat) (nu : Z) : kM ust Z :=
  let nu := if nu <? 4096 then 4096 else nu in
  p ← sbrk (s32 (nu * 8));
  if p =? u32 (-1) then mret 0
  else
    _ ← set_size p nu;
    _ ← free fuel (hadd p 1);
    s ← kget;
    mret s.(freep).

Definition take (nunits prevp p : Z) : kM ust Z :=
  sz ← get_size p;
  p ← (if sz =? nunits then
         nx ← get_ptr p;
         _ ← set_ptr prevp nx;
         mret p
       else
         _ ← set_size p (u32 (sz - nunits));
         let p := hadd p (u32 (sz - nunits)) in
         _ ← set_size p nunits;
         mret p);
  _ ← set_freep prevp;
  mret (hadd p 1).

Fixpoint malloc_loop (fuel ffuel : nat) (nunits prevp p : Z) : kM ust Z :=
  match fuel with
  | O => kpanic "out of fuel"
  | S fuel =>
      sz ← get_size p;
      if nunits <=? sz then take nunits prevp p
      else
        s ← kget;
        if p =? s.(freep) then
          p ← morecore ffuel nunits;
          if p =? 0 then mret 0
          else
            nx ← get_ptr p;
            malloc_loop fuel ffuel nunits p nx
        else
          nx ← get_ptr p;
          malloc_loop fuel ffuel nunits p nx
  end.

Definition units (nbytes : Z) : Z := u32 (u32 (nbytes + 8 - 1) / 8 + 1).

Definition malloc (fuel : nat) (nbytes : Z) : kM ust Z :=
  let nunits := units nbytes in
  s ← kget;
  _ ← (if s.(freep) =? 0 then
         _ ← set_ptr base base;
         _ ← set_freep base;
         set_size base 0
       else mret tt);
  s ← kget;
  p ← get_ptr s.(freep);
  malloc_loop fuel fuel nunits s.(freep) p.

End Umalloc.

(** ** Blocks

    A block is the address of its header and its size in headers. *)

Abbreviation block := (Z * Z)%type.
Definition bend (b : block) : Z := b.1 + 8 * b.2.

(** The links from [x] through the blocks [l] end at [y]. *)
Fixpoint hseg (m : mem) (x : Z) (l : list block) (y : Z) : Prop :=
  match l with
  | [] => x = y
  | b :: l => x = b.1 /\ load32 m (b.1 + 4) = b.2 /\ hseg m (load32 m b.1) l y
  end.

(** [c] lies after [b] with a gap between them. *)
Definition before (b c : block) : Prop := b.1 + 8 <= c.1 /\ bend b < c.1.

Fixpoint asc (l : list block) : Prop :=
  match l with
  | [] => True
  | b :: l => Forall (before b) l /\ asc l
  end.

Definition off (b c : block) : Prop := bend b <= c.1 \/ bend c <= b.1.

Definition total (l : list block) : Z := foldr (fun b z => 8 * b.2 + z) 0 l.

(** The blocks [T] cover the memory from [lo] to [hi] exactly. *)
Record tiles (lo hi : Z) (T : list block) : Prop := {
  ti_in : Forall (fun b => 1 <= b.2 /\ lo <= b.1 /\ bend b <= hi) T;
  ti_off : ForallOrdPairs off T;
  ti_sum : total T = hi - lo
}.

(** [b] put before the blocks [l]: one block with the first if they touch. *)
Definition join (b : block) (l : list block) : list block :=
  match l with
  | [] => [b]
  | c :: l' => if bend b =? c.1 then (b.1, b.2 + c.2) :: l' else b :: l
  end.

Record heap (base lo : Z) (s : ust) (F A : list block) : Prop := {
  he_base : 0 < base /\ base + 8 <= lo;
  he_brk : lo <= s.(brk) < KERNBASE;
  he_mem : bytes_ok s.(umem);
  he_list : (s.(freep) = 0 /\ F = [] /\ A = []) \/
            (s.(freep) ∈ base :: F.*1 /\ hseg s.(umem) base ((base, 0) :: F) base);
  he_asc : asc ((base, 0) :: F);
  he_tiles : tiles lo s.(brk) (F ++ A);
  he_sizes : Forall (fun b => load32 s.(umem) (b.1 + 4) = b.2) A
}.

(** The bytes that belong to the owners of the blocks [A] are the same. *)
Definition kept (m m' : mem) (A : list block) : Prop :=
  forall b x, b ∈ A -> b.1 + 8 <= x < bend b -> m' x = m x.

(** *** Tiles *)

Lemma off_sym b c : off b c -> off c b.
Proof. unfold off. tauto. Qed.

Lemma pairs_perm (T T' : list block) : T ≡ₚ T' -> ForallOrdPairs off T -> ForallOrdPairs off T'.
Proof.
  induction 1 as [|b T T' E IH|b c T|T T' T'' _ IH1 _ IH2]; [done|..|by auto].
  - inversion 1; subst. constructor; [|by apply IH]. by rewrite <- E.
  - inversion 1 as [|? ? H1 H2]; subst. inversion H2 as [|? ? H3 H4]; subst. apply Forall_cons in H1 as [H1 H5].
    constructor; [apply Forall_cons; split; [by apply off_sym|done]|by constructor].
Qed.

Lemma total_perm (T T' : list block) : T ≡ₚ T' -> total T = total T'.
Proof. unfold total. induction 1; cbn in *; lia. Qed.

Lemma tiles_perm lo hi T T' : T ≡ₚ T' -> tiles lo hi T -> tiles lo hi T'.
Proof.
  intros E [T1 T2 T3]. split; [by rewrite <- E|by eapply pairs_perm|by rewrite <- (total_perm _ _ E)].
Qed.

#[export] Instance tiles_proper lo hi : Proper ((≡ₚ) ==> iff) (tiles lo hi).
Proof. intros T T' E. split; apply tiles_perm; [done|by symmetry]. Qed.

Lemma tiles_merge lo hi b c T :
  bend b = c.1 -> tiles lo hi (b :: c :: T) -> tiles lo hi ((b.1, b.2 + c.2) :: T).
Proof.
  destruct b as [b n], c as [c k]. unfold bend. cbn. intros E [T1 T2 T3].
  apply Forall_cons in T1 as [H1 T1]. apply Forall_cons in T1 as [H2 T1].
  inversion T2 as [|? ? P1 P2]; subst. inversion P2 as [|? ? P3 P4]; subst. apply Forall_cons in P1 as [_ P1].
  unfold off, bend in *. cbn in *. split.
  - apply Forall_cons. split; [unfold bend; cbn; lia|done].
  - constructor; [|done]. rewrite Forall_forall in *. intros d Hd.
    specialize (P1 d Hd). specialize (P3 d Hd). specialize (T1 d Hd). unfold off, bend in *. cbn in *. lia.
  - unfold total in *. cbn in *. lia.
Qed.

Lemma tiles_split lo hi a n k T :
  1 <= n -> 1 <= k -> tiles lo hi ((a, n + k) :: T) -> tiles lo hi ((a, n) :: (a + 8 * n, k) :: T).
Proof.
  intros Hn Hk [T1 T2 T3]. apply Forall_cons in T1 as [H1 T1]. inversion T2 as [|? ? P1 P2]; subst.
  unfold bend in *. cbn in *. split.
  - apply Forall_cons. split; [unfold bend; cbn; lia|]. apply Forall_cons. split; [unfold bend; cbn; lia|done].
  - assert (Hd : forall d, d ∈ T -> off (a, n) d /\ off (a + 8 * n, k) d).
    { intros d Hd. rewrite Forall_forall in P1. specialize (P1 d Hd). unfold off, bend in *. cbn in *. lia. }
    constructor; [apply Forall_cons; split|constructor; [|done]].
    + unfold off, bend. cbn. lia.
    + apply Forall_forall. intros d H. by apply Hd.
    + apply Forall_forall. intros d H. by apply Hd.
  - unfold total in *. cbn in *. lia.
Qed.

Lemma tiles_grow lo hi n T : 1 <= n -> lo <= hi -> tiles lo hi T -> tiles lo (hi + 8 * n) ((hi, n) :: T).
Proof.
  intros Hn Hlo [T1 T2 T3]. split.
  - apply Forall_cons. split; [unfold bend; cbn; lia|]. eapply Forall_impl; [exact T1|]. cbn. intros b Hb. lia.
  - constructor; [|done]. eapply Forall_impl; [exact T1|]. cbn. intros b Hb. right. cbn. lia.
  - unfold total in *. cbn. lia.
Qed.

Lemma tiles_join lo hi b l T : tiles lo hi (b :: l ++ T) -> tiles lo hi (join b l ++ T).
Proof.
  intros H. destruct l as [|c l]; [done|]. cbn [join]. destruct (Z.eqb_spec (bend b) c.1); [|done].
  by apply tiles_merge.
Qed.

Lemma tiles_at lo hi T b : tiles lo hi T -> b ∈ T -> 1 <= b.2 /\ lo <= b.1 /\ bend b <= hi.
Proof. intros [T1 _ _] Hb. rewrite Forall_forall in T1. by apply T1. Qed.

Lemma tiles_off lo hi T1 T2 b c : tiles lo hi (T1 ++ T2) -> b ∈ T1 -> c ∈ T2 -> off b c.
Proof.
  intros [_ H _] Hb Hc. induction T1 as [|d T1 IH]; [by apply elem_of_nil in Hb|].
  inversion H as [|? ? P1 P2]; subst. apply elem_of_cons in Hb as [->|Hb]; [|by apply IH].
  rewrite Forall_forall in P1. apply P1, elem_of_app. by right.
Qed.

(** *** Ascending lists *)

Lemma asc_app l1 l2 : asc (l1 ++ l2) <-> asc l1 /\ asc l2 /\ forall b c, b ∈ l1 -> c ∈ l2 -> before b c.
Proof.
  induction l1 as [|b l1 IH]; cbn.
  - split; [|tauto]. intros H. split_and!; [done|done|]. by intros ? ? ?%elem_of_nil.
  - rewrite IH, Forall_app. split.
    + intros ((H1 & H2) & H3 & H4 & H5). split_and!; try done. intros d c Hd Hc.
      apply elem_of_cons in Hd as [->|Hd]; [|by apply H5]. rewrite Forall_forall in H2. by apply H2.
    + intros ((H1 & H2) & H3 & H4). split_and!; try done.
      * apply Forall_forall. intros c Hc. apply H4; [by left|done].
      * intros d c Hd Hc. apply H4; [by right|done].
Qed.

Lemma join_in b l c : c ∈ join b l -> c.1 = b.1 \/ c ∈ l.
Proof.
  destruct l as [|d l]; cbn [join].
  - intros ->%list_elem_of_singleton. by left.
  - destruct (bend b =? d.1); intros [->|H]%elem_of_cons; try (by left); right; [by right|done].
Qed.

Lemma asc_join b l : asc l -> Forall (fun c => b.1 + 8 <= c.1 /\ bend b <= c.1) l -> asc (join b l).
Proof.
  intros Hl Hb. destruct l as [|c l]; [done|]. cbn [join asc] in *. destruct Hl as [Hc Hl].
  apply Forall_cons in Hb as [Hbc Hb]. rewrite Forall_forall in Hc, Hb.
  destruct (Z.eqb_spec (bend b) c.1) as [E|E]; cbn [asc].
  - split; [|done]. apply Forall_forall. intros d Hd. specialize (Hc d Hd). specialize (Hb d Hd).
    unfold before, bend in *. cbn. lia.
  - split; [|split; [by apply Forall_forall|done]]. apply Forall_cons. split; [split; lia|].
    apply Forall_forall. intros d Hd. specialize (Hc d Hd). specialize (Hb d Hd). unfold before, bend in *. lia.
Qed.

Lemma join_big b l : Forall (fun c => 0 <= c.2) l -> exists c, c ∈ join b l /\ b.2 <= c.2 /\ c.1 = b.1.
Proof.
  intros Hl. destruct l as [|c l]; cbn [join].
  - exists b. split; [by left|]. split; [lia|done].
  - apply Forall_cons in Hl as [Hc _]. destruct (bend b =? c.1).
    + eexists. split; [by left|]. cbn. split; [lia|done].
    + exists b. split; [by left|]. split; [lia|done].
Qed.

Lemma join_keeps b l c : c ∈ l -> 0 <= b.2 -> exists d, d ∈ join b l /\ c.2 <= d.2.
Proof.
  intros Hc Hb. destruct l as [|d l]; [by apply elem_of_nil in Hc|]. cbn [join].
  destruct (bend b =? d.1); [|exists c; split; [by right|lia]].
  apply elem_of_cons in Hc as [->|Hc]; [eexists; split; [by left|cbn; lia]|exists c; split; [by right|lia]].
Qed.

Lemma join_length b l : (length (join b l) <= S (length l))%nat.
Proof. destruct l as [|c l]; cbn; [lia|]. destruct (bend b =? c.1); cbn; lia. Qed.

Lemma join_cons b l : join b l <> [].
Proof. destruct l as [|c l]; cbn; [done|]. by destruct (bend b =? c.1). Qed.

(** *** Links *)

Lemma hseg_app m x l1 l2 y : hseg m x (l1 ++ l2) y <-> exists z, hseg m x l1 z /\ hseg m z l2 y.
Proof.
  revert x. induction l1 as [|b l1 IH]; intros x; cbn.
  - split; [intros H; by exists x|]. by intros (z & -> & H).
  - rewrite IH. split.
    + intros (H1 & H2 & z & H3 & H4). exists z. done.
    + intros (z & (H1 & H2 & H3) & H4). eauto.
Qed.

Lemma hseg_rot m x l1 l2 : hseg m x (l1 ++ l2) x -> exists z, hseg m z (l2 ++ l1) z.
Proof. rewrite hseg_app. intros (z & H1 & H2). exists z. apply hseg_app. eauto. Qed.

(** Headers that are not written keep their links. *)
Lemma hseg_ext m m' x l y :
  (forall b z, b ∈ l -> b.1 <= z < b.1 + 8 -> m' z = m z) -> hseg m x l y -> hseg m' x l y.
Proof.
  revert x. induction l as [|b l IH]; intros x H; cbn; [done|]. intros (H1 & H2 & H3).
  assert (E : load32 m' b.1 = load32 m b.1 /\ load32 m' (b.1 + 4) = load32 m (b.1 + 4)).
  { split; apply load32_ext; intros z Hz; apply (H b); try (by left); lia. }
  destruct E as [-> ->]. split_and!; [done|done|]. apply IH; [|done]. intros c z Hc. apply H. by right.
Qed.

(** *** Accesses *)

(** A header that lies in the process's memory. *)
Definition inside (s : ust) (p : Z) : Prop := 0 <= p /\ p + 8 <= s.(brk) /\ s.(brk) < KERNBASE.

Lemma inside_mapped s p : inside s p -> mapped s p = true.
Proof.
  unfold inside, mapped, KERNBASE. intros (H1 & H2 & H3). rewrite PGROUNDUP_val by lia.
  apply andb_true_iff. rewrite !Z.leb_le. split; [lia|]. Z.to_euclidean_division_equations. lia.
Qed.

Lemma inside_u32 s p : inside s p -> is_u32 p.
Proof. unfold inside, is_u32, KERNBASE. lia. Qed.

Section Access.
Context (s : ust) (p : Z) (I : inside s p).

Lemma get_ptr_run : get_ptr p s = Ok (load32 s.(umem) p, s).
Proof. unfold get_ptr. by rewrite inside_mapped. Qed.

Lemma get_size_run : get_size p s = Ok (load32 s.(umem) (p + 4), s).
Proof. unfold get_size. by rewrite inside_mapped. Qed.

Lemma set_ptr_run v : set_ptr p v s = Ok (tt, mk_ust (store32 s.(umem) p v) s.(freep) s.(brk)).
Proof. unfold set_ptr. by rewrite inside_mapped. Qed.

Lemma set_size_run v : set_size p v s = Ok (tt, mk_ust (store32 s.(umem) (p + 4) v) s.(freep) s.(brk)).
Proof. unfold set_size. by rewrite inside_mapped. Qed.
End Access.

(** [link]: the list from [b] on is [join b l], and only the header of [b] is
    written. *)
Lemma link_run s b nx l y :
  inside s b.1 -> 0 <= b.2 -> bend b <= s.(brk) -> load32 s.(umem) (b.1 + 4) = b.2 ->
  Forall (fun c => b.1 + 8 <= c.1 /\ 0 <= c.2 /\ inside s c.1 /\ bend c <= s.(brk)) l ->
  hseg s.(umem) nx l y -> (l = [] -> nx < b.1 /\ is_u32 nx) -> bytes_ok s.(umem) ->
  exists m', link b.1 nx s = Ok (tt, mk_ust m' s.(freep) s.(brk)) /\ hseg m' b.1 (join b l) y /\
    (forall x, ~ (b.1 <= x < b.1 + 8) -> m' x = s.(umem) x) /\ bytes_ok m'.
Proof.
  destruct b as [b n]. cbn [fst snd]. intros Ib Hn Hb Hsz Hl Hseg Hnil HB.
  pose proof Ib as (I1 & I2 & I3). unfold KERNBASE in I3. unfold bend in *. cbn [fst snd] in *.
  unfold link. rewrite (kM_bind_run _ _ _ _ _ (get_size_run _ _ Ib)), Hsz.
  unfold hadd at 1. rewrite (u32_small (b + 8 * n)) by (unfold is_u32; lia).
  destruct l as [|c l]; cbn [join]; unfold bend; cbn [fst snd].
  - destruct (Hnil eq_refl) as [Hnx Hu]. cbn in Hseg. subst y. destruct (Z.eqb_spec (b + 8 * n) nx); [lia|].
    rewrite set_ptr_run by done. eexists. split; [reflexivity|]. split_and!.
    + cbn. rewrite load32_store32_ne, load32_store32_eq by (done || lia). done.
    + intros x Hx. apply store32_frame. lia.
    + by apply store32_bytes.
  - apply Forall_cons in Hl as [(Hc1 & Hc2 & Ic & Hc3) Hl]. cbn [hseg] in Hseg. destruct Hseg as (-> & Hcs & Hseg).
    pose proof (inside_u32 _ _ Ic) as Hcu. pose proof Ic as (Ic1 & Ic2 & _).
    rewrite Forall_forall in Hl.
    destruct (Z.eqb_spec (b + 8 * n) c.1) as [E|E].
    + rewrite (kM_bind_run _ _ _ _ _ (get_size_run _ _ Ic)), Hcs.
      rewrite (kM_bind_run _ _ _ _ _ (set_size_run _ _ Ib _)).
      rewrite (kM_bind_run _ _ _ _ _ (get_ptr_run (mk_ust _ _ s.(brk)) c.1 Ic)). rewrite set_ptr_run by done.
      cbn [umem freep brk].
      rewrite (u32_small (n + c.2)) by (unfold is_u32, bend in *; lia).
      set (m1 := store32 s.(umem) (b + 4) (n + c.2)).
      assert (Hcp : load32 m1 c.1 = load32 s.(umem) c.1) by (apply load32_store32_ne; lia).
      rewrite Hcp. eexists. split; [reflexivity|]. split_and!.
      * cbn. split; [done|]. rewrite load32_store32_ne by lia. unfold m1 at 1.
        rewrite load32_store32_eq by (unfold is_u32, bend in *; lia). split; [done|].
        rewrite load32_store32_eq by (by apply load32_range).
        eapply hseg_ext; [|exact Hseg]. intros d z Hd Hz. destruct (Hl d Hd) as (? & _).
        unfold m1. rewrite !store32_frame by lia. done.
      * intros x Hx. unfold m1. rewrite !store32_frame by lia. done.
      * by apply store32_bytes, store32_bytes.
    + rewrite set_ptr_run by done. eexists. split; [reflexivity|]. split_and!.
      * cbn. rewrite load32_store32_ne, load32_store32_eq by (done || lia).
        rewrite !load32_store32_ne by lia. split_and!; try done.
        eapply hseg_ext; [|exact Hseg]. intros d z Hd Hz. destruct (Hl d Hd) as (? & _).
        rewrite store32_frame by lia. done.
      * intros x Hx. apply store32_frame. lia.
      * by apply store32_bytes.
Qed.

(** *** [free] *)

(** Where [bp] belongs in an ascending list. *)
Lemma asc_place bp c l :
  asc (c :: l) -> c.1 < bp -> Forall (fun d => d.1 <> bp) l ->
  exists X p Y, c :: l = X ++ p :: Y /\ p.1 < bp /\ Forall (fun d => bp < d.1) Y.
Proof.
  revert c. induction l as [|d l IH]; intros c Ha Hc Hl.
  - exists [], c, []. split; [done|]. split; [done|constructor].
  - apply Forall_cons in Hl as [Hd Hl]. cbn [asc] in Ha. destruct Ha as [_ Ha].
    destruct (Z.lt_ge_cases d.1 bp) as [Hlt|Hge].
    + destruct (IH d Ha Hlt Hl) as (X & p & Y & E & Hp & HY). exists (c :: X), p, Y. rewrite E. done.
    + exists [], c, (d :: l). split; [done|]. split; [done|]. apply Forall_cons. split; [lia|].
      destruct Ha as [Ha _]. eapply Forall_impl; [exact Ha|]. unfold before. cbn. intros e He. lia.
Qed.

Definition first (l : list block) (y : Z) : Z := match l with [] => y | c :: _ => c.1 end.

Lemma hseg_head m x l y : hseg m x l y -> x = first l y.
Proof. destruct l; cbn; tauto. Qed.

(** The loop runs through the blocks below its place... *)
Lemma find_low s bp p l a fuel :
  hseg s.(umem) a l p -> asc (l ++ [(p, 0)]) -> p < bp -> Forall (fun c => inside s c.1) l -> inside s p ->
  bp < load32 s.(umem) p \/ load32 s.(umem) p <= p -> (length l < fuel)%nat ->
  free_find fuel bp a s = Ok (p, s).
Proof.
  intros Hs Ha Hp Hl Ip Hstop. revert a fuel Hs. induction l as [|c l IH]; intros a fuel Hs Hf.
  - cbn in Hs. subst a. destruct fuel as [|fuel]; [cbn in Hf; lia|]. cbn [free_find].
    rewrite (kM_bind_run _ _ _ _ _ (get_ptr_run _ _ Ip)).
    destruct (Z.ltb_spec p bp); [|lia]. destruct (Z.ltb_spec bp (load32 s.(umem) p)); [done|]. cbn.
    destruct (Z.leb_spec (load32 s.(umem) p) p); [done|lia].
  - cbn [hseg] in Hs. destruct Hs as (-> & _ & Hs). destruct fuel as [|fuel]; [cbn in Hf; lia|]. cbn [free_find].
    apply Forall_cons in Hl as [Ic Hl]. rewrite (kM_bind_run _ _ _ _ _ (get_ptr_run _ _ Ic)).
    cbn [app asc] in Ha. destruct Ha as [Hc Ha].
    assert (Hn : c.1 < load32 s.(umem) c.1 <= p).
    { rewrite (hseg_head _ _ _ _ Hs). unfold first. rewrite Forall_forall in Hc. unfold before in Hc.
      pose proof (Hc (p, 0) ltac:(apply elem_of_app; right; by left)) as Hcp. cbn in Hcp.
      destruct l as [|d l]; [lia|]. pose proof (Hc d ltac:(by left)).
      cbn [app asc] in Ha. destruct Ha as [Hd _]. rewrite Forall_forall in Hd. unfold before in Hd.
      pose proof (Hd (p, 0) ltac:(apply elem_of_app; right; by left)) as Hdp. cbn in Hdp. lia. }
    destruct (Z.ltb_spec c.1 bp); [|lia]. destruct (Z.ltb_spec bp (load32 s.(umem) c.1)); [lia|].
    destruct (Z.leb_spec (load32 s.(umem) c.1) c.1); [lia|]. cbn. apply IH; [done|done|done|cbn in Hf; lia].
Qed.

(** ... and past those above it, back to the start. *)
Lemma find_high s bp l a base fuel k :
  hseg s.(umem) a l base -> asc l -> base < bp -> Forall (fun c => inside s c.1 /\ bp < c.1) l ->
  (length l + k <= fuel)%nat ->
  exists fuel', (k <= fuel')%nat /\ free_find fuel bp a s = free_find fuel' bp base s.
Proof.
  intros Hs Ha Hb Hl. revert a fuel Hs. induction l as [|c l IH]; intros a fuel Hs Hf.
  - cbn in Hs. subst a. exists fuel. split; [cbn in Hf; lia|done].
  - cbn [hseg] in Hs. destruct Hs as (-> & _ & Hs). destruct fuel as [|fuel]; [cbn in Hf; lia|]. cbn [free_find].
    apply Forall_cons in Hl as [[Ic Hbc] Hl]. rewrite (kM_bind_run _ _ _ _ _ (get_ptr_run _ _ Ic)).
    cbn [asc] in Ha. destruct Ha as [Hc Ha]. destruct (Z.ltb_spec c.1 bp); [lia|]. cbn [andb orb].
    assert (Hn : (load32 s.(umem) c.1 <=? c.1) && (bp <? load32 s.(umem) c.1) = false).
    { rewrite (hseg_head _ _ _ _ Hs). unfold first. destruct l as [|d l]; [case_bools; lia || done|].
      apply Forall_cons in Hc as [Hc _]. unfold before in Hc. case_bools; lia || done. }
    rewrite Hn. destruct (IH Ha Hl _ fuel Hs) as (fuel' & Hf' & E); [cbn in Hf; lia|]. eauto.
Qed.

(** The loop finds its place from wherever [freep] points. *)
Lemma free_find_run s base bp X p Y fuel :
  hseg s.(umem) base (X ++ p :: Y) base -> asc (X ++ p :: Y) ->
  Forall (fun c => inside s c.1) (X ++ p :: Y) -> base <= p.1 -> p.1 < bp -> Forall (fun d => bp < d.1) Y ->
  s.(freep) ∈ (X ++ p :: Y).*1 -> (length (X ++ p :: Y) < fuel)%nat ->
  free_find fuel bp s.(freep) s = Ok (p.1, s).
Proof.
  intros Hs Ha HI Hbase Hp HY Hin Hf. apply hseg_app in Hs as (z & HX & Hs). cbn [hseg] in Hs.
  destruct Hs as (-> & _ & Hs). apply asc_app in Ha as (HaX & [HpY HaY] & HXp).
  apply Forall_app in HI as [IX IpY]. apply Forall_cons in IpY as [Ip IY]. rewrite length_app in Hf. cbn in Hf.
  assert (Hstop : bp < load32 s.(umem) p.1 \/ load32 s.(umem) p.1 <= p.1).
  { rewrite (hseg_head _ _ _ _ Hs). unfold first. destruct Y; [by right|]. left. by apply Forall_cons in HY as [? _]. }
  assert (Hlow : forall k l fuel', X = k ++ l -> (length l < fuel')%nat ->
            free_find fuel' bp (first l p.1) s = Ok (p.1, s)).
  { intros k l fuel' -> Hlen. apply asc_app in HaX as (_ & Hal & _). apply Forall_app in IX as [_ Il].
    apply hseg_app in HX as (w & _ & Hw). apply find_low with (l := l); try done.
    { by rewrite <- (hseg_head _ _ _ _ Hw). }
    apply asc_app. split; [done|]. split; [cbn; split; [constructor|done]|].
    intros b c Hb ->%list_elem_of_singleton. apply (HXp b p); [apply elem_of_app; by right|by left]. }
  rewrite fmap_app in Hin. apply elem_of_app in Hin as [Hin|Hin].
  { apply list_elem_of_fmap in Hin as (c & -> & Hc). apply list_elem_of_split in Hc as (k & l & ->).
    apply (Hlow k (c :: l) fuel eq_refl). rewrite length_app in Hf. cbn in *. lia. }
  cbn in Hin. apply elem_of_cons in Hin as [->|Hin].
  { apply (Hlow X [] fuel); [by rewrite app_nil_r|cbn; lia]. }
  apply list_elem_of_fmap in Hin as (c & -> & Hc). apply list_elem_of_split in Hc as (k & l & ->).
  apply hseg_app in Hs as (w & _ & Hw). change c.1 with (first (c :: l) base). rewrite <- (hseg_head _ _ _ _ Hw).
  destruct (find_high s bp (c :: l) w base fuel (S (length X)) Hw) as (fuel' & Hf' & ->).
  - by apply asc_app in HaY as (_ & ? & _).
  - lia.
  - apply Forall_app in IY as [_ IY]. apply Forall_app in HY as [_ HY]. by apply Forall_and.
  - rewrite length_app in Hf. cbn in *. lia.
  - rewrite (hseg_head _ _ _ _ HX). by apply (Hlow [] X fuel').
Qed.

(** The blocks of [A] are the same, headers included. *)
Definition whole (m m' : mem) (A : list block) : Prop :=
  forall b x, b ∈ A -> b.1 <= x < bend b -> m' x = m x.

Lemma whole_kept m m' A : whole m m' A -> kept m m' A.
Proof. intros H b x Hb Hx. apply (H b); [done|lia]. Qed.

Lemma whole_sizes m m' A :
  whole m m' A -> Forall (fun b => 1 <= b.2) A ->
  Forall (fun b => load32 m (b.1 + 4) = b.2) A -> Forall (fun b => load32 m' (b.1 + 4) = b.2) A.
Proof.
  intros H H1 HA. rewrite Forall_forall in *. intros b Hb. rewrite <- (HA b Hb). apply load32_ext.
  intros x Hx. apply (H b); [done|]. specialize (H1 b Hb). unfold bend. lia.
Qed.

Lemma units_val nbytes :
  0 <= nbytes <= 2 ^ 32 - 8 -> units nbytes = (nbytes + 7) / 8 + 1.
Proof.
  intros Hn. unfold units. rewrite (u32_small (nbytes + 8 - 1)) by (unfold is_u32; lia).
  replace (nbytes + 8 - 1) with (nbytes + 7) by lia. apply u32_small. unfold is_u32. Z.to_euclidean_division_equations. lia.
Qed.

Section Heap.
Context (base lo : Z).

Lemma heap_inside s F A b : heap base lo s F A -> b ∈ F ++ A -> inside s b.1.
Proof.
  intros H Hb. destruct (tiles_at _ _ _ _ (he_tiles _ _ _ _ _ H) Hb) as (H1 & H2 & H3).
  pose proof (he_base _ _ _ _ _ H). pose proof (he_brk _ _ _ _ _ H). unfold inside, bend in *. lia.
Qed.

Lemma base_inside s F A : heap base lo s F A -> inside s base.
Proof.
  intros H. pose proof (he_base _ _ _ _ _ H). pose proof (he_brk _ _ _ _ _ H). unfold inside. lia.
Qed.

Lemma list_inside s F A : heap base lo s F A -> Forall (fun c => inside s c.1) ((base, 0) :: F).
Proof.
  intros H. apply Forall_cons. split; [by eapply base_inside|]. apply Forall_forall. intros c Hc.
  eapply heap_inside; [exact H|]. apply elem_of_app. by left.
Qed.

Lemma sizes_pos hi F A : tiles lo hi (F ++ A) -> Forall (fun b => 1 <= b.2) A.
Proof.
  intros T. apply Forall_forall. intros b Hb.
  by destruct (tiles_at _ _ _ b T ltac:(apply elem_of_app; by right)) as (? & _).
Qed.

(** A free block, or [base], and a block that is not free. *)
Lemma list_off s F A p b : heap base lo s F A -> p ∈ (base, 0) :: F -> b ∈ A -> off p b /\ (p.1 + 8 <= b.1 \/ bend b <= p.1).
Proof.
  intros H Hp Hb. pose proof (he_tiles _ _ _ _ _ H) as T. pose proof (he_base _ _ _ _ _ H) as HB.
  destruct (tiles_at _ _ _ b T ltac:(apply elem_of_app; by right)) as (Hb1 & Hb2 & _).
  apply elem_of_cons in Hp as [->|Hp].
  - unfold off, bend. cbn. lia.
  - pose proof (tiles_off _ _ _ _ _ _ T Hp Hb) as Ho. split; [done|].
    destruct (tiles_at _ _ _ p T ltac:(apply elem_of_app; by left)) as (Hp1 & _). unfold off, bend in *. lia.
Qed.

Lemma list_bounds s F A c : heap base lo s F A -> c ∈ (base, 0) :: F -> 0 <= c.2 /\ bend c <= s.(brk).
Proof.
  intros H [->|Hc]%elem_of_cons.
  - pose proof (he_base _ _ _ _ _ H). pose proof (he_brk _ _ _ _ _ H). unfold bend. cbn. lia.
  - destruct (tiles_at _ _ _ c (he_tiles _ _ _ _ _ H) ltac:(apply elem_of_app; by left)) as (? & _ & ?). lia.
Qed.

Lemma list_least s F A c : heap base lo s F A -> c ∈ (base, 0) :: F -> base <= c.1.
Proof.
  intros H [->|Hc]%elem_of_cons; [done|].
  destruct (tiles_at _ _ _ c (he_tiles _ _ _ _ _ H) ltac:(apply elem_of_app; by left)) as (_ & ? & _).
  pose proof (he_base _ _ _ _ _ H). lia.
Qed.

(** Where a block that is to be freed belongs, and what is around it. *)
Lemma free_place s F A b :
  heap base lo s F (b :: A) ->
  exists X p Y, (base, 0) :: F = X ++ p :: Y /\ p.1 < b.1 /\ base <= p.1 /\ p.1 + 8 <= b.1 /\ bend p <= b.1 /\
    Forall (fun c => b.1 + 8 <= c.1 /\ bend b <= c.1) Y.
Proof.
  intros H. pose proof (he_tiles _ _ _ _ _ H) as T. pose proof (he_base _ _ _ _ _ H) as HB.
  destruct (tiles_at _ _ _ b T ltac:(apply elem_of_app; right; by left)) as (Hb1 & Hb2 & _).
  assert (Ho : forall c, c ∈ (base, 0) :: F -> off c b /\ (c.1 + 8 <= b.1 \/ bend b <= c.1)).
  { intros c Hc. by apply (list_off s F (b :: A)); [| |left]. }
  destruct (asc_place b.1 (base, 0) F) as (X & p & Y & E & Hp & HY).
  { apply H. } { cbn. lia. }
  { apply Forall_forall. intros c Hc. destruct (Ho c ltac:(by right)). unfold off, bend in *. lia. }
  rewrite E in Ho. exists X, p, Y. split; [done|]. split; [done|].
  destruct (Ho p ltac:(apply elem_of_app; right; by left)) as [Hop Hop'].
  split; [apply (list_least s F (b :: A)); [done|]; rewrite E; apply elem_of_app; right; by left|].
  split; [unfold bend in *; lia|]. split.
  { unfold off, bend in *. lia. }
  apply Forall_forall. intros c Hc. destruct (Ho c ltac:(apply elem_of_app; right; by right)) as [Ho1 Ho2].
  rewrite Forall_forall in HY. specialize (HY c Hc). unfold off, bend in *. lia.
Qed.

(** The list after [free] and its tiles. *)
Lemma free_tiles s F A b X p Y :
  heap base lo s F (b :: A) -> (base, 0) :: F = X ++ p :: Y -> p.1 < b.1 -> bend p <= b.1 ->
  exists F', X ++ join p (join b Y) = (base, 0) :: F' /\ tiles lo s.(brk) (F' ++ A) /\
    tiles lo s.(brk) (join b Y ++ (if decide (X = []) then [] else p :: tail X) ++ A).
Proof.
  intros H E Hpb Hp. pose proof (he_tiles _ _ _ _ _ H) as T.
  destruct X as [|x X]; cbn in E; injection E as E1 E2; subst.
  - assert (T1 : tiles lo s.(brk) (join b Y ++ A)).
    { apply tiles_join. eapply tiles_perm; [|exact T]. solve_Permutation. }
    exists (join b Y). split; [|split; [done|by rewrite decide_True]]. destruct (join b Y) as [|c l] eqn:Ej; [done|].
    cbn [app join]. destruct (Z.eqb_spec (bend (base, 0)) c.1) as [Ec|]; [|done]. exfalso.
    assert (c.1 = b.1) by (destruct Y as [|d Y]; cbn in Ej; [|destruct (bend b =? d.1)]; by injection Ej as <- _).
    unfold bend in *. cbn in *. lia.
  - rewrite decide_False by done. cbn [tail].
    assert (T1 : tiles lo s.(brk) (join b Y ++ (p :: X) ++ A)).
    { apply tiles_join. eapply tiles_perm; [|exact T]. solve_Permutation. }
    exists (X ++ join p (join b Y)). split; [done|]. split; [|done].
    eapply tiles_perm; [|apply (tiles_join lo s.(brk) p (join b Y) (X ++ A)); eapply tiles_perm; [|exact T1]];
      solve_Permutation.
Qed.

Lemma asc_free X p b Y :
  asc (X ++ p :: Y) -> p.1 + 8 <= b.1 -> bend p <= b.1 ->
  Forall (fun c => b.1 + 8 <= c.1 /\ bend b <= c.1) Y -> asc (X ++ join p (join b Y)).
Proof.
  intros Ha Hp1 Hp2 HY. apply asc_app in Ha as (HX & [HpY HaY] & HXY). rewrite Forall_forall in HpY.
  apply asc_app. split; [done|]. split.
  - apply asc_join; [by apply asc_join|]. apply Forall_forall. intros c [Ec|Hc]%join_in; [lia|].
    destruct (HpY c Hc). lia.
  - intros x c Hx Hc. assert (Hxp : before x p) by (apply HXY; [done|by left]). unfold before, bend in *.
    apply join_in in Hc as [Ec|Hc]; [lia|]. apply join_in in Hc as [Ec|Hc]; [lia|].
    destruct (HpY c Hc). lia.
Qed.

(** Headers around a block that is freed are not in the blocks that stay. *)
Lemma free_frame s F A b p m' :
  heap base lo s F (b :: A) -> p ∈ (base, 0) :: F ->
  (forall x, ~ (b.1 <= x < b.1 + 8) -> ~ (p.1 <= x < p.1 + 8) -> m' x = s.(umem) x) -> whole s.(umem) m' A.
Proof.
  intros H Hp Hm c x Hc Hx. pose proof (he_tiles _ _ _ _ _ H) as T.
  destruct (list_off s F (b :: A) p c H Hp ltac:(by right)) as [_ Ho].
  destruct (tiles_at _ _ _ b T ltac:(apply elem_of_app; right; by left)) as (Hb & _).
  assert (Hbc : off b c).
  { change (b :: A) with ([b] ++ A) in T. rewrite app_assoc in T. eapply tiles_off; [exact T| |done].
    apply elem_of_app. right. by left. }
  unfold off, bend in *. apply Hm; lia.
Qed.

(** The two calls of [link]. *)
Lemma free_links s F A b X p Y :
  heap base lo s F (b :: A) -> s.(freep) <> 0 -> (base, 0) :: F = X ++ p :: Y -> p.1 + 8 <= b.1 -> bend p <= b.1 ->
  Forall (fun c => b.1 + 8 <= c.1 /\ bend b <= c.1) Y ->
  exists m1 m2,
    link b.1 (load32 s.(umem) p.1) s = Ok (tt, mk_ust m1 s.(freep) s.(brk)) /\
    link p.1 b.1 (mk_ust m1 s.(freep) s.(brk)) = Ok (tt, mk_ust m2 s.(freep) s.(brk)) /\
    hseg m2 base (X ++ join p (join b Y)) base /\ bytes_ok m2 /\
    (forall x, ~ (b.1 <= x < b.1 + 8) -> ~ (p.1 <= x < p.1 + 8) -> m2 x = s.(umem) x).
Proof.
  intros H Hf0 E Hp8 Hp HY. destruct (free_tiles s F A b X p Y H E ltac:(lia) Hp) as (F' & _ & _ & T1).
  pose proof (he_base _ _ _ _ _ H) as HB. pose proof (he_asc _ _ _ _ _ H) as Ha. rewrite E in Ha.
  pose proof (list_inside _ _ _ H) as HI. rewrite E in HI.
  pose proof (heap_inside s F (b :: A) b H ltac:(apply elem_of_app; right; by left)) as Ib.
  destruct (tiles_at _ _ _ b (he_tiles _ _ _ _ _ H) ltac:(apply elem_of_app; right; by left)) as (Hb1 & Hb2 & Hb3).
  destruct (he_list _ _ _ _ _ H) as [(? & _)|[_ Hs]]; [done|]. rewrite E in Hs.
  pose proof (he_sizes _ _ _ _ _ H) as Hsz. apply Forall_cons in Hsz as [Hszb _].
  apply hseg_app in Hs as (z & HsX & Hz). cbn [hseg] in Hz. destruct Hz as (-> & Hszp & HsY).
  apply Forall_app in HI as [IX IpY]. apply Forall_cons in IpY as [Ip IY].
  pose proof (fun c => list_bounds s F (b :: A) c H) as Hbd.
  pose proof (fun c => list_least s F (b :: A) c H) as Hle. rewrite E in Hle.
  rewrite E in Hbd. destruct (Hbd p ltac:(apply elem_of_app; right; by left)) as [Hp2 Hpb].
  rewrite Forall_forall in HY, IY.
  destruct (link_run s b (load32 s.(umem) p.1) Y base) as (m1 & R1 & S1 & Fr1 & B1); try done; try lia.
  { apply Forall_forall. intros c Hc. destruct (HY c Hc) as [? _].
    destruct (Hbd c ltac:(apply elem_of_app; right; by right)). split; [lia|]. split; [lia|]. split; [by apply IY|lia]. }
  { intros ->. cbn in HsY. rewrite HsY. split; [|unfold is_u32; unfold inside, KERNBASE in Ib; lia].
    specialize (Hle p ltac:(apply elem_of_app; right; by left)). lia. }
  { apply H. }
  destruct (link_run (mk_ust m1 s.(freep) s.(brk)) p b.1 (join b Y) base) as (m2 & R2 & S2 & Fr2 & B2); try done.
  { cbn [umem]. rewrite <- Hszp. apply load32_ext. intros x Hx. apply Fr1. lia. }
  { apply Forall_forall. intros c Hc.
    destruct (tiles_at _ _ _ c T1 ltac:(apply elem_of_app; by left)) as (Hc1 & Hc2 & Hc3).
    assert (p.1 + 8 <= c.1) by (apply join_in in Hc as [->|Hc]; [lia|]; destruct (HY c Hc); lia).
    pose proof (he_brk _ _ _ _ _ H). unfold inside, bend in *. cbn [brk] in *. lia. }
  { intros E0. by apply join_cons in E0. }
  cbn [umem freep brk] in *. exists m1, m2. split_and!; try done.
  - apply hseg_app. exists p.1. split; [|done]. eapply hseg_ext; [|exact HsX]. intros c x Hc Hx.
    apply asc_app in Ha as (_ & _ & HXp). destruct (HXp c p Hc ltac:(by left)) as [Hcp _].
    rewrite Fr2, Fr1 by lia. done.
  - intros x Hx1 Hx2. rewrite Fr2, Fr1 by done. done.
Qed.

(** [free] moves its block from the allocated to the free ones, merged with
    the free blocks that touch it. *)
Lemma free_run s F A b fuel :
  heap base lo s F (b :: A) -> s.(freep) <> 0 -> (length F + 1 < fuel)%nat ->
  exists s' F', free fuel (b.1 + 8) s = Ok (tt, s') /\ heap base lo s' F' A /\ s'.(brk) = s.(brk) /\
    s'.(freep) <> 0 /\ (length F' <= length F + 1)%nat /\ whole s.(umem) s'.(umem) A /\
    exists c, c ∈ F' /\ b.2 <= c.2.
Proof.
  intros H Hf0 Hf. destruct (free_place s F A b H) as (X & p & Y & E & Hpb & Hbp & Hp8 & Hp & HY).
  destruct (free_tiles s F A b X p Y H E Hpb Hp) as (F' & EF' & T' & T1).
  destruct (free_links s F A b X p Y H Hf0 E Hp8 Hp HY) as (m1 & m2 & R1 & R2 & S2 & B2 & Fr).
  pose proof (he_base _ _ _ _ _ H) as HB. pose proof (he_asc _ _ _ _ _ H) as Ha.
  pose proof (list_inside _ _ _ H) as HI.
  pose proof (heap_inside s F (b :: A) b H ltac:(apply elem_of_app; right; by left)) as Ib.
  destruct (tiles_at _ _ _ b (he_tiles _ _ _ _ _ H) ltac:(apply elem_of_app; right; by left)) as (Hb1 & _).
  destruct (he_list _ _ _ _ _ H) as [(? & _)|[Hfp Hs]]; [done|]. change (base :: F.*1) with (((base, 0) :: F).*1) in Hfp.
  assert (Hfind : free_find fuel b.1 s.(freep) s = Ok (p.1, s)).
  { rewrite E in *. eapply free_find_run; try done; [|rewrite <- E; cbn; lia].
    eapply Forall_impl; [exact HY|]. cbn. intros c Hc. lia. }
  pose proof (free_frame s F A b p m2 H) as W. rewrite E in W. specialize (W ltac:(apply elem_of_app; right; by left) Fr).
  pose proof (fun c => list_bounds s F (b :: A) c H) as Hbd. rewrite E in Hbd.
  destruct (Hbd p ltac:(apply elem_of_app; right; by left)) as [Hp0 _].
  exists (mk_ust m2 p.1 s.(brk)), F'. cbn [brk freep umem]. split_and!; try done; try lia.
  - assert (Eb : hadd (b.1 + 8) (-1) = b.1).
    { unfold hadd. replace (b.1 + 8 + 8 * -1) with b.1 by lia. apply u32_small. by eapply inside_u32. }
    unfold free. rewrite Eb. erewrite kM_bind_run by reflexivity.
    rewrite E in HI. apply Forall_app in HI as [_ HI]. apply Forall_cons in HI as [Ip _].
    rewrite (kM_bind_run _ _ _ _ _ Hfind), (kM_bind_run _ _ _ _ _ (get_ptr_run _ _ Ip)).
    by rewrite (kM_bind_run _ _ _ _ _ R1), (kM_bind_run _ _ _ _ _ R2).
  - split; cbn [brk freep umem]; try done.
    + apply H.
    + right. rewrite <- EF'. split; [|done]. change (base :: F'.*1) with (((base, 0) :: F').*1). rewrite <- EF', fmap_app.
      apply elem_of_app. right. destruct (join b Y) as [|c l]; cbn; [by left|]. destruct (bend p =? c.1); by left.
    + rewrite <- EF'. rewrite E in Ha. by apply asc_free.
    + eapply whole_sizes; [exact W|by eapply sizes_pos|]. pose proof (he_sizes _ _ _ _ _ H) as Hz.
      by apply Forall_cons in Hz as [_ ?].
  - assert (El : length ((base, 0) :: F') = length (X ++ join p (join b Y))) by (by rewrite EF').
    assert (El' : length ((base, 0) :: F) = length (X ++ p :: Y)) by (by rewrite E).
    rewrite length_app in El, El'. cbn in El, El'. pose proof (join_length p (join b Y)). pose proof (join_length b Y). lia.
  - destruct (join_big b Y) as (c & Hc & Hbc & _).
    { apply Forall_forall. intros c Hc. apply Hbd, elem_of_app. right. by right. }
    destruct (join_keeps p (join b Y) c Hc Hp0) as (d & Hd & Hcd). exists d. split; [|lia].
    assert (Hin : d ∈ (base, 0) :: F') by (rewrite <- EF'; apply elem_of_app; by right).
    apply elem_of_cons in Hin as [->|Hin]; [cbn in Hcd; lia|done].
Qed.

(** *** [malloc] *)

(** The address of the last block of [l], or [q]. *)
Fixpoint final (q : Z) (l : list block) : Z := match l with [] => q | c :: l => final c.1 l end.

Lemma final_last q l c : final q (l ++ [c]) = c.1.
Proof. revert q. by induction l as [|d l IH]; intros q; cbn. Qed.

Lemma final_last2 q l l' c : final q (l ++ l' ++ [c]) = c.1.
Proof. by rewrite app_assoc, final_last. Qed.

Lemma final_split q n l : exists X k, (q, n) :: l = X ++ [(final q l, k)].
Proof.
  destruct l as [|c l _] using rev_ind; [by exists [], n|]. rewrite final_last. destruct c as [c k].
  by exists ((q, n) :: l), k.
Qed.

Lemma fit_dec nunits (l : list block) :
  Forall (fun c => c.2 < nunits) l \/
  exists l1 c l2, l = l1 ++ c :: l2 /\ Forall (fun c => c.2 < nunits) l1 /\ nunits <= c.2.
Proof.
  induction l as [|c l [IH|(l1 & d & l2 & -> & H1 & H2)]]; [by left|..].
  - destruct (Z.lt_ge_cases c.2 nunits); [left; by constructor|]. right. by exists [], c, l.
  - right. destruct (Z.lt_ge_cases c.2 nunits); [|by exists [], c, (l1 ++ d :: l2)].
    exists (c :: l1), d, l2. split; [done|]. split; [by constructor|done].
Qed.

(** The first block that fits, in the order in which the loop meets them, and
    the block before it. *)
Lemma first_fit nunits F L1 f nf L2 :
  1 <= nunits -> (base, 0) :: F = L1 ++ (f, nf) :: L2 ->
  Forall (fun c => c.2 < nunits) ((base, 0) :: F) \/
  exists l1 c l2 X k Y, L2 ++ L1 ++ [(f, nf)] = l1 ++ c :: l2 /\ Forall (fun c => c.2 < nunits) l1 /\ nunits <= c.2 /\
    (base, 0) :: F = X ++ (final f l1, k) :: c :: Y.
Proof.
  intros Hn E. assert (Hlast : forall l c l', (base, 0) :: F = l ++ c :: l' -> nunits <= c.2 -> exists Z d, l = Z ++ [d]).
  { intros l c l' El Hc. destruct l as [|d l _] using rev_ind; [|eauto]. injection El as <- _. cbn in Hc. lia. }
  destruct (fit_dec nunits L2) as [H2|(l1 & c & l2 & -> & H1 & Hc)].
  2: { right. destruct (final_split f nf l1) as (X & k & Ex). exists l1, c, (l2 ++ L1 ++ [(f, nf)]), (L1 ++ X), k, l2.
       split; [by rewrite <- app_assoc|]. split_and!; try done.
       rewrite E. change ((f, nf) :: l1 ++ c :: l2) with (((f, nf) :: l1) ++ c :: l2). rewrite Ex.
       by rewrite <- !app_assoc. }
  destruct (fit_dec nunits L1) as [H1|(l1 & c & l2 & -> & H1 & Hc)].
  2: { right. rewrite <- app_assoc in E. destruct (Hlast l1 c _ E Hc) as (Z & [d k] & ->).
       exists (L2 ++ Z ++ [(d, k)]), c, (l2 ++ [(f, nf)]), Z, k, (l2 ++ (f, nf) :: L2).
       rewrite final_last2. cbn [fst]. split; [by rewrite <- !app_assoc|]. split_and!; try done.
       - apply Forall_app. by split.
       - rewrite E. by rewrite <- !app_assoc. }
  destruct (Z.lt_ge_cases nf nunits) as [Hf|Hf].
  { left. rewrite E. apply Forall_app. split; [done|]. by constructor. }
  right. destruct (Hlast L1 (f, nf) L2 E Hf) as (Z & [d k] & ->).
  exists (L2 ++ Z ++ [(d, k)]), (f, nf), [], Z, k, L2. rewrite final_last2. cbn [fst].
  split; [by rewrite <- !app_assoc|]. split_and!; try done.
  - apply Forall_app. by split.
  - rewrite E. by rewrite <- !app_assoc.
Qed.

Context (pages : Z -> Z -> bool).

(** The loop passes over blocks that are too small. *)
Lemma scan_skip s nunits ff fuel l q a z :
  hseg s.(umem) a l z -> Forall (fun c => c.2 < nunits /\ inside s c.1 /\ c.1 <> s.(freep)) l ->
  malloc_loop pages (length l + fuel) ff nunits q a s = malloc_loop pages fuel ff nunits (final q l) z s.
Proof.
  revert q a. induction l as [|c l IH]; intros q a Hs Hl; cbn in Hs; [by subst a|]. destruct Hs as (-> & Hc & Hs).
  apply Forall_cons in Hl as [(H1 & H2 & H3) Hl]. cbn [length Nat.add malloc_loop].
  rewrite (kM_bind_run _ _ _ _ _ (get_size_run _ _ H2)), Hc. destruct (Z.leb_spec nunits c.2); [lia|].
  erewrite kM_bind_run by reflexivity. destruct (Z.eqb_spec c.1 s.(freep)); [done|].
  rewrite (kM_bind_run _ _ _ _ _ (get_ptr_run _ _ H2)). by apply IH.
Qed.

(** The order in which the loop meets the blocks: those after [freep], those
    before it, and [freep] last. *)
Lemma loop_order s F A :
  heap base lo s F A -> s.(freep) <> 0 ->
  exists L1 nf L2, (base, 0) :: F = L1 ++ (s.(freep), nf) :: L2 /\
    hseg s.(umem) (load32 s.(umem) s.(freep)) (L2 ++ L1) s.(freep) /\
    load32 s.(umem) (s.(freep) + 4) = nf /\ inside s s.(freep) /\ length (L2 ++ L1) = length F /\
    Forall (fun c => inside s c.1 /\ c.1 <> s.(freep)) (L2 ++ L1).
Proof.
  intros H Hf0. destruct (he_list _ _ _ _ _ H) as [(? & _)|[Hin Hs]]; [done|].
  change (base :: F.*1) with (((base, 0) :: F).*1) in Hin. apply list_elem_of_fmap in Hin as ([f nf] & Ef & Hin).
  cbn in Ef. apply list_elem_of_split in Hin as (L1 & L2 & E). pose proof (list_inside _ _ _ H) as HI.
  pose proof (he_asc _ _ _ _ _ H) as Ha. exists L1, nf, L2. rewrite Ef in *. rewrite E in Hs, HI, Ha.
  apply hseg_app in Hs as (z & Hs1 & Hs2). cbn [hseg] in Hs2. destruct Hs2 as (-> & Hnf & Hs2). cbn [fst snd] in *.
  apply Forall_app in HI as [HI1 HI2]. apply Forall_cons in HI2 as [If HI2]. cbn [fst] in If.
  split_and!; try done.
  - apply hseg_app. eauto.
  - assert (El : length ((base, 0) :: F) = length (L1 ++ (f, nf) :: L2)) by (by rewrite E).
    rewrite !length_app in *. cbn in El. lia.
  - apply Forall_and. split; [by apply Forall_app|]. apply asc_app in Ha as (_ & [Hb _] & Ha).
    rewrite Forall_forall in Hb. apply Forall_forall. intros c [Hc|Hc]%elem_of_app.
    + destruct (Hb c Hc) as [Hb' _]. cbn in Hb'. lia.
    + destruct (Ha c (f, nf) Hc ltac:(by left)) as [Ha' _]. cbn in Ha'. lia.
Qed.

(** It ends with the first block that fits, or back at [freep]. *)
Lemma scan_run s F A nunits ff fuel :
  heap base lo s F A -> s.(freep) <> 0 -> 1 <= nunits -> (length F + 1 <= fuel)%nat ->
  (Forall (fun c => c.2 < nunits) F /\ exists fuel', (fuel - length F - 1 <= fuel')%nat /\
     malloc_loop pages fuel ff nunits s.(freep) (load32 s.(umem) s.(freep)) s =
     (p ← morecore pages ff nunits; if p =? 0 then mret 0 else nx ← get_ptr p; malloc_loop pages fuel' ff nunits p nx) s) \/
  (exists X q k c Y, (base, 0) :: F = X ++ (q, k) :: c :: Y /\ nunits <= c.2 /\
     malloc_loop pages fuel ff nunits s.(freep) (load32 s.(umem) s.(freep)) s = take nunits q c.1 s).
Proof.
  intros H Hf0 Hn Hfuel. destruct (loop_order s F A H Hf0) as (L1 & nf & L2 & E & Hs & Hnf & If & Hlen & HI).
  set (f := s.(freep)) in *. apply Forall_and in HI as [HIa HIb].
  destruct (first_fit nunits F L1 f nf L2 Hn E) as [Hall|(l1 & c & l2 & X & k & Y & Er & H1 & Hc & EL)].
  - left. pose proof Hall as HF. apply Forall_cons in HF as [_ HF]. split; [done|].
    rewrite E in Hall. apply Forall_app in Hall as [A1 A2]. apply Forall_cons in A2 as [Af A2]. cbn in Af.
    exists (fuel - length (L2 ++ L1) - 1)%nat. split; [lia|].
    replace fuel with (length (L2 ++ L1) + S (fuel - length (L2 ++ L1) - 1))%nat at 1 by lia.
    rewrite (scan_skip s nunits ff _ (L2 ++ L1) f _ f Hs).
    2: { apply Forall_and. split; [by apply Forall_app|by apply Forall_and]. }
    cbn [malloc_loop]. rewrite (kM_bind_run _ _ _ _ _ (get_size_run _ _ If)), Hnf.
    destruct (Z.leb_spec nunits nf); [lia|]. erewrite kM_bind_run by reflexivity.
    unfold f. by rewrite Z.eqb_refl.
  - right. exists X, (final f l1), k, c, Y. split; [done|]. split; [done|].
    assert (Hs3 : hseg s.(umem) (load32 s.(umem) f) (l1 ++ c :: l2) (load32 s.(umem) f)).
    { rewrite <- Er, app_assoc. apply hseg_app. exists f. split; [done|]. cbn. done. }
    assert (HI3 : Forall (fun c => inside s c.1) (l1 ++ c :: l2)).
    { rewrite <- Er, app_assoc. apply Forall_app. split; [done|by constructor]. }
    assert (Hl1 : (length l1 <= length F)%nat /\ Forall (fun c => c.1 <> f) l1).
    { rewrite app_assoc in Er. destruct (app_eq_inv (L2 ++ L1) [(f, nf)] l1 (c :: l2) Er) as [(w & E1 & E2)|(w & E1 & E2)].
      - rewrite E1 in HIb. apply Forall_app in HIb as [? _]. rewrite <- Hlen, E1, length_app. split; [lia|done].
      - destruct w as [|w0 w]; [rewrite app_nil_r in E1; subst l1; split; [lia|done]|]. exfalso.
        apply (f_equal length) in E2. rewrite length_app in E2. cbn in E2. lia. }
    destruct Hl1 as [Hlen1 HI4]. apply hseg_app in Hs3 as (z & Hs3 & Hs4). cbn [hseg] in Hs4. destruct Hs4 as (-> & Hcs & _).
    apply Forall_app in HI3 as [HI3 HI5]. apply Forall_cons in HI5 as [Ic _].
    replace fuel with (length l1 + S (fuel - length l1 - 1))%nat by lia.
    rewrite (scan_skip s nunits ff _ l1 f _ c.1 Hs3).
    2: { apply Forall_and. split; [done|]. by apply Forall_and. }
    cbn [malloc_loop]. rewrite (kM_bind_run _ _ _ _ _ (get_size_run _ _ Ic)), Hcs.
    destruct (Z.leb_spec nunits c.2); [done|lia].
Qed.

(** *** Taking a block *)

(** A block leaves the list whole... *)
Lemma tiles_unlink F X q k c Y hi A :
  (base, 0) :: F = X ++ (q, k) :: c :: Y -> tiles lo hi (F ++ A) ->
  exists F', X ++ (q, k) :: Y = (base, 0) :: F' /\ tiles lo hi (F' ++ c :: A).
Proof.
  intros E T. destruct X as [|x X]; cbn in E; injection E as E1 E2; subst.
  - exists Y. split; [done|]. eapply tiles_perm; [|exact T]. solve_Permutation.
  - exists (X ++ (q, k) :: Y). split; [done|]. eapply tiles_perm; [|exact T]. solve_Permutation.
Qed.

(** ... or its end is cut off. *)
Lemma tiles_cut F X q k c Y hi A n :
  (base, 0) :: F = X ++ (q, k) :: c :: Y -> 1 <= n < c.2 -> tiles lo hi (F ++ A) ->
  exists F', X ++ (q, k) :: (c.1, c.2 - n) :: Y = (base, 0) :: F' /\
    tiles lo hi (F' ++ (c.1 + 8 * (c.2 - n), n) :: A).
Proof.
  intros E Hn T. destruct (tiles_unlink F X q k c Y hi A E T) as (F1 & E1 & T1). destruct c as [c z]. cbn [fst snd] in *.
  assert (T2 : tiles lo hi ((c, z - n) :: (c + 8 * (z - n), n) :: F1 ++ A)).
  { apply tiles_split; [lia|lia|]. replace (z - n + n) with z by lia. eapply tiles_perm; [|exact T1]. solve_Permutation. }
  destruct X as [|x X]; cbn in E1; injection E1 as E1 E2; subst.
  - exists ((c, z - n) :: F1). split; [done|]. eapply tiles_perm; [|exact T2]. solve_Permutation.
  - exists (X ++ (q, k) :: (c, z - n) :: Y). split; [done|]. eapply tiles_perm; [|exact T2]. solve_Permutation.
Qed.

Lemma asc_shrink X q c n Y : asc (X ++ q :: c :: Y) -> n <= c.2 -> asc (X ++ q :: (c.1, n) :: Y).
Proof.
  intros Ha Hn. apply asc_app in Ha as (HX & [Hq [Hc HY]] & HXY). apply Forall_cons in Hq as [Hqc HqY].
  apply asc_app. split; [done|]. split; [|].
  - cbn. split; [by constructor|]. split; [|done]. eapply Forall_impl; [exact Hc|].
    intros d [H1 H2]. unfold before, bend in *. cbn. lia.
  - intros x d Hx. intros [->|[->|Hd]%elem_of_cons]%elem_of_cons.
    + apply HXY; [done|by left].
    + exact (HXY x c Hx ltac:(right; by left)).
    + apply HXY; [done|right; by right].
Qed.

Lemma asc_drop X q c Y : asc (X ++ q :: c :: Y) -> asc (X ++ q :: Y).
Proof.
  intros Ha. apply asc_app in Ha as (HX & [Hq [Hc HY]] & HXY). apply Forall_cons in Hq as [Hqc HqY].
  apply asc_app. split; [done|]. split; [done|]. intros x d Hx [->|Hd]%elem_of_cons.
  - apply HXY; [done|by left].
  - apply HXY; [done|right; by right].
Qed.

Lemma addr_in (F : list block) l q : l = (base, 0) :: F -> q ∈ l.*1 -> q ∈ base :: F.*1.
Proof. by intros ->. Qed.

Section Take.
Context (s : ust) (F A X Y : list block) (q k : Z) (c : block).
Hypothesis (H : heap base lo s F A) (Hf0 : s.(freep) <> 0) (E : (base, 0) :: F = X ++ (q, k) :: c :: Y) (Hc : 1 <= c.2).

Lemma take_around :
  hseg s.(umem) base X q /\ load32 s.(umem) (q + 4) = k /\ load32 s.(umem) q = c.1 /\
  load32 s.(umem) (c.1 + 4) = c.2 /\ hseg s.(umem) (load32 s.(umem) c.1) Y base /\
  inside s q /\ inside s c.1 /\ bend c <= s.(brk) /\ q <> 0 /\ q + 8 <= c.1 /\
  (forall d, d ∈ X -> d.1 + 8 <= q) /\ (forall d, d ∈ Y -> bend c < d.1) /\
  (forall b, b ∈ A -> (q + 8 <= b.1 \/ bend b <= q) /\ (bend c <= b.1 \/ bend b <= c.1)).
Proof.
  pose proof (he_asc _ _ _ _ _ H) as Ha. pose proof (list_inside _ _ _ H) as HI. pose proof (he_base _ _ _ _ _ H) as HB.
  destruct (he_list _ _ _ _ _ H) as [(? & _)|[_ Hs]]; [done|]. rewrite E in Hs, HI, Ha.
  apply hseg_app in Hs as (z & HX & Hs). cbn [hseg fst snd] in Hs. destruct Hs as (-> & H1 & Hqc & H2 & HY).
  apply Forall_app in HI as [_ HI]. apply Forall_cons in HI as [Iq HI]. apply Forall_cons in HI as [Ic _].
  apply asc_app in Ha as (_ & [Hq [HcY _]] & HXq). apply Forall_cons in Hq as [[Hq8 _] _]. cbn [fst] in *.
  rewrite Forall_forall in HcY.
  assert (Hin : (q, k) ∈ (base, 0) :: F /\ c ∈ (base, 0) :: F).
  { rewrite E. split; apply elem_of_app; right; [by left|right; by left]. }
  destruct Hin as [Hinq Hinc]. destruct (list_bounds _ _ _ _ H Hinc) as [_ Hcb].
  pose proof (list_least _ _ _ _ H Hinq) as Hbq. cbn in Hbq.
  split_and!; try done; try lia.
  - intros d Hd. by destruct (HXq d (q, k) Hd ltac:(by left)).
  - intros d Hd. by destruct (HcY d Hd).
  - intros b Hb. split; [by destruct (list_off _ _ _ _ _ H Hinq Hb)|by destruct (list_off _ _ _ _ _ H Hinc Hb)].
Qed.

Lemma take_exact : exists s' F', take c.2 q c.1 s = Ok (c.1 + 8, s') /\ heap base lo s' F' (c :: A) /\
  s'.(brk) = s.(brk) /\ s'.(freep) <> 0 /\ whole s.(umem) s'.(umem) A.
Proof.
  destruct take_around as (HX & Hq & Hqc & Hcs & HY & Iq & Ic & Hcb & Hq0 & Hq8 & HXq & HcY & HA).
  destruct (tiles_unlink F X q k c Y s.(brk) A E (he_tiles _ _ _ _ _ H)) as (F' & E' & T').
  set (m' := store32 s.(umem) q (load32 s.(umem) c.1)).
  assert (W : whole s.(umem) m' (c :: A)).
  { intros b x Hb Hx. apply store32_frame. apply elem_of_cons in Hb as [->|Hb]; [lia|]. destruct (HA b Hb) as [? _]. lia. }
  exists (mk_ust m' q s.(brk)), F'. cbn [umem freep brk]. split_and!; try done.
  - unfold take. rewrite (kM_bind_run _ _ _ _ _ (get_size_run _ _ Ic)), Hcs, Z.eqb_refl.
    rewrite (kM_bind_run _ _ _ c.1 (mk_ust m' s.(freep) s.(brk))).
    + unfold hadd. rewrite u32_small by (unfold is_u32, inside, KERNBASE in *; lia). by erewrite kM_bind_run by reflexivity.
    + rewrite (kM_bind_run _ _ _ _ _ (get_ptr_run _ _ Ic)). by rewrite (kM_bind_run _ _ _ _ _ (set_ptr_run _ _ Iq _)).
  - split; cbn [umem freep brk]; try done; try apply H.
    + apply store32_bytes, H.
    + right. split; [eapply addr_in; [exact E'|]; rewrite fmap_app; apply elem_of_app; right; by left|].
      rewrite <- E'. apply hseg_app. exists q. split; [|cbn [hseg fst snd]; split_and!; [done|..]].
      * eapply hseg_ext; [|exact HX]. intros d x Hd Hx. apply store32_frame. specialize (HXq d Hd). lia.
      * unfold m'. by rewrite load32_store32_ne by lia.
      * unfold m'. rewrite load32_store32_eq by (apply load32_range, H). eapply hseg_ext; [|exact HY].
        intros d x Hd Hx. apply store32_frame. specialize (HcY d Hd). unfold bend in HcY. lia.
    + rewrite <- E'. pose proof (he_asc _ _ _ _ _ H) as Ha. rewrite E in Ha. by eapply asc_drop.
    + eapply whole_sizes; [exact W|by eapply sizes_pos|]. constructor; [done|apply H].
  - intros b x Hb. apply W. by right.
Qed.

Lemma take_cut n : 1 <= n < c.2 -> exists s' F', take n q c.1 s = Ok (c.1 + 8 * (c.2 - n) + 8, s') /\
  heap base lo s' F' ((c.1 + 8 * (c.2 - n), n) :: A) /\ s'.(brk) = s.(brk) /\ s'.(freep) <> 0 /\
  whole s.(umem) s'.(umem) A.
Proof.
  intros Hn. destruct take_around as (HX & Hq & Hqc & Hcs & HY & Iq & Ic & Hcb & Hq0 & Hq8 & HXq & HcY & HA).
  destruct (tiles_cut F X q k c Y s.(brk) A n E Hn (he_tiles _ _ _ _ _ H)) as (F' & E' & T').
  set (p := c.1 + 8 * (c.2 - n)) in *. set (m1 := store32 s.(umem) (c.1 + 4) (c.2 - n)). set (m' := store32 m1 (p + 4) n).
  pose proof Ic as (Ic1 & Ic2 & Ic3). unfold KERNBASE in Ic3. unfold bend in Hcb, HcY, HA.
  assert (Ip : inside (mk_ust m1 s.(freep) s.(brk)) p) by (unfold inside, KERNBASE, p; cbn; lia).
  assert (W : forall x, ~ (c.1 <= x < bend c) -> m' x = s.(umem) x).
  { intros x Hx. unfold m', m1, p, bend in *. rewrite !store32_frame by lia. done. }
  assert (WA : whole s.(umem) m' A).
  { intros b x Hb Hx. apply W. destruct (HA b Hb) as [_ ?]. unfold bend in *. lia. }
  exists (mk_ust m' q s.(brk)), F'. cbn [umem freep brk]. split_and!; try done.
  - unfold take. rewrite (kM_bind_run _ _ _ _ _ (get_size_run _ _ Ic)), Hcs.
    destruct (Z.eqb_spec c.2 n); [lia|]. rewrite (u32_small (c.2 - n)) by (unfold is_u32; lia).
    assert (Ep : hadd c.1 (c.2 - n) = p) by (apply u32_small; unfold is_u32, p; lia).
    rewrite (kM_bind_run _ _ _ p (mk_ust m' s.(freep) s.(brk))).
    + unfold hadd. rewrite u32_small by (unfold is_u32, p; lia). by erewrite kM_bind_run by reflexivity.
    + rewrite (kM_bind_run _ _ _ _ _ (set_size_run _ _ Ic _)), Ep. by rewrite (kM_bind_run _ _ _ _ _ (set_size_run _ _ Ip _)).
  - split; cbn [umem freep brk]; try done; try apply H.
    + apply store32_bytes, store32_bytes, H.
    + right. split; [eapply addr_in; [exact E'|]; rewrite fmap_app; apply elem_of_app; right; by left|].
      rewrite <- E'. apply hseg_app. exists q. split; [|cbn [hseg fst snd]; split_and!].
      * eapply hseg_ext; [|exact HX]. intros d x Hd Hx. apply W. specialize (HXq d Hd). lia.
      * done.
      * rewrite <- Hq. apply load32_ext. intros x Hx. apply W. lia.
      * rewrite <- Hqc. apply load32_ext. intros x Hx. apply W. lia.
      * unfold m'. rewrite load32_store32_ne by (unfold p; lia). apply load32_store32_eq. unfold is_u32. lia.
      * replace (load32 m' c.1) with (load32 s.(umem) c.1).
        { eapply hseg_ext; [|exact HY]. intros d x Hd Hx. apply W. specialize (HcY d Hd). unfold bend. lia. }
        apply load32_ext. intros x Hx. unfold m', m1. rewrite !store32_frame by (unfold p; lia). done.
    + rewrite <- E'. pose proof (he_asc _ _ _ _ _ H) as Ha. rewrite E in Ha. apply asc_shrink; [done|lia].
    + constructor; [cbn [fst snd]; unfold m'; apply load32_store32_eq; unfold is_u32; lia|].
      eapply whole_sizes; [exact WA|eapply sizes_pos; apply H|apply H].
Qed.

Lemma cut_run n : 1 <= n <= c.2 -> exists r s' F', take n q c.1 s = Ok (r + 8, s') /\ heap base lo s' F' ((r, n) :: A) /\
  s'.(brk) = s.(brk) /\ s'.(freep) <> 0 /\ whole s.(umem) s'.(umem) A.
Proof.
  intros Hn. destruct (Z.eq_dec n c.2) as [->|Hne].
  - destruct take_exact as (s' & F' & H1 & H2). exists c.1, s', F'. by rewrite <- surjective_pairing.
  - destruct (take_cut n) as (s' & F' & H1 & H2); [lia|]. eauto.
Qed.
End Take.

(** *** Growing *)

(** The units that [morecore] asks for. *)
Definition ask (n : Z) : Z := if n <? 4096 then 4096 else n.

(** What the kernel grants. *)
Definition granted (s : ust) (n : Z) : bool :=
  (s.(brk) + 8 * n <? KERNBASE) && pages s.(brk) (s.(brk) + 8 * n).

Lemma sbrk_run s n :
  0 <= s.(brk) < KERNBASE -> 0 < 8 * n < 2 ^ 31 ->
  sbrk pages (s32 (n * 8)) s =
  if granted s n then
    Ok (s.(brk), mk_ust (fun x => if (PGROUNDUP s.(brk) <=? x) && (x <? PGROUNDUP (s.(brk) + 8 * n)) then 0 else s.(umem) x)
                   s.(freep) (s.(brk) + 8 * n))
  else Ok (u32 (-1), s).
Proof.
  unfold KERNBASE. intros Hb Hn. rewrite s32_small by (unfold is_s32; lia). replace (n * 8) with (8 * n) by lia.
  unfold sbrk, granted, KERNBASE. rewrite (u32_small (s.(brk) + 8 * n)) by (unfold is_u32; lia).
  destruct (Z.ltb_spec 0 (8 * n)); [|lia]. destruct (Z.ltb_spec 2147483648 (s.(brk) + 8 * n)).
  { destruct (Z.ltb_spec (s.(brk) + 8 * n) 2147483648); [lia|done]. }
  destruct (Z.leb_spec 2147483648 (s.(brk) + 8 * n)), (Z.ltb_spec (s.(brk) + 8 * n) 2147483648); try lia; [done|].
  destruct (Z.ltb_spec (s.(brk) + 8 * n) s.(brk)); [lia|]. cbn. by destruct (pages _ _).
Qed.

(** The memory that was added, as an allocated block. *)
Lemma heap_grow s F A n m' :
  heap base lo s F A -> s.(freep) <> 0 -> 1 <= n -> s.(brk) + 8 * n < KERNBASE ->
  bytes_ok m' -> (forall x, x < s.(brk) -> m' x = s.(umem) x) -> load32 m' (s.(brk) + 4) = n ->
  heap base lo (mk_ust m' s.(freep) (s.(brk) + 8 * n)) F ((s.(brk), n) :: A).
Proof.
  intros H Hf0 Hn Hk HB Hm Hs. pose proof (he_brk _ _ _ _ _ H) as Hbrk.
  split; cbn [umem freep brk]; try done; try apply H.
  - lia.
  - right. destruct (he_list _ _ _ _ _ H) as [(? & _)|[Hin Hl]]; [done|]. split; [done|].
    eapply hseg_ext; [|exact Hl]. intros c x Hc Hx. apply Hm. pose proof (list_inside _ _ _ H) as HI.
    rewrite Forall_forall in HI. destruct (HI c Hc). lia.
  - eapply tiles_perm; [|apply tiles_grow; [exact Hn| |exact (he_tiles _ _ _ _ _ H)]; lia]. solve_Permutation.
  - constructor; [done|]. eapply whole_sizes; [|eapply sizes_pos; apply H|apply H].
    intros b x Hb Hx. apply Hm. destruct (tiles_at _ _ _ b (he_tiles _ _ _ _ _ H) ltac:(apply elem_of_app; by right)). lia.
Qed.

Lemma morecore_run s F A n fuel :
  heap base lo s F A -> s.(freep) <> 0 -> 1 <= n -> 8 * n < 2 ^ 31 -> (length F + 1 < fuel)%nat ->
  if granted s (ask n) then
    exists s' F', morecore pages fuel n s = Ok (s'.(freep), s') /\ heap base lo s' F' A /\ s'.(freep) <> 0 /\
      s'.(brk) = s.(brk) + 8 * ask n /\ (length F' <= length F + 1)%nat /\ whole s.(umem) s'.(umem) A /\
      exists c, c ∈ F' /\ n <= c.2
  else morecore pages fuel n s = Ok (0, s).
Proof.
  intros H Hf0 Hn Hn2 Hf. pose proof (he_brk _ _ _ _ _ H) as Hb. pose proof (he_base _ _ _ _ _ H) as HB.
  assert (Hask : n <= ask n /\ 1 <= ask n /\ 0 < 8 * ask n < 2 ^ 31) by (unfold ask; destruct (Z.ltb_spec n 4096); lia).
  unfold morecore. fold (ask n). pose proof (sbrk_run s (ask n) ltac:(lia) ltac:(lia)) as R.
  destruct (granted s (ask n)) eqn:Eg; [|by rewrite (kM_bind_run _ _ _ _ _ R)]. rewrite (kM_bind_run _ _ _ _ _ R).
  unfold granted in Eg. apply andb_true_iff in Eg as [Hlt _]. apply Z.ltb_lt in Hlt. unfold KERNBASE in Hb, Hlt.
  destruct (Z.eqb_spec s.(brk) (u32 (-1))) as [Eu|_]; [change (u32 (-1)) with 4294967295 in Eu; lia|].
  set (s1 := mk_ust _ _ _). assert (I1 : inside s1 s.(brk)) by (unfold inside, KERNBASE; cbn; lia).
  rewrite (kM_bind_run _ _ _ _ _ (set_size_run _ _ I1 _)).
  assert (Hm1 : forall x, x < s.(brk) -> s1.(umem) x = s.(umem) x).
  { intros x Hx. cbn [s1 umem]. destruct (Z.leb_spec (PGROUNDUP s.(brk)) x) as [Hp|]; [|done].
    rewrite PGROUNDUP_val in Hp by lia. Z.to_euclidean_division_equations. lia. }
  assert (H2 : heap base lo (mk_ust (store32 s1.(umem) (s.(brk) + 4) (ask n)) s.(freep) (s.(brk) + 8 * ask n)) F ((s.(brk), ask n) :: A)).
  { apply heap_grow; try done; try lia.
    - apply store32_bytes. intros x. cbn [s1 umem]. destruct (_ && _); [done|apply H].
    - intros x Hx. rewrite store32_frame by lia. by apply Hm1.
    - apply load32_store32_eq. unfold is_u32. lia. }
  destruct (free_run _ F A (s.(brk), ask n) fuel H2 Hf0 Hf) as (s' & F' & Rf & H' & Ebrk & Hf' & Hlen & W & c & Hc & Hbig).
  cbn [fst snd umem brk] in *. exists s', F'. split_and!; try done.
  - unfold hadd. rewrite u32_small by (unfold is_u32; lia). change (8 * 1) with 8. by rewrite (kM_bind_run _ _ _ _ _ Rf).
  - intros b x Hb' Hx. rewrite (W b x Hb' Hx).
    destruct (tiles_at _ _ _ b (he_tiles _ _ _ _ _ H) ltac:(apply elem_of_app; by right)).
    rewrite store32_frame by lia. apply Hm1. lia.
  - exists c. split; [done|lia].
Qed.

Lemma whole_trans m m1 m2 A : whole m m1 A -> whole m1 m2 A -> whole m m2 A.
Proof. intros H1 H2 b x Hb Hx. rewrite (H2 b x Hb Hx). by apply (H1 b). Qed.

(** The loop of [malloc] from an initialised heap. *)
Lemma malloc_loop_run s F A n fuel ff :
  heap base lo s F A -> s.(freep) <> 0 -> 1 <= n -> 8 * n < 2 ^ 31 -> (2 * length F + 3 <= fuel)%nat -> (length F + 1 < ff)%nat ->
  exists r s', malloc_loop pages fuel ff n s.(freep) (load32 s.(umem) s.(freep)) s = Ok (r, s') /\
    whole s.(umem) s'.(umem) A /\
    ((r = 0 /\ s' = s /\ Forall (fun c => c.2 < n) F /\ granted s (ask n) = false) \/
     (exists a F', r = a + 8 /\ heap base lo s' F' ((a, n) :: A) /\
        (s'.(brk) = s.(brk) \/ Forall (fun c => c.2 < n) F /\ s'.(brk) = s.(brk) + 8 * ask n))).
Proof.
  intros H Hf0 Hn Hn2 Hfuel Hff.
  destruct (scan_run s F A n ff fuel H Hf0 Hn ltac:(lia)) as [(Hall & fuel' & Hf' & ->)|(X & q & k & c & Y & E & Hc & ->)].
  2: { destruct (cut_run s F A X Y q k c H Hf0 E ltac:(lia) n ltac:(lia)) as (a & s' & F' & R & H' & Eb & _ & W).
       exists (a + 8), s'. split; [done|]. split; [done|]. right. exists a, F'. auto. }
  pose proof (morecore_run s F A n ff H Hf0 Hn Hn2 Hff) as Hm. destruct (granted s (ask n)) eqn:Eg.
  2: { rewrite (kM_bind_run _ _ _ _ _ Hm). exists 0, s. split; [done|]. split; [by intros b x|]. by left. }
  destruct Hm as (s1 & F1 & R1 & H1 & Hf1 & Eb1 & Hlen1 & W1 & d & Hd & Hdn).
  rewrite (kM_bind_run _ _ _ _ _ R1). destruct (Z.eqb_spec s1.(freep) 0); [done|].
  assert (I1 : inside s1 s1.(freep)) by (destruct (loop_order s1 F1 A H1 Hf1) as (_ & _ & _ & _ & _ & _ & ? & _); done).
  rewrite (kM_bind_run _ _ _ _ _ (get_ptr_run _ _ I1)).
  destruct (scan_run s1 F1 A n ff fuel' H1 Hf1 Hn ltac:(lia)) as [(Hall1 & _)|(X & q & k & c & Y & E & Hc & ->)].
  { rewrite Forall_forall in Hall1. specialize (Hall1 d Hd). lia. }
  destruct (cut_run s1 F1 A X Y q k c H1 Hf1 E ltac:(lia) n ltac:(lia)) as (a & s' & F' & R & H' & Eb & _ & W).
  exists (a + 8), s'. split; [done|]. split; [by eapply whole_trans|]. right. exists a, F'. split_and!; try done.
  right. split; [done|]. lia.
Qed.

(** The first call makes a list of [base] alone. *)
Lemma heap_init s F A :
  heap base lo s F A -> s.(freep) = 0 ->
  F = [] /\ A = [] /\
  exists m, (_ ← set_ptr base base; _ ← set_freep base; set_size base 0) s = Ok (tt, mk_ust m base s.(brk)) /\
    heap base lo (mk_ust m base s.(brk)) [] [].
Proof.
  intros H Hf. pose proof (base_inside _ _ _ H) as Ib. pose proof (he_base _ _ _ _ _ H) as HB.
  destruct (he_list _ _ _ _ _ H) as [(_ & -> & ->)|[Hin _]].
  2: { exfalso. change (base :: F.*1) with (((base, 0) :: F).*1) in Hin. rewrite Hf in Hin.
       apply list_elem_of_fmap in Hin as (c & Ec & Hc). pose proof (list_least _ _ _ _ H Hc). lia. }
  split; [done|]. split; [done|]. eexists. split.
  - rewrite (kM_bind_run _ _ _ _ _ (set_ptr_run _ _ Ib _)). erewrite kM_bind_run by reflexivity.
    cbn [umem freep brk]. exact (set_size_run (mk_ust _ _ s.(brk)) base Ib 0).
  - cbn [umem freep brk]. split; cbn [umem freep brk]; try done; try apply H.
    + apply store32_bytes, store32_bytes, H.
    + right. split; [by left|]. cbn. split; [done|]. rewrite load32_store32_eq by done. split; [done|].
      rewrite load32_store32_ne by lia. apply load32_store32_eq. by eapply inside_u32.
Qed.

Lemma malloc_start s F A nbytes fuel :
  heap base lo s F A ->
  exists s1, heap base lo s1 F A /\ s1.(freep) <> 0 /\ s1.(brk) = s.(brk) /\ whole s.(umem) s1.(umem) A /\
    malloc base pages fuel nbytes s =
    malloc_loop pages fuel fuel (units nbytes) s1.(freep) (load32 s1.(umem) s1.(freep)) s1.
Proof.
  intros H. unfold malloc. erewrite kM_bind_run by reflexivity. pose proof (he_base _ _ _ _ _ H) as HB.
  assert (Hgo : forall s1, heap base lo s1 F A -> s1.(freep) <> 0 ->
    (s2 ← kget; p ← get_ptr s2.(freep); malloc_loop pages fuel fuel (units nbytes) s2.(freep) p) s1 =
    malloc_loop pages fuel fuel (units nbytes) s1.(freep) (load32 s1.(umem) s1.(freep)) s1).
  { intros s1 H1 Hf1. erewrite kM_bind_run by reflexivity.
    destruct (loop_order s1 F A H1 Hf1) as (_ & _ & _ & _ & _ & _ & I1 & _).
    by rewrite (kM_bind_run _ _ _ _ _ (get_ptr_run _ _ I1)). }
  destruct (Z.eqb_spec s.(freep) 0) as [E|E].
  - destruct (heap_init s F A H E) as (-> & -> & m & R & H1). exists (mk_ust m base s.(brk)).
    split_and!; try done; [cbn; lia|by intros b x ?%elem_of_nil|]. rewrite (kM_bind_run _ _ _ _ _ R). apply Hgo; [done|cbn; lia].
  - exists s. split_and!; try done. rewrite (kM_bind_run _ _ _ _ _ (kM_ret_run tt s)). by apply Hgo.
Qed.

Lemma malloc_run s F A nbytes fuel :
  heap base lo s F A -> 0 <= nbytes <= 2 ^ 31 - 16 -> (2 * length F + 3 <= fuel)%nat ->
  exists r s', malloc base pages fuel nbytes s = Ok (r, s') /\ kept s.(umem) s'.(umem) A /\
    ((r = 0 /\ heap base lo s' F A /\ Forall (fun c => c.2 < units nbytes) F /\ granted s (ask (units nbytes)) = false) \/
     (exists a F', r = a + 8 /\ nbytes <= 8 * (units nbytes - 1) /\ heap base lo s' F' ((a, units nbytes) :: A) /\
        (s'.(brk) = s.(brk) \/ Forall (fun c => c.2 < units nbytes) F /\ s'.(brk) = s.(brk) + 8 * ask (units nbytes)))).
Proof.
  intros H Hn Hf. pose proof (units_val nbytes ltac:(lia)) as Eu.
  assert (Hu : 1 <= units nbytes /\ 8 * units nbytes < 2 ^ 31 /\ nbytes <= 8 * (units nbytes - 1)).
  { rewrite Eu. Z.to_euclidean_division_equations. lia. }
  destruct Hu as (Hu1 & Hu2 & Hu3).
  destruct (malloc_start s F A nbytes fuel H) as (s1 & H1 & Hf1 & Eb & W1 & ->).
  destruct (malloc_loop_run s1 F A (units nbytes) fuel fuel H1 Hf1 Hu1 Hu2 Hf ltac:(lia)) as (r & s' & R & W & Hcase).
  exists r, s'. split; [done|]. split; [by eapply whole_kept, whole_trans|].
  unfold granted in *. rewrite Eb in Hcase.
  destruct Hcase as [(-> & -> & Hall & Hg)|(a & F' & -> & H' & Hb)]; [left|right; eauto 10]. by split_and!.
Qed.

End Heap.

Lemma heap_perm base lo s F A A' : A ≡ₚ A' -> heap base lo s F A -> heap base lo s F A'.
Proof.
  intros E [H1 H2 H3 H4 H5 H6 H7]. split; try done.
  - destruct H4 as [(? & ? & ->)|?]; [|by right]. left. split_and!; try done. by apply Permutation_nil.
  - by rewrite <- E.
  - by rewrite <- E.
Qed.

Lemma heap_freep base lo s F b A : heap base lo s F (b :: A) -> s.(freep) <> 0.
Proof.
  intros H. destruct (he_list _ _ _ _ _ H) as [(_ & _ & ?)|[Hin _]]; [done|].
  change (base :: F.*1) with (((base, 0) :: F).*1) in Hin. apply list_elem_of_fmap in Hin as (c & -> & Hc).
  pose proof (list_least _ _ _ _ _ _ H Hc). pose proof (he_base _ _ _ _ _ H). lia.
Qed.

(** [free] of an allocated block returns, whatever else is allocated: the
    block is free again, merged with the free blocks on both sides of it, and
    the contents of the other allocated blocks are unchanged. *)
Theorem free_spec base lo s F A b fuel :
  heap base lo s F A -> b ∈ A -> (length F + 1 < fuel)%nat ->
  exists s' F' A', free fuel (b.1 + 8) s = Ok (tt, s') /\ A ≡ₚ b :: A' /\ heap base lo s' F' A' /\
    s'.(brk) = s.(brk) /\ kept s.(umem) s'.(umem) A'.
Proof.
  intros H Hb Hf. apply elem_of_Permutation in Hb as [A' E]. apply (heap_perm _ _ _ _ _ _ E) in H.
  destruct (free_run base lo s F A' b fuel H (heap_freep _ _ _ _ _ _ H) Hf) as (s' & F' & R & H' & Eb & _ & _ & W & _).
  exists s', F', A'. split_and!; try done. by apply whole_kept.
Qed.

(** ** A client

    A client holds pointers that [malloc] returned, each with the bytes it
    last saw or wrote there. *)

Definition bytes_at (m : mem) (r : Z) (n : nat) : list Z := (fun i => m (r + Z.of_nat i)) <$> seq 0 n.

(** Enough fuel gives this result. *)
Definition returns {S A} (m : nat -> kM S A) (s : S) (r : A * S) : Prop :=
  exists n, forall fuel, (n <= fuel)%nat -> m fuel s = Ok r.

Inductive ustep (base : Z) : ust * list (Z * list Z) -> ust * list (Z * list Z) -> Prop :=
| us_malloc pages n r s s' C :
    0 <= n <= 2 ^ 31 - 16 -> returns (fun fuel => malloc base pages fuel n) s (r, s') -> r <> 0 ->
    ustep base (s, C) (s', (r, bytes_at s'.(umem) r (Z.to_nat n)) :: C)
| us_fail pages n s s' C :
    0 <= n <= 2 ^ 31 - 16 -> returns (fun fuel => malloc base pages fuel n) s (0, s') -> ustep base (s, C) (s', C)
| us_free r d s s' C1 C2 :
    returns (fun fuel => free fuel r) s (tt, s') -> ustep base (s, C1 ++ (r, d) :: C2) (s', C1 ++ C2)
| us_write r d i v s C1 C2 :
    (i < length d)%nat -> is_u8 v ->
    ustep base (s, C1 ++ (r, d) :: C2)
      (mk_ust (upd s.(umem) (r + Z.of_nat i) v) s.(freep) s.(brk), C1 ++ (r, <[i := v]> d) :: C2).

(** The client's view of an allocated block. *)
Definition holds (m : mem) (c : Z * list Z) (b : block) : Prop :=
  c.1 = b.1 + 8 /\ Z.of_nat (length c.2) <= 8 * (b.2 - 1) /\ c.2 = bytes_at m c.1 (length c.2).

Definition uinv (base lo : Z) (st : ust * list (Z * list Z)) : Prop :=
  exists F A, heap base lo st.1 F A /\ Forall2 (holds st.1.(umem)) st.2 A.

Lemma heap_bytes_length m r n : length (bytes_at m r n) = n.
Proof. unfold bytes_at. by rewrite length_fmap, length_seq. Qed.

Lemma bytes_at_ext m m' r n :
  (forall i, (i < n)%nat -> m' (r + Z.of_nat i) = m (r + Z.of_nat i)) -> bytes_at m' r n = bytes_at m r n.
Proof. intros H. apply list_fmap_ext. intros i x [-> Hx]%lookup_seq. apply H. lia. Qed.

Lemma bytes_at_upd m r n i v :
  (i < n)%nat -> bytes_at (upd m (r + Z.of_nat i) v) r n = <[i := v]> (bytes_at m r n).
Proof.
  intros Hi. apply list_eq. intros j. unfold bytes_at. destruct (decide (j < n)%nat) as [Hj|Hj].
  - rewrite list_lookup_fmap, lookup_seq_lt by done. cbn. unfold upd. destruct (Z.eqb_spec (r + Z.of_nat j) (r + Z.of_nat i)).
    + assert (j = i) as -> by lia. rewrite list_lookup_insert_eq; [done|]. by rewrite length_fmap, length_seq.
    + rewrite list_lookup_insert_ne by lia. by rewrite list_lookup_fmap, lookup_seq_lt by done.
  - rewrite !lookup_ge_None_2; [done|..]; rewrite ?length_insert, length_fmap, length_seq; lia.
Qed.

Lemma holds_kept m m' A C : kept m m' A -> Forall2 (holds m) C A -> Forall2 (holds m') C A.
Proof.
  intros K H. induction H as [|c b C A (H1 & H2 & H3) H IH]; [done|]. constructor.
  - split; [done|]. split; [done|]. rewrite H3 at 1. symmetry. apply bytes_at_ext. intros i Hi.
    apply (K b); [by left|]. unfold bend. lia.
  - apply IH. intros d x Hd. apply K. by right.
Qed.

(** Two allocated blocks do not overlap. *)
Lemma alloc_off lo hi (F A1 A2 : list block) b c : tiles lo hi (F ++ A1 ++ b :: A2) -> c ∈ A1 ++ A2 -> off b c.
Proof.
  intros T Hc. apply (tiles_off lo hi [b] (F ++ A1 ++ A2)).
  - eapply tiles_perm; [|exact T]. solve_Permutation.
  - by left.
  - apply elem_of_app. by right.
Qed.

(** A write to a block of the client's. *)
Lemma heap_write base lo s F A1 b A2 x v :
  heap base lo s F (A1 ++ b :: A2) -> b.1 + 8 <= x < bend b -> is_u8 v ->
  heap base lo (mk_ust (upd s.(umem) x v) s.(freep) s.(brk)) F (A1 ++ b :: A2) /\
  kept s.(umem) (upd s.(umem) x v) (A1 ++ A2).
Proof.
  intros H Hx Hv. pose proof (he_tiles _ _ _ _ _ H) as T. assert (Hb : b ∈ A1 ++ b :: A2) by (apply elem_of_app; right; by left).
  assert (Hout : forall c z, c ∈ A1 ++ A2 -> c.1 <= z < bend c -> upd s.(umem) x v z = s.(umem) z).
  { intros c z Hc Hz. unfold upd. destruct (Z.eqb_spec z x) as [->|]; [|done].
    pose proof (alloc_off _ _ _ _ _ _ _ T Hc). unfold off, bend in *. lia. }
  split; [|intros c z Hc Hz; apply (Hout c); [done|lia]].
  split; cbn [umem freep brk]; try done; try apply H.
  - intros z. unfold upd. destruct (_ =? _); [done|apply H].
  - destruct (he_list _ _ _ _ _ H) as [?|[Hin Hl]]; [by left|right]. split; [done|].
    eapply hseg_ext; [|exact Hl]. intros c z Hc Hz. unfold upd. destruct (Z.eqb_spec z x) as [->|]; [|done].
    destruct (list_off _ _ _ _ _ _ _ H Hc Hb) as [_ Ho]. unfold bend in *. lia.
  - apply Forall_forall. intros c Hc. pose proof (he_sizes _ _ _ _ _ H) as Hs. rewrite Forall_forall in Hs.
    rewrite <- (Hs c Hc). apply load32_ext. intros z Hz. unfold upd. destruct (Z.eqb_spec z x) as [->|]; [|done].
    destruct (tiles_at _ _ _ c T ltac:(apply elem_of_app; by right)) as (Hc1 & _).
    assert (Hcase : c = b \/ c ∈ A1 ++ A2) by (rewrite elem_of_app in *; rewrite elem_of_cons in Hc; tauto).
    destruct Hcase as [->|Hc']; [lia|]. pose proof (alloc_off _ _ _ _ _ _ _ T Hc'). unfold off, bend in *. lia.
Qed.

Lemma ustep_inv base lo st st' : uinv base lo st -> ustep base st st' -> uinv base lo st'.
Proof.
  intros (F & A & H & HC) Hst.
  destruct Hst as [pages n r s s' C Hn [k R] Hr|pages n s s' C Hn [k R]|r d s s' C1 C2 [k R]|r d i v s C1 C2 Hi Hv];
    cbn [fst snd] in *.
  - destruct (malloc_run base lo pages s F A n (k + (2 * length F + 3))%nat H Hn ltac:(lia)) as (r' & s1 & R1 & K & Hcase).
    rewrite R in R1 by lia. injection R1 as <- <-. destruct Hcase as [(-> & _)|(a & F' & -> & Hu & H' & _)]; [done|].
    exists F', ((a, units n) :: A). split; [done|]. cbn [snd]. constructor; [|by eapply holds_kept].
    split; [done|]. cbn [fst snd]. rewrite heap_bytes_length. split; [lia|done].
  - destruct (malloc_run base lo pages s F A n (k + (2 * length F + 3))%nat H Hn ltac:(lia)) as (r' & s1 & R1 & K & Hcase).
    rewrite R in R1 by lia. injection R1 as <- <-. destruct Hcase as [(_ & H' & _)|(a & F' & E & _ & H' & _)].
    + exists F, A. split; [done|]. by eapply holds_kept.
    + exfalso. pose proof (heap_inside _ _ _ _ _ (a, units n) H' ltac:(apply elem_of_app; right; by left)) as (? & _). cbn in *. lia.
  - apply Forall2_app_inv_l in HC as (A1 & A2 & HC1 & HC2 & ->). apply Forall2_cons_inv_l in HC2 as (b & A2' & Hb & HC2 & ->).
    destruct Hb as (E & _). cbn in E. subst r. apply (heap_perm _ _ _ _ _ (b :: A1 ++ A2')) in H; [|solve_Permutation].
    destruct (free_run base lo s F (A1 ++ A2') b (k + (length F + 2))%nat H (heap_freep _ _ _ _ _ _ H) ltac:(lia))
      as (s1 & F' & R1 & H' & _ & _ & _ & W & _).
    rewrite R in R1 by lia. injection R1 as <-. exists F', (A1 ++ A2'). split; [done|].
    eapply holds_kept; [by apply whole_kept|]. by apply Forall2_app.
  - apply Forall2_app_inv_l in HC as (A1 & A2 & HC1 & HC2 & ->). apply Forall2_cons_inv_l in HC2 as (b & A2' & Hb & HC2 & ->).
    destruct Hb as (E & Hlen & Hd). cbn [fst snd] in *. subst r.
    destruct (heap_write base lo s F A1 b A2' (b.1 + 8 + Z.of_nat i) v H) as [H' K]; [unfold bend; lia|done|].
    exists F, (A1 ++ b :: A2'). split; [done|]. cbn [fst snd umem].
    apply Forall2_app; [eapply holds_kept; [|exact HC1]|constructor; [|eapply holds_kept; [|exact HC2]]].
    + intros c x Hc. apply K, elem_of_app. by left.
    + split; [done|]. cbn [fst snd]. rewrite length_insert, bytes_at_upd by done. split; [done|]. by rewrite <- Hd.
    + intros c x Hc. apply K, elem_of_app. by right.
Qed.

(** C18. Whatever a client does with [malloc], [free] and writes to the memory
    it was given, as long as it asks for at most 2^31 - 16 bytes at a time,
    frees only what it was given and uses nothing after it has freed it, and
    the program's break stays in the hands of [malloc], the memory behind each of its pointers holds what it wrote
    there, lies in the process's memory above [lo], and overlaps neither the
    memory behind another pointer nor the static header. *)
Theorem umalloc_client_safe base lo s0 s C :
  heap base lo s0 [] [] -> rtc (ustep base) (s0, []) (s, C) ->
  (forall r d, (r, d) ∈ C -> d = bytes_at s.(umem) r (length d) /\ lo <= r /\ r + Z.of_nat (length d) <= s.(brk)) /\
  (forall i j r d r' d', C !! i = Some (r, d) -> C !! j = Some (r', d') -> i <> j ->
     r + Z.of_nat (length d) <= r' \/ r' + Z.of_nat (length d') <= r).
Proof.
  intros H0 Hst. assert (Hinv : uinv base lo (s, C)).
  { assert (H0' : uinv base lo (s0, [])) by (exists [], []; split; [done|constructor]).
    clear H0. induction Hst as [|x y z Hxy _ IH]; [done|]. by apply IH, (ustep_inv _ _ x). }
  destruct Hinv as (F & A & H & HC). cbn [fst snd] in *. pose proof (he_tiles _ _ _ _ _ H) as T. split.
  - intros r d [i Hi]%list_elem_of_lookup. destruct (Forall2_lookup_l _ _ _ _ _ HC Hi) as (b & Hb & E & Hlen & Hd).
    cbn [fst snd] in *. split; [done|].
    destruct (tiles_at _ _ _ b T ltac:(apply elem_of_app; right; by eapply list_elem_of_lookup_2)) as (? & ? & ?).
    unfold bend in *. lia.
  - intros i j r d r' d' Hi Hj Hij. destruct (Forall2_lookup_l _ _ _ _ _ HC Hi) as (b & Hb & E & Hlen & _).
    destruct (Forall2_lookup_l _ _ _ _ _ HC Hj) as (c & Hc & E' & Hlen' & _). cbn [fst snd] in *.
    assert (Hoff : off b c); [|unfold off, bend in *; lia].
    apply list_elem_of_split_length in Hb as (A1 & A2 & -> & Hl). eapply alloc_off; [exact T|].
    apply elem_of_app. destruct (decide (j < i)%nat) as [Hji|Hji].
    + left. rewrite lookup_app_l in Hc by lia. by eapply list_elem_of_lookup_2.
    + right. rewrite lookup_app_r in Hc by lia. rewrite lookup_cons_ne_0 in Hc by lia. by eapply list_elem_of_lookup_2.
Qed.

(** ** Requests that are too large *)

(** The size in headers is computed in 32 bits, so that the largest requests
    are served as a request for nothing. *)
Theorem malloc_wraps base pages fuel k :
  1 <= k <= 7 -> malloc base pages fuel (2 ^ 32 - k) = malloc base pages fuel 0.
Proof.
  intros Hk. unfold malloc. assert (E : units (2 ^ 32 - k) = units 0); [|by rewrite E].
  unfold units. assert (E : u32 (2 ^ 32 - k + 8 - 1) = 7 - k); [|rewrite E, Z.div_small by lia; done].
  unfold u32. replace (2 ^ 32 - k + 8 - 1) with (7 - k + 1 * 2 ^ 32) by lia. rewrite Z_mod_plus_full. apply Z.mod_small. lia.
Qed.

(** From 2 GiB on the argument of [sbrk] is negative: the kernel does not
    refuse, nothing is added, and the header of the new block is written past
    the end of memory. *)
Theorem malloc_huge_faults base lo pages s F A nbytes fuel :
  heap base lo s F A -> s.(brk) mod 4096 = 0 -> 2 ^ 31 - 15 <= nbytes -> nbytes + s.(brk) + 16 <= 2 ^ 32 ->
  (length F + 1 <= fuel)%nat -> malloc base pages fuel nbytes s = Panic "page fault".
Proof.
  intros H Hal Hlo Hhi Hf. pose proof (he_brk _ _ _ _ _ H) as Hb. pose proof (he_base _ _ _ _ _ H) as HB. unfold KERNBASE in Hb.
  pose proof (units_val nbytes ltac:(lia)) as Eu.
  destruct (malloc_start base lo pages s F A nbytes fuel H) as (s1 & H1 & Hf1 & Eb & _ & ->).
  assert (Hu : 2 ^ 28 <= units nbytes /\ s.(brk) + 8 * units nbytes < 2 ^ 32).
  { rewrite Eu. Z.to_euclidean_division_equations. lia. }
  set (n := units nbytes) in *.
  destruct (scan_run base lo pages s1 F A n fuel fuel H1 Hf1 ltac:(lia) Hf) as [(_ & fuel' & _ & ->)|(X & q & k & c & Y & E & Hc & _)].
  - assert (R : morecore pages fuel n s1 = Panic "page fault"); [|unfold mbind, kM_bind at 1; by rewrite R].
    unfold morecore. destruct (Z.ltb_spec n 4096); [lia|].
    assert (En : s32 (n * 8) = 8 * n - 2 ^ 32).
    { unfold s32. rewrite u32_small by (unfold is_u32; lia). destruct (Z.ltb_spec (n * 8) (2 ^ 31)); lia. }
    assert (Rs : sbrk pages (s32 (n * 8)) s1 = Ok (s1.(brk), s1)).
    { rewrite En. unfold sbrk. destruct (Z.ltb_spec 0 (8 * n - 2 ^ 32)); [lia|]. destruct (Z.ltb_spec (8 * n - 2 ^ 32) 0); [|lia].
      assert (Eq : u32 (s1.(brk) + (8 * n - 2 ^ 32)) = s1.(brk) + 8 * n).
      { unfold u32. replace (s1.(brk) + (8 * n - 2 ^ 32)) with (s1.(brk) + 8 * n + (-1) * 2 ^ 32) by lia.
        rewrite Z_mod_plus_full. apply Z.mod_small. lia. }
      rewrite Eq. destruct (Z.leb_spec s1.(brk) (s1.(brk) + 8 * n)); [|lia]. destruct (Z.eqb_spec s1.(brk) 0); [lia|]. by destruct s1. }
    rewrite (kM_bind_run _ _ _ _ _ Rs). destruct (Z.eqb_spec s1.(brk) (u32 (-1))) as [E|_].
    { change (u32 (-1)) with 4294967295 in E. lia. }
    unfold mbind, kM_bind, set_size, mapped. rewrite PGROUNDUP_val by lia.
    destruct (Z.leb_spec (s1.(brk) + 8) ((s1.(brk) + 4095) / 4096 * 4096)); [|by rewrite andb_false_r].
    exfalso. rewrite Eb in *. Z.to_euclidean_division_equations. lia.
  - exfalso. assert (Hin : c ∈ (base, 0) :: F) by (rewrite E; apply elem_of_app; right; right; by left).
    destruct (list_bounds _ _ _ _ _ _ H Hin) as [_ Hcb]. pose proof (list_least _ _ _ _ _ _ H Hin). unfold bend in Hcb. lia.
Qed.

(** C17. [malloc] of at most 2^31 - 16 bytes returns.  It takes a free block
    that is large enough and asks the kernel for memory only if there is none;
    it returns 0 only if the kernel refuses as well.  A block it returns holds
    the bytes asked for, the free and allocated blocks tile the heap again, the
    free list is again circular, ascending and coalesced, and the contents of
    the blocks allocated before are unchanged.  Larger requests are not refused
    as they should be: while the sum of the request and the size of a process
    that ends at a page boundary is below 2^32 - 16 the process is killed, and
    the last seven are served as a request for no bytes. *)
Theorem malloc_spec base lo pages s F A nbytes fuel :
  heap base lo s F A -> 0 <= nbytes < 2 ^ 32 -> (2 * length F + 3 <= fuel)%nat ->
  (nbytes <= 2 ^ 31 - 16 ->
   exists r s', malloc base pages fuel nbytes s = Ok (r, s') /\ kept s.(umem) s'.(umem) A /\
     ((r = 0 /\ heap base lo s' F A /\ Forall (fun c => c.2 < units nbytes) F /\ granted pages s (ask (units nbytes)) = false) \/
      (exists a F', r = a + 8 /\ nbytes <= 8 * (units nbytes - 1) /\ heap base lo s' F' ((a, units nbytes) :: A) /\
         (s'.(brk) = s.(brk) \/ Forall (fun c => c.2 < units nbytes) F /\ s'.(brk) = s.(brk) + 8 * ask (units nbytes))))) /\
  (2 ^ 31 - 16 < nbytes -> s.(brk) mod 4096 = 0 -> nbytes + s.(brk) + 16 <= 2 ^ 32 ->
   malloc base pages fuel nbytes s = Panic "page fault") /\
  (2 ^ 32 - 7 <= nbytes -> malloc base pages fuel nbytes s = malloc base pages fuel 0 s).
Proof.
  intros H Hn Hf. split_and!.
  - intros Hs. apply malloc_run; [done|lia|done].
  - intros Hs Hal Hb. apply (malloc_huge_faults base lo pages s F A); [done|done|lia|done|lia].
  - intros Hs. replace nbytes with (2 ^ 32 - (2 ^ 32 - nbytes)) by lia. rewrite malloc_wraps; [done|lia].
Qed.

(** ** A run *)

Module UmallocDemo.

(** [base] at 1024 and the heap from 8192 on. *)
Definition start : ust := mk_ust (fun _ => 0) 0 8192.

Lemma start_heap : heap 1024 8192 start [] [].
Proof. split; cbn; try done; try lia; [by left|]. split; [constructor|constructor|done]. Qed.

Lemma malloc_spec_witness :
  (exists r s', malloc 1024 (fun _ _ => true) 3 100 start = Ok (r, s') /\ kept start.(umem) s'.(umem) [] /\
    ((r = 0 /\ heap 1024 8192 s' [] [] /\ Forall (fun c : block => c.2 < units 100) [] /\
      granted (fun _ _ => true) start (ask (units 100)) = false) \/
     (exists a F', r = a + 8 /\ 100 <= 8 * (units 100 - 1) /\ heap 1024 8192 s' F' [(a, units 100)] /\
        (s'.(brk) = start.(brk) \/ Forall (fun c : block => c.2 < units 100) [] /\ s'.(brk) = start.(brk) + 8 * ask (units 100))))) /\
  malloc 1024 (fun _ _ => true) 3 (2 ^ 31) start = Panic "page fault".
Proof.
  split.
  - apply (malloc_spec 1024 8192 (fun _ _ => true) start [] [] 100 3); [exact start_heap|lia|cbn; lia|lia].
  - apply (malloc_spec 1024 8192 (fun _ _ => true) start [] [] (2 ^ 31) 3); [exact start_heap|lia|cbn; lia|lia|reflexivity|cbn; lia].
Defined.

(** After a request for 100 bytes: 14 units at the end of 4096 new ones. *)
Definition one : ust :=
  match malloc 1024 (fun _ _ => true) 3 100 start with Ok (_, s) => s | Panic _ => start end.

Lemma one_returns : returns (fun fuel => malloc 1024 (fun _ _ => true) fuel 100) start (40856, one).
Proof. exists 3%nat. intros fuel Hf. do 3 (destruct fuel as [|fuel]; [lia|]). reflexivity. Qed.

Lemma one_heap : heap 1024 8192 one [(8192, 4082)] [(40848, 14)].
Proof.
  split.
  - lia.
  - vm_compute. split; congruence.
  - destruct (malloc_run 1024 8192 (fun _ _ => true) start [] [] 100 3 start_heap) as (r & s' & R & _ & Hc); [lia|cbn; lia|].
    assert (E : one = s') by (unfold one; by rewrite R). rewrite E.
    destruct Hc as [(_ & H & _)|(a & F' & _ & _ & H & _)]; apply H.
  - right. split; [vm_compute; by left|]. vm_compute. by repeat split.
  - cbn [asc]. split; [|split; [constructor|done]]. constructor; [|constructor]. by split.
  - replace one.(brk) with 40960 by (vm_compute; reflexivity). split; [| |done].
    + constructor; [|constructor; [|constructor]]; by split_and!.
    + constructor; [|constructor; constructor]. constructor; [by left|constructor].
  - constructor; [vm_compute; reflexivity|constructor].
Qed.

Lemma free_spec_witness :
  exists s' F' A', free 3 40856 one = Ok (tt, s') /\ [(40848, 14)] ≡ₚ (40848, 14) :: A' /\ heap 1024 8192 s' F' A' /\
    s'.(brk) = one.(brk) /\ kept one.(umem) s'.(umem) A'.
Proof. apply (free_spec 1024 8192 one [(8192, 4082)] [(40848, 14)] (40848, 14) 3); [exact one_heap|by left|cbn; lia]. Defined.

Definition two : ust := mk_ust (upd one.(umem) (40856 + Z.of_nat 5) 7) one.(freep) one.(brk).

Lemma two_reachable : rtc (ustep 1024) (start, []) (two, [(40856, <[5%nat := 7]> (bytes_at one.(umem) 40856 100))]).
Proof.
  eapply rtc_l; [apply (us_malloc 1024 (fun _ _ => true) 100 40856 start one []); [lia|exact one_returns|done]|].
  eapply rtc_l; [|apply rtc_refl]. apply (us_write 1024 40856 (bytes_at one.(umem) 40856 100) 5 7 one [] []); [|done].
  rewrite heap_bytes_length. lia.
Qed.

Lemma umalloc_client_safe_witness :
  (forall r d, (r, d) ∈ [(40856, <[5%nat := 7]> (bytes_at one.(umem) 40856 100))] ->
     d = bytes_at two.(umem) r (length d) /\ 8192 <= r /\ r + Z.of_nat (length d) <= two.(brk)) /\
  (forall i j r d r' d', [(40856, <[5%nat := 7]> (bytes_at one.(umem) 40856 100))] !! i = Some (r, d) ->
     [(40856, <[5%nat := 7]> (bytes_at one.(umem) 40856 100))] !! j = Some (r', d') -> i <> j ->
     r + Z.of_nat (length d) <= r' \/ r' + Z.of_nat (length d') <= r).
Proof. apply (umalloc_client_safe 1024 8192 start two); [exact start_heap|exact two_reachable]. Defined.

End UmallocDemo.
