(* ===== verification/Mkfs.v ===== *)
(** * Building a file system image (mkfs.c)

    The image is a map from block numbers to blocks; the inode structures and
    the macros of fs.h are those of [Layout] and [Fs], which the kernel uses.
    A failed [assert] is a panic.  The host is little endian, like the disk. *)

From S2P Require Import Prelude CString Locks Bio Layout Log Fs.

Definition FSMAGIC : Z := 270544960.     (* 0x10203040 *)
Definition BPG : Z := 200.
Definition IPG : Z := 32.

(** The value of the four bytes that [xint] stores, and of the two of
    [xshort], on the host. *)
Definition xint (x : Z) : Z :=
  u8 x + 2 ^ 8 * u8 (Z.shiftr x 8) + 2 ^ 16 * u8 (Z.shiftr x 16) + 2 ^ 24 * u8 (Z.shiftr x 24).
Definition xshort (x : Z) : Z := u8 x + 2 ^ 8 * u8 (Z.shiftr x 8).

(** Geometry, from the start of [main]. *)
Definition nlog : Z := LOGSIZE.
Definition mk_global_start : Z := 2 + nlog.
Definition inode_blocks_per_group : Z := IPG / IPB.
Definition meta_per_group : Z := inode_blocks_per_group + 1.
Definition mk_ngroups : Z := (FSSIZE - mk_global_start) / BPG.

Definition mkfs_sb : superblock :=
  mk_superblock FSMAGIC (xint FSSIZE) (xint (mk_ngroups * BPG)) (xint (mk_ngroups * IPG)) (xint nlog) (xint 2)
    (xint mk_global_start) (xint (mk_global_start + inode_blocks_per_group))
    (xint BPG) (xint IPG) (xint mk_ngroups).

(** The image file and the two allocation counters. *)
Record mkst := mk_mkst { img : Z -> block; freeinode : Z; freeblock : Z }.

Definition wsect (sec : Z) (b : block) : kM mkst unit :=
  kmodify (fun s => mk_mkst (dupd s.(img) sec b) s.(freeinode) s.(freeblock)).

(** The read fails past the end of the image, which the program never moves:
    it writes a block only after it read it, or where it put zeroes first. *)
Definition rsect (sec : Z) : kM mkst block := fun s =>
  if sec <? FSSIZE then Ok (s.(img) sec, s) else Panic "read".

Definition alloc_block : kM mkst Z :=
  s ← kget;
  let b := s.(freeblock) in
  let freeblock := u32 (b + 1) in
  let relative := u32 (freeblock - mk_global_start) in
  let freeblock := if relative mod BPG =? 0 then u32 (freeblock + meta_per_group) else freeblock in
  _ ← kput (mk_mkst s.(img) s.(freeinode) freeblock);
  mret b.

Definition winode (inum : Z) (d : dinode) : kM mkst unit :=
  let bn := IBLOCK inum mkfs_sb in
  b ← rsect bn;
  wsect bn (encode_dinode b (ioff inum) d).

Definition rinode (inum : Z) : kM mkst dinode :=
  b ← rsect (IBLOCK inum mkfs_sb);
  mret (decode_dinode b (ioff inum)).

Definition mk_ialloc (ty : Z) : kM mkst Z :=
  s ← kget;
  let inum := s.(freeinode) in
  _ ← kput (mk_mkst s.(img) (u32 (inum + 1)) s.(freeblock));
  _ ← winode inum (set_size (set_nlink (set_type dinode0 (xshort ty)) (xshort 1)) (xint 0));
  mret inum.

(** The block that holds block [fbn] of the file whose inode is [d]; the inode
    may get a new address. *)
Definition iappend_block (d : dinode) (fbn : Z) : kM mkst (dinode * Z) :=
  if fbn <? NDIRECT then
    d ← (if xint (nth (Z.to_nat fbn) d.(d_addrs) 0) =? 0 then
           b ← alloc_block; mret (set_addr d (Z.to_nat fbn) (xint b))
         else mret d);
    mret (d, xint (nth (Z.to_nat fbn) d.(d_addrs) 0))
  else
    d ← (if xint (nth 12 d.(d_addrs) 0) =? 0 then
           b ← alloc_block; mret (set_addr d 12 (xint b))
         else mret d);
    let ia := xint (nth 12 d.(d_addrs) 0) in
    indirect ← rsect ia;
    let k := (4 * Z.to_nat (fbn - NDIRECT))%nat in
    indirect ← (if get32 indirect k =? 0 then
                  b ← alloc_block;
                  let indirect := put32 indirect k (xint b) in
                  _ ← wsect ia indirect;
                  mret indirect
                else mret indirect);
    mret (d, xint (get32 indirect k)).

(** The loop of [iappend]: the bytes [p] go in from [off] on. *)
Fixpoint iappend_loop (fuel : nat) (d : dinode) (p : list Z) (off : Z) : kM mkst (dinode * Z) :=
  match fuel with
  | O => kpanic "out of fuel"
  | S fuel =>
      if 0 <? Z.of_nat (length p) then
        let fbn := off / 512 in
        if negb (fbn <? MAXFILE) then kpanic "assert"
        else
          r ← iappend_block d fbn;
          let (d, x) := r : dinode * Z in
          let n1 := Z.min (Z.of_nat (length p)) ((fbn + 1) * 512 - off) in
          buf ← rsect x;
          _ ← wsect x (put_bytes buf (off - fbn * 512) (take (Z.to_nat n1) p));
          iappend_loop fuel d (drop (Z.to_nat n1) p) (u32 (off + n1))
      else mret (d, off)
  end.

(** Each turn but the first and the last fills a block. *)
Definition iappend (inum : Z) (p : list Z) : kM mkst unit :=
  d ← rinode inum;
  r ← iappend_loop (length p / 512 + 3) d p (xint d.(d_size));
  let (d, off) := r : dinode * Z in
  winode inum (set_size d (xint off)).

(** The bitmap of one group: its metadata, and its data blocks below [used]. *)
Fixpoint mark_meta (i : Z) (k : nat) (buf : block) : block :=
  match k with
  | O => buf
  | S k => mark_meta (i + 1) k (mark buf i)
  end.

Fixpoint mark_data (grp_start used i : Z) (k : nat) (buf : block) : block :=
  match k with
  | O => buf
  | S k => mark_data grp_start used (i + 1) k (if grp_start + i <? used then mark buf i else buf)
  end.

Fixpoint mk_balloc_groups (used g : Z) (k : nat) : kM mkst unit :=
  match k with
  | O => mret tt
  | S k =>
      let grp_start := mk_global_start + g * BPG in
      let bmap_loc := grp_start + IPG / IPB in
      let buf := mark_meta 0 (Z.to_nat meta_per_group) (replicate BSIZE 0) in
      let buf := mark_data grp_start used meta_per_group (Z.to_nat (BPG - meta_per_group)) buf in
      _ ← wsect bmap_loc buf;
      mk_balloc_groups used (g + 1) k
  end.

Definition mk_balloc (used : Z) : kM mkst unit :=
  mk_balloc_groups used 0 (Z.to_nat (xint mkfs_sb.(sb_ngroups))).

(** [de.inum = xshort(inum); strncpy(de.name, name, DIRSIZ)]. *)
Definition mk_de (name : list Z) (inum : Z) : list Z := mk_dirent name (xshort inum).

(** The bytes of a file as [read] returns them, a block at a time. *)
Fixpoint chunks (fuel : nat) (p : list Z) : list (list Z) :=
  match fuel, p with
  | S fuel, _ :: _ => take BSIZE p :: chunks fuel (drop BSIZE p)
  | _, _ => []
  end.

Fixpoint append_all (inum : Z) (cs : list (list Z)) : kM mkst unit :=
  match cs with
  | [] => mret tt
  | c :: cs => _ ← iappend inum c; append_all inum cs
  end.

(** One turn of the loop over the files: its name and its contents. *)
Definition add_file (rootino : Z) (f : list Z * list Z) : kM mkst unit :=
  let (name, data) := f in
  if bool_decide (slash ∈ name) then kpanic "assert"
  else
    let name := match name with c :: rest => if c =? 95 then rest else name | [] => [] end in
    inum ← mk_ialloc T_FILE;
    _ ← iappend rootino (mk_de name inum);
    append_all inum (chunks (length data) data).

Fixpoint add_files (rootino : Z) (fs : list (list Z * list Z)) : kM mkst unit :=
  match fs with
  | [] => mret tt
  | f :: fs => _ ← add_file rootino f; add_files rootino fs
  end.

(** The rounding of the size of the root directory. *)
Definition fix_root (rootino : Z) : kM mkst unit :=
  d ← rinode rootino;
  let off := xint d.(d_size) in
  let off := u32 ((off / 512 + 1) * 512) in
  winode rootino (set_size d (xint off)).

(** The image of zeroes, with the super block. *)
Definition mkst0 : mkst :=
  mk_mkst (dupd (fun _ => replicate BSIZE 0) 1 (encode_sb mkfs_sb (replicate BSIZE 0))) 1
    (mk_global_start + meta_per_group).

Definition mkfs_main (files : list (list Z * list Z)) : kM mkst unit :=
  rootino ← mk_ialloc T_DIR;
  if negb (rootino =? ROOTINO) then kpanic "assert"
  else
    _ ← iappend rootino (mk_de (lit ".") rootino);
    _ ← iappend rootino (mk_de (lit "..") rootino);
    _ ← add_files rootino files;
    _ ← fix_root rootino;
    s ← kget;
    mk_balloc s.(freeblock).
