(* ===== verification/MkfsSpec.v ===== *)
(** * The image that mkfs builds

    Every block address in an inode, in an indirect block included, is a slot;
    slots hold distinct data blocks that the allocator has handed out.  Under
    this invariant appending to a file changes the bytes of that file only. *)

From S2P Require Import Prelude CString Locks Bio BioSpec Layout Log Fs FsBits FsInode FsSpec FsAlloc Mkfs.

Lemma xint_id x : is_u32 x -> xint x = x.
Proof.
  intros Hx. unfold xint. pose proof (bytes_of_word x Hx) as H. change (8 * 0) with 0 in H. rewrite Z.shiftr_0_r in H.
  exact H.
Qed.

(** ** Where things are *)

Definition inum_ok (i : Z) : Prop := 0 <= i < 3168.

Lemma sb_consts : sb_logstart mkfs_sb = 2 /\ sb_nlog mkfs_sb = 30 /\ sb_bpg mkfs_sb = 200 /\ sb_ipg mkfs_sb = 32 /\
  sb_ngroups mkfs_sb = 99 /\ sb_ninodes mkfs_sb = 3168.
Proof. by vm_compute. Qed.

Lemma IBLOCK_val i : inum_ok i -> IBLOCK i mkfs_sb = 32 + i / 32 * 200 + i mod 32 / 8.
Proof.
  intros Hi. destruct sb_consts as (E1 & E2 & E3 & E4 & _). unfold IBLOCK. rewrite E1, E2, E3, E4. unfold IPB.
  apply u32_small. unfold is_u32, inum_ok in *. Z.to_euclidean_division_equations. lia.
Qed.

Lemma IBLOCK_meta i : inum_ok i -> 32 <= IBLOCK i mkfs_sb < 19832 /\ (IBLOCK i mkfs_sb - 32) mod 200 < 4.
Proof. intros Hi. rewrite IBLOCK_val by done. unfold inum_ok in Hi. Z.to_euclidean_division_equations. lia. Qed.

(** Two inodes in one block are at different places. *)
Lemma ioff_apart i j : inum_ok i -> inum_ok j -> i <> j -> IBLOCK i mkfs_sb = IBLOCK j mkfs_sb ->
  (ioff i + 64 <= ioff j \/ ioff j + 64 <= ioff i)%nat.
Proof.
  intros Hi Hj Hne E. rewrite !IBLOCK_val in E by done. unfold ioff, IPB, inum_ok in *.
  assert (i mod 8 <> j mod 8) by (Z.to_euclidean_division_equations; lia).
  pose proof (Z.mod_pos_bound i 8). pose proof (Z.mod_pos_bound j 8). lia.
Qed.

(** A place for data in some group, also past the last one. *)
Definition isdata (b : Z) : Prop := 37 <= b /\ 5 <= (b - 32) mod 200.

(** The next such place. *)
Definition next_data (b : Z) : Z := if (b + 1 - 32) mod 200 =? 0 then b + 6 else b + 1.

Lemma next_data_spec b : isdata b ->
  isdata (next_data b) /\ b < next_data b <= b + 6 /\ (forall c, isdata c -> b < c -> next_data b <= c).
Proof.
  unfold isdata, next_data. intros [H1 H2]. destruct (Z.eqb_spec ((b + 1 - 32) mod 200) 0) as [E|E].
  - split; [|split; [lia|]].
    + Z.to_euclidean_division_equations. lia.
    + intros c [_ Hc] Hlt. destruct (decide (b + 6 <= c)); [done|]. exfalso. Z.to_euclidean_division_equations. lia.
  - split; [|split; [lia|intros; lia]]. Z.to_euclidean_division_equations. lia.
Qed.

Lemma alloc_block_run s : isdata s.(freeblock) -> s.(freeblock) < 2 ^ 30 ->
  alloc_block s = Ok (s.(freeblock), mk_mkst s.(img) s.(freeinode) (next_data s.(freeblock))).
Proof.
  intros Hd Hb. unfold isdata in Hd. unfold alloc_block. rewrite (kM_bind_run _ _ _ s s) by done.
  erewrite kM_bind_run by reflexivity. rewrite kM_ret_run. do 3 f_equal. unfold next_data.
  change mk_global_start with 32. change meta_per_group with 5. change BPG with 200.
  rewrite (u32_small (s.(freeblock) + 1)) by (unfold is_u32; lia).
  rewrite (u32_small (s.(freeblock) + 1 - 32)) by (unfold is_u32; lia).
  case_bool; [|done]. rewrite u32_small by (unfold is_u32; lia). lia.
Qed.

(** The place that the allocator hands out after [c] others. *)
Definition dpos (c : Z) : Z := 37 + c + 5 * (c / 195).

(** The data blocks of all groups. *)
Definition room : Z := 19305.

Lemma dpos_next c : 0 <= c -> next_data (dpos c) = dpos (c + 1).
Proof. intros Hc. unfold next_data, dpos. case_bool; Z.to_euclidean_division_equations; lia. Qed.

Lemma dpos_mono a b : a <= b -> dpos a <= dpos b.
Proof. intros H. unfold dpos. pose proof (Z.div_le_mono a b 195). lia. Qed.

Lemma dpos_room c : c <= room -> dpos c <= 19837.
Proof. intros H. apply (dpos_mono c room H). Qed.

Lemma rsect_run b s : b < FSSIZE -> rsect b s = Ok (s.(img) b, s).
Proof. intros H. unfold rsect. by destruct (Z.ltb_spec b FSSIZE); [|lia]. Qed.

(** ** Slots *)

(** Slot [k] of inode [i]. *)
Definition addr (V : Z -> block) (D : Z -> dinode) (i : Z) (k : nat) : Z := slot V (D i) k.

Definition dset (D : Z -> dinode) (i : Z) (d : dinode) : Z -> dinode := fun j => if j =? i then d else D j.

Record minv (V : Z -> block) (D : Z -> dinode) (fb : Z) : Prop := {
  mi_bytes : forall b, bytes512 (V b);
  mi_dok : forall i, inum_ok i -> dinode_ok (D i);
  mi_addr : forall i k, inum_ok i -> (k < 141)%nat -> addr V D i k <> 0 -> isdata (addr V D i k) /\ addr V D i k < fb;
  mi_inj : forall i k j l, inum_ok i -> inum_ok j -> (k < 141)%nat -> (l < 141)%nat ->
    addr V D i k <> 0 -> addr V D i k = addr V D j l -> i = j /\ k = l;
  mi_zero : forall b, fb <= b -> isdata b -> V b = replicate BSIZE 0;
  mi_fb : isdata fb
}.

Lemma addr_low V D i k : (k <= 12)%nat -> addr V D i k = nth k (D i).(d_addrs) 0.
Proof. apply slot_low. Qed.

Lemma addr_high V D i k : (13 <= k)%nat ->
  addr V D i k = if addr V D i 12 =? 0 then 0 else get32 (V (addr V D i 12)) (4 * (k - 13)).
Proof. apply slot_high. Qed.

(** Slots depend on the inodes and the indirect blocks only. *)
Lemma addr_ext V V' D D' i k :
  (D' i).(d_addrs) = (D i).(d_addrs) -> (addr V D i 12 <> 0 -> V' (addr V D i 12) = V (addr V D i 12)) ->
  addr V' D' i k = addr V D i k.
Proof. apply slot_ext. Qed.

(** Writing a data block moves no slot. *)
Lemma write_data V D fb i k b :
  minv V D fb -> inum_ok i -> (k < 141)%nat -> k <> 12%nat -> addr V D i k <> 0 -> bytes512 b ->
  minv (dupd V (addr V D i k) b) D fb /\
  (forall j l, inum_ok j -> addr (dupd V (addr V D i k) b) D j l = addr V D j l).
Proof.
  intros M Hi Hk Hk12 Hne Hb.
  assert (E : forall j l, inum_ok j -> addr (dupd V (addr V D i k) b) D j l = addr V D j l).
  { intros j l Hj. apply addr_ext; [done|]. intros H0. apply dupd_ne. intros E.
    destruct (mi_inj _ _ _ M i k j 12) as [_ ?]; [done|done|done|lia|done|done|done]. }
  split; [|done]. destruct (mi_addr _ _ _ M i k Hi Hk Hne) as [Hd Hlt]. destruct M as [M1 M2 M3 M4 M5 M6]. split; try done.
  - intros c. unfold dupd. by case_bool.
  - intros j l Hj Hl. rewrite E by done. by apply M3.
  - intros j l j' l' Hj Hj' Hl Hl'. rewrite !E by done. by apply M4.
  - intros c Hc Hcd. rewrite dupd_ne by lia. by apply M5.
Qed.

(** A fresh address in a slot of the inode itself. *)
Lemma alloc_low V D fb i k :
  minv V D fb -> inum_ok i -> (k <= 12)%nat -> addr V D i k = 0 -> fb < 2 ^ 30 ->
  let D' := dset D i (set_addr (D i) k fb) in
  minv V D' (next_data fb) /\ addr V D' i k = fb /\
  (forall j l, inum_ok j -> (l < 141)%nat -> (j, l) <> (i, k) -> addr V D' j l = addr V D j l).
Proof.
  intros M Hi Hk H0 Hfb D'. pose proof (mi_fb _ _ _ M) as Hd. destruct (next_data_spec fb Hd) as (Hn & Hlt & Hmin).
  pose proof (do_len _ (mi_dok _ _ _ M i Hi)) as Hlen.
  assert (Enew : addr V D' i k = fb).
  { rewrite addr_low by done. unfold D', dset. rewrite Z.eqb_refl, set_addr_nth, Nat.eqb_refl by (done || lia). done. }
  assert (Eold : forall j l, inum_ok j -> (l < 141)%nat -> (j, l) <> (i, k) -> addr V D' j l = addr V D j l).
  { intros j l Hj Hl Hne. destruct (decide (j = i)) as [->|Hji].
    - assert (l <> k) by congruence. destruct (decide (l <= 12)%nat) as [Hl12|Hl12].
      + rewrite !addr_low by done. unfold D', dset. rewrite Z.eqb_refl, set_addr_nth by (done || lia).
        destruct (Nat.eqb_spec l k); [done|done].
      + rewrite (addr_high V D'), (addr_high V D) by lia. destruct (decide (k = 12%nat)) as [->|Hk12].
        * rewrite Enew, H0. cbn [Z.eqb]. destruct (Z.eqb_spec fb 0); [unfold isdata in Hd; lia|].
          rewrite (mi_zero _ _ _ M fb) by (done || lia). apply zero_word.
        * assert (E12 : addr V D' i 12 = addr V D i 12).
          { rewrite !addr_low by lia. unfold D', dset. rewrite Z.eqb_refl, set_addr_nth by (done || lia).
            destruct (Nat.eqb_spec 12 k); [lia|done]. }
          by rewrite E12.
    - apply addr_ext; [|done]. unfold D', dset. destruct (Z.eqb_spec j i); [done|done]. }
  split; [|done]. destruct M as [M1 M2 M3 M4 M5 M6]. split; try done.
  - intros j Hj. unfold D', dset. case_bool; [|by apply M2]. apply set_addr_ok; [by apply M2|]. unfold is_u32, isdata in *. lia.
  - intros j l Hj Hl. destruct (decide ((j, l) = (i, k))) as [[= -> ->]|Hne].
    + rewrite Enew. intros _. split; [done|lia].
    + rewrite Eold by done. intros Ha. destruct (M3 j l Hj Hl Ha). split; [done|lia].
  - intros j l j' l' Hj Hj' Hl Hl'. destruct (decide ((j, l) = (i, k))) as [[= -> ->]|Hne1],
      (decide ((j', l') = (i, k))) as [[= -> ->]|Hne2]; [done| | |].
    + rewrite Enew, Eold by done. intros Hf E. destruct (M3 j' l' Hj' Hl') as [_ ?]; [congruence|]. lia.
    + rewrite Enew, Eold by done. intros Hf E. destruct (M3 j l Hj Hl Hf) as [_ ?]. lia.
    + rewrite !Eold by done. by apply M4.
  - intros b Hb Hbd. apply M5; [lia|done].
Qed.

(** A fresh address in the indirect block. *)
Lemma alloc_high V D fb i k :
  minv V D fb -> inum_ok i -> (13 <= k < 141)%nat -> addr V D i 12 <> 0 -> addr V D i k = 0 -> fb < 2 ^ 30 ->
  let V' := dupd V (addr V D i 12) (put32 (V (addr V D i 12)) (4 * (k - 13)) fb) in
  minv V' D (next_data fb) /\ addr V' D i k = fb /\
  (forall j l, inum_ok j -> (l < 141)%nat -> (j, l) <> (i, k) -> addr V' D j l = addr V D j l).
Proof.
  intros M Hi Hk H12 H0 Hfb V'. pose proof (mi_fb _ _ _ M) as Hd. destruct (next_data_spec fb Hd) as (Hn & Hlt & Hmin).
  destruct (mi_bytes _ _ _ M (addr V D i 12)) as [Hlen Hu8].
  assert (Eia : forall j, addr V' D j 12 = addr V D j 12) by (intros j; by rewrite !addr_low by lia).
  assert (Enew : addr V' D i k = fb).
  { rewrite addr_high by lia. rewrite Eia. destruct (Z.eqb_spec (addr V D i 12) 0); [done|]. unfold V'. rewrite dupd_eq.
    apply get32_put32_eq; [unfold is_u32, isdata in *; lia|]. rewrite Hlen. unfold BSIZE. lia. }
  assert (Eold : forall j l, inum_ok j -> (l < 141)%nat -> (j, l) <> (i, k) -> addr V' D j l = addr V D j l).
  { intros j l Hj Hl Hne. destruct (decide (l <= 12)%nat) as [Hl12|Hl12]; [by rewrite !addr_low by done|].
    rewrite (addr_high V'), (addr_high V) by lia. rewrite Eia. destruct (Z.eqb_spec (addr V D j 12) 0) as [|Hj12]; [done|].
    destruct (decide (j = i)) as [->|Hji].
    - unfold V'. rewrite dupd_eq. apply get32_put32_ne. assert (l <> k) by congruence. lia.
    - unfold V'. rewrite dupd_ne; [done|]. intros E.
      destruct (mi_inj _ _ _ M j 12 i 12) as [? _]; [done|done|lia|lia|done|done|done]. }
  split; [|done]. destruct (mi_addr _ _ _ M i 12 Hi ltac:(lia) H12) as [_ Hialt].
  destruct M as [M1 M2 M3 M4 M5 M6]. split; try done.
  - intros b. unfold V', dupd. case_bool; [|done]. by apply put32_bytes.
  - intros j l Hj Hl. destruct (decide ((j, l) = (i, k))) as [[= -> ->]|Hne].
    + rewrite Enew. intros _. split; [done|lia].
    + rewrite Eold by done. intros Ha. destruct (M3 j l Hj Hl Ha). split; [done|lia].
  - intros j l j' l' Hj Hj' Hl Hl'. destruct (decide ((j, l) = (i, k))) as [[= -> ->]|Hne1],
      (decide ((j', l') = (i, k))) as [[= -> ->]|Hne2]; [done| | |].
    + rewrite Enew, Eold by done. intros Hf E. destruct (M3 j' l' Hj' Hl') as [_ ?]; [congruence|]. lia.
    + rewrite Enew, Eold by done. intros Hf E. destruct (M3 j l Hj Hl Hf) as [_ ?]. lia.
    + rewrite !Eold by done. by apply M4.
  - intros b Hb Hbd. unfold V'. rewrite dupd_ne by lia. apply M5; [lia|done].
Qed.

(** ** Finding the block to append to *)

(** 1 if the slot is empty. *)
Definition fresh (V : Z -> block) (D : Z -> dinode) (i : Z) (k : nat) : Z := if addr V D i k =? 0 then 1 else 0.

(** The blocks that block [fbn] of file [i] needs. *)
Definition cost (V : Z -> block) (D : Z -> dinode) (i fbn : Z) : Z :=
  (if fbn <? 12 then 0 else fresh V D i 12) + fresh V D i (cslot fbn).

(** The state after block [fbn] of file [i] was found or added, when [c]
    blocks had been handed out. *)
Record found (V : Z -> block) (D : Z -> dinode) (c i fbn : Z) (V' : Z -> block) (D' : Z -> dinode) (c' x : Z) : Prop := {
  fo_inv : minv V' D' (dpos c');
  fo_c : c' = c + cost V D i fbn;
  fo_meta : same_meta (D i) (D' i);
  fo_others : forall j, j <> i -> D' j = D j;
  fo_x : x = addr V' D' i (cslot fbn);
  fo_nz : x <> 0;
  fo_slots : forall j l, inum_ok j -> (l < 141)%nat -> (j, l) <> (i, cslot fbn) -> (j, l) <> (i, 12%nat) ->
    addr V' D' j l = addr V D j l;
  fo_kept : addr V D i (cslot fbn) <> 0 -> x = addr V D i (cslot fbn);
  fo_new : addr V D i (cslot fbn) = 0 -> V' x = replicate BSIZE 0;
  fo_blocks : forall b, (addr V' D' i 12 <> 0 -> b <> addr V' D' i 12) -> V' b = V b
}.

Lemma dset_at D i d : dset D i d i = d.
Proof. unfold dset. by rewrite Z.eqb_refl. Qed.

Lemma dset_ne D i d j : j <> i -> dset D i d j = D j.
Proof. intros H. unfold dset. by destruct (Z.eqb_spec j i). Qed.

Lemma fresh_range V D i k : 0 <= fresh V D i k <= 1.
Proof. unfold fresh. case_bool; lia. Qed.

(** An inode slot, filled if it is empty. *)
Lemma low_slot_run V D c fi i k :
  minv V D (dpos c) -> inum_ok i -> (k <= 12)%nat -> 0 <= c -> c + fresh V D i k <= room ->
  exists D', (if xint (nth k (D i).(d_addrs) 0) =? 0 then
                b ← alloc_block; mret (set_addr (D i) k (xint b)) else mret (D i)) (mk_mkst V fi (dpos c))
      = Ok (D' i, mk_mkst V fi (dpos (c + fresh V D i k))) /\
    minv V D' (dpos (c + fresh V D i k)) /\ same_meta (D i) (D' i) /\ (forall j, j <> i -> D' j = D j) /\
    addr V D' i k <> 0 /\ xint (nth k (D' i).(d_addrs) 0) = addr V D' i k /\
    (addr V D i k <> 0 -> addr V D' i k = addr V D i k) /\ (addr V D i k = 0 -> V (addr V D' i k) = replicate BSIZE 0) /\
    (forall j l, inum_ok j -> (l < 141)%nat -> (j, l) <> (i, k) -> addr V D' j l = addr V D j l).
Proof.
  intros M Hi Hk Hc0 Hc. pose proof (mi_dok _ _ _ M i Hi) as Hd.
  assert (Hx : forall D' fb, minv V D' fb -> xint (nth k (D' i).(d_addrs) 0) = addr V D' i k).
  { intros D' fb HM. rewrite addr_low by done. apply xint_id. destruct (mi_dok _ _ _ HM i Hi) as [_ _ _ _ _ Hl Hu].
    rewrite nth_lookup. destruct ((D' i).(d_addrs) !! k) eqn:E; simpl; [by eapply Forall_lookup_1|unfold is_u32; lia]. }
  rewrite (Hx D _ M). unfold fresh in *. destruct (Z.eqb_spec (addr V D i k) 0) as [E|E].
  - pose proof (dpos_room c ltac:(lia)) as Hr. rewrite <- dpos_next by done. set (fb := dpos c) in *.
    pose proof (alloc_block_run (mk_mkst V fi fb) (mi_fb _ _ _ M) ltac:(simpl; lia)) as R. simpl in R.
    rewrite (kM_bind_run _ _ _ _ _ R), kM_ret_run. destruct (alloc_low V D fb i k M Hi Hk E ltac:(lia)) as (M' & En & Eo).
    pose proof (mi_fb _ _ _ M) as Hdat. exists (dset D i (set_addr (D i) k fb)). rewrite dset_at.
    rewrite (xint_id fb) by (unfold is_u32, isdata in *; lia). split; [done|]. split; [done|].
    split; [done|]. split; [intros; by apply dset_ne|]. rewrite En. split; [unfold isdata in Hdat; lia|].
    split; [|split; [done|split; [intros _; apply (mi_zero _ _ _ M); [lia|done]|done]]]. rewrite <- En at 2. rewrite <- (Hx _ _ M'). by rewrite dset_at.
  - exists D. rewrite Z.add_0_r. split; [done|]. split; [done|]. split; [done|]. split; [done|]. split; [done|].
    split; [by eapply Hx|]. split; [done|split; [done|done]].
Qed.

Lemma iappend_block_run V D c fi i fbn :
  minv V D (dpos c) -> inum_ok i -> 0 <= fbn < 140 -> 0 <= c -> c + cost V D i fbn <= room ->
  exists V' D' c' x, iappend_block (D i) fbn (mk_mkst V fi (dpos c)) = Ok ((D' i, x), mk_mkst V' fi (dpos c')) /\
    found V D c i fbn V' D' c' x.
Proof.
  intros M Hi Hn Hc0 Hc. unfold iappend_block. change NDIRECT with 12. unfold cost in Hc. destruct (Z.ltb_spec fbn 12) as [Hlow|Hhigh].
  - assert (Hcs : cslot fbn = Z.to_nat fbn) by (unfold cslot; case_bool; [done|lia]). rewrite Hcs in Hc.
    destruct (low_slot_run V D c fi i (Z.to_nat fbn) M Hi ltac:(lia) Hc0 ltac:(lia)) as (D' & R & M' & Hm & Ho & Hnz & Hx & Hk & Hz & Hs).
    exists V, D', (c + fresh V D i (Z.to_nat fbn)), (addr V D' i (Z.to_nat fbn)).
    rewrite (kM_bind_run _ _ _ _ _ R), kM_ret_run, Hx. split; [done|].
    split; rewrite ?Hcs; try done.
    + unfold cost. rewrite Hcs. case_bool; lia.
    + intros j l Hj Hl Hne _. by apply Hs.
  - assert (Hcs : cslot fbn = S (Z.to_nat fbn)) by (unfold cslot; case_bool; [lia|done]). rewrite Hcs in Hc.
    set (k := S (Z.to_nat fbn)) in *. assert (Hk0 : (13 <= k < 141)%nat) by lia. pose proof (fresh_range V D i k) as Hfk.
    pose proof (fresh_range V D i 12) as Hf12.
    destruct (low_slot_run V D c fi i 12 M Hi ltac:(lia) Hc0 ltac:(lia)) as (D' & R & M' & Hm & Ho & Hnz & Hx & Hk & Hz & Hs).
    set (c1 := c + fresh V D i 12) in *.
    assert (Esl : addr V D' i k = addr V D i k) by (apply Hs; [done|lia|intros [= ?]; lia]).
    pose proof (dpos_room c1 ltac:(lia)) as Hr1. destruct (mi_addr _ _ _ M' i 12 Hi ltac:(lia) Hnz) as [_ Hia].
    rewrite (kM_bind_run _ _ _ _ _ R). rewrite Hx.
    rewrite (kM_bind_run _ _ _ _ _ (rsect_run (addr V D' i 12) (mk_mkst V fi (dpos c1)) ltac:(unfold FSSIZE; lia))).
    cbn [img freeinode freeblock].
    replace (4 * Z.to_nat (fbn - 12))%nat with (4 * (k - 13))%nat by lia.
    assert (Ea : get32 (V (addr V D' i 12)) (4 * (k - 13)) = addr V D' i k).
    { rewrite (addr_high V D' i k) by lia. by destruct (Z.eqb_spec (addr V D' i 12) 0). }
    assert (Ecost : cost V D i fbn = fresh V D i 12 + fresh V D i k).
    { unfold cost. rewrite Hcs. case_bool; lia. }
    rewrite Ea. destruct (Z.eqb_spec (addr V D' i k) 0) as [E|E].
    + assert (Ef : fresh V D i k = 1) by (unfold fresh; rewrite <- Esl, E; done).
      pose proof (dpos_next c1 ltac:(lia)) as En1. set (fb' := dpos c1) in *.
      pose proof (alloc_block_run (mk_mkst V fi fb') (mi_fb _ _ _ M') ltac:(simpl; lia)) as R2. simpl in R2.
      destruct (alloc_high V D' fb' i k M' Hi Hk0 Hnz E ltac:(lia)) as (M2 & En & Eo).
      pose proof (mi_fb _ _ _ M') as Hdat.
      set (V2 := dupd V (addr V D' i 12) (put32 (V (addr V D' i 12)) (4 * (k - 13)) fb')) in *.
      assert (E12 : addr V2 D' i 12 = addr V D' i 12) by (by rewrite !addr_low by lia).
      rewrite En1 in R2, M2. exists V2, D', (c1 + 1), fb'. split.
      * erewrite kM_bind_run; [rewrite kM_ret_run|].
        2: { rewrite (kM_bind_run _ _ _ _ _ R2). rewrite (xint_id fb') by (unfold is_u32, isdata in *; lia).
             erewrite kM_bind_run by reflexivity. rewrite kM_ret_run. reflexivity. }
        do 3 f_equal. rewrite <- En at 2. rewrite (addr_high V2 D' i k) by lia. rewrite E12.
        destruct (Z.eqb_spec (addr V D' i 12) 0); [done|]. unfold V2. rewrite dupd_eq. apply xint_id.
        apply get32_range. apply put32_bytes, M'.
      * split; rewrite ?Hcs; try done; [lia|unfold isdata in Hdat; lia| | | |].
        -- intros j l Hj Hl Hne1 Hne2. rewrite Eo by done. by apply Hs.
        -- rewrite <- Esl. done.
        -- intros _. unfold V2. rewrite dupd_ne by lia. apply (mi_zero _ _ _ M'); [lia|done].
        -- intros b Hb'. rewrite E12 in Hb'. specialize (Hb' Hnz). unfold V2. by rewrite dupd_ne by congruence.
    + assert (Ef : fresh V D i k = 0) by (unfold fresh; rewrite <- Esl; by destruct (Z.eqb_spec (addr V D' i k) 0)).
      exists V, D', c1, (addr V D' i k). rewrite kM_bind_run with (a := V (addr V D' i 12)) (s' := mk_mkst V fi (dpos c1)) by done.
      rewrite kM_ret_run, Ea. split; [|split; rewrite ?Hcs; try done].
      * do 3 f_equal. apply xint_id. rewrite <- Ea. apply get32_range, M'.
      * lia.
      * intros j l Hj Hl Hne1 Hne2. by apply Hs.
      * intros E0. by rewrite <- Esl in E0.
Qed.

(** ** The bytes of a file *)

(** The blocks of file [i] begin with the bytes [dat]. *)
Definition begins (V : Z -> block) (D : Z -> dinode) (i : Z) (dat : list Z) : Prop :=
  forall q c, dat !! q = Some c ->
    addr V D i (cslot (Z.of_nat (q / 512))) <> 0 /\
    V (addr V D i (cslot (Z.of_nat (q / 512)))) !! (q mod 512)%nat = Some c.

(** The bytes of file [i] from offset [n] on are 0, in the blocks that it has. *)
Definition clean (V : Z -> block) (D : Z -> dinode) (i : Z) (n : nat) : Prop :=
  forall k r, 0 <= k < 140 -> (r < 512)%nat -> Z.of_nat n <= 512 * k + Z.of_nat r ->
    addr V D i (cslot k) <> 0 -> V (addr V D i (cslot k)) !! r = Some 0.

(** The blocks of file [i] hold the bytes [dat], and nothing else. *)
Record holds (V : Z -> block) (D : Z -> dinode) (i : Z) (dat : list Z) : Prop := {
  ho_bytes : begins V D i dat;
  ho_clean : clean V D i (length dat)
}.

(** Finding a block changes the bytes of no file. *)
Lemma begins_found V D c i fbn V' D' c' x j dat :
  found V D c i fbn V' D' c' x -> inum_ok i -> 0 <= fbn < 140 -> inum_ok j -> fits dat ->
  begins V D j dat -> begins V' D' j dat.
Proof.
  intros F Hi Hn Hj Hf H q y Hq. destruct (H q y Hq) as [Hnz Hc]. pose proof (fbn_range _ _ _ Hf Hq) as Hr.
  destruct (cslot_data _ Hr) as [Hs1 Hs2]. destruct (cslot_data _ Hn) as [Ht1 Ht2].
  set (l := cslot (Z.of_nat (q / 512))) in *.
  assert (Ea : addr V' D' j l = addr V D j l).
  { destruct (decide ((j, l) = (i, cslot fbn))) as [[= -> ->]|Hne].
    - rewrite <- (fo_x _ _ _ _ _ _ _ _ _ F). by apply (fo_kept _ _ _ _ _ _ _ _ _ F).
    - apply (fo_slots _ _ _ _ _ _ _ _ _ F); [done|done|done|]. intros [= -> ?]. done. }
  rewrite Ea. split; [done|]. rewrite (fo_blocks _ _ _ _ _ _ _ _ _ F); [done|]. rewrite <- Ea. intros _ E.
  destruct (mi_inj _ _ _ (fo_inv _ _ _ _ _ _ _ _ _ F) j l i 12) as [_ ?]; [done|done|done|lia|by rewrite Ea|done|done].
Qed.

(** Writing block [fbn] of file [i] leaves the other bytes alone. *)
Lemma begins_write V D fb i fbn b j dat :
  minv V D fb -> inum_ok i -> 0 <= fbn < 140 -> inum_ok j -> fits dat -> bytes512 b ->
  addr V D i (cslot fbn) <> 0 ->
  (j = i -> forall q c, dat !! q = Some c -> Z.of_nat (q / 512) = fbn -> b !! (q mod 512)%nat = Some c) ->
  begins V D j dat -> begins (dupd V (addr V D i (cslot fbn)) b) D j dat.
Proof.
  intros M Hi Hn Hj Hf Hb Hnz0 Hw H q c Hq. destruct (H q c Hq) as [Hnz Hc]. pose proof (fbn_range _ _ _ Hf Hq) as Hr.
  destruct (cslot_data _ Hr) as [Hs1 Hs2]. destruct (cslot_data _ Hn) as [Ht1 Ht2].
  destruct (write_data V D fb i (cslot fbn) b M Hi Ht1 Ht2 Hnz0 Hb) as [_ E]. rewrite E by done. split; [done|].
  destruct (decide (addr V D j (cslot (Z.of_nat (q / 512))) = addr V D i (cslot fbn))) as [Ea|Ea].
  - destruct (mi_inj _ _ _ M _ _ _ _ Hj Hi Hs1 Ht1 Hnz Ea) as [-> Es]. apply cslot_inj in Es; [|lia|lia].
    rewrite Ea, dupd_eq. by apply Hw.
  - by rewrite dupd_ne by congruence.
Qed.

Lemma clean_found V D c i fbn V' D' c' x j n :
  found V D c i fbn V' D' c' x -> inum_ok i -> 0 <= fbn < 140 -> inum_ok j -> clean V D j n -> clean V' D' j n.
Proof.
  intros F Hi Hn Hj H k r Hk Hr Hle Hnz. destruct (cslot_data _ Hk) as [Hs1 Hs2].
  assert (Hb : V' (addr V' D' j (cslot k)) = V (addr V' D' j (cslot k))).
  { apply (fo_blocks _ _ _ _ _ _ _ _ _ F). intros _ E.
    destruct (mi_inj _ _ _ (fo_inv _ _ _ _ _ _ _ _ _ F) j (cslot k) i 12) as [_ ?]; try done. lia. }
  destruct (decide ((j, cslot k) = (i, cslot fbn))) as [[= -> Es]|Hne].
  - rewrite Es, <- (fo_x _ _ _ _ _ _ _ _ _ F) in *. destruct (Z.eq_dec (addr V D i (cslot fbn)) 0) as [E|E].
    + rewrite (fo_new _ _ _ _ _ _ _ _ _ F E). by apply lookup_replicate_2.
    + rewrite Hb, (fo_kept _ _ _ _ _ _ _ _ _ F E), <- Es in *. apply (H k r); done.
  - rewrite Hb in *. rewrite (fo_slots _ _ _ _ _ _ _ _ _ F) in * by (done || (intros [= -> ?]; done)). by apply (H k r).
Qed.

Lemma clean_write V D fb i fbn b j n :
  minv V D fb -> inum_ok i -> 0 <= fbn < 140 -> inum_ok j -> bytes512 b -> addr V D i (cslot fbn) <> 0 ->
  (j = i -> forall r, (r < 512)%nat -> Z.of_nat n <= 512 * fbn + Z.of_nat r -> b !! r = Some 0) ->
  clean V D j n -> clean (dupd V (addr V D i (cslot fbn)) b) D j n.
Proof.
  intros M Hi Hn Hj Hb Hnz0 Hw H k r Hk Hr Hle. destruct (cslot_data _ Hk) as [Hs1 Hs2]. destruct (cslot_data _ Hn) as [Ht1 Ht2].
  destruct (write_data V D fb i (cslot fbn) b M Hi Ht1 Ht2 Hnz0 Hb) as [_ E]. rewrite E by done. intros Hnz.
  destruct (decide (addr V D j (cslot k) = addr V D i (cslot fbn))) as [Ea|Ea].
  - destruct (mi_inj _ _ _ M _ _ _ _ Hj Hi Hs1 Ht1 Hnz Ea) as [-> Es]. apply cslot_inj in Es; [|lia|lia].
    rewrite Ea, dupd_eq. apply Hw; [done|done|lia].
  - rewrite dupd_ne by congruence. by apply H.
Qed.

(** A longer prefix is clean of what a shorter one is. *)
Lemma clean_mono V D i n m : (n <= m)%nat -> clean V D i n -> clean V D i m.
Proof. intros Hnm H k r Hk Hr Hle. apply H; [done|done|lia]. Qed.

(** Files other than [i] are the same in the second state. *)
Definition others_hold (i : Z) (V : Z -> block) (D : Z -> dinode) (V' : Z -> block) (D' : Z -> dinode) : Prop :=
  forall j dat, inum_ok j -> j <> i -> fits dat -> holds V D j dat -> holds V' D' j dat.

Record appended (V : Z -> block) (D : Z -> dinode) (c i : Z) (dat : list Z) (V' : Z -> block) (D' : Z -> dinode) (c' k : Z) : Prop := {
  ap_inv : minv V' D' (dpos c');
  ap_c : c <= c' <= c + k;
  ap_meta : same_meta (D i) (D' i);
  ap_others : forall j, j <> i -> D' j = D j;
  ap_holds : holds V' D' i dat;
  ap_files : others_hold i V D V' D';
  ap_blocks : forall b, ~ isdata b -> V' b = V b
}.

(** The blocks of a file of [n] bytes, with its indirect block. *)
Definition nblk (n : Z) : Z := (n + 511) / 512 + (if 6144 <? n then 1 else 0).

Lemma nblk_mono a b : a <= b -> nblk a <= nblk b.
Proof. intros H. unfold nblk. pose proof (Z.div_le_mono (a + 511) (b + 511) 512). repeat case_bool; lia. Qed.

(** A block of the bytes that are there has its address, and so has the
    indirect block if the block is behind it. *)
Lemma holds_fresh V D i dat fbn :
  holds V D i dat -> 0 <= fbn -> fbn * 512 < Z.of_nat (length dat) ->
  fresh V D i (cslot fbn) = 0 /\ (12 <= fbn -> fresh V D i 12 = 0).
Proof.
  intros [H _] Hf Hl. destruct (lookup_lt_is_Some_2 dat (Z.to_nat (fbn * 512)) ltac:(lia)) as [y Hy].
  destruct (H _ _ Hy) as [Hnz _].
  assert (E : Z.of_nat (Z.to_nat (fbn * 512) / 512) = fbn).
  { rewrite Nat2Z.inj_div, Z2Nat.id by lia. change (Z.of_nat 512) with 512. apply Z.div_mul. lia. }
  rewrite E in Hnz. unfold fresh. split; [by destruct (Z.eqb_spec (addr V D i (cslot fbn)) 0)|].
  intros H12. destruct (Z.eqb_spec (addr V D i 12) 0) as [E0|]; [|done]. exfalso. apply Hnz.
  rewrite addr_high by (unfold cslot; case_bool; lia). by rewrite E0.
Qed.

Lemma cost_bound V D i old n fbn :
  holds V D i old -> fbn = Z.of_nat (length old) / 512 -> 0 < n -> Z.of_nat (length old) + n <= (fbn + 1) * 512 ->
  0 <= cost V D i fbn <= nblk (Z.of_nat (length old) + n) - nblk (Z.of_nat (length old)).
Proof.
  intros Hh Ef Hn Hl. set (o := Z.of_nat (length old)) in *.
  pose proof (Z.div_mod o 512 ltac:(lia)) as Hdm. pose proof (Z.mod_pos_bound o 512 ltac:(lia)) as Hmb. rewrite <- Ef in Hdm.
  pose proof (fresh_range V D i 12) as F1. pose proof (fresh_range V D i (cslot fbn)) as F2. unfold cost.
  assert (En : (o + n + 511) / 512 = fbn + 1) by (symmetry; apply (Z.div_unique _ _ _ (o + n + 511 - 512 * (fbn + 1))); lia).
  unfold nblk. rewrite En. destruct (decide (o mod 512 = 0)) as [E0|E0].
  - assert (Eo : (o + 511) / 512 = fbn) by (symmetry; apply (Z.div_unique _ _ _ 511); lia). rewrite Eo.
    destruct (decide (fbn <= 12)); [repeat case_bool; lia|].
    destruct (holds_fresh V D i old (fbn - 1) Hh ltac:(lia) ltac:(lia)) as [_ H12]. rewrite H12 by lia. repeat case_bool; lia.
  - assert (Eo : (o + 511) / 512 = fbn + 1) by (symmetry; apply (Z.div_unique _ _ _ (o mod 512 - 1)); lia). rewrite Eo.
    destruct (holds_fresh V D i old fbn Hh ltac:(lia) ltac:(lia)) as [Hs H12]. rewrite Hs.
    destruct (Z.ltb_spec fbn 12); [|rewrite H12 by lia]; repeat case_bool; lia.
Qed.

(** One turn of the loop. *)
Lemma append_turn V D c fi i old p1 fbn k :
  minv V D (dpos c) -> inum_ok i -> fbn = Z.of_nat (length old) / 512 -> holds V D i old -> Forall is_u8 p1 ->
  p1 <> [] -> fits (old ++ p1) -> Z.of_nat (length old + length p1) <= (fbn + 1) * 512 ->
  k = nblk (Z.of_nat (length old + length p1)) - nblk (Z.of_nat (length old)) -> 0 <= c -> c + k <= room ->
  exists V' D' V2 c' x, iappend_block (D i) fbn (mk_mkst V fi (dpos c)) = Ok ((D' i, x), mk_mkst V2 fi (dpos c')) /\
    V' = dupd V2 x (put_bytes (V2 x) (Z.of_nat (length old) - fbn * 512) p1) /\ x < FSSIZE /\
    appended V D c i (old ++ p1) V' D' c' k.
Proof.
  intros M Hi Efbn Hold Hp Hne Hfit Hlast Ek Hc0 Hck.
  assert (Hln : (0 < length p1)%nat) by (destruct p1; [done|simpl; lia]).
  assert (Hfit' : Z.of_nat (length old + length p1) <= 71680) by (unfold fits in Hfit; by rewrite length_app in Hfit).
  pose proof (Z.div_mod (Z.of_nat (length old)) 512 ltac:(lia)) as Hdm.
  pose proof (Z.mod_pos_bound (Z.of_nat (length old)) 512 ltac:(lia)) as Hmb. rewrite <- Efbn in Hdm.
  assert (Hn : 0 <= fbn < 140) by lia. destruct (cslot_data _ Hn) as [Ht1 Ht2].
  pose proof (cost_bound V D i old (Z.of_nat (length p1)) fbn Hold Efbn ltac:(lia) ltac:(lia)) as Hcost.
  rewrite <- Nat2Z.inj_add, <- Ek in Hcost.
  destruct (iappend_block_run V D c fi i fbn M Hi Hn Hc0 ltac:(lia)) as (V2 & D' & c' & x & R & F).
  pose proof (fo_inv _ _ _ _ _ _ _ _ _ F) as M2. pose proof (fo_x _ _ _ _ _ _ _ _ _ F) as Ex.
  pose proof (fo_nz _ _ _ _ _ _ _ _ _ F) as Hxnz. pose proof (fo_c _ _ _ _ _ _ _ _ _ F) as Ec.
  set (b := put_bytes (V2 x) (Z.of_nat (length old) - fbn * 512) p1).
  destruct (mi_bytes _ _ _ M2 x) as [Hbl _]. unfold BSIZE in Hbl.
  assert (Ho : (Z.to_nat (Z.of_nat (length old) - fbn * 512) + length p1 <= 512)%nat) by lia.
  assert (Hb : bytes512 b) by (apply put_bytes_bytes; [apply M2|done|done]).
  assert (Hold2 : begins V2 D' i old).
  { apply (begins_found V D c i fbn V2 D' c' x i old F Hi Hn Hi); [unfold fits; lia|apply Hold]. }
  pose proof (clean_found V D c i fbn V2 D' c' x i _ F Hi Hn Hi (ho_clean _ _ _ _ Hold)) as Hcl2.
  destruct (mi_addr _ _ _ M2 i (cslot fbn) Hi Ht1 ltac:(by rewrite <- Ex)) as [Hxd Hxb]. rewrite <- Ex in Hxd, Hxb.
  destruct (write_data V2 D' (dpos c') i (cslot fbn) b M2 Hi Ht1 Ht2 ltac:(by rewrite <- Ex) Hb) as [M3 E3].
  rewrite <- Ex in M3, E3. exists (dupd V2 x b), D', V2, c', x. split; [done|]. split; [done|].
  split; [pose proof (dpos_room c' ltac:(lia)); unfold FSSIZE; lia|]. split; [done|lia|apply F|apply F|split| |].
  - intros q y Hq. apply lookup_app_Some in Hq as [Hq|[Hq1 Hq2]].
    + rewrite Ex. apply (begins_write V2 D' (dpos c') i fbn b i old); try done; [unfold fits; lia|by rewrite <- Ex|].
      intros _ q' y' Hq' Eq'. destruct (Hold2 q' y' Hq') as [_ Hy']. rewrite Eq', <- Ex in Hy'.
      unfold b. rewrite lookup_put_bytes by lia. apply lookup_lt_Some in Hq'.
      pose proof (Nat.div_mod q' 512 ltac:(lia)). rewrite decide_True by lia. done.
    + apply lookup_lt_Some in Hq2 as Hl2.
      assert (Eq : Z.of_nat (q / 512) = fbn).
      { rewrite Nat2Z.inj_div. change (Z.of_nat 512) with 512. symmetry. apply (Z.div_unique _ _ _ (Z.of_nat q - 512 * fbn)); lia. }
      rewrite Eq, E3 by done. rewrite <- Ex. split; [done|]. rewrite dupd_eq. unfold b.
      pose proof (Nat.div_mod q 512 ltac:(lia)). rewrite lookup_put_bytes, decide_False by lia. rewrite <- Hq2. f_equal. lia.
  - rewrite Ex. apply (clean_write V2 D' (dpos c') i fbn b i); try done; [by rewrite <- Ex| |].
    + intros _ r Hr Hle. rewrite length_app in Hle. unfold b. rewrite lookup_put_bytes by lia. rewrite decide_True by lia.
      rewrite Ex. apply (Hcl2 fbn r); [done|done|lia|by rewrite <- Ex].
    + apply (clean_mono _ _ _ (length old)); [rewrite length_app; lia|done].
  - intros j dat Hj Hji Hfd [Hd Hcl]. rewrite Ex. split.
    + apply (begins_write V2 D' (dpos c') i fbn b j dat); try done; [by rewrite <- Ex|].
      by apply (begins_found V D c i fbn V2 D' c' x j dat F Hi Hn Hj).
    + apply (clean_write V2 D' (dpos c') i fbn b j); try done; [by rewrite <- Ex|].
      by apply (clean_found V D c i fbn V2 D' c' x j _ F Hi Hn Hj).
  - intros y Hy. rewrite dupd_ne by congruence. apply (fo_blocks _ _ _ _ _ _ _ _ _ F). intros E0 ->.
    apply Hy, (mi_addr _ _ _ M2 i 12 Hi ltac:(lia) E0).
Qed.

Lemma appended_refl V D c i dat : minv V D (dpos c) -> holds V D i dat -> appended V D c i dat V D c 0.
Proof. intros M H. split; [done|lia|done|done|done|by intros ?|done]. Qed.

Lemma appended_trans V D c i d1 V1 D1 c1 k1 d2 V2 D2 c2 k2 k :
  appended V D c i d1 V1 D1 c1 k1 -> appended V1 D1 c1 i d2 V2 D2 c2 k2 -> k1 + k2 <= k ->
  appended V D c i d2 V2 D2 c2 k.
Proof.
  intros [A1 A2 (A3a & A3b & A3c & A3d & A3e) A4 A5 A6 A7] [B1 B2 (B3a & B3b & B3c & B3d & B3e) B4 B5 B6 B7] Hk.
  split; [done|lia|repeat split; congruence|intros j Hj; by rewrite B4, A4|done| |intros b Hb; by rewrite B7, A7].
  intros j dat Hj Hne Hf H. apply B6; [done|done|done|]. by apply A6.
Qed.

Lemma iappend_loop_run fuel : forall V D c fi i old p off k,
  minv V D (dpos c) -> inum_ok i -> off = Z.of_nat (length old) -> holds V D i old -> Forall is_u8 p -> fits (old ++ p) ->
  turns off (Z.of_nat (length p)) < Z.of_nat fuel ->
  k = nblk (off + Z.of_nat (length p)) - nblk off -> 0 <= c -> c + k <= room ->
  exists V' D' c', iappend_loop fuel (D i) p off (mk_mkst V fi (dpos c))
      = Ok ((D' i, off + Z.of_nat (length p)), mk_mkst V' fi (dpos c')) /\
    appended V D c i (old ++ p) V' D' c' k.
Proof.
  induction fuel as [|fuel IH]; intros V D c fi i old p off k M Hi Eo Hh Hp Hf Ht Ek Hc0 Hck.
  { pose proof (turns_bound off (Z.of_nat (length p)) ltac:(lia) ltac:(lia)). lia. }
  cbn [iappend_loop]. destruct (Z.ltb_spec 0 (Z.of_nat (length p))) as [Hpos|Hpos].
  2: { destruct p; [|simpl in Hpos; lia]. exists V, D, c. simpl in *. rewrite Z.add_0_r in *. rewrite app_nil_r.
       split; [done|]. rewrite Ek, Z.sub_diag. by apply appended_refl. }
  set (n := Z.of_nat (length p)) in *. set (fbn := off / 512) in *.
  destruct (turns_step off n (Z.min n ((fbn + 1) * 512 - off)) ltac:(lia) Hpos eq_refl) as [Hn1 Hts].
  set (n1 := Z.min n ((fbn + 1) * 512 - off)) in *. unfold fits in Hf. rewrite length_app in Hf.
  assert (Hfbn : fbn < 140) by (apply Z.div_lt_upper_bound; lia).
  destruct (Z.ltb_spec fbn MAXFILE) as [_|Hbad]; [|unfold MAXFILE in Hbad; change (NDIRECT + NINDIRECT) with 140 in Hbad; lia].
  cbn [negb]. set (p1 := take (Z.to_nat n1) p).
  assert (Hl1 : Z.of_nat (length p1) = n1) by (unfold p1; rewrite length_take; lia).
  assert (El : Z.of_nat (length old + length p1) = off + n1) by lia.
  pose proof (nblk_mono off (off + n1) ltac:(lia)) as Hm1. pose proof (nblk_mono (off + n1) (off + n) ltac:(lia)) as Hm2.
  destruct (append_turn V D c fi i old p1 fbn (nblk (off + n1) - nblk off) M Hi) as (V1 & D1 & V2 & c1 & x & R & EV & Hx & A).
  { unfold fbn. by rewrite Eo. }
  { done. }
  { by apply Forall_take. }
  { intros E. rewrite E in Hl1. simpl in Hl1. lia. }
  { unfold fits. rewrite length_app. lia. }
  { lia. }
  { by rewrite El, Eo. }
  { done. }
  { lia. }
  rewrite (kM_bind_run _ _ _ _ _ R). cbv beta iota. rewrite (kM_bind_run _ _ _ _ _ (rsect_run x _ Hx)).
  erewrite kM_bind_run by reflexivity.
  cbn [img freeinode freeblock]. rewrite Eo. fold p1. rewrite <- EV. rewrite <- Eo.
  rewrite u32_small by (unfold is_u32; lia). pose proof (ap_c _ _ _ _ _ _ _ _ _ A) as Hc1.
  set (p2 := drop (Z.to_nat n1) p). assert (Hl2 : Z.of_nat (length p2) = n - n1) by (unfold p2; rewrite length_drop; lia).
  destruct (IH V1 D1 c1 fi i (old ++ p1) p2 (off + n1) (nblk (off + n) - nblk (off + n1)) (ap_inv _ _ _ _ _ _ _ _ _ A) Hi)
    as (V3 & D3 & c3 & R3 & A3).
  - rewrite length_app. lia.
  - apply A.
  - by apply Forall_drop.
  - unfold fits. rewrite !length_app. lia.
  - rewrite Hl2. lia.
  - rewrite Hl2. do 2 f_equal. lia.
  - lia.
  - lia.
  - exists V3, D3, c3. rewrite R3, Hl2. split; [do 3 f_equal; lia|].
    rewrite <- app_assoc in A3. unfold p1, p2 in A3. rewrite take_drop in A3. eapply appended_trans; [exact A|exact A3|lia].
Qed.

(** ** Writing the inode back *)

(** The inode as the image has it. *)
Definition dnode (V : Z -> block) (i : Z) : dinode := decode_dinode (V (IBLOCK i mkfs_sb)) (ioff i).

Lemma IBLOCK_not_data i b : inum_ok i -> isdata b -> b <> IBLOCK i mkfs_sb.
Proof. intros Hi [_ Hb] ->. destruct (IBLOCK_meta i Hi). lia. Qed.

Lemma winode_dnode V i d j : inum_ok i -> inum_ok j -> dinode_ok d -> (forall b, bytes512 (V b)) ->
  dnode (dupd V (IBLOCK i mkfs_sb) (encode_dinode (V (IBLOCK i mkfs_sb)) (ioff i) d)) j = if j =? i then d else dnode V j.
Proof.
  intros Hi Hj Hd HV. unfold dnode. destruct (Z.eqb_spec j i) as [->|Hne].
  - rewrite dupd_eq. apply decode_encode_dinode; [done|]. destruct (HV (IBLOCK i mkfs_sb)) as [-> _]. apply ioff_fits.
  - destruct (decide (IBLOCK j mkfs_sb = IBLOCK i mkfs_sb)) as [E|E]; [|by rewrite dupd_ne by congruence].
    rewrite E, dupd_eq. apply decode_encode_other; [apply Hd|]. apply ioff_apart; done || congruence.
Qed.

(** What the slots and the bytes depend on. *)
Lemma minv_ext V D V' D' fb :
  minv V D fb -> (forall b, isdata b -> V' b = V b) -> (forall b, bytes512 (V' b)) ->
  (forall j, inum_ok j -> dinode_ok (D' j) /\ ((D' j).(d_addrs) = (D j).(d_addrs) \/ (D' j).(d_addrs) = replicate 13 0)) ->
  minv V' D' fb.
Proof.
  intros M HV HB HD.
  assert (E : forall j k, inum_ok j -> (k < 141)%nat -> addr V' D' j k <> 0 -> addr V' D' j k = addr V D j k).
  { intros j k Hj Hk Hnz. destruct (HD j Hj) as [_ [Ed|Ed]].
    - apply addr_ext; [done|]. intros H0. apply HV. by apply (mi_addr _ _ _ M j 12 Hj ltac:(lia)).
    - exfalso. apply Hnz. unfold addr, slot. rewrite Ed. rewrite !nth_replicate_zero. by destruct (k <=? 12)%nat. }
  split; [done|intros j Hj; by apply HD| | | |apply M].
  - intros j k Hj Hk Hnz. pose proof (E j k Hj Hk Hnz) as Ee. rewrite Ee in Hnz |- *. by apply (mi_addr _ _ _ M).
  - intros i k j l Hi Hj Hk Hl Hnz Heq. assert (Hnz' : addr V' D' j l <> 0) by congruence.
    pose proof (E i k Hi Hk Hnz) as Ee. rewrite (E j l Hj Hl Hnz') in Heq. rewrite Ee in Hnz, Heq. by apply (mi_inj _ _ _ M).
  - intros b Hb Hd. rewrite HV by done. by apply M.
Qed.

Lemma holds_ext V D V' D' fb j dat :
  minv V D fb -> (forall b, isdata b -> V' b = V b) -> inum_ok j -> fits dat -> (D' j).(d_addrs) = (D j).(d_addrs) ->
  holds V D j dat -> holds V' D' j dat.
Proof.
  intros M HV Hj Hf Ed [H Hcl].
  assert (Ea : forall k, addr V' D' j k = addr V D j k).
  { intros k. apply addr_ext; [done|]. intros H0. apply HV. by apply (mi_addr _ _ _ M j 12 Hj ltac:(lia)). }
  split.
  - intros q c Hq. destruct (H q c Hq) as [Hnz Hc]. destruct (cslot_data _ (fbn_range _ _ _ Hf Hq)) as [Hs1 Hs2].
    rewrite Ea. split; [done|]. rewrite HV; [done|]. by apply (mi_addr _ _ _ M).
  - intros k r Hk Hr Hle. rewrite Ea. intros Hnz. destruct (cslot_data _ Hk) as [Hs1 Hs2].
    rewrite HV; [by apply Hcl|]. by apply (mi_addr _ _ _ M).
Qed.
