(* ===== verification/MkfsImage.v ===== *)
(** * What mkfs writes

    The state between two calls of mkfs is described by the list of the files
    that the allocated inodes hold.  Every call acts on that list, and the
    list, the bitmap and the super block together are the image. *)

From S2P Require Import Prelude CString Locks Bio BioSpec Layout Log Fs FsBits FsInode FsSpec FsAlloc FsDir Mkfs MkfsSpec.

(** ** Files of the image *)

(** Inode [i] of the image is a file of type [ty] with the bytes [dat]. *)
Record mfile (V : Z -> block) (i ty : Z) (dat : list Z) : Prop := {
  mf_type : (dnode V i).(d_type) = ty;
  mf_nlink : (dnode V i).(d_nlink) = 1;
  mf_size : (dnode V i).(d_size) = Z.of_nat (length dat);
  mf_holds : holds V (dnode V) i dat;
  mf_fits : fits dat
}.

(** The blocks that the files need. *)
Definition total (F : list (Z * list Z)) : Z := foldr (fun f z => nblk (Z.of_nat (length f.2)) + z) 0 F.

Lemma total_app F G : total (F ++ G) = total F + total G.
Proof. induction F as [|f F IH]; simpl; [done|]. rewrite IH. lia. Qed.

Lemma total_insert F k f g : F !! k = Some f ->
  total (<[k := g]> F) = total F - nblk (Z.of_nat (length f.2)) + nblk (Z.of_nat (length g.2)).
Proof.
  revert k. induction F as [|h F IH]; intros [|k] H; simplify_eq/=; [lia|]. rewrite (IH k H). lia.
Qed.

(** The inodes that were allocated hold the files [F], the first in inode 1. *)
Record sinv (s : mkst) (F : list (Z * list Z)) : Prop := {
  si_inv : minv s.(img) (dnode s.(img)) s.(freeblock);
  si_count : exists c, s.(freeblock) = dpos c /\ 0 <= c <= total F;
  si_next : s.(freeinode) = 1 + Z.of_nat (length F);
  si_room : 1 + Z.of_nat (length F) <= 3168;
  si_files : forall k ty dat, F !! k = Some (ty, dat) -> mfile s.(img) (1 + Z.of_nat k) ty dat
}.

(** A block that neither holds inodes nor data. *)
Definition plain (b : Z) : Prop := ~ isdata b /\ forall i, inum_ok i -> b <> IBLOCK i mkfs_sb.

(** Plain blocks were left alone. *)
Definition frame (s s' : mkst) : Prop := forall b, plain b -> s'.(img) b = s.(img) b.

Lemma frame_trans s s1 s2 : frame s s1 -> frame s1 s2 -> frame s s2.
Proof. intros A B b Hb. by rewrite B, A. Qed.

(** Writing inode [i], with its addresses kept or cleared. *)
Lemma winode_run s D i d :
  minv s.(img) D s.(freeblock) -> inum_ok i -> dinode_ok d -> (forall j, inum_ok j -> j <> i -> D j = dnode s.(img) j) ->
  d.(d_addrs) = (D i).(d_addrs) \/ d.(d_addrs) = replicate 13 0 ->
  exists V', winode i d s = Ok (tt, mk_mkst V' s.(freeinode) s.(freeblock)) /\
    minv V' (dnode V') s.(freeblock) /\ dnode V' i = d /\
    (forall j, inum_ok j -> j <> i -> dnode V' j = D j) /\
    (forall j dat, inum_ok j -> j <> i \/ d.(d_addrs) = (D i).(d_addrs) -> fits dat ->
       holds s.(img) D j dat -> holds V' (dnode V') j dat) /\
    (forall b, b <> IBLOCK i mkfs_sb -> V' b = s.(img) b).
Proof.
  intros M Hi Hd HD Ha. set (V' := dupd s.(img) (IBLOCK i mkfs_sb) (encode_dinode (s.(img) (IBLOCK i mkfs_sb)) (ioff i) d)).
  assert (HV : forall b, b <> IBLOCK i mkfs_sb -> V' b = s.(img) b) by (intros; by apply dupd_ne).
  assert (HVd : forall b, isdata b -> V' b = s.(img) b) by (intros b Hb; by apply HV, IBLOCK_not_data).
  assert (Hn : forall j, inum_ok j -> dnode V' j = if j =? i then d else D j).
  { intros j Hj. unfold V'. rewrite winode_dnode by (done || apply M). destruct (Z.eqb_spec j i); [done|]. by rewrite HD. }
  assert (Hne : forall j, inum_ok j -> j <> i -> dnode V' j = D j).
  { intros j Hj Hji. rewrite Hn by done. by destruct (Z.eqb_spec j i). }
  assert (Heq : dnode V' i = d) by (rewrite Hn by done; by rewrite Z.eqb_refl).
  exists V'. split.
  { unfold winode. destruct (IBLOCK_meta i Hi). rewrite (kM_bind_run _ _ _ _ _ (rsect_run (IBLOCK i mkfs_sb) s ltac:(unfold FSSIZE; lia))). done. }
  split; [|split; [done|split; [done|split; [|done]]]].
  - apply (minv_ext s.(img) D); [done|done| |].
    + intros b. unfold V', dupd. case_bool; [apply encode_bytes, M|apply M].
    + intros j Hj. destruct (Z.eq_dec j i) as [->|Hji]; [by rewrite Heq|]. rewrite Hne by done. split; [by apply M|by left].
  - intros j dat Hj Hor Hf. apply (holds_ext _ D _ _ s.(freeblock)); [done|done|done|done|].
    destruct (Z.eq_dec j i) as [->|Hji]; [rewrite Heq; by destruct Hor|by rewrite Hne].
Qed.

Lemma rinode_run s i : inum_ok i -> rinode i s = Ok (dnode s.(img) i, s).
Proof.
  intros Hi. unfold rinode. destruct (IBLOCK_meta i Hi).
  by rewrite (kM_bind_run _ _ _ _ _ (rsect_run (IBLOCK i mkfs_sb) s ltac:(unfold FSSIZE; lia))).
Qed.

Lemma iappend_run s F k ty old p :
  sinv s F -> F !! k = Some (ty, old) -> Forall is_u8 p -> fits (old ++ p) ->
  total (<[k := (ty, old ++ p)]> F) <= room ->
  exists s', iappend (1 + Z.of_nat k) p s = Ok (tt, s') /\ sinv s' (<[k := (ty, old ++ p)]> F) /\ frame s s'.
Proof.
  intros [M (c & Ec & Hc) Hnx Hrm HF] Hk Hp Hf Htot. destruct s as [V fi fb]. cbn [img freeinode freeblock] in *. subst fb.
  pose proof (lookup_lt_Some _ _ _ Hk) as Hlk. set (i := 1 + Z.of_nat k). assert (Hi : inum_ok i) by (unfold inum_ok; lia).
  destruct (HF k ty old Hk) as [H1 H2 H3 H4 H5]. fold i in H1, H2, H3, H4. unfold iappend.
  rewrite (kM_bind_run _ _ _ _ _ (rinode_run (mk_mkst V fi (dpos c)) i Hi)).
  cbn [img]. rewrite (xint_id (d_size (dnode V i))) by (by apply (mi_dok _ _ _ M)).
  rewrite (total_insert F k (ty, old) _ Hk) in *. cbn [snd] in *.
  unfold fits in Hf. rewrite length_app in Hf, Htot.
  pose proof (turns_bound (d_size (dnode V i)) (Z.of_nat (length p)) ltac:(lia) ltac:(lia)) as Htb.
  destruct (iappend_loop_run (length p / 512 + 3) V (dnode V) c fi i old p (d_size (dnode V i))
    (nblk (Z.of_nat (length old + length p)) - nblk (Z.of_nat (length old))) M Hi H3 H4 Hp)
    as (V1 & D1 & c1 & R & A).
  { unfold fits. rewrite length_app. lia. }
  { rewrite Nat2Z.inj_add, Nat2Z.inj_div. change (Z.of_nat 512) with 512. lia. }
  { rewrite H3. do 2 f_equal. lia. }
  { lia. }
  { lia. }
  rewrite (kM_bind_run _ _ _ _ _ R). cbv beta iota. rewrite H3, xint_id by (unfold is_u32; lia).
  set (d := set_size (D1 i) (Z.of_nat (length old) + Z.of_nat (length p))).
  destruct (ap_meta _ _ _ _ _ _ _ _ _ A) as (E1 & E2 & E3 & E4 & E5).
  assert (Hd : dinode_ok d).
  { destruct (mi_dok _ _ _ (ap_inv _ _ _ _ _ _ _ _ _ A) i Hi). split; try done. cbn. unfold is_u32. lia. }
  assert (HD1 : forall j, inum_ok j -> j <> i -> D1 j = dnode V1 j).
  { intros j Hj Hji. rewrite (ap_others _ _ _ _ _ _ _ _ _ A j Hji). unfold dnode. rewrite (ap_blocks _ _ _ _ _ _ _ _ _ A); [done|].
    intros Hdt. by apply (IBLOCK_not_data j _ Hj Hdt). }
  destruct (winode_run (mk_mkst V1 fi (dpos c1)) D1 i d (ap_inv _ _ _ _ _ _ _ _ _ A) Hi Hd HD1 ltac:(by left))
    as (V2 & R2 & M2 & Hi2 & Hj2 & Hh2 & Hb2). cbn [img freeinode freeblock] in *.
  exists (mk_mkst V2 fi (dpos c1)). split; [exact R2|]. split; [split; cbn [img freeinode freeblock]|].
  - done.
  - exists c1. rewrite (total_insert F k (ty, old) _ Hk). cbn [snd]. rewrite length_app.
    pose proof (ap_c _ _ _ _ _ _ _ _ _ A). split; [done|lia].
  - by rewrite length_insert.
  - by rewrite length_insert.
  - intros k' ty' dat' Hk'. apply list_lookup_insert_Some in Hk' as [(<- & [= <- <-] & _)|[Hkk Hk']].
    + fold i. split; rewrite ?Hi2; cbn; try congruence.
      * rewrite length_app. lia.
      * apply Hh2; [done|by right|unfold fits; rewrite length_app; lia|apply A].
      * unfold fits. rewrite length_app. lia.
    + pose proof (lookup_lt_Some _ _ _ Hk') as Hlk'. destruct (HF k' ty' dat' Hk') as [G1 G2 G3 G4 G5].
      assert (Hi' : inum_ok (1 + Z.of_nat k')) by (unfold inum_ok; lia). assert (Hne : 1 + Z.of_nat k' <> i) by lia.
      assert (Ed : dnode V2 (1 + Z.of_nat k') = dnode V (1 + Z.of_nat k')) by (rewrite Hj2 by done; by apply A).
      split; rewrite ?Ed; try done. apply Hh2; [done|by left|done|]. by apply (ap_files _ _ _ _ _ _ _ _ _ A).
  - intros b [Hb1 Hb2']. cbn [img]. rewrite Hb2 by (by apply Hb2'). by apply (ap_blocks _ _ _ _ _ _ _ _ _ A).
Qed.

Lemma xshort_id x : 0 <= x < 2 ^ 15 -> xshort x = x.
Proof.
  intros Hx. unfold xshort. rewrite Z.shiftr_div_pow2 by lia. unfold u8.
  rewrite (Z.mod_small (x / 2 ^ 8)) by (split; [apply Z.div_pos|apply Z.div_lt_upper_bound]; lia).
  pose proof (Z.div_mod x (2 ^ 8)). lia.
Qed.

Lemma ialloc_run s F ty :
  sinv s F -> 1 + Z.of_nat (length F) < 3168 -> 0 <= ty < 2 ^ 15 ->
  exists s', mk_ialloc ty s = Ok (1 + Z.of_nat (length F), s') /\ sinv s' (F ++ [(ty, [])]) /\ frame s s'.
Proof.
  intros [M (c & Ec & Hc) Hnx Hrm HF] Hroom Hty. set (i := 1 + Z.of_nat (length F)) in *. assert (Hi : inum_ok i) by (unfold inum_ok; lia).
  unfold mk_ialloc. erewrite kM_bind_run by reflexivity. erewrite kM_bind_run by reflexivity.
  rewrite Hnx, (xshort_id ty), (xshort_id 1), (xint_id 0), u32_small by (done || lia || (unfold is_u32; lia)).
  set (d := set_size _ _). set (s1 := mk_mkst s.(img) (i + 1) s.(freeblock)).
  assert (Hd : dinode_ok d).
  { split; cbn; unfold is_s16, is_u32; try lia. repeat (apply Forall_cons; split; [unfold is_u32; lia|]). apply Forall_nil_2. }
  destruct (winode_run s1 (dnode s.(img)) i d M Hi Hd ltac:(done) ltac:(by right)) as (V2 & R2 & M2 & Hi2 & Hj2 & Hh2 & Hb2).
  rewrite (kM_bind_run _ _ _ _ _ R2), kM_ret_run. cbn [img freeinode freeblock s1] in *. eexists. split; [done|].
  split; [split; cbn [img freeinode freeblock]|].
  - done.
  - exists c. split; [done|]. rewrite total_app. change (total [(ty, [])]) with 0. lia.
  - rewrite length_app. simpl. lia.
  - rewrite length_app. simpl. lia.
  - intros k ty' dat Hk. apply lookup_app_Some in Hk as [Hk|[Hk1 Hk2]].
    + pose proof (lookup_lt_Some _ _ _ Hk) as Hlk'. destruct (HF k ty' dat Hk) as [G1 G2 G3 G4 G5].
      assert (Hi' : inum_ok (1 + Z.of_nat k)) by (unfold inum_ok; lia). assert (Hne : 1 + Z.of_nat k <> i) by lia.
      split; rewrite ?Hj2 by done; try done. apply Hh2; [done|by left|done|done].
    + apply list_lookup_singleton_Some in Hk2 as [Hk3 [= <- <-]]. replace (1 + Z.of_nat k) with i by lia.
      split; rewrite ?Hi2; try done. split; [done|]. intros q r Hq Hr Hle Hnz. exfalso. apply Hnz.
      unfold addr, slot. rewrite Hi2. change (d_addrs d) with (replicate 13 0). rewrite !nth_replicate_zero. by destruct (_ <=? 12)%nat.
  - intros b [Hb1 Hb2']. cbn [img]. apply Hb2. by apply Hb2'.
Qed.

(** ** The files of the command line *)

Lemma mk_de_bytes name i : Forall is_u8 name -> Forall is_u8 (mk_de name i) /\ length (mk_de name i) = 16%nat.
Proof. intros Hn. split; [by apply mk_dirent_u8|apply mk_dirent_length]. Qed.

Lemma chunks_spec n : forall p, (length p <= n)%nat -> Forall is_u8 p ->
  concat (chunks n p) = p /\ Forall (Forall is_u8) (chunks n p).
Proof.
  induction n as [|n IH]; intros p Hl Hp.
  { destruct p; [|simpl in Hl; lia]. split; [done|apply Forall_nil_2]. }
  destruct p as [|c p]; [split; [done|apply Forall_nil_2]|]. cbn [chunks]. set (q := c :: p) in *.
  assert (Hq : length q = S (length p)) by done.
  destruct (IH (drop BSIZE q)) as (E1 & E2).
  { rewrite length_drop. unfold BSIZE. lia. }
  { by apply Forall_drop. }
  split.
  - cbn [concat]. rewrite E1. apply take_drop.
  - apply Forall_cons. split; [by apply Forall_take|done].
Qed.

Lemma append_all_run cs : forall s F k ty old,
  sinv s F -> F !! k = Some (ty, old) -> Forall (Forall is_u8) cs ->
  fits (old ++ concat cs) -> total (<[k := (ty, old ++ concat cs)]> F) <= room ->
  exists s', append_all (1 + Z.of_nat k) cs s = Ok (tt, s') /\ sinv s' (<[k := (ty, old ++ concat cs)]> F) /\ frame s s'.
Proof.
  induction cs as [|c cs IH]; intros s F k ty old HS Hk Hcs Hf Htot.
  { exists s. simpl. rewrite app_nil_r. split; [done|]. split; [|done]. by rewrite list_insert_id. }
  apply Forall_cons in Hcs as [Hc Hcs]. cbn [append_all concat] in *.
  unfold fits in Hf. rewrite !length_app in Hf. rewrite (total_insert F k (ty, old) _ Hk) in Htot. cbn [snd] in Htot.
  rewrite !length_app in Htot.
  pose proof (nblk_mono (Z.of_nat (length old + length c)) (Z.of_nat (length old + (length c + length (concat cs)))) ltac:(lia)) as Hmo.
  destruct (iappend_run s F k ty old c HS Hk Hc) as (s1 & R1 & S1 & G1).
  { unfold fits. rewrite length_app. lia. }
  { rewrite (total_insert F k (ty, old) _ Hk). cbn [snd]. rewrite length_app. lia. }
  destruct (IH s1 _ k ty (old ++ c) S1) as (s2 & R2 & S2 & G2).
  { apply list_lookup_insert_eq. by eapply lookup_lt_Some. }
  { done. }
  { unfold fits. rewrite !length_app. lia. }
  { rewrite list_insert_insert_eq, (total_insert F k (ty, old) _ Hk). cbn [snd]. rewrite <- app_assoc, !length_app. lia. }
  exists s2. rewrite (kM_bind_run _ _ _ _ _ R1), R2. rewrite list_insert_insert_eq, <- app_assoc in S2.
  split; [done|]. split; [done|]. by eapply frame_trans.
Qed.

(** A file named on the command line. *)
Definition file_ok (f : list Z * list Z) : Prop :=
  ~ (slash ∈ f.1) /\ Forall is_u8 f.1 /\ Forall is_u8 f.2 /\ fits f.2.

(** The name without its leading underscore. *)
Definition img_name (name : list Z) : list Z :=
  match name with c :: rest => if c =? 95 then rest else name | [] => [] end.

Lemma img_name_bytes name : Forall is_u8 name -> Forall is_u8 (img_name name).
Proof.
  intros H. destruct name as [|c r]; [done|]. simpl. apply Forall_cons in H as H'. case_bool; [apply H'|done].
Qed.

Lemma insert_last {A} (x y z : A) l : <[S (length l) := z]> (x :: l ++ [y]) = x :: l ++ [z].
Proof.
  change (<[S (length l) := z]> (x :: l ++ [y])) with (x :: <[length l := z]> (l ++ [y])).
  by rewrite insert_app_r_alt, Nat.sub_diag by lia.
Qed.

Lemma total_cons f F : total (f :: F) = nblk (Z.of_nat (length f.2)) + total F.
Proof. done. Qed.

Lemma add_file_run s root tl f :
  sinv s ((T_DIR, root) :: tl) -> file_ok f -> 2 + Z.of_nat (length tl) < 3168 ->
  Z.of_nat (length root) + 16 <= 71680 ->
  nblk (Z.of_nat (length root + 16)) + total tl + nblk (Z.of_nat (length f.2)) <= room ->
  exists s', add_file 1 f s = Ok (tt, s') /\
    sinv s' ((T_DIR, root ++ mk_de (img_name f.1) (2 + Z.of_nat (length tl))) :: tl ++ [(T_FILE, f.2)]) /\ frame s s'.
Proof.
  destruct f as [name data]. intros HS (Hsl & Hnm & Hdt & Hft) Hroom Hroot Htot. cbn [fst snd] in *. unfold add_file.
  rewrite bool_decide_false by done. fold (img_name name).
  destruct (ialloc_run s _ T_FILE HS) as (s1 & R1 & S1 & G1); [cbn [length]; lia|unfold T_FILE; lia|].
  rewrite (kM_bind_run _ _ _ _ _ R1). cbn [length] in *. rewrite Nat2Z.inj_succ. unfold Z.succ.
  replace (1 + (Z.of_nat (length tl) + 1)) with (2 + Z.of_nat (length tl)) by lia.
  set (i := 2 + Z.of_nat (length tl)). cbn [app] in S1. pose proof (nblk_mono 0 (Z.of_nat (length data)) ltac:(lia)) as Hnn.
  change (nblk 0) with 0 in Hnn.
  destruct (mk_de_bytes (img_name name) i (img_name_bytes _ Hnm)) as [Hde Hdl].
  destruct (iappend_run s1 _ 0 T_DIR root (mk_de (img_name name) i) S1 eq_refl Hde) as (s2 & R2 & S2 & G2).
  { unfold fits. rewrite length_app. lia. }
  { change (<[0%nat:=?v]> (?w :: ?l)) with (v :: l). rewrite total_cons, total_app. cbn [snd].
    change (total [(T_FILE, [])]) with 0. rewrite length_app, Hdl. lia. }
  change (1 + Z.of_nat 0) with 1 in R2. rewrite (kM_bind_run _ _ _ _ _ R2).
  change (<[0%nat:=?v]> (?w :: ?l)) with (v :: l) in S2.
  destruct (chunks_spec (length data) data ltac:(done) Hdt) as (E1 & E2). unfold fits in Hft.
  destruct (append_all_run (chunks (length data) data) s2 _ (S (length tl)) T_FILE [] S2) as (s3 & R3 & S3 & G3).
  { change ((tl ++ [(T_FILE, [])]) !! length tl = Some (T_FILE, [])). by rewrite lookup_app_r, Nat.sub_diag by lia. }
  { done. }
  { simpl. rewrite E1. done. }
  { rewrite insert_last, total_cons, total_app. cbn [snd]. rewrite length_app, Hdl, E1. cbn [app]. rewrite total_cons. cbn [snd].
    change (total []) with 0. lia. }
  exists s3. replace i with (1 + Z.of_nat (S (length tl))) by lia. split; [done|]. rewrite E1 in S3. cbn [app] in S3.
  replace (1 + Z.of_nat (S (length tl))) with i by lia. split; [by rewrite insert_last in S3|].
  eapply frame_trans; [exact G1|]. by eapply frame_trans.
Qed.

(** The entries of the root directory for the files, from inode [i] on. *)
Fixpoint entries (i : Z) (fs : list (list Z * list Z)) : list Z :=
  match fs with
  | [] => []
  | f :: fs => mk_de (img_name f.1) i ++ entries (i + 1) fs
  end.

Definition root_entries (fs : list (list Z * list Z)) : list Z :=
  mk_de (lit ".") 1 ++ mk_de (lit "..") 1 ++ entries 2 fs.

Definition image_files (fs : list (list Z * list Z)) : list (Z * list Z) := map (fun f => (T_FILE, f.2)) fs.

Lemma total_image fs : 0 <= total (image_files fs).
Proof.
  induction fs as [|f fs IH]; [done|]. cbn [image_files map]. rewrite total_cons. cbn [snd].
  pose proof (nblk_mono 0 (Z.of_nat (length f.2)) ltac:(lia)) as H. change (nblk 0) with 0 in H. unfold image_files in IH. lia.
Qed.

Lemma add_files_run fs : forall s root tl,
  sinv s ((T_DIR, root) :: tl) -> Forall file_ok fs -> 1 + Z.of_nat (length tl + length fs) < 3168 ->
  Z.of_nat (length root + 16 * length fs) <= 71680 ->
  nblk (Z.of_nat (length root + 16 * length fs)) + total tl + total (image_files fs) <= room ->
  exists s', add_files 1 fs s = Ok (tt, s') /\
    sinv s' ((T_DIR, root ++ entries (2 + Z.of_nat (length tl)) fs) :: tl ++ image_files fs) /\ frame s s'.
Proof.
  induction fs as [|f fs IH]; intros s root tl HS Hfs Hroom Hroot Htot.
  { exists s. cbn. rewrite !app_nil_r. done. }
  apply Forall_cons in Hfs as [Hf Hfs]. cbn [length add_files] in *.
  cbn [image_files map] in Htot. rewrite total_cons in Htot. cbn [snd] in Htot. fold (image_files fs) in Htot.
  pose proof (total_image fs) as Hti.
  pose proof (nblk_mono (Z.of_nat (length root + 16)) (Z.of_nat (length root + 16 * S (length fs))) ltac:(lia)) as Hmo.
  destruct (add_file_run s root tl f HS Hf) as (s1 & R1 & S1 & G1); [lia..|].
  destruct (mk_de_bytes (img_name f.1) (2 + Z.of_nat (length tl))) as [_ Hdl].
  { apply img_name_bytes, Hf. }
  destruct (IH s1 _ _ S1 Hfs) as (s2 & R2 & S2 & G2).
  { rewrite length_app. simpl. lia. }
  { rewrite length_app, Hdl. lia. }
  { rewrite length_app, Hdl, total_app, total_cons. cbn [snd]. change (total []) with 0.
    replace (length root + 16 + 16 * length fs)%nat with (length root + 16 * S (length fs))%nat by lia. lia. }
  exists s2. rewrite (kM_bind_run _ _ _ _ _ R1). split; [done|]. split; [|by eapply frame_trans].
  rewrite <- !app_assoc in S2. cbn [entries image_files map app]. rewrite length_app in S2. cbn [length] in S2.
  replace (2 + Z.of_nat (length tl + 1)) with (2 + Z.of_nat (length tl) + 1) in S2 by lia. exact S2.
Qed.

(** ** The empty image *)

Lemma zero_short n : get16 (replicate BSIZE 0) n = 0.
Proof. unfold get16. by rewrite !nth_replicate_zero. Qed.

Lemma zero_dnode V i : inum_ok i -> V (IBLOCK i mkfs_sb) = replicate BSIZE 0 -> dnode V i = dinode0.
Proof.
  intros Hi E. unfold dnode, decode_dinode. rewrite E, !zero_short, zero_word. unfold dinode0. f_equal.
  cbn [seq map]. by rewrite !zero_word.
Qed.

Lemma sinv0 : sinv mkst0 [].
Proof.
  assert (Hd : forall i, inum_ok i -> dnode (img mkst0) i = dinode0).
  { intros i Hi. apply zero_dnode; [done|]. cbn [img mkst0]. rewrite dupd_ne; [done|]. destruct (IBLOCK_meta i Hi). lia. }
  assert (Ha : forall i k, inum_ok i -> (k < 141)%nat -> addr (img mkst0) (dnode (img mkst0)) i k = 0).
  { intros i k Hi Hk. unfold addr, slot. rewrite Hd by done. cbn [d_addrs dinode0]. rewrite !nth_replicate_zero. by destruct (k <=? 12)%nat. }
  split; [split|by exists 0|done|done|done].
  - intros b. cbn [img mkst0]. unfold dupd. case_bool; [|apply bytes512_zero]. unfold encode_sb. repeat apply put32_bytes. apply bytes512_zero.
  - intros i Hi. rewrite Hd by done. split; cbn; unfold is_s16, is_u32; try lia.
    repeat (apply Forall_cons; split; [unfold is_u32; lia|]). apply Forall_nil_2.
  - intros i k Hi Hk. by rewrite Ha.
  - intros i k j l Hi Hj Hk Hl. by rewrite Ha.
  - intros b Hb [Hb1 _]. cbn [img mkst0]. rewrite dupd_ne; [done|lia].
  - split; [done|]. by vm_compute.
Qed.

(** ** The bitmap *)

Lemma mark_bytes buf i : bytes512 buf -> bytes512 (mark buf i).
Proof. apply bytes512_insert. Qed.

Lemma mark_meta_bit k : forall i buf j, bytes512 buf -> 0 <= i -> i + Z.of_nat k <= 4096 -> 0 <= j ->
  bytes512 (mark_meta i k buf) /\
  bit_set (mark_meta i k buf) j = ((i <=? j) && (j <? i + Z.of_nat k)) || bit_set buf j.
Proof.
  induction k as [|k IH]; intros i buf j Hb Hi Hk Hj; cbn [mark_meta].
  { split; [done|]. case_bools; done || lia. }
  destruct (IH (i + 1) (mark buf i) j (mark_bytes _ _ Hb)) as [H1 H2]; [lia|lia|done|]. split; [done|].
  rewrite H2, bit_set_mark by (lia || (destruct Hb as [-> _]; unfold BSIZE; lia)). case_bools; done || lia.
Qed.

Lemma mark_data_bit gs u k : forall i buf j, bytes512 buf -> 0 <= i -> i + Z.of_nat k <= 4096 -> 0 <= j ->
  bytes512 (mark_data gs u i k buf) /\
  bit_set (mark_data gs u i k buf) j = ((i <=? j) && (j <? i + Z.of_nat k) && (gs + j <? u)) || bit_set buf j.
Proof.
  induction k as [|k IH]; intros i buf j Hb Hi Hk Hj; cbn [mark_data].
  { split; [done|]. case_bools; done || lia. }
  set (buf1 := if gs + i <? u then mark buf i else buf).
  assert (Hb1 : bytes512 buf1) by (unfold buf1; destruct (gs + i <? u); [by apply mark_bytes|done]).
  destruct (IH (i + 1) buf1 j Hb1) as [H1 H2]; [lia|lia|done|]. split; [done|]. rewrite H2. unfold buf1.
  destruct (gs + i <? u) eqn:E; [rewrite bit_set_mark by (lia || (destruct Hb as [-> _]; unfold BSIZE; lia))|]; case_bools; done || lia.
Qed.

Lemma zero_bit j : bit_set (replicate BSIZE 0) j = false.
Proof. unfold bit_set. by rewrite nth_replicate_zero. Qed.

(** The bitmap of group [g] when [u] is the next free block. *)
Definition group_bits (u g : Z) : block :=
  mark_data (32 + g * 200) u 5 195 (mark_meta 0 5 (replicate BSIZE 0)).

Lemma group_bits_eq u g :
  group_bits u g = mark_data (32 + g * 200) u 5 195 (mark_meta 0 5 (replicate BSIZE 0)).
Proof. reflexivity. Qed.

Lemma group_bits_spec u g j : 0 <= j < 200 ->
  bytes512 (group_bits u g) /\ bit_set (group_bits u g) j = (j <? 5) || (32 + g * 200 + j <? u).
Proof.
  intros Hj. rewrite group_bits_eq. generalize (replicate BSIZE 0), bytes512_zero, zero_bit. intros z Hz Ez.
  destruct (mark_meta_bit 5 0 z j Hz ltac:(lia) ltac:(lia) ltac:(lia)) as [B1 E1]. revert B1 E1. generalize (mark_meta 0 5 z). intros m B1 E1.
  destruct (mark_data_bit (32 + g * 200) u 195 5 m j B1 ltac:(lia) ltac:(lia) ltac:(lia)) as [B2 E2]. split; [exact B2|].
  rewrite E2, E1, Ez. clear - Hj. change (Z.of_nat 5) with 5. change (Z.of_nat 195) with 195. case_bools; lia || reflexivity.
Qed.

Lemma bitmap_groups_step u g k s :
  mk_balloc_groups u g (S k) s =
  mk_balloc_groups u (g + 1) k (mk_mkst (dupd (img s) (36 + g * 200) (group_bits u g)) (freeinode s) (freeblock s)).
Proof.
  assert (E1 : mk_global_start = 32) by reflexivity. assert (E2 : IPG / IPB = 4) by reflexivity.
  assert (E3 : Z.to_nat meta_per_group = 5%nat) by reflexivity.
  assert (E4 : Z.to_nat (200 - meta_per_group) = 195%nat) by reflexivity. assert (E5 : meta_per_group = 5) by reflexivity.
  cbn [mk_balloc_groups]. rewrite E1, E2. unfold BPG. rewrite E3, E4, E5, <- group_bits_eq.
  replace (32 + g * 200 + 4) with (36 + g * 200) by lia. generalize (group_bits u g). intros bits. reflexivity.
Qed.

Lemma bitmap_groups_run u k : forall g s, 0 <= g ->
  exists V', mk_balloc_groups u g k s = Ok (tt, mk_mkst V' s.(freeinode) s.(freeblock)) /\
    (forall g', g <= g' < g + Z.of_nat k -> V' (36 + g' * 200) = group_bits u g') /\
    (forall b, (forall g', g <= g' < g + Z.of_nat k -> b <> 36 + g' * 200) -> V' b = s.(img) b).
Proof.
  induction k as [|k IH]; intros g s Hg.
  { exists s.(img). destruct s. split; [done|]. split; [intros; lia|done]. }
  rewrite bitmap_groups_step.
  destruct (IH (g + 1) (mk_mkst (dupd (img s) (36 + g * 200) (group_bits u g)) (freeinode s) (freeblock s)) ltac:(lia))
    as (V' & R & H1 & H2).
  cbn [img freeinode freeblock] in *. exists V'. split; [exact R|split].
  - intros g' Hg'. destruct (Z.eq_dec g' g) as [->|]; [|apply H1; lia]. rewrite H2 by (intros; lia). apply dupd_eq.
  - intros b Hb. rewrite H2 by (intros; apply Hb; lia). apply dupd_ne. intros E. by apply (Hb g); [lia|].
Qed.

(** ** The whole program *)

(** The files and the directory, the bitmap aside. *)
Record tree_ok (files : list (list Z * list Z)) (V : Z -> block) (fb : Z) : Prop := {
  tr_slots : minv V (dnode V) fb;
  tr_files : forall k name data, files !! k = Some (name, data) -> mfile V (2 + Z.of_nat k) T_FILE data;
  tr_root : (dnode V 1).(d_type) = T_DIR /\ (dnode V 1).(d_nlink) = 1 /\
    (dnode V 1).(d_size) = (Z.of_nat (length (root_entries files)) / 512 + 1) * 512 /\
    holds V (dnode V) 1 (root_entries files)
}.

Lemma entries_length fs : forall i, Forall file_ok fs -> length (entries i fs) = (16 * length fs)%nat.
Proof.
  induction fs as [|f fs IH]; intros i H; [done|]. apply Forall_cons in H as [Hf H]. cbn [entries length].
  rewrite length_app, (IH _ H). destruct (mk_de_bytes (img_name f.1) i) as [_ ->]; [apply img_name_bytes, Hf|lia].
Qed.

Lemma mkfile_lookup (root : Z * list Z) fs k name data :
  fs !! k = Some (name, data) -> (root :: image_files fs) !! S k = Some (T_FILE, data).
Proof. intros H. change (image_files fs !! k = Some (T_FILE, data)). unfold image_files. change (map ?f fs) with (f <$> fs). by rewrite list_lookup_fmap, H. Qed.

Lemma fix_root_run s files :
  sinv s ((T_DIR, root_entries files) :: image_files files) ->
  exists V, fix_root 1 s = Ok (tt, mk_mkst V s.(freeinode) s.(freeblock)) /\ tree_ok files V s.(freeblock) /\
    frame s (mk_mkst V s.(freeinode) s.(freeblock)).
Proof.
  intros [M _ Hnx Hrm HF]. destruct (HF 0%nat T_DIR (root_entries files) eq_refl) as [H1 H2 H3 H4 H5].
  change (1 + Z.of_nat 0) with 1 in *. assert (Hi : inum_ok 1) by (unfold inum_ok; lia). unfold fits in H5.
  unfold fix_root. rewrite (kM_bind_run _ _ _ _ _ (rinode_run s 1 Hi)). set (d := dnode s.(img) 1) in *.
  set (n := Z.of_nat (length (root_entries files))) in *.
  assert (Hn : 0 <= (n / 512 + 1) * 512 < 2 ^ 32).
  { pose proof (Z.div_pos n 512). pose proof (Z.div_le_mono n 71680 512). change (71680 / 512) with 140 in *. lia. }
  rewrite H3, (xint_id n), (u32_small ((n / 512 + 1) * 512)), xint_id by (unfold is_u32; lia).
  assert (Hd : dinode_ok (set_size d ((n / 512 + 1) * 512))).
  { destruct (mi_dok _ _ _ M 1 Hi). split; done. }
  destruct (winode_run s (dnode s.(img)) 1 _ M Hi Hd ltac:(done) ltac:(by left)) as (V2 & R2 & M2 & Hi2 & Hj2 & Hh2 & Hb2).
  exists V2. split; [done|]. split; [split; [done| |]|].
  - intros k name data Hk. pose proof (mkfile_lookup (T_DIR, root_entries files) _ _ _ _ Hk) as Hk'.
    destruct (HF _ _ _ Hk') as [G1 G2 G3 G4 G5]. apply lookup_lt_Some in Hk' as Hlt.
    replace (1 + Z.of_nat (S k)) with (2 + Z.of_nat k) in * by lia.
    assert (Hki : inum_ok (2 + Z.of_nat k)) by (unfold inum_ok; lia).
    split; rewrite ?Hj2 by lia || done; try done. apply Hh2; [done|by left; lia|done|done].
  - rewrite Hi2. split; [done|]. split; [done|]. split; [done|]. apply Hh2; [done|by right|done|done].
  - intros b [_ Hb]. cbn [img]. apply Hb2. by apply Hb.
Qed.

(** The tree does not depend on the plain blocks. *)
Lemma tree_ok_plain files V V' fb :
  tree_ok files V fb -> (forall b, ~ plain b -> V' b = V b) -> (forall b, bytes512 (V' b)) ->
  Z.of_nat (length files) <= 3166 -> fits (root_entries files) -> tree_ok files V' fb.
Proof.
  intros [M HF (R1 & R2 & R3 & R4)] HV HB Hl Hfit.
  assert (HVd : forall b, isdata b -> V' b = V b) by (intros b Hb; apply HV; by intros [? _]).
  assert (Hd : forall j, inum_ok j -> dnode V' j = dnode V j).
  { intros j Hj. unfold dnode. rewrite HV; [done|]. intros [_ H]. by apply (H j). }
  assert (Hh : forall j dat, inum_ok j -> fits dat -> holds V (dnode V) j dat -> holds V' (dnode V') j dat).
  { intros j dat Hj Hf. apply (holds_ext _ _ _ _ fb); [done|done|done|done|by rewrite Hd]. }
  assert (H1 : inum_ok 1) by (unfold inum_ok; lia). split.
  - apply (minv_ext V (dnode V)); [done|done|done|]. intros j Hj. rewrite Hd by done. split; [by apply M|by left].
  - intros k name data Hk. apply lookup_lt_Some in Hk as Hlt. destruct (HF k name data Hk) as [G1 G2 G3 G4 G5].
    assert (Hj : inum_ok (2 + Z.of_nat k)) by (unfold inum_ok; lia). split; rewrite ?Hd by done; try done. by apply Hh.
  - rewrite Hd by done. split; [done|]. split; [done|]. split; [done|]. by apply Hh.
Qed.

Lemma mkfs_geo : geo mkfs_sb FSSIZE.
Proof. split; vm_compute; repeat split; congruence || discriminate. Qed.

Lemma used_val V b : 32 <= b < 19832 -> used mkfs_sb V b = bit_set (V (36 + (b - 32) / 200 * 200)) ((b - 32) mod 200).
Proof.
  intros Hb. assert (Eg : gs mkfs_sb = 32) by reflexivity. assert (Ee : gend mkfs_sb = 19832) by reflexivity.
  unfold used. rewrite (BBLOCK_group FSSIZE mkfs_sb mkfs_geo) by (by rewrite Eg, Ee). unfold bmapblk.
  assert (Eb : sb_bpg mkfs_sb = 200) by reflexivity. assert (Ei : sb_ipg mkfs_sb / IPB = 4) by reflexivity.
  rewrite Eg, Eb, Ei. do 2 f_equal. lia.
Qed.

Lemma bitmap_plain g : 0 <= g < 99 -> plain (36 + g * 200).
Proof.
  intros Hg. split.
  - intros [_ H]. replace (36 + g * 200 - 32) with (4 + g * 200) in H by lia. rewrite Z.mod_add in H by lia. by vm_compute in H.
  - intros i Hi E. destruct (IBLOCK_meta i Hi) as [_ H]. rewrite <- E in H.
    replace (36 + g * 200 - 32) with (4 + g * 200) in H by lia. rewrite Z.mod_add in H by lia. by vm_compute in H.
Qed.

(** The bitmaps, over an image with the files. *)
Lemma bitmap_run s files :
  tree_ok files s.(img) s.(freeblock) -> Z.of_nat (length files) <= 3166 -> fits (root_entries files) ->
  exists V, mk_balloc s.(freeblock) s = Ok (tt, mk_mkst V s.(freeinode) s.(freeblock)) /\
    tree_ok files V s.(freeblock) /\ V 1 = s.(img) 1 /\
    (forall b, 32 <= b < 19832 -> used mkfs_sb V b = ((b - 32) mod 200 <? 5) || (b <? s.(freeblock))).
Proof.
  intros T Hl Hf. unfold mk_balloc. assert (E : Z.to_nat (xint (sb_ngroups mkfs_sb)) = 99%nat) by reflexivity. rewrite E.
  destruct (bitmap_groups_run s.(freeblock) 99 0 s ltac:(lia)) as (V & R & H1 & H2). change (Z.of_nat 99) with 99 in *.
  assert (HB : forall b, bytes512 (V b)).
  { intros b. destruct (decide (0 <= (b - 36) / 200 < 99 /\ b = 36 + (b - 36) / 200 * 200)) as [(Hg & ->)|Hno].
    - rewrite H1 by lia. by apply (group_bits_spec _ _ 0).
    - rewrite H2; [apply T|]. intros g Hg ->. apply Hno. replace (36 + g * 200 - 36) with (g * 200) by lia.
      rewrite Z.div_mul by lia. lia. }
  exists V. split; [exact R|]. split; [|split].
  - apply (tree_ok_plain files s.(img)); [done| |done|done|done].
    intros b Hb. apply H2. intros g Hg ->. apply Hb, bitmap_plain. lia.
  - apply H2. intros g Hg. lia.
  - intros b Hb. rewrite used_val by done. pose proof (Z.div_mod (b - 32) 200 ltac:(lia)) as Hd.
    pose proof (Z.mod_pos_bound (b - 32) 200 ltac:(lia)) as Hm.
    assert (Hg : 0 <= (b - 32) / 200 < 99) by (split; [apply Z.div_pos|apply Z.div_lt_upper_bound]; lia).
    rewrite H1 by lia. destruct (group_bits_spec s.(freeblock) ((b - 32) / 200) ((b - 32) mod 200) Hm) as [_ ->].
    do 2 f_equal. lia.
Qed.

(** An image with a super block, the files, and a bitmap that is right. *)
Record image_ok (files : list (list Z * list Z)) (s : mkst) : Prop := {
  im_sb : decode_sb (s.(img) 1) = mkfs_sb;
  im_tree : tree_ok files s.(img) s.(freeblock);
  im_bits : forall b, 32 <= b < 19832 ->
    used mkfs_sb s.(img) b = ((b - 32) mod 200 <? 5) || (b <? s.(freeblock));
  im_meta : meta_used mkfs_sb s.(img);
  im_used : forall i k, inum_ok i -> (k < 141)%nat -> addr s.(img) (dnode s.(img)) i k <> 0 ->
    32 <= addr s.(img) (dnode s.(img)) i k < 19832 /\
    used mkfs_sb s.(img) (addr s.(img) (dnode s.(img)) i k) = true
}.

(** The blocks of the files and of the root directory. *)
Definition blocks_needed (files : list (list Z * list Z)) : Z :=
  nblk (Z.of_nat (32 + 16 * length files)) + total (image_files files).

(** The files built up to the rounding of the root directory. *)
Lemma mkfs_tree_run files :
  Forall file_ok files -> Z.of_nat (length files) <= 3166 -> blocks_needed files <= room ->
  exists s1 s2 s3 s4 s5, mk_ialloc T_DIR mkst0 = Ok (1, s1) /\
    iappend 1 (mk_de (lit ".") 1) s1 = Ok (tt, s2) /\ iappend 1 (mk_de (lit "..") 1) s2 = Ok (tt, s3) /\
    add_files 1 files s3 = Ok (tt, s4) /\ fix_root 1 s4 = Ok (tt, s5) /\
    tree_ok files s5.(img) s5.(freeblock) /\ s5.(img) 1 = (img mkst0) 1 /\ s5.(freeblock) <= 19837.
Proof.
  intros Hfs Hl Htot. unfold blocks_needed in Htot. pose proof (total_image files) as Hti.
  destruct (mk_de_bytes (lit ".") 1) as [B1 L1]; [repeat constructor; unfold is_u8; simpl; lia|].
  destruct (mk_de_bytes (lit "..") 1) as [B2 L2]; [repeat constructor; unfold is_u8; simpl; lia|].
  pose proof (entries_length files 2 Hfs) as Le.
  destruct (ialloc_run mkst0 [] T_DIR sinv0) as (s1 & R1 & S1 & G1); [simpl; lia|unfold T_DIR; lia|].
  change (1 + Z.of_nat (length (@nil (Z * list Z)))) with 1 in R1.
  destruct (iappend_run s1 _ 0 T_DIR [] (mk_de (lit ".") 1) S1 eq_refl B1) as (s2 & R2 & S2 & G2).
  { unfold fits. rewrite length_app, L1. simpl. lia. }
  { change (<[0%nat:=?v]> ([] ++ [?w])) with [v]. rewrite total_cons. cbn [snd]. rewrite length_app, L1. done. }
  cbn [app] in S2. change (<[0%nat:=?v]> [?w]) with [v] in S2.
  destruct (iappend_run s2 _ 0 T_DIR _ (mk_de (lit "..") 1) S2 eq_refl B2) as (s3 & R3 & S3 & G3).
  { unfold fits. rewrite length_app, L1, L2. simpl. lia. }
  { change (<[0%nat:=?v]> [?w]) with [v]. rewrite total_cons. cbn [snd]. rewrite length_app, L1, L2. done. }
  change (<[0%nat:=?v]> [?w]) with [v] in S3. change (1 + Z.of_nat 0) with 1 in R2, R3.
  destruct (add_files_run files s3 _ [] S3 Hfs) as (s4 & R4 & S4 & G4).
  { cbn [length]. lia. }
  { rewrite length_app, L1, L2. lia. }
  { rewrite length_app, L1, L2. change (total []) with 0. rewrite Z.add_0_r. exact Htot. }
  change (2 + Z.of_nat (length (@nil (Z * list Z)))) with 2 in S4. cbn [app] in S4. rewrite <- app_assoc in S4.
  fold (root_entries files) in S4. destruct (fix_root_run s4 files S4) as (V & R5 & T & Hp).
  exists s1, s2, s3, s4, (mk_mkst V s4.(freeinode) s4.(freeblock)). split; [done|]. split; [done|]. split; [done|]. split; [done|].
  split; [done|]. split; [done|]. cbn [img freeblock]. split.
  - assert (P1 : plain 1).
    { split; [intros [? _]; lia|]. intros i Hi. destruct (IBLOCK_meta i Hi). lia. }
    pose proof (Hp 1 P1) as Hp1. cbn [img] in Hp1. by rewrite Hp1, (G4 1 P1), (G3 1 P1), (G2 1 P1), (G1 1 P1).
  - destruct (si_count _ _ S4) as (c & -> & Hc). apply dpos_room. rewrite total_cons in Hc. cbn [snd] in Hc.
    unfold root_entries in Hc. rewrite !length_app, L1, L2, Le in Hc.
    replace (16 + (16 + 16 * length files))%nat with (32 + 16 * length files)%nat in Hc by lia. lia.
Qed.

Lemma root_fits files : Forall file_ok files -> Z.of_nat (length files) <= 3166 -> fits (root_entries files).
Proof.
  intros H Hl. unfold fits, root_entries. rewrite !length_app, (entries_length files 2 H).
  destruct (mk_de_bytes (lit ".") 1) as [_ ->]; [repeat constructor; unfold is_u8; simpl; lia|].
  destruct (mk_de_bytes (lit "..") 1) as [_ ->]; [repeat constructor; unfold is_u8; simpl; lia|]. lia.
Qed.

Lemma image_of_tree files s :
  tree_ok files s.(img) s.(freeblock) -> s.(img) 1 = (img mkst0) 1 -> s.(freeblock) <= 19837 ->
  (forall b, 32 <= b < 19832 -> used mkfs_sb s.(img) b = ((b - 32) mod 200 <? 5) || (b <? s.(freeblock))) ->
  image_ok files s.
Proof.
  intros T H1 Hfb HU. split; [|done|done| |].
  - rewrite H1. cbn [img mkst0]. rewrite dupd_eq. apply decode_encode_sb; [repeat split; vm_compute; congruence|rewrite length_replicate; unfold BSIZE; lia].
  - intros g Hg. assert (Hg' : 0 <= g < 99) by exact Hg. assert (E : bmapblk mkfs_sb g = 36 + g * 200).
    { unfold bmapblk. assert (Eg : gs mkfs_sb = 32) by reflexivity. assert (Eb : sb_bpg mkfs_sb = 200) by reflexivity.
      assert (Ei : sb_ipg mkfs_sb / IPB = 4) by reflexivity. rewrite Eg, Eb, Ei. lia. }
    rewrite E, HU by lia. replace (36 + g * 200 - 32) with (4 + g * 200) by lia. by rewrite Z.mod_add by lia.
  - intros i k Hi Hk Hnz. destruct (mi_addr _ _ _ (tr_slots _ _ _ T) i k Hi Hk Hnz) as [[Hd Hm] Hlt].
    assert (Hb : addr s.(img) (dnode s.(img)) i k < 19832).
    { destruct (decide (addr s.(img) (dnode s.(img)) i k < 19832)); [done|]. exfalso. Z.to_euclidean_division_equations. lia. }
    split; [lia|]. rewrite HU by lia. apply orb_true_iff. right. lia.
Qed.

Lemma mkfs_run (files : list (list Z * list Z)) :
  Forall file_ok files -> Z.of_nat (length files) <= 3166 -> blocks_needed files <= room ->
  exists s, mkfs_main files mkst0 = Ok (tt, s) /\ image_ok files s.
Proof.
  intros Hfs Hl Htot.
  destruct (mkfs_tree_run files Hfs Hl Htot) as (s1 & s2 & s3 & s4 & s5 & R1 & R2 & R3 & R4 & R5 & T & H1 & Hfb).
  destruct (bitmap_run s5 files T Hl (root_fits files Hfs Hl)) as (V & R6 & T6 & H6 & HU).
  exists (mk_mkst V s5.(freeinode) s5.(freeblock)). split.
  - unfold mkfs_main. rewrite (kM_bind_run _ _ _ _ _ R1). change (negb (1 =? ROOTINO)) with false. cbv iota.
    rewrite (kM_bind_run _ _ _ _ _ R2), (kM_bind_run _ _ _ _ _ R3), (kM_bind_run _ _ _ _ _ R4), (kM_bind_run _ _ _ _ _ R5).
    erewrite kM_bind_run by reflexivity. exact R6.
  - apply image_of_tree; [done|cbn [img]; congruence|done|done].
Qed.

(** C8. The image that mkfs writes is the one the kernel expects.  For files
    whose names have no slash, whose contents fit into an inode each and into
    the data blocks of the groups together, and that are fewer than the
    inodes, mkfs succeeds.  The super block read back is its own and describes
    block groups as the kernel's allocator needs them; inode [2 + k] is a file
    with exactly the bytes of the [k]-th argument, the root directory holds
    the entries of all of them, no block belongs to two places, and the bitmap
    marks the metadata and the blocks handed out and nothing else, so that
    every block of a file is in a group and marked. *)
Theorem mkfs_image (files : list (list Z * list Z)) :
  Forall file_ok files -> Z.of_nat (length files) <= 3166 -> blocks_needed files <= room ->
  exists s, mkfs_main files mkst0 = Ok (tt, s) /\ geo mkfs_sb FSSIZE /\ image_ok files s.
Proof.
  intros Hfs Hl Htot. destruct (mkfs_run files Hfs Hl Htot) as (s & R & I). exists s. split; [done|]. split; [apply mkfs_geo|done].
Qed.

(** Witness of [mkfs_image]: an image with one small file. *)
Lemma mkfs_image_witness :
  exists s, mkfs_main [(lit "_init", [104; 105; 10])] mkst0 = Ok (tt, s) /\ geo mkfs_sb FSSIZE /\
    image_ok [(lit "_init", [104; 105; 10])] s.
Proof.
  apply mkfs_image; [|simpl; lia|by vm_compute]. apply Forall_singleton.
  assert (B : forall l, Forall (fun c => bool_decide (is_u8 c)) l -> Forall is_u8 l).
  { intros l H. eapply Forall_impl; [exact H|]. intros c Hc. by apply bool_decide_unpack in Hc. }
  split; [|split; [|split]].
  - apply (bool_decide_unpack (~ (slash ∈ lit "_init"))). by vm_compute.
  - apply B. repeat constructor.
  - apply B. repeat constructor.
  - unfold fits. simpl. lia.
Defined.
