(* ===== verification/MkfsKernel.v ===== *)
(** * The kernel on an image of mkfs

    What mkfs writes satisfies the invariants that the kernel's file code
    needs; a kernel that runs on the image reads the files that mkfs was
    given. *)

From S2P Require Import Prelude CString Locks Bio BioSpec BioView Layout Log LogSpec LogCrash LogTx Fs FsBits FsInode FsSpec FsAlloc FsFile FsContent FsDir FsName Mkfs MkfsSpec MkfsImage.

(** ** The invariants of the file code *)

Lemma image_meta files s : image_ok files s -> meta_all mkfs_sb s.(img).
Proof.
  intros I b Hb Hm. change (gs mkfs_sb) with 32 in *. change (gend mkfs_sb) with 19832 in Hb.
  change (sb_bpg mkfs_sb) with 200 in Hm. change (sb_ipg mkfs_sb / IPB) with 4 in Hm.
  rewrite (im_bits _ _ I b Hb). destruct (Z.ltb_spec ((b - 32) mod 200) 5); [done|lia].
Qed.

Lemma image_finv files s i : image_ok files s -> inum_ok i -> finv mkfs_sb s.(img) (dnode s.(img) i).
Proof.
  intros I Hi. pose proof (tr_slots _ _ _ (im_tree _ _ I)) as M. split.
  - by apply M.
  - intros k Hk Hnz. destruct (mi_addr _ _ _ M i k Hi Hk Hnz) as [[_ Hd] _]. destruct (im_used _ _ I i k Hi Hk Hnz) as [Hr Hu].
    split; [|exact Hu]. split; [exact Hr|]. change (sb_ipg mkfs_sb / IPB) with 4. change (gs mkfs_sb) with 32.
    change (sb_bpg mkfs_sb) with 200. unfold addr in Hd. lia.
  - intros k l Hk Hl Hnz E. by apply (mi_inj _ _ _ M i k i l).
Qed.

(** ** Reading a file of the image *)

Lemma mkfs_iblock i : inum_ok i -> iblock_ok mkfs_sb i.
Proof.
  intros Hi. destruct (IBLOCK_meta i Hi) as [Hr Hm]. split; [exact Hr|]. change (sb_ipg mkfs_sb / IPB) with 4.
  change (gs mkfs_sb) with 32. change (sb_bpg mkfs_sb) with 200. exact Hm.
Qed.

Lemma image_readi files s k name data me devread st order ip p off n :
  image_ok files s -> files !! k = Some (name, data) -> Z.of_nat (length files) <= 3166 ->
  0 <= off <= Z.of_nat (length data) -> 0 <= n < 2 ^ 31 ->
  FsSpec.fok me FSSIZE mkfs_sb st order [] -> (forall m, contents st m = s.(img) m) -> logged_n st < 30 ->
  st.(icache) !! ip = Some p -> p.(i_dev) = 1 -> p.(i_d) = dino mkfs_sb (contents st) (2 + Z.of_nat k) ->
  exists st', readi me devread ip off n st =
    Ok ((Z.min n (Z.of_nat (length data) - off), take (Z.to_nat n) (drop (Z.to_nat off) data)), st').
Proof.
  intros I Hk Hl Hoff Hn F E Hlog Hp Hdev Hd. pose proof (lookup_lt_Some _ _ _ Hk) as Hlt.
  assert (Hi : inum_ok (2 + Z.of_nat k)) by (unfold inum_ok; lia).
  destruct (tr_files _ _ _ (im_tree _ _ I) k name data Hk) as [M1 M2 M3 M4 M5]. rewrite (dino_eq mkfs_sb _ _ _ E) in Hd.
  change (dino mkfs_sb s.(img) (2 + Z.of_nat k)) with (dnode s.(img) (2 + Z.of_nat k)) in Hd.
  assert (A : at_file me FSSIZE mkfs_sb st order ip p).
  { split; [done|done|done| |].
    - apply (finv_eq mkfs_sb _ _ _ E). rewrite Hd. by apply (image_finv files).
    - apply (meta_all_eq mkfs_sb _ _ E). by apply (image_meta files). }
  unfold fits in M5. destruct (readi_run me FSSIZE mkfs_sb mkfs_geo devread st order ip p data off n A) as (st2 & o2 & _ & _ & R2);
    rewrite ?Hd; try lia; try done.
  - apply (fholds_eq _ _ _ _ E). apply M4.
  - by rewrite M1.
  - exists st2. rewrite R2. destruct (Z.ltb_spec (Z.of_nat (length data)) off); [lia|]. done.
Qed.

(** mkfs and the kernel fit together.  mkfs succeeds on files that fit; and
    a kernel whose blocks are those of the image, when it locks the inode that
    mkfs gave to a file and reads from it, gets exactly the bytes of the file
    that mkfs was given, from the offset on. *)
Theorem kernel_reads_image files k name data me devread off n :
  Forall file_ok files -> Z.of_nat (length files) <= 3166 -> blocks_needed files <= room ->
  files !! k = Some (name, data) -> 0 <= off <= Z.of_nat (length data) -> 0 <= n < 2 ^ 31 ->
  exists s, mkfs_main files mkst0 = Ok (tt, s) /\
  forall st order ip p, FsSpec.fok me FSSIZE mkfs_sb st order [] -> (forall m, contents st m = s.(img) m) ->
    logged_n st < 30 -> st.(icache) !! ip = Some p -> p.(i_dev) = 1 -> p.(i_inum) = 2 + Z.of_nat k ->
    1 <= p.(i_ref) -> p.(i_lock).(sl_locked) = false -> p.(i_valid) = false ->
    exists st', (_ ← ilock me ip; readi me devread ip off n) st =
      Ok ((Z.min n (Z.of_nat (length data) - off), take (Z.to_nat n) (drop (Z.to_nat off) data)), st').
Proof.
  intros Hfs Hl Htot Hk Hoff Hn. destruct (mkfs_run files Hfs Hl Htot) as (s & R & I). exists s. split; [done|].
  intros st order ip p F EC Hlog Hp Hdev Hino Href Hlk Hval. pose proof (lookup_lt_Some _ _ _ Hk) as Hlt.
  assert (Hi : inum_ok (2 + Z.of_nat k)) by (unfold inum_ok; lia).
  destruct (ilock_load me FSSIZE mkfs_sb mkfs_geo st order ip p F Hp Hdev Href Hlk Hval) as (st1 & o1 & R1 & F1 & [E1 L1] & Ic).
  { rewrite Hino. by apply mkfs_iblock. } { done. }
  { rewrite Hino, (dino_eq mkfs_sb _ _ _ EC). change (d_type (dnode s.(img) (2 + Z.of_nat k)) <> 0).
    by rewrite (mf_type _ _ _ _ (tr_files _ _ _ (im_tree _ _ I) k name data Hk)). }
  rewrite (kM_bind_run _ _ _ _ _ R1).
  eapply (image_readi files s k name data me devread st1 o1 ip (mk_inode 1 p.(i_inum) p.(i_ref) (mk_sleeplock true me) true (dino mkfs_sb (contents st) p.(i_inum))) off n I Hk Hl Hoff Hn F1); [intros m; by rewrite E1|lia| |done|].
  - rewrite Ic. apply list_lookup_insert_eq. by apply lookup_lt_Some in Hp.
  - cbn [i_d]. rewrite Hino. symmetry. by apply dino_eq.
Qed.

(** ** An image with one file, and a kernel just started on it *)

Module ImageDemo.

Definition file1 : list Z * list Z := (lit "_init", [104; 105; 10]).
Definition lg0 : log := mk_log 2 30 1 false 1 0 (replicate 30 0).
Definition ino : inode := mk_inode 1 2 1 initsleeplock false dinode0.

(** The kernel on the image [s], in a transaction, with inode 2 referenced. *)
Definition booted (s : mkst) : fsst :=
  mk_fsst (mk_lgst lg0 (mk_bio booted_bufs s.(img) FSSIZE []) 0) [ino] mkfs_sb.

Lemma file1_ok : Forall file_ok [file1].
Proof.
  apply Forall_singleton. assert (B : forall l, Forall (fun c => bool_decide (is_u8 c)) l -> Forall is_u8 l).
  { intros l H. eapply Forall_impl; [exact H|]. intros c Hc. by apply bool_decide_unpack in Hc. }
  split; [|split; [|split]].
  - apply (bool_decide_unpack (~ (slash ∈ lit "_init"))). by vm_compute.
  - apply B. repeat constructor.
  - apply B. repeat constructor.
  - unfold fits. simpl. lia.
Qed.

Lemma booted_fok files s : image_ok files s ->
  FsSpec.fok 1 FSSIZE mkfs_sb (booted s) boot_order [] /\ (forall m, contents (booted s) m = s.(img) m).
Proof.
  intros I. destruct (fresh_client 1 booted_bufs boot_order s.(img) FSSIZE [] booted_ring booted_buf) as (H1 & _ & H2 & H3).
  split; [|exact H2]. split.
  - split; [split; cbn; unfold LOGSIZE, FSSIZE; try lia; reflexivity|exact H1|reflexivity|..].
    + intros i Hi. cbn in Hi. lia.
    + intros m Hm. by destruct (H3 m).
  - split; [reflexivity|]. unfold contents, booted. cbn [lst bc]. rewrite H2. apply I.
  - split; [reflexivity|]. split; [reflexivity|cbn; lia].
  - intros m _. unfold contents, booted. cbn [lst bc]. rewrite H2. apply (mi_bytes _ _ _ (tr_slots _ _ _ (im_tree _ _ I))).
Qed.

Lemma kernel_reads_image_witness :
  exists s st', mkfs_main [file1] mkst0 = Ok (tt, s) /\
    (_ ← ilock 1 0; readi 1 (fun _ => None) 0 0 512) (booted s) = Ok ((3, [104; 105; 10]), st').
Proof.
  destruct (kernel_reads_image [file1] 0 (lit "_init") [104; 105; 10] 1 (fun _ => None) 0 512 file1_ok) as (s & R & K);
    [simpl; lia|by vm_compute|reflexivity|simpl; lia|lia|].
  destruct (mkfs_run [file1] file1_ok) as (s' & R' & I); [simpl; lia|by vm_compute|].
  assert (s' = s) as -> by congruence. destruct (booted_fok _ s I) as [F E].
  destruct (K (booted s) boot_order 0%nat ino F E) as (st' & R2); [vm_compute; reflexivity|reflexivity|reflexivity|reflexivity|simpl; lia|reflexivity|reflexivity|].
  exists s, st'. split; [exact R|exact R2].
Defined.

End ImageDemo.
