(* ===== verification/MkfsPath.v ===== *)
(** * Opening by name what mkfs wrote

    The root directory of an image is a directory in the sense of the kernel's
    path code, and its map has the names that mkfs was given.  A kernel on the
    image finds every file by its path and reads the bytes of it. *)

From S2P Require Import Prelude CString Locks Bio BioSpec BioView Layout Log LogSpec LogCrash LogTx Fs FsBits FsInode FsSpec FsAlloc FsPath FsFile FsContent FsDir FsName Mkfs MkfsSpec MkfsImage MkfsKernel.

(** ** The root directory *)

(** The bytes up to the end of the last block. *)
Definition padded (dat : list Z) : list Z := dat ++ replicate (512 - length dat mod 512) 0.

Lemma padded_length dat : length (padded dat) = ((length dat / 512 + 1) * 512)%nat.
Proof.
  unfold padded. rewrite length_app, length_replicate. pose proof (Nat.div_mod_eq (length dat) 512).
  pose proof (Nat.mod_upper_bound (length dat) 512). lia.
Qed.

(** A file holds its last block to the end, if it has begun that block. *)
Lemma holds_padded V D i dat :
  holds V D i dat -> fits dat -> (length dat mod 512 <> 0)%nat -> begins V D i (padded dat).
Proof.
  intros [Hb Hc] Hf Hm q c Hq. unfold padded in Hq. apply lookup_app_Some in Hq as [Hq|[Hge Hq]]; [by apply Hb|].
  apply lookup_replicate in Hq as [-> Hlt]. unfold fits in Hf.
  pose proof (Nat.div_mod_eq (length dat) 512) as E1. pose proof (Nat.mod_upper_bound (length dat) 512 ltac:(lia)) as B1.
  pose proof (Nat.mod_upper_bound q 512 ltac:(lia)) as B2. pose proof (Nat.div_mod_eq q 512) as E2.
  assert (Eq : (q / 512 = length dat / 512)%nat) by nia.
  destruct (lookup_lt_is_Some_2 dat (512 * (length dat / 512)) ltac:(lia)) as [y Hy]. destruct (Hb _ _ Hy) as [Hnz _].
  rewrite Nat.mul_comm, Nat.div_mul, <- Eq in Hnz by lia. split; [done|]. apply Hc; [nia|lia|nia|done].
Qed.

Lemma root_length files : Forall file_ok files -> length (root_entries files) = (16 * (2 + length files))%nat.
Proof.
  intros H. unfold root_entries. rewrite !length_app, (entries_length files 2 H). unfold mk_de. rewrite !mk_dirent_length. lia.
Qed.

Lemma entries_u8 fs : forall i, Forall file_ok fs -> Forall is_u8 (entries i fs).
Proof.
  induction fs as [|f fs IH]; intros i H; [apply Forall_nil_2|]. apply Forall_cons in H as [Hf H]. cbn [entries]. apply Forall_app. split; [|by apply IH].
  apply mk_dirent_u8, img_name_bytes, Hf.
Qed.

Lemma lit_dot_u8 : Forall is_u8 (lit ".") /\ Forall is_u8 (lit "..").
Proof. split; repeat constructor; unfold is_u8; simpl; lia. Qed.

Lemma image_good files s i : image_ok files s -> Z.of_nat (length files) <= 3166 ->
  1 <= i < 2 + Z.of_nat (length files) -> good mkfs_sb s.(img) i.
Proof.
  intros I Hl Hi. assert (Ho : inum_ok i) by (unfold inum_ok; lia).
  assert (H : d_type (dnode s.(img) i) <> 0 /\ d_nlink (dnode s.(img) i) <> 0).
  { destruct (Z.eq_dec i 1) as [->|Hne]; [destruct (tr_root _ _ _ (im_tree _ _ I)) as (E1 & E2 & _); by rewrite E1, E2|].
    destruct (lookup_lt_is_Some_2 files (Z.to_nat (i - 2)) ltac:(lia)) as [[name data] Hk].
    destruct (tr_files _ _ _ (im_tree _ _ I) _ name data Hk) as [M1 M2 _ _ _].
    replace (2 + Z.of_nat (Z.to_nat (i - 2))) with i in * by lia. by rewrite M1, M2. }
  split; [by apply mkfs_iblock|lia|apply H|apply H].
Qed.

Lemma image_isdir files s : image_ok files s -> Forall file_ok files -> Z.of_nat (length files) <= 3166 ->
  ((2 + length files) mod 32 <> 0)%nat -> isdir mkfs_sb s.(img) 1 (padded (root_entries files)).
Proof.
  intros I Hfs Hl Hm. destruct (tr_root _ _ _ (im_tree _ _ I)) as (R1 & R2 & R3 & R4).
  pose proof (root_length files Hfs) as Hn. pose proof (padded_length (root_entries files)) as Hp.
  assert (Hm' : (length (root_entries files) mod 512 <> 0)%nat).
  { rewrite Hn. change 512%nat with (16 * 32)%nat. rewrite Nat.Div0.mul_mod_distr_l. lia. }
  assert (Hb : (length (root_entries files) / 512 + 1 <= 140)%nat).
  { rewrite Hn. pose proof (Nat.Div0.div_le_mono (16 * (2 + length files)) (16 * 3168) 512 ltac:(lia)). change (16 * 3168 / 512)%nat with 99%nat in *. lia. }
  split; try done.
  - by apply (image_finv files); [|unfold inum_ok; lia].
  - change (dino mkfs_sb s.(img) 1) with (dnode s.(img) 1). rewrite R3, Hp, Nat2Z.inj_mul, Nat2Z.inj_add, Nat2Z.inj_div. done.
  - apply holds_padded; [done|by apply root_fits|done].
  - unfold fits. lia.
  - rewrite Hp. change 512%nat with (32 * 16)%nat. by rewrite Nat.mul_assoc, Nat.Div0.mod_mul.
  - destruct lit_dot_u8 as [U1 U2]. unfold padded, root_entries. apply Forall_app. split; [|apply Forall_replicate; unfold is_u8; lia].
    apply Forall_app. split; [by apply mk_dirent_u8|]. apply Forall_app. split; [by apply mk_dirent_u8|by apply entries_u8].
Qed.

(** ** Its map *)

(** The name that the entry of a file has. *)
Definition entry_name (f : list Z * list Z) : list Z := dname (img_name f.1).

Lemma mk_de_inum name i : 0 <= i < 32768 -> de_inum (mk_de name i) = i.
Proof. intros H. unfold mk_de. by rewrite xshort_id, mk_dirent_inum by lia. Qed.

Lemma mk_de_name name i : dname (de_name (mk_de name i)) = dname name.
Proof. apply mk_dirent_name. Qed.

Lemma assoc_entries fs : forall i k f,
  Forall file_ok fs -> fs !! k = Some f -> NoDup (map entry_name fs) -> 0 < i -> i + Z.of_nat (length fs) < 32768 ->
  assoc (entry_name f) (dents (entries i fs)) = Some (i + Z.of_nat k).
Proof.
  induction fs as [|g fs IH]; intros i k f Hfs Hk Hnd Hi Hb; [done|]. apply Forall_cons in Hfs as [Hg Hfs]. cbn [entries length map] in *.
  apply NoDup_cons in Hnd as [Hni Hnd]. rewrite (dents_app _ _ 1) by apply mk_dirent_length.
  rewrite dents_one by apply mk_dirent_length. cbn [app]. rewrite mk_de_inum, mk_de_name by lia.
  rewrite assoc_cons. destruct k as [|k]; cbn in Hk.
  - injection Hk as ->. rewrite decide_True by (split; [cbn [fst]; lia|done]). cbn [fst]. f_equal. lia.
  - rewrite decide_False; [rewrite (IH (i + 1) k f) by (done || lia); f_equal; lia|]. intros [_ E]. apply Hni. cbn [snd] in E.
    fold (entry_name g) in E. rewrite E. apply list_elem_of_fmap_2. by apply list_elem_of_lookup_2 in Hk.
Qed.

Lemma assoc_entries_None nm fs : forall i, Forall file_ok fs -> nm ∉ map entry_name fs -> 0 < i -> i + Z.of_nat (length fs) < 32768 ->
  assoc nm (dents (entries i fs)) = None.
Proof.
  induction fs as [|g fs IH]; intros i Hfs Hni Hi Hb; [done|]. apply Forall_cons in Hfs as [Hg Hfs]. cbn [entries length map] in *.
  apply not_elem_of_cons in Hni as [H1 H2]. rewrite (dents_app _ _ 1) by apply mk_dirent_length.
  rewrite dents_one by apply mk_dirent_length. cbn [app]. rewrite mk_de_inum, mk_de_name by lia.
  rewrite assoc_cons, decide_False; [apply IH; done || lia|]. intros [_ E]. apply H1. by rewrite <- E.
Qed.

(** The names in the root directory. *)
Definition root_names (files : list (list Z * list Z)) : list (list Z) := dname (lit ".") :: dname (lit "..") :: map entry_name files.

Lemma root_map files nm : Forall file_ok files -> Z.of_nat (length files) <= 3166 -> nm <> dname (lit ".") -> nm <> dname (lit "..") ->
  dmap (padded (root_entries files)) nm = assoc nm (dents (entries 2 files)).
Proof.
  intros Hfs Hl H1 H2. unfold dmap, padded. rewrite (dents_app _ _ (2 + length files)) by by apply root_length.
  rewrite assoc_app_None by apply dents_zeros. unfold root_entries.
  rewrite (dents_app _ _ 1), (dents_app _ _ 1), !dents_one by apply mk_dirent_length. cbn [app]. rewrite !mk_de_inum, !mk_de_name by lia.
  rewrite !assoc_cons, !decide_False; [done| |]; intros [_ E]; cbn [snd] in E; [by apply H2|by apply H1].
Qed.

(** ** Paths of one name *)

Lemma components_from_one e : forall cur, slash ∉ e -> cur ++ e <> [] -> components_from cur e = [cur ++ e].
Proof.
  induction e as [|c e IH]; intros cur Hs Hne; cbn [components_from].
  - rewrite app_nil_r in *. by destruct cur.
  - apply not_elem_of_cons in Hs as [Hc Hs]. destruct (Z.eqb_spec c slash); [congruence|].
    rewrite IH; [by rewrite <- app_assoc|done|]. by destruct cur.
Qed.

Lemma one_component nm : nm <> [] -> slash ∉ nm -> map (take DIRSIZ) (components (slash :: nm)) = [take DIRSIZ nm].
Proof. intros H1 H2. unfold components. cbn [components_from]. change (slash =? slash) with true. cbv iota. cbn [emit app]. by rewrite components_from_one. Qed.

(** ** The kernel on the image *)

(** A path of one name leads where the map of the root directory says. *)
Lemma image_walks files s nm : image_ok files s -> Forall file_ok files -> Z.of_nat (length files) <= 3166 ->
  ((2 + length files) mod 32 <> 0)%nat -> nm <> [] -> slash ∉ nm ->
  take DIRSIZ nm <> dname (lit ".") -> take DIRSIZ nm <> dname (lit "..") ->
  (forall j, assoc (take DIRSIZ nm) (dents (entries 2 files)) = Some j -> 2 <= j < 2 + Z.of_nat (length files)) ->
  walks mkfs_sb s.(img) false 1 (map (take DIRSIZ) (components (slash :: nm))) (assoc (take DIRSIZ nm) (dents (entries 2 files))).
Proof.
  intros I Hfs Hl Hm Hne Hsl H1 H2 Hj. rewrite one_component by done. pose proof (image_isdir files s I Hfs Hl Hm) as Hd.
  pose proof (root_map files (take DIRSIZ nm) Hfs Hl H1 H2) as Em. destruct (assoc _ _) as [j|].
  - eapply walks_step; [by left|exact Hd|exact Em| |exact (walks_end _ _ false j)]. apply (image_good files); [done|done|]. specialize (Hj j eq_refl). lia.
  - eapply walks_missing; [by left|exact Hd|exact Em].
Qed.

Lemma image_namei files s nm me devread st order cwd r :
  image_ok files s -> Forall file_ok files -> Z.of_nat (length files) <= 3166 -> ((2 + length files) mod 32 <> 0)%nat ->
  idle me FSSIZE mkfs_sb st order None -> roomy st -> (forall m, contents st m = s.(img) m) -> logged_n st < 30 ->
  nm <> [] -> slash ∉ nm -> Forall (fun c => c <> 0) nm -> Forall is_u8 nm -> take DIRSIZ nm <> dname (lit ".") -> take DIRSIZ nm <> dname (lit "..") ->
  assoc (take DIRSIZ nm) (dents (entries 2 files)) = r -> (forall j, r = Some j -> 2 <= j < 2 + Z.of_nat (length files)) ->
  exists o st' order', namei me devread cwd (slash :: nm) st = Ok (o, st') /\ arrived me FSSIZE mkfs_sb st st' order' r o.
Proof.
  intros I Hfs Hl Hm Id Hro EC Hlog Hne Hsl Hnz Hu H1 H2 Er Hj.
  assert (W : walks mkfs_sb (contents st) false 1 (map (take DIRSIZ) (components (slash :: nm))) r).
  { subst r. eapply walks_eq; [exact EC|]. by apply image_walks. }
  destruct (namex_run me FSSIZE mkfs_sb mkfs_geo devread st order cwd (slash :: nm) false (replicate DIRSIZ 0) 1 r) as (o & nm' & st' & o' & R & A & _); try done.
  - split; [done|]. apply (good_eq mkfs_sb s.(img)); [done|]. apply (image_good files); [done|done|unfold ROOTINO; lia].
  - apply Forall_cons. split; [done|done].
  - apply Forall_cons. split; [unfold is_u8, slash; lia|done].
  - apply Forall_replicate. unfold is_u8. lia.
  - exists o, st', o'. split; [|done]. unfold namei. by rewrite (kM_bind_run _ _ _ _ _ R).
Qed.

(** C9. What mkfs wrote the kernel opens by name.  For files with distinct
    names, a kernel on the image that looks up the path of a name in the root
    directory, locks the inode and reads it, gets the bytes of the file that
    mkfs was given under that name; and a name that was not given leads
    nowhere, with no reference held and nothing changed.  The number of
    entries must not fill the blocks of the root directory, see
    [PathDemo.full_root_panics]. *)
Theorem kernel_opens_image files me devread :
  Forall file_ok files -> Z.of_nat (length files) <= 3166 -> blocks_needed files <= room ->
  ((2 + length files) mod 32 <> 0)%nat -> NoDup (root_names files) ->
  exists s, mkfs_main files mkst0 = Ok (tt, s) /\
  forall st order cwd nm, idle me FSSIZE mkfs_sb st order None -> roomy st -> (forall m, contents st m = s.(img) m) -> logged_n st < 30 ->
    nm <> [] -> slash ∉ nm -> Forall (fun c => c <> 0) nm -> Forall is_u8 nm ->
    (forall k f off n, files !! k = Some f -> entry_name f = take DIRSIZ nm -> 0 <= off <= Z.of_nat (length f.2) -> 0 <= n < 2 ^ 31 ->
       exists ip st1 st2, namei me devread cwd (slash :: nm) st = Ok (Some ip, st1) /\
         (_ ← ilock me ip; readi me devread ip off n) st1 =
           Ok ((Z.min n (Z.of_nat (length f.2) - off), take (Z.to_nat n) (drop (Z.to_nat off) f.2)), st2)) /\
    (take DIRSIZ nm ∉ root_names files ->
       exists st' order', namei me devread cwd (slash :: nm) st = Ok (None, st') /\ stage me FSSIZE mkfs_sb st st' order' None []).
Proof.
  intros Hfs Hl Htot Hm Hnd. destruct (mkfs_run files Hfs Hl Htot) as (s & R & I). exists s. split; [done|].
  intros st order cwd nm Id Hro EC Hlog Hne Hsl Hnz Hu. apply NoDup_cons in Hnd as [Hd1 Hnd]. apply NoDup_cons in Hnd as [Hd2 Hnd].
  apply not_elem_of_cons in Hd1 as [_ Hd1]. split.
  - intros k [name data] off n Hk En Hoff Hn. pose proof (lookup_lt_Some _ _ _ Hk) as Hlt. cbn [snd] in *.
    assert (Hin : take DIRSIZ nm ∈ map entry_name files) by (rewrite <- En; apply list_elem_of_fmap_2; by apply list_elem_of_lookup_2 in Hk).
    destruct (image_namei files s nm me devread st order cwd (Some (2 + Z.of_nat k)) I Hfs Hl Hm Id Hro EC Hlog Hne Hsl Hnz Hu)
      as (o & st1 & o1 & R1 & A).
    { intros E. rewrite E in Hin. exact (Hd1 Hin). } { intros E. rewrite E in Hin. exact (Hd2 Hin). }
    { rewrite <- En. exact (assoc_entries files 2 k (name, data) Hfs Hk Hnd ltac:(lia) ltac:(lia)). } { intros j [= <-]. lia. }
    destruct A as (ip & p & -> & S1 & Hp & Hi).
    destruct (stage_lock me FSSIZE mkfs_sb mkfs_geo st st1 o1 ip p [] Hro S1 ltac:(cbn; lia) Hp Hlog) as (st2 & o2 & R2 & S2 & Hp2).
    exists ip, st1. rewrite R1, (kM_bind_run _ _ _ _ _ R2).
    destruct (image_readi files s k name data me devread st2 o2 ip (locked me mkfs_sb (contents st2) p) off n I Hk Hl Hoff Hn) as (st3 & R3).
    + apply (id_fok _ _ _ _ _ _ (sg_idle _ _ _ _ _ _ _ _ S2)).
    + intros m. by rewrite (cm_vw _ _ (sg_calm _ _ _ _ _ _ _ _ S2)).
    + by rewrite (cm_log _ _ (sg_calm _ _ _ _ _ _ _ _ S2)).
    + exact Hp2.
    + reflexivity.
    + cbn [locked i_d]. rewrite Hi. reflexivity.
    + exists st3. split; [reflexivity|exact R3].
  - intros Hno. unfold root_names in Hno. apply not_elem_of_cons in Hno as [H1 Hno]. apply not_elem_of_cons in Hno as [H2 Hno].
    destruct (image_namei files s nm me devread st order cwd None I Hfs Hl Hm Id Hro EC Hlog Hne Hsl Hnz Hu H1 H2) as (o & st1 & o1 & R1 & A).
    { exact (assoc_entries_None _ files 2 Hfs Hno ltac:(lia) ltac:(lia)). } { done. }
    destruct A as [-> S]. exists st1, o1. split; [exact R1|exact S].
Qed.

(** ** A kernel on an image *)

Module PathDemo.

Import ImageDemo.

Definition free_ino : inode := mk_inode 0 0 0 initsleeplock false dinode0.

(** The kernel on the image [s], with the entries [ic] in the inode cache. *)
Definition on_image (s : mkst) (ic : list inode) : fsst := mk_fsst (booted s).(lst) ic mkfs_sb.

Lemma on_image_idle files s ic lk : image_ok files s ->
  (forall i p, ic !! i = Some p -> entry_ok 1 mkfs_sb s.(img) (is_locked lk i) p) ->
  idle 1 FSSIZE mkfs_sb (on_image s ic) boot_order lk /\ forall m, contents (on_image s ic) m = s.(img) m.
Proof.
  intros I Hic. destruct (booted_fok files s I) as [F E]. split; [|exact E]. split.
  - by apply (fok_icache 1 FSSIZE mkfs_sb (booted s)).
  - apply (meta_all_eq mkfs_sb s.(img)); [exact E|]. by apply (image_meta files).
  - intros i p Hp. apply (entry_eq 1 mkfs_sb s.(img)); [exact E|]. by apply Hic.
Qed.

Definition empty_cache : list inode := [free_ino; free_ino; free_ino].

Lemma free_ino_ok V i : entry_ok 1 mkfs_sb V (is_locked None i) free_ino.
Proof. split; [split; [done|]|done|]; done. Qed.

Lemma empty_cache_ok V i p : empty_cache !! i = Some p -> entry_ok 1 mkfs_sb V (is_locked None i) p.
Proof. intros H. apply list_elem_of_lookup_2 in H. unfold empty_cache in H. set_unfold in H. destruct_or?; subst; try done; apply free_ino_ok. Qed.

Lemma empty_roomy s : roomy (on_image s empty_cache).
Proof.
  split; [by exists 0%nat, 1%nat, free_ino, free_ino|]. intros i p H. apply list_elem_of_lookup_2 in H. cbn in H. set_unfold in H.
  destruct_or?; subst; cbn; done || lia.
Qed.

Definition init_path : list Z := [105; 110; 105; 116].
Definition nofile : list Z := [102; 111; 111].

Definition nodev : Z -> option (nat -> Z -> kM fsst (Z * list Z)) := fun _ => None.
Definition nodevw : Z -> option (nat -> list Z -> Z -> kM fsst Z) := fun _ => None.

Lemma plain_name nm : bool_decide (Forall (fun c => c <> 0 /\ is_u8 c /\ c <> slash) nm) = true ->
  (slash ∉ nm) /\ Forall (fun c => c <> 0) nm /\ Forall is_u8 nm.
Proof.
  intros H%bool_decide_eq_true_1. split_and!.
  - intros Hin. rewrite Forall_forall in H. by destruct (H _ Hin) as (_ & _ & ?).
  - eapply Forall_impl; [exact H|]. by intros c (? & ? & ?).
  - eapply Forall_impl; [exact H|]. by intros c (? & ? & ?).
Qed.

Lemma kernel_opens_image_witness :
  exists s ip st1 st2 st3, mkfs_main [file1] mkst0 = Ok (tt, s) /\
    namei 1 nodev 0 (slash :: init_path) (on_image s empty_cache) = Ok (Some ip, st1) /\
    (_ ← ilock 1 ip; readi 1 nodev ip 0 512) st1 = Ok ((3, [104; 105; 10]), st2) /\
    namei 1 nodev 0 (slash :: nofile) (on_image s empty_cache) = Ok (None, st3).
Proof.
  destruct (kernel_opens_image [file1] 1 nodev file1_ok) as (s & R & K); [simpl; lia|by vm_compute|by vm_compute| |].
  { apply (bool_decide_unpack (NoDup (root_names [file1]))). by vm_compute. }
  destruct (mkfs_run [file1] file1_ok) as (s' & R' & I); [simpl; lia|by vm_compute|].
  assert (s' = s) as -> by congruence.
  destruct (on_image_idle [file1] s empty_cache None I (empty_cache_ok _)) as [Id E].
  destruct (plain_name init_path ltac:(by vm_compute)) as (H1 & H2 & H3). destruct (plain_name nofile ltac:(by vm_compute)) as (H4 & H5 & H6).
  destruct (K (on_image s empty_cache) boot_order 0%nat init_path Id (empty_roomy s) E) as [K1 _]; [by vm_compute|done|done|done|done|].
  destruct (K1 0%nat file1 0 512) as (ip & st1 & st2 & R1 & R2); [done|by vm_compute|simpl; lia|lia|].
  destruct (K (on_image s empty_cache) boot_order 0%nat nofile Id (empty_roomy s) E) as [_ K2]; [by vm_compute|done|done|done|done|].
  destruct K2 as (st3 & o3 & R3 & _); [apply (bool_decide_unpack (take DIRSIZ nofile ∉ root_names [file1])); by vm_compute|].
  exists s, ip, st1, st2, st3. split; [exact R|]. split; [exact R1|]. split; [exact R2|exact R3].
Defined.

(** Witness of [namex_spec]: "/init" leads to inode 2. *)
Lemma namex_spec_witness :
  exists s ip name' st' order' p, mkfs_main [file1] mkst0 = Ok (tt, s) /\
    namex 1 nodev 0 (slash :: init_path) false (replicate DIRSIZ 0) (on_image s empty_cache) = Ok ((Some ip, name'), st') /\
    stage 1 FSSIZE mkfs_sb (on_image s empty_cache) st' order' None [ip] /\ st'.(icache) !! ip = Some p /\ p.(i_inum) = 2.
Proof.
  destruct (mkfs_run [file1] file1_ok) as (s & R & I); [simpl; lia|by vm_compute|]. exists s.
  destruct (on_image_idle [file1] s empty_cache None I (empty_cache_ok _)) as [Id E].
  destruct (plain_name init_path ltac:(by vm_compute)) as (H1 & H2 & H3).
  assert (Em : assoc (take DIRSIZ init_path) (dents (entries 2 [file1])) = Some 2) by (vm_compute; reflexivity).
  destruct (namex_spec 1 FSSIZE mkfs_sb mkfs_geo nodev (on_image s empty_cache) boot_order 0 (slash :: init_path) false
    (replicate DIRSIZ 0) 1 (Some 2)) as (o & nm' & st' & o' & Rn & (ip & p & -> & S & Hp & Hi) & _).
  - exact Id.
  - apply empty_roomy.
  - by vm_compute.
  - split; [reflexivity|]. apply (good_eq mkfs_sb s.(img)); [exact E|]. apply (image_good [file1]); [exact I|simpl; lia|simpl; unfold ROOTINO; lia].
  - apply Forall_cons. split; [done|exact H2].
  - apply Forall_cons. split; [unfold is_u8, slash; lia|exact H3].
  - apply Forall_replicate. unfold is_u8. lia.
  - reflexivity.
  - apply (walks_eq mkfs_sb s.(img)); [exact E|]. rewrite <- Em.
    apply (image_walks [file1] s init_path I file1_ok); [simpl; lia|by vm_compute|done|exact H1|by vm_compute|by vm_compute|].
    intros j Hj. rewrite Em in Hj. injection Hj as <-. simpl. lia.
  - exists ip, nm', st', o', p. split; [exact R|]. split; [exact Rn|]. split; [exact S|]. split; [exact Hp|exact Hi].
Defined.

(** The root directory, locked. *)
Definition root_ino (s : mkst) : inode := locked 1 mkfs_sb s.(img) (mk_inode 1 1 1 initsleeplock false dinode0).
Definition root_cache (s : mkst) : list inode := [root_ino s; free_ino; free_ino].

Lemma root_cache_ok s i p : image_ok [file1] s -> root_cache s !! i = Some p -> entry_ok 1 mkfs_sb s.(img) (is_locked (Some 0%nat) i) p.
Proof.
  intros I. destruct i as [|[|[|i]]]; cbn; intros [= <-].
  - split; [done|cbn; lia|]. intros _. split; [done|]. split; [|done]. apply (image_good [file1]); [done|simpl; lia|simpl; lia].
  - split; [split; [done|]|done|]; done.
  - split; [split; [done|]|done|]; done.
Qed.

Lemma root_roomy s : roomy (on_image s (root_cache s)).
Proof.
  split; [by exists 1%nat, 2%nat, free_ino, free_ino|]. intros i p Hp. destruct i as [|[|[|i]]]; [| | |done];
    injection Hp as <-; [change (0 <= 1 < 2 ^ 31 - 3)|change (0 <= 0 < 2 ^ 31 - 3)..]; lia.
Qed.

Lemma demo_freeblock : match mkfs_main [file1] mkst0 with Ok (_, s) => s.(freeblock) | _ => 0 end = 39.
Proof. vm_compute. reflexivity. Qed.

Lemma demo_room s : mkfs_main [file1] mkst0 = Ok (tt, s) -> image_ok [file1] s -> FsFile.free_room mkfs_sb s.(img) 2.
Proof.
  intros R I. pose proof demo_freeblock as Hf. rewrite R in Hf. exists [100; 101]. split_and!.
  - apply (bool_decide_unpack (NoDup [100; 101])). by vm_compute.
  - simpl. lia.
  - intros b Hb. change (gs mkfs_sb) with 32. change (gend mkfs_sb) with 19832.
    assert (b = 100 \/ b = 101) as [-> | ->] by (set_unfold in Hb; lia); (split; [lia|]); rewrite (im_bits _ _ I), Hf by lia; by vm_compute.
Qed.

(** Witness of [dirlink_spec]: "foo" is added to the root directory. *)
Lemma dirlink_spec_witness :
  exists s s1 st order d' dat', mkfs_main [file1] mkst0 = Ok (tt, s) /\
    dirlink 1 nodev nodevw 0 nofile 2 (on_image s (root_cache s)) = Ok (0, st) /\
    FsContent.written 1 FSSIZE mkfs_sb s1 st order 0 (root_ino s) d' dat' /\ dmap dat' (dname nofile) = Some 2.
Proof.
  destruct (mkfs_run [file1] file1_ok) as (s & R & I); [simpl; lia|by vm_compute|]. exists s.
  destruct (on_image_idle [file1] s (root_cache s) (Some 0%nat) I (fun i p => root_cache_ok s i p I)) as [Id E].
  destruct (plain_name nofile ltac:(by vm_compute)) as (H1 & H2 & H3).
  set (p := mk_inode 1 1 1 initsleeplock false dinode0).
  assert (El : locked 1 mkfs_sb (contents (on_image s (root_cache s))) p = root_ino s).
  { unfold root_ino, locked. by rewrite (dino_eq mkfs_sb _ _ _ E). }
  pose proof (dirlink_spec 1 FSSIZE mkfs_sb mkfs_geo nodev nodevw (on_image s (root_cache s)) boot_order 0 p (padded (root_entries [file1])) nofile 2) as K.
  assert (Em : dmap (padded (root_entries [file1])) (dname nofile) = None).
  { rewrite root_map; [|exact file1_ok|simpl; lia|by vm_compute|by vm_compute]. vm_compute. reflexivity. }
  rewrite Em in K. destruct K as (s1 & st & o & d' & dat' & _ & Rd & W & Hm).
  - exact Id.
  - apply root_roomy.
  - rewrite El. reflexivity.
  - change (0 < 1). lia.
  - apply (isdir_eq mkfs_sb s.(img)); [exact E|]. apply image_isdir; [exact I|exact file1_ok|simpl; lia|by vm_compute].
  - exact H3.
  - lia.
  - vm_compute. congruence.
  - vm_compute. congruence.
  - apply (free_room_eq mkfs_sb s.(img)); [exact E|]. by apply demo_room.
  - rewrite El in W. exists s1, st, o, d', dat'. split; [exact R|]. split; [exact Rd|]. split; [exact W|]. rewrite Hm. by rewrite decide_True.
Defined.

(** Thirty files, with "." and "..", fill the only block of the root directory;
    mkfs rounds the size up by a whole block all the same. *)
Definition files30 : list (list Z * list Z) := map (fun i => ([97 + Z.of_nat i; 0], [])) (seq 0 30).

(** The kernel outside of a transaction, with the root directory locked. *)
Definition reading_root (s : mkst) : fsst :=
  mk_fsst (mk_lgst (mk_log 2 30 0 false 1 0 (replicate 30 0)) (mk_bio booted_bufs s.(img) FSSIZE []) 0) (root_cache s) mkfs_sb.

(** Reading the root directory of that image past its entries, as ls does
    with [fileread], asks [bmap] for a block that is not there; [bmap] adds
    one, and writing the bitmap outside of a transaction panics. *)
Theorem full_root_panics :
  match mkfs_main files30 mkst0 with
  | Ok (_, s) => (dnode s.(img) 1).(d_size) = 1024 /\ readi 1 nodev 0 512 16 (reading_root s) = Panic "log_write outside of trans"
  | _ => False
  end.
Proof. vm_compute. split; reflexivity. Qed.

(** A link to "/." waits for the lock of the root directory that the process
    itself holds, see [FsName.dirlink_self_deadlock]. *)
Lemma link_dot_deadlocks :
  match mkfs_main [file1] mkst0 with
  | Ok (_, s) => dirlink 1 nodev nodevw 0 (lit ".") 2 (on_image s (root_cache s)) = Panic "sleep"
  | _ => False
  end.
Proof. vm_compute. reflexivity. Qed.

End PathDemo.
